(* ===== verification/_CoqProject ===== *)
-Q . S2P
Prelude.v
GoStrings.v
GoPath.v
Json.v
Hash.v
Contracts.v
Guard.v
Approval.v
Nonce.v
GoText.v
Unicode.v
Regex.v
Platform.v
Targets.v
Executor.v
Rollback.v
Handlers.v
Config.v
Trace.v
Store.v
Planner.v
Scope.v
Agent.v
Network.v
Hub.v
Registry.v
Decode.v
Safefs.v
FileServers.v
Prepare.v
Managed.v
General.v
Workflows.v
Evidence.v
Diagnosis.v
FileAction.v
Orchestrate.v
Resume.v
Wire.v
Llm.v
ToolServers.v
Retrieval.v
Perception.v
AuditTrail.v
Going.v
Recovery.v
AuditRuns.v
System.v
Api.v
Settings.v
Admission.v
Served.v
