(* ===== verification/Prelude.v ===== *)
(** * SafeOps Agent: a verification development

    SafeOps Agent is an operations assistant that may read a Linux host
    through tool servers and may change it only through a separate
    privileged executor, with a human approval in between.  This library
    models the program from the operator's request in the web console to the
    change on the host, with the files both processes keep, and proves what
    makes it safe.

    ** The program's parts

<<
    web console -> Api: handlers, limits, event stream (Hub)
      accepted message -> a durable task -> a run (Orchestrate)
        fixed workflow (Workflows): reads, evidence, one bound write
        file action (FileAction): the write the operator named
        investigation (General): the planner (Llm) proposes a decision
          tool call: read scope, schema, guards, audit line, Registry,
             tool server (ToolServers over Network, Platform, Diagnosis)
          action request: managed action (Managed)
        Prepare: snapshot, envelope, guards, audit line, approval record,
             the task waits with the signed envelope
      approval store <- the operator decides in the console
      Resume: the waiting task sends its envelope over the socket (Wire)
    executor process: Validate (signature, times, host, allowlist, target
             snapshot, safety pipeline, approval, nonce) -> handler ->
             service / process / file / quarantine, verified result
      the workflow goes on with fresh readings (ContinueAfterAction)
>>

    What each file models, from the bottom of the dependency order up.

    - [Prelude]: errors as Go has them (wrapping, joining, [errors.Is]), the
      monad [M] of the effectful parts, its invariant calculus [obeys], its
      weakest preconditions [wp] and [wpw], its two-state calculus [stays],
      lists and strings.
    - [GoStrings], [GoPath], [GoText], [Unicode], [Regex]: the operations of
      [strings], [strconv], [bufio], [path/filepath], [unicode] and [regexp]
      the program uses, on bytes, with the facts the checks need.
    - [Json]: [encoding/json] printing and reading, with injectivity of the
      printer and the round trip.  [Hash]: SHA-256, HMAC and hexadecimal,
      computed.  [Decode]: reading into typed destinations.
    - [Contracts] ([contracts/action.go], [contracts/envelope.go]): the
      values that cross the trust boundary, their digests and signatures.
    - [Guard] ([internal/guard]): the tool catalog, the static and intent
      guards, the risk engine and the pipeline that composes them.
    - [Approval] ([internal/approval/store.go]): the approval records; its
      module [Shared] interleaves the system calls of the two processes
      that share the directory.
    - [Nonce] ([internal/executor/nonce.go]): the replay store.
    - [Platform], [Network] ([internal/platform]): the readers of [/proc],
      of [systemctl] and [journalctl] and of the host, over the classes
      [Machine] and [HostCalls].  [Diagnosis] ([internal/evidence],
      [internal/rca]): the evidence graph and the root cause of a port
      conflict.  [ToolServers] ([internal/mcpservers]): the handlers of the
      process, service, journal, network, system and diagnostic servers.
      [Retrieval] ([internal/retrieval]): the knowledge documents the
      diagnosis is given.
    - [Safefs] ([internal/safefs]): the roots the file tools may read, the
      opening of a path without following a link, the bounded readings.
      [FileServers]: the handlers of the file and configuration servers.
      [Perception] ([internal/perception]): batches of observations from the
      readers of the host, and their adapters.
    - [Targets] ([internal/executor/target.go]): snapshots, allowlists,
      revalidation.  [Executor] ([validator.go], [executor.go]): the
      privileged gate, over the approval store through the class
      [ApprovalVerifier].  [Config] ([config.go]): the administrator's roots
      and those the operator manages.  [Wire] ([http.go], [client.go]): the
      socket between the processes.
    - [Rollback] ([internal/rollback/quarantine.go]): the quarantine of
      files with its manifests and its recovery, system call by system
      call.  [Handlers] ([mutation_handlers.go], [quarantine_handler.go],
      [secret.go]): what the executor does once an envelope is valid.
    - [Trace] ([internal/trace/trace.go]): the hash-chained audit log on
      the bytes of its file, with torn writes, recovery and verification.
    - [Store] ([internal/storage/file.go], [internal/task],
      [internal/session]): sessions, tasks, the preparation journal, the
      worker leases and their fences.
    - [Planner] ([session_context.go], [schema.go], [llm/provider.go]): what
      the planner is shown and how its arguments are checked.  [Scope]
      ([general_scope.go]): the paths the operator's words allow.
    - [Llm] ([internal/llm/openai.go]): the planner behind an endpoint, and
      the contract its decisions meet.  [Settings] ([settings.go],
      [runtime.go]): the settings of the planner and their handlers.
    - [Registry] ([internal/registry]): discovery, health and calls of the
      tool servers, with the calls of other goroutines in between.
    - [Agent] ([reducer.go]): the budget of a run, and the state and the
      interfaces the workflows share.  [Prepare] ([action_preparer.go]),
      [Managed] ([managed_action.go]), [General] ([general.go]),
      [Workflows] ([port_workflow.go], [cpu_workflow.go],
      [disk_workflow.go]), [FileAction] ([file_action.go],
      [context/resolver.go]), [Orchestrate] ([orchestrator.go]), [Resume]
      ([approval_resume.go]): the workflows, each function of each file.
    - [Evidence], [Going], [Recovery], [AuditTrail], [AuditRuns], [System]:
      what those parts keep to together: on what evidence a workflow acts,
      what a run does to approvals, tasks that are taken up again, the audit
      log under the agent and under whole runs, and the agent over any
      history.
    - [Api], [Hub] ([internal/api/server.go], [hub.go]): the requests of the
      console, the runs in the background and the event stream.
      [Admission]: which messages are accepted.  [Served]: histories of
      requests.

    ** How state and effects correspond

    A Go method on a pointer becomes a function of the record it points to,
    in the monad [M S A] when it reads the clock, draws an id, polls its
    context or makes a system call: [M S A] takes an environment [Env] and a
    [World S] and gives a value or an error and the next world.  The
    environment is the list of answers of the outside: the n-th time, the
    n-th id, whether the n-th poll of the context finds it done, whether the
    n-th system call fails, and how much of a failing write had arrived.
    Theorems quantify over it, so they cover every fault at every system
    call; a crash is an environment whose system calls all fail from some
    index on, and a restart runs the code that opens the files again on the
    state the crash left.  Files are kept as what their bytes decode to
    ([None] for bytes that do not decode), except the audit log, the replay
    file and the planner's settings, which are bytes.  [sys] is one system
    call, [atomic_write] the create, write, sync and rename of a replaced
    file.  A lock that serialises whole operations is not a step: an
    operation of the hub or of the store, and a request of the console, is
    one step of a history; where two processes share files without a lock
    ([Approval.Shared], [Store]'s protocol) the system calls are
    interleaved.  The registry holds its inner lock for a few lines at a
    time: there the operations that [lifecycleMu] orders are sequences of
    such sections, and between any two of them [Registry.others] runs the
    steps of other goroutines that a schedule names - the look-up and the
    sending of a tool call, which [CallTool] does not do under one lock, and
    the flag of [SetEnabled].

    A Go string is its bytes.  [int] values that only count are [Z] or
    [nat]; the conversions the code makes ([uint32], [int64], [ParseInt]
    and its range errors, [strconv.Atoi]) are written out, and the fractions
    the code compares or prints are computed in the arithmetic of [float64]
    with its rounding ([Planner.float64], [Network]).  Times are nanoseconds
    since 1970.  A number that was decoded from JSON is the literal
    [json.Marshal] prints for it; integers beyond 2^53 in an untyped value,
    which Go would round, are excluded where it matters
    ([ToolServers.carried]).  Random ids and times drawn inside a store's
    update callback are drawn just before the update.

    Code outside the repository is a parameter: [UnicodeCase],
    [UnicodeUpper], [UnicodeClass] and [UnicodeHan] (the tables beyond
    ASCII), [TimeText],
    [TimeParse] and [LocalDate] (printing and parsing of times), [Regexp],
    [PlannerPatterns], [SecretPatterns] and [ManagedPatterns] (the regular
    expression engine on patterns that are not modelled in [Regex]),
    [Sprinter] ([fmt.Sprint]), [FloatText], [FloatPrint], [MathExp]
    and [MathLog] (decimal text of fractions, [math.Exp], [math.Log]), [MapRange], [MapOrder] and
    [EdgeRange] (the order of a Go map), [EventDecoder] and [EnvelopeDecoder] (typed JSON
    decoding), [ConfigYaml] and [RegistryYaml] (YAML), [UrlLibrary] and
    [HttpClient] ([net/url], [net/http]), [McpLibrary] and [PathLookup] (the
    tool-server library and its child processes), [Machine], [HostCalls],
    [OsRoot], [Kernel], [Descriptors] and
    [NewFile] (the operating system), [Outside],
    [HealthVerifier] (the planner, the tool servers and the HTTP check, seen
    from the agent).  Laws on them are classes of their own ([TimeTextOk],
    [TimeRoundtrip], [EventDecoderOk], [SecretPatternsOk], [ConfigYamlOk],
    [LinksOk], [EdgeRangeOk], [FloatPrintOk]), with instances in the
    witnesses; [snapshot_bounds] assumes that no file has a negative size.  Interfaces of the code are classes too ([ApprovalVerifier],
    [TraceSink], [TraceReader]) with the promise a client relies on as a law
    ([ApprovalPromise], [AuditLog], [AuditReader]) that the implementation's
    file discharges.

    ** What the theorems show

    - The server as a whole: whatever requests arrive, whatever fails and
      wherever it stops, no approval sends two envelopes
      ([system_executes_once], [console_executes_once]) and every call the
      agent made is in its audit log ([every_effect_announced]).
    - The gate: an effect on the host needs an envelope signed with the
      executor's secret, in time, for this host, for a target whose snapshot
      is the approved one, an approval of exactly this binding consumed
      once, and a fresh nonce ([execute_gate], [revalidate_binds],
      [shared_single_use], [nonce_no_replay],
      [replay_only_across_expiry]); what was signed and digested is what is
      executed ([signature_covers_envelope]); the socket delivers an
      envelope at most once and changes nothing on the way
      ([wire_delivers_once], [wire_transparent]); the roots of the executor
      stay below the administrator's ([managed_roots_confined],
      [directories_confined]).
    - The guards: the pipeline's verdict is the declarative policy
      ([pipeline_verdict], [forbidden_tool_denied], [risk_monotone]).
    - The agent: a run ends within its budget ([general_run_bounded]); reads
      stay in the operator's scope ([read_scope_exact]); writes are grounded
      in the operator's words and in evidence ([managed_action_grounded])
      and wait with exactly what was approved ([prepared_action_bound]); the
      fixed workflows ask and declare success only on evidence
      ([recoveries_ask_on_evidence], [recoveries_complete_on_evidence]), and
      what they read is what the tool servers saw, from the sockets of the
      host to the process they name ([recovery_asked_exactly],
      [diagnosis_exact]); a task whose action was on its way is never run
      again ([in_flight_never_repeated]); the metrics workflow reads each
      step once ([metrics_complete_from_scratch]); a resumption tells what
      happened ([resume_reports_outcome]).
    - The planner: only decisions that meet the contract of the request - a
      listed tool, a listed action, a replan, or an answer that cites an
      observation if there is one - get through, after at most one repair
      ([decide_contract]), and every decision that meets it does
      ([decision_accepted_exactly]); its
      settings survive a crash or are unchanged ([settings_durable]).
    - The tool servers: a call is sent once, to the session its own look-up
      found, which listed the tool and was in use - closed before only by a
      health check under way ([calls_registered]); what is offered can be
      called ([available_exact]), after a server was disabled no look-up
      finds it and at most a call that was under way reaches the closed
      session ([disabled_stays_silent]), and a clean health cycle leaves
      every enabled server connected ([clean_cycle_heals]).
    - The file tools: a path is read below the deepest root that covers it
      or refused ([rootFor_exact], [NewReader_roots]), a walk ends
      ([walks_end]), a snapshot keeps its bounds ([snapshot_bounds]), and the
      difference against a baseline is complete ([validateBaseline_exact],
      [diff_snapshot_complete]).
    - Observations: a batch keeps what the healthy sources gave, each under a
      deadline of its own, in order and within its budget
      ([collect_all_exact]); the payloads of the adapters
      are bounded and well named ([prometheus_payload],
      [telemetry_payload]).  A search names exactly the terms a document
      shares with the query ([NewBM25_exact], [search_exact]).
    - The console: a message is accepted exactly under its conditions and is
      durable before the answer ([message_admission],
      [accepted_is_durable]), the runs in the background are limited
      ([runs_limited]), and within one run of the server the event stream
      loses and repeats nothing it could keep, and tells of a gap under an
      exact condition ([stream_exact]).
    - The files: no crash loses a quarantined file or leaves it half moved
      after recovery ([quarantine_never_loses],
      [quarantine_atomic_after_recovery], [quarantine_restore_roundtrip]);
      an old worker cannot write over a new one ([lease_fencing]); a
      preparation takes effect whole or not at all ([prepare_task_atomic],
      [store_recovers], [store_refines_protocol]); acknowledged audit events
      survive, the chain verifies after recovery and an edit of it is
      detected ([trace_durable], [trace_tamper_evident]).

    No theorem assumes that SHA-256 has no collisions: where a digest must
    identify its text the conclusion is "or here are two texts with the same
    digest" ([Hash.collides]).

    ** Fuel

    [General.investigate] counts turns; [general_run_bounded] gives the fuel
    that is enough, one more than the turns the budget leaves.
    [Safefs.walk_fuel] is the depth below which no visitor descends;
    [walks_end] shows that more fuel changes nothing.  [Llm.attempts] counts the repairs the code allows.
    [Llm.references_from] has one step per byte of the answer.
    [Store.await_lock] counts the polls while another process holds the
    lock, the environment of the wait.  [Json.parse] counts nesting,
    [Json.parse_print] gives enough.  The wait of a terminated process
    ([Handlers.await_exit]) counts the ticks of the code's timer.

    ** Not modelled

    - [LoadDirectory] of [internal/retrieval]; [internal/target],
      [internal/lab] and [internal/benchmark], which report and measure;
      [cmd] other than the start of the planner, of the resumptions and of
      the registry; [web], [scripts] and [deploy].
    - In [internal/api]: static files, headers, the log of requests and the
      status pages.  In the tool servers: the registration with the
      library and its check of input types.
    - In the modelled files: progress messages to the caller ([emitEvent]),
      the value Go returns beside an error, loss of unsynced data at a
      power failure, the words of the errors of [encoding/json], its limit
      on nesting, the order [sort.Slice] gives to equal elements (they keep
      theirs), and the child process that resolves executables. *)

From Stdlib Require Export ZArith Lia List Bool String Ascii.
From stdpp Require Export base gmap strings list sorting pretty.

Declare Scope go_scope.
Delimit Scope go_scope with go.
#[export] Set Warnings "-notation-incompatible-prefix".
#[global] Open Scope string_scope.
#[global] Arguments String.append !s1 s2 : simpl nomatch, rename.
#[global] Open Scope list_scope.

(** ** Errors

    Go's [error] values.  [EMsg] is [errors.New] (and [fmt.Errorf] without
    [%w]), [EWrap] is [fmt.Errorf("...: %w", err)], [EJoin] is
    [errors.Join], [ESys] is an error of the operating system or of a
    context, and [ESentinel] is an exported error variable compared by
    identity. *)
Inductive errno :=
  | ENOENT | EEXIST | EACCES | EIO | ENOSPC | ENOTDIR | EISDIR | ELOOP
  | ESRCH | ECANCELED | EDEADLINE | ENOSYS | ECRASH.

#[export] Instance errno_eq_dec : EqDecision errno.
Proof. solve_decision. Defined.

Inductive error :=
  | EMsg (msg : string)
  | EWrap (prefix : string) (inner : error)
  | EJoin (e1 e2 : error)
  | ESys (no : errno)
  | ESentinel (name : string).

#[export] Instance error_eq_dec : EqDecision error.
Proof. solve_decision. Defined.

(** [errors.Is] against an operating-system error and against a sentinel. *)
Fixpoint errors_is (e : error) (no : errno) : bool :=
  match e with
  | EMsg _ | ESentinel _ => false
  | EWrap _ e => errors_is e no
  | EJoin e1 e2 => errors_is e1 no || errors_is e2 no
  | ESys no' => bool_decide (no' = no)
  end.

Fixpoint errors_is_sentinel (e : error) (name : string) : bool :=
  match e with
  | EMsg _ | ESys _ => false
  | EWrap _ e => errors_is_sentinel e name
  | EJoin e1 e2 => errors_is_sentinel e1 name || errors_is_sentinel e2 name
  | ESentinel n => bool_decide (n = name)
  end.

(** [errors.Join] drops nil errors and is nil when all are. *)
Definition errors_join (a b : option error) : option error :=
  match a, b with
  | Some x, Some y => Some (EJoin x y)
  | Some x, None => Some x
  | None, o => o
  end.

Fixpoint errors_join_list (es : list error) : option error :=
  match es with
  | [] => None
  | e :: es => errors_join (Some e) (errors_join_list es)
  end.

(** ** Results: a value or an error. *)
Inductive result (A : Type) :=
  | Ok (a : A)
  | Err (e : error).
Arguments Ok {A} a.
Arguments Err {A} e.

Definition rbind {A B} (r : result A) (k : A -> result B) : result B :=
  match r with Ok a => k a | Err e => Err e end.

Definition is_ok {A} (r : result A) : bool :=
  match r with Ok _ => true | Err _ => false end.

(** [if cond { return err }] before the rest of a function. *)
Definition guard_ (c : bool) (e : error) : result unit :=
  if c then Err e else Ok tt.

Definition wrap_err {A} (prefix : string) (r : result A) : result A :=
  match r with Ok a => Ok a | Err e => Err (EWrap prefix e) end.

Notation "'let?' x := r 'in' k" := (rbind r (fun x => k))
  (at level 10, x binder, r at level 100, k at level 200,
   format "'[v' 'let?'  x  :=  r  'in' '/' k ']'") : go_scope.
Notation "'fail_if' c 'with' e ;; k" := (if c then Err e else k)
  (at level 10, c at level 99, e at level 99, k at level 200,
   format "'[v' 'fail_if'  c  'with'  e  ;; '/' k ']'") : go_scope.

Lemma existsb_elem {A} (f : A -> bool) l : existsb f l = true <-> exists x, x ∈ l /\ f x = true.
Proof.
  rewrite existsb_exists. split; intros (x&Hx&?); exists x; (split; [by apply list_elem_of_In|done]).
Qed.

Lemma rbind_ok {A B} (r : result A) (k : A -> result B) b :
  rbind r k = Ok b <-> exists a, r = Ok a /\ k a = Ok b.
Proof. destruct r; cbn; split; [eauto|intros (?&[=->]&?); done|done|by intros (?&?&?)]. Qed.

Lemma rbind_err {A B} (r : result A) (k : A -> result B) e :
  rbind r k = Err e <-> r = Err e \/ exists a, r = Ok a /\ k a = Err e.
Proof.
  destruct r; cbn; split.
  - eauto.
  - intros [?|(?&[=->]&?)]; done.
  - intros [=->]; eauto.
  - intros [[=->]|(?&?&?)]; done.
Qed.

Lemma fail_if_ok {A} (c : bool) e (k : result A) a :
  (if c then Err e else k) = Ok a <-> c = false /\ k = Ok a.
Proof. destruct c; split; naive_solver. Qed.

(** ** The effectful programs

    A program part runs in an environment that decides what the outside
    does: [clock n] is the n-th answer of [time.Now], [faults n] says
    whether the n-th system call fails (and how), [rand n] is the n-th
    answer of [id.New], [cancel n] is the n-th answer of [ctx.Err] and
    [torn n] is how many bytes the n-th system call wrote before it failed
    (only a failing [write] reads it).  A crash is an environment all of
    whose system calls fail from some index on: the code that runs after
    the crash then changes nothing durable. *)
Record Env := MkEnv {
  clock : nat -> Z;
  faults : nat -> option errno;
  rand : nat -> string;
  cancel : nat -> option errno;
  torn : nat -> nat
}.

Record World (S : Type) := MkWorld {
  st : S;
  ticks : nat;
  sysno : nat;
  draws : nat;
  polls : nat
}.
Arguments MkWorld {S} st ticks sysno draws polls.
Arguments st {S} w.
Arguments ticks {S} w.
Arguments sysno {S} w.
Arguments draws {S} w.
Arguments polls {S} w.

Definition with_st {S T} (w : World S) (s : T) : World T :=
  MkWorld s (ticks w) (sysno w) (draws w) (polls w).

Definition init_world {S} (s : S) : World S := MkWorld s 0 0 0 0.

Definition M (S A : Type) := Env -> World S -> result A * World S.

Definition ret {S A} (a : A) : M S A := fun _ w => (Ok a, w).
Definition throw {S A} (e : error) : M S A := fun _ w => (Err e, w).
Definition bind {S A B} (m : M S A) (k : A -> M S B) : M S B :=
  fun E w => match m E w with
             | (Ok a, w') => k a E w'
             | (Err e, w') => (Err e, w')
             end.

Notation "x <- m ;; k" := (bind m (fun x => k))
  (at level 100, m at next level, right associativity) : go_scope.
Notation "'let!' p := m 'in' k" := (bind m (fun x => let 'p := x in k))
  (at level 10, p pattern, m at level 100, k at level 200) : go_scope.
Notation "m ;;; k" := (bind m (fun _ => k))
  (at level 100, right associativity) : go_scope.
#[global] Open Scope go_scope.

(** Run a part and keep its error as a value ([if err := f(); ...]). *)
Definition try_ {S A} (m : M S A) : M S (result A) :=
  fun E w => let '(r, w') := m E w in (Ok r, w').

(** [fmt.Errorf("prefix: %w", err)] around the error of a part. *)
Definition wrapping {S A} (prefix : string) (m : M S A) : M S A :=
  fun E w => match m E w with
             | (Ok a, w') => (Ok a, w')
             | (Err e, w') => (Err (EWrap prefix e), w')
             end.

Definition lift {S A} (r : result A) : M S A := fun _ w => (r, w).
Definition get_st {S} : M S S := fun _ w => (Ok (st w), w).
Definition put_st {S} (s : S) : M S unit := fun _ w => (Ok tt, with_st w s).
Definition modify {S} (f : S -> S) : M S unit :=
  fun _ w => (Ok tt, with_st w (f (st w))).

(** [defer f.Close()], its error ignored. *)
Definition closing {S A} (close : M S unit) (m : M S A) : M S A :=
  r <- try_ m ;; try_ close ;;; lift r.

(** [time.Now().UTC()] *)
Definition now {S} : M S Z :=
  fun E w => (Ok (clock E (ticks w)),
              MkWorld (st w) (1 + ticks w) (sysno w) (draws w) (polls w)).

(** [time.Time{}], in nanoseconds since the Unix epoch, and
    [time.Minute]. *)
Definition zero_time : Z := (-62135596800000000000)%Z.
Definition Minute : Z := 60000000000%Z.

(** [id.New(prefix)]: the prefix and twelve random bytes in hexadecimal. *)
Definition new_id {S} (prefix : string) : M S string :=
  fun E w => (Ok (prefix +:+ "_" +:+ rand E (draws w)),
              MkWorld (st w) (ticks w) (sysno w) (1 + draws w) (polls w)).

(** [ctx.Err()] as a guard: fails when the context is done. *)
Definition ctx_check {S} : M S unit :=
  fun E w =>
    let w' := MkWorld (st w) (ticks w) (sysno w) (draws w) (1 + polls w) in
    match cancel E (polls w) with
    | Some no => (Err (ESys no), w')
    | None => (Ok tt, w')
    end.

(** A system call: it fails without effect when the environment says so,
    and otherwise does what [f] says on the current state. *)
Definition sys {S A} (f : S -> result (A * S)) : M S A :=
  fun E w =>
    let w' := MkWorld (st w) (ticks w) (1 + sysno w) (draws w) (polls w) in
    match faults E (sysno w) with
    | Some no => (Err (ESys no), w')
    | None => match f (st w) with
              | Ok (a, s) => (Ok a, with_st w' s)
              | Err e => (Err e, w')
              end
    end.

(** A [write]: when it fails, [torn] says how many bytes had arrived, and
    [g] what that leaves behind. *)
Definition sys_torn {S A} (f : S -> A * S) (g : nat -> S -> S) : M S A :=
  fun E w =>
    let w' := MkWorld (st w) (ticks w) (1 + sysno w) (draws w) (polls w) in
    match faults E (sysno w) with
    | Some no => (Err (ESys no), with_st w' (g (torn E (sysno w)) (st w)))
    | None => let '(a, s) := f (st w) in (Ok a, with_st w' s)
    end.

(** System calls without an effect on the modelled state (create, chmod,
    write, sync and close of a temporary file, sync of a directory). *)
Definition probe {S} : M S unit := sys (fun s => Ok (tt, s)).

Fixpoint probes {S} (n : nat) : M S unit :=
  match n with
  | 0 => ret tt
  | 1 => probe
  | Datatypes.S n => probe ;;; probes n
  end.

(** Replacing a file atomically: create, fill, sync and close a temporary
    file ([before] system calls), rename it into place ([f]), and sync the
    directory ([after] system calls). *)
Definition atomic_write {S} (before after : nat) (f : S -> S) : M S unit :=
  probes before ;;;
  sys (fun s => Ok (tt, f s)) ;;;
  probes after.

(** A part called with [context.Background()], which is never done. *)
Definition background_env (E : Env) : Env :=
  MkEnv (clock E) (faults E) (rand E) (fun _ => None) (torn E).
Definition background {S A} (m : M S A) : M S A := fun E w => m (background_env E) w.

(** Run a part on a component of a larger state. *)
Definition zoom {S T A} (get : T -> S) (set : S -> T -> T) (m : M S A) : M T A :=
  fun E w => let '(r, w') := m E (with_st w (get (st w))) in
             (r, with_st w' (set (st w') (st w))).

Fixpoint mapM {S A B} (f : A -> M S B) (l : list A) : M S (list B) :=
  match l with
  | [] => ret []
  | x :: l => y <- f x ;; ys <- mapM f l ;; ret (y :: ys)
  end.

(** *** What every part respects

    [obeys R m]: whatever the environment does, [m] moves from a world to
    an [R]-related one.  With [R] a preorder this composes, and a fault at
    any system call is covered because [obeys] quantifies over [Env]. *)
Definition obeys {S A} (R : World S -> World S -> Prop) (m : M S A) : Prop :=
  forall E w, R w (snd (m E w)).

Section Obeys.
Context {S : Type} (R : World S -> World S -> Prop) `{!PreOrder R}.

Lemma obeys_ret {A} (a : A) : obeys R (ret a).
Proof. intros E w; cbn; reflexivity. Qed.

Lemma obeys_throw {A} e : obeys R (@throw S A e).
Proof. intros E w; cbn; reflexivity. Qed.

Lemma obeys_lift {A} (r : result A) : obeys R (lift r).
Proof. intros E w; cbn; reflexivity. Qed.

Lemma obeys_get : obeys R get_st.
Proof. intros E w; cbn; reflexivity. Qed.

Lemma obeys_bind {A B} (m : M S A) (k : A -> M S B) :
  obeys R m -> (forall a, obeys R (k a)) -> obeys R (bind m k).
Proof.
  intros Hm Hk E w. unfold bind. specialize (Hm E w).
  destruct (m E w) as [[a|e] w1]; cbn in *; [|done].
  etransitivity; [done|apply Hk].
Qed.

Lemma obeys_try {A} (m : M S A) : obeys R m -> obeys R (try_ m).
Proof. intros Hm E w. specialize (Hm E w). unfold try_. by destruct (m E w). Qed.

Lemma obeys_wrapping {A} p (m : M S A) : obeys R m -> obeys R (wrapping p m).
Proof.
  intros Hm E w. specialize (Hm E w). unfold wrapping.
  by destruct (m E w) as [[]].
Qed.

Lemma obeys_mapM {A B} (f : A -> M S B) l :
  (forall x, obeys R (f x)) -> obeys R (mapM f l).
Proof.
  intros Hf. induction l as [|x l IH]; cbn; [apply obeys_ret|].
  apply obeys_bind; [done|]. intros y. apply obeys_bind; [done|].
  intros ys. apply obeys_ret.
Qed.
End Obeys.

(** A relation on states lifted to worlds. *)
Definition on_st {S} (R : S -> S -> Prop) (w w' : World S) : Prop :=
  R (st w) (st w').

#[export] Instance on_st_preorder {S} (R : S -> S -> Prop) :
  PreOrder R -> PreOrder (on_st R).
Proof. split; [intros w; unfold on_st; reflexivity|intros x y z; unfold on_st; apply transitivity]. Qed.

(** The counters of the environment only move forward. *)
Definition advances {S} (w w' : World S) : Prop :=
  ticks w <= ticks w' /\ sysno w <= sysno w' /\ draws w <= draws w' /\ polls w <= polls w'.

#[export] Instance advances_preorder {S} : PreOrder (@advances S).
Proof. split; unfold advances; intros ?; intros; lia. Qed.

(** The leaves, for a relation on states. *)
Section Leaves.
Context {S : Type} (R : S -> S -> Prop) `{!PreOrder R}.

Lemma obeys_now : obeys (on_st R) now.
Proof. intros E w; unfold on_st; cbn; reflexivity. Qed.

Lemma obeys_new_id p : obeys (on_st R) (new_id p).
Proof. intros E w; unfold on_st; cbn; reflexivity. Qed.

Lemma obeys_ctx_check : obeys (on_st R) ctx_check.
Proof. intros E w; unfold on_st, ctx_check; cbn; destruct (cancel _ _); cbn; reflexivity. Qed.

Lemma obeys_sys {A} (f : S -> result (A * S)) :
  (forall s a s', f s = Ok (a, s') -> R s s') -> obeys (on_st R) (sys f).
Proof.
  intros Hf E w; unfold on_st, sys; cbn. destruct (faults _ _); cbn; [reflexivity|].
  destruct (f (st w)) as [[a s']|e] eqn:Ef; cbn; [eauto|reflexivity].
Qed.

Lemma obeys_probe : obeys (on_st R) probe.
Proof. apply obeys_sys. intros s a s' [= <- <-]. reflexivity. Qed.

Lemma obeys_probes n : obeys (on_st R) (probes n).
Proof.
  induction n as [|[|n] IH]; cbn -[probe].
  - apply obeys_ret, _.
  - apply obeys_probe.
  - apply obeys_bind; [apply _|apply obeys_probe|done].
Qed.

Lemma obeys_modify (f : S -> S) :
  (forall s, R s (f s)) -> obeys (on_st R) (modify f).
Proof. intros Hf E w; unfold on_st; cbn; auto. Qed.
End Leaves.

Create HintDb io discriminated.
#[export] Hint Resolve obeys_now obeys_new_id obeys_ctx_check obeys_probe obeys_probes
  obeys_ret obeys_throw obeys_lift obeys_get obeys_try obeys_wrapping
  obeys_mapM : io.

(** Walk through a monadic program, leaving the effectful leaves. *)
Ltac obeys_walk :=
  repeat match goal with
  | |- obeys _ (bind _ _) => apply obeys_bind; [apply _| |intros ?]
  | |- obeys _ (match ?x with _ => _ end) => destruct x
  | |- obeys _ (if ?x then _ else _) => destruct x
  | |- obeys _ (let '(_, _) := ?x in _) => destruct x
  | |- obeys _ (ret _) => apply obeys_ret; apply _
  | |- obeys _ (throw _) => apply obeys_throw; apply _
  | |- obeys _ (lift _) => apply obeys_lift; apply _
  | |- obeys _ get_st => apply obeys_get; apply _
  | |- obeys _ (try_ _) => apply obeys_try
  | |- obeys _ (wrapping _ _) => apply obeys_wrapping
  | |- obeys _ (mapM _ _) => apply obeys_mapM; [apply _|intros ?]
  | |- obeys (on_st _) now => apply obeys_now; apply _
  | |- obeys (on_st _) (new_id _) => apply obeys_new_id; apply _
  | |- obeys (on_st _) ctx_check => apply obeys_ctx_check; apply _
  | |- obeys (on_st _) probe => apply obeys_probe; apply _
  | |- obeys (on_st _) (probes _) => apply obeys_probes; apply _
  | _ => solve [eauto with io typeclass_instances]
  end.

(** *** Inversion of successful runs *)
Lemma bind_ok {S A B} (m : M S A) (k : A -> M S B) E w b w' :
  bind m k E w = (Ok b, w') <-> exists a w1, m E w = (Ok a, w1) /\ k a E w1 = (Ok b, w').
Proof.
  unfold bind. destruct (m E w) as [[a|e] w1]; split.
  - eauto.
  - by intros (?&?&[= -> ->]&?).
  - done.
  - by intros (?&?&?&?).
Qed.

Lemma bind_inv {S A B} (m : M S A) (k : A -> M S B) E w r w' :
  bind m k E w = (r, w') ->
  (exists a w1, m E w = (Ok a, w1) /\ k a E w1 = (r, w')) \/
  (exists e, m E w = (Err e, w') /\ r = Err e).
Proof. unfold bind. destruct (m E w) as [[a|e] w1]; [eauto|intros [= <- <-]; eauto]. Qed.

Lemma bind_assoc {S A B C} (m : M S A) (k : A -> M S B) (j : B -> M S C) E w :
  bind (bind m k) j E w = bind m (fun a => bind (k a) j) E w.
Proof. unfold bind. by destruct (m E w) as [[a|e] w1]. Qed.

Lemma bind_ext {S A B} (m : M S A) (k1 k2 : A -> M S B) E w :
  (forall a w', k1 a E w' = k2 a E w') -> bind m k1 E w = bind m k2 E w.
Proof. intros Hk. unfold bind. by destruct (m E w) as [[a|e] w1]. Qed.

Lemma try_ok {S A} (m : M S A) E w r w' :
  try_ m E w = (Ok r, w') <-> m E w = (r, w').
Proof. unfold try_. destruct (m E w). naive_solver. Qed.

Lemma wrapping_ok {S A} p (m : M S A) E w a w' :
  wrapping p m E w = (Ok a, w') <-> m E w = (Ok a, w').
Proof. unfold wrapping. destruct (m E w) as [[]]; naive_solver. Qed.

Lemma probe_ok {S} E (w : World S) r w' :
  probe E w = (r, w') -> st w' = st w.
Proof. unfold probe, sys. destruct (faults _ _); intros [= <- <-]; done. Qed.

Lemma probes_ok {S} n E (w : World S) r w' :
  probes n E w = (r, w') -> st w' = st w.
Proof.
  intros Hr. pose proof (obeys_probes (@eq S) n E w) as Ho.
  unfold on_st in Ho. rewrite Hr in Ho. done.
Qed.

(** Destruct existentials, conjunctions and equations between pairs. *)
Ltac deex :=
  repeat match goal with
  | H : exists _, _ |- _ => destruct H as [? H]
  | H : _ /\ _ |- _ => destruct H
  | H : (_, _) = (_, _) |- _ => injection H as ?; subst
  | H : Ok _ = Ok _ |- _ => injection H as ?; subst
  | H : Err _ = Err _ |- _ => injection H as ?; subst
  | H : Some _ = Some _ |- _ => injection H as ?; subst
  | H : Ok _ = Err _ |- _ => discriminate H
  | H : Err _ = Ok _ |- _ => discriminate H
  end.

(** A replaced file is either the old or the new one, and the new one when
    the operation succeeded. *)
Lemma atomic_write_inv {S} b a (f : S -> S) E w r w' :
  atomic_write b a f E w = (r, w') ->
  st w' = f (st w) \/ (st w' = st w /\ exists e, r = Err e).
Proof.
  unfold atomic_write. intros H.
  apply bind_inv in H as [([]&w1&H1&H)|(e&H&->)].
  - apply probes_ok in H1. apply bind_inv in H as [([]&w2&H2&H)|(e&H2&->)].
    + apply probes_ok in H. left. rewrite H, <- H1. unfold sys in H2.
      destruct (faults _ _); by inversion H2.
    + right. split; [|by eexists]. unfold sys in H2. rewrite <- H1.
      destruct (faults _ _); by inversion H2.
  - apply probes_ok in H. right. split; [done|by eexists].
Qed.

Lemma now_inv {S} E (w : World S) r w' :
  now E w = (r, w') -> r = Ok (clock E (ticks w)) /\ st w' = st w.
Proof. by intros [= <- <-]. Qed.

Lemma new_id_inv {S} p E (w : World S) r w' :
  new_id p E w = (r, w') -> r = Ok (p +:+ "_" +:+ rand E (draws w)) /\ st w' = st w.
Proof. by intros [= <- <-]. Qed.

Lemma ctx_check_inv {S} E (w : World S) r w' : ctx_check E w = (r, w') -> st w' = st w.
Proof. unfold ctx_check. destruct (cancel _ _); by intros [= <- <-]. Qed.

(** An environment in which nothing outside fails. *)
Definition quiet (E : Env) : Prop := (forall n, faults E n = None) /\ (forall n, cancel E n = None).

Lemma probe_quiet {S} E (w : World S) :
  quiet E -> exists w', probe E w = (Ok tt, w') /\ st w' = st w /\ ticks w' = ticks w /\ draws w' = draws w.
Proof. intros [Hf _]. unfold probe, sys. rewrite Hf. by eexists. Qed.

Lemma probes_quiet {S} n E (w : World S) :
  quiet E -> exists w', probes n E w = (Ok tt, w') /\ st w' = st w /\ ticks w' = ticks w /\ draws w' = draws w.
Proof.
  intros Hq. revert w. induction n as [|[|n] IH]; intros w.
  - by exists w.
  - by apply probe_quiet.
  - change (probes (Datatypes.S (Datatypes.S n))) with (@probe S ;;; probes (Datatypes.S n)).
    destruct (probe_quiet E w Hq) as (w1&E1&H1&T1&D1). destruct (IH w1) as (w2&E2&H2&T2&D2).
    exists w2. split; [|by rewrite H2, T2, D2]. unfold bind. by rewrite E1.
Qed.

Lemma atomic_write_quiet {S} b a (f : S -> S) E w :
  quiet E -> exists w', atomic_write b a f E w = (Ok tt, w') /\ st w' = f (st w) /\
    ticks w' = ticks w /\ draws w' = draws w.
Proof.
  intros Hq. destruct (probes_quiet b E w Hq) as (w1&E1&H1&T1&D1).
  unfold atomic_write, bind at 1. rewrite E1. unfold bind, sys. rewrite (proj1 Hq). cbn.
  match goal with |- context [probes a E ?u] =>
    destruct (probes_quiet a E u Hq) as (w2&E2&H2&T2&D2) end.
  exists w2. rewrite E2. cbn in *. by rewrite H2, T2, D2, H1.
Qed.

(** The calm environment of the witnesses: a fixed clock and no failures. *)
Definition calm (t : Z) (id : string) : Env :=
  MkEnv (fun _ => t) (fun _ => None) (fun _ => id) (fun _ => None) (fun _ => 0).

Lemma calm_quiet t id : quiet (calm t id).
Proof. done. Qed.

(** *** What a part guarantees from a given state

    [wp E m Q s]: from state [s], whatever the counters of the environment
    are, [m] ends with a result and a state that satisfy [Q].  The rules
    below compute it backwards through a program; [wp_go] applies them. *)
Definition wp {S A} (E : Env) (m : M S A) (Q : result A -> S -> Prop) (s : S) : Prop :=
  forall w, st w = s -> Q (m E w).1 (st (m E w).2).

Lemma wp_run {S A} E (m : M S A) Q w r w' :
  wp E m Q (st w) -> m E w = (r, w') -> Q r (st w').
Proof. intros H Hm. specialize (H w eq_refl). by rewrite Hm in H. Qed.

Lemma wp_obeys {S A} (R : S -> S -> Prop) (m : M S A) :
  (forall E s, wp E m (fun _ s' => R s s') s) -> obeys (on_st R) m.
Proof. intros H E w. by apply (H E (st w) w). Qed.

Lemma obeys_wp {S A} (R : S -> S -> Prop) (m : M S A) E s :
  obeys (on_st R) m -> wp E m (fun _ s' => R s s') s.
Proof. intros H w <-. apply H. Qed.

Lemma wp_mono {S A} E (m : M S A) (Q Q' : result A -> S -> Prop) s :
  wp E m Q s -> (forall r s', Q r s' -> Q' r s') -> wp E m Q' s.
Proof. intros H HQ w Hw. by apply HQ, H. Qed.

Lemma wp_both {S A} E (m : M S A) (Q1 Q2 : result A -> S -> Prop) s :
  wp E m Q1 s -> wp E m Q2 s -> wp E m (fun r s' => Q1 r s' /\ Q2 r s') s.
Proof. intros H1 H2 w Hw. split; auto. Qed.

Lemma wp_given {S A} (P : Prop) E (m : M S A) (Q : result A -> S -> Prop) s :
  (P -> wp E m Q s) -> wp E m (fun r s' => P -> Q r s') s.
Proof. intros Hm w Hw HP. by apply Hm. Qed.

Lemma wp_drop {S A} E (m : M S A) (Q : result unit -> S -> Prop) s :
  wp E (m ;;; ret tt) Q s -> wp E m (fun r s' => Q (match r with Ok _ => Ok tt | Err e => Err e end) s') s.
Proof. intros Hm w Hw. specialize (Hm w Hw). unfold bind in Hm. destruct (m E w) as [[a|e] w']; exact Hm. Qed.

(** A part nothing is known about, and one known only through [obeys]. *)
Lemma wp_any {S A} E (m : M S A) (Q : result A -> S -> Prop) s : (forall r s', Q r s') -> wp E m Q s.
Proof. intros H w _. apply H. Qed.

Lemma wp_of_obeys {S A} (R : S -> S -> Prop) E (m : M S A) (Q : result A -> S -> Prop) s :
  obeys (on_st R) m -> (forall r s', R s s' -> Q r s') -> wp E m Q s.
Proof. intros H HQ w <-. apply HQ, H. Qed.

Lemma wp_bind {S A B} E (m : M S A) (k : A -> M S B) Q s :
  wp E m (fun r s' => match r with Ok a => wp E (k a) Q s' | Err e => Q (Err e) s' end) s ->
  wp E (bind m k) Q s.
Proof.
  intros H w Hw. specialize (H w Hw). unfold bind.
  destruct (m E w) as [[a|e] w1]; cbn in *; [by apply H|done].
Qed.

Lemma wp_ret {S A} E (a : A) Q (s : S) : Q (Ok a) s -> wp E (ret a) Q s.
Proof. by intros H w <-. Qed.

Lemma wp_throw {S A} E e Q (s : S) : Q (Err e) s -> wp E (@throw S A e) Q s.
Proof. by intros H w <-. Qed.

Lemma wp_lift {S A} E (r : result A) Q (s : S) : Q r s -> wp E (lift r) Q s.
Proof. by intros H w <-. Qed.

Lemma wp_get {S} E Q (s : S) : Q (Ok s) s -> wp E get_st Q s.
Proof. by intros H w <-. Qed.

Lemma wp_put {S} E (s' : S) Q (s : S) : Q (Ok tt) s' -> wp E (put_st s') Q s.
Proof. by intros H w <-. Qed.

Lemma wp_modify {S} E (f : S -> S) Q (s : S) : Q (Ok tt) (f s) -> wp E (modify f) Q s.
Proof. by intros H w <-. Qed.

Lemma wp_now {S} E Q (s : S) : (forall n, Q (Ok (clock E n)) s) -> wp E now Q s.
Proof. intros H w <-. apply H. Qed.

Lemma wp_new_id {S} p E Q (s : S) :
  (forall n, Q (Ok (p +:+ "_" +:+ rand E n)) s) -> wp E (new_id p) Q s.
Proof. intros H w <-. apply H. Qed.

Lemma wp_ctx_check {S} E Q (s : S) :
  Q (Ok tt) s -> (forall no, Q (Err (ESys no)) s) -> wp E ctx_check Q s.
Proof. intros H1 H2 w <-. unfold ctx_check. by destruct (cancel _ _); cbn. Qed.

Lemma wp_sys {S A} E (f : S -> result (A * S)) Q s :
  (forall no, Q (Err (ESys no)) s) ->
  match f s with Ok (a, s') => Q (Ok a) s' | Err e => Q (Err e) s end ->
  wp E (sys f) Q s.
Proof.
  intros H1 H2 w <-. unfold sys. destruct (faults _ _); cbn; [done|].
  by destruct (f (st w)) as [[a s']|e]; cbn.
Qed.

Lemma wp_sys_torn {S A} E (f : S -> A * S) g Q s :
  (forall no k, Q (Err (ESys no)) (g k s)) -> Q (Ok (f s).1) (f s).2 -> wp E (sys_torn f g) Q s.
Proof.
  intros H1 H2 w <-. unfold sys_torn. destruct (faults _ _); cbn; [done|].
  by destruct (f (st w)) as [a s'].
Qed.

Lemma wp_probes {S} n E Q (s : S) :
  Q (Ok tt) s -> (forall e, Q (Err e) s) -> wp E (probes n) Q s.
Proof.
  intros H1 H2 w Hw. destruct (probes n E w) as [[[]|e] w'] eqn:Er; apply probes_ok in Er; cbn;
    rewrite Er, Hw; auto.
Qed.

Lemma wp_probe {S} E Q (s : S) : Q (Ok tt) s -> (forall e, Q (Err e) s) -> wp E probe Q s.
Proof. apply (wp_probes 1). Qed.

Lemma wp_atomic_write {S} b a (f : S -> S) E Q (s : S) :
  (forall r, Q r (f s)) -> (forall e, Q (Err e) s) -> wp E (atomic_write b a f) Q s.
Proof.
  intros H1 H2 w Hw. destruct (atomic_write b a f E w) as [r w'] eqn:Er. cbn.
  apply atomic_write_inv in Er as [->|[-> (e&->)]]; rewrite Hw; auto.
Qed.

(** Without system calls after the rename, an error means nothing moved. *)
Lemma wp_atomic_write0 {S} b (f : S -> S) E Q (s : S) :
  Q (Ok tt) (f s) -> (forall e, Q (Err e) s) -> wp E (atomic_write b 0 f) Q s.
Proof.
  intros H1 H2. unfold atomic_write. apply wp_bind, wp_probes; [|done].
  apply wp_bind, wp_sys; [done|]. by apply wp_ret.
Qed.

Lemma wp_try {S A} E (m : M S A) Q (s : S) :
  wp E m (fun r s' => Q (Ok r) s') s -> wp E (try_ m) Q s.
Proof. intros H w Hw. specialize (H w Hw). unfold try_. by destruct (m E w). Qed.

Lemma wp_wrapping {S A} p E (m : M S A) Q (s : S) :
  wp E m (fun r s' => Q (wrap_err p r) s') s -> wp E (wrapping p m) Q s.
Proof. intros H w Hw. specialize (H w Hw). unfold wrapping. by destruct (m E w) as [[]]. Qed.

Lemma wp_background {S A} E (m : M S A) Q (s : S) : wp (background_env E) m Q s -> wp E (background m) Q s.
Proof. done. Qed.

Lemma background_quiet E : quiet E -> quiet (background_env E).
Proof. by intros [Hf _]. Qed.

(** *** What a part keeps, and what it returns

    [stays E R m P]: in the environment [E], whatever happens, [m] changes the
    state only along [R], and [P] holds of what it returns. *)
Definition stays {S A} (E : Env) (R : S -> S -> Prop) (m : M S A) (P : A -> Prop) : Prop :=
  forall s, wp E m (fun r s' => R s s' /\ forall x, r = Ok x -> P x) s.

Section Stays.
Context {S : Type} (E : Env) (R : S -> S -> Prop) `{!PreOrder R}.

Lemma stays_mono {A} (m : M S A) (P P' : A -> Prop) : stays E R m P -> (forall x, P x -> P' x) -> stays E R m P'.
Proof. intros Hm HP s. eapply wp_mono; [apply Hm|]. intros r s' [Hr Hx]. split; [done|]. auto. Qed.

Lemma stays_ret {A} (x : A) (P : A -> Prop) : P x -> stays E R (ret x) P.
Proof. intros HP s. apply wp_ret. split; [reflexivity|]. by intros y [= <-]. Qed.

Lemma stays_throw {A} e (P : A -> Prop) : stays E R (throw e) P.
Proof. intros s. apply wp_throw. by split. Qed.

Lemma stays_lift {A} (r : result A) (P : A -> Prop) : (forall x, r = Ok x -> P x) -> stays E R (lift r) P.
Proof. intros HP s. apply wp_lift. by split. Qed.

Lemma stays_bind {A B} (m : M S A) (k : A -> M S B) (P1 : A -> Prop) (P : B -> Prop) :
  stays E R m P1 -> (forall x, P1 x -> stays E R (k x) P) -> stays E R (bind m k) P.
Proof.
  intros Hm Hk s. apply wp_bind. eapply wp_mono; [apply Hm|]. intros [x|e] s1 [Hr Hx]; [|by split].
  eapply wp_mono; [by apply Hk, Hx|]. intros r s2 [Hr' Hx']. split; [by etrans|done].
Qed.

Lemma stays_try {A} (m : M S A) (P : A -> Prop) : stays E R m P -> stays E R (try_ m) (fun r => forall x, r = Ok x -> P x).
Proof. intros Hm s. apply wp_try. eapply wp_mono; [apply Hm|]. intros r s' [Hr Hx]. split; [done|]. by intros y [= <-]. Qed.

Lemma stays_wrapping {A} p (m : M S A) P : stays E R m P -> stays E R (wrapping p m) P.
Proof.
  intros Hm s. apply wp_wrapping. eapply wp_mono; [apply Hm|]. intros [x|e] s' [Hr Hx]; split; [done|done|done|]. by intros y [=].
Qed.

Lemma stays_now (P : Z -> Prop) : (forall t, P t) -> stays E R now P.
Proof. intros HP s. apply wp_now. intros n. split; [reflexivity|]. auto. Qed.

Lemma stays_new_id p (P : string -> Prop) : (forall i, P i) -> stays E R (new_id p) P.
Proof. intros HP s. apply wp_new_id. intros n. split; [reflexivity|]. auto. Qed.

Lemma stays_ctx_check : stays E R ctx_check (fun _ => True).
Proof. intros s. apply wp_ctx_check; [by split|intros e; by split]. Qed.

Lemma stays_get (P : S -> Prop) : (forall s, P s) -> stays E R get_st P.
Proof. intros HP s. apply wp_get. split; [reflexivity|]. auto. Qed.
End Stays.

Lemma stays_background {S A} E (R : S -> S -> Prop) (m : M S A) P : stays (background_env E) R m P -> stays E R (background m) P.
Proof. intros Hm. exact Hm. Qed.

(** A loop keeps what each iteration keeps. *)
Lemma wp_mapM {S A B} E (f : A -> M S B) l (I : S -> Prop) (P : B -> Prop) s :
  (forall x s, x ∈ l -> I s -> wp E (f x) (fun r s' => I s' /\ forall b, r = Ok b -> P b) s) ->
  I s -> wp E (mapM f l) (fun r s' => I s' /\ forall bs, r = Ok bs -> Forall P bs) s.
Proof.
  intros Hf. revert s. induction l as [|x l IH]; intros s Hs; cbn.
  - apply wp_ret. split; [done|]. by intros bs [= <-].
  - apply wp_bind. eapply wp_mono; [apply Hf; [by left|done]|]. intros [b|e] s1 [H1 P1]; [|done].
    apply wp_bind. eapply wp_mono; [apply IH; [|done]; intros; apply Hf; [by right|done]|].
    intros [bs|e] s2 [H2 P2]; [|done]. apply wp_ret. split; [done|]. intros bs' [= <-].
    constructor; auto.
Qed.

(** One step backwards; stops at calls of other operations. *)
Ltac wp_step :=
  lazymatch goal with
  | |- wp _ (bind _ _) _ _ => apply wp_bind
  | |- wp _ (ret _) _ _ => apply wp_ret
  | |- wp _ (throw _) _ _ => apply wp_throw
  | |- wp _ (lift _) _ _ => apply wp_lift
  | |- wp _ get_st _ _ => apply wp_get
  | |- wp _ (put_st _) _ _ => apply wp_put
  | |- wp _ (modify _) _ _ => apply wp_modify
  | |- wp _ now _ _ => apply wp_now; intros ?
  | |- wp _ (new_id _) _ _ => apply wp_new_id; intros ?
  | |- wp _ ctx_check _ _ => apply wp_ctx_check; [|intros ?]
  | |- wp _ (sys _) _ _ => apply wp_sys; [intros ?|]
  | |- wp _ (sys_torn _ _) _ _ => apply wp_sys_torn; [intros ? ?|]
  | |- wp _ probe _ _ => apply wp_probe; [|intros ?]
  | |- wp _ (probes _) _ _ => apply wp_probes; [|intros ?]
  | |- wp _ (atomic_write _ _ _) _ _ => apply wp_atomic_write; [intros ?|intros ?]
  | |- wp _ (try_ _) _ _ => apply wp_try
  | |- wp _ (wrapping _ _) _ _ => apply wp_wrapping
  | |- wp _ (background _) _ _ => apply wp_background
  | |- wp _ (match ?x with _ => _ end) _ _ => destruct x eqn:?
  | |- wp _ (let _ := _ in _) _ _ => cbv zeta
  | |- match ?x with Ok _ => _ | Err _ => _ end => destruct x eqn:?
  end; cbn beta.

Ltac wp_go := repeat (wp_step; cbn beta iota).

(** Early returns, one after the other. *)
Lemma wp_guard {S A} E (c : bool) e (k : unit -> M S A) Q s :
  (c = true -> Q (Err e) s) -> (c = false -> wp E (k tt) Q s) -> wp E (bind (lift (guard_ c e)) k) Q s.
Proof. intros H1 H2. apply wp_bind, wp_lift. destruct c; cbn; auto. Qed.

(** *** The same with the counters

    [wpw E m Q w] keeps the world, for statements that follow the clock
    through a run. *)
Definition wpw {S A} (E : Env) (m : M S A) (Q : result A -> World S -> Prop) (w : World S) : Prop :=
  Q (m E w).1 (m E w).2.

(** [w'] is [w] with system calls made. *)
Definition same_time {S} (w w' : World S) : Prop := ticks w' = ticks w /\ draws w' = draws w.

Lemma wpw_run {S A} E (m : M S A) Q w r w' : wpw E m Q w -> m E w = (r, w') -> Q r w'.
Proof. unfold wpw. intros H Hm. by rewrite Hm in H. Qed.

Lemma wpw_mono {S A} E (m : M S A) (Q Q' : result A -> World S -> Prop) w :
  wpw E m Q w -> (forall r w', Q r w' -> Q' r w') -> wpw E m Q' w.
Proof. unfold wpw. auto. Qed.

Lemma wpw_bind {S A B} E (m : M S A) (k : A -> M S B) Q w :
  wpw E m (fun r w' => match r with Ok a => wpw E (k a) Q w' | Err e => Q (Err e) w' end) w ->
  wpw E (bind m k) Q w.
Proof. unfold wpw, bind. by destruct (m E w) as [[a|e] w1]. Qed.

Lemma wpw_now {S} E Q (w : World S) :
  Q (Ok (clock E (ticks w))) (MkWorld (st w) (1 + ticks w) (sysno w) (draws w) (polls w)) ->
  wpw E now Q w.
Proof. done. Qed.

Lemma wpw_sys {S A} E (f : S -> result (A * S)) Q (w : World S) :
  (forall no w', same_time w w' -> st w' = st w -> Q (Err (ESys no)) w') ->
  (forall w', same_time w w' ->
     match f (st w) with
     | Ok (a, s') => st w' = s' -> Q (Ok a) w'
     | Err e => st w' = st w -> Q (Err e) w'
     end) ->
  wpw E (sys f) Q w.
Proof.
  intros H1 H2. unfold wpw, sys. destruct (faults _ _); cbn; [by apply H1|].
  destruct (f (st w)) as [[a s']|e]; cbn; by apply H2.
Qed.

Lemma probes_time {S} n E (w : World S) r w' : probes n E w = (r, w') -> same_time w w'.
Proof.
  revert w. induction n as [|[|n] IH]; intros w; [by intros [= <- <-]| |].
  - cbn. unfold probe, sys. by destruct (faults _ _); intros [= <- <-].
  - change (probes (Datatypes.S (Datatypes.S n))) with (@probe S ;;; probes (Datatypes.S n)).
    unfold bind, probe at 1, sys. destruct (faults _ _); [by intros [= <- <-]|]. intros H.
    apply IH in H. exact H.
Qed.

Lemma atomic_write_time {S} b a (f : S -> S) E w r w' :
  atomic_write b a f E w = (r, w') -> same_time w w'.
Proof.
  unfold atomic_write, bind. destruct (probes b E w) as [[[]|e] w1] eqn:E1; apply probes_time in E1 as [T1 D1].
  - unfold sys. destruct (faults _ _); [by intros [= <- <-]|]. intros H. apply probes_time in H as [T2 D2].
    cbn in T2, D2. split; congruence.
  - by intros [= <- <-].
Qed.

Lemma wpw_atomic_write {S} b a (f : S -> S) E Q (w : World S) :
  (forall r w', same_time w w' -> st w' = f (st w) -> Q r w') ->
  (forall e w', same_time w w' -> st w' = st w -> Q (Err e) w') -> wpw E (atomic_write b a f) Q w.
Proof.
  intros H1 H2. unfold wpw. destruct (atomic_write b a f E w) as [r w'] eqn:Er. cbn.
  pose proof (atomic_write_time _ _ _ _ _ _ _ Er). apply atomic_write_inv in Er as [?|[? (e&->)]]; auto.
Qed.

Lemma wpw_try {S A} E (m : M S A) Q (w : World S) :
  wpw E m (fun r w' => Q (Ok r) w') w -> wpw E (try_ m) Q w.
Proof. unfold wpw, try_. by destruct (m E w). Qed.

Lemma wpw_wrapping {S A} p E (m : M S A) Q (w : World S) :
  wpw E m (fun r w' => Q (wrap_err p r) w') w -> wpw E (wrapping p m) Q w.
Proof. unfold wpw, wrapping. by destruct (m E w) as [[]]. Qed.

Lemma wpw_mapM {S A B} E (f : A -> M S B) l (I : World S -> Prop) w :
  (forall x w, x ∈ l -> I w -> wpw E (f x) (fun _ w' => I w') w) ->
  I w -> wpw E (mapM f l) (fun _ w' => I w') w.
Proof.
  intros Hf. revert w. induction l as [|x l IH]; intros w Hw; cbn; [done|].
  apply wpw_bind. eapply wpw_mono; [apply Hf; [by left|done]|]. intros [b|e] w1 H1; [|done].
  apply wpw_bind. eapply wpw_mono; [apply IH; [|done]; intros; apply Hf; [by right|done]|].
  by intros [bs|e] w2 H2.
Qed.

(** A system call does not report a file that exists as missing: ENOENT is
    the answer of the modelled state, never a failure of the machine. *)
Definition honest (E : Env) : Prop := forall n, faults E n <> Some ENOENT.

Lemma wpw_sys_honest {S A} E (f : S -> result (A * S)) Q (w : World S) :
  honest E ->
  (forall no w', no <> ENOENT -> same_time w w' -> st w' = st w -> Q (Err (ESys no)) w') ->
  (forall w', same_time w w' ->
     match f (st w) with
     | Ok (a, s') => st w' = s' -> Q (Ok a) w'
     | Err e => st w' = st w -> Q (Err e) w'
     end) ->
  wpw E (sys f) Q w.
Proof.
  intros Hh H1 H2. unfold wpw, sys. destruct (faults E (sysno w)) as [no|] eqn:Ef; cbn.
  - apply H1; [|done..]. intros ->. by apply (Hh (sysno w)).
  - destruct (f (st w)) as [[a s']|e]; cbn; by apply H2.
Qed.

Lemma wp_sys_honest {S A} E (f : S -> result (A * S)) Q s :
  honest E ->
  (forall no, no <> ENOENT -> Q (Err (ESys no)) s) ->
  match f s with Ok (a, s') => Q (Ok a) s' | Err e => Q (Err e) s end ->
  wp E (sys f) Q s.
Proof.
  intros Hh H1 H2 w <-. unfold sys. destruct (faults E (sysno w)) as [no|] eqn:Ef; cbn.
  - apply H1. intros ->. by apply (Hh (sysno w)).
  - by destruct (f (st w)) as [[a s']|e]; cbn.
Qed.

(** *** Rules for an environment without failures *)
Lemma wp_sys_quiet {S A} E (f : S -> result (A * S)) Q s :
  quiet E -> match f s with Ok (a, s') => Q (Ok a) s' | Err e => Q (Err e) s end -> wp E (sys f) Q s.
Proof.
  intros [Hf _] H2 w <-. unfold sys. rewrite Hf. by destruct (f (st w)) as [[a s']|e]; cbn.
Qed.

Lemma wp_sys_torn_quiet {S A} E (f : S -> A * S) g Q s :
  quiet E -> Q (Ok (f s).1) (f s).2 -> wp E (sys_torn f g) Q s.
Proof. intros [Hf _] H2 w <-. unfold sys_torn. rewrite Hf. by destruct (f (st w)). Qed.

Lemma wp_ctx_quiet {S} E Q (s : S) : quiet E -> Q (Ok tt) s -> wp E ctx_check Q s.
Proof. intros [_ Hc] H w <-. unfold ctx_check. by rewrite Hc. Qed.

Lemma wp_probes_quiet {S} n E Q (s : S) : quiet E -> Q (Ok tt) s -> wp E (probes n) Q s.
Proof. intros Hq H w <-. destruct (probes_quiet n E w Hq) as (w'&->&Hw&_). cbn. by rewrite Hw. Qed.

Lemma wp_probe_quiet {S} E Q (s : S) : quiet E -> Q (Ok tt) s -> wp E probe Q s.
Proof. apply (wp_probes_quiet 1). Qed.

Lemma wp_atomic_write_quiet {S} b a (f : S -> S) E Q (s : S) :
  quiet E -> Q (Ok tt) (f s) -> wp E (atomic_write b a f) Q s.
Proof. intros Hq H w <-. destruct (atomic_write_quiet b a f E w Hq) as (w'&->&Hw&_). cbn. by rewrite Hw. Qed.

(** A clock that does not go back. *)
Definition monotone (E : Env) : Prop := forall m n, (m <= n)%nat -> (clock E m <= clock E n)%Z.

(** *** Programs only move the counters forward *)
Section Advance.
Context {S : Type}.

Lemma adv_now : obeys advances (@now S).
Proof. intros E w. unfold advances. cbn. lia. Qed.

Lemma adv_new_id p : obeys advances (@new_id S p).
Proof. intros E w. unfold advances. cbn. lia. Qed.

Lemma adv_ctx_check : obeys advances (@ctx_check S).
Proof. intros E w. unfold advances, ctx_check. destruct (cancel _ _); cbn; lia. Qed.

Lemma adv_sys {A} (f : S -> result (A * S)) : obeys advances (sys f).
Proof.
  intros E w. unfold advances, sys. destruct (faults _ _); cbn; [lia|].
  destruct (f (st w)) as [[a s]|e]; cbn; lia.
Qed.

Lemma adv_sys_torn {A} (f : S -> A * S) g : obeys advances (sys_torn f g).
Proof.
  intros E w. unfold advances, sys_torn. destruct (faults _ _); cbn; [lia|].
  destruct (f (st w)) as [a s]; cbn; lia.
Qed.

Lemma adv_modify (f : S -> S) : obeys advances (modify f).
Proof. intros E w. unfold advances. cbn. lia. Qed.

Lemma adv_probes n : obeys advances (@probes S n).
Proof.
  induction n as [|[|n] IH]; [apply obeys_ret, _|apply adv_sys|].
  apply (obeys_bind _ probe); [apply adv_sys|done].
Qed.

Lemma adv_atomic_write b a (f : S -> S) : obeys advances (atomic_write b a f).
Proof.
  apply obeys_bind; [apply _|apply adv_probes|intros _].
  apply obeys_bind; [apply _|apply adv_sys|intros _]. apply adv_probes.
Qed.

Lemma adv_zoom {T A} (get : T -> S) (set : S -> T -> T) (m : M S A) :
  obeys advances m -> obeys advances (zoom get set m).
Proof.
  intros Hm E w. unfold zoom. specialize (Hm E (with_st w (get (st w)))).
  destruct (m E _) as [r w1]. exact Hm.
Qed.
End Advance.

Ltac adv_walk :=
  repeat match goal with
  | |- obeys advances (bind _ _) => apply obeys_bind; [apply _| |intros ?]
  | |- obeys advances (match ?x with _ => _ end) => destruct x
  | |- obeys advances (ret _) => apply obeys_ret; apply _
  | |- obeys advances (throw _) => apply obeys_throw; apply _
  | |- obeys advances (lift _) => apply obeys_lift; apply _
  | |- obeys advances get_st => apply obeys_get; apply _
  | |- obeys advances (try_ _) => apply obeys_try
  | |- obeys advances (wrapping _ _) => apply obeys_wrapping
  | |- obeys advances (mapM _ _) => apply obeys_mapM; [apply _|intros ?]
  | |- obeys advances now => apply adv_now
  | |- obeys advances (new_id _) => apply adv_new_id
  | |- obeys advances ctx_check => apply adv_ctx_check
  | |- obeys advances probe => apply adv_sys
  | |- obeys advances (sys _) => apply adv_sys
  | |- obeys advances (sys_torn _ _) => apply adv_sys_torn
  | |- obeys advances (modify _) => apply adv_modify
  | |- obeys advances (probes _) => apply adv_probes
  | |- obeys advances (atomic_write _ _ _) => apply adv_atomic_write
  | |- obeys advances (zoom _ _ _) => apply adv_zoom
  end.

(** Running on a component. *)
Lemma wp_zoom {S T A} E (get : T -> S) (set : S -> T -> T) (m : M S A) Q t :
  wp E m (fun r s' => Q r (set s' t)) (get t) -> wp E (zoom get set m) Q t.
Proof.
  intros H w <-. unfold zoom. specialize (H (with_st w (get (st w))) eq_refl).
  by destruct (m E _) as [r w1].
Qed.

Lemma wpw_zoom {S T A} E (get : T -> S) (set : S -> T -> T) (m : M S A) Q w :
  wpw E m (fun r w' => Q r (with_st w' (set (st w') (st w)))) (with_st w (get (st w))) ->
  wpw E (zoom get set m) Q w.
Proof. unfold wpw, zoom. by destruct (m E _) as [r w1]. Qed.
