(* ===== verification/GoStrings.v ===== *)
(** * The [strings] operations the program uses

    A Go string is its bytes, and a Rocq [string] is a list of bytes, so a
    source literal (Chinese text included) is the same literal here.  Case
    mapping and white space are rune-wise in Go: the runes are decoded
    from UTF-8 as [unicode/utf8] does, ASCII is mapped exactly, and the
    case table of the other runes is the class [UnicodeCase]. *)

From S2P Require Import Prelude.
From Stdlib Require Import NArith.

(** ** Bytes *)

Definition code (c : ascii) : N := N_of_ascii c.
Definition chr (n : N) : ascii := ascii_of_N n.

Definition in_range (lo hi : N) (n : N) : bool := (lo <=? n)%N && (n <=? hi)%N.

Fixpoint all_bytes (p : ascii -> bool) (s : string) : bool :=
  match s with "" => true | String c s => p c && all_bytes p s end.

Fixpoint any_byte (p : ascii -> bool) (s : string) : bool :=
  match s with "" => false | String c s => p c || any_byte p s end.

Fixpoint map_bytes (f : ascii -> ascii) (s : string) : string :=
  match s with "" => "" | String c s => String (f c) (map_bytes f s) end.

Definition is_ascii (s : string) : bool := all_bytes (fun c => (code c <? 128)%N) s.

(** [string_rev] through an accumulator. *)
Fixpoint rev_onto (s acc : string) : string :=
  match s with "" => acc | String c s => rev_onto s (String c acc) end.
Definition string_rev (s : string) : string := rev_onto s "".

(** ** UTF-8 ([unicode/utf8]): decoding with [RuneError] of width one for
    an invalid byte, and encoding. *)

Definition RuneError : N := 65533.

Definition cont (c : ascii) : bool := in_range 128 191 (code c).
Definition low6 (c : ascii) : N := (code c - 128)%N.

(** The second byte allowed after a three-byte or four-byte lead. *)
Definition second3 (a b : ascii) : bool :=
  if (code a =? 224)%N then in_range 160 191 (code b)
  else if (code a =? 237)%N then in_range 128 159 (code b)
  else cont b.
Definition second4 (a b : ascii) : bool :=
  if (code a =? 240)%N then in_range 144 191 (code b)
  else if (code a =? 244)%N then in_range 128 143 (code b)
  else cont b.

Fixpoint runes (s : string) : list N :=
  match s with
  | "" => []
  | String a s1 =>
    if (code a <? 128)%N then code a :: runes s1
    else if in_range 194 223 (code a) then
      match s1 with
      | String b s2 =>
        if cont b then ((code a - 192) * 64 + low6 b)%N :: runes s2
        else RuneError :: runes s1
      | "" => [RuneError]
      end
    else if in_range 224 239 (code a) then
      match s1 with
      | String b (String c s3) =>
        if second3 a b && cont c
        then ((code a - 224) * 4096 + low6 b * 64 + low6 c)%N :: runes s3
        else RuneError :: runes s1
      | _ => RuneError :: runes s1
      end
    else if in_range 240 244 (code a) then
      match s1 with
      | String b (String c (String d s4)) =>
        if second4 a b && cont c && cont d
        then ((code a - 240) * 262144 + low6 b * 4096 + low6 c * 64 + low6 d)%N :: runes s4
        else RuneError :: runes s1
      | _ => RuneError :: runes s1
      end
    else RuneError :: runes s1
  end.

Definition encode_rune (r : N) : string :=
  let r := if in_range 55296 57343 r || (1114111 <? r)%N then RuneError else r in
  if (r <? 128)%N then String (chr r) ""
  else if (r <? 2048)%N then
    String (chr (192 + r / 64)) (String (chr (128 + r mod 64)) "")
  else if (r <? 65536)%N then
    String (chr (224 + r / 4096))
      (String (chr (128 + (r / 64) mod 64)) (String (chr (128 + r mod 64)) ""))
  else
    String (chr (240 + r / 262144))
      (String (chr (128 + (r / 4096) mod 64))
         (String (chr (128 + (r / 64) mod 64)) (String (chr (128 + r mod 64)) ""))).

Fixpoint encode_runes (l : list N) : string :=
  match l with [] => "" | r :: l => encode_rune r +:+ encode_runes l end.

(** ** Case *)

(** [unicode.ToLower] above ASCII. *)
Class UnicodeCase := uni_lower : N -> N.

Definition lower_ascii (c : ascii) : ascii :=
  if in_range 65 90 (code c) then chr (code c + 32) else c.

Definition lower_rune `{UnicodeCase} (r : N) : N :=
  if (r <? 128)%N then (if in_range 65 90 r then r + 32 else r)%N else uni_lower r.

Definition ToLower `{UnicodeCase} (s : string) : string :=
  encode_runes (map lower_rune (runes s)).

(** [strings.EqualFold s lit] for a lower-case ASCII literal without [k]
    and [s], the two ASCII letters another rune folds to: case folding is
    then the ASCII one. *)
Definition EqualFold (s lit : string) : bool := String.eqb (map_bytes lower_ascii s) lit.

(** ** White space *)

(** [unicode.IsSpace], by the length of the encoding. *)
Definition space1 (c : ascii) : bool := in_range 9 13 (code c) || (code c =? 32)%N.
Definition space2 (a b : ascii) : bool :=
  (code a =? 194)%N && ((code b =? 133)%N || (code b =? 160)%N).
Definition space3 (a b c : ascii) : bool :=
  ((code a =? 225)%N && (code b =? 154)%N && (code c =? 128)%N)
  || ((code a =? 226)%N && (code b =? 128)%N
      && (in_range 128 138 (code c) || (code c =? 168)%N || (code c =? 169)%N || (code c =? 175)%N))
  || ((code a =? 226)%N && (code b =? 129)%N && (code c =? 159)%N)
  || ((code a =? 227)%N && (code b =? 128)%N && (code c =? 128)%N).

Fixpoint trim_with (sp1 : ascii -> bool) (sp2 : ascii -> ascii -> bool)
    (sp3 : ascii -> ascii -> ascii -> bool) (s : string) : string :=
  match s with
  | "" => ""
  | String a s1 =>
    if sp1 a then trim_with sp1 sp2 sp3 s1
    else match s1 with
         | String b s2 =>
           if sp2 a b then trim_with sp1 sp2 sp3 s2
           else match s2 with
                | String c s3 => if sp3 a b c then trim_with sp1 sp2 sp3 s3 else s
                | "" => s
                end
         | "" => s
         end
  end.

Definition trim_left (s : string) : string := trim_with space1 space2 space3 s.
Definition trim_right (s : string) : string :=
  string_rev (trim_with space1 (fun b a => space2 a b) (fun c b a => space3 a b c)
                        (string_rev s)).

Definition TrimSpace (s : string) : string := trim_right (trim_left s).

(** ** Searching *)

Fixpoint HasPrefix (s p : string) {struct p} : bool :=
  match p, s with
  | "", _ => true
  | String a p, String b s => Ascii.eqb a b && HasPrefix s p
  | String _ _, "" => false
  end.

Definition HasSuffix (s p : string) : bool := HasPrefix (string_rev s) (string_rev p).

Fixpoint Contains (s p : string) : bool :=
  HasPrefix s p || match s with "" => false | String _ s => Contains s p end.

(** [strings.ContainsAny] with an ASCII character set. *)
Definition ContainsAny (s set : string) : bool :=
  any_byte (fun c => any_byte (Ascii.eqb c) set) s.

(** [s[n:]] and [s[:n]] for [n <= len(s)]. *)
Fixpoint drop_bytes (n : nat) (s : string) : string :=
  match n, s with
  | 0, _ => s
  | S n, String _ s => drop_bytes n s
  | S _, "" => ""
  end.
Fixpoint take_bytes (n : nat) (s : string) : string :=
  match n, s with
  | 0, _ => ""
  | S n, String c s => String c (take_bytes n s)
  | S _, "" => ""
  end.

Definition TrimSuffix (s p : string) : string :=
  if HasSuffix s p then take_bytes (String.length s - String.length p) s else s.

(** [strings.Split s sep] for a one-byte separator. *)
Fixpoint Split (sep : ascii) (s : string) : list string :=
  match s with
  | "" => [""]
  | String c s =>
    if Ascii.eqb c sep then "" :: Split sep s
    else match Split sep s with
         | [] => [String c ""]
         | w :: ws => String c w :: ws
         end
  end.

Fixpoint Join (l : list string) (sep : string) : string :=
  match l with
  | [] => ""
  | [x] => x
  | x :: l => x +:+ sep +:+ Join l sep
  end.

Definition string_in (x : string) (l : list string) : bool := existsb (String.eqb x) l.

(** ** Lemmas *)

Lemma chr_code c : chr (code c) = c.
Proof. apply ascii_N_embedding. Qed.

Lemma code_lt_256 c : (code c < 256)%N.
Proof. apply N_ascii_bounded. Qed.

Lemma string_app_nil_r (s : string) : s +:+ "" = s.
Proof. induction s as [|c s IH]; cbn; [done|]. f_equal. exact IH. Qed.

Lemma string_app_assoc (a b c : string) : (a +:+ b) +:+ c = a +:+ (b +:+ c).
Proof. induction a as [|x a IH]; cbn; [done|]. f_equal. exact IH. Qed.

Lemma string_app_cons (c : ascii) (a b : string) : String c a +:+ b = String c (a +:+ b).
Proof. done. Qed.

Lemma string_length_app (a b : string) :
  String.length (a +:+ b) = String.length a + String.length b.
Proof. induction a as [|x a IH]; cbn; [done|]. f_equal. exact IH. Qed.

Lemma string_app_inv_l (p a b : string) : p +:+ a = p +:+ b -> a = b.
Proof. induction p as [|x p IH]; cbn; [done|]. intros [= ?]. auto. Qed.

Lemma string_app_inv_r (a b p : string) : a +:+ p = b +:+ p -> a = b.
Proof.
  intros E. assert (Hl : String.length a = String.length b).
  { apply (f_equal String.length) in E. rewrite !string_length_app in E. lia. }
  revert b E Hl. induction a as [|x a IH]; intros [|y b] E Hl; cbn in *; try lia; [done|].
  injection E as -> E. f_equal. apply IH; [done|lia].
Qed.

Lemma rev_onto_spec s acc : rev_onto s acc = string_rev s +:+ acc.
Proof.
  unfold string_rev. revert acc. induction s as [|c s IH]; intros acc; cbn; [done|].
  rewrite IH, (IH (String c "")), string_app_assoc. done.
Qed.

Lemma string_rev_cons c s : string_rev (String c s) = string_rev s +:+ String c "".
Proof. unfold string_rev. cbn. by rewrite rev_onto_spec. Qed.

Lemma string_rev_app a b : string_rev (a +:+ b) = string_rev b +:+ string_rev a.
Proof.
  induction a as [|c a IH]; cbn -[string_rev].
  - by rewrite string_app_nil_r.
  - change (String.append a b) with (a +:+ b).
    by rewrite !string_rev_cons, IH, string_app_assoc.
Qed.

Lemma string_rev_involutive s : string_rev (string_rev s) = s.
Proof. induction s as [|c s IH]; [done|]. by rewrite string_rev_cons, string_rev_app, IH. Qed.

Lemma all_bytes_app p a b : all_bytes p (a +:+ b) = all_bytes p a && all_bytes p b.
Proof.
  induction a as [|c a IH]; cbn; [done|].
  change (String.append a b) with (a +:+ b). by rewrite IH, andb_assoc.
Qed.

Lemma all_bytes_rev p s : all_bytes p (string_rev s) = all_bytes p s.
Proof.
  induction s as [|c s IH]; [done|].
  rewrite string_rev_cons, all_bytes_app, IH. cbn. by rewrite andb_true_r, andb_comm.
Qed.

Lemma string_in_spec x l : string_in x l = true <-> x ∈ l.
Proof.
  unfold string_in. rewrite existsb_exists. setoid_rewrite String.eqb_eq.
  rewrite list_elem_of_In. naive_solver.
Qed.

Lemma HasPrefix_spec s p : HasPrefix s p = true <-> exists t, s = p +:+ t.
Proof.
  revert s. induction p as [|a p IH]; intros s; cbn.
  - split; eauto.
  - destruct s as [|b s]; cbn; [split; [done|intros [? E]; discriminate E]|].
    rewrite andb_true_iff, Ascii.eqb_eq, IH. split.
    + intros [-> [t ->]]. by exists t.
    + intros [t [= -> ->]]. eauto.
Qed.

Lemma HasSuffix_spec s p : HasSuffix s p = true <-> exists t, s = t +:+ p.
Proof.
  unfold HasSuffix. rewrite HasPrefix_spec. split; intros [t Ht].
  - exists (string_rev t). apply (f_equal string_rev) in Ht.
    by rewrite string_rev_involutive, string_rev_app, string_rev_involutive in Ht.
  - exists (string_rev t). by rewrite Ht, string_rev_app.
Qed.

Lemma Contains_spec s p : Contains s p = true <-> exists a b, s = a +:+ p +:+ b.
Proof.
  induction s as [|c s IH]; cbn; rewrite orb_true_iff.
  - rewrite HasPrefix_spec. split.
    + intros [[t Ht]|]; [by exists "", t|done].
    + intros (a&b&E). left. destruct a; [by exists b|discriminate E].
  - rewrite HasPrefix_spec, IH. split.
    + intros [[t ->]|(a&b&->)]; [by exists "", t|]. by exists (String c a), b.
    + intros ([|x a]&b&E); cbn in E.
      * left. by exists b.
      * right. injection E as -> E. eauto.
Qed.

(** *** ASCII strings *)

Lemma is_ascii_cons c s : is_ascii (String c s) = (code c <? 128)%N && is_ascii s.
Proof. done. Qed.

Lemma runes_ascii s : is_ascii s = true -> runes s = map code (list_ascii_of_string s).
Proof.
  induction s as [|c s IH]; [done|]. rewrite is_ascii_cons, andb_true_iff.
  intros [Hc Hs]. cbn. rewrite Hc. f_equal. auto.
Qed.

Lemma lower_ascii_lt c : (code c <? 128)%N = true -> (code (lower_ascii c) <? 128)%N = true.
Proof. destruct c as [[][][][][][][][]]; vm_compute; done. Qed.

Lemma encode_lower_ascii `{UnicodeCase} c :
  (code c <? 128)%N = true ->
  encode_rune (lower_rune (code c)) = String (lower_ascii c) "".
Proof.
  intros Hc. unfold lower_rune. rewrite Hc. revert Hc.
  destruct c as [[][][][][][][][]]; vm_compute; done.
Qed.

Lemma ToLower_ascii `{UnicodeCase} s :
  is_ascii s = true -> ToLower s = map_bytes lower_ascii s.
Proof.
  intros Hs. unfold ToLower. rewrite (runes_ascii s Hs). revert Hs.
  induction s as [|c s IH]; [done|]. rewrite is_ascii_cons, andb_true_iff.
  intros [Hc Hs]. cbn. rewrite encode_lower_ascii by done. cbn.
  f_equal. by apply IH.
Qed.

(** Trimming ASCII white space around a word that starts and ends with
    other ASCII bytes. *)
Definition plain1 (c : ascii) : bool := (code c <? 128)%N && negb (space1 c).

Lemma trim_with_spaces sp2 sp3 w s :
  all_bytes space1 w = true ->
  trim_with space1 sp2 sp3 (w +:+ s) = trim_with space1 sp2 sp3 s.
Proof.
  induction w as [|c w IH]; [done|]. cbn -[space1]. rewrite andb_true_iff.
  intros [-> Hw]. by apply IH.
Qed.

Lemma trim_with_stop (sp2 : ascii -> ascii -> bool) (sp3 : ascii -> ascii -> ascii -> bool) c s :
  space1 c = false -> (forall b, sp2 c b = false) -> (forall a b, sp3 c a b = false) ->
  trim_with space1 sp2 sp3 (String c s) = String c s.
Proof.
  intros H1 H2 H3. cbn -[space1]. rewrite H1.
  destruct s as [|b s]; [done|]. rewrite H2. destruct s as [|d s]; [done|]. by rewrite H3.
Qed.

Lemma plain_not_space c :
  plain1 c = true ->
  space1 c = false /\ (forall b, space2 c b = false) /\ (forall b, space2 b c = false)
  /\ (forall a b, space3 c a b = false) /\ (forall a b, space3 a b c = false).
Proof.
  unfold plain1. rewrite andb_true_iff, negb_true_iff, N.ltb_lt. intros [Hc Hs].
  split_and!; [done|intros..]; unfold space2, space3, in_range;
    repeat match goal with |- context [(?x =? ?k)%N] => destruct (N.eqb_spec x k); try lia end;
    cbn; rewrite ?andb_false_r, ?andb_false_l; try done;
    repeat match goal with |- context [(?x <=? ?k)%N] => destruct (N.leb_spec x k); try lia end;
    cbn; rewrite ?andb_false_r, ?orb_false_r, ?andb_true_r; try done.
Qed.

Lemma trim_left_pad w c s :
  all_bytes space1 w = true -> plain1 c = true ->
  trim_left (w +:+ String c s) = String c s.
Proof.
  intros Hw Hc. apply plain_not_space in Hc as (H1&H2&_&H3&_).
  unfold trim_left. rewrite trim_with_spaces by done. by apply trim_with_stop.
Qed.

Lemma trim_right_pad s c w :
  all_bytes space1 w = true -> plain1 c = true ->
  trim_right ((s +:+ String c "") +:+ w) = s +:+ String c "".
Proof.
  intros Hw Hc. apply plain_not_space in Hc as (H1&_&H2&_&H3).
  unfold trim_right. rewrite string_rev_app, trim_with_spaces by (by rewrite all_bytes_rev).
  rewrite string_rev_app. change (string_rev (String c "")) with (String c "").
  cbn [String.append]. rewrite trim_with_stop by auto.
  by rewrite string_rev_cons, string_rev_involutive.
Qed.

(** A word is trimmed to itself whatever ASCII white space surrounds it. *)
Lemma TrimSpace_pad w1 w2 c s d :
  all_bytes space1 w1 = true -> all_bytes space1 w2 = true ->
  plain1 c = true -> plain1 d = true ->
  TrimSpace (w1 +:+ (String c s +:+ String d "") +:+ w2) = String c s +:+ String d "".
Proof.
  intros H1 H2 Hc Hd. unfold TrimSpace.
  rewrite !string_app_cons, trim_left_pad by done.
  rewrite <- !string_app_cons. by apply trim_right_pad.
Qed.

Lemma string_snoc s : s <> "" -> exists t d, s = t +:+ String d "".
Proof.
  intros Hs. destruct (string_rev s) as [|d t] eqn:E.
  - apply (f_equal string_rev) in E. rewrite string_rev_involutive in E. done.
  - exists (string_rev t), d. apply (f_equal string_rev) in E.
    by rewrite string_rev_involutive, string_rev_cons in E.
Qed.

(** The same for a word without white space. *)
Lemma TrimSpace_word w1 w2 t :
  all_bytes space1 w1 = true -> all_bytes space1 w2 = true ->
  t <> "" -> all_bytes plain1 t = true -> TrimSpace (w1 +:+ t +:+ w2) = t.
Proof.
  intros H1 H2 Hn Hp. unfold TrimSpace.
  destruct (string_snoc t Hn) as (s&d&E).
  assert (Hd : plain1 d = true).
  { rewrite E, all_bytes_app in Hp. apply andb_true_iff in Hp as [_ Hp]. cbn in Hp.
    by rewrite andb_true_r in Hp. }
  destruct t as [|c t]; [done|]. cbn in Hp. apply andb_true_iff in Hp as [Hc _].
  rewrite string_app_cons, trim_left_pad, <- string_app_cons, E by done. by apply trim_right_pad.
Qed.

Lemma TrimSpace_id t : t <> "" -> all_bytes plain1 t = true -> TrimSpace t = t.
Proof. intros. rewrite <- (string_app_nil_r t) at 1. by apply (TrimSpace_word "" "" t). Qed.

Lemma plain1_lower c : plain1 (lower_ascii c) = plain1 c.
Proof. destruct c as [[][][][][][][][]]; reflexivity. Qed.

Lemma plain_lower t : all_bytes plain1 (map_bytes lower_ascii t) = all_bytes plain1 t.
Proof. induction t as [|c t IH]; [done|]. cbn -[plain1 lower_ascii]. by rewrite plain1_lower, IH. Qed.

Lemma plain_is_ascii t : all_bytes plain1 t = true -> is_ascii t = true.
Proof.
  induction t as [|c t IH]; [done|]. rewrite is_ascii_cons. cbn -[plain1 is_ascii].
  rewrite !andb_true_iff. intros [[? _]%andb_true_iff ?]. auto.
Qed.

(** Trimming twice is trimming once. *)
Section Trim.
Variables (sp1 : ascii -> bool) (sp2 : ascii -> ascii -> bool) (sp3 : ascii -> ascii -> ascii -> bool).

Lemma trim_with_length s : String.length (trim_with sp1 sp2 sp3 s) <= String.length s.
Proof.
  remember (String.length s) as n eqn:En. revert s En. induction (lt_wf n) as [n _ IH]. intros s ->.
  assert (Hr : forall r, String.length r < String.length s -> String.length (trim_with sp1 sp2 sp3 r) <= String.length s).
  { intros r Hr. pose proof (IH _ Hr r eq_refl). lia. }
  destruct s as [|a [|b [|c s]]]; cbn [trim_with]; repeat case_match; first [apply Hr; cbn; lia|cbn; lia].
Qed.

Lemma trim_with_idemp s : trim_with sp1 sp2 sp3 (trim_with sp1 sp2 sp3 s) = trim_with sp1 sp2 sp3 s.
Proof.
  remember (String.length s) as n eqn:En. revert s En. induction (lt_wf n) as [n _ IH]. intros s ->.
  destruct s as [|a s1]; [done|]. cbn [trim_with]. destruct (sp1 a) eqn:E1; [eapply IH; [|reflexivity]; cbn; lia|].
  destruct s1 as [|b s2]; [cbn; by rewrite E1|].
  destruct (sp2 a b) eqn:E2; [eapply IH; [|reflexivity]; cbn; lia|].
  destruct s2 as [|c s3]; [cbn; by rewrite E1, E2|].
  destruct (sp3 a b c) eqn:E3; [eapply IH; [|reflexivity]; cbn; lia|]. cbn [trim_with]. by rewrite E1, E2, E3.
Qed.

(** A part that begins no later than the first character kept keeps it. *)
Lemma trim_with_prefix p w : trim_with sp1 sp2 sp3 (p +:+ w) = p +:+ w -> trim_with sp1 sp2 sp3 p = p.
Proof.
  assert (Hno : forall r s, trim_with sp1 sp2 sp3 r = s -> String.length r < String.length s -> False).
  { intros r s <- Hr. pose proof (trim_with_length r). lia. }
  destruct p as [|a p1]; [done|]. cbn [trim_with String.append].
  destruct (sp1 a); [intros E; destruct (Hno _ _ E); cbn; lia|].
  destruct p1 as [|b p2]; [done|]. cbn [String.append].
  destruct (sp2 a b); [intros E; destruct (Hno _ _ E); cbn; lia|].
  destruct p2 as [|c p3]; [done|]. cbn [String.append].
  destruct (sp3 a b c); [|done]. intros E. destruct (Hno _ _ E). cbn. lia.
Qed.

(** What was cut off, in whole characters. *)
Lemma trim_with_cut (P : string -> Prop) s :
  P "" -> (forall a v, sp1 a = true -> P v -> P (String a v)) ->
  (forall a b v, sp2 a b = true -> P v -> P (String a (String b v))) ->
  (forall a b c v, sp3 a b c = true -> P v -> P (String a (String b (String c v)))) ->
  exists v, s = v +:+ trim_with sp1 sp2 sp3 s /\ P v.
Proof.
  intros H0 H1 H2 H3. remember (String.length s) as n eqn:En. revert s En. induction (lt_wf n) as [n _ IH]. intros s ->.
  assert (Hr : forall r, String.length r < String.length s -> exists v, r = v +:+ trim_with sp1 sp2 sp3 r /\ P v).
  { intros r Hr. exact (IH _ Hr r eq_refl). }
  destruct s as [|a s1]; [by exists ""|]. cbn [trim_with]. destruct (sp1 a) eqn:E1.
  { destruct (Hr s1) as (v&Ev&Hv); [cbn; lia|]. exists (String a v). split; [cbn; by rewrite <- Ev|auto]. }
  destruct s1 as [|b s2]; [by exists ""|]. destruct (sp2 a b) eqn:E2.
  { destruct (Hr s2) as (v&Ev&Hv); [cbn; lia|]. exists (String a (String b v)). split; [cbn; by rewrite <- Ev|auto]. }
  destruct s2 as [|c s3]; [by exists ""|]. destruct (sp3 a b c) eqn:E3; [|by exists ""].
  destruct (Hr s3) as (v&Ev&Hv); [cbn; lia|]. exists (String a (String b (String c v))). split; [cbn; by rewrite <- Ev|auto].
Qed.
End Trim.

Lemma trim_right_idemp s : trim_right (trim_right s) = trim_right s.
Proof. unfold trim_right. by rewrite string_rev_involutive, trim_with_idemp. Qed.

Lemma space1_leads a : space1 a = true -> cont a = false.
Proof. destruct a as [[][][][][][][][]]; intros Ha; try discriminate Ha; reflexivity. Qed.

Lemma space2_leads a b : space2 a b = true -> cont a = false.
Proof. unfold space2, cont, in_range. rewrite andb_true_iff, N.eqb_eq. by intros [-> _]. Qed.

Lemma space3_leads a b c : space3 a b c = true -> cont a = false.
Proof.
  unfold space3, cont, in_range. rewrite !orb_true_iff, !andb_true_iff, !N.eqb_eq.
  by intros [[[[[-> _] _]|[[-> _] _]]|[[-> _] _]]|[[-> _] _]].
Qed.

(** What [trim_right] cuts off begins with the first byte of a character. *)
Lemma trim_right_cut s :
  exists w, s = trim_right s +:+ w /\ (w = "" \/ exists c u, w = String c u /\ cont c = false).
Proof.
  destruct (trim_with_cut space1 (fun b a => space2 a b) (fun c b a => space3 a b c)
    (fun v => v = "" \/ exists u c, v = u +:+ String c "" /\ cont c = false) (string_rev s)) as (v&Ev&Hv).
  - by left.
  - intros a v Ha [->|(u&c&->&Hc)]; right; [exists "", a|exists (String a u), c]; split; try done. by apply space1_leads.
  - intros a b v Ha [->|(u&c&->&Hc)]; right; [exists (String a ""), b|exists (String a (String b u)), c]; split; try done.
    by apply (space2_leads b a).
  - intros a b c v Ha [->|(u&d&->&Hc)]; right; [exists (String a (String b "")), c|exists (String a (String b (String c u))), d]; split; try done.
    by apply (space3_leads c b a).
  - exists (string_rev v). split.
    + rewrite <- (string_rev_involutive s) at 1. rewrite Ev, string_rev_app. done.
    + destruct Hv as [->|(u&c&->&Hc)]; [by left|right]. exists c, (string_rev u). by rewrite string_rev_app.
Qed.

Lemma TrimSpace_idemp s : TrimSpace (TrimSpace s) = TrimSpace s.
Proof.
  unfold TrimSpace. destruct (trim_right_cut (trim_left s)) as (w&Ew&_).
  assert (E : trim_left (trim_right (trim_left s)) = trim_right (trim_left s)).
  { unfold trim_left at 1. apply (trim_with_prefix _ _ _ _ w). rewrite <- Ew. apply trim_with_idemp. }
  by rewrite E, trim_right_idemp.
Qed.
