(* ===== verification/GoPath.v ===== *)
(** * [path/filepath] on Unix: Clean, IsAbs, Join, Dir, Base, Ext and Rel

    The lexical path operations behind every containment check of the
    program, and the theory the checks rest on: an absolute path is the
    list of its normal components, and [Rel] is about list prefixes. *)

From S2P Require Import Prelude GoStrings.

Definition slash : ascii := "/"%char.

Definition IsAbs (p : string) : bool := HasPrefix p "/".

(** [Clean] as its documentation states it, on the components: drop empty
    and [.] components, let [..] cancel the component before it, drop a
    leading [..] of a rooted path. [stack] is reversed. *)
Fixpoint clean_comps (rooted : bool) (stack cs : list string) : list string :=
  match cs with
  | [] => rev stack
  | c :: cs =>
    if String.eqb c "" || String.eqb c "." then clean_comps rooted stack cs
    else if String.eqb c ".." then
      match stack with
      | t :: stack' =>
        if String.eqb t ".." then clean_comps rooted (".." :: stack) cs
        else clean_comps rooted stack' cs
      | [] => if rooted then clean_comps rooted [] cs else clean_comps rooted [".."] cs
      end
    else clean_comps rooted (c :: stack) cs
  end.

Definition path_comps (p : string) : list string := clean_comps (IsAbs p) [] (Split slash p).

Definition Clean (p : string) : string :=
  if IsAbs p then "/" +:+ Join (path_comps p) "/"
  else match path_comps p with
       | [] => "."
       | cs => Join cs "/"
       end.

Definition PathJoin (elems : list string) : string :=
  match List.filter (fun e => negb (String.eqb e "")) elems with
  | [] => ""
  | es => Clean (Join es "/")
  end.

(** The bytes up to and including the last slash, and after it. *)
Fixpoint split_last_slash (s : string) : option (string * string) :=
  match s with
  | "" => None
  | String c s =>
    match split_last_slash s with
    | Some (a, b) => Some (String c a, b)
    | None => if Ascii.eqb c slash then Some (String c "", s) else None
    end
  end.

Definition Dir (p : string) : string :=
  Clean (match split_last_slash p with Some (d, _) => d | None => "" end).

Fixpoint strip_slashes (s : string) : string :=
  match s with
  | String c r => if Ascii.eqb c slash then strip_slashes r else s
  | "" => ""
  end.

Definition Base (p : string) : string :=
  if String.eqb p "" then "."
  else
    let p := string_rev (strip_slashes (string_rev p)) in
    let b := match split_last_slash p with Some (_, b) => b | None => p end in
    if String.eqb b "" then "/" else b.

(** [Ext]: from the last dot of the last element, scanning backwards. *)
Fixpoint ext_scan (rev_s acc : string) : string :=
  match rev_s with
  | "" => ""
  | String c r =>
    if Ascii.eqb c slash then ""
    else if Ascii.eqb c "." then String c acc
    else ext_scan r (String c acc)
  end.
Definition Ext (p : string) : string := ext_scan (string_rev p) "".

(** The elements [Rel] compares in a cleaned path. *)
Definition rel_elems (p : string) : list string :=
  match p with
  | String c r => if Ascii.eqb c slash then (if String.eqb r "" then [] else Split slash r)
                  else Split slash p
  | "" => []
  end.

Fixpoint strip_common (b t : list string) : list string * list string :=
  match b, t with
  | x :: b', y :: t' => if String.eqb x y then strip_common b' t' else (b, t)
  | _, _ => (b, t)
  end.

Definition Rel (basepath targpath : string) : result string :=
  let base := Clean basepath in
  let targ := Clean targpath in
  if String.eqb targ base then Ok "."
  else if negb (Bool.eqb (IsAbs base) (IsAbs targ)) then
    Err (EMsg ("Rel: can't make " +:+ targpath +:+ " relative to " +:+ basepath))
  else
    let '(b, t) := strip_common (if String.eqb base "." then [] else rel_elems base) (rel_elems targ) in
    match b with
    | [] => Ok (Join t "/")
    | x :: _ =>
      if String.eqb x ".." then
        Err (EMsg ("Rel: can't make " +:+ targpath +:+ " relative to " +:+ basepath))
      else Ok (Join (map (fun _ => "..") b ++ t) "/")
    end.

(** The test every containment check of the program ends with. *)
Definition rel_stays_inside (r : result string) : bool :=
  match r with
  | Ok relative => negb (String.eqb relative "..") && negb (HasPrefix relative "../")
  | Err _ => false
  end.

(** ** Theory *)

Definition no_slash (s : string) : Prop := all_bytes (fun c => negb (Ascii.eqb c slash)) s = true.

(** A component of a cleaned absolute path. *)
Definition normal (c : string) : Prop := c <> "" /\ c <> "." /\ c <> ".." /\ no_slash c.

#[export] Instance normal_dec c : Decision (normal c).
Proof. unfold normal, no_slash. apply _. Defined.

Lemma Split_no_slash sep s : Forall (fun w => all_bytes (fun c => negb (Ascii.eqb c sep)) w = true) (Split sep s).
Proof.
  induction s as [|c s IH]; cbn; [by repeat constructor|].
  destruct (Ascii.eqb c sep) eqn:Ec; [by constructor|].
  destruct (Split sep s) as [|w ws]; inversion IH; subst;
    constructor; cbn; rewrite ?Ec; cbn; auto.
Qed.

Lemma Split_nonempty sep s : Split sep s <> [].
Proof. destruct s as [|c s]; cbn; [done|]. destruct (Ascii.eqb c sep), (Split sep s); done. Qed.

Lemma Split_app_slash w s :
  no_slash w -> Split slash (w +:+ String slash s) = w :: Split slash s.
Proof.
  induction w as [|c w IH]; [done|]. unfold no_slash. cbn. rewrite andb_true_iff.
  intros [Hc Hw]. apply negb_true_iff in Hc. rewrite Hc.
  by rewrite IH.
Qed.

Lemma Split_word w : no_slash w -> Split slash w = [w].
Proof.
  induction w as [|c w IH]; [done|]. unfold no_slash. cbn. rewrite andb_true_iff.
  intros [Hc Hw]. apply negb_true_iff in Hc. rewrite Hc. by rewrite IH.
Qed.

Lemma Split_Join cs : cs <> [] -> Forall no_slash cs -> Split slash (Join cs "/") = cs.
Proof.
  induction cs as [|c [|d cs] IH]; intros Hn HF; [done| |].
  - inversion HF; subst. by apply Split_word.
  - inversion HF as [|? ? Hc HF']; subst.
    change (Join (c :: d :: cs) "/") with (c +:+ String slash (Join (d :: cs) "/")).
    rewrite Split_app_slash by done. f_equal. by apply IH.
Qed.

(** [clean_comps] on a rooted path keeps a stack of normal components. *)
Lemma clean_comps_normal stack cs :
  Forall normal stack -> Forall no_slash cs -> Forall normal (clean_comps true stack cs).
Proof.
  revert stack. induction cs as [|c cs IH]; intros stack Hs HF; cbn.
  - by apply Forall_rev.
  - inversion HF; subst.
    destruct (String.eqb_spec c ""); cbn; [auto|].
    destruct (String.eqb_spec c "."); cbn; [auto|].
    destruct (String.eqb_spec c "..").
    + destruct stack as [|t stack]; [auto|]. inversion Hs as [|? ? (?&?&Ht&?)]; subst.
      destruct (String.eqb_spec t ".."); [done|auto].
    + apply IH; [|done]. constructor; [|done]. by repeat split.
Qed.

Lemma path_comps_normal p : IsAbs p = true -> Forall normal (path_comps p).
Proof. intros Hp. unfold path_comps. rewrite Hp. apply clean_comps_normal; [done|apply Split_no_slash]. Qed.

Lemma clean_comps_id stack cs :
  Forall normal cs -> clean_comps true stack cs = rev stack ++ cs.
Proof.
  revert stack. induction cs as [|c cs IH]; intros stack HF; cbn; [by rewrite app_nil_r|].
  inversion HF as [|? ? (?&?&?&?) HF']; subst.
  destruct (String.eqb_spec c ""); [done|]. destruct (String.eqb_spec c "."); [done|].
  destruct (String.eqb_spec c ".."); [done|]. cbn. rewrite IH by done.
  cbn. by rewrite <- app_assoc.
Qed.

Lemma normal_no_slash cs : Forall normal cs -> Forall no_slash cs.
Proof. intros. eapply Forall_impl; [done|]. by intros ? (?&?&?&?). Qed.

Lemma Clean_abs p : IsAbs p = true -> Clean p = "/" +:+ Join (path_comps p) "/".
Proof. intros Hp. unfold Clean. by rewrite Hp. Qed.

Lemma IsAbs_cons c s : IsAbs (String c s) = Ascii.eqb c slash.
Proof. unfold IsAbs. cbn -[Ascii.eqb]. by rewrite andb_true_r, Ascii.eqb_sym. Qed.

Lemma IsAbs_Clean p : IsAbs (Clean p) = IsAbs p.
Proof.
  destruct (IsAbs p) eqn:Hp; unfold Clean; rewrite Hp; [done|].
  destruct (path_comps p) as [|c cs] eqn:Ec; [done|].
  assert (HF : Forall no_slash (path_comps p) /\ Forall (fun c => c <> "") (path_comps p)).
  { unfold path_comps. generalize (IsAbs p). intros b.
    assert (H : forall stack cs, Forall no_slash stack -> Forall (fun c => c <> "") stack ->
              Forall no_slash cs -> Forall no_slash (clean_comps b stack cs)
              /\ Forall (fun c => c <> "") (clean_comps b stack cs)).
    { clear. intros stack cs. revert stack. induction cs as [|c cs IH]; intros stack H1 H2 HF; cbn.
      - split; by apply Forall_rev.
      - inversion HF; subst. destruct (String.eqb_spec c ""); cbn; [auto|].
        destruct (String.eqb_spec c "."); cbn; [auto|].
        destruct (String.eqb_spec c "..").
        + destruct stack as [|t stack]; [destruct b; apply IH; repeat constructor; done|].
          inversion H1; inversion H2; subst.
          destruct (String.eqb t ".."); apply IH; repeat constructor; done.
        + apply IH; [constructor..|]; done. }
    apply H; [constructor..|]. apply Split_no_slash. }
  rewrite Ec in HF. destruct HF as [H1 H2]. inversion H1 as [|? ? Hc]; inversion H2; subst.
  destruct c as [|a c]; [done|]. unfold no_slash in Hc. cbn in Hc.
  apply andb_true_iff in Hc as [Ha _]. apply negb_true_iff in Ha.
  destruct cs; cbn -[Ascii.eqb IsAbs]; by rewrite IsAbs_cons.
Qed.

Lemma rel_elems_abs cs :
  Forall normal cs -> rel_elems ("/" +:+ Join cs "/") = cs.
Proof.
  intros HF. cbn. destruct cs as [|c cs]; [done|].
  destruct (String.eqb_spec (Join (c :: cs) "/") "") as [E|_].
  - exfalso. inversion HF as [|? ? (Hc&_)]; subst. destruct cs as [|d cs]; [done|].
    destruct c; [done|discriminate E].
  - apply Split_Join; [done|by apply normal_no_slash].
Qed.

Lemma path_comps_Clean p :
  IsAbs p = true -> path_comps (Clean p) = path_comps p.
Proof.
  intros Hp. pose proof (path_comps_normal p Hp) as HF. rewrite (Clean_abs p Hp).
  generalize dependent (path_comps p). intros cs HF.
  change ("/" +:+ Join cs "/") with (String slash (Join cs "/")).
  unfold path_comps at 1. rewrite IsAbs_cons, Ascii.eqb_refl.
  change (Split slash (String slash (Join cs "/"))) with ("" :: Split slash (Join cs "/")).
  cbn [clean_comps String.eqb orb]. destruct cs as [|c cs]; [done|].
  rewrite Split_Join by (done || by apply normal_no_slash).
  by rewrite clean_comps_id.
Qed.

Lemma Clean_idemp p : IsAbs p = true -> Clean (Clean p) = Clean p.
Proof.
  intros Hp. rewrite (Clean_abs (Clean p)) by (by rewrite IsAbs_Clean).
  by rewrite path_comps_Clean, <- Clean_abs.
Qed.

Lemma Join_inj a b :
  Forall normal a -> Forall normal b -> Join a "/" = Join b "/" -> a = b.
Proof.
  intros Ha Hb E. rewrite <- (rel_elems_abs a), <- (rel_elems_abs b) by done. by rewrite E.
Qed.

Lemma Clean_eq_iff p q :
  IsAbs p = true -> IsAbs q = true -> (Clean p = Clean q <-> path_comps p = path_comps q).
Proof.
  intros Hp Hq. rewrite !Clean_abs by done. split; [|by intros ->].
  intros E%string_app_inv_l. apply Join_inj; auto using path_comps_normal.
Qed.

(** [strip_common] finds the common prefix. *)
Lemma strip_common_spec b t b' t' :
  strip_common b t = (b', t') ->
  exists l, b = l ++ b' /\ t = l ++ t' /\
    match b', t' with x :: _, y :: _ => x <> y | _, _ => True end.
Proof.
  revert t. induction b as [|x b IH]; intros t; cbn.
  - intros [= <- <-]. exists []. by destruct t.
  - destruct t as [|y t]; [intros [= <- <-]; by exists []|].
    destruct (String.eqb_spec x y) as [->|Hne]; [|intros [= <- <-]; by exists []].
    intros (l&->&->&?)%IH. by exists (y :: l).
Qed.

Lemma HasPrefix_app_same p s : HasPrefix (p +:+ s) p = true.
Proof. apply HasPrefix_spec. by exists s. Qed.

Lemma dots_join_outside t : rel_stays_inside (Ok (Join (".." :: t) "/")) = false.
Proof. destruct t as [|x t]; [done|]. cbn [rel_stays_inside]. apply andb_false_iff. by right. Qed.

(** A path made of normal components never looks like a step outside. *)
Lemma normal_join_inside c cs :
  Forall normal (c :: cs) -> rel_stays_inside (Ok (Join (c :: cs) "/")) = true.
Proof.
  intros HF. assert (Hs : Split slash (Join (c :: cs) "/") = c :: cs)
    by (apply Split_Join; [done|by apply normal_no_slash]).
  inversion HF as [|? ? (_&_&Hc&_)]; subst.
  cbn [rel_stays_inside]. apply andb_true_iff. split; apply negb_true_iff.
  - apply String.eqb_neq. intros E. rewrite E in Hs. cbn in Hs. by injection Hs as <- _.
  - apply not_true_iff_false. intros [t E]%HasPrefix_spec. rewrite E in Hs.
    change ("../" +:+ t) with (".." +:+ String slash t) in Hs.
    rewrite Split_app_slash in Hs by done. by injection Hs as <- _.
Qed.

(** The test accepts exactly the paths whose components extend the root's. *)
Lemma rel_inside_iff root path :
  IsAbs root = true -> IsAbs path = true ->
  rel_stays_inside (Rel root path) = true <-> path_comps root `prefix_of` path_comps path.
Proof.
  intros Hr Hp. unfold Rel.
  pose proof (path_comps_normal root Hr) as Nr. pose proof (path_comps_normal path Hp) as Np.
  destruct (String.eqb_spec (Clean path) (Clean root)) as [E|NE].
  { apply Clean_eq_iff in E; [|done..]. rewrite E. by split. }
  rewrite !IsAbs_Clean, Hr, Hp. cbn [Bool.eqb negb].
  destruct (String.eqb_spec (Clean root) ".") as [E|_].
  { pose proof (IsAbs_Clean root) as H. rewrite E, Hr in H. discriminate H. }
  rewrite !Clean_abs, !rel_elems_abs by done.
  destruct (strip_common _ _) as [b t] eqn:Es.
  apply strip_common_spec in Es as (l&Eb&Et&Hd).
  destruct b as [|x b].
  - rewrite app_nil_r in Eb. destruct t as [|y t].
    + exfalso. apply NE. apply Clean_eq_iff; [done..|]. rewrite app_nil_r in Et; congruence.
    + rewrite Et in Np. apply Forall_app in Np as [_ Np].
      rewrite normal_join_inside by done. rewrite Eb, Et. split; [|done].
      intros _. by exists (y :: t).
  - rewrite Eb in Nr. apply Forall_app in Nr as [_ Nr].
    inversion Nr as [|? ? (_&_&Hx&_)]; subst.
    destruct (String.eqb_spec x ".."); [done|]. cbn [map app].
    rewrite dots_join_outside. split; [done|]. intros [k Ek].
    rewrite Eb, Et, <- app_assoc in Ek. apply app_inv_head in Ek.
    destruct t as [|y t]; [done|]. injection Ek as -> _. done.
Qed.

(** A relative path is never inside an absolute root, nor the converse. *)
Lemma rel_mixed root path :
  IsAbs root <> IsAbs path -> rel_stays_inside (Rel root path) = false.
Proof.
  intros Hne. unfold Rel. destruct (String.eqb_spec (Clean path) (Clean root)) as [E|_].
  { exfalso. apply Hne. by rewrite <- (IsAbs_Clean root), <- (IsAbs_Clean path), E. }
  rewrite !IsAbs_Clean. destruct (IsAbs root), (IsAbs path); done.
Qed.

Lemma clean_comps_snoc name stack cs :
  normal name -> clean_comps true stack (cs ++ [name]) = clean_comps true stack cs ++ [name].
Proof.
  intros (H1&H2&H3&_). apply String.eqb_neq in H1, H2, H3. revert stack.
  induction cs as [|c cs IH]; intros stack; cbn.
  - by rewrite H1, H2, H3.
  - destruct (String.eqb c "" || String.eqb c "."); [apply IH|].
    destruct (String.eqb c ".."); [|apply IH]. destruct stack as [|t ?]; [apply IH|].
    destruct (String.eqb t ".."); apply IH.
Qed.

(** Joining a plain name to an absolute directory appends one component. *)
Lemma path_comps_join parent name :
  IsAbs parent = true -> normal name ->
  path_comps (PathJoin [parent; name]) = path_comps parent ++ [name]
  /\ IsAbs (PathJoin [parent; name]) = true.
Proof.
  intros Hp Hn. assert (Hpe : String.eqb parent "" = false) by (by destruct parent).
  assert (Hne : String.eqb name "" = false) by (apply String.eqb_neq; by destruct Hn).
  unfold PathJoin. cbn [List.filter]. rewrite Hpe, Hne. cbn [negb Join].
  change (parent +:+ "/" +:+ name) with (parent +:+ String slash name).
  assert (Ha : IsAbs (parent +:+ String slash name) = true).
  { destruct parent as [|c p]; [done|]. cbn [String.append]. rewrite IsAbs_cons in *. done. }
  split; [|by rewrite IsAbs_Clean]. rewrite path_comps_Clean by done.
  unfold path_comps. rewrite Ha, Hp.
  assert (HS : forall s, Split slash (s +:+ String slash name) = Split slash s ++ [name]).
  { clear -Hn. induction s as [|c s IH]; cbn.
    - f_equal. apply Split_word. by destruct Hn as (?&?&?&?).
    - rewrite IH. destruct (Ascii.eqb c slash); [done|].
      destruct (Split slash s) eqn:E; [by apply Split_nonempty in E|done]. }
  rewrite HS. by apply clean_comps_snoc.
Qed.

Lemma Split_slash_cons s : Split slash (String slash s) = "" :: Split slash s.
Proof. done. Qed.

Lemma Split_app s t :
  Split slash (s +:+ String slash t) = Split slash s ++ Split slash t.
Proof.
  induction s as [|c s IH]; [done|]. rewrite string_app_cons. cbn [Split].
  rewrite IH. destruct (Ascii.eqb c slash); [done|].
  pose proof (Split_nonempty slash s). by destruct (Split slash s).
Qed.

Lemma Join_app a b :
  a <> [] -> b <> [] -> Join (a ++ b) "/" = Join a "/" +:+ String slash (Join b "/").
Proof.
  intros Ha Hb. induction a as [|x [|y a] IH]; [done| |].
  - by destruct b.
  - change (Join (x :: y :: a) "/") with (x +:+ String slash (Join (y :: a) "/")).
    change (Join ((x :: y :: a) ++ b) "/") with (x +:+ String slash (Join ((y :: a) ++ b) "/")).
    rewrite IH by done. by rewrite string_app_assoc.
Qed.

(** [clean == prefix || strings.HasPrefix(clean, prefix + "/")] for a
    cleaned prefix below the root is the component-wise prefix test. *)
Lemma under_prefix_iff q ns :
  IsAbs q = true -> ns <> [] -> Forall normal ns ->
  (String.eqb (Clean q) ("/" +:+ Join ns "/")
   || HasPrefix (Clean q) (("/" +:+ Join ns "/") +:+ "/")) = true <-> ns `prefix_of` path_comps q.
Proof.
  intros Hq Hn HF. pose proof (path_comps_normal q Hq) as Hc. rewrite Clean_abs by done.
  generalize dependent (path_comps q). intros cs Hc. rewrite orb_true_iff, String.eqb_eq. split.
  - intros [E%string_app_inv_l|[t E]%HasPrefix_spec].
    + apply Join_inj in E as ->; done.
    + rewrite !string_app_assoc in E. apply string_app_inv_l in E.
      change ("/" +:+ t) with (String slash t) in E.
      assert (cs <> []) as Hne.
      { intros ->. apply (f_equal String.length) in E. rewrite string_length_app in E.
        cbn in E. lia. }
      apply (f_equal (Split slash)) in E. rewrite Split_app in E.
      rewrite !Split_Join in E by (done || by apply normal_no_slash). rewrite E. by eexists.
  - intros [l ->]. destruct l as [|x l]; [left; by rewrite app_nil_r|right].
    rewrite Join_app by done. apply HasPrefix_spec. exists (Join (x :: l) "/").
    by rewrite !string_app_assoc.
Qed.
