(* ===== verification/Json.v ===== *)
(** * [encoding/json]: the documents the program writes and reads back

    [json.Marshal] prints a value compactly with HTML escaping, and coerces
    an invalid UTF-8 byte to [\ufffd].  Digests, signatures and the hash
    chain are computed over this text, so what they distinguish is what
    [print] distinguishes: [print_inj] says which values that is.  [parse]
    reads what [print] wrote ([parse_print]) and any other text the way
    [encoding/json] does, escapes, surrogate pairs, bytes that are not UTF-8
    and the grammar of numbers included; what it returns is well formed
    ([parse_first_wf]).  The limit of 10000 nested values is not modelled. *)

From S2P Require Import Prelude GoStrings.
From Stdlib Require DecimalString DecimalZ DecimalPos DecimalFacts.

Inductive json :=
  | JNull
  | JBool (b : bool)
  | JNum (lit : string)
  | JStr (s : string)
  | JArr (l : list json)
  | JObj (fields : list (string * json)).

Section JsonInd.
Variable P : json -> Prop.
Hypothesis Hnull : P JNull.
Hypothesis Hbool : forall b, P (JBool b).
Hypothesis Hnum : forall lit, P (JNum lit).
Hypothesis Hstr : forall s, P (JStr s).
Hypothesis Harr : forall l, Forall P l -> P (JArr l).
Hypothesis Hobj : forall l, Forall (fun kv => P kv.2) l -> P (JObj l).

Fixpoint json_ind_nested (j : json) : P j :=
  match j with
  | JNull => Hnull
  | JBool b => Hbool b
  | JNum lit => Hnum lit
  | JStr s => Hstr s
  | JArr l => Harr l ((fix go l : Forall P l :=
                         match l with
                         | [] => Forall_nil_2 _
                         | x :: l => Forall_cons_2 _ _ _ (json_ind_nested x) (go l)
                         end) l)
  | JObj l => Hobj l ((fix go l : Forall (fun kv : string * json => P kv.2) l :=
                         match l with
                         | [] => Forall_nil_2 _
                         | x :: l => Forall_cons_2 _ _ _ (json_ind_nested x.2) (go l)
                         end) l)
  end.
End JsonInd.

(** ** Strings *)

Definition dquote : ascii := "034"%char.
Definition bslash : ascii := "\"%char.

Definition hex_digit (n : N) : ascii :=
  if (n <? 10)%N then chr (48 + n) else chr (87 + n).

(** [\u00XX] *)
Definition escape_u00 (c : ascii) : string :=
  String bslash (String "u" (String "0" (String "0"
    (String (hex_digit (code c / 16)) (String (hex_digit (code c mod 16)) ""))))).

(** The escaped form of an ASCII byte ([htmlSafeSet] passes unchanged). *)
Definition escape_ascii (c : ascii) : string :=
  if Ascii.eqb c dquote || Ascii.eqb c bslash then String bslash (String c "")
  else if (code c =? 8)%N then String bslash "b"
  else if (code c =? 12)%N then String bslash "f"
  else if (code c =? 10)%N then String bslash "n"
  else if (code c =? 13)%N then String bslash "r"
  else if (code c =? 9)%N then String bslash "t"
  else if (code c <? 32)%N || Ascii.eqb c "<" || Ascii.eqb c ">" || Ascii.eqb c "&"
  then escape_u00 c
  else String c "".

Definition invalid_rune : string := String bslash "ufffd".

(** U+2028 and U+2029 are E2 80 A8 and E2 80 A9. *)
Definition escape3 (a b c : ascii) : string :=
  if (code a =? 226)%N && (code b =? 128)%N && (code c =? 168)%N then String bslash "u2028"
  else if (code a =? 226)%N && (code b =? 128)%N && (code c =? 169)%N then String bslash "u2029"
  else String a (String b (String c "")).

Fixpoint quote_body (s : string) : string :=
  match s with
  | "" => ""
  | String a s1 =>
    if (code a <? 128)%N then escape_ascii a +:+ quote_body s1
    else if in_range 194 223 (code a) then
      match s1 with
      | String b s2 => if cont b then String a (String b "") +:+ quote_body s2
                       else invalid_rune +:+ quote_body s1
      | "" => invalid_rune
      end
    else if in_range 224 239 (code a) then
      match s1 with
      | String b (String c s3) =>
        if second3 a b && cont c then escape3 a b c +:+ quote_body s3
        else invalid_rune +:+ quote_body s1
      | _ => invalid_rune +:+ quote_body s1
      end
    else if in_range 240 244 (code a) then
      match s1 with
      | String b (String c (String d s4)) =>
        if second4 a b && cont c && cont d
        then String a (String b (String c (String d ""))) +:+ quote_body s4
        else invalid_rune +:+ quote_body s1
      | _ => invalid_rune +:+ quote_body s1
      end
    else invalid_rune +:+ quote_body s1
  end.

Definition quote (s : string) : string := String dquote (quote_body s +:+ String dquote "").

(** [utf8.ValidString] *)
Fixpoint valid_utf8 (s : string) : bool :=
  match s with
  | "" => true
  | String a s1 =>
    if (code a <? 128)%N then valid_utf8 s1
    else if in_range 194 223 (code a) then
      match s1 with String b s2 => cont b && valid_utf8 s2 | "" => false end
    else if in_range 224 239 (code a) then
      match s1 with
      | String b (String c s3) => second3 a b && cont c && valid_utf8 s3
      | _ => false
      end
    else if in_range 240 244 (code a) then
      match s1 with
      | String b (String c (String d s4)) => second4 a b && cont c && cont d && valid_utf8 s4
      | _ => false
      end
    else false
  end.

(** ** Printing *)

Fixpoint print (j : json) : string :=
  match j with
  | JNull => "null"
  | JBool true => "true"
  | JBool false => "false"
  | JNum lit => lit
  | JStr s => quote s
  | JArr l => "[" +:+ Join (map print l) "," +:+ "]"
  | JObj l => "{" +:+ Join (map (fun kv => quote kv.1 +:+ ":" +:+ print kv.2) l) "," +:+ "}"
  end.

(** ** Reading back *)

Definition hex_value (c : ascii) : option N :=
  if in_range 48 57 (code c) then Some (code c - 48)%N
  else if in_range 97 102 (code c) then Some (code c - 87)%N
  else if in_range 65 70 (code c) then Some (code c - 55)%N
  else None.

(** [getu4]: four hexadecimal digits. *)
Definition hex4 (h1 h2 h3 h4 : ascii) : option N :=
  match hex_value h1, hex_value h2, hex_value h3, hex_value h4 with
  | Some a, Some b, Some c, Some d => Some (a * 4096 + b * 256 + c * 16 + d)%N
  | _, _, _, _ => None
  end.

(** [utf16.IsSurrogate] and [utf16.DecodeRune] *)
Definition surrogate (u : N) : bool := in_range 55296 57343 u.
Definition decode_pair (u v : N) : option N :=
  if in_range 55296 56319 u && in_range 56320 57343 v
  then Some ((u - 55296) * 1024 + (v - 56320) + 65536)%N
  else None.

Definition unescape_simple (e : ascii) : option ascii :=
  if Ascii.eqb e dquote || Ascii.eqb e bslash || Ascii.eqb e "/" then Some e
  else if Ascii.eqb e "b" then Some (chr 8)
  else if Ascii.eqb e "f" then Some (chr 12)
  else if Ascii.eqb e "n" then Some (chr 10)
  else if Ascii.eqb e "r" then Some (chr 13)
  else if Ascii.eqb e "t" then Some (chr 9)
  else None.

Definition prepend (p : string) (r : option (string * string)) : option (string * string) :=
  match r with Some (s, rest) => Some (p +:+ s, rest) | None => None end.

(** The rest of a string after its opening quote.  A byte that is not UTF-8
    and a surrogate without its other half are read as U+FFFD. *)
Fixpoint unquote (s : string) : option (string * string) :=
  match s with
  | "" => None
  | String c r =>
    let bad (_ : unit) := prepend (encode_rune RuneError) (unquote r) in
    if Ascii.eqb c dquote then Some ("", r)
    else if Ascii.eqb c bslash then
      match r with
      | String e r1 =>
        if Ascii.eqb e "u" then
          match r1 with
          | String h1 (String h2 (String h3 (String h4 r2))) =>
            match hex4 h1 h2 h3 h4 with
            | Some u =>
              let alone (_ : unit) := prepend (encode_rune u) (unquote r2) in
              if surrogate u then
                match r2 with
                | String b (String x (String g1 (String g2 (String g3 (String g4 r3))))) =>
                  if Ascii.eqb b bslash && Ascii.eqb x "u" then
                    match hex4 g1 g2 g3 g4 with
                    | Some v =>
                      match decode_pair u v with
                      | Some rune => prepend (encode_rune rune) (unquote r3)
                      | None => alone tt
                      end
                    | None => alone tt
                    end
                  else alone tt
                | _ => alone tt
                end
              else alone tt
            | None => None
            end
          | _ => None
          end
        else match unescape_simple e with
             | Some x => prepend (String x "") (unquote r1)
             | None => None
             end
      | "" => None
      end
    else if (code c <? 32)%N then None
    else if (code c <? 128)%N then prepend (String c "") (unquote r)
    else match r with
         | String d r2 =>
           if in_range 194 223 (code c) && cont d then prepend (String c (String d "")) (unquote r2)
           else match r2 with
                | String e r3 =>
                  if in_range 224 239 (code c) && second3 c d && cont e
                  then prepend (String c (String d (String e ""))) (unquote r3)
                  else match r3 with
                       | String f r4 =>
                         if in_range 240 244 (code c) && second4 c d && cont e && cont f
                         then prepend (String c (String d (String e (String f "")))) (unquote r4)
                         else bad tt
                       | "" => bad tt
                       end
                | "" => bad tt
                end
         | "" => bad tt
         end
  end.

Definition num_char (c : ascii) : bool :=
  in_range 48 57 (code c) || Ascii.eqb c "-" || Ascii.eqb c "+" || Ascii.eqb c "."
  || Ascii.eqb c "e" || Ascii.eqb c "E".

Fixpoint span_num (s : string) : string * string :=
  match s with
  | "" => ("", "")
  | String c r => if num_char c then let '(a, b) := span_num r in (String c a, b) else ("", s)
  end.

Definition digit_char (c : ascii) : bool := in_range 48 57 (code c).

Fixpoint skip_digits (s : string) : string :=
  match s with String c r => if digit_char c then skip_digits r else s | "" => "" end.

(** One digit or more. *)
Definition some_digits (s : string) : option string :=
  match s with String c r => if digit_char c then Some (skip_digits r) else None | "" => None end.

Definition after_sign (sign : ascii -> bool) (s : string) : string :=
  match s with String c r => if sign c then r else s | "" => "" end.

(** The grammar of a number: an integer without leading zeros, a fraction
    and an exponent. *)
Definition exponent_literal (s : string) : bool :=
  match s with
  | "" => true
  | String c r =>
    (Ascii.eqb c "e" || Ascii.eqb c "E") &&
    match some_digits (after_sign (fun c => Ascii.eqb c "+" || Ascii.eqb c "-") r) with
    | Some rest => String.eqb rest ""
    | None => false
    end
  end.

Definition fraction_literal (s : string) : bool :=
  match s with
  | String c r =>
    if Ascii.eqb c "." then match some_digits r with Some rest => exponent_literal rest | None => false end
    else exponent_literal s
  | "" => true
  end.

Definition number_literal (lit : string) : bool :=
  match after_sign (fun c => Ascii.eqb c "-") lit with
  | String c r =>
    if Ascii.eqb c "0" then fraction_literal r
    else match some_digits (String c r) with Some rest => fraction_literal rest | None => false end
  | "" => false
  end.

Definition num_start (c : ascii) : bool := in_range 48 57 (code c) || Ascii.eqb c "-".

Definition strip_prefix (p s : string) : option string :=
  if HasPrefix s p then Some (drop_bytes (String.length p) s) else None.

(** Insignificant white space. *)
Definition json_space (c : ascii) : bool :=
  Ascii.eqb c " " || Ascii.eqb c (chr 9) || Ascii.eqb c (chr 10) || Ascii.eqb c (chr 13).

Fixpoint skip_space (s : string) : string :=
  match s with String c r => if json_space c then skip_space r else s | "" => "" end.

(** A key and the colon after it. *)
Definition parse_key (s : string) : option (string * string) :=
  match skip_space s with
  | String q r0 =>
    if Ascii.eqb q dquote then
      match unquote r0 with
      | Some (k, after) =>
        match skip_space after with
        | String colon r1 => if Ascii.eqb colon ":" then Some (k, r1) else None
        | "" => None
        end
      | None => None
      end
    else None
  | "" => None
  end.

Fixpoint parse_val (n : nat) (s : string) : option (json * string) :=
  match n with
  | 0 => None
  | S n =>
    match skip_space s with
    | "" => None
    | String c r =>
      if Ascii.eqb c dquote then
        match unquote r with Some (x, rest) => Some (JStr x, rest) | None => None end
      else if Ascii.eqb c "[" then
        match strip_prefix "]" (skip_space r) with
        | Some rest => Some (JArr [], rest)
        | None => match parse_elems n r with
                  | Some (l, rest) => Some (JArr l, rest)
                  | None => None
                  end
        end
      else if Ascii.eqb c "{" then
        match strip_prefix "}" (skip_space r) with
        | Some rest => Some (JObj [], rest)
        | None => match parse_fields n r with
                  | Some (l, rest) => Some (JObj l, rest)
                  | None => None
                  end
        end
      else if num_start c then
        let '(lit, rest) := span_num (String c r) in if number_literal lit then Some (JNum lit, rest) else None
      else match strip_prefix "null" (String c r), strip_prefix "true" (String c r), strip_prefix "false" (String c r) with
           | Some rest, _, _ => Some (JNull, rest)
           | _, Some rest, _ => Some (JBool true, rest)
           | _, _, Some rest => Some (JBool false, rest)
           | _, _, _ => None
           end
    end
  end
with parse_elems (n : nat) (s : string) : option (list json * string) :=
  match n with
  | 0 => None
  | S n =>
    match parse_val n s with
    | Some (x, after) =>
      match skip_space after with
      | String c r =>
        if Ascii.eqb c "]" then Some ([x], r)
        else if Ascii.eqb c "," then
          match parse_elems n r with Some (l, rest) => Some (x :: l, rest) | None => None end
        else None
      | "" => None
      end
    | None => None
    end
  end
with parse_fields (n : nat) (s : string) : option (list (string * json) * string) :=
  match n with
  | 0 => None
  | S n =>
    match parse_key s with
    | Some (k, r1) =>
      match parse_val n r1 with
      | Some (x, after) =>
        match skip_space after with
        | String c r =>
          if Ascii.eqb c "}" then Some ([(k, x)], r)
          else if Ascii.eqb c "," then
            match parse_fields n r with
            | Some (l, rest) => Some ((k, x) :: l, rest)
            | None => None
            end
          else None
        | "" => None
        end
      | None => None
      end
    | None => None
    end
  end.

(** The first value of a text, and what follows it. *)
Definition parse_first (s : string) : option (json * string) := parse_val (1 + 2 * String.length s) s.

Definition parse (s : string) : option json :=
  match parse_first s with
  | Some (j, rest) => match skip_space rest with "" => Some j | _ => None end
  | None => None
  end.

(** ** Round trip *)

Lemma unquote_escape_ascii c r :
  (code c <? 128)%N = true ->
  unquote (escape_ascii c +:+ r) = prepend (String c "") (unquote r).
Proof. destruct c as [[][][][][][][][]]; intros Hc; try discriminate Hc; reflexivity. Qed.

Lemma cont_high c : cont c = true -> (code c <? 128)%N = false.
Proof. unfold cont, in_range. rewrite andb_true_iff, N.leb_le, N.ltb_ge. lia. Qed.

Lemma second3_high a b : second3 a b = true -> (code b <? 128)%N = false.
Proof.
  unfold second3, cont, in_range. rewrite N.ltb_ge.
  repeat case_match; rewrite andb_true_iff, N.leb_le; lia.
Qed.

Lemma second4_high a b : second4 a b = true -> (code b <? 128)%N = false.
Proof.
  unfold second4, cont, in_range. rewrite N.ltb_ge.
  repeat case_match; rewrite andb_true_iff, N.leb_le; lia.
Qed.

Lemma prepend_app p q r : prepend p (prepend q r) = prepend (p +:+ q) r.
Proof. destruct r as [[s t]|]; cbn; [|done]. by rewrite string_app_assoc. Qed.

Lemma high_facts c :
  (code c <? 128)%N = false ->
  Ascii.eqb c dquote = false /\ Ascii.eqb c bslash = false /\ (code c <? 32)%N = false.
Proof. destruct c as [[][][][][][][][]]; intros Hc; try discriminate Hc; by vm_compute. Qed.

Lemma ranges_high lo hi c : in_range lo hi (code c) = true -> (128 <=? lo)%N = true -> (code c <? 128)%N = false.
Proof. unfold in_range. rewrite andb_true_iff, !N.leb_le, N.ltb_ge. lia. Qed.

Lemma ranges_apart lo hi lo' hi' n : in_range lo hi n = true -> (hi <? lo')%N = true -> in_range lo' hi' n = false.
Proof. unfold in_range. rewrite andb_true_iff, !N.leb_le, N.ltb_lt, andb_false_iff, !N.leb_gt. lia. Qed.

Lemma ranges_below lo hi lo' hi' n : in_range lo hi n = true -> (hi' <? lo)%N = true -> in_range lo' hi' n = false.
Proof. unfold in_range. rewrite andb_true_iff, !N.leb_le, N.ltb_lt, andb_false_iff, !N.leb_gt. lia. Qed.

(** The bytes of a rune at or above 128 are read together. *)
Lemma unquote_two a b r :
  in_range 194 223 (code a) = true -> cont b = true ->
  unquote (String a (String b r)) = prepend (String a (String b "")) (unquote r).
Proof.
  intros Ha Hb. pose proof (ranges_high _ _ _ Ha eq_refl) as Hh. destruct (high_facts a Hh) as (E1&E2&E3).
  cbn [unquote]. by rewrite E1, E2, E3, Hh, Ha, Hb.
Qed.

Lemma unquote_three a b c r :
  in_range 224 239 (code a) = true -> second3 a b = true -> cont c = true ->
  unquote (String a (String b (String c r))) = prepend (String a (String b (String c ""))) (unquote r).
Proof.
  intros Ha Hb Hc. pose proof (ranges_high _ _ _ Ha eq_refl) as Hh. destruct (high_facts a Hh) as (E1&E2&E3).
  cbn [unquote]. by rewrite E1, E2, E3, Hh, (ranges_below _ _ 194 223 _ Ha eq_refl), Ha, Hb, Hc.
Qed.

Lemma unquote_four a b c d r :
  in_range 240 244 (code a) = true -> second4 a b = true -> cont c = true -> cont d = true ->
  unquote (String a (String b (String c (String d r)))) = prepend (String a (String b (String c (String d "")))) (unquote r).
Proof.
  intros Ha Hb Hc Hd. pose proof (ranges_high _ _ _ Ha eq_refl) as Hh. destruct (high_facts a Hh) as (E1&E2&E3).
  cbn [unquote].
  by rewrite E1, E2, E3, Hh, (ranges_below _ _ 194 223 _ Ha eq_refl), (ranges_below _ _ 224 239 _ Ha eq_refl), Ha, Hb, Hc, Hd.
Qed.

Lemma unquote_escape3 a b c r :
  in_range 224 239 (code a) = true -> second3 a b = true -> cont c = true ->
  unquote (escape3 a b c +:+ r) = prepend (String a (String b (String c ""))) (unquote r).
Proof.
  intros Ha Hb Hc. unfold escape3.
  destruct (_ && _ && (code c =? 168)%N) eqn:E1; [|destruct (_ && _ && (code c =? 169)%N) eqn:E2].
  - rewrite !andb_true_iff, !N.eqb_eq in E1. destruct E1 as [[E1 E2] E3].
    rewrite <- (chr_code a), <- (chr_code b), <- (chr_code c), E1, E2, E3. reflexivity.
  - rewrite !andb_true_iff, !N.eqb_eq in E2. destruct E2 as [[E2 E3] E4].
    rewrite <- (chr_code a), <- (chr_code b), <- (chr_code c), E2, E3, E4. reflexivity.
  - cbn [String.append]. by apply unquote_three.
Qed.

(** Reading a quoted valid string gives the string back. *)
Lemma unquote_quote_body s rest :
  valid_utf8 s = true ->
  unquote (quote_body s +:+ String dquote rest) = Some (s, rest).
Proof.
  remember (String.length s) as n eqn:En. revert s En.
  induction (lt_wf n) as [n _ IH]. intros s ->. destruct s as [|a s1]; [done|].
  cbn [valid_utf8 quote_body]. destruct (code a <? 128)%N eqn:Ha.
  { intros Hv. rewrite string_app_assoc, unquote_escape_ascii by done.
    by rewrite (IH (String.length s1)) by (cbn; lia || done). }
  destruct (in_range 194 223 (code a)) eqn:H2.
  { destruct s1 as [|b s2]; [done|]. rewrite andb_true_iff. intros [Hb Hv]. rewrite Hb.
    cbn [String.append]. rewrite unquote_two by done.
    by rewrite (IH (String.length s2)) by (cbn; lia || done). }
  destruct (in_range 224 239 (code a)) eqn:H3.
  { destruct s1 as [|b [|c s3]]; [done..|]. rewrite !andb_true_iff. intros [[Hb Hc] Hv].
    rewrite Hb, Hc. cbn [andb]. rewrite string_app_assoc, unquote_escape3 by done.
    by rewrite (IH (String.length s3)) by (cbn; lia || done). }
  destruct (in_range 240 244 (code a)) eqn:H4; [|done].
  destruct s1 as [|b [|c [|d s4]]]; [done..|]. rewrite !andb_true_iff. intros [[[Hb Hc] Hd] Hv].
  rewrite Hb, Hc, Hd. cbn [andb String.append]. rewrite unquote_four by done.
  by rewrite (IH (String.length s4)) by (cbn; lia || done).
Qed.

(** *** Documents that survive *)

Definition num_lit (lit : string) : bool :=
  match lit with
  | String c r => num_start c && all_bytes num_char r && number_literal lit
  | "" => false
  end.

Fixpoint wf_json (j : json) : bool :=
  match j with
  | JNull | JBool _ => true
  | JNum lit => num_lit lit
  | JStr s => valid_utf8 s
  | JArr l => forallb wf_json l
  | JObj l => forallb (fun kv => valid_utf8 kv.1 && wf_json kv.2) l
  end.

Fixpoint total (l : list nat) : nat := match l with [] => 0 | x :: l => x + total l end.

Fixpoint size (j : json) : nat :=
  match j with
  | JArr l => 2 + total (map (fun j => 1 + size j) l)
  | JObj l => 2 + total (map (fun kv => 1 + size kv.2) l)
  | _ => 1
  end.

(** What follows a value does not continue a number. *)
Definition delimited (s : string) : bool :=
  match s with "" => true | String c _ => negb (num_char c) end.

Lemma span_num_app lit rest :
  all_bytes num_char lit = true -> delimited rest = true ->
  span_num (lit +:+ rest) = (lit, rest).
Proof.
  intros Hl Hr. induction lit as [|c lit IH]; cbn.
  - destruct rest as [|c rest]; [done|]. cbn in *. apply negb_true_iff in Hr. by rewrite Hr.
  - cbn in Hl. apply andb_true_iff in Hl as [-> Hl]. by rewrite IH.
Qed.

Lemma num_start_char c : num_start c = true -> num_char c = true.
Proof. unfold num_start, num_char. rewrite !orb_true_iff. tauto. Qed.

Lemma num_lit_bytes s : num_lit s = true -> all_bytes num_char s = true.
Proof.
  destruct s as [|c s]; [done|]. unfold num_lit. rewrite !andb_true_iff. intros [[Hc Hs] _]. cbn. by rewrite (num_start_char c Hc), Hs.
Qed.

Lemma num_start_facts c :
  num_start c = true ->
  Ascii.eqb c dquote = false /\ Ascii.eqb c "[" = false /\ Ascii.eqb c "{" = false.
Proof. destruct c as [[][][][][][][][]]; intros Hc; try discriminate Hc; by vm_compute. Qed.

Lemma print_cons_head j :
  wf_json j = true -> exists c r, print j = String c r /\ Ascii.eqb c "]" = false /\ Ascii.eqb c "}" = false.
Proof.
  destruct j as [|[]|lit|s|l|l]; cbn [print]; intros Hw; try (do 2 eexists; split; [reflexivity|done]).
  destruct lit as [|c r]; [done|]. cbn [wf_json num_lit] in Hw. rewrite !andb_true_iff in Hw. destruct Hw as [[Hc _] _].
  exists c, r. split; [done|]. revert Hc.
  destruct c as [[][][][][][][][]]; intros Hc; try discriminate Hc; by vm_compute.
Qed.

Lemma strip_prefix_none p c r a q :
  p = String a q -> Ascii.eqb c a = false -> strip_prefix p (String c r) = None.
Proof.
  intros -> Hc. unfold strip_prefix. cbn [HasPrefix]. by rewrite Ascii.eqb_sym, Hc.
Qed.

Lemma skip_space_at c r : json_space c = false -> skip_space (String c r) = String c r.
Proof. intros Hc. cbn. by rewrite Hc. Qed.

Lemma skip_space_length s : String.length (skip_space s) <= String.length s.
Proof. induction s as [|c s IH]; [done|]. cbn. destruct (json_space c); cbn; lia. Qed.

Lemma num_start_space c : num_start c = true -> json_space c = false.
Proof. destruct c as [[][][][][][][][]]; intros Hc; try discriminate Hc; by vm_compute. Qed.

(** No text begins with space where a value is printed. *)
Lemma print_space j rest : wf_json j = true -> skip_space (print j +:+ rest) = print j +:+ rest.
Proof.
  intros Hw. destruct j as [|[]|lit|s|l|l]; try reflexivity. destruct lit as [|c r]; [done|].
  cbn [wf_json num_lit] in Hw. rewrite !andb_true_iff in Hw. destruct Hw as [[Hc _] _]. cbn. by rewrite num_start_space.
Qed.

Definition roundtrips (j : json) : Prop :=
  wf_json j = true -> forall n rest, size j <= n -> delimited rest = true ->
  parse_val n (print j +:+ rest) = Some (j, rest).

Lemma parse_elems_print l n rest :
  Forall roundtrips l -> forallb wf_json l = true -> l <> [] ->
  total (map (fun j => 1 + size j) l) <= n ->
  parse_elems n (Join (map print l) "," +:+ String "]" rest) = Some (l, rest).
Proof.
  revert n. induction l as [|j l IH]; intros n HF Hw Hne Hn; [done|].
  inversion HF as [|? ? Hj HF']; subst. cbn in Hw. apply andb_true_iff in Hw as [Hwj Hwl].
  cbn [map total] in Hn. destruct n as [|n]; [lia|]. cbn [parse_elems].
  destruct l as [|k l].
  - cbn [map Join]. rewrite Hj by (done || cbn in Hn; lia). done.
  - change (Join (map print (j :: k :: l)) ",")
      with (print j +:+ String "," (Join (map print (k :: l)) ",")).
    rewrite string_app_assoc. cbn [String.append]. rewrite Hj by (done || lia).
    rewrite skip_space_at by done. cbn [Ascii.eqb Bool.eqb]. rewrite IH by (done || cbn in *; lia). done.
Qed.

Lemma parse_key_quote k rest : valid_utf8 k = true -> parse_key (quote k +:+ ":" +:+ rest) = Some (k, rest).
Proof.
  intros Hk. unfold quote, parse_key. cbn [String.append]. rewrite skip_space_at by done.
  rewrite Ascii.eqb_refl, ?string_app_assoc. cbn [String.append]. by rewrite unquote_quote_body.
Qed.

Lemma parse_fields_print l n rest :
  Forall (fun kv => roundtrips kv.2) l ->
  forallb (fun kv => valid_utf8 kv.1 && wf_json kv.2) l = true -> l <> [] ->
  total (map (fun kv => 1 + size kv.2) l) <= n ->
  parse_fields n (Join (map (fun kv => quote kv.1 +:+ ":" +:+ print kv.2) l) ","
                  +:+ String "}" rest) = Some (l, rest).
Proof.
  revert n. induction l as [|[k j] l IH]; intros n HF Hw Hne Hn; [done|].
  inversion HF as [|? ? Hj HF']; subst. cbn in Hw, Hj. rewrite !andb_true_iff in Hw.
  destruct Hw as [[Hk Hwj] Hwl]. cbn [map total fst snd] in Hn.
  destruct n as [|n]; [lia|]. destruct l as [|kv l].
  - cbn [map Join fst snd parse_fields]. rewrite !string_app_assoc, parse_key_quote by done.
    rewrite Hj by (done || cbn in Hn; lia). done.
  - change (Join (map (fun kv => quote kv.1 +:+ ":" +:+ print kv.2) ((k, j) :: kv :: l)) ",")
      with ((quote k +:+ ":" +:+ print j) +:+
            String "," (Join (map (fun kv => quote kv.1 +:+ ":" +:+ print kv.2) (kv :: l)) ",")).
    cbn [parse_fields]. rewrite !string_app_assoc, parse_key_quote by done. cbn [String.append].
    rewrite Hj by (done || lia). rewrite skip_space_at by done. cbn [Ascii.eqb Bool.eqb]. rewrite IH by (done || cbn in *; lia). done.
Qed.

Lemma Join_head x l sep c r : x = String c r -> exists t, Join (x :: l) sep = String c t.
Proof. intros ->. destruct l; cbn; eauto. Qed.

Lemma elems_not_empty j l rest :
  wf_json j = true -> strip_prefix "]" (skip_space (Join (map print (j :: l)) "," +:+ rest)) = None.
Proof.
  intros Hw. pose proof (print_space j "" Hw) as Hs. apply print_cons_head in Hw as (c&r&E&Hc&_). cbn [map].
  destruct (Join_head (print j) (map print l) "," c r E) as [t ->]. cbn [String.append].
  rewrite E in Hs. cbn in Hs. destruct (json_space c) eqn:Hsp.
  - assert (Hl : String.length (skip_space (r +:+ "")) <= String.length (r +:+ "")) by apply skip_space_length.
    rewrite Hs in Hl. cbn in Hl. lia.
  - rewrite skip_space_at by done. by eapply strip_prefix_none.
Qed.

Lemma fields_not_empty kv l rest :
  strip_prefix "}" (skip_space (Join (map (fun kv => quote kv.1 +:+ ":" +:+ print kv.2) (kv :: l)) "," +:+ rest))
  = None.
Proof.
  cbn [map].
  destruct (Join_head (quote kv.1 +:+ ":" +:+ print kv.2)
              (map (fun kv => quote kv.1 +:+ ":" +:+ print kv.2) l) "," dquote
              ((quote_body kv.1 +:+ String dquote "") +:+ ":" +:+ print kv.2) eq_refl) as [t ->].
  reflexivity.
Qed.

Lemma parse_val_print j : roundtrips j.
Proof.
  induction j as [|b|lit|s|l IH|l IH] using json_ind_nested;
    intros Hw n rest Hn Hd; (destruct n as [|n]; [cbn in Hn; lia|]).
  - reflexivity.
  - destruct b; reflexivity.
  - destruct lit as [|c r]; [done|]. cbn [wf_json num_lit] in Hw. rewrite !andb_true_iff in Hw. destruct Hw as [[Hc Hr] Hl].
    destruct (num_start_facts c Hc) as (H1&H2&H3).
    cbn [print String.append parse_val]. rewrite skip_space_at by by apply num_start_space. rewrite H1, H2, H3, Hc.
    change (String c (r +:+ rest)) with (String c r +:+ rest). rewrite span_num_app; [by rewrite Hl| |done].
    cbn. by rewrite num_start_char.
  - cbn [print]. unfold quote. cbn [String.append parse_val]. rewrite skip_space_at by done.
    rewrite Ascii.eqb_refl, string_app_assoc. cbn [String.append].
    by rewrite unquote_quote_body.
  - cbn [print String.append parse_val]. rewrite skip_space_at by done. cbn [Ascii.eqb Bool.eqb].
    destruct l as [|j l]; [reflexivity|]. rewrite string_app_assoc. cbn [String.append].
    rewrite elems_not_empty by (cbn in Hw; by apply andb_true_iff in Hw as [? _]).
    rewrite parse_elems_print by (done || cbn in *; lia). done.
  - cbn [print String.append parse_val]. rewrite skip_space_at by done. cbn [Ascii.eqb Bool.eqb].
    destruct l as [|kv l]; [reflexivity|]. rewrite string_app_assoc. cbn [String.append].
    rewrite fields_not_empty.
    rewrite parse_fields_print by (done || cbn in *; lia). done.
Qed.

(** *** The fuel of [parse] is enough *)

Lemma Join_length l sep :
  String.length sep = 1 ->
  total (map (fun x => 1 + String.length x) l) <= 1 + String.length (Join l sep).
Proof.
  intros Hs. induction l as [|x [|y l] IH]; [cbn; lia|cbn; lia|].
  cbn [map total] in *.
  change (Join (x :: y :: l) sep) with (x +:+ sep +:+ Join (y :: l) sep).
  rewrite !string_length_app. lia.
Qed.

Lemma sum_map_le {A} (f g : A -> nat) l :
  Forall (fun x => f x <= g x) l -> total (map f l) <= total (map g l).
Proof. induction 1; cbn in *; lia. Qed.

Lemma total_double {A} (f : A -> nat) l :
  total (map (fun x => 2 * f x) l) = 2 * total (map f l).
Proof. induction l; cbn in *; lia. Qed.

Lemma size_le_print j : wf_json j = true -> size j <= 2 * String.length (print j).
Proof.
  induction j as [|b|lit|s|l IH|l IH] using json_ind_nested; intros Hw.
  - cbn; lia.
  - destruct b; cbn; lia.
  - destruct lit; [done|cbn; lia].
  - cbn [size print]. unfold quote. cbn. lia.
  - cbn [size print]. rewrite !string_length_app.
    pose proof (Join_length (map print l) "," eq_refl) as HJ. rewrite map_map in HJ.
    enough (total (map (fun j => 1 + size j) l)
            <= 2 * total (map (fun j => 1 + String.length (print j)) l)) by (cbn in *; lia).
    rewrite <- total_double. apply sum_map_le. cbn in Hw.
    rewrite forallb_forall in Hw. rewrite Forall_forall in IH |- *.
    intros x Hx. apply list_elem_of_In in Hx as Hx'. specialize (IH x Hx (Hw x Hx')). lia.
  - cbn [size print]. rewrite !string_length_app.
    pose proof (Join_length (map (fun kv => quote kv.1 +:+ ":" +:+ print kv.2) l) "," eq_refl) as HJ.
    rewrite map_map in HJ.
    enough (total (map (fun kv => 1 + size kv.2) l)
            <= 2 * total (map (fun kv => 1 + String.length (quote kv.1 +:+ ":" +:+ print kv.2)) l))
      by (cbn in *; lia).
    rewrite <- total_double. apply sum_map_le. cbn in Hw.
    rewrite forallb_forall in Hw. rewrite Forall_forall in IH |- *.
    intros x Hx. apply list_elem_of_In in Hx as Hx'. specialize (Hw x Hx').
    apply andb_true_iff in Hw as [_ Hw]. specialize (IH x Hx Hw).
    rewrite !string_length_app. cbn in *. lia.
Qed.

Lemma parse_first_print j rest : wf_json j = true -> delimited rest = true -> parse_first (print j +:+ rest) = Some (j, rest).
Proof.
  intros Hw Hd. unfold parse_first. rewrite parse_val_print; [done|done| |done].
  pose proof (size_le_print j Hw). rewrite string_length_app. lia.
Qed.

(** What [Marshal] wrote is read back as it was. *)
Lemma parse_print j : wf_json j = true -> parse (print j) = Some j.
Proof.
  intros Hw. unfold parse. by rewrite <- (string_app_nil_r (print j)), parse_first_print.
Qed.

(** Well-formed documents with the same text are the same. *)
Lemma print_inj a b : wf_json a = true -> wf_json b = true -> print a = print b -> a = b.
Proof.
  intros Ha Hb E. apply parse_print in Ha, Hb. rewrite E in Ha. congruence.
Qed.

(** *** What is read is well formed *)

Lemma code_chr n : (n < 256)%N -> code (chr n) = n.
Proof. apply N_ascii_embedding. Qed.

Lemma in_range_true lo hi n : in_range lo hi n = true <-> (lo <= n <= hi)%N.
Proof. unfold in_range. by rewrite andb_true_iff, !N.leb_le. Qed.

Lemma in_range_false lo hi n : in_range lo hi n = false <-> (n < lo \/ hi < n)%N.
Proof. unfold in_range. by rewrite andb_false_iff, !N.leb_gt. Qed.

Lemma split64 x : exists q m, (x / 64 = q /\ x mod 64 = m /\ x = 64 * q + m /\ m < 64)%N.
Proof. exists (x / 64)%N, (x mod 64)%N. pose proof (N.mod_lt x 64 ltac:(lia)). pose proof (N.div_mod x 64 ltac:(lia)). auto. Qed.

Lemma in_between lo hi n : (lo <= n <= hi)%N -> in_range lo hi n = true.
Proof. apply in_range_true. Qed.

Lemma in_above lo hi n : (hi < n)%N -> in_range lo hi n = false.
Proof. rewrite in_range_false. auto. Qed.

Lemma below128 n : (128 <= n)%N -> (n <? 128)%N = false.
Proof. apply N.ltb_ge. Qed.

Ltac bytes_lia :=
  repeat match goal with
  | H : in_range _ _ _ = true |- _ => apply in_range_true in H
  | H : in_range _ _ _ = false |- _ => apply in_range_false in H
  | H : (_ <? _)%N = true |- _ => apply N.ltb_lt in H
  | H : (_ <? _)%N = false |- _ => apply N.ltb_ge in H
  | H : (_ =? _)%N = true |- _ => apply N.eqb_eq in H
  | H : (_ =? _)%N = false |- _ => apply N.eqb_neq in H
  end; try lia.

Lemma valid_rune r s : valid_utf8 (encode_rune r +:+ s) = valid_utf8 s.
Proof.
  unfold encode_rune.
  set (x := if in_range 55296 57343 r || (1114111 <? r)%N then RuneError else r).
  assert (Hx : (x < 55296 \/ 57343 < x <= 1114111)%N).
  { unfold x, RuneError. destruct (in_range 55296 57343 r) eqn:E1; [cbn; lia|]. apply in_range_false in E1.
    destruct (N.ltb_spec 1114111 r); cbn; lia. }
  clearbody x. destruct (x <? 128)%N eqn:E1; [|destruct (x <? 2048)%N eqn:E2; [|destruct (x <? 65536)%N eqn:E3]].
  - cbn [valid_utf8 String.append]. rewrite code_chr by bytes_lia. by rewrite E1.
  - bytes_lia. destruct (split64 x) as (q&m&Eq&Em&Hq&Hm). rewrite Eq, Em.
    cbn [valid_utf8 String.append]. unfold cont. rewrite !code_chr by lia.
    by rewrite below128, !in_between by lia.
  - bytes_lia. destruct (split64 x) as (q&m&Eq&Em&Hq&Hm), (split64 q) as (q2&m2&Eq2&Em2&Hq2&Hm2).
    replace (x / 4096)%N with q2 by (by rewrite <- Eq2, <- Eq, N.Div0.div_div). rewrite Eq, Em, Em2.
    cbn [valid_utf8 String.append]. rewrite (code_chr (224 + q2)) by lia.
    rewrite below128, in_above, in_between by lia.
    replace (second3 _ _) with true.
    2: { symmetry. unfold second3, cont. rewrite !code_chr by lia. repeat case_match; bytes_lia; apply in_range_true; lia. }
    unfold cont. rewrite !code_chr by lia. by rewrite in_between by lia.
  - bytes_lia. destruct (split64 x) as (q&m&Eq&Em&Hq&Hm), (split64 q) as (q2&m2&Eq2&Em2&Hq2&Hm2), (split64 q2) as (q3&m3&Eq3&Em3&Hq3&Hm3).
    assert (E4 : (x / 4096 = q2)%N) by (by rewrite <- Eq2, <- Eq, N.Div0.div_div).
    replace (x / 262144)%N with q3 by (by rewrite <- Eq3, <- E4, N.Div0.div_div). rewrite E4, Eq, Em, Em2, Em3.
    cbn [valid_utf8 String.append]. rewrite (code_chr (240 + q3)) by lia.
    rewrite below128, (in_above 194 223), (in_above 224 239), in_between by lia.
    replace (second4 _ _) with true.
    2: { symmetry. unfold second4, cont. rewrite !code_chr by lia. repeat case_match; bytes_lia; apply in_range_true; lia. }
    unfold cont. rewrite !code_chr by lia. by rewrite !in_between by lia.
Qed.

Lemma valid_one c s : (code c <? 128)%N = true -> valid_utf8 (String c "" +:+ s) = valid_utf8 s.
Proof. intros Hc. cbn [valid_utf8 String.append]. by rewrite Hc. Qed.

Lemma valid_two a b s :
  in_range 194 223 (code a) = true -> cont b = true -> valid_utf8 (String a (String b "") +:+ s) = valid_utf8 s.
Proof.
  intros Ha Hb. cbn [valid_utf8 String.append]. by rewrite (ranges_high _ _ _ Ha eq_refl), Ha, Hb.
Qed.

Lemma valid_three a b c s :
  in_range 224 239 (code a) = true -> second3 a b = true -> cont c = true ->
  valid_utf8 (String a (String b (String c "")) +:+ s) = valid_utf8 s.
Proof.
  intros Ha Hb Hc. cbn [valid_utf8 String.append].
  by rewrite (ranges_high _ _ _ Ha eq_refl), (ranges_below _ _ 194 223 _ Ha eq_refl), Ha, Hb, Hc.
Qed.

Lemma valid_four a b c d s :
  in_range 240 244 (code a) = true -> second4 a b = true -> cont c = true -> cont d = true ->
  valid_utf8 (String a (String b (String c (String d ""))) +:+ s) = valid_utf8 s.
Proof.
  intros Ha Hb Hc Hd. cbn [valid_utf8 String.append].
  by rewrite (ranges_high _ _ _ Ha eq_refl), (ranges_below _ _ 194 223 _ Ha eq_refl), (ranges_below _ _ 224 239 _ Ha eq_refl), Ha, Hb, Hc, Hd.
Qed.

(** Text that is cut before a byte that starts a rune. *)
Lemma valid_cut a c b : cont c = false -> valid_utf8 (a +:+ String c b) = true -> valid_utf8 a = true.
Proof.
  intros Hc. remember (String.length a) as n eqn:En. revert a En.
  induction (lt_wf n) as [n _ IH]. intros a ->. destruct a as [|x a1]; [done|]. cbn [valid_utf8 String.append].
  destruct (code x <? 128)%N; [apply (IH (String.length a1)); cbn; lia || done|].
  assert (Hs3 : second3 x c = false).
  { unfold second3, cont in *. apply in_range_false in Hc. repeat case_match; rewrite ?in_range_false; lia. }
  assert (Hs4 : second4 x c = false).
  { unfold second4, cont in *. apply in_range_false in Hc. repeat case_match; rewrite ?in_range_false; lia. }
  destruct (in_range 194 223 (code x)).
  { destruct a1 as [|y a2]; cbn [String.append]; [by rewrite Hc|]. rewrite !andb_true_iff. intros [-> Hv].
    split; [done|]. apply (IH (String.length a2)) in Hv; cbn; lia || done. }
  destruct (in_range 224 239 (code x)).
  { destruct a1 as [|y [|z a3]]; cbn [String.append]; [destruct b; [done|]; by rewrite Hs3|by rewrite Hc, andb_false_r|].
    rewrite !andb_true_iff. intros [[-> ->] Hv]. split; [done|]. apply (IH (String.length a3)) in Hv; cbn; lia || done. }
  destruct (in_range 240 244 (code x)); [|done].
  destruct a1 as [|y [|z [|u a4]]]; cbn [String.append].
  - destruct b as [|? [|? ?]]; [done..|]. by rewrite Hs4.
  - destruct b; [done|]. by rewrite Hc, andb_false_r.
  - by rewrite Hc, !andb_false_r.
  - rewrite !andb_true_iff. intros [[[-> ->] ->] Hv]. split; [done|]. apply (IH (String.length a4)) in Hv; cbn; lia || done.
Qed.

Lemma valid_space1 a s : space1 a = true -> valid_utf8 (String a s) = valid_utf8 s.
Proof. intros Ha. apply (valid_one a). revert Ha. destruct a as [[][][][][][][][]]; intros Ha; try discriminate Ha; reflexivity. Qed.

Lemma valid_space2 a b s : space2 a b = true -> valid_utf8 (String a (String b s)) = valid_utf8 s.
Proof.
  unfold space2. rewrite andb_true_iff, orb_true_iff, !N.eqb_eq. intros [Ea Eb]. apply (valid_two a b); [by rewrite Ea|].
  unfold cont. by destruct Eb as [->| ->].
Qed.

Lemma valid_space3 a b c s : space3 a b c = true -> valid_utf8 (String a (String b (String c s))) = valid_utf8 s.
Proof.
  unfold space3. rewrite !orb_true_iff, !andb_true_iff, !orb_true_iff, !N.eqb_eq, in_range_true. intros Ha.
  apply (valid_three a b c); unfold second3, cont; rewrite ?in_range_true; repeat case_match; rewrite ?N.eqb_eq, ?N.eqb_neq in *; rewrite ?in_range_true; lia.
Qed.

(** Trimming keeps text valid. *)
Lemma valid_TrimSpace s : valid_utf8 s = true -> valid_utf8 (TrimSpace s) = true.
Proof.
  intros Hs. unfold TrimSpace.
  assert (Hl : valid_utf8 (trim_left s) = true).
  { destruct (trim_with_cut space1 space2 space3 (fun v => forall r, valid_utf8 (v +:+ r) = valid_utf8 r) s) as (v&Ev&Hv);
      [done|intros; cbn [String.append]..|].
    - by rewrite valid_space1.
    - by rewrite valid_space2.
    - by rewrite valid_space3.
    - rewrite Ev, Hv in Hs. exact Hs. }
  destruct (trim_right_cut (trim_left s)) as (w&Ew&[->|(c&u&->&Hc)]).
  - rewrite string_app_nil_r in Ew. by rewrite <- Ew.
  - rewrite Ew in Hl. by eapply valid_cut.
Qed.

Lemma unescape_ascii e x : unescape_simple e = Some x -> (code x <? 128)%N = true.
Proof. destruct e as [[][][][][][][][]]; intros [= <-]; reflexivity. Qed.

Lemma prepend_valid p o x rest :
  prepend p o = Some (x, rest) -> (forall y, valid_utf8 (p +:+ y) = valid_utf8 y) ->
  (forall y, o = Some (y, rest) -> valid_utf8 y = true) -> valid_utf8 x = true.
Proof. destruct o as [[y r]|]; cbn; [|done]. intros [= <- <-] Hp Ho. rewrite Hp. auto. Qed.

Lemma unquote_valid s x rest : unquote s = Some (x, rest) -> valid_utf8 x = true.
Proof.
  remember (String.length s) as n eqn:En. revert s x rest En.
  induction (lt_wf n) as [n _ IH]. intros s x rest ->.
  assert (Hp : forall p r, prepend p (unquote r) = Some (x, rest) -> String.length r < String.length s ->
    (forall y, valid_utf8 (p +:+ y) = valid_utf8 y) -> valid_utf8 x = true).
  { intros p r E Hr Hv. apply (prepend_valid _ _ _ _ E Hv). intros y Ey. exact (IH _ Hr _ _ _ eq_refl Ey). }
  destruct s as [|c r]; [done|]. cbn [unquote].
  repeat case_match; intros E; try discriminate E; try by injection E as <- <-.
  all: try (eapply Hp; [exact E|cbn; lia|]); intros y; try apply valid_rune.
  - apply valid_one. eauto using unescape_ascii.
  - by apply valid_one.
  - by apply valid_two; match goal with H : _ && _ = true |- _ => apply andb_true_iff in H as [??] end.
  - match goal with H : _ && _ && _ = true |- _ => apply andb_true_iff in H as [[? ?]%andb_true_iff ?] end. by apply valid_three.
  - match goal with H : _ && _ && _ && _ = true |- _ => apply andb_true_iff in H as [[[? ?]%andb_true_iff ?]%andb_true_iff ?] end.
    by apply valid_four.
Qed.

Lemma span_num_bytes s : all_bytes num_char (span_num s).1 = true.
Proof. induction s as [|c s IH]; [done|]. cbn. destruct (num_char c) eqn:E; [|done]. destruct (span_num s). cbn in *. by rewrite E. Qed.

Lemma span_num_start c r lit rest :
  num_start c = true -> span_num (String c r) = (lit, rest) -> number_literal lit = true -> num_lit lit = true.
Proof.
  intros Hc E Hn. pose proof (span_num_bytes r) as Hb. cbn in E. rewrite (num_start_char c Hc) in E.
  destruct (span_num r) as [a b]. injection E as <- <-. cbn in Hb. unfold num_lit. by rewrite Hc, Hb, Hn.
Qed.

Lemma parse_wf_at n :
  (forall s j rest, parse_val n s = Some (j, rest) -> wf_json j = true) /\
  (forall s l rest, parse_elems n s = Some (l, rest) -> forallb wf_json l = true) /\
  (forall s l rest, parse_fields n s = Some (l, rest) -> forallb (fun kv => valid_utf8 kv.1 && wf_json kv.2) l = true).
Proof.
  induction n as [|n (IHv&IHe&IHf)]; [done|]. split_and!; intros s.
  - intros j rest. cbn [parse_val]. repeat case_match; intros [= <- <-]; cbn [wf_json forallb]; eauto using unquote_valid.
    eauto using span_num_start.
  - intros l rest. cbn [parse_elems]. repeat case_match; intros [= <- <-]; cbn [forallb];
      (erewrite IHv by eassumption); [done|]. cbn. eauto.
  - intros l rest. cbn [parse_fields]. unfold parse_key. repeat case_match; try discriminate; intros [= <- <-]; simplify_eq;
      cbn [forallb fst snd]; (erewrite IHv, unquote_valid by eassumption); [done|]. cbn. eauto.
Qed.

(** A value that was read is well formed: its strings are UTF-8 and its
    numbers follow the grammar. *)
Lemma parse_first_wf s j rest : parse_first s = Some (j, rest) -> wf_json j = true.
Proof. apply parse_wf_at. Qed.

(** ** Struct encoding: integers, fields, [omitempty] and maps *)

Definition show_Z (z : Z) : string := DecimalString.NilZero.string_of_int (Z.to_int z).

Definition parse_Z (s : string) : option Z :=
  match DecimalString.NilZero.int_of_string s with
  | Some d => Some (Z.of_int d)
  | None => None
  end.

Lemma to_int_nonnil z : Z.to_int z <> Decimal.Pos Decimal.Nil /\ Z.to_int z <> Decimal.Neg Decimal.Nil.
Proof.
  destruct z as [|p|p]; cbn; split; try done; intros [= E];
    by apply DecimalPos.Unsigned.to_uint_nonnil in E.
Qed.

Lemma parse_show_Z z : parse_Z (show_Z z) = Some z.
Proof.
  unfold parse_Z, show_Z. destruct (to_int_nonnil z).
  rewrite DecimalString.NilZero.isi by done. f_equal. apply DecimalZ.of_to.
Qed.

Lemma show_Z_inj a b : show_Z a = show_Z b -> a = b.
Proof. intros E. apply (f_equal parse_Z) in E. rewrite !parse_show_Z in E. congruence. Qed.

Lemma show_uint_digits d :
  all_bytes num_char (DecimalString.NilEmpty.string_of_uint d) = true.
Proof. induction d; cbn; auto. Qed.

Lemma skip_uint_digits d : skip_digits (DecimalString.NilEmpty.string_of_uint d) = "".
Proof. induction d; cbn; auto. Qed.

(** No leading zero. *)
Lemma to_uint_head p u : Pos.to_uint p <> Decimal.D0 u.
Proof.
  intros E. pose proof (DecimalPos.Unsigned.of_to p) as Hp.
  pose proof (DecimalPos.Unsigned.to_of (Pos.to_uint p)) as Hd. rewrite Hp in Hd. cbn in Hd.
  rewrite E in Hd at 1. unfold Decimal.unorm in Hd.
  destruct (Decimal.nzhead (Pos.to_uint p)) eqn:En; try discriminate Hd.
  - injection Hd as ->. rewrite E in Hp. discriminate Hp.
  - by apply DecimalFacts.nzhead_nonzero in En.
Qed.

Lemma number_show_pos p :
  let s := DecimalString.NilZero.string_of_uint (Pos.to_uint p) in
  all_bytes num_char s = true /\ number_literal s = true /\ number_literal (String "-" s) = true /\
  exists c r, s = String c r /\ num_start c = true.
Proof.
  pose proof (DecimalPos.Unsigned.to_uint_nonnil p). pose proof (to_uint_head p).
  destruct (Pos.to_uint p) as [|u|u|u|u|u|u|u|u|u|u]; [done|naive_solver|..]; cbn;
    rewrite ?show_uint_digits, ?skip_uint_digits; naive_solver.
Qed.

Lemma num_lit_show_Z z : num_lit (show_Z z) = true.
Proof.
  unfold show_Z. destruct z as [|p|p]; [done| |]; destruct (number_show_pos p) as (Hb&Hn&Hm&c&r&E&Hc); cbn [Z.to_int].
  - cbn -[num_lit]. unfold DecimalString.NilZero.string_of_int. rewrite E in *. cbn -[number_literal num_start]. cbn in Hb.
    apply andb_true_iff in Hb as [_ ->]. by rewrite Hc, Hn.
  - cbn -[num_lit]. unfold DecimalString.NilZero.string_of_int, num_lit. by rewrite Hb, Hm.
Qed.

Definition JInt (z : Z) : json := JNum (show_Z z).

Definition field (k : string) (v : json) : list (string * json) := [(k, v)].
Definition omit (c : bool) (k : string) (v : json) : list (string * json) :=
  if c then [] else [(k, v)].

Fixpoint get_field (k : string) (l : list (string * json)) : option json :=
  match l with
  | [] => None
  | (k', v) :: l => if String.eqb k' k then Some v else get_field k l
  end.

Lemma get_field_ne k k' v l : String.eqb k' k = false -> get_field k (field k' v ++ l) = get_field k l.
Proof. intros E. cbn. by rewrite E. Qed.

Lemma get_field_eq k v l : get_field k (field k v ++ l) = Some v.
Proof. cbn. by rewrite String.eqb_refl. Qed.

Lemma get_omit_ne c k k' v l : String.eqb k' k = false -> get_field k (omit c k' v ++ l) = get_field k l.
Proof. intros E. destruct c; cbn; [done|]. by rewrite E. Qed.

Lemma get_omit_eq c k v l : get_field k (omit c k v ++ l) = if c then get_field k l else Some v.
Proof. destruct c; cbn; [done|]. by rewrite String.eqb_refl. Qed.

Definition obj_get (k : string) (j : json) : option json :=
  match j with JObj l => get_field k l | _ => None end.

(** Project one field out of an encoded struct. *)
Ltac get_fields :=
  repeat first
    [ rewrite get_field_eq
    | rewrite get_omit_eq
    | rewrite get_field_ne by reflexivity
    | rewrite get_omit_ne by reflexivity
    | progress cbn [get_field] ].

Lemma JStr_inj a b : JStr a = JStr b -> a = b.
Proof. by intros [=]. Qed.

Lemma JInt_inj a b : JInt a = JInt b -> a = b.
Proof. intros [= ?%show_Z_inj]. done. Qed.

(** An omitted empty string and an omitted zero. *)
Lemma omit_str_inj a b :
  (if String.eqb a "" then None else Some (JStr a)) = (if String.eqb b "" then None else Some (JStr b)) ->
  a = b.
Proof. destruct (String.eqb_spec a ""), (String.eqb_spec b ""); naive_solver. Qed.

Lemma omit_int_inj a b :
  (if (a =? 0)%Z then None else Some (JInt a)) = (if (b =? 0)%Z then None else Some (JInt b)) ->
  a = b.
Proof. destruct (Z.eqb_spec a 0), (Z.eqb_spec b 0); try naive_solver. by intros [= ?%show_Z_inj]. Qed.

Lemma omit_bool_inj a b :
  (if negb a then None else Some (JBool a)) = (if negb b then None else Some (JBool b)) -> a = b.
Proof. destruct a, b; naive_solver. Qed.

(** A nil slice prints as [null]; the model's empty list is the nil slice. *)
Definition slice {A} (f : A -> json) (l : list A) : json :=
  match l with [] => JNull | _ => JArr (map f l) end.

Lemma slice_inj {A} (f : A -> json) a b :
  (forall x y, f x = f y -> x = y) -> slice f a = slice f b -> a = b.
Proof.
  intros Hf. destruct a as [|x a], b as [|y b]; try done. cbn. intros [= E1 E2].
  f_equal; [auto|]. revert b E2. induction a as [|u a IH]; intros [|v b]; try done.
  cbn. intros [= ? ?]. f_equal; auto.
Qed.

(** A map prints its keys in increasing order. *)
Definition key_le (a b : string * json) : Prop := String.le a.1 b.1.
#[export] Instance key_le_dec a b : Decision (key_le a b).
Proof. unfold key_le. apply _. Defined.

Definition JMap (m : gmap string json) : json := JObj (merge_sort key_le (map_to_list m)).

Lemma JMap_inj m1 m2 : JMap m1 = JMap m2 -> m1 = m2.
Proof.
  unfold JMap. intros [= E]. apply map_to_list_inj.
  rewrite <- (merge_sort_Permutation key_le (map_to_list m1)), E.
  apply merge_sort_Permutation.
Qed.

Lemma wf_JMap m :
  map_Forall (fun k v => valid_utf8 k = true /\ wf_json v = true) m -> wf_json (JMap m) = true.
Proof.
  intros Hm. cbn. apply forallb_forall. intros [k v] Hin.
  apply list_elem_of_In in Hin. rewrite merge_sort_Permutation in Hin.
  apply elem_of_map_to_list in Hin. specialize (Hm _ _ Hin) as [H1 H2]. cbn. by rewrite H1, H2.
Qed.

Lemma forallb_app_true {A} (f : A -> bool) l1 l2 :
  forallb f l1 = true -> forallb f l2 = true -> forallb f (l1 ++ l2) = true.
Proof. intros H1 H2. by rewrite forallb_app, H1, H2. Qed.
