(* ===== verification/Hash.v ===== *)
(** * [crypto/sha256], [crypto/hmac] and [encoding/hex]

    The digests of the program are computed, not assumed: [sha256] is the
    compression function of FIPS 180-4 on 32-bit words and [hmac_sha256]
    the construction of RFC 2104.  Nothing about collisions is assumed; a
    theorem that needs a digest to identify its input concludes "or here
    are two texts with the same digest" ([collides]). *)

From S2P Require Import Prelude GoStrings.

(** ** 32-bit words *)

Definition mask32 : N := 4294967295.
Definition add32 (a b : N) : N := N.land (a + b) mask32.
Definition rotr (x n : N) : N :=
  N.lor (N.shiftr x n) (N.land (N.shiftl x (32 - n)) mask32).
Definition not32 (x : N) : N := N.lxor x mask32.

(** The constants are the first 32 fractional bits of the cube roots of the
    first 64 primes, and of the square roots of the first 8. *)
Definition is_prime (n : N) : bool :=
  (2 <=? n)%N &&
  forallb (fun d => negb (n mod N.of_nat d =? 0)%N) (seq 2 (N.to_nat (N.sqrt n) - 1)).

Definition primes_below (n : nat) : list N := List.filter is_prime (map N.of_nat (seq 0 n)).

(** The integer cube root by bisection on the bits of the answer. *)
Fixpoint cube_root_from (bits : nat) (r n : N) : N :=
  match bits with
  | 0 => r
  | S k => let r' := (r + N.shiftl 1 (N.of_nat k))%N in
           cube_root_from k (if (r' * r' * r' <=? n)%N then r' else r) n
  end.

Definition low32 (n : N) : N := N.land n 4294967295.

Definition K256 : list N :=
  Eval vm_compute in map (fun p => low32 (cube_root_from 36 0 (N.shiftl p 96))) (primes_below 312).

Definition H256 : list N :=
  Eval vm_compute in map (fun p => low32 (N.sqrt (N.shiftl p 64))) (primes_below 20).

(** The message schedule, most recent word first. *)
Definition small_sigma0 (x : N) : N := N.lxor (N.lxor (rotr x 7) (rotr x 18)) (N.shiftr x 3).
Definition small_sigma1 (x : N) : N := N.lxor (N.lxor (rotr x 17) (rotr x 19)) (N.shiftr x 10).

Definition schedule_step (w : list N) : list N :=
  add32 (add32 (small_sigma1 (nth 1 w 0%N)) (nth 6 w 0%N))
        (add32 (small_sigma0 (nth 14 w 0%N)) (nth 15 w 0%N)) :: w.

Definition schedule (block : list N) : list N := rev (Nat.iter 48 schedule_step (rev block)).

Definition round (s : list N) (kw : N * N) : list N :=
  match s with
  | [a; b; c; d; e; f; g; h] =>
    let s1 := N.lxor (N.lxor (rotr e 6) (rotr e 11)) (rotr e 25) in
    let ch := N.lxor (N.land e f) (N.land (not32 e) g) in
    let t1 := add32 (add32 h s1) (add32 ch (add32 kw.1 kw.2)) in
    let s0 := N.lxor (N.lxor (rotr a 2) (rotr a 13)) (rotr a 22) in
    let mj := N.lxor (N.lxor (N.land a b) (N.land a c)) (N.land b c) in
    [add32 t1 (add32 s0 mj); a; b; c; add32 d t1; e; f; g]
  | _ => s
  end.

Definition compress (h : list N) (block : list N) : list N :=
  zip_with add32 h (foldl round h (zip K256 (schedule block))).

(** ** Padding and blocks *)

Definition bytes_of (s : string) : list N := map code (list_ascii_of_string s).

Fixpoint be_bytes (n : nat) (x : N) : list N :=
  match n with 0 => [] | S n => N.land (N.shiftr x (8 * N.of_nat n)) 255 :: be_bytes n x end.

Definition pad (m : list N) : list N :=
  let len := length m in
  let zeros := (64 - (len + 9) mod 64) mod 64 in
  m ++ [128%N] ++ repeat 0%N zeros ++ be_bytes 8 (8 * N.of_nat len).

Fixpoint words (l : list N) : list N :=
  match l with
  | a :: b :: c :: d :: l => (a * 16777216 + b * 65536 + c * 256 + d)%N :: words l
  | _ => []
  end.

Fixpoint compress_blocks (fuel : nat) (h ws : list N) : list N :=
  match fuel, ws with
  | S fuel, _ :: _ => compress_blocks fuel (compress h (take 16 ws)) (drop 16 ws)
  | _, _ => h
  end.

Definition sha256_bytes (m : list N) : list N :=
  let ws := words (pad m) in
  concat (map (be_bytes 4) (compress_blocks (length ws) H256 ws)).

Definition string_of_bytes (l : list N) : string := string_of_list_ascii (map chr l).

(** [sha256.Sum256], as the bytes of the digest. *)
Definition sha256 (s : string) : string := string_of_bytes (sha256_bytes (bytes_of s)).

(** ** HMAC *)

Definition block_key (key : list N) : list N :=
  let k := if (64 <? length key)%nat then sha256_bytes key else key in
  k ++ repeat 0%N (64 - length k).

Definition hmac_sha256 (key msg : string) : string :=
  let k := block_key (bytes_of key) in
  let inner := sha256_bytes (map (N.lxor 54) k ++ bytes_of msg) in
  string_of_bytes (sha256_bytes (map (N.lxor 92) k ++ inner)).

(** ** Hexadecimal *)

Definition hex_char (n : N) : ascii := if (n <? 10)%N then chr (48 + n) else chr (87 + n).

Fixpoint hex_encode (s : string) : string :=
  match s with
  | "" => ""
  | String c s => String (hex_char (code c / 16)) (String (hex_char (code c mod 16)) (hex_encode s))
  end.

(** [hex.DecodeString] accepts both cases and refuses an odd length. *)
Definition from_hex (c : ascii) : option N :=
  if in_range 48 57 (code c) then Some (code c - 48)%N
  else if in_range 97 102 (code c) then Some (code c - 87)%N
  else if in_range 65 70 (code c) then Some (code c - 55)%N
  else None.

Fixpoint hex_decode (s : string) : option string :=
  match s with
  | "" => Some ""
  | String _ "" => None
  | String a (String b s) =>
    match from_hex a, from_hex b, hex_decode s with
    | Some x, Some y, Some t => Some (String (chr (x * 16 + y)) t)
    | _, _, _ => None
    end
  end.

(** [hex.EncodeToString(sum[:])] of a SHA-256 sum. *)
Definition sha256_hex (s : string) : string := hex_encode (sha256 s).

Definition collides (x y : string) : Prop := x <> y /\ sha256 x = sha256 y.

Lemma hex_decode_encode s : hex_decode (hex_encode s) = Some s.
Proof.
  induction s as [|c s IH]; [done|]. cbn [hex_encode hex_decode]. rewrite IH.
  destruct c as [[][][][][][][][]]; reflexivity.
Qed.

Lemma hex_encode_inj a b : hex_encode a = hex_encode b -> a = b.
Proof.
  intros E. apply (f_equal hex_decode) in E. rewrite !hex_decode_encode in E. congruence.
Qed.

Lemma sha256_hex_inj x y : sha256_hex x = sha256_hex y -> x = y \/ collides x y.
Proof.
  intros E%hex_encode_inj. destruct (decide (x = y)) as [->|Hne]; [by left|by right].
Qed.

Lemma hex_encode_length s : String.length (hex_encode s) = 2 * String.length s.
Proof. induction s as [|c s IH]; cbn in *; lia. Qed.

(** The test vectors of FIPS 180-4 and RFC 4231. *)
Example sha256_abc :
  sha256_hex "abc" = "ba7816bf8f01cfea414140de5dae2223b00361a396177a9cb410ff61f20015ad".
Proof. vm_compute. reflexivity. Qed.

Example sha256_two_blocks :
  sha256_hex "abcdbcdecdefdefgefghfghighijhijkijkljklmklmnlmnomnopnopq"
  = "248d6a61d20638b8e5c026930c3e6039a33ce45964ff2167f6ecedd419db06c1".
Proof. vm_compute. reflexivity. Qed.

Example hmac_jefe :
  hex_encode (hmac_sha256 "Jefe" "what do ya want for nothing?")
  = "5bdcc146bf60754e6a042426089575c75a003f089d2739839dec58b964ec3843".
Proof. vm_compute. reflexivity. Qed.

(** ** A digest has 32 bytes *)
Lemma round_length s kw : length s = 8 -> length (round s kw) = 8.
Proof. intros Hs. do 9 (destruct s as [|? s]; [try discriminate Hs; try reflexivity|]). discriminate Hs. Qed.

Lemma rounds_length l s : length s = 8 -> length (foldl round s l) = 8.
Proof. revert s. induction l as [|x l IH]; intros s Hs; cbn; [done|]. by apply IH, round_length. Qed.

Lemma compress_blocks_length n h ws : length h = 8 -> length (compress_blocks n h ws) = 8.
Proof.
  revert h ws. induction n as [|n IH]; intros h ws Hh; [done|]. destruct ws; [done|].
  cbn -[compress]. apply IH. unfold compress. rewrite length_zip_with, rounds_length by done. lia.
Qed.

Lemma be_bytes_length n x : length (be_bytes n x) = n.
Proof. revert x. induction n; intros x; cbn; auto. Qed.

Lemma string_of_bytes_length l : String.length (string_of_bytes l) = length l.
Proof. unfold string_of_bytes. induction l; cbn; auto. Qed.

Lemma sha256_length s : String.length (sha256 s) = 32.
Proof.
  unfold sha256. rewrite string_of_bytes_length. unfold sha256_bytes.
  match goal with |- context [compress_blocks ?n ?h ?w] =>
    pose proof (compress_blocks_length n h w eq_refl) as Hl; revert Hl; generalize (compress_blocks n h w) end.
  intros l Hl. do 9 (destruct l as [|? l]; [try discriminate Hl; try reflexivity|]). discriminate Hl.
Qed.
