(* ===== verification/Contracts.v ===== *)
(** * [contracts/]: proposals, snapshots, envelopes and their digests

    The values that cross the trust boundary between the agent and the
    privileged executor, with the canonical texts their digests and
    signatures are computed over. *)

From S2P Require Import Prelude GoStrings GoPath Json Hash.

(** ** action.go

    [Effect], [RiskLevel] and [Outcome] are Go string types: any string can
    arrive in a decoded proposal or policy, so they stay strings, with the
    named constants below. *)

Definition Read : string := "read".
Definition Write : string := "write".
Definition L0 : string := "L0".
Definition L1 : string := "L1".
Definition L2 : string := "L2".
Definition L3 : string := "L3".
Definition Allow : string := "ALLOW".
Definition Deny : string := "DENY".
Definition RequireApproval : string := "REQUIRE_APPROVAL".

Record TargetRef := MkTargetRef {
  tr_Type : string;
  tr_ID : string;
  tr_Criticality : string
}.

Record TargetAuthorization := MkTargetAuthorization {
  ta_Target : TargetRef;
  ta_RelatedTo : TargetRef;
  ta_Relation : string;
  ta_EvidenceRefs : list string
}.

Record IntentContext := MkIntentContext {
  ic_OriginalRequest : string;
  ic_Objective : string;
  ic_ObjectiveTargets : list TargetRef;
  ic_PlanStep : string;
  ic_PlanTargets : list TargetRef;
  ic_AuthorizedRelations : list TargetAuthorization
}.

(** [Arguments] is a [map[string]any]; its values are decoded JSON. *)
Record ActionProposal := MkActionProposal {
  ap_ProposalID : string;
  ap_TaskID : string;
  ap_SessionID : string;
  ap_Tool : string;
  ap_Effect : string;
  ap_Arguments : gmap string json;
  ap_Target : TargetRef;
  ap_BatchSize : Z;
  ap_Reversible : bool;
  ap_RollbackStrategy : string;
  ap_LabMode : bool;
  ap_SystemState : string;
  ap_Intent : IntentContext
}.

Record RiskResult := MkRiskResult {
  rr_Level : string;
  rr_Score : Z;
  rr_Factors : list string;
  rr_Reason : string
}.

Record GuardDecision := MkGuardDecision {
  gd_DecisionID : string;
  gd_Outcome : string;
  gd_ReasonCodes : list string;
  gd_Reason : string;
  gd_MatchedRuleIDs : list string;
  gd_PolicyVersion : string;
  gd_Risk : RiskResult
}.

#[export] Instance TargetRef_eq_dec : EqDecision TargetRef.
Proof. solve_decision. Defined.
#[export] Instance RiskResult_eq_dec : EqDecision RiskResult.
Proof. solve_decision. Defined.

Definition zero_risk : RiskResult := MkRiskResult "" 0 [] "".

(** *** The JSON forms (field order, [omitempty]) *)

Definition target_json (t : TargetRef) : json :=
  JObj (field "type" (JStr (tr_Type t)) ++ field "id" (JStr (tr_ID t))
        ++ omit (String.eqb (tr_Criticality t) "") "criticality" (JStr (tr_Criticality t)) ++ []).

Definition authorization_json (a : TargetAuthorization) : json :=
  JObj (field "target" (target_json (ta_Target a))
        ++ field "related_to" (target_json (ta_RelatedTo a))
        ++ field "relation" (JStr (ta_Relation a))
        ++ field "evidence_refs" (slice JStr (ta_EvidenceRefs a)) ++ []).

Definition nil_slice {A} (l : list A) : bool := match l with [] => true | _ => false end.

Definition intent_json (i : IntentContext) : json :=
  JObj (field "original_request" (JStr (ic_OriginalRequest i))
        ++ field "objective" (JStr (ic_Objective i))
        ++ field "objective_targets" (slice target_json (ic_ObjectiveTargets i))
        ++ field "plan_step" (JStr (ic_PlanStep i))
        ++ field "plan_targets" (slice target_json (ic_PlanTargets i))
        ++ omit (nil_slice (ic_AuthorizedRelations i)) "authorized_relations"
                (slice authorization_json (ic_AuthorizedRelations i)) ++ []).

Definition proposal_json (p : ActionProposal) : json :=
  JObj (field "proposal_id" (JStr (ap_ProposalID p))
        ++ field "task_id" (JStr (ap_TaskID p))
        ++ field "session_id" (JStr (ap_SessionID p))
        ++ field "tool" (JStr (ap_Tool p))
        ++ field "effect" (JStr (ap_Effect p))
        ++ field "arguments" (JMap (ap_Arguments p))
        ++ field "target" (target_json (ap_Target p))
        ++ field "batch_size" (JInt (ap_BatchSize p))
        ++ field "reversible" (JBool (ap_Reversible p))
        ++ omit (String.eqb (ap_RollbackStrategy p) "") "rollback_strategy" (JStr (ap_RollbackStrategy p))
        ++ field "lab_mode" (JBool (ap_LabMode p))
        ++ omit (String.eqb (ap_SystemState p) "") "system_state" (JStr (ap_SystemState p))
        ++ field "intent" (intent_json (ap_Intent p)) ++ []).

(** [func (p ActionProposal) Digest()] *)
Definition proposal_Digest (p : ActionProposal) : result string :=
  fail_if String.eqb (ap_Tool p) "" with EMsg "tool is required" ;;
  Ok (sha256_hex (print (proposal_json p))).

Definition CanonicalTarget `{UnicodeCase} (target : TargetRef) : string :=
  ToLower (TrimSpace (tr_Type target)) +:+ ":" +:+ ToLower (TrimSpace (tr_ID target)).

(** ** envelope.go *)

Record TargetSnapshot := MkTargetSnapshot {
  ts_Type : string;
  ts_ID : string;
  ts_CanonicalPath : string;
  ts_ExpectAbsent : bool;
  ts_ParentPath : string;
  ts_ParentInode : Z;
  ts_Size : Z;
  ts_MTimeUnixNano : Z;
  ts_Mode : Z;
  ts_Inode : Z;
  ts_PID : Z;
  ts_StartTicks : Z;
  ts_CommandDigest : string;
  ts_Executable : string;
  ts_UID : Z;
  ts_ServiceName : string;
  ts_ActiveState : string;
  ts_MainPID : Z
}.

#[export] Instance TargetSnapshot_eq_dec : EqDecision TargetSnapshot.
Proof. solve_decision. Defined.

Definition zero_snapshot : TargetSnapshot :=
  MkTargetSnapshot "" "" "" false "" 0 0 0 0 0 0 0 "" "" 0 "" "" 0.

Definition omit_str (k v : string) := omit (String.eqb v "") k (JStr v).
Definition omit_int (k : string) (v : Z) := omit (Z.eqb v 0) k (JInt v).

Definition snapshot_json (s : TargetSnapshot) : json :=
  JObj (field "type" (JStr (ts_Type s)) ++ field "id" (JStr (ts_ID s))
        ++ omit_str "canonical_path" (ts_CanonicalPath s)
        ++ omit (negb (ts_ExpectAbsent s)) "expect_absent" (JBool (ts_ExpectAbsent s))
        ++ omit_str "parent_path" (ts_ParentPath s)
        ++ omit_int "parent_inode" (ts_ParentInode s)
        ++ omit_int "size" (ts_Size s)
        ++ omit_int "mtime_unix_nano" (ts_MTimeUnixNano s)
        ++ omit_int "mode" (ts_Mode s)
        ++ omit_int "inode" (ts_Inode s)
        ++ omit_int "pid" (ts_PID s)
        ++ omit_int "start_ticks" (ts_StartTicks s)
        ++ omit_str "command_digest" (ts_CommandDigest s)
        ++ omit_str "executable" (ts_Executable s)
        ++ omit_int "uid" (ts_UID s)
        ++ omit_str "service_name" (ts_ServiceName s)
        ++ omit_str "active_state" (ts_ActiveState s)
        ++ omit_int "main_pid" (ts_MainPID s) ++ []).

(** [func (s TargetSnapshot) Digest()] (marshalling plain fields cannot fail). *)
Definition snapshot_Digest (s : TargetSnapshot) : string := sha256_hex (print (snapshot_json s)).

Record ActionEnvelope := MkActionEnvelope {
  ae_SchemaVersion : Z;
  ae_TraceID : string;
  ae_TaskID : string;
  ae_SessionID : string;
  ae_Proposal : ActionProposal;
  ae_ProposalDigest : string;
  ae_TargetSnapshot : TargetSnapshot;
  ae_Risk : RiskResult;
  ae_IntentDigest : string;
  ae_PolicyVersion : string;
  ae_ExpiresAt : Z;
  ae_Nonce : string;
  ae_ApprovalID : string;
  ae_Signature : string
}.

(** [time.Time.MarshalJSON]: the text of an instant. *)
Class TimeText := time_text : Z -> string.
Class TimeTextOk `{TimeText} := {
  time_text_inj : forall a b, time_text a = time_text b -> a = b;
  time_text_valid : forall a, valid_utf8 (time_text a) = true
}.

Definition risk_json (r : RiskResult) : json :=
  JObj (field "risk_level" (JStr (rr_Level r)) ++ field "risk_score" (JInt (rr_Score r))
        ++ field "risk_factors" (slice JStr (rr_Factors r))
        ++ field "risk_reason" (JStr (rr_Reason r)) ++ []).

Definition envelope_json `{TimeText} (e : ActionEnvelope) : json :=
  JObj (field "schema_version" (JInt (ae_SchemaVersion e))
        ++ field "trace_id" (JStr (ae_TraceID e))
        ++ field "task_id" (JStr (ae_TaskID e))
        ++ field "session_id" (JStr (ae_SessionID e))
        ++ field "proposal" (proposal_json (ae_Proposal e))
        ++ field "proposal_digest" (JStr (ae_ProposalDigest e))
        ++ field "target_snapshot" (snapshot_json (ae_TargetSnapshot e))
        ++ field "risk" (risk_json (ae_Risk e))
        ++ field "intent_digest" (JStr (ae_IntentDigest e))
        ++ field "policy_version" (JStr (ae_PolicyVersion e))
        ++ field "expires_at" (JStr (time_text (ae_ExpiresAt e)))
        ++ field "nonce" (JStr (ae_Nonce e))
        ++ omit_str "approval_id" (ae_ApprovalID e)
        ++ field "signature" (JStr (ae_Signature e)) ++ []).

Definition with_signature (e : ActionEnvelope) (sig : string) : ActionEnvelope :=
  MkActionEnvelope (ae_SchemaVersion e) (ae_TraceID e) (ae_TaskID e) (ae_SessionID e)
    (ae_Proposal e) (ae_ProposalDigest e) (ae_TargetSnapshot e) (ae_Risk e) (ae_IntentDigest e)
    (ae_PolicyVersion e) (ae_ExpiresAt e) (ae_Nonce e) (ae_ApprovalID e) sig.

Definition SigningBytes `{TimeText} (e : ActionEnvelope) : string :=
  print (envelope_json (with_signature e "")).

Definition secret_too_short : error := EMsg "envelope HMAC secret must be at least 32 bytes".

Definition Sign `{TimeText} (secret : string) (e : ActionEnvelope) : result ActionEnvelope :=
  fail_if (String.length secret <? 32)%nat with secret_too_short ;;
  Ok (with_signature e (hex_encode (hmac_sha256 secret (SigningBytes e)))).

Definition VerifySignature `{TimeText} (secret : string) (e : ActionEnvelope) : result unit :=
  fail_if (String.length secret <? 32)%nat with secret_too_short ;;
  match hex_decode (ae_Signature e) with
  | None => Err (EMsg "invalid envelope signature encoding")
  | Some got =>
    fail_if negb (String.eqb got (hmac_sha256 secret (SigningBytes e)))
    with EMsg "invalid envelope signature" ;;
    Ok tt
  end.

(** ** The canonical texts identify their values *)

Lemma Some_JStr_inj a b : Some (JStr a) = Some (JStr b) -> a = b.
Proof. by intros [=]. Qed.
Lemma Some_JInt_inj a b : Some (JInt a) = Some (JInt b) -> a = b.
Proof. by intros [= ?%show_Z_inj]. Qed.
Lemma Some_JBool_inj a b : Some (JBool a) = Some (JBool b) -> a = b.
Proof. by intros [=]. Qed.

(** One field of two equal encodings. *)
Ltac same_field E k :=
  let H := fresh in
  pose proof (f_equal (obj_get k) E) as H; revert H;
  unfold omit_str, omit_int; cbn [obj_get]; get_fields;
  lazymatch goal with
  | |- Some (JStr _) = Some (JStr _) -> _ =>
      let H := fresh in intros H; apply Some_JStr_inj in H; try exact H; revert H
  | |- Some (JInt _) = Some (JInt _) -> _ => apply Some_JInt_inj
  | |- Some (JBool _) = Some (JBool _) -> _ => apply Some_JBool_inj
  | |- _ => first [apply omit_str_inj | apply omit_int_inj | apply omit_bool_inj | idtac]
  end.

Lemma target_json_inj a b : target_json a = target_json b -> a = b.
Proof.
  intros E. destruct a, b. unfold target_json in E.
  f_equal; [same_field E "type"|same_field E "id"|same_field E "criticality"].
Qed.

Lemma slice_field_inj {A} (f : A -> json) a b :
  (forall x y, f x = f y -> x = y) -> Some (slice f a) = Some (slice f b) -> a = b.
Proof. intros Hf E. injection E as E. exact (slice_inj f _ _ Hf E). Qed.

Lemma omit_slice_inj {A} (f : A -> json) a b :
  (forall x y, f x = f y -> x = y) ->
  (if nil_slice a then None else Some (slice f a)) = (if nil_slice b then None else Some (slice f b)) ->
  a = b.
Proof.
  intros Hf. destruct a as [|x a], b as [|y b]; cbn [nil_slice]; intros E; try done.
  exact (slice_field_inj f _ _ Hf E).
Qed.

Lemma Some_json_inj {A} (f : A -> json) a b :
  (forall x y, f x = f y -> x = y) -> Some (f a) = Some (f b) -> a = b.
Proof. intros Hf E. injection E as E. auto. Qed.

Lemma authorization_json_inj a b : authorization_json a = authorization_json b -> a = b.
Proof.
  intros E. destruct a, b. unfold authorization_json in E. f_equal.
  - same_field E "target". apply (Some_json_inj target_json), target_json_inj.
  - same_field E "related_to". apply (Some_json_inj target_json), target_json_inj.
  - same_field E "relation".
  - same_field E "evidence_refs". apply slice_field_inj, JStr_inj.
Qed.

Lemma intent_json_inj a b : intent_json a = intent_json b -> a = b.
Proof.
  intros E. destruct a, b. unfold intent_json in E. f_equal.
  - same_field E "original_request".
  - same_field E "objective".
  - same_field E "objective_targets". apply slice_field_inj, target_json_inj.
  - same_field E "plan_step".
  - same_field E "plan_targets". apply slice_field_inj, target_json_inj.
  - same_field E "authorized_relations". apply omit_slice_inj, authorization_json_inj.
Qed.

Lemma proposal_json_inj a b : proposal_json a = proposal_json b -> a = b.
Proof.
  intros E. destruct a, b. unfold proposal_json in E. f_equal.
  - same_field E "proposal_id".
  - same_field E "task_id".
  - same_field E "session_id".
  - same_field E "tool".
  - same_field E "effect".
  - same_field E "arguments". apply (Some_json_inj JMap), JMap_inj.
  - same_field E "target". apply (Some_json_inj target_json), target_json_inj.
  - same_field E "batch_size".
  - same_field E "reversible".
  - same_field E "rollback_strategy".
  - same_field E "lab_mode".
  - same_field E "system_state".
  - same_field E "intent". apply (Some_json_inj intent_json), intent_json_inj.
Qed.

Lemma snapshot_json_inj a b : snapshot_json a = snapshot_json b -> a = b.
Proof.
  intros E. destruct a, b. unfold snapshot_json in E. f_equal.
  - same_field E "type".
  - same_field E "id".
  - same_field E "canonical_path".
  - same_field E "expect_absent".
  - same_field E "parent_path".
  - same_field E "parent_inode".
  - same_field E "size".
  - same_field E "mtime_unix_nano".
  - same_field E "mode".
  - same_field E "inode".
  - same_field E "pid".
  - same_field E "start_ticks".
  - same_field E "command_digest".
  - same_field E "executable".
  - same_field E "uid".
  - same_field E "service_name".
  - same_field E "active_state".
  - same_field E "main_pid".
Qed.

Lemma risk_json_inj a b : risk_json a = risk_json b -> a = b.
Proof.
  intros E. destruct a, b. unfold risk_json in E. f_equal.
  - same_field E "risk_level".
  - same_field E "risk_score".
  - same_field E "risk_factors". apply slice_field_inj, JStr_inj.
  - same_field E "risk_reason".
Qed.

Lemma envelope_json_inj `{TimeTextOk} a b : envelope_json a = envelope_json b -> a = b.
Proof.
  intros E. destruct a, b. unfold envelope_json in E. f_equal.
  - same_field E "schema_version".
  - same_field E "trace_id".
  - same_field E "task_id".
  - same_field E "session_id".
  - same_field E "proposal". apply (Some_json_inj proposal_json), proposal_json_inj.
  - same_field E "proposal_digest".
  - same_field E "target_snapshot". apply (Some_json_inj snapshot_json), snapshot_json_inj.
  - same_field E "risk". apply (Some_json_inj risk_json), risk_json_inj.
  - same_field E "intent_digest".
  - same_field E "policy_version".
  - same_field E "expires_at". apply time_text_inj.
  - same_field E "nonce".
  - same_field E "approval_id".
  - same_field E "signature".
Qed.

(** ** Properties *)

(** A concrete rendering of instants, for the witnesses. *)
Definition plain_time : TimeText := show_Z.

Lemma ascii_valid s : is_ascii s = true -> valid_utf8 s = true.
Proof.
  induction s as [|c s IH]; [done|]. rewrite is_ascii_cons, andb_true_iff.
  intros [Hc Hs]. cbn. rewrite Hc. auto.
Qed.

Lemma plain_time_ok : @TimeTextOk plain_time.
Proof.
  constructor; [exact show_Z_inj|]. intros a. apply ascii_valid.
  assert (H : forall s, all_bytes num_char s = true -> is_ascii s = true).
  { induction s as [|c s IH]; [done|]. cbn [all_bytes]. rewrite is_ascii_cons, !andb_true_iff.
    intros [Hc Hs]. split; [|auto]. destruct c as [[][][][][][][][]]; try discriminate Hc; done. }
  apply H, num_lit_bytes, num_lit_show_Z.
Qed.

(** A proposal digest identifies the proposal.  Two proposals whose
    texts are valid UTF-8 and whose [Digest] is the same are equal, field by
    field and argument by argument, unless the two canonical JSON texts are
    a SHA-256 collision. *)
Theorem proposal_digest_binds (p q : ActionProposal) (d : string)
  (Hp : wf_json (proposal_json p) = true) (Hq : wf_json (proposal_json q) = true)
  (Dp : proposal_Digest p = Ok d) (Dq : proposal_Digest q = Ok d) :
  p = q \/ collides (print (proposal_json p)) (print (proposal_json q)).
Proof.
  unfold proposal_Digest in *. apply fail_if_ok in Dp as [_ [= <-]].
  apply fail_if_ok in Dq as [_ [= E]].
  apply sha256_hex_inj in E as [E|[Hne E]].
  - left. apply proposal_json_inj. symmetry. by apply print_inj.
  - right. split; [intros E'; by apply Hne|by symmetry].
Qed.

Definition host_target : TargetRef := MkTargetRef "host" "local" "".
Definition sample_intent : IntentContext :=
  MkIntentContext "check cpu" "check cpu" [host_target] "read" [host_target] [].
Definition sample_proposal : ActionProposal :=
  MkActionProposal "proposal_1" "task_1" "session_1" "system.get_cpu_metrics" Read
    {[ "limit" := JInt 5 ]} host_target 1 false "" false "" sample_intent.

Lemma proposal_digest_binds_witness :
  exists d, proposal_Digest sample_proposal = Ok d /\
  (sample_proposal = sample_proposal \/
   collides (print (proposal_json sample_proposal)) (print (proposal_json sample_proposal))).
Proof.
  eexists. split; [reflexivity|].
  eapply (proposal_digest_binds sample_proposal sample_proposal);
    [vm_compute; reflexivity|vm_compute; reflexivity|reflexivity|reflexivity].
Defined.

(** The target-snapshot digest binds the whole snapshot the same way. *)
Lemma snapshot_digest_binds (a b : TargetSnapshot) :
  wf_json (snapshot_json a) = true -> wf_json (snapshot_json b) = true ->
  snapshot_Digest a = snapshot_Digest b ->
  a = b \/ collides (print (snapshot_json a)) (print (snapshot_json b)).
Proof.
  intros Ha Hb [E|E]%sha256_hex_inj; [left|by right].
  apply snapshot_json_inj. by apply print_inj.
Qed.

Lemma SigningBytes_with_signature `{TimeText} e s :
  SigningBytes (with_signature e s) = SigningBytes e.
Proof. done. Qed.

Lemma with_signature_inj a b :
  with_signature a "" = with_signature b "" -> ae_Signature a = ae_Signature b -> a = b.
Proof.
  destruct a, b. unfold with_signature. cbn [ae_SchemaVersion ae_TraceID ae_TaskID ae_SessionID
    ae_Proposal ae_ProposalDigest ae_TargetSnapshot ae_Risk ae_IntentDigest ae_PolicyVersion
    ae_ExpiresAt ae_Nonce ae_ApprovalID ae_Signature]. intros E Es. injection E. intros. by subst.
Qed.

Lemma Sign_ok `{TimeText} secret e :
  (String.length secret <? 32)%nat = false ->
  Sign secret e = Ok (with_signature e (hex_encode (hmac_sha256 secret (SigningBytes e)))).
Proof. unfold Sign. by intros ->. Qed.

Lemma VerifySignature_ok `{TimeText} secret e :
  VerifySignature secret e = Ok tt <->
  32 <= String.length secret /\ hex_decode (ae_Signature e) = Some (hmac_sha256 secret (SigningBytes e)).
Proof.
  unfold VerifySignature. rewrite fail_if_ok, Nat.ltb_ge.
  destruct (hex_decode (ae_Signature e)) as [got|]; [|split; [by intros [? ?]|by intros [? ?]]].
  rewrite fail_if_ok, negb_false_iff, String.eqb_eq. naive_solver.
Qed.

(** C29: the envelope signature covers every field.  An envelope signed with
    a secret is accepted with that secret; and if the same signature is
    accepted for two envelopes with valid UTF-8 texts, the envelopes agree
    on every field, or their two signing texts have the same HMAC. *)
Theorem signature_covers_envelope `{TimeTextOk} (secret : string) (e e1 : ActionEnvelope)
  (Hs : Sign secret e = Ok e1) :
  VerifySignature secret e1 = Ok tt /\
  forall e2, wf_json (envelope_json (with_signature e1 "")) = true ->
    wf_json (envelope_json (with_signature e2 "")) = true ->
    ae_Signature e2 = ae_Signature e1 -> VerifySignature secret e2 = Ok tt ->
    e2 = e1 \/ (SigningBytes e2 <> SigningBytes e1 /\
                hmac_sha256 secret (SigningBytes e2) = hmac_sha256 secret (SigningBytes e1)).
Proof.
  unfold Sign in Hs. apply fail_if_ok in Hs as [Hlen [= <-]].
  assert (Hv : VerifySignature secret (with_signature e (hex_encode (hmac_sha256 secret (SigningBytes e)))) = Ok tt).
  { apply VerifySignature_ok. split; [by apply Nat.ltb_ge|]. apply hex_decode_encode. }
  split; [exact Hv|]. intros e2 W1 W2 Hsig [_ H2]%VerifySignature_ok.
  rewrite Hsig in H2. cbn [with_signature ae_Signature] in H2. rewrite hex_decode_encode in H2.
  apply Some_inj in H2. rewrite SigningBytes_with_signature.
  destruct (decide (SigningBytes e2 = SigningBytes e)) as [E|Hne]; [left|by right].
  apply print_inj, envelope_json_inj in E; [|assumption..].
  by apply with_signature_inj.
Qed.

Definition sample_secret : string := "0123456789abcdef0123456789abcdef".
Definition sample_envelope : ActionEnvelope :=
  MkActionEnvelope 1 "task_1" "task_1" "session_1" sample_proposal "d" zero_snapshot zero_risk
    "i" "v" 100 "nonce_1" "" "".

Lemma signature_covers_envelope_witness :
  exists e1, Sign (H := plain_time) sample_secret sample_envelope = Ok e1 /\
  VerifySignature (H := plain_time) sample_secret e1 = Ok tt.
Proof.
  eexists. split; [by apply Sign_ok|].
  refine (proj1 (signature_covers_envelope (H := plain_time) (H0 := plain_time_ok)
                   sample_secret sample_envelope _ _)).
  by apply Sign_ok.
Defined.
