(* ===== verification/Guard.v ===== *)
(** * [internal/guard]: tool policy, static guard, intent guard, risk, pipeline

    [Catalog] is [catalog.go], [StaticGuard] is [static.go], [IntentGuard] is
    [intent.go], [RiskEngine] is [risk.go] and [SafetyPipeline] is
    [pipeline.go].  The random decision ids of [id.New] are arguments. *)

From S2P Require Import Prelude GoStrings GoPath Json Hash Contracts.
Open Scope Z_scope.

(** ** catalog.go *)

Record ToolPolicy := MkToolPolicy {
  tp_Name : string;
  tp_Effect : string;
  tp_BaseRisk : string;
  tp_Approval : bool;
  tp_Reversible : bool;
  tp_AllowedTargetTypes : list string;
  tp_RuleID : string
}.

Definition zero_policy : ToolPolicy := MkToolPolicy "" "" "" false false [] "".

Record catalogFile := MkCatalogFile {
  cf_SchemaVersion : Z;
  cf_Tools : list ToolPolicy
}.

Record Catalog := MkCatalog {
  cat_SchemaVersion : Z;
  cat_Version : string;
  tools : gmap string ToolPolicy
}.

(** The loop of [LoadCatalog] over the decoded tools. *)
Fixpoint add_policies (l : list ToolPolicy) (acc : gmap string ToolPolicy)
    : result (gmap string ToolPolicy) :=
  match l with
  | [] => Ok acc
  | policy :: l =>
    fail_if String.eqb (tp_Name policy) "" || String.eqb (tp_RuleID policy) ""
    with EMsg "tool policy requires name and rule_id" ;;
    fail_if negb (String.eqb (tp_Effect policy) Read) && negb (String.eqb (tp_Effect policy) Write)
    with EMsg ("tool " +:+ tp_Name policy +:+ " has invalid effect") ;;
    match acc !! tp_Name policy with
    | Some _ => Err (EMsg ("duplicate tool policy " +:+ tp_Name policy))
    | None => add_policies l (<[tp_Name policy := policy]> acc)
    end
  end.

(** [yaml_Unmarshal] is the decoder of the yaml package. *)
Definition LoadCatalog (yaml_Unmarshal : string -> result catalogFile) (file : result string)
    : result Catalog :=
  let? b := wrap_err "read tool policy: " file in
  let? raw := wrap_err "parse tool policy: " (yaml_Unmarshal b) in
  fail_if negb (cf_SchemaVersion raw =? 1)
  with EMsg ("unsupported policy schema version " +:+ show_Z (cf_SchemaVersion raw)) ;;
  let? ts := add_policies (cf_Tools raw) ∅ in
  Ok (MkCatalog (cf_SchemaVersion raw) ("sha256:" +:+ sha256_hex b) ts).

Definition Policy (c : Catalog) (tool : string) : option ToolPolicy := tools c !! TrimSpace tool.

Definition VersionID (c : option Catalog) : string :=
  match c with None => "" | Some c => cat_Version c end.

(** ** static.go (context-independent part) *)

Definition forbidden_names : list string :=
  ["shell.execute"; "terminal.run"; "command.execute"; "bash.run"; "execute_command"; "run_shell"].

Definition forbiddenCapability `{UnicodeCase} (tool : string) : bool :=
  let normalized := ToLower (TrimSpace tool) in string_in normalized forbidden_names.

Definition targetTypeAllowed (policy : ToolPolicy) (targetType : string) : bool :=
  match tp_AllowedTargetTypes policy with
  | [] => String.eqb (tp_Effect policy) Read
  | allowed => string_in targetType allowed
  end.

Definition deny (d : GuardDecision) (code rule reason : string) : GuardDecision :=
  MkGuardDecision (gd_DecisionID d) Deny [code] reason [rule] (gd_PolicyVersion d) (gd_Risk d).

Definition with_outcome (d : GuardDecision) (outcome : string) (codes : list string)
    (reason : string) (rules : list string) : GuardDecision :=
  MkGuardDecision (gd_DecisionID d) outcome codes reason rules (gd_PolicyVersion d) (gd_Risk d).

Definition with_risk (d : GuardDecision) (r : RiskResult) : GuardDecision :=
  MkGuardDecision (gd_DecisionID d) (gd_Outcome d) (gd_ReasonCodes d) (gd_Reason d)
    (gd_MatchedRuleIDs d) (gd_PolicyVersion d) r.

Definition Precheck `{UnicodeCase} (c : Catalog) (decision_id : string) (proposal : ActionProposal)
    : GuardDecision :=
  let decision := MkGuardDecision decision_id "" [] "" [] (VersionID (Some c)) zero_risk in
  if forbiddenCapability (ap_Tool proposal) then
    deny decision "FORBIDDEN_CAPABILITY" "forbidden-capability" "禁止任意 Shell 或命令执行能力"
  else match Policy c (ap_Tool proposal) with
  | None => deny decision "UNKNOWN_TOOL" "unknown-tool-deny" "本地安全策略没有该 Tool，默认拒绝"
  | Some policy =>
    if negb (String.eqb (ap_Effect proposal) (tp_Effect policy)) then
      deny decision "EFFECT_MISMATCH" (tp_RuleID policy) "Action Proposal effect 与本地 Tool Policy 不一致"
    else if negb (targetTypeAllowed policy (tr_Type (ap_Target proposal))) then
      deny decision "TARGET_TYPE_DENIED" (tp_RuleID policy) "目标类型不在 Tool Policy allowlist"
    else if String.eqb (tp_Effect policy) Read then
      with_outcome decision Allow ["KNOWN_READ_TOOL"] "本地策略确认该 Tool 为已知只读能力" [tp_RuleID policy]
    else if negb (Bool.eqb (tp_Reversible policy) (ap_Reversible proposal)) then
      deny decision "REVERSIBILITY_MISMATCH" (tp_RuleID policy)
        "Action Proposal 的可逆性与本地 Tool Policy 不一致"
    else if ap_Reversible proposal && String.eqb (ap_RollbackStrategy proposal) "" then
      deny decision "ROLLBACK_REQUIRED" (tp_RuleID policy) "可逆写操作缺少明确 Rollback Strategy"
    else
      with_outcome decision Allow ["POLICY_ALLOW"] "已知写能力满足本地静态约束" [tp_RuleID policy]
  end.

(** ** intent.go *)

Record IntentDecision := MkIntentDecision {
  id_DecisionID : string;
  id_Outcome : string;
  id_ReasonCode : string;
  id_Reason : string;
  id_IntentDigest : string;
  id_EvidenceRefs : list string;
  id_PolicyVersion : string
}.

Definition zero_intent : IntentDecision := MkIntentDecision "" "" "" "" "" [] "".

Definition containsTarget `{UnicodeCase} (targets : list TargetRef) (canonical : string) : bool :=
  existsb (fun target => String.eqb (CanonicalTarget target) canonical) targets.

Definition intentDigest (intent : IntentContext) : string := sha256_hex (print (intent_json intent)).

(** The condition of the loop over the evidence-authorised relations. *)
Definition relation_matches `{UnicodeCase} (objective : list TargetRef) (target : string)
    (authorization : TargetAuthorization) : bool :=
  String.eqb (CanonicalTarget (ta_Target authorization)) target
  && containsTarget objective (CanonicalTarget (ta_RelatedTo authorization))
  && negb (String.eqb (ta_Relation authorization) "")
  && negb (nil_slice (ta_EvidenceRefs authorization)).

Definition intent_Evaluate `{UnicodeCase} (policyVersion decision_id : string)
    (proposal : ActionProposal) : IntentDecision :=
  let decision outcome code reason refs :=
    MkIntentDecision decision_id outcome code reason (intentDigest (ap_Intent proposal)) refs
      policyVersion in
  let target := CanonicalTarget (ap_Target proposal) in
  if String.eqb target ":" then
    decision Deny "INTENT_TARGET_MISSING" "Action target is missing" []
  else if negb (containsTarget (ic_PlanTargets (ap_Intent proposal)) target) then
    decision Deny "INTENT_PLAN_TARGET_MISMATCH"
      "Action target is not authorized by the current plan step" []
  else if containsTarget (ic_ObjectiveTargets (ap_Intent proposal)) target then
    decision Allow "INTENT_DIRECT_TARGET"
      "Action target directly matches the structured objective target" []
  else match List.find (relation_matches (ic_ObjectiveTargets (ap_Intent proposal)) target)
               (ic_AuthorizedRelations (ap_Intent proposal)) with
  | Some authorization =>
    decision Allow "INTENT_EVIDENCE_RELATED_TARGET"
      "Action target is linked to an objective target by explicit evidence"
      (ta_EvidenceRefs authorization)
  | None =>
    decision Deny "INTENT_TARGET_MISMATCH"
      "Action target is neither an objective target nor an evidence-authorized related resource" []
  end.

(** ** risk.go *)

Definition levelForScore (score : Z) : string :=
  if score <? 20 then L0 else if score <? 50 then L1 else if score <? 80 then L2 else L3.

Definition critical_services : list string :=
  ["sshd"; "ssh.service"; "sshd.service"; "systemd"; "dbus.service"; "network.service";
   "networkmanager.service"; "safeops-privexec.service"].

Definition critical_prefixes : list string := ["/boot"; "/etc"; "/usr"; "/bin"; "/sbin"; "/root"].

Definition isCriticalTarget `{UnicodeCase} (target : TargetRef) : bool :=
  let id := ToLower (TrimSpace (tr_ID target)) in
  EqualFold (tr_Criticality target) "critical"
  || (String.eqb (tr_Type target) "service" && string_in id critical_services)
  || (String.eqb (tr_Type target) "file"
      && existsb (fun prefix => String.eqb (Clean id) prefix || HasPrefix (Clean id) (prefix +:+ "/"))
           critical_prefixes).

Definition base_score (base : string) : Z :=
  if String.eqb base L0 then 5 else if String.eqb base L1 then 20
  else if String.eqb base L2 then 50 else 90.

(** [if cond { score += n; factors = append(factors, name) }] *)
Definition factor (cond : bool) (n : Z) (name : string) (acc : Z * list string) : Z * list string :=
  if cond then (acc.1 + n, acc.2 ++ [name]) else acc.

Definition batch_factor (batch : Z) (acc : Z * list string) : Z * list string :=
  if batch >=? 10 then factor true 35 "LARGE_BATCH" acc
  else factor (batch >? 1) 10 "MULTI_TARGET" acc.

Definition clamp100 (score : Z) : Z :=
  let score := if score <? 0 then 0 else score in if score >? 100 then 100 else score.

Definition risk_reason (score : Z) : string :=
  "工具基础风险、目标关键性、范围、批量、可逆性、Lab 和系统状态合成得分 " +:+ show_Z score.

Definition risk_Evaluate `{UnicodeCase} (c : Catalog) (proposal : ActionProposal) : RiskResult :=
  let policy := Policy c (ap_Tool proposal) in
  let known := bool_decide (is_Some policy) in
  let base := match policy with Some policy => tp_BaseRisk policy | None => L3 end in
  let write := String.eqb (ap_Effect proposal) Write in
  let critical := isCriticalTarget (ap_Target proposal) in
  let batch := if ap_BatchSize proposal <=? 0 then 1 else ap_BatchSize proposal in
  let acc := (base_score base, ["BASE_" +:+ base]) in
  let acc := factor (negb known) 0 "UNKNOWN_TOOL" acc in
  let acc := factor write 10 "WRITE_EFFECT" acc in
  let acc := factor critical 50 "CRITICAL_TARGET" acc in
  let acc := batch_factor batch acc in
  let acc := factor (write && negb (ap_Reversible proposal)) 15 "NOT_REVERSIBLE" acc in
  let acc := factor (ap_Reversible proposal && String.eqb (ap_RollbackStrategy proposal) "") 10
               "ROLLBACK_UNDECLARED" acc in
  let acc := factor (EqualFold (ap_SystemState proposal) "degraded"
                     || EqualFold (ap_SystemState proposal) "critical") 10 "SYSTEM_UNSTABLE" acc in
  let acc := factor (ap_LabMode proposal && negb critical) (-10) "LAB_SCOPE" acc in
  let score := clamp100 acc.1 in
  MkRiskResult (levelForScore score) score acc.2 (risk_reason score).

(** ** static.go ([Evaluate]) and pipeline.go *)

Definition static_Evaluate `{UnicodeCase} (c : Catalog) (decision_id : string)
    (proposal : ActionProposal) : GuardDecision :=
  let decision := Precheck c decision_id proposal in
  let risk := risk_Evaluate c proposal in
  if String.eqb (gd_Outcome decision) Deny then with_risk decision risk
  else
    let decision := with_risk decision risk in
    let policy := default zero_policy (Policy c (ap_Tool proposal)) in
    if String.eqb (tp_Effect policy) Read then decision
    else if String.eqb (rr_Level risk) L3 then
      deny decision "L3_DEFAULT_DENY" (tp_RuleID policy) "L3 关键操作默认拒绝"
    else if tp_Approval policy || String.eqb (rr_Level risk) L2 then
      with_outcome decision RequireApproval ["WRITE_REQUIRES_APPROVAL"]
        "本地策略或上下文风险要求人工审批" (gd_MatchedRuleIDs decision)
    else decision.

Record PipelineResult := MkPipelineResult {
  pr_Static : GuardDecision;
  pr_Intent : IntentDecision;
  pr_Risk : RiskResult;
  pr_Final : GuardDecision
}.

Definition pipeline_Evaluate `{UnicodeCase} (c : Catalog) (static_id intent_id : string)
    (proposal : ActionProposal) : PipelineResult :=
  let static := Precheck c static_id proposal in
  if String.eqb (gd_Outcome static) Deny then
    MkPipelineResult static zero_intent zero_risk static
  else
    let intent := intent_Evaluate (VersionID (Some c)) intent_id proposal in
    if String.eqb (id_Outcome intent) Deny then
      MkPipelineResult static intent zero_risk
        (deny static (id_ReasonCode intent) "intent-guard" (id_Reason intent))
    else
      let risk := risk_Evaluate c proposal in
      let final := with_risk static risk in
      let policy := default zero_policy (Policy c (ap_Tool proposal)) in
      let final :=
        if String.eqb (rr_Level risk) L3 then
          deny final "L3_DEFAULT_DENY" (tp_RuleID policy) "L3 关键操作默认拒绝"
        else if String.eqb (ap_Effect proposal) Write
                && (tp_Approval policy || String.eqb (rr_Level risk) L2) then
          with_outcome final RequireApproval ["WRITE_REQUIRES_APPROVAL"]
            "本地策略或上下文风险要求人工审批" (gd_MatchedRuleIDs final)
        else final in
      MkPipelineResult static intent risk final.

(** ** What the guards promise *)

Section Spec.
Context `{UnicodeCase}.

(** The static policy admits the proposal under policy [pol]. *)
Record Admissible (c : Catalog) (p : ActionProposal) (pol : ToolPolicy) : Prop := {
  adm_known : Policy c (ap_Tool p) = Some pol;
  adm_name : ToLower (TrimSpace (ap_Tool p)) ∉ forbidden_names;
  adm_effect : ap_Effect p = tp_Effect pol;
  adm_type : (tp_AllowedTargetTypes pol = [] /\ tp_Effect pol = Read) \/
             tr_Type (ap_Target p) ∈ tp_AllowedTargetTypes pol;
  adm_write : tp_Effect pol <> Read ->
              ap_Reversible p = tp_Reversible pol /\
              (ap_Reversible p = true -> ap_RollbackStrategy p <> "")
}.

(** [t] names the same resource as one of [ts]. *)
Definition names_one_of (canonical : string) (ts : list TargetRef) : Prop :=
  exists t, t ∈ ts /\ CanonicalTarget t = canonical.

(** The user's intent covers the proposal's target: the current plan step
    names it, and it is an objective target or linked to one by a relation
    that carries evidence. *)
Definition Authorized (p : ActionProposal) : Prop :=
  let i := ap_Intent p in
  let target := CanonicalTarget (ap_Target p) in
  target <> ":" /\ names_one_of target (ic_PlanTargets i) /\
  (names_one_of target (ic_ObjectiveTargets i) \/
   exists a, a ∈ ic_AuthorizedRelations i /\ CanonicalTarget (ta_Target a) = target /\
     names_one_of (CanonicalTarget (ta_RelatedTo a)) (ic_ObjectiveTargets i) /\
     ta_Relation a <> "" /\ ta_EvidenceRefs a <> []).

Lemma containsTarget_spec ts canonical :
  containsTarget ts canonical = true <-> names_one_of canonical ts.
Proof.
  unfold containsTarget, names_one_of. rewrite existsb_exists.
  setoid_rewrite String.eqb_eq. by setoid_rewrite list_elem_of_In.
Qed.

Lemma relation_matches_spec objective target a :
  relation_matches objective target a = true <->
  CanonicalTarget (ta_Target a) = target /\
  names_one_of (CanonicalTarget (ta_RelatedTo a)) objective /\
  ta_Relation a <> "" /\ ta_EvidenceRefs a <> [].
Proof.
  unfold relation_matches.
  rewrite !andb_true_iff, !negb_true_iff, containsTarget_spec, String.eqb_eq, String.eqb_neq.
  destruct (ta_EvidenceRefs a); cbn; naive_solver.
Qed.

Lemma forbiddenCapability_false tool :
  forbiddenCapability tool = false <-> ToLower (TrimSpace tool) ∉ forbidden_names.
Proof. unfold forbiddenCapability. rewrite <- not_true_iff_false, string_in_spec. done. Qed.

Lemma targetTypeAllowed_spec pol ty :
  targetTypeAllowed pol ty = true <->
  (tp_AllowedTargetTypes pol = [] /\ tp_Effect pol = Read) \/ ty ∈ tp_AllowedTargetTypes pol.
Proof.
  unfold targetTypeAllowed. destruct (tp_AllowedTargetTypes pol) as [|a l].
  - rewrite String.eqb_eq. set_solver.
  - rewrite string_in_spec. naive_solver.
Qed.

(** [Precheck] answers Allow or Deny, and Allow exactly on admissible
    proposals. *)
Lemma Precheck_spec c did p :
  (gd_Outcome (Precheck c did p) = Allow /\ exists pol, Admissible c p pol) \/
  (gd_Outcome (Precheck c did p) = Deny /\ forall pol, ~ Admissible c p pol).
Proof.
  unfold Precheck. destruct (forbiddenCapability (ap_Tool p)) eqn:Ef.
  { right. split; [done|]. intros pol []. by apply forbiddenCapability_false in adm_name0; congruence. }
  apply forbiddenCapability_false in Ef.
  destruct (Policy c (ap_Tool p)) as [pol|] eqn:Ep; [|right; split; [done|by intros ? []; congruence]].
  assert (Same : forall pol', Admissible c p pol' -> pol' = pol) by (intros ? []; congruence).
  destruct (String.eqb (ap_Effect p) (tp_Effect pol)) eqn:Ee; cbn [negb];
    [apply String.eqb_eq in Ee|apply String.eqb_neq in Ee;
     right; split; [done|intros pol' A; pose proof (Same _ A) as ->; by destruct A]].
  destruct (targetTypeAllowed pol (tr_Type (ap_Target p))) eqn:Et; cbn [negb].
  2:{ right; split; [done|]. intros pol' A; pose proof (Same _ A) as ->. destruct A as [_ _ _ A _].
      apply targetTypeAllowed_spec in A. congruence. }
  apply targetTypeAllowed_spec in Et.
  destruct (String.eqb (tp_Effect pol) Read) eqn:Er.
  { apply String.eqb_eq in Er. left. split; [done|]. exists pol. by split. }
  apply String.eqb_neq in Er.
  destruct (Bool.eqb (tp_Reversible pol) (ap_Reversible p)) eqn:Ev; cbn [negb];
    [apply Bool.eqb_prop in Ev|apply Bool.eqb_false_iff in Ev; right; split; [done|];
     intros pol' A; pose proof (Same _ A) as ->; destruct A as [_ _ _ _ A]; by destruct (A Er)].
  destruct (ap_Reversible p && String.eqb (ap_RollbackStrategy p) "") eqn:Eb.
  { apply andb_true_iff in Eb as [E1 E2%String.eqb_eq].
    right; split; [done|]. intros pol' A; pose proof (Same _ A) as ->.
    destruct A as [_ _ _ _ A]. by destruct (A Er) as [_ B]; apply B. }
  left. split; [done|]. exists pol. split; try done.
  intros _. split; [done|]. intros Hr E. by rewrite Hr, E in Eb.
Qed.

Lemma Precheck_risk c did p : gd_Risk (Precheck c did p) = zero_risk.
Proof. unfold Precheck. repeat case_match; done. Qed.

Lemma intent_Evaluate_spec v did p :
  (id_Outcome (intent_Evaluate v did p) = Allow /\ Authorized p) \/
  (id_Outcome (intent_Evaluate v did p) = Deny /\ ~ Authorized p).
Proof.
  unfold intent_Evaluate, Authorized.
  set (i := ap_Intent p). set (t := CanonicalTarget (ap_Target p)).
  destruct (String.eqb t ":") eqn:E1; [apply String.eqb_eq in E1|apply String.eqb_neq in E1].
  { right. split; [done|]. by intros [? _]. }
  destruct (containsTarget (ic_PlanTargets i) t) eqn:E2; cbn [negb].
  2:{ right. split; [done|]. intros (_&P&_). apply containsTarget_spec in P. congruence. }
  apply containsTarget_spec in E2.
  destruct (containsTarget (ic_ObjectiveTargets i) t) eqn:E3.
  { apply containsTarget_spec in E3. left. by split_and!; [| | |left]. }
  destruct (List.find _ _) as [a|] eqn:E4.
  - apply find_some in E4 as [Ha Hm]. apply relation_matches_spec in Hm. apply list_elem_of_In in Ha.
    left. split_and!; [done..|]. right. naive_solver.
  - right. split; [done|]. intros (_&_&[P|(a&Ha&Hm)]).
    + apply containsTarget_spec in P. congruence.
    + apply list_elem_of_In in Ha. pose proof (find_none _ _ E4 a Ha) as F.
      by rewrite (proj2 (relation_matches_spec _ _ _) Hm) in F.
Qed.

Lemma level_L3 s : String.eqb (levelForScore s) L3 = true <-> 80 <= s.
Proof. unfold levelForScore. repeat case_match; cbn; split; intros; try done; lia. Qed.

Lemma level_L2 s : String.eqb (levelForScore s) L2 = true <-> 50 <= s < 80.
Proof. unfold levelForScore. repeat case_match; cbn; split; intros; try done; lia. Qed.

Lemma risk_level c p :
  rr_Level (risk_Evaluate c p) = levelForScore (rr_Score (risk_Evaluate c p)).
Proof. reflexivity. Qed.
End Spec.


(** The outcome as a function of the score on a covered proposal. *)
Definition verdict (pol : ToolPolicy) (write : bool) (score : Z) : string :=
  if 80 <=? score then Deny
  else if write && (tp_Approval pol || (50 <=? score)) then RequireApproval else Allow.

Lemma level_L3_leb s : String.eqb (levelForScore s) L3 = (80 <=? s).
Proof. apply eq_true_iff_eq. rewrite level_L3. lia. Qed.

Lemma level_L2_leb s : String.eqb (levelForScore s) L2 = (50 <=? s) && negb (80 <=? s).
Proof. apply eq_true_iff_eq. rewrite level_L2. lia. Qed.

Lemma pipeline_outcome `{UnicodeCase} c sid iid p :
  let outcome := gd_Outcome (pr_Final (pipeline_Evaluate c sid iid p)) in
  (exists pol, Admissible c p pol /\ Authorized p /\
     outcome = verdict pol (String.eqb (ap_Effect p) Write) (rr_Score (risk_Evaluate c p))) \/
  (outcome = Deny /\ forall pol, ~ (Admissible c p pol /\ Authorized p)).
Proof.
  cbv zeta. unfold pipeline_Evaluate.
  destruct (Precheck_spec c sid p) as [[E (pol&A)]|[E A]]; rewrite E; cbn -[risk_Evaluate];
    [|rewrite E; naive_solver].
  destruct (intent_Evaluate_spec (cat_Version c) iid p) as [[Ei I]|[Ei I]];
    cbn -[risk_Evaluate] in Ei |- *; rewrite Ei; cbn -[risk_Evaluate]; [|naive_solver].
  left. exists pol. split_and!; [done..|].
  rewrite (adm_known _ _ _ A), risk_level, level_L3_leb. cbn [from_option id].
  rewrite level_L2_leb. unfold verdict. set (score := rr_Score _). clearbody score.
  destruct (80 <=? score), (50 <=? score), (String.eqb (ap_Effect p) Write),
    (tp_Approval pol); cbn -[Precheck]; rewrite ?E; done.
Qed.

Lemma Admissible_functional `{UnicodeCase} c p pol pol' :
  Admissible c p pol -> Admissible c p pol' -> pol' = pol.
Proof. intros A B. pose proof (adm_known _ _ _ A). pose proof (adm_known _ _ _ B). congruence. Qed.

(** ** Properties *)

(** C28: the pipeline decides exactly by its policy.  The final outcome is
    ALLOW iff the proposal is admissible under a known policy, authorised by
    the user's intent, scores below 80 and, for a write, needs no approval
    and scores below 50; it is REQUIRE_APPROVAL iff it is admissible and
    authorised, a write below 80, and the policy asks for approval or the
    score is at least 50; in every other case it is DENY. *)
Theorem pipeline_verdict `{UnicodeCase} (c : Catalog) (sid iid : string) (p : ActionProposal) :
  let outcome := gd_Outcome (pr_Final (pipeline_Evaluate c sid iid p)) in
  let score := rr_Score (risk_Evaluate c p) in
  let allowed := exists pol, Admissible c p pol /\ Authorized p /\ score < 80 /\
                   (ap_Effect p = Write -> tp_Approval pol = false /\ score < 50) in
  let asks := exists pol, Admissible c p pol /\ Authorized p /\ score < 80 /\
                ap_Effect p = Write /\ (tp_Approval pol = true \/ 50 <= score) in
  (outcome = Allow <-> allowed) /\ (outcome = RequireApproval <-> asks) /\
  (outcome = Deny <-> ~ allowed /\ ~ asks).
Proof.
  cbv zeta. set (score := rr_Score _).
  destruct (pipeline_outcome c sid iid p) as [(pol&A&I&->)|[-> N]]; [|naive_solver].
  fold score. unfold verdict.
  assert (U : forall Q : ToolPolicy -> Prop,
    (exists pol', Admissible c p pol' /\ Authorized p /\ Q pol') <-> Q pol).
  { intros Q. split; [|by exists pol].
    intros (pol'&B&_&?). by rewrite <- (Admissible_functional _ _ _ _ A B). }
  rewrite (U (fun pol => score < 80 /\ (ap_Effect p = Write -> tp_Approval pol = false /\ score < 50))).
  rewrite (U (fun pol => score < 80 /\ ap_Effect p = Write /\ (tp_Approval pol = true \/ 50 <= score))).
  clear U. clearbody score.
  destruct (Z.leb_spec 80 score), (String.eqb_spec (ap_Effect p) Write) as [Ew|Ew],
    (tp_Approval pol), (Z.leb_spec 50 score); cbn [andb orb];
    intuition (first [lia | congruence | discriminate]).
Qed.

(** *** Forbidden capabilities *)
Lemma forbidden_plain name : name ∈ forbidden_names -> name <> "" /\ all_bytes plain1 name = true.
Proof. unfold forbidden_names. rewrite !elem_of_cons, elem_of_nil. naive_solver. Qed.

(** Command execution is always denied.  Whatever the catalog says, a
    proposal whose tool is one of the shell and terminal names in any mix of
    upper and lower case, surrounded by any ASCII white space, is denied by
    the pipeline with the code FORBIDDEN_CAPABILITY. *)
Theorem forbidden_tool_denied `{UnicodeCase} (c : Catalog) (sid iid : string) (p : ActionProposal)
    (w1 w2 word name : string)
    (Hname : name ∈ forbidden_names) (Hword : map_bytes lower_ascii word = name)
    (H1 : all_bytes space1 w1 = true) (H2 : all_bytes space1 w2 = true)
    (Htool : ap_Tool p = w1 +:+ word +:+ w2) :
  let final := pr_Final (pipeline_Evaluate c sid iid p) in
  gd_Outcome final = Deny /\ gd_ReasonCodes final = ["FORBIDDEN_CAPABILITY"].
Proof.
  assert (F : forbiddenCapability (ap_Tool p) = true).
  { destruct (forbidden_plain name Hname) as [Hne Hp]. subst name. rewrite plain_lower in Hp.
    unfold forbiddenCapability. rewrite Htool, TrimSpace_word by (done || by intros ->).
    rewrite ToLower_ascii by (by apply plain_is_ascii). by apply string_in_spec. }
  unfold pipeline_Evaluate, Precheck. by rewrite F.
Qed.

Definition shout_proposal : ActionProposal :=
  MkActionProposal "proposal_1" "task_1" "session_1" " Shell.EXECUTE	" Write ∅ host_target 1 false
    "" false "" sample_intent.

(** An ASCII-only case mapping, for the witnesses. *)
Definition ascii_case : UnicodeCase := fun r => r.

Lemma forbidden_tool_denied_witness :
  let final := pr_Final (pipeline_Evaluate (H := ascii_case) (MkCatalog 1 "v" ∅) "d1" "d2" shout_proposal) in
  gd_Outcome final = Deny /\ gd_ReasonCodes final = ["FORBIDDEN_CAPABILITY"].
Proof.
  apply (forbidden_tool_denied (H := ascii_case) _ _ _ shout_proposal " " "	" "Shell.EXECUTE" "shell.execute");
    [by left|reflexivity|reflexivity|reflexivity|reflexivity].
Defined.

(** *** Risk *)

(** The points of a proposal before clamping. *)
Definition risk_points `{UnicodeCase} (c : Catalog) (p : ActionProposal) : Z :=
  let points (b : bool) (n : Z) := if b then n else 0 in
  let write := String.eqb (ap_Effect p) Write in
  let critical := isCriticalTarget (ap_Target p) in
  base_score (match Policy c (ap_Tool p) with Some pol => tp_BaseRisk pol | None => L3 end)
  + points write 10 + points critical 50
  + (if 10 <=? ap_BatchSize p then 35 else points (1 <? ap_BatchSize p) 10)
  + points (write && negb (ap_Reversible p)) 15
  + points (ap_Reversible p && String.eqb (ap_RollbackStrategy p) "") 10
  + points (EqualFold (ap_SystemState p) "degraded" || EqualFold (ap_SystemState p) "critical") 10
  - points (ap_LabMode p && negb critical) 10.

Lemma factor_fst c n name acc : (factor c n name acc).1 = acc.1 + (if c then n else 0).
Proof. destruct c; cbn; lia. Qed.

Lemma batch_factor_fst batch acc :
  (batch_factor (if batch <=? 0 then 1 else batch) acc).1 =
  acc.1 + (if 10 <=? batch then 35 else if 1 <? batch then 10 else 0).
Proof.
  unfold batch_factor. rewrite Z.geb_leb, Z.gtb_ltb.
  destruct (Z.leb_spec batch 0).
  - rewrite (proj2 (Z.leb_gt 10 batch)), (proj2 (Z.ltb_ge 1 batch)) by lia. cbn. lia.
  - destruct (10 <=? batch); by rewrite factor_fst.
Qed.

Lemma risk_score `{UnicodeCase} c p : rr_Score (risk_Evaluate c p) = clamp100 (risk_points c p).
Proof.
  unfold risk_Evaluate, risk_points. cbn [rr_Score]. f_equal.
  rewrite !factor_fst, batch_factor_fst, !factor_fst. cbn [fst].
  repeat case_match; lia.
Qed.

Lemma clamp100_mono a b : a <= b -> clamp100 a <= clamp100 b.
Proof. unfold clamp100. rewrite !Z.gtb_ltb. repeat case_match; lia. Qed.

Lemma clamp100_bounds a : 0 <= clamp100 a <= 100.
Proof. unfold clamp100. rewrite !Z.gtb_ltb. repeat case_match; lia. Qed.

(** [q] asks for at least as much as [p]: the same tool and rollback
    declaration, and every risk dimension of [p] at least as large in [q]. *)
Record riskier `{UnicodeCase} (p q : ActionProposal) : Prop := {
  rk_tool : ap_Tool p = ap_Tool q;
  rk_reversible : ap_Reversible p = ap_Reversible q;
  rk_rollback : ap_RollbackStrategy q <> "" -> ap_RollbackStrategy p <> "";
  rk_effect : ap_Effect p = Write -> ap_Effect q = Write;
  rk_critical : isCriticalTarget (ap_Target p) = true -> isCriticalTarget (ap_Target q) = true;
  rk_batch : ap_BatchSize p <= ap_BatchSize q;
  rk_system : EqualFold (ap_SystemState p) "degraded" || EqualFold (ap_SystemState p) "critical" = true ->
              EqualFold (ap_SystemState q) "degraded" || EqualFold (ap_SystemState q) "critical" = true;
  rk_lab : ap_LabMode q = true -> ap_LabMode p = true
}.

(** The risk score is a bounded, monotone measure.  It lies between 0
    and 100, its level is the bracket of the score (20/50/80), and a
    proposal that asks for at least as much in every dimension never scores
    lower. *)
Theorem risk_monotone `{UnicodeCase} (c : Catalog) (p q : ActionProposal) (R : riskier p q) :
  (0 <= rr_Score (risk_Evaluate c p) /\ rr_Score (risk_Evaluate c p) <= rr_Score (risk_Evaluate c q)
   /\ rr_Score (risk_Evaluate c q) <= 100) /\
  (rr_Level (risk_Evaluate c q) = L3 <-> 80 <= rr_Score (risk_Evaluate c q)) /\
  (rr_Level (risk_Evaluate c q) = L2 <-> 50 <= rr_Score (risk_Evaluate c q) < 80).
Proof.
  rewrite risk_level, <- !String.eqb_eq, level_L3, level_L2. split; [|done].
  rewrite !risk_score. split; [apply clamp100_bounds|split; [|apply clamp100_bounds]].
  apply clamp100_mono. destruct R as [Rt Rr Rb Re Rc Rn Rs Rl]. unfold risk_points.
  rewrite Rt, Rr. set (b := base_score _). clearbody b.
  assert (Ie : String.eqb (ap_Effect p) Write = true -> String.eqb (ap_Effect q) Write = true)
    by (rewrite !String.eqb_eq; done).
  assert (Ib : String.eqb (ap_RollbackStrategy p) "" = true -> String.eqb (ap_RollbackStrategy q) "" = true).
  { rewrite !String.eqb_eq. intros Ep. destruct (String.eqb_spec (ap_RollbackStrategy q) ""); [done|].
    by destruct (Rb n). }
  assert (In : (if 10 <=? ap_BatchSize p then 35 else if 1 <? ap_BatchSize p then 10 else 0) <=
               (if 10 <=? ap_BatchSize q then 35 else if 1 <? ap_BatchSize q then 10 else 0))
    by (repeat case_match; lia).
  revert Ie Ib In Rc Rs Rl.
  generalize (String.eqb (ap_Effect p) Write), (String.eqb (ap_Effect q) Write),
    (isCriticalTarget (ap_Target p)), (isCriticalTarget (ap_Target q)), (ap_Reversible q),
    (String.eqb (ap_RollbackStrategy p) ""), (String.eqb (ap_RollbackStrategy q) ""),
    (ap_LabMode p), (ap_LabMode q),
    (EqualFold (ap_SystemState p) "degraded" || EqualFold (ap_SystemState p) "critical"),
    (EqualFold (ap_SystemState q) "degraded" || EqualFold (ap_SystemState q) "critical").
  intros [] [] [] [] [] [] [] [] [] [] []; cbn [andb negb]; intros; try lia; exfalso; auto.
  all: first [by discriminate Ie|by discriminate Ib|by discriminate Rc|by discriminate Rs
             |by discriminate Rl|idtac].
Qed.

Definition edit_proposal (path : string) : ActionProposal :=
  MkActionProposal "proposal_2" "task_1" "session_1" "file.write" Write ∅
    (MkTargetRef "file" path "") 1 true "restore" true "" sample_intent.

Lemma risk_monotone_witness :
  let c := MkCatalog 1 "v" ∅ in
  let p := edit_proposal "/tmp/a" in let q := edit_proposal "/tmp/../etc/a" in
  (0 <= rr_Score (risk_Evaluate (H := ascii_case) c p) /\
   rr_Score (risk_Evaluate (H := ascii_case) c p) <= rr_Score (risk_Evaluate (H := ascii_case) c q) /\
   rr_Score (risk_Evaluate (H := ascii_case) c q) <= 100) /\
  (rr_Level (risk_Evaluate (H := ascii_case) c q) = L3 <-> 80 <= rr_Score (risk_Evaluate (H := ascii_case) c q)) /\
  (rr_Level (risk_Evaluate (H := ascii_case) c q) = L2 <-> 50 <= rr_Score (risk_Evaluate (H := ascii_case) c q) < 80).
Proof. apply (risk_monotone (H := ascii_case)). by constructor. Defined.

(** *** Critical targets *)

(** A file target whose trimmed, lower-cased id is an absolute path is
    critical exactly when its first component, after [Clean] resolved
    every [.] and [..], is one of the system directories. *)
Lemma critical_file_iff `{UnicodeCase} (t : TargetRef) :
  tr_Type t = "file" -> IsAbs (ToLower (TrimSpace (tr_ID t))) = true ->
  (isCriticalTarget t = true <->
   EqualFold (tr_Criticality t) "critical" = true \/
   exists d, d ∈ ["boot"; "etc"; "usr"; "bin"; "sbin"; "root"] /\
             head (path_comps (ToLower (TrimSpace (tr_ID t)))) = Some d).
Proof.
  intros Ht Hq. unfold isCriticalTarget. rewrite Ht. cbn [String.eqb andb orb].
  set (q := ToLower _) in *. clearbody q.
  assert (P : forall d, normal d ->
    String.eqb (Clean q) ("/" +:+ d) || HasPrefix (Clean q) (("/" +:+ d) +:+ "/") = true <->
    head (path_comps q) = Some d).
  { intros d Hd. rewrite (under_prefix_iff q [d]) by (done || by repeat constructor; apply Hd).
    split; [by intros [l ->]|]. destruct (path_comps q) as [|x l]; [done|]. intros [= ->]. by exists l. }
  rewrite !orb_true_iff. change (String.eqb "file" "service") with false.
  change (String.eqb "file" "file") with true. cbn [andb].
  enough (Q : existsb (fun prefix => String.eqb (Clean q) prefix || HasPrefix (Clean q) (prefix +:+ "/"))
            (map (fun d => "/" +:+ d) ["boot"; "etc"; "usr"; "bin"; "sbin"; "root"]) = true <->
          exists d, d ∈ ["boot"; "etc"; "usr"; "bin"; "sbin"; "root"] /\ head (path_comps q) = Some d)
    by (change critical_prefixes with (map (fun d => "/" +:+ d) ["boot"; "etc"; "usr"; "bin"; "sbin"; "root"]);
        rewrite Q; naive_solver).
  rewrite existsb_exists. setoid_rewrite in_map_iff. setoid_rewrite list_elem_of_In. split.
  - intros (x&(d&<-&Hd)&Hx). exists d. split; [done|]. apply P; [|done].
    cbn in Hd. repeat destruct Hd as [<-|Hd]; by vm_compute.
  - intros (d&Hd&Hh). exists ("/" +:+ d). split; [by exists d|]. apply P; [|done].
    cbn in Hd. repeat destruct Hd as [<-|Hd]; by vm_compute.
Qed.

Definition critical_dirs : list string := ["boot"; "etc"; "usr"; "bin"; "sbin"; "root"].

(** The targets the program protects, by what they resolve to. *)
Definition protected `{UnicodeCase} (t : TargetRef) : Prop :=
  let id := ToLower (TrimSpace (tr_ID t)) in
  EqualFold (tr_Criticality t) "critical" = true \/
  (tr_Type t = "service" /\ id ∈ critical_services) \/
  (tr_Type t = "file" /\ IsAbs id = true /\
   exists d, d ∈ critical_dirs /\ head (path_comps id) = Some d).

Lemma protected_critical `{UnicodeCase} t : protected t -> isCriticalTarget t = true.
Proof.
  intros [Hc|[[Ht Hi]|(Ht&Ha&Hd)]].
  - unfold isCriticalTarget. by rewrite Hc.
  - unfold isCriticalTarget. apply string_in_spec in Hi. rewrite Hi, Ht. cbn. by rewrite orb_true_r.
  - apply critical_file_iff; [done..|]. by right.
Qed.

Lemma critical_write_points `{UnicodeCase} c p pol :
  Policy c (ap_Tool p) = Some pol -> ap_Effect p = Write -> isCriticalTarget (ap_Target p) = true ->
  65 <= rr_Score (risk_Evaluate c p) /\ (tp_BaseRisk pol <> L0 -> 80 <= rr_Score (risk_Evaluate c p)).
Proof.
  intros Hp Hw Hc. rewrite risk_score. unfold risk_points. rewrite Hp, Hw, Hc, String.eqb_refl.
  cbn [negb andb]. rewrite andb_false_r.
  assert (B : 5 <= base_score (tp_BaseRisk pol) /\ (tp_BaseRisk pol <> L0 -> 20 <= base_score (tp_BaseRisk pol))).
  { unfold base_score. destruct (String.eqb_spec (tp_BaseRisk pol) L0); [split; [lia|done]|].
    repeat case_match; lia. }
  set (b := base_score _) in *. clearbody b. destruct B as [B1 B2].
  unfold clamp100. rewrite !Z.gtb_ltb. split; [|intros B0; specialize (B2 B0)];
  repeat match goal with |- context [if ?x then _ else _] =>
    lazymatch x with context [if _ then _ else _] => fail | _ => destruct x eqn:? end end; lia.
Qed.

(** A write to a protected target is never allowed without approval.
    For a file whose path resolves below /boot, /etc, /usr, /bin, /sbin or
    /root (also through [..] and mixed case), a protected service or a
    target marked critical, the pipeline denies the write, or asks for
    approval when the tool's base risk is L0; Lab mode changes nothing. *)
Theorem protected_write_gated `{UnicodeCase} (c : Catalog) (sid iid : string) (p : ActionProposal)
    (Hw : ap_Effect p = Write) (Ht : protected (ap_Target p)) :
  let outcome := gd_Outcome (pr_Final (pipeline_Evaluate c sid iid p)) in
  outcome = Deny \/
  (outcome = RequireApproval /\ exists pol, Policy c (ap_Tool p) = Some pol /\ tp_BaseRisk pol = L0).
Proof.
  cbv zeta. destruct (pipeline_outcome c sid iid p) as [(pol&A&_&->)|[-> _]]; [|by left].
  pose proof (adm_known _ _ _ A) as Hp.
  destruct (critical_write_points c p pol Hp Hw (protected_critical _ Ht)) as [B1 B2].
  unfold verdict. rewrite Hw, String.eqb_refl, (proj2 (Z.leb_le 50 _)), orb_true_r by lia.
  destruct (Z.leb_spec 80 (rr_Score (risk_Evaluate c p))); [by left|right].
  split; [done|]. exists pol. split; [done|].
  destruct (decide (tp_BaseRisk pol = L0)) as [|N]; [done|]. specialize (B2 N). lia.
Qed.

Lemma protected_write_gated_witness :
  let c := MkCatalog 1 "v" {[ "file.write" := MkToolPolicy "file.write" Write L0 false true ["file"] "r1" ]} in
  let p := edit_proposal "/tmp/../ETC/passwd" in
  let outcome := gd_Outcome (pr_Final (pipeline_Evaluate (H := ascii_case) c "d1" "d2" p)) in
  outcome = Deny \/
  (outcome = RequireApproval /\ exists pol, Policy c (ap_Tool p) = Some pol /\ tp_BaseRisk pol = L0).
Proof.
  apply (protected_write_gated (H := ascii_case)); [reflexivity|].
  right; right. split; [reflexivity|]. split; [reflexivity|]. exists "etc". split; [|vm_compute; reflexivity].
  right; left.
Defined.

(** *** The catalog *)
Definition well_formed_policy (t : ToolPolicy) : Prop :=
  tp_Name t <> "" /\ tp_RuleID t <> "" /\ (tp_Effect t = Read \/ tp_Effect t = Write).

Definition register (acc : gmap string ToolPolicy) (t : ToolPolicy) : gmap string ToolPolicy :=
  <[tp_Name t := t]> acc.

Lemma add_policies_spec l acc m :
  add_policies l acc = Ok m <->
  Forall well_formed_policy l /\ NoDup (map tp_Name l) /\
  (forall t, t ∈ l -> acc !! tp_Name t = None) /\
  m = foldl register acc l.
Proof.
  revert acc. induction l as [|t l IH]; intros acc; cbn [add_policies map foldl].
  { split; [intros [= ->]; split_and!; try done; [constructor..|set_solver]|naive_solver]. }
  rewrite !fail_if_ok, orb_false_iff, andb_false_iff, !negb_false_iff, !String.eqb_eq, !String.eqb_neq.
  rewrite Forall_cons, NoDup_cons. unfold well_formed_policy at 1.
  setoid_rewrite elem_of_cons. destruct (acc !! tp_Name t) as [t'|] eqn:Ea.
  { split; [naive_solver|]. intros (_&_&F&_). specialize (F t). rewrite Ea in F. by discriminate F; left. }
  rewrite IH. split.
  - intros ((?&?)&?&?&?&F&->). split_and!; try done.
    + intros (t'&E&Ht')%list_elem_of_fmap. specialize (F t' Ht'). unfold register in F.
      by rewrite E, lookup_insert_eq in F.
    + intros t' [->|Ht']; [done|]. specialize (F t' Ht').
      unfold register in F. apply lookup_insert_None in F. by destruct F.
  - intros (((?&?&?)&?)&[N ?]&F&->). split_and!; try done.
    intros t' Ht'. unfold register. apply lookup_insert_None. split; [by apply F; right|].
    intros E. apply N. rewrite E. by apply (list_elem_of_fmap_2 tp_Name).
Qed.

Lemma foldl_policies_lookup l t :
  NoDup (map tp_Name l) -> t ∈ l -> forall acc, foldl register acc l !! tp_Name t = Some t.
Proof.
  induction l as [|x l IH]; cbn; [set_solver|].
  rewrite NoDup_cons, elem_of_cons. intros [Hx Hn] [->|Ht] acc; [|by apply IH].
  assert (K : forall acc', (forall y, y ∈ l -> tp_Name y <> tp_Name x) -> acc' !! tp_Name x = Some x ->
    foldl register acc' l !! tp_Name x = Some x).
  { clear. induction l as [|y l IH]; intros acc' F E; [done|]. cbn.
    apply IH; [set_solver|]. unfold register. rewrite lookup_insert_ne; [done|]. apply F. by left. }
  apply K; [|unfold register; by rewrite lookup_insert_eq].
  intros y Hy E. apply Hx. rewrite <- E. by apply (list_elem_of_fmap_2 tp_Name).
Qed.

(** A catalog loads exactly when its file is well formed.  [LoadCatalog]
    succeeds iff the file reads and parses, has schema version 1, every tool
    has a name, a rule id and a read or write effect, and no name occurs
    twice; its version is then the digest of the file's bytes and looking
    up each listed tool gives that tool's policy. *)
Theorem LoadCatalog_exact (yaml_Unmarshal : string -> result catalogFile) (file : result string) :
  let good b raw := file = Ok b /\ yaml_Unmarshal b = Ok raw /\ cf_SchemaVersion raw = 1 /\
    Forall well_formed_policy (cf_Tools raw) /\ NoDup (map tp_Name (cf_Tools raw)) in
  ((exists c, LoadCatalog yaml_Unmarshal file = Ok c) <-> exists b raw, good b raw) /\
  (forall b raw c, good b raw -> LoadCatalog yaml_Unmarshal file = Ok c ->
     cat_Version c = "sha256:" +:+ sha256_hex b /\
     forall t, t ∈ cf_Tools raw -> TrimSpace (tp_Name t) = tp_Name t -> Policy c (tp_Name t) = Some t).
Proof.
  cbv zeta. unfold LoadCatalog. split.
  - destruct file as [b|e]; cbn [rbind wrap_err];
      [|by split; [intros [? ?]|intros (?&?&?&_)]].
    destruct (yaml_Unmarshal b) as [raw|e] eqn:Ey; cbn [rbind wrap_err];
      [|split; [by intros [? ?]|intros (?&?&[= <-]&?&_); congruence]].
    setoid_rewrite fail_if_ok. setoid_rewrite rbind_ok. setoid_rewrite add_policies_spec.
    setoid_rewrite negb_false_iff. setoid_rewrite Z.eqb_eq. split.
    + intros (c&?&m&(?&?&_)&_). by exists b, raw.
    + intros (b'&raw'&[= <-]&E&?&?&?). rewrite Ey in E. injection E as <-.
      eexists. split; [done|]. eexists. split; [|done]. split_and!; [done..|].
      reflexivity.
  - intros b raw c (->&Ey&Es&Hw&Hn). cbn [rbind wrap_err]. rewrite Ey. cbn [rbind wrap_err].
    rewrite fail_if_ok, rbind_ok. intros (_&m&(_&_&_&->)%add_policies_spec&[= <-]).
    split; [done|]. intros t Ht Et. unfold Policy. rewrite Et. by apply foldl_policies_lookup.
Qed.

Definition one_tool : ToolPolicy := MkToolPolicy "file.write" Write L0 false true ["file"] "r1".
Definition one_tool_yaml (_ : string) : result catalogFile := Ok (MkCatalogFile 1 [one_tool]).

Lemma LoadCatalog_exact_witness :
  exists c, LoadCatalog one_tool_yaml (Ok "x") = Ok c /\ Policy c "file.write" = Some one_tool.
Proof.
  assert (G : Forall well_formed_policy [one_tool] /\ NoDup (map tp_Name [one_tool])).
  { split; [repeat constructor; try done; by right|]. repeat constructor. set_solver. }
  destruct G as [G1 G2].
  destruct (LoadCatalog_exact one_tool_yaml (Ok "x")) as [I L].
  destruct (proj2 I (ex_intro _ "x" (ex_intro _ (MkCatalogFile 1 [one_tool])
    (conj eq_refl (conj eq_refl (conj eq_refl (conj G1 G2))))))) as [c Hc].
  exists c. split; [exact Hc|].
  destruct (L "x" (MkCatalogFile 1 [one_tool]) c
    (conj eq_refl (conj eq_refl (conj eq_refl (conj G1 G2)))) Hc) as [_ P].
  apply (P one_tool); [left|vm_compute; reflexivity].
Defined.

(** *** The two entry points *)

(** The two evaluators of the package agree except on risky reads.  On a
    proposal the user's intent authorises, [StaticGuard.Evaluate] and the
    pipeline reach the same outcome and reason codes, unless the proposal is
    an admissible read that scores 80 or more: the static guard allows it
    and the pipeline denies it. *)
Theorem static_agrees_with_pipeline `{UnicodeCase} (c : Catalog) (sid iid : string) (p : ActionProposal)
    (Hi : Authorized p) (Hc : forall pol, Policy c (ap_Tool p) = Some pol -> tp_Effect pol = Read \/ tp_Effect pol = Write) :
  let static := static_Evaluate c sid p in
  let final := pr_Final (pipeline_Evaluate c sid iid p) in
  (gd_Outcome static = gd_Outcome final /\ gd_ReasonCodes static = gd_ReasonCodes final) \/
  (ap_Effect p = Read /\ 80 <= rr_Score (risk_Evaluate c p) /\
   gd_Outcome static = Allow /\ gd_Outcome final = Deny).
Proof.
  cbv zeta. unfold static_Evaluate, pipeline_Evaluate.
  destruct (Precheck_spec c sid p) as [[E (pol&A)]|[E _]]; rewrite E; cbn -[risk_Evaluate Precheck];
    [|by left].
  destruct (intent_Evaluate_spec (cat_Version c) iid p) as [[Ei _]|[_ Ei]]; [|done].
  cbn -[risk_Evaluate] in Ei. rewrite Ei. cbn -[risk_Evaluate Precheck].
  pose proof (adm_known _ _ _ A) as Hp. rewrite Hp, (adm_effect _ _ _ A), risk_level, level_L3_leb, level_L2_leb.
  cbn [from_option id].
  destruct (Hc pol Hp) as [Er|Er]; rewrite Er; cbn -[risk_Evaluate Precheck].
  - destruct (Z.leb_spec 80 (rr_Score (risk_Evaluate c p))); [|by left].
    right. by rewrite <- E.
  - left. destruct (80 <=? _); [done|].
    destruct (tp_Approval pol || _); done.
Qed.

Lemma static_agrees_with_pipeline_witness :
  let c := MkCatalog 1 "v" {[ "system.get_cpu_metrics" := MkToolPolicy "system.get_cpu_metrics" Read L0 false false ["host"] "r1" ]} in
  let static := static_Evaluate (H := ascii_case) c "d1" sample_proposal in
  let final := pr_Final (pipeline_Evaluate (H := ascii_case) c "d1" "d2" sample_proposal) in
  (gd_Outcome static = gd_Outcome final /\ gd_ReasonCodes static = gd_ReasonCodes final) \/
  (ap_Effect sample_proposal = Read /\ 80 <= rr_Score (risk_Evaluate (H := ascii_case) c sample_proposal) /\
   gd_Outcome static = Allow /\ gd_Outcome final = Deny).
Proof.
  apply (static_agrees_with_pipeline (H := ascii_case)).
  - split; [done|]. split; [by exists host_target; split; [left|]|].
    left. by exists host_target; split; [left|].
  - intros pol. vm_compute. intros [= <-]. by left.
Defined.
