(* ===== verification/Approval.v ===== *)
(** * [internal/approval]: the approval store

    One JSON file per approval record, written by create-temp, write, sync
    and rename.  The model's directory maps the id a file is named after to
    what [json.Unmarshal] gives for its bytes ([None] for bytes that do not
    decode); [save] takes the system calls of the code one by one, so a
    failure or a crash between any two of them is covered.  The server and
    the privileged executor share the directory without a common lock:
    the [Shared] module interleaves their loads and renames. *)

From S2P Require Import Prelude GoStrings GoPath Json Hash Contracts.
Open Scope Z_scope.

(** ** Data *)

Definition Pending : string := "PENDING".
Definition Approved : string := "APPROVED".
Definition Rejected : string := "REJECTED".
Definition Consumed : string := "CONSUMED".
Definition Expired : string := "EXPIRED".

Record Binding := MkBinding {
  bd_TaskID : string;
  bd_ProposalDigest : string;
  bd_TargetSnapshotDigest : string;
  bd_IntentDigest : string;
  bd_PolicyVersion : string;
  bd_RiskLevel : string;
  bd_Tool : string;
  bd_Nonce : string
}.

#[export] Instance Binding_eq_dec : EqDecision Binding.
Proof. solve_decision. Defined.

Record ApprovalRecord := MkApprovalRecord {
  ar_ID : string;
  ar_Binding : Binding;
  ar_Status : string;
  ar_Reason : string;
  ar_CreatedAt : Z;
  ar_ExpiresAt : Z;
  ar_ResolvedAt : Z;
  ar_ConsumedAt : Z
}.

#[export] Instance ApprovalRecord_eq_dec : EqDecision ApprovalRecord.
Proof. solve_decision. Defined.

Abbreviation ApprovalDir := (gmap string (option ApprovalRecord)).

Definition ar_with (r : ApprovalRecord) (status reason : string) (resolved consumed : Z) : ApprovalRecord :=
  MkApprovalRecord (ar_ID r) (ar_Binding r) status reason (ar_CreatedAt r) (ar_ExpiresAt r) resolved consumed.

(** ** Operations *)

Definition validID (value : string) : bool :=
  negb (String.eqb value "" || ContainsAny value "/\" || String.eqb value "." || String.eqb value "..").

Definition load (id : string) : M ApprovalDir ApprovalRecord :=
  lift (guard_ (negb (validID id)) (EMsg "invalid approval id")) ;;;
  sys (fun d => match d !! id with
                | None => Err (ESys ENOENT)
                | Some None => Err (EMsg "json: cannot unmarshal approval record")
                | Some (Some r) => Ok (r, d)
                end).

(** Create the temporary file, chmod, write, sync and close it; rename it
    over the record; open, sync and close the directory. *)
Definition save (record : ApprovalRecord) : M ApprovalDir unit :=
  atomic_write 5 3 (fun d => <[ar_ID record := Some record]> d).

Definition incomplete (b : Binding) : bool :=
  String.eqb (bd_TaskID b) "" || String.eqb (bd_ProposalDigest b) ""
  || String.eqb (bd_TargetSnapshotDigest b) "" || String.eqb (bd_IntentDigest b) ""
  || String.eqb (bd_PolicyVersion b) "" || String.eqb (bd_Tool b) "".

(** [Create] and [Resolve] return the record together with [save]'s error;
    an operation that returns both is a pair. *)
Definition Create (binding : Binding) (ttl : Z) : M ApprovalDir (ApprovalRecord * result unit) :=
  ctx_check ;;;
  lift (guard_ (incomplete binding) (EMsg "approval binding is incomplete")) ;;;
  let ttl := if ttl <=? 0 then 10 * Minute else ttl in
  t <- now ;;
  id <- new_id "approval" ;;
  let record := MkApprovalRecord id binding Pending "" t (t + ttl) zero_time zero_time in
  saved <- try_ (save record) ;;
  ret (record, saved).

Definition expire (record : ApprovalRecord) : M ApprovalDir (ApprovalRecord * result unit) :=
  if negb (String.eqb (ar_Status record) Pending) then ret (record, Ok tt)
  else
    t <- now ;;
    if t <? ar_ExpiresAt record then ret (record, Ok tt)
    else
      t' <- now ;;
      let record := ar_with record Expired (ar_Reason record) t' (ar_ConsumedAt record) in
      saved <- try_ (save record) ;;
      ret (record, saved).

Definition Get (id : string) : M ApprovalDir (ApprovalRecord * result unit) :=
  ctx_check ;;;
  lift (guard_ (negb (validID id)) (EMsg "invalid approval id")) ;;;
  record <- load id ;;
  expire record.

(** [os.ReadDir] lists the names in byte order; [entries] are the ids of
    the [.json] files in that order. *)
Definition name_le (a b : string) : Prop := String.leb (a +:+ ".json") (b +:+ ".json") = true.
#[export] Instance name_le_dec a b : Decision (name_le a b).
Proof. unfold name_le. apply _. Defined.

Definition entries {A} (d : gmap string A) : list string :=
  merge_sort name_le (elements (dom d)).

(** [sort.Slice] by creation time, newest first (it leaves the order of
    records of the same instant open; the model keeps them in name order). *)
Definition newer (a b : ApprovalRecord) : Prop := ar_CreatedAt b <= ar_CreatedAt a.
#[export] Instance newer_dec a b : Decision (newer a b).
Proof. unfold newer. apply _. Defined.

Definition List_ : M ApprovalDir (list ApprovalRecord) :=
  ctx_check ;;;
  ids <- sys (fun d => Ok (entries d, d)) ;;
  out <- mapM (fun id =>
    ctx_check ;;;
    record <- load id ;;
    let! (record, saved) := expire record in
    lift saved ;;;
    ret record) ids ;;
  ret (merge_sort newer out).

Definition Resolve (id : string) (approve : bool) (reason : string)
    : M ApprovalDir (ApprovalRecord * result unit) :=
  ctx_check ;;;
  record <- load id ;;
  t <- now ;;
  if negb (t <? ar_ExpiresAt record) then
    let record := ar_with record Expired (ar_Reason record) t (ar_ConsumedAt record) in
    try_ (save record) ;;;
    ret (record, Err (EMsg "approval expired"))
  else
    let desired := if approve then Approved else Rejected in
    if String.eqb (ar_Status record) desired then ret (record, Ok tt)
    else if negb (String.eqb (ar_Status record) Pending) then
      ret (record, Err (EMsg ("approval is " +:+ ar_Status record)))
    else
      let record := ar_with record desired (TrimSpace reason) t (ar_ConsumedAt record) in
      saved <- try_ (save record) ;;
      ret (record, saved).

(** The checks [Validate] and [Consume] share. *)
Definition usable (t : Z) (binding : Binding) (record : ApprovalRecord) : result unit :=
  fail_if ar_ExpiresAt record <? t with EMsg "approval expired" ;;
  fail_if negb (String.eqb (ar_Status record) Approved)
  with EMsg ("approval is " +:+ ar_Status record) ;;
  fail_if negb (bool_decide (ar_Binding record = binding)) with EMsg "approval binding mismatch" ;;
  Ok tt.

Definition Validate (id : string) (binding : Binding) : M ApprovalDir unit :=
  record <- load id ;;
  t <- now ;;
  lift (usable t binding record).

Definition Consume (id : string) (binding : Binding) : M ApprovalDir unit :=
  record <- load id ;;
  t <- now ;;
  lift (usable t binding record) ;;;
  t' <- now ;;
  save (ar_with record Consumed (ar_Reason record) (ar_ResolvedAt record) t').

(** ** What the operations do to the directory *)

(** Every file is named after the record in it. *)
Definition well_named (d : ApprovalDir) : Prop :=
  forall id r, d !! id = Some (Some r) -> ar_ID r = id.

(** The order in which a record's status can move: a pending record is
    decided, an approved one is used up, and any record can expire. *)
Definition status_le (a b : string) : Prop :=
  a = b \/ b = Expired \/
  (a = Pending /\ (b = Approved \/ b = Rejected \/ b = Consumed)) \/ (a = Approved /\ b = Consumed).

#[export] Instance status_le_preorder : PreOrder status_le.
Proof.
  split; unfold status_le, Pending, Approved, Rejected, Consumed, Expired; [by left|].
  intros a b c H1 H2. naive_solver.
Qed.

(** [r'] is a later version of [r]: what was asked never changes. *)
Record later (r r' : ApprovalRecord) : Prop := {
  lt_id : ar_ID r' = ar_ID r;
  lt_binding : ar_Binding r' = ar_Binding r;
  lt_created : ar_CreatedAt r' = ar_CreatedAt r;
  lt_expires : ar_ExpiresAt r' = ar_ExpiresAt r;
  lt_status : status_le (ar_Status r) (ar_Status r')
}.

#[export] Instance later_preorder : PreOrder later.
Proof.
  split.
  - intros r. split; done.
  - intros a b c [] []. split; try congruence. by transitivity (ar_Status b).
Qed.

(** Directories evolve record by record; no record disappears. *)
Definition evolves (d d' : ApprovalDir) : Prop :=
  well_named d -> well_named d' /\
  forall id r, d !! id = Some (Some r) -> exists r', d' !! id = Some (Some r') /\ later r r'.

#[export] Instance evolves_preorder : PreOrder evolves.
Proof.
  split.
  - intros d Hd. split; [done|]. intros id r Hr. by exists r.
  - intros a b c H1 H2 Ha. destruct (H1 Ha) as [Hb F1]. destruct (H2 Hb) as [Hc F2].
    split; [done|]. intros id r Hr. destruct (F1 id r Hr) as (r1&Hr1&L1).
    destruct (F2 id r1 Hr1) as (r2&Hr2&L2). exists r2. split; [done|]. by transitivity r1.
Qed.

Lemma evolves_replace d id r r' :
  d !! id = Some (Some r) -> later r r' -> evolves d (<[ar_ID r' := Some r']> d).
Proof.
  intros Hr L Hd. pose proof (Hd id r Hr) as Hid.
  assert (E : ar_ID r' = id) by (rewrite (lt_id _ _ L); done). rewrite E. split.
  - intros k x. destruct (decide (k = id)) as [->|Hne].
    + rewrite lookup_insert_eq. by intros [= <-].
    + rewrite lookup_insert_ne by done. apply Hd.
  - intros k x Hx. destruct (decide (k = id)) as [->|Hne].
    + exists r'. rewrite lookup_insert_eq. split; [done|]. congruence.
    + exists x. by rewrite lookup_insert_ne.
Qed.

Lemma evolves_create d r : d !! ar_ID r = None -> evolves d (<[ar_ID r := Some r]> d).
Proof.
  intros Hn Hd. split.
  - intros k x. destruct (decide (k = ar_ID r)) as [->|Hne].
    + rewrite lookup_insert_eq. by intros [= <-].
    + rewrite lookup_insert_ne by done. apply Hd.
  - intros k x Hx. exists x. rewrite lookup_insert_ne by congruence. done.
Qed.

Lemma wp_load id E Q d :
  (forall e, Q (Err e) d) ->
  (forall r, validID id = true -> d !! id = Some (Some r) -> Q (Ok r) d) ->
  wp E (load id) Q d.
Proof.
  intros H1 H2. unfold load, guard_. destruct (validID id); cbn [negb]; [|wp_go; auto].
  do 2 wp_step. wp_step; [auto|]. destruct (d !! id) as [[r|]|] eqn:Er; auto.
Qed.

Lemma wp_save rec E Q d :
  (forall r, Q r (<[ar_ID rec := Some rec]> d)) -> (forall e, Q (Err e) d) -> wp E (save rec) Q d.
Proof. intros. by apply wp_atomic_write. Qed.

Lemma later_with r status reason res con :
  status_le (ar_Status r) status -> later r (ar_with r status reason res con).
Proof. by split. Qed.

Lemma status_expired a : status_le a Expired.
Proof. right; by left. Qed.

Lemma pending_decided s (approve : bool) :
  negb (String.eqb s Pending) = false -> status_le s (if approve then Approved else Rejected).
Proof.
  rewrite negb_false_iff, String.eqb_eq. intros ->. unfold status_le. destruct approve; naive_solver.
Qed.

Ltac wp_approval :=
  repeat first [ apply wp_load; [intros ?|intros ? ? ?] | apply wp_save; [intros ?|intros ?]
               | wp_step; cbn beta iota ].

Lemma expire_evolves rec id E d :
  d !! id = Some (Some rec) -> wp E (expire rec) (fun _ d' => evolves d d') d.
Proof.
  intros Hr. unfold expire. wp_approval; try reflexivity;
    (eapply evolves_replace; [exact Hr|apply later_with, status_expired]).
Qed.

Lemma Get_evolves id E d : wp E (Get id) (fun _ d' => evolves d d') d.
Proof.
  unfold Get, guard_. wp_approval; try reflexivity. by eapply expire_evolves.
Qed.

Lemma List_evolves E d : wp E List_ (fun _ d' => evolves d d') d.
Proof.
  unfold List_. wp_approval; try reflexivity.
  eapply wp_mono; [apply (wp_mapM _ _ _ (evolves d) (fun _ => True)); [|reflexivity]|].
  - intros id d1 _ H1. wp_approval; try (split; [done|]; done).
    eapply wp_mono; [by eapply expire_evolves|]. intros res d2 H2.
    assert (evolves d d2) by by transitivity d1.
    destruct res as [[rec [[]|e]]|e]; wp_approval; by split.
  - intros [out|e] d1 [H1 _]; [by wp_approval|done].
Qed.

Lemma Resolve_evolves id approve reason E d :
  wp E (Resolve id approve reason) (fun _ d' => evolves d d') d.
Proof.
  unfold Resolve. wp_approval; try reflexivity;
    (eapply evolves_replace; [eassumption|apply later_with]);
    first [apply status_expired | by apply pending_decided].
Qed.

Lemma Validate_still id b E d : wp E (Validate id b) (fun _ d' => d' = d) d.
Proof. unfold Validate. by wp_approval. Qed.

Lemma usable_ok t b r :
  usable t b r = Ok tt <-> t <= ar_ExpiresAt r /\ ar_Status r = Approved /\ ar_Binding r = b.
Proof.
  unfold usable. rewrite !fail_if_ok, Z.ltb_ge, !negb_false_iff, String.eqb_eq, bool_decide_eq_true.
  naive_solver.
Qed.

Lemma Consume_evolves id b E d : wp E (Consume id b) (fun _ d' => evolves d d') d.
Proof.
  unfold Consume. wp_approval; try reflexivity.
  eapply evolves_replace; [eassumption|apply later_with].
  match goal with H : usable _ _ _ = Ok ?u |- _ => destruct u; apply usable_ok in H as (_&->&_) end.
  unfold status_le. naive_solver.
Qed.

(** [Create] writes a new file when the drawn id is not taken. *)
Lemma Create_cases b ttl E d :
  wp E (Create b ttl) (fun r d' => d' = d \/ exists n rec,
    d' = <[ar_ID rec := Some rec]> d /\ ar_ID rec = "approval" +:+ "_" +:+ rand E n /\
    ar_Status rec = Pending /\ ar_Binding rec = b /\ incomplete b = false) d.
Proof.
  unfold Create, guard_. destruct (incomplete b) eqn:Eb; wp_approval; try (by left);
    right; do 2 eexists; (split; [reflexivity|by split_and!]).
Qed.

(** The store's operations as data, for statements about sequences. *)
Inductive op :=
  | OpCreate (b : Binding) (ttl : Z)
  | OpGet (id : string)
  | OpList
  | OpResolve (id : string) (approve : bool) (reason : string)
  | OpValidate (id : string) (b : Binding)
  | OpConsume (id : string) (b : Binding).

Definition run_op (o : op) : M ApprovalDir unit :=
  match o with
  | OpCreate b ttl => Create b ttl ;;; ret tt
  | OpGet id => Get id ;;; ret tt
  | OpList => List_ ;;; ret tt
  | OpResolve id approve reason => Resolve id approve reason ;;; ret tt
  | OpValidate id b => Validate id b
  | OpConsume id b => Consume id b
  end.

(** Any sequence, each operation possibly failing. *)
Definition run_ops (l : list op) : M ApprovalDir (list (result unit)) :=
  mapM (fun o => try_ (run_op o)) l.

(** The ids drawn are not those of existing records ([id.New] draws twelve
    random bytes). *)
Definition fresh_for (E : Env) (known : string -> Prop) : Prop :=
  forall n, ~ known ("approval" +:+ "_" +:+ rand E n).

(** [evolves] restricted to the ids of a set [K] that is never drawn. *)
Definition evolves_on (K : string -> Prop) (d d' : ApprovalDir) : Prop :=
  well_named d -> well_named d' /\
  forall id r, K id -> d !! id = Some (Some r) -> exists r', d' !! id = Some (Some r') /\ later r r'.

#[export] Instance evolves_on_preorder K : PreOrder (evolves_on K).
Proof.
  split.
  - intros d Hd. split; [done|]. intros id r _ Hr. by exists r.
  - intros a b c H1 H2 Ha. destruct (H1 Ha) as [Hb F1]. destruct (H2 Hb) as [Hc F2].
    split; [done|]. intros id r HK Hr. destruct (F1 id r HK Hr) as (r1&Hr1&L1).
    destruct (F2 id r1 HK Hr1) as (r2&Hr2&L2). exists r2. split; [done|]. by transitivity r1.
Qed.

Lemma evolves_weaken K d d' : evolves d d' -> evolves_on K d d'.
Proof. intros H Hd. destruct (H Hd) as [? F]. split; [done|]. intros id r _. apply F. Qed.

Lemma run_op_evolves K E o d :
  fresh_for E K -> wp E (run_op o) (fun _ d' => evolves_on K d d') d.
Proof.
  intros HK. destruct o as [b ttl|id| |id a rs|id b|id b]; cbn [run_op].
  - apply wp_bind. eapply wp_mono; [apply Create_cases|].
    assert (F : forall d', d' = d \/ (exists n rec,
      d' = <[ar_ID rec := Some rec]> d /\ ar_ID rec = "approval" +:+ "_" +:+ rand E n /\
      ar_Status rec = Pending /\ ar_Binding rec = b /\ incomplete b = false) -> evolves_on K d d').
    { intros d' [->|(n&rec&->&En&_)]; [reflexivity|]. intros Hd. split.
      - intros k x. destruct (decide (k = ar_ID rec)) as [->|Hne].
        + rewrite lookup_insert_eq. by intros [= <-].
        + rewrite lookup_insert_ne by done. apply Hd.
      - intros k x Hk Hx. exists x. split; [|reflexivity]. rewrite lookup_insert_ne; [done|].
        intros E'. apply (HK n). by rewrite <- En, E'. }
    intros [x|e] d' H; [apply wp_ret|]; by apply F.
  - apply wp_bind. eapply wp_mono; [apply Get_evolves|].
    intros [x|e] d' H; [apply wp_ret|]; by apply evolves_weaken.
  - apply wp_bind. eapply wp_mono; [apply List_evolves|].
    intros [x|e] d' H; [apply wp_ret|]; by apply evolves_weaken.
  - apply wp_bind. eapply wp_mono; [apply Resolve_evolves|].
    intros [x|e] d' H; [apply wp_ret|]; by apply evolves_weaken.
  - eapply wp_mono; [apply Validate_still|]. intros r d' ->. reflexivity.
  - eapply wp_mono; [apply Consume_evolves|]. intros r d' H. by apply evolves_weaken.
Qed.

Lemma run_ops_evolves K E l d :
  fresh_for E K -> wp E (run_ops l) (fun _ d' => evolves_on K d d') d.
Proof.
  intros HK. eapply wp_mono; [apply (wp_mapM _ _ _ (evolves_on K d) (fun _ => True)); [|reflexivity]|].
  - intros o d1 _ H1. apply wp_try. eapply wp_mono; [by apply run_op_evolves|].
    intros r d2 H2. split; [by transitivity d1|done].
  - by intros r d' [H _].
Qed.

(** A successful [Consume] found the record approved and unexpired for
    exactly this binding, and left it consumed. *)
Lemma Consume_success id b E d :
  wp E (Consume id b) (fun r d' => r = Ok tt ->
    exists rec n n', d !! id = Some (Some rec) /\ ar_Status rec = Approved /\ ar_Binding rec = b /\
      clock E n <= ar_ExpiresAt rec /\
      d' = <[ar_ID rec := Some (ar_with rec Consumed (ar_Reason rec) (ar_ResolvedAt rec) (clock E n'))]> d) d.
Proof.
  unfold Consume. wp_approval; try done.
  match goal with H : usable _ _ _ = Ok ?u |- _ => destruct u; apply usable_ok in H as (?&?&?) end.
  intros _. do 3 eexists. by split_and!.
Qed.

Lemma settled_not_usable (K : string -> Prop) id (d d' : ApprovalDir) rec E b :
  well_named d -> K id -> d !! id = Some (Some rec) ->
  ar_Status rec = Consumed \/ ar_Status rec = Rejected \/ ar_Status rec = Expired ->
  evolves_on K d d' ->
  wp E (Consume id b) (fun r _ => r <> Ok tt) d' /\ wp E (Validate id b) (fun r _ => r <> Ok tt) d'.
Proof.
  intros Hn HK Hr Hs Hv. destruct (Hv Hn) as [_ F]. destruct (F id rec HK Hr) as (rec'&Hr'&L).
  pose proof (lt_status _ _ L) as Ls.
  assert (Hne : ar_Status rec' <> Approved).
  { unfold status_le, Pending, Approved, Rejected, Consumed, Expired in *. intros E'. rewrite E' in Ls.
    destruct Hs as [Hs|[Hs|Hs]]; rewrite Hs in Ls; naive_solver. }
  split.
  - eapply wp_mono; [apply Consume_success|]. intros r d2 H ->.
    destruct (H eq_refl) as (rec2&n&n'&E2&Hap&_). congruence.
  - unfold Validate. wp_approval; try done. intros Hu. apply usable_ok in Hu as (_&?&_). congruence.
Qed.

(** ** What each operation writes

    The record a server or executor operation renames into place, computed
    from the record it loaded; [None] when it writes nothing. *)
Definition expire_write (t t' : Z) (r : ApprovalRecord) : option ApprovalRecord :=
  if negb (String.eqb (ar_Status r) Pending) || (t <? ar_ExpiresAt r) then None
  else Some (ar_with r Expired (ar_Reason r) t' (ar_ConsumedAt r)).

Definition resolve_write (t : Z) (approve : bool) (reason : string) (r : ApprovalRecord)
    : option ApprovalRecord :=
  let desired := if approve then Approved else Rejected in
  if negb (t <? ar_ExpiresAt r) then Some (ar_with r Expired (ar_Reason r) t (ar_ConsumedAt r))
  else if String.eqb (ar_Status r) desired || negb (String.eqb (ar_Status r) Pending) then None
  else Some (ar_with r desired (TrimSpace reason) t (ar_ConsumedAt r)).

Definition consume_write (t t' : Z) (b : Binding) (r : ApprovalRecord) : option ApprovalRecord :=
  if is_ok (usable t b r) then Some (ar_with r Consumed (ar_Reason r) (ar_ResolvedAt r) t') else None.

(** [o]'s only effect is to rename [write r] into place for the loaded [r]. *)
Definition writes (id : string) (write : ApprovalRecord -> option ApprovalRecord -> Prop) (d d' : ApprovalDir) : Prop :=
  d' = d \/ exists r rec, validID id = true /\ d !! id = Some (Some r) /\ write r (Some rec) /\
              d' = <[ar_ID rec := Some rec]> d.

Lemma expire_writes E rec id d :
  validID id = true -> d !! id = Some (Some rec) ->
  wp E (expire rec) (fun _ d' => writes id (fun r o => exists t t', expire_write t t' r = o) d d') d.
Proof.
  intros Hv Hr. unfold expire. wp_approval; try (by left).
  all: right; exists rec; eexists; split_and!; [done|done| |reflexivity].
  all: exists (clock E n), (clock E n0); unfold expire_write;
    repeat match goal with H : _ = false |- _ => rewrite H; clear H end; done.
Qed.

Lemma Get_writes E id d :
  wp E (Get id) (fun _ d' => writes id (fun r o => exists t t', expire_write t t' r = o) d d') d.
Proof. unfold Get, guard_. wp_approval; try (by left). by eapply expire_writes. Qed.

Lemma Resolve_writes E id approve reason d :
  wp E (Resolve id approve reason)
    (fun _ d' => writes id (fun r o => exists t, resolve_write t approve reason r = o) d d') d.
Proof.
  unfold Resolve. wp_approval; try (by left).
  all: right; do 2 eexists; split_and!; [done|done| |reflexivity].
  all: exists (clock E n); unfold resolve_write;
    repeat match goal with H : _ = false |- _ => rewrite H; clear H
                         | H : negb (clock _ _ <? _) = true |- _ => rewrite H; clear H end; done.
Qed.

Lemma Consume_writes E id b d :
  wp E (Consume id b)
    (fun _ d' => writes id (fun r o => exists t t', consume_write t t' b r = o) d d') d.
Proof.
  unfold Consume. wp_approval; try (by left).
  right; do 2 eexists; split_and!; [done|done| |reflexivity].
  exists (clock E n), (clock E n0). unfold consume_write.
  by match goal with H : usable _ _ _ = Ok _ |- _ => rewrite H end.
Qed.

(** ** The server and the executor on one directory

    Each process serialises its own operations with its mutex, but nothing
    orders a load and rename of one against those of the other.  [log] is a
    ghost record of what happened, most recent first. *)
Module Shared.

Inductive event :=
  | EvCreate (id : string) (b : Binding) (expires : Z)
  | EvApprove (id : string)
  | EvConsume (id : string) (b : Binding) (t : Z).

(** What a process holds between its load and its rename. *)
Inductive phase :=
  | Idle
  | Loaded (id : string) (r : ApprovalRecord).

Record state := MkState {
  dir : ApprovalDir;
  server : phase;
  executor : phase;
  log : list event
}.

Definition start : state := MkState ∅ Idle Idle [].

Definition put (d : ApprovalDir) (r : ApprovalRecord) : ApprovalDir := <[ar_ID r := Some r]> d.

Definition approval_event (id : string) (r : ApprovalRecord) : list event :=
  if String.eqb (ar_Status r) Approved then [EvApprove id] else [].

Inductive step : state -> state -> Prop :=
  | step_create d sv ex l r b :
      incomplete b = false -> d !! ar_ID r = None -> ar_Status r = Pending -> ar_Binding r = b ->
      step (MkState d sv ex l) (MkState (put d r) sv ex (EvCreate (ar_ID r) b (ar_ExpiresAt r) :: l))
  | step_server_load d ex l id r :
      validID id = true -> d !! id = Some (Some r) ->
      step (MkState d Idle ex l) (MkState d (Loaded id r) ex l)
  | step_server_expire d ex l id r t t' r' :
      expire_write t t' r = Some r' ->
      step (MkState d (Loaded id r) ex l) (MkState (put d r') Idle ex l)
  | step_server_resolve d ex l id r t approve reason r' :
      resolve_write t approve reason r = Some r' ->
      step (MkState d (Loaded id r) ex l) (MkState (put d r') Idle ex (approval_event id r' ++ l))
  | step_server_drop d ex l id r :
      step (MkState d (Loaded id r) ex l) (MkState d Idle ex l)
  | step_executor_load d sv l id r :
      validID id = true -> d !! id = Some (Some r) ->
      step (MkState d sv Idle l) (MkState d sv (Loaded id r) l)
  | step_executor_consume d sv l id r t t' b r' :
      consume_write t t' b r = Some r' ->
      step (MkState d sv (Loaded id r) l) (MkState (put d r') sv Idle (EvConsume id b t :: l))
  | step_executor_drop d sv l id r :
      step (MkState d sv (Loaded id r) l) (MkState d sv Idle l).

Definition reachable (s : state) : Prop := rtc step start s.

(** How far a record has come: pending, approved, spent. *)
Definition rank (status : string) : nat :=
  if String.eqb status Pending then 0 else if String.eqb status Approved then 1 else 2.

(** [r0] in the directory is a version of the loaded [r] at least as far. *)
Record ahead (r r0 : ApprovalRecord) : Prop := {
  ah_id : ar_ID r0 = ar_ID r;
  ah_binding : ar_Binding r0 = ar_Binding r;
  ah_expires : ar_ExpiresAt r0 = ar_ExpiresAt r;
  ah_rank : (rank (ar_Status r) <= rank (ar_Status r0))%nat
}.

(** The history justifies a record: it was created with this binding, and
    approved if it ever got past pending to approved. *)
Definition justified (l : list event) (r : ApprovalRecord) : Prop :=
  EvCreate (ar_ID r) (ar_Binding r) (ar_ExpiresAt r) ∈ l /\
  (ar_Status r = Approved -> EvApprove (ar_ID r) ∈ l).

(** No consumption of [id] in [l]. *)
Definition unconsumed (id : string) (l : list event) : Prop := forall b t, EvConsume id b t ∉ l.

(** A well-formed history: every consumption follows a creation with the
    same binding, an approval and no other consumption, within its time. *)
Fixpoint sound (l : list event) : Prop :=
  match l with
  | [] => True
  | EvConsume id b t :: l =>
    (exists expires, EvCreate id b expires ∈ l /\ t <= expires) /\ EvApprove id ∈ l /\
    unconsumed id l /\ sound l
  | _ :: l => sound l
  end.

Record inv (s : state) : Prop := {
  inv_named : well_named (dir s);
  inv_dir : forall id r, dir s !! id = Some (Some r) -> justified (log s) r;
  inv_spent : forall id r, dir s !! id = Some (Some r) -> (rank (ar_Status r) < 2)%nat -> unconsumed id (log s);
  inv_absent : forall id, dir s !! id = None -> unconsumed id (log s);
  inv_server : forall id r, server s = Loaded id r -> justified (log s) r /\
    exists r0, dir s !! id = Some (Some r0) /\ ahead r r0 /\
      (rank (ar_Status r) = 0%nat -> rank (ar_Status r0) = 0%nat);
  inv_executor : forall id r, executor s = Loaded id r -> justified (log s) r /\
    (exists r0, dir s !! id = Some (Some r0) /\ ahead r r0) /\
    ((rank (ar_Status r) < 2)%nat -> unconsumed id (log s));
  inv_sound : sound (log s)
}.

Lemma justified_mono l l' r : l ⊆ l' -> justified l r -> justified l' r.
Proof. intros Hs [H1 H2]. split; auto. Qed.

Lemma unconsumed_cons id e l :
  (forall b t, e <> EvConsume id b t) -> unconsumed id l -> unconsumed id (e :: l).
Proof. intros He Hl b t [E|Hin]%elem_of_cons; [by apply (He b t)|by apply (Hl b t)]. Qed.

Lemma unconsumed_approval id id' r l : unconsumed id l -> unconsumed id (approval_event id' r ++ l).
Proof.
  unfold approval_event. destruct (String.eqb _ _); [|done]. by apply unconsumed_cons.
Qed.

(** A rename by one process: [r'] replaces some version [r0] of the record
    that is no further; the history gains [es], which consumes nothing
    except possibly [id] itself when [r'] is spent. *)
Lemma inv_put d sv ex sv' ex' l es id r0 r' :
  inv (MkState d sv ex l) ->
  d !! id = Some (Some r0) -> ahead r0 r' -> justified (es ++ l) r' ->
  (forall k b t, EvConsume k b t ∈ es -> k = id /\ rank (ar_Status r') = 2%nat) ->
  (forall k x, sv' = Loaded k x -> sv = Loaded k x /\
     (k = id -> rank (ar_Status x) = 0%nat -> rank (ar_Status r') = 0%nat)) ->
  (forall k x, ex' = Loaded k x -> ex = Loaded k x /\ forall b t, EvConsume k b t ∉ es) ->
  sound (es ++ l) ->
  inv (MkState (put d r') sv' ex' (es ++ l)).
Proof.
  intros [In Id Is Ia Iv Ix _] H0 Ah J Hes Hsv Hex Hs; cbn in *.
  assert (Eid : ar_ID r' = id) by (rewrite (ah_id _ _ Ah); by apply In).
  assert (Sub : l ⊆ es ++ l) by set_solver. unfold put. rewrite Eid.
  assert (Un : forall k, k <> id -> unconsumed k l -> unconsumed k (es ++ l)).
  { intros k Hk U b t [Hin|Hin]%elem_of_app; [by destruct (Hes _ _ _ Hin)|by apply (U b t)]. }
  split; cbn; [..|done].
  - intros k x. destruct (decide (k = id)) as [->|Hk];
      [rewrite lookup_insert_eq; by intros [= <-]|rewrite lookup_insert_ne by done; apply In].
  - intros k x. destruct (decide (k = id)) as [->|Hk];
      [rewrite lookup_insert_eq; by intros [= <-]|rewrite lookup_insert_ne by done].
    intros Hx. eapply justified_mono; [exact Sub|by eapply Id].
  - intros k x. destruct (decide (k = id)) as [->|Hk].
    + rewrite lookup_insert_eq. intros [= <-] Hr b t [Hin|Hin]%elem_of_app.
      * destruct (Hes _ _ _ Hin). lia.
      * pose proof (ah_rank _ _ Ah). eapply (Is id r0); [done|lia|done].
    + rewrite lookup_insert_ne by done. intros Hx Hr. apply Un; [done|by eapply Is].
  - intros k. destruct (decide (k = id)) as [->|Hk]; [by rewrite lookup_insert_eq|].
    rewrite lookup_insert_ne by done. intros Hn. apply Un; auto.
  - intros k x E. destruct (Hsv k x E) as [E0 Hz]. destruct (Iv k x E0) as (Jx&y&Hy&Ay&Zy).
    split; [by eapply justified_mono|]. destruct (decide (k = id)) as [->|Hk].
    + exists r'. rewrite lookup_insert_eq. simplify_eq. split_and!; [done| |auto].
      destruct Ay, Ah. split; try congruence. lia.
    + exists y. by rewrite lookup_insert_ne.
  - intros k x E. destruct (Hex k x E) as [E0 Hz]. destruct (Ix k x E0) as (Jx&(y&Hy&Ay)&Uy).
    split; [by eapply justified_mono|]. split.
    + destruct (decide (k = id)) as [->|Hk].
      * exists r'. rewrite lookup_insert_eq. simplify_eq. split; [done|].
        destruct Ay, Ah. split; try congruence. lia.
      * exists y. by rewrite lookup_insert_ne.
    + intros Hr b t [Hin|Hin]%elem_of_app; [by eapply Hz|by eapply Uy].
Qed.

Lemma inv_create d sv ex l r b :
  inv (MkState d sv ex l) -> d !! ar_ID r = None -> ar_Status r = Pending -> ar_Binding r = b ->
  inv (MkState (put d r) sv ex (EvCreate (ar_ID r) b (ar_ExpiresAt r) :: l)).
Proof.
  intros [In Id Is Ia Iv Ix Il] Hn Hp <-; cbn in *. unfold put.
  assert (Sub : l ⊆ EvCreate (ar_ID r) (ar_Binding r) (ar_ExpiresAt r) :: l) by set_solver.
  assert (Un : forall k, unconsumed k l -> unconsumed k (EvCreate (ar_ID r) (ar_Binding r) (ar_ExpiresAt r) :: l))
    by (intros; by apply unconsumed_cons).
  split; cbn; [..|done].
  - intros k x. destruct (decide (k = ar_ID r)) as [->|Hk];
      [rewrite lookup_insert_eq; by intros [= <-]|rewrite lookup_insert_ne by done; apply In].
  - intros k x. destruct (decide (k = ar_ID r)) as [->|Hk].
    + rewrite lookup_insert_eq. intros [= <-]. split; [by left|]. by rewrite Hp.
    + rewrite lookup_insert_ne by done. intros Hx. eapply justified_mono; [exact Sub|by eapply Id].
  - intros k x. destruct (decide (k = ar_ID r)) as [->|Hk]; [auto|].
    rewrite lookup_insert_ne by done. eauto.
  - intros k. destruct (decide (k = ar_ID r)) as [->|Hk]; [auto|]. rewrite lookup_insert_ne by done. eauto.
  - intros k x E. destruct (Iv k x E) as (Jx&y&Hy&Ay&Zy). split; [by eapply justified_mono|].
    exists y. by rewrite lookup_insert_ne by congruence.
  - intros k x E. destruct (Ix k x E) as (Jx&(y&Hy&Ay)&Uy). split; [by eapply justified_mono|].
    split; [|auto]. exists y. by rewrite lookup_insert_ne by congruence.
Qed.

(** The record the server renames into place is ahead of the directory's. *)
Lemma server_write_ahead r r0 r' :
  ahead r r0 -> (rank (ar_Status r) = 0%nat -> rank (ar_Status r0) = 0%nat) ->
  ar_ID r' = ar_ID r -> ar_Binding r' = ar_Binding r -> ar_ExpiresAt r' = ar_ExpiresAt r ->
  rank (ar_Status r') = 2%nat \/ (rank (ar_Status r) = 0%nat /\ rank (ar_Status r') = 1%nat) ->
  ahead r0 r'.
Proof.
  intros [] Hz E1 E2 E3 Hr. split; try congruence.
  assert (rank (ar_Status r0) <= 2)%nat by (unfold rank; repeat case_match; lia).
  destruct Hr as [->|[Hr ->]]; [done|]. rewrite (Hz Hr). lia.
Qed.

Lemma pending_rank s : String.eqb s Pending = true -> rank s = 0%nat.
Proof. unfold rank. by intros ->. Qed.

Lemma loaded_id d r r0 id : well_named d -> d !! id = Some (Some r0) -> ahead r r0 -> ar_ID r = id.
Proof. intros Hn H0 A. rewrite <- (ah_id _ _ A). by apply Hn. Qed.

Lemma sound_approval id r l : sound l -> sound (approval_event id r ++ l).
Proof. unfold approval_event. by destruct (String.eqb _ _). Qed.

(** The two server writes: what they compute from the loaded record. *)
Definition server_write (r r' : ApprovalRecord) : Prop :=
  ar_ID r' = ar_ID r /\ ar_Binding r' = ar_Binding r /\ ar_ExpiresAt r' = ar_ExpiresAt r /\
  (rank (ar_Status r') = 2%nat \/ (rank (ar_Status r) = 0%nat /\ rank (ar_Status r') = 1%nat)).

Lemma expire_server_write t t' r r' :
  expire_write t t' r = Some r' -> server_write r r' /\ ar_Status r' = Expired.
Proof.
  unfold expire_write. destruct (_ || _); [done|]. intros [= <-]. split; [|done].
  split_and!; try done. by left.
Qed.

Lemma resolve_server_write t approve reason r r' :
  resolve_write t approve reason r = Some r' -> server_write r r'.
Proof.
  unfold resolve_write. destruct (negb (_ <? _)).
  { intros [= <-]. split_and!; try done. by left. }
  destruct (_ || _) eqn:Eo; [done|]. apply orb_false_iff in Eo as [_ Ep%negb_false_iff].
  intros [= <-]. split_and!; try done. apply pending_rank in Ep.
  destruct approve; [by right|by left].
Qed.

Lemma server_step d ex l es id r r' :
  inv (MkState d (Loaded id r) ex l) -> server_write r r' ->
  es = approval_event id r' -> inv (MkState (put d r') Idle ex (es ++ l)).
Proof.
  intros I (E1&E2&E3&Hr) ->. pose proof I as [In _ _ _ Iv _ Il]; cbn in *.
  destruct (Iv id r eq_refl) as (J&r0&H0&A&Z). pose proof (loaded_id _ _ _ _ In H0 A) as Eid.
  eapply (inv_put _ _ _ _ _ _ _ id r0); [exact I|done|by eapply server_write_ahead| | | | |].
  - split; [rewrite E1, E2, E3; apply elem_of_app; right; apply J|].
    intros Ha. unfold approval_event. rewrite Ha, String.eqb_refl, E1, Eid. by left.
  - intros k b t. unfold approval_event. destruct (String.eqb _ _); set_solver.
  - done.
  - intros k x Ex. split; [done|]. intros b t. unfold approval_event. destruct (String.eqb _ _); set_solver.
  - by apply sound_approval.
Qed.

Lemma executor_step d sv l id r t t' b r' :
  inv (MkState d sv (Loaded id r) l) -> consume_write t t' b r = Some r' ->
  inv (MkState (put d r') sv Idle (EvConsume id b t :: l)).
Proof.
  unfold consume_write. intros I. destruct (usable t b r) as [[]|] eqn:Eu; [|done].
  apply usable_ok in Eu as (Ht&Hs&<-). intros [= <-].
  pose proof I as [In _ _ _ Iv Ix Il]; cbn in *.
  destruct (Ix id r eq_refl) as (J&(r0&H0&A)&U). pose proof (loaded_id _ _ _ _ In H0 A) as Eid.
  assert (Rr : rank (ar_Status r) = 1%nat) by (unfold rank; by rewrite Hs).
  pose proof (ah_rank _ _ A) as Hle.
  apply (inv_put d sv (Loaded id r) sv Idle l [EvConsume id (ar_Binding r) t] id r0
           (ar_with r Consumed (ar_Reason r) (ar_ResolvedAt r) t')); [exact I|done| | | | | |].
  - destruct A. split; try done. unfold rank at 2. cbn. unfold rank. repeat case_match; lia.
  - destruct J as [J1 _]. split; [by apply elem_of_app; right; exact J1|done].
  - intros k b0 t0 [E|[]%elem_of_nil]%elem_of_cons. by injection E as -> _ _.
  - intros k x ->. split; [done|]. intros -> Hx. destruct (Iv id x eq_refl) as (_&y&Hy&_&Z).
    simplify_eq. rewrite (Z Hx) in Hle. lia.
  - done.
  - cbn. split_and!; [|rewrite <- Eid; by apply J|apply U; lia|done].
    exists (ar_ExpiresAt r). split; [|done]. rewrite <- Eid. apply J.
Qed.

Lemma ahead_refl r : ahead r r.
Proof. by split. Qed.

Lemma inv_step s s' : step s s' -> inv s -> inv s'.
Proof.
  intros Hs I. destruct Hs.
  - by apply inv_create.
  - destruct I as [In Id Is Ia Iv Ix Il]. split; cbn in *; try done.
    intros k x [= <- <-]. split; [by eapply Id|]. exists r. split_and!; [done|apply ahead_refl|done].
  - destruct (expire_server_write _ _ _ _ H) as [W Es].
    change l with ([] ++ l). eapply server_step; [done..|]. unfold approval_event. by rewrite Es.
  - eapply server_step; [done|by eapply resolve_server_write|done].
  - destruct I as [In Id Is Ia Iv Ix Il]. by split; cbn in *.
  - destruct I as [In Id Is Ia Iv Ix Il]. split; cbn in *; try done.
    intros k x [= <- <-]. split; [by eapply Id|]. split; [exists r; split; [done|apply ahead_refl]|].
    intros Hr. by eapply Is.
  - by eapply executor_step.
  - destruct I as [In Id Is Ia Iv Ix Il]. by split; cbn in *.
Qed.

Lemma inv_start : inv start.
Proof.
  split; cbn; try done; [intros id r; by rewrite lookup_empty..|].
  intros id _ b t. apply not_elem_of_nil.
Qed.

Lemma inv_reachable s : reachable s -> inv s.
Proof.
  unfold reachable. intros Hr. assert (H : forall a b, rtc step a b -> inv a -> inv b).
  { clear. intros a b H. induction H; [done|]. eauto using inv_step. }
  eapply H; [exact Hr|apply inv_start].
Qed.

Lemma sound_split l1 id b t l2 :
  sound (l1 ++ EvConsume id b t :: l2) ->
  (exists expires, EvCreate id b expires ∈ l2 /\ t <= expires) /\ EvApprove id ∈ l2 /\ unconsumed id l2.
Proof.
  induction l1 as [|e l1 IH]; cbn.
  - naive_solver.
  - destruct e; [done..|]. intros (_&_&_&H). by apply IH.
Qed.
End Shared.

(** ** Each operation is a path of the shared system *)
Section Refine.
Import Shared.
Context (E : Env).

Definition server_path (d : ApprovalDir) (ex : phase) (l : list event) (d' : ApprovalDir) : Prop :=
  exists l', rtc step (MkState d Idle ex l) (MkState d' Idle ex l').
Definition executor_path (d : ApprovalDir) (sv : phase) (l : list event) (d' : ApprovalDir) : Prop :=
  exists l', rtc step (MkState d sv Idle l) (MkState d' sv Idle l').

Lemma expire_path id ex l d d' :
  writes id (fun r o => exists t t', expire_write t t' r = o) d d' -> server_path d ex l d'.
Proof.
  intros [->|(r&rec&Hv&Hr&(t&t'&Hw)&->)]; [by exists l|].
  exists l. eapply rtc_l; [by eapply step_server_load|].
  eapply rtc_l; [by eapply step_server_expire|]. reflexivity.
Qed.

Lemma resolve_path id approve reason ex l d d' :
  writes id (fun r o => exists t, resolve_write t approve reason r = o) d d' -> server_path d ex l d'.
Proof.
  intros [->|(r&rec&Hv&Hr&(t&Hw)&->)]; [by exists l|].
  eexists. eapply rtc_l; [by eapply step_server_load|].
  eapply rtc_l; [by eapply step_server_resolve|]. reflexivity.
Qed.

Lemma consume_path id b sv l d d' :
  writes id (fun r o => exists t t', consume_write t t' b r = o) d d' -> executor_path d sv l d'.
Proof.
  intros [->|(r&rec&Hv&Hr&(t&t'&Hw)&->)]; [by exists l|].
  eexists. eapply rtc_l; [by eapply step_executor_load|].
  eapply rtc_l; [by eapply step_executor_consume|]. reflexivity.
Qed.

Lemma List_path ex l d : wp E List_ (fun _ d' => server_path d ex l d') d.
Proof.
  unfold List_. wp_approval; try (by exists l).
  eapply wp_mono; [apply (wp_mapM _ _ _ (fun d' => server_path d ex l d') (fun _ => True)); [|by exists l]|].
  - intros id d1 _ [l1 H1]. wp_approval; try (split; [by exists l1|]; done).
    eapply wp_mono; [by eapply expire_writes|]. intros res d2 H2.
    assert (server_path d ex l d2).
    { destruct (expire_path id ex l1 d1 d2 H2) as [l2 H3]. exists l2. by etransitivity. }
    destruct res as [[rec [[]|e]]|e]; wp_approval; by split.
  - intros [out|e] d1 [H1 _]; [by wp_approval|done].
Qed.
End Refine.

(** ** Properties *)

(** C11: an approval is used at most once, for what was approved, across
    both processes.  Starting from an empty directory, however the loads
    and renames of the server (create, expire, resolve) and of the executor
    (consume) interleave, every consumption in the history is preceded by
    the creation of the record with exactly that binding, by a human
    approval, and by no other consumption, and happened no later than the
    record's expiry. *)
Theorem shared_single_use (s : Shared.state) (l1 l2 : list Shared.event) (id : string) (b : Binding) (t : Z)
    (Hs : Shared.reachable s) (Hl : Shared.log s = l1 ++ Shared.EvConsume id b t :: l2) :
  (exists expires, Shared.EvCreate id b expires ∈ l2 /\ t <= expires) /\
  Shared.EvApprove id ∈ l2 /\
  (forall b' t', Shared.EvConsume id b' t' ∉ l2).
Proof.
  pose proof (Shared.inv_sound _ (Shared.inv_reachable s Hs)) as S. rewrite Hl in S.
  by apply Shared.sound_split in S.
Qed.

Definition sample_binding : Binding :=
  MkBinding "task_1" "p" "t" "i" "v" L2 "file.write" "nonce_1".
Definition sample_record : ApprovalRecord :=
  MkApprovalRecord "approval_1" sample_binding Pending "" 0 100 zero_time zero_time.
Definition approved_record : ApprovalRecord := ar_with sample_record Approved "ok" 10 zero_time.

Lemma shared_single_use_witness :
  exists s, Shared.reachable s /\
    (exists expires, Shared.EvCreate "approval_1" sample_binding expires
       ∈ [Shared.EvApprove "approval_1"; Shared.EvCreate "approval_1" sample_binding 100] /\ 20 <= expires) /\
    Shared.EvApprove "approval_1"
       ∈ [Shared.EvApprove "approval_1"; Shared.EvCreate "approval_1" sample_binding 100] /\
    (forall b' t', Shared.EvConsume "approval_1" b' t'
       ∉ [Shared.EvApprove "approval_1"; Shared.EvCreate "approval_1" sample_binding 100]).
Proof.
  assert (R : exists s, Shared.reachable s /\
    Shared.log s = [] ++ Shared.EvConsume "approval_1" sample_binding 20
      :: [Shared.EvApprove "approval_1"; Shared.EvCreate "approval_1" sample_binding 100]).
  { eexists. split; [unfold Shared.reachable, Shared.start|].
    - eapply rtc_l; [apply (Shared.step_create _ _ _ _ sample_record sample_binding); reflexivity|].
      eapply rtc_l; [apply (Shared.step_server_load _ _ _ "approval_1" sample_record); reflexivity|].
      eapply rtc_l; [apply (Shared.step_server_resolve _ _ _ _ _ 10 true "ok"); reflexivity|].
      eapply rtc_l; [apply (Shared.step_executor_load _ _ _ "approval_1" approved_record); reflexivity|].
      eapply rtc_l; [apply (Shared.step_executor_consume _ _ _ _ _ 20 21 sample_binding); vm_compute; reflexivity|].
      reflexivity.
    - reflexivity. }
  destruct R as (s&Hr&Hl). exists s. split; [exact Hr|].
  exact (shared_single_use s [] _ "approval_1" sample_binding 20 Hr Hl).
Defined.

(** Every operation of the store, run alone, is a path of the shared
    system: the server's operations move from and to an idle server, the
    executor's from and to an idle executor, whatever the other process
    holds, and whichever of their system calls fail. *)
Theorem operations_refine_shared (E : Env) (o : op) (d : ApprovalDir)
    (other : Shared.phase) (l : list Shared.event)
    (Hf : fresh_for E (fun id => is_Some (d !! id))) :
  wp E (run_op o) (fun _ d' =>
    match o with
    | OpValidate _ _ | OpConsume _ _ => executor_path d other l d'
    | _ => server_path d other l d'
    end) d.
Proof.
  destruct o as [b ttl|id| |id a rs|id b|id b]; cbn [run_op].
  - apply wp_bind. eapply wp_mono; [apply Create_cases|].
    assert (F : forall d', d' = d \/ (exists n rec,
      d' = <[ar_ID rec := Some rec]> d /\ ar_ID rec = "approval" +:+ "_" +:+ rand E n /\
      ar_Status rec = Pending /\ ar_Binding rec = b /\ incomplete b = false) -> server_path d other l d').
    { intros d' [->|(n&rec&->&En&Hp&Hb&Hi)]; [by exists l|]. eexists. apply rtc_once.
      eapply Shared.step_create; try done. rewrite En.
      destruct (d !! _) eqn:Ed; [|done]. destruct (Hf n). by eexists. }
    intros [x|e] d' H; [apply wp_ret|]; by apply F.
  - apply wp_bind. eapply wp_mono; [apply Get_writes|].
    intros [x|e] d' H; [apply wp_ret|]; by eapply expire_path.
  - apply wp_bind. eapply wp_mono; [apply (List_path _ other l)|].
    intros [x|e] d' H; [apply wp_ret|]; done.
  - apply wp_bind. eapply wp_mono; [apply Resolve_writes|].
    intros [x|e] d' H; [apply wp_ret|]; by eapply resolve_path.
  - eapply wp_mono; [apply Validate_still|]. intros r d' ->. by exists l.
  - eapply wp_mono; [apply Consume_writes|]. intros r d' H.
    exact (consume_path id b other l d d' H).
Qed.

Definition approved_dir : ApprovalDir := {[ "approval_1" := Some approved_record ]}.

Lemma operations_refine_shared_witness :
  wp (calm 20 "00") (Consume "approval_1" sample_binding)
    (fun _ d' => executor_path approved_dir Shared.Idle [] d') approved_dir.
Proof.
  apply (operations_refine_shared (calm 20 "00") (OpConsume "approval_1" sample_binding) approved_dir
           Shared.Idle []).
  intros n [x Hx]. vm_compute in Hx. discriminate Hx.
Defined.

(** A record keeps what was approved and its status only moves
    forward.  Over any sequence of store operations, whichever system calls
    fail or whenever the process stops, each record whose id is not drawn
    again still exists, with the same binding, creation and expiry times,
    and its status moved along pending, approved, consumed / rejected, or
    to expired; files stay named after their records. *)
Theorem approval_lifecycle (E : Env) (K : string -> Prop) (ops : list op)
    (w w' : World ApprovalDir) (rs : result (list (result unit)))
    (Hn : well_named (st w)) (HK : fresh_for E K) (Hr : run_ops ops E w = (rs, w')) :
  well_named (st w') /\
  forall id r, K id -> st w !! id = Some (Some r) ->
    exists r', st w' !! id = Some (Some r') /\ later r r'.
Proof. exact (wp_run _ _ _ _ _ _ (run_ops_evolves K E ops (st w) HK) Hr Hn). Qed.

Definition lifecycle_ops : list op :=
  [OpList; OpResolve "approval_1" true "ok"; OpValidate "approval_1" sample_binding;
   OpConsume "approval_1" sample_binding; OpCreate sample_binding 0; OpResolve "approval_1" false "late"].

Lemma approval_lifecycle_witness :
  exists r', st (run_ops lifecycle_ops (calm 20 "00")
                   (init_world {[ "approval_1" := Some sample_record ]})).2 !! "approval_1" = Some (Some r')
  /\ later sample_record r'.
Proof.
  destruct (run_ops lifecycle_ops (calm 20 "00") (init_world {[ "approval_1" := Some sample_record ]}))
    as [rs w'] eqn:Er.
  refine (proj2 (approval_lifecycle (calm 20 "00") (eq "approval_1") lifecycle_ops _ w' rs _ _ Er)
            "approval_1" sample_record eq_refl _).
  - intros id r Hr. cbn [st init_world] in Hr. apply lookup_singleton_Some in Hr as [<- [= <-]]. reflexivity.
  - intros n. discriminate.
  - reflexivity.
Defined.

Lemma load_run id E w :
  quiet E ->
  (load id E w).1 = (if validID id then match st w !! id with
                       | None => Err (ESys ENOENT)
                       | Some None => Err (EMsg "json: cannot unmarshal approval record")
                       | Some (Some r) => Ok r
                       end else Err (EMsg "invalid approval id")) /\
  st (load id E w).2 = st w /\ ticks (load id E w).2 = ticks w.
Proof.
  intros [Hf _]. unfold load, guard_, bind, lift, sys. destruct (validID id); cbn; [|done].
  rewrite Hf. by destruct (st w !! id) as [[r|]|].
Qed.

Lemma save_run rec E w :
  quiet E -> exists w', save rec E w = (Ok tt, w') /\ st w' = <[ar_ID rec := Some rec]> (st w).
Proof. intros Hq. destruct (atomic_write_quiet 5 3 (fun d => <[ar_ID rec := Some rec]> d) E w Hq) as (w'&?&?&_). by exists w'. Qed.

(** [Consume] succeeds exactly on an approved, unexpired record with
    this binding.  When no system call fails, it returns nil iff the id is
    valid and the loaded record is APPROVED, has exactly the given binding
    and has not passed its expiry; the record is then CONSUMED, and after
    an error the directory is unchanged. *)
Theorem consume_exact (E : Env) (w : World ApprovalDir) (id : string) (b : Binding) (Hq : quiet E) :
  let '(r, w') := Consume id b E w in
  (r = Ok tt <-> validID id = true /\ exists rec, st w !! id = Some (Some rec) /\
     ar_Status rec = Approved /\ ar_Binding rec = b /\ clock E (ticks w) <= ar_ExpiresAt rec) /\
  (r = Ok tt -> exists rec, st w !! id = Some (Some rec) /\
     st w' = <[ar_ID rec := Some (ar_with rec Consumed (ar_Reason rec) (ar_ResolvedAt rec)
                                    (clock E (S (ticks w))))]> (st w)) /\
  (r <> Ok tt -> st w' = st w).
Proof.
  unfold Consume. destruct (load_run id E w Hq) as (E1&E2&E3). unfold bind at 1.
  destruct (load id E w) as [r1 w1]. cbn [fst snd] in *. subst r1.
  destruct (validID id); [|cbn; split_and!; [split; [done|by intros [? _]]|done|done]].
  destruct (st w !! id) as [[rec|]|]; [|by split_and!; [split; [done|]; intros (_&x&[= ]&_)|..]..].
  unfold bind, now, lift. cbn [clock ticks]. rewrite E3.
  destruct (usable (clock E (ticks w)) b rec) as [[]|e] eqn:Eu; cbn [fst snd].
  - apply usable_ok in Eu as (Ht&Hs&Hb).
    match goal with |- context [save ?x E ?u] => destruct (save_run x E u Hq) as (w2&Es&Hw2) end.
    rewrite Es. cbn in Hw2. rewrite E2 in Hw2. split_and!; [|by exists rec|done].
    split; [|done]. intros _. split; [done|]. by exists rec.
  - split_and!; [|done|done]. split; [done|]. intros (_&x&[= <-]&Hs&Hb&Ht).
    assert (usable (clock E (ticks w)) b rec = Ok tt) by (by apply usable_ok). congruence.
Qed.

Lemma consume_exact_witness :
  let '(r, w') := Consume "approval_1" sample_binding (calm 20 "00") (init_world approved_dir) in
  (r = Ok tt <-> validID "approval_1" = true /\ exists rec, approved_dir !! "approval_1" = Some (Some rec) /\
     ar_Status rec = Approved /\ ar_Binding rec = sample_binding /\ 20 <= ar_ExpiresAt rec) /\
  (r = Ok tt -> exists rec, approved_dir !! "approval_1" = Some (Some rec) /\
     st w' = <[ar_ID rec := Some (ar_with rec Consumed (ar_Reason rec) (ar_ResolvedAt rec) 20)]> approved_dir) /\
  (r <> Ok tt -> st w' = approved_dir).
Proof.
  exact (consume_exact (calm 20 "00") (init_world approved_dir) "approval_1" sample_binding (calm_quiet 20 "00")).
Defined.

(** A decision that arrives at or after the expiry marks the record
    EXPIRED whatever its status was, also when it had been CONSUMED or
    REJECTED before, and is answered with an error; its consumption time
    is kept. *)
Theorem late_resolve_expires (E : Env) (w : World ApprovalDir) (id reason : string) (approve : bool)
    (rec : ApprovalRecord) (Hq : quiet E) (Hv : validID id = true)
    (Hr : st w !! id = Some (Some rec)) (Ht : ar_ExpiresAt rec <= clock E (ticks w)) :
  let '(r, w') := Resolve id approve reason E w in
  let rec' := ar_with rec Expired (ar_Reason rec) (clock E (ticks w)) (ar_ConsumedAt rec) in
  r = Ok (rec', Err (EMsg "approval expired")) /\ st w' = <[ar_ID rec := Some rec']> (st w).
Proof.
  unfold Resolve. unfold bind at 1. unfold ctx_check. rewrite (proj2 Hq).
  match goal with |- context [bind (load id) _ _ ?u] =>
    destruct (load_run id E u Hq) as (E1&E2&E3); unfold bind at 1; destruct (load id E u) as [r1 w1] end.
  cbn in E1, E2, E3. rewrite Hv, Hr in E1. subst r1.
  unfold bind, now. cbn [clock ticks]. rewrite E3.
  rewrite (proj2 (Z.ltb_ge _ _)) by done. cbn [negb]. unfold try_.
  match goal with |- context [save ?x E ?u] => destruct (save_run x E u Hq) as (w2&Es&Hw2) end.
  rewrite Es. cbn in Hw2 |- *. by rewrite Hw2, E2.
Qed.

Definition used_record : ApprovalRecord := ar_with approved_record Consumed "ok" 10 20.

Definition late_world : World ApprovalDir := init_world {[ "approval_1" := Some used_record ]}.

Lemma late_resolve_expires_witness :
  let '(r, w') := Resolve "approval_1" false "too late" (calm 150 "00") late_world in
  let rec' := ar_with used_record Expired (ar_Reason used_record)
                (clock (calm 150 "00") (ticks late_world)) (ar_ConsumedAt used_record) in
  r = Ok (rec', Err (EMsg "approval expired")) /\
  st w' = <[ar_ID used_record := Some rec']> (st late_world).
Proof.
  apply (late_resolve_expires (calm 150 "00") late_world "approval_1" "too late" false used_record);
    [apply calm_quiet|reflexivity|reflexivity|vm_compute; discriminate].
Defined.
