(* ===== verification/Nonce.v ===== *)
(** * [internal/executor/nonce.go]: the replay store

    The nonces of accepted envelopes, in memory and in one JSON file that
    [Reserve] rewrites atomically and [NewNonceStore] reads back when the
    executor starts.  [ns_file] is [None] when the file does not exist and
    [Some None] when its bytes do not decode. *)

From S2P Require Import Prelude.
Open Scope Z_scope.

Record NonceStore := MkNonceStore {
  ns_file : option (option (gmap string Z));
  ns_used : gmap string Z
}.

Definition set_used (s : NonceStore) (u : gmap string Z) : NonceStore := MkNonceStore (ns_file s) u.

(** [MkdirAll], then read and decode the file; a missing file is an empty
    store.  On an error there is no store. *)
Definition NewNonceStore : M NonceStore unit :=
  probe ;;;
  read <- try_ (sys (fun s => match ns_file s with
                              | None => Err (ESys ENOENT)
                              | Some b => Ok (b, s)
                              end)) ;;
  match read with
  | Ok (Some u) => modify (fun s => set_used s u)
  | Ok None => throw (EMsg "json: cannot unmarshal nonces")
  | Err e => if errors_is e ENOENT then modify (fun s => set_used s ∅) else throw e
  end.

Definition save : M NonceStore unit :=
  atomic_write 5 3 (fun s => MkNonceStore (Some (Some (ns_used s))) (ns_used s)).

(** [for value, expiry := range s.used { if now.After(expiry) { delete } }] *)
Definition purge (t : Z) (u : gmap string Z) : gmap string Z := filter (fun p => t <= p.2) u.

Definition Reserve (nonce : string) (expiresAt : Z) : M NonceStore unit :=
  lift (guard_ (String.eqb nonce "") (EMsg "nonce is required")) ;;;
  t <- now ;;
  modify (fun s => set_used s (purge t (ns_used s))) ;;;
  s <- get_st ;;
  match ns_used s !! nonce with
  | Some _ => throw (EMsg "envelope replay detected")
  | None =>
    modify (fun s => set_used s (<[nonce := expiresAt]> (ns_used s))) ;;;
    saved <- try_ save ;;
    match saved with
    | Ok tt => ret tt
    | Err e => modify (fun s => set_used s (delete nonce (ns_used s))) ;;; throw e
    end
  end.

(** One life of the executor process, and a sequence of lives: each starts
    by reading the file and then reserves; a life whose start fails does
    nothing. *)
Definition life (l : list (string * Z)) : M NonceStore (list (result unit)) :=
  NewNonceStore ;;; mapM (fun p => try_ (Reserve p.1 p.2)) l.
Definition lives (ls : list (list (string * Z))) : M NonceStore (list (result (list (result unit)))) :=
  mapM (fun l => try_ (life l)) ls.

(** ** A reserved nonce stays reserved until it expires *)

(** The nonce is recorded in memory and on disk until [e], or [e] is past. *)
Definition held (E : Env) (n : string) (e : Z) (w : World NonceStore) : Prop :=
  e < clock E (ticks w) \/
  (ns_used (st w) !! n = Some e /\ exists f, ns_file (st w) = Some (Some f) /\ f !! n = Some e).

Lemma purge_keeps t u n e : u !! n = Some e -> t <= e -> purge t u !! n = Some e.
Proof. intros Hu Ht. by apply map_lookup_filter_Some. Qed.

Lemma held_same E n e w w' : same_time w w' -> st w' = st w -> held E n e w -> held E n e w'.
Proof. intros [T _] S1. unfold held. by rewrite T, S1. Qed.

Lemma NewNonceStore_held E n e w :
  honest E -> held E n e w -> wpw E NewNonceStore (fun _ w' => held E n e w') w.
Proof.
  intros Hh H. unfold NewNonceStore. apply wpw_bind, wpw_sys; [by eauto using held_same|].
  intros w1 T1 S1. apply (held_same _ _ _ _ _ T1 S1) in H.
  apply wpw_bind, wpw_try, wpw_sys_honest; [done| |].
  - intros no w2 Hno T2 S2. apply (held_same _ _ _ _ _ T2 S2) in H. destruct no; done.
  - intros w2 T2. destruct (ns_file (st w1)) as [b|] eqn:Ef.
    + intros S2. apply (held_same _ _ _ _ _ T2 S2) in H. destruct b as [u|]; [|done].
      destruct H as [H|(Hu&f&Hf&Hn)]; [by left|right]. rewrite S2, Ef in Hf. injection Hf as <-.
      cbn. split; [done|]. exists u. by rewrite S2.
    + intros S2. apply (held_same _ _ _ _ _ T2 S2) in H. destruct H as [H|(_&f&Hf&_)]; [by left|].
      rewrite S2 in Hf. congruence.
Qed.

Lemma save_held E n e w :
  held E n e w -> wpw E save (fun _ w' => held E n e w') w.
Proof.
  intros H. unfold save. apply wpw_atomic_write; [|by eauto using held_same].
  intros _ w1 [T1 _] S1. destruct H as [H|(Hu&_)]; [left; by rewrite T1|right].
  rewrite S1. cbn. split; [done|]. by exists (ns_used (st w)).
Qed.

(** [Reserve] keeps every other reservation. *)
Lemma Reserve_held E n e m x w :
  monotone E -> held E n e w -> wpw E (Reserve m x) (fun _ w' => held E n e w') w.
Proof.
  intros Hm H. unfold Reserve. apply wpw_bind. unfold wpw at 1, lift, guard_. cbn.
  destruct (String.eqb m ""); [done|]. apply wpw_bind, wpw_now.
  set (t := clock E (ticks w)). apply wpw_bind. unfold wpw at 1. cbn.
  apply wpw_bind. unfold wpw at 1. cbn.
  set (w1 := with_st _ _). assert (H1 : held E n e w1).
  { destruct H as [H|(Hu&f&Hf)].
    - left. cbn. specialize (Hm (ticks w) (S (ticks w))). lia.
    - destruct (Z.lt_ge_cases e (clock E (S (ticks w)))) as [Hl|Hl]; [by left|right].
      specialize (Hm (ticks w) (S (ticks w)) ltac:(lia)).
      cbn. split; [apply purge_keeps; [done|unfold t; lia]|by exists f]. }
  destruct (purge t (ns_used (st w)) !! m) as [y|] eqn:Ey; [exact H1|].
  assert (Hne : held E n e w1 -> e < clock E (S (ticks w)) \/ m <> n).
  { intros [?|(Hu&_)]; [by left|right]. intros ->. cbn in Hu. congruence. }
  specialize (Hne H1). apply wpw_bind. unfold wpw at 1. cbn. apply wpw_bind, wpw_try.
  assert (H2 : held E n e (with_st w1 (set_used (st w1) (<[m:=x]> (ns_used (st w1)))))).
  { destruct H1 as [?|(Hu&f)]; [by left|]. destruct Hne as [?|Hne]; [by left|right].
    cbn in *. split; [by rewrite lookup_insert_ne|done]. }
  unfold save. apply wpw_atomic_write.
  - intros r w3 [T3 _] S3. cbn in T3, S3.
    assert (H3 : held E n e w3).
    { destruct H2 as [H2|(Hu&_)]; [left; by rewrite T3|right]. rewrite S3. cbn in *.
      split; [done|]. by eexists. }
    destruct r as [[]|er]; [exact H3|]. unfold wpw, bind. cbn.
    destruct H3 as [H3|(Hu&f)]; [by left|]. destruct Hne as [Hne|Hne]; [left; cbn; by rewrite T3|right].
    cbn. split; [by rewrite lookup_delete_ne|done].
  - intros er w3 [T3 _] S3. cbn in T3, S3. unfold wpw, bind. cbn.
    destruct H2 as [H2|(Hu&f)]; [left; cbn; by rewrite T3|]. destruct Hne as [Hne|Hne]; [left; cbn; by rewrite T3|right].
    cbn. rewrite S3. cbn in *. split; [by rewrite lookup_delete_ne|done].
Qed.

Lemma life_held E n e l w :
  monotone E -> honest E -> held E n e w -> wpw E (life l) (fun _ w' => held E n e w') w.
Proof.
  intros Hm Hh H. unfold life. apply wpw_bind. eapply wpw_mono; [by apply NewNonceStore_held|].
  intros [[]|er] w1 H1; [|done]. apply wpw_mapM; [|done].
  intros p w2 _ H2. apply wpw_try. eapply wpw_mono; [by apply Reserve_held|]. done.
Qed.

Lemma lives_held E n e ls w :
  monotone E -> honest E -> held E n e w -> wpw E (lives ls) (fun _ w' => held E n e w') w.
Proof.
  intros Hm Hh H. apply wpw_mapM; [|done]. intros l w1 _ H1. apply wpw_try.
  eapply wpw_mono; [by apply life_held|]. done.
Qed.

(** What [Reserve] finds and leaves when it succeeds. *)
Lemma Reserve_ok E n e w :
  wpw E (Reserve n e) (fun r w' => r = Ok tt ->
    n <> "" /\ (forall e', ns_used (st w) !! n = Some e' -> e' < clock E (ticks w)) /\
    ns_used (st w') !! n = Some e /\ ns_file (st w') = Some (Some (ns_used (st w')))) w.
Proof.
  unfold Reserve. apply wpw_bind. unfold wpw at 1, lift, guard_. cbn.
  destruct (String.eqb_spec n "") as [|Hn]; [done|]. apply wpw_bind, wpw_now.
  set (t := clock E (ticks w)). apply wpw_bind. unfold wpw at 1. cbn.
  apply wpw_bind. unfold wpw at 1. cbn.
  destruct (purge t (ns_used (st w)) !! n) as [y|] eqn:Ey; [done|].
  apply wpw_bind. unfold wpw at 1. cbn. apply wpw_bind, wpw_try. unfold save. apply wpw_atomic_write.
  - intros r w3 _ S3. cbn in S3. destruct r as [[]|er]; [|done]. unfold wpw. cbn. intros _.
    rewrite S3. cbn. split_and!; [done| |by rewrite lookup_insert_eq|done].
    intros e' He'. apply map_lookup_filter_None in Ey as [Ey|Ey]; [congruence|].
    specialize (Ey e' He'). cbn in Ey. lia.
  - by intros er w3 _ S3.
Qed.

(** It reads the clock once. *)
Lemma Reserve_ticks E n e w :
  wpw E (Reserve n e) (fun r w' => r = Ok tt -> ticks w' = S (ticks w)) w.
Proof.
  unfold Reserve. apply wpw_bind. unfold wpw at 1, lift, guard_. cbn.
  destruct (String.eqb n ""); [done|]. apply wpw_bind, wpw_now. apply wpw_bind. unfold wpw at 1. cbn.
  apply wpw_bind. unfold wpw at 1. cbn.
  destruct (purge _ (ns_used (st w)) !! n) as [y|]; [done|].
  apply wpw_bind. unfold wpw at 1. cbn. apply wpw_bind, wpw_try. unfold save. apply wpw_atomic_write.
  - intros r w3 [T3 _] _. cbn in T3. destruct r as [[]|er]; [|done]. unfold wpw. cbn. by intros _.
  - by intros er w3 _ _.
Qed.

(** ** Property *)

(** C13: no replay, also across restarts.  After [Reserve] has accepted a
    nonce with expiry [e], then any reservations in the same process, any
    number of restarts and reservations whose file operations may fail or
    be cut short at any system call, a second [Reserve] of the same nonce
    succeeds only when the clock has passed [e].  (The clock does not go
    back, and reading an existing file is not answered with ENOENT.) *)
Theorem nonce_no_replay (E : Env) (n : string) (e e' : Z) (same : list (string * Z))
    (ls : list (list (string * Z))) (w w1 w2 w3 w4 : World NonceStore)
    (r1 : result (list (result unit))) (r2 : result (list (result (list (result unit)))))
    (Hm : monotone E) (Hh : honest E)
    (H1 : Reserve n e E w = (Ok tt, w1))
    (H2 : mapM (fun p => try_ (Reserve p.1 p.2)) same E w1 = (r1, w2))
    (H3 : lives ls E w2 = (r2, w3))
    (H4 : Reserve n e' E w3 = (Ok tt, w4)) :
  e < clock E (ticks w3).
Proof.
  assert (K1 : held E n e w1).
  { pose proof (wpw_run _ _ _ _ _ _ (Reserve_ok E n e w) H1 eq_refl) as (_&_&Hu&Hf).
    right. split; [done|]. by exists (ns_used (st w1)). }
  assert (K2 : held E n e w2).
  { refine (wpw_run E _ (fun _ w' => held E n e w') w1 r1 w2 _ H2). apply wpw_mapM; [|done].
    intros p w' _ H. apply wpw_try. eapply wpw_mono; [by apply Reserve_held|]. done. }
  pose proof (wpw_run _ _ _ _ _ _ (lives_held E n e ls w2 Hm Hh K2) H3) as K3. cbn in K3.
  destruct K3 as [K3|(Hu&_)]; [done|].
  pose proof (wpw_run _ _ _ _ _ _ (Reserve_ok E n e' w3) H4 eq_refl) as (_&F&_). by apply F.
Qed.

(** A clock that ticks, a file system that fails once in the middle. *)
Definition ticking : Env :=
  MkEnv (fun n => 10 * Z.of_nat n) (fun n => if (n =? 12)%nat then Some EIO else None)
    (fun _ => "00") (fun _ => None) (fun _ => 0%nat).

Definition empty_store : World NonceStore := init_world (MkNonceStore None ∅).
Definition w_reserved := (Reserve "nonce_1" 25 ticking empty_store).2.
Definition w_failed := (mapM (fun p => try_ (Reserve p.1 p.2)) [("nonce_2", 90)] ticking w_reserved).2.
Definition w_restarted := (lives [[("nonce_3", 60)]] ticking w_failed).2.

Lemma nonce_no_replay_witness : 25 < clock ticking (ticks w_restarted).
Proof.
  refine (nonce_no_replay ticking "nonce_1" 25 99 [("nonce_2", 90)] [[("nonce_3", 60)]]
    empty_store w_reserved w_failed w_restarted (Reserve "nonce_1" 99 ticking w_restarted).2
    _ _ _ _ _ _ _ _).
  - intros m n H. cbn. lia.
  - intros n. unfold ticking. cbn. by destruct (n =? 12)%nat.
  - vm_compute. reflexivity.
  - unfold w_failed. apply surjective_pairing.
  - unfold w_restarted. apply surjective_pairing.
  - vm_compute. reflexivity.
Defined.
