(* ===== verification/GoText.v ===== *)
(** * More of [strings], [strconv] and [bufio]

    Words, lines, cuts, replacements and numbers, as the platform readers
    use them. *)

From Stdlib Require Import DecimalString.
From S2P Require Import Prelude GoStrings Json.
Open Scope Z_scope.

(** ** Searching and cutting *)

Fixpoint IndexByte (s : string) (c : ascii) : option nat :=
  match s with
  | "" => None
  | String d s => if Ascii.eqb d c then Some 0%nat else option_map S (IndexByte s c)
  end.

Fixpoint LastIndexByte (s : string) (c : ascii) : option nat :=
  match s with
  | "" => None
  | String d s =>
    match LastIndexByte s c with
    | Some i => Some (S i)
    | None => if Ascii.eqb d c then Some 0%nat else None
    end
  end.

(** [strings.Index] *)
Fixpoint Index (s p : string) : option nat :=
  if HasPrefix s p then Some 0%nat
  else match s with "" => None | String _ s => option_map S (Index s p) end.

(** [strings.LastIndex] *)
Fixpoint LastIndex (s p : string) : option nat :=
  match s with
  | "" => if HasPrefix "" p then Some 0%nat else None
  | String _ s' =>
    match LastIndex s' p with
    | Some i => Some (S i)
    | None => if HasPrefix s p then Some 0%nat else None
    end
  end.

(** The encodings of the runes of a string, an invalid byte by itself. *)
Fixpoint rune_chunks (s : string) : list string :=
  match s with
  | "" => []
  | String a s1 =>
    let alone (_ : unit) := String a "" :: rune_chunks s1 in
    if (code a <? 128)%N then alone tt
    else if in_range 194 223 (code a) then
      match s1 with
      | String b s2 => if cont b then String a (String b "") :: rune_chunks s2 else alone tt
      | "" => alone tt
      end
    else if in_range 224 239 (code a) then
      match s1 with
      | String b (String c s3) =>
        if second3 a b && cont c then String a (String b (String c "")) :: rune_chunks s3 else alone tt
      | _ => alone tt
      end
    else if in_range 240 244 (code a) then
      match s1 with
      | String b (String c (String d s4)) =>
        if second4 a b && cont c && cont d then String a (String b (String c (String d ""))) :: rune_chunks s4 else alone tt
      | _ => alone tt
      end
    else alone tt
  end.

Fixpoint concat_chunks (l : list string) : string :=
  match l with [] => "" | c :: l => c +:+ concat_chunks l end.

Fixpoint drop_while {A} (p : A -> bool) (l : list A) : list A :=
  match l with [] => [] | x :: l' => if p x then drop_while p l' else l end.

(** [strings.TrimRight] with the runes of [cutset]. *)
Definition TrimRight (s cutset : string) : string :=
  concat_chunks (rev (drop_while (fun c => string_in c (rune_chunks cutset)) (rev (rune_chunks s)))).

(** [strings.LastIndexAny]: where the last rune of [chars] starts. *)
Fixpoint last_index_any (set chunks : list string) (offset : nat) (found : option nat) : option nat :=
  match chunks with
  | [] => found
  | c :: chunks => last_index_any set chunks (offset + String.length c) (if string_in c set then Some offset else found)
  end.
Definition LastIndexAny (s chars : string) : option nat := last_index_any (rune_chunks chars) (rune_chunks s) 0 None.

(** [s[i:j]]; [None] is the run-time panic of a slice out of range. *)
Definition slice_bytes (s : string) (i j : nat) : option string :=
  if (i <=? j)%nat && (j <=? String.length s)%nat then Some (take_bytes (j - i) (drop_bytes i s)) else None.

(** [strings.Cut] at a one-byte separator. *)
Fixpoint Cut (s : string) (c : ascii) : option (string * string) :=
  match s with
  | "" => None
  | String d s =>
    if Ascii.eqb d c then Some ("", s)
    else match Cut s c with Some (a, b) => Some (String d a, b) | None => None end
  end.

Definition TrimPrefix (s p : string) : string :=
  if HasPrefix s p then drop_bytes (String.length p) s else s.

(** [strings.ReplaceAll] of one byte by another. *)
Definition replace_byte (a b : ascii) (s : string) : string :=
  map_bytes (fun c => if Ascii.eqb c a then b else c) s.

(** ** [strings.Fields] *)

(** The space rune at the front of [s], if any: what follows it. *)
Definition eat_space (s : string) : option string :=
  match s with
  | "" => None
  | String a s1 =>
    if space1 a then Some s1
    else match s1 with
         | String b s2 =>
           if space2 a b then Some s2
           else match s2 with
                | String c s3 => if space3 a b c then Some s3 else None
                | "" => None
                end
         | "" => None
         end
  end.

(** [fuel] bounds the bytes left to read. *)
Fixpoint fields_from (fuel : nat) (s cur : string) : list string :=
  let flush (rest : list string) := if String.eqb cur "" then rest else string_rev cur :: rest in
  match fuel with
  | 0%nat => flush []
  | S fuel =>
    match eat_space s with
    | Some s' => flush (fields_from fuel s' "")
    | None => match s with
              | "" => flush []
              | String c s' => fields_from fuel s' (String c cur)
              end
    end
  end.

Definition Fields (s : string) : list string := fields_from (S (String.length s)) s "".

(** ** [bufio.Scanner] over the lines of a text *)

Definition drop_cr (line : string) : string := TrimSuffix line (String (chr 13) "").

(** [strings.Split] leaves one empty piece after a final newline, which the
    scanner does not report. *)
Fixpoint without_last_empty (l : list string) : list string :=
  match l with
  | [] => []
  | [x] => if String.eqb x "" then [] else [x]
  | x :: l => x :: without_last_empty l
  end.

(** The lines up to the first one of 64 KiB or more, and whether such a
    line stopped the scan. *)
Fixpoint scan (l : list string) : list string * bool :=
  match l with
  | [] => ([], false)
  | x :: l =>
    if (65536 <=? Z.of_nat (String.length x)) then ([], true)
    else let '(out, long) := scan l in (drop_cr x :: out, long)
  end.

Definition newline : ascii := chr 10.
Definition Lines (s : string) : list string * bool := scan (without_last_empty (Split newline s)).

(** ** [strconv] *)

Definition max_uint64 : Z := 18446744073709551615.
Definition max_int64 : Z := 9223372036854775807.
Definition wrap64 (n : Z) : Z := Z.land n max_uint64.

Lemma wrap64_mod n : wrap64 n = n mod 18446744073709551616.
Proof. unfold wrap64. change max_uint64 with (Z.ones 64). rewrite Z.land_ones by lia. done. Qed.

Lemma wrap64_bounds n : 0 <= wrap64 n <= max_uint64.
Proof. rewrite wrap64_mod. unfold max_uint64. pose proof (Z.mod_pos_bound n 18446744073709551616). lia. Qed.

Lemma wrap64_id n : 0 <= n <= max_uint64 -> wrap64 n = n.
Proof. rewrite wrap64_mod. unfold max_uint64. intros Hn. apply Z.mod_small. lia. Qed.

Definition digit (c : ascii) : option Z :=
  if in_range 48 57 (code c) then Some (Z.of_N (code c) - 48) else None.

Fixpoint digits_from (acc : Z) (s : string) : option Z :=
  match s with
  | "" => Some acc
  | String c s => match digit c with Some d => digits_from (acc * 10 + d) s | None => None end
  end.

Definition digits (s : string) : option Z := if String.eqb s "" then None else digits_from 0 s.

Definition syntax_error : error := EMsg "strconv: invalid syntax".
Definition range_error : error := EMsg "strconv: value out of range".

(** [strconv.ParseUint(s, 10, 64)] *)
Definition ParseUint (s : string) : result Z :=
  match digits s with
  | None => Err syntax_error
  | Some n => if max_uint64 <? n then Err range_error else Ok n
  end.

(** [strconv.ParseInt(s, 10, 64)], which is [strconv.Atoi] on 64 bits. *)
Definition Atoi (s : string) : result Z :=
  let parse (neg : bool) (t : string) : result Z :=
    match digits t with
    | None => Err syntax_error
    | Some n =>
      if neg then (if max_int64 + 1 <? n then Err range_error else Ok (- n))
      else (if max_int64 <? n then Err range_error else Ok n)
    end in
  match s with
  | "" => Err syntax_error
  | String c t =>
    if Ascii.eqb c "-" then parse true t
    else if Ascii.eqb c "+" then parse false t
    else parse false s
  end.

Definition hex_digit (c : ascii) : option Z :=
  if in_range 48 57 (code c) then Some (Z.of_N (code c) - 48)
  else if in_range 97 102 (code c) then Some (Z.of_N (code c) - 87)
  else if in_range 65 70 (code c) then Some (Z.of_N (code c) - 55) else None.

Fixpoint hex_from (acc : Z) (s : string) : option Z :=
  match s with
  | "" => Some acc
  | String c s => match hex_digit c with Some d => hex_from (acc * 16 + d) s | None => None end
  end.

(** [strconv.ParseInt(s, 16, 32)] of an unsigned text (a sign is not
    printed by the kernel; a leading one is treated as in the code). *)
Definition ParseHex32 (s : string) : result Z :=
  let parse (neg : bool) (t : string) : result Z :=
    match (if String.eqb t "" then None else hex_from 0 t) with
    | None => Err syntax_error
    | Some n =>
      if neg then (if 2147483648 <? n then Err range_error else Ok (- n))
      else (if 2147483647 <? n then Err range_error else Ok n)
    end in
  match s with
  | "" => Err syntax_error
  | String c t =>
    if Ascii.eqb c "-" then parse true t
    else if Ascii.eqb c "+" then parse false t
    else parse false s
  end.

(** [slices.Contains]-style word tests: [strings.Contains] is in
    [GoStrings]; a byte set over a text is: *)
Definition word_byte (extra : list ascii) (c : ascii) : bool :=
  in_range 48 57 (code c) || in_range 65 90 (code c) || in_range 97 122 (code c)
  || existsb (Ascii.eqb c) extra.

(** ** Lemmas *)

Lemma IndexByte_app s c t :
  all_bytes (fun d => negb (Ascii.eqb d c)) s = true ->
  IndexByte (s +:+ String c t) c = Some (String.length s).
Proof.
  induction s as [|d s IH]; cbn; [by rewrite Ascii.eqb_refl|].
  rewrite andb_true_iff, negb_true_iff. intros [-> H]. by rewrite IH.
Qed.

Lemma LastIndexByte_none s c :
  all_bytes (fun d => negb (Ascii.eqb d c)) s = true -> LastIndexByte s c = None.
Proof.
  induction s as [|d s IH]; cbn; [done|]. rewrite andb_true_iff, negb_true_iff.
  intros [-> H]. by rewrite IH.
Qed.

Lemma LastIndexByte_app s c t :
  all_bytes (fun d => negb (Ascii.eqb d c)) t = true ->
  LastIndexByte (s +:+ String c t) c = Some (String.length s).
Proof.
  intros H. induction s as [|d s IH]; cbn.
  - by rewrite (LastIndexByte_none t c H), Ascii.eqb_refl.
  - by rewrite IH.
Qed.

Lemma drop_bytes_app s t : drop_bytes (String.length s) (s +:+ t) = t.
Proof. by induction s. Qed.

Lemma take_bytes_app s t : take_bytes (String.length s) (s +:+ t) = s.
Proof. induction s as [|c s IH]; cbn; [by destruct t|by rewrite IH]. Qed.

Lemma take_bytes_all s : take_bytes (String.length s) s = s.
Proof. rewrite <- (string_app_nil_r s) at 2. apply take_bytes_app. Qed.

(** Reading words separated by single spaces. *)
Lemma eat_space_plain c s : plain1 c = true -> eat_space (String c s) = None.
Proof.
  intros H. apply plain_not_space in H as (H1&H2&_&H3&_). unfold eat_space. rewrite H1.
  destruct s as [|b s]; [done|]. rewrite H2. destruct s as [|d s]; [done|]. by rewrite H3.
Qed.

Lemma fields_word w s cur fuel :
  all_bytes plain1 w = true -> (String.length w <= fuel)%nat ->
  fields_from fuel (w +:+ s) cur = fields_from (fuel - String.length w) s (string_rev w +:+ cur).
Proof.
  revert cur fuel. induction w as [|c w IH]; intros cur fuel; cbn [all_bytes String.length].
  - intros _ _. by rewrite Nat.sub_0_r.
  - rewrite andb_true_iff. intros [Hc Hw] Hl. destruct fuel as [|fuel]; [lia|].
    rewrite string_app_cons. cbn [fields_from]. rewrite eat_space_plain by done.
    rewrite IH by (done || lia). cbn [Nat.sub]. by rewrite string_rev_cons, string_app_assoc.
Qed.

Definition word (w : string) : Prop := w <> "" /\ all_bytes plain1 w = true.

Lemma string_rev_nil w : string_rev w = "" -> w = "".
Proof. intros H. apply (f_equal string_rev) in H. by rewrite string_rev_involutive in H. Qed.

Lemma fields_from_words ws fuel :
  Forall word ws -> (String.length (Join ws " ") < fuel)%nat ->
  fields_from fuel (Join ws " ") "" = ws.
Proof.
  revert fuel. induction ws as [|w [|v ws] IH]; intros fuel HF Hl.
  - by destruct fuel.
  - inversion HF as [|? ? [Hne Hp]]; subst. change (Join [w] " ") with w in *.
    rewrite <- (string_app_nil_r w) at 1. rewrite fields_word by (done || lia).
    rewrite string_app_nil_r. destruct (fuel - String.length w)%nat as [|k] eqn:Ek; [lia|].
    cbn [fields_from eat_space]. destruct (String.eqb_spec (string_rev w) "") as [E|_].
    + by apply string_rev_nil in E.
    + by rewrite string_rev_involutive.
  - inversion HF as [|? ? [Hne Hp] HF']; subst.
    change (Join (w :: v :: ws) " ") with (w +:+ String " " (Join (v :: ws) " ")) in *.
    rewrite string_length_app in Hl. cbn [String.length] in Hl.
    rewrite fields_word by (done || lia). rewrite string_app_nil_r.
    destruct (fuel - String.length w)%nat as [|k] eqn:Ek; [lia|].
    cbn [fields_from]. change (eat_space (String " " (Join (v :: ws) " "))) with (Some (Join (v :: ws) " ")).
    cbn iota. destruct (String.eqb_spec (string_rev w) "") as [E|_]; [by apply string_rev_nil in E|].
    rewrite string_rev_involutive. f_equal. apply IH; [done|lia].
Qed.

(** [Fields] undoes [Join] on words. *)
Lemma Fields_Join ws : Forall word ws -> Fields (Join ws " ") = ws.
Proof. intros H. apply fields_from_words; [done|lia]. Qed.

(** Printed naturals parse back. *)
Lemma digits_from_app s t acc :
  digits_from acc (s +:+ t) = match digits_from acc s with Some a => digits_from a t | None => None end.
Proof. revert acc. induction s as [|c s IH]; intros acc; cbn; [done|]. by destruct (digit c). Qed.

Lemma digits_from_pos l acc :
  digits_from (Zpos acc) (NilEmpty.string_of_uint l) = Some (Zpos (Pos.of_uint_acc l acc)).
Proof.
  revert acc. induction l as [|l IH|l IH|l IH|l IH|l IH|l IH|l IH|l IH|l IH|l IH]; intros acc; [done|..];
    cbn [NilEmpty.string_of_uint digits_from]; 
    match goal with |- context [digit ?c] => let v := eval vm_compute in (digit c) in change (digit c) with v end;
    cbn iota; cbn [Pos.of_uint_acc];
    match goal with |- digits_from ?x _ = Some (Zpos (Pos.of_uint_acc _ ?y)) =>
      replace x with (Zpos y) by lia end; apply IH.
Qed.

Lemma digits_from_uint l : digits_from 0 (NilEmpty.string_of_uint l) = Some (Z.of_N (Pos.of_uint l)).
Proof.
  induction l as [|l IH|l IH|l IH|l IH|l IH|l IH|l IH|l IH|l IH|l IH]; [done|exact IH|..];
    exact (digits_from_pos l _).
Qed.

Lemma digits_show_Z n : 0 <= n -> digits (show_Z n) = Some n.
Proof.
  intros Hn. unfold show_Z, digits.
  destruct (Z.to_int n) as [u|u] eqn:E; [|by destruct n].
  assert (Eu : Z.of_N (Pos.of_uint u) = n).
  { pose proof (DecimalZ.of_to n) as H. rewrite E in H. exact H. }
  unfold NilZero.string_of_int, NilZero.string_of_uint. clear E.
  pose proof (digits_from_uint u) as Hd. rewrite Eu in Hd.
  destruct u as [|l|l|l|l|l|l|l|l|l|l]; [by subst|exact Hd..].
Qed.

Lemma ParseUint_show n : 0 <= n <= max_uint64 -> ParseUint (show_Z n) = Ok n.
Proof. intros H. unfold ParseUint. rewrite digits_show_Z by lia. by rewrite (proj2 (Z.ltb_ge _ _)) by lia. Qed.

Lemma digit_plain c d : digit c = Some d -> plain1 c = true /\ c <> "-"%char /\ c <> "+"%char.
Proof. destruct c as [[][][][][][][][]]; cbn; intros [= <-]; done. Qed.

Lemma digits_from_plain s acc n : digits_from acc s = Some n -> all_bytes plain1 s = true.
Proof.
  revert acc. induction s as [|c s IH]; intros acc; cbn -[plain1 digit]; [done|].
  destruct (digit c) as [d|] eqn:Ed; [|done]. intros H. apply digit_plain in Ed as [-> _]. eauto.
Qed.

Lemma show_nat_word n : 0 <= n -> word (show_Z n).
Proof.
  intros Hn. pose proof (digits_show_Z n Hn) as H. unfold digits in H.
  destruct (String.eqb_spec (show_Z n) "") as [|Hne]; [done|]. split; [done|]. by eapply digits_from_plain.
Qed.

Lemma Atoi_show n : 0 <= n <= max_int64 -> Atoi (show_Z n) = Ok n.
Proof.
  intros Hn. pose proof (digits_show_Z n ltac:(lia)) as H. unfold Atoi.
  destruct (show_Z n) as [|c t] eqn:Es; [done|].
  assert (Hc : exists d, digit c = Some d).
  { unfold digits in H. cbn -[digit] in H. destruct (digit c) as [d|]; [by exists d|done]. }
  destruct Hc as [d Hd]. apply digit_plain in Hd as (_&H1&H2).
  destruct (Ascii.eqb_spec c "-"); [done|]. destruct (Ascii.eqb_spec c "+"); [done|].
  rewrite H. by rewrite (proj2 (Z.ltb_ge _ _)) by lia.
Qed.

Lemma show_Z_opp n : 0 < n -> show_Z (- n) = String "-" (show_Z n).
Proof. intros Hn. destruct n as [|p|p]; [done| |done]. reflexivity. Qed.

Lemma Atoi_show_Z n : - max_int64 - 1 <= n <= max_int64 -> Atoi (show_Z n) = Ok n.
Proof.
  intros Hn. destruct (Z_lt_ge_dec n 0) as [Hneg|]; [|apply Atoi_show; lia].
  replace n with (- (- n)) at 1 by lia. rewrite show_Z_opp by lia. unfold Atoi. cbv beta iota zeta.
  change (Ascii.eqb "-" "-") with true. cbv iota. rewrite digits_show_Z by lia.
  rewrite (proj2 (Z.ltb_ge _ _)) by lia. f_equal. lia.
Qed.

Lemma Index_some s p i : Index s p = Some i -> exists a b, s = a +:+ p +:+ b /\ String.length a = i.
Proof.
  revert i. induction s as [|c s IH]; intros i; cbn [Index].
  - destruct (HasPrefix "" p) eqn:E; [|done]. intros [= <-]. apply HasPrefix_spec in E as [t E].
    exists "", t. by split.
  - destruct (HasPrefix (String c s) p) eqn:E.
    + intros [= <-]. apply HasPrefix_spec in E as [t E]. exists "", t. by split.
    + destruct (Index s p) as [j|]; [|done]. intros [= <-]. destruct (IH j eq_refl) as (a&b&->&<-).
      exists (String c a), b. by split.
Qed.

(** The first occurrence is not behind another. *)
Lemma Index_first a p b : exists i, Index (a +:+ p +:+ b) p = Some i /\ (i <= String.length a)%nat.
Proof.
  induction a as [|c a IH]; cbn [String.append].
  - exists 0%nat. assert (E : HasPrefix (p +:+ b) p = true) by (apply HasPrefix_spec; eauto).
    split; [|done]. destruct (p +:+ b); cbn [Index]; by rewrite E.
  - cbn [Index]. destruct (HasPrefix _ p); [exists 0%nat; split; [done|lia]|].
    destruct IH as (i&->&Hi). exists (S i). split; [done|]. cbn. lia.
Qed.

Lemma take_drop n s : s = take_bytes n s +:+ drop_bytes n s.
Proof. revert s. induction n as [|n IH]; intros [|c s]; try done. cbn. by rewrite <- IH. Qed.

Lemma take_drop_at a b n : String.length a = n -> take_bytes n (a +:+ b) = a /\ drop_bytes n (a +:+ b) = b.
Proof. intros <-. split; [apply take_bytes_app|apply drop_bytes_app]. Qed.

Lemma Index_none s p : Index s p = None -> Contains s p = false.
Proof.
  induction s as [|c s IH]; cbn [Index Contains].
  - by destruct (HasPrefix "" p).
  - destruct (HasPrefix (String c s) p); [done|]. destruct (Index s p); [done|]. intros _. by apply IH.
Qed.

Lemma map_bytes_app f a b : map_bytes f (a +:+ b) = map_bytes f a +:+ map_bytes f b.
Proof. induction a as [|c a IH]; [done|]. cbn. by rewrite IH. Qed.

Lemma map_bytes_length f s : String.length (map_bytes f s) = String.length s.
Proof. induction s; cbn; auto. Qed.

(** Split a byte-wise image as its pieces. *)
Lemma map_bytes_split f s a b :
  map_bytes f s = a +:+ b -> exists a' b', s = a' +:+ b' /\ map_bytes f a' = a /\ map_bytes f b' = b.
Proof.
  revert s. induction a as [|c a IH]; intros s H.
  - by exists "", s.
  - destruct s as [|d s]; [done|]. cbn in H. injection H as Hc H.
    destruct (IH s H) as (a'&b'&->&<-&<-). exists (String d a'), b'. split_and!; [done| |done].
    cbn. by rewrite Hc.
Qed.

Lemma slice_bytes_app a b : slice_bytes (a +:+ b) 0 (String.length a) = Some a.
Proof.
  unfold slice_bytes. rewrite string_length_app.
  rewrite (proj2 (Nat.leb_le (String.length a) _)) by lia. cbn [Nat.leb andb drop_bytes].
  by rewrite Nat.sub_0_r, take_bytes_app.
Qed.
