(* ===== verification/Unicode.v ===== *)
(** * [unicode] and [strconv.Quote]

    The classes of characters the program asks for, with the tables above
    ASCII as a parameter, and the quotation of [%q]. *)

From S2P Require Import Prelude GoStrings GoText Json.
Open Scope Z_scope.

(** ** Characters *)

(** [unicode.IsLetter], [unicode.IsNumber] and [unicode.IsPrint] above
    ASCII. *)
Class UnicodeClass := {
  uni_letter : N -> bool;
  uni_number : N -> bool;
  uni_print : N -> bool
}.

Definition is_letter `{UnicodeClass} (r : N) : bool :=
  if (r <? 128)%N then in_range 65 90 r || in_range 97 122 r else uni_letter r.
Definition is_number `{UnicodeClass} (r : N) : bool :=
  if (r <? 128)%N then in_range 48 57 r else uni_number r.
Definition is_print `{UnicodeClass} (r : N) : bool :=
  if (r <? 128)%N then in_range 32 126 r else uni_print r.

(** [strconv.Quote] ([%q]), a rune at a time. *)
Definition hex_of (digits : nat) (r : N) : string :=
  concat_chunks (map (fun i => String (hex_digit (N.shiftr r (4 * N.of_nat (digits - 1 - i)) mod 16)) "") (seq 0 digits)).

Definition quote_chunk `{UnicodeClass} (chunk : string) : string :=
  match chunk with
  | String c "" =>
    let n := code c in
    if Ascii.eqb c dquote || Ascii.eqb c bslash then String bslash chunk
    else if in_range 32 126 n then chunk
    else if (n =? 7)%N then String bslash "a"
    else if (n =? 8)%N then String bslash "b"
    else if (n =? 12)%N then String bslash "f"
    else if (n =? 10)%N then String bslash "n"
    else if (n =? 13)%N then String bslash "r"
    else if (n =? 9)%N then String bslash "t"
    else if (n =? 11)%N then String bslash "v"
    else String bslash (String "x" (hex_of 2 n))
  | _ =>
    let r := hd RuneError (runes chunk) in
    if is_print r then chunk
    else if (r <? 65536)%N then String bslash (String "u" (hex_of 4 r))
    else String bslash (String "U" (hex_of 8 r))
  end.

Definition Quote `{UnicodeClass} (s : string) : string :=
  String dquote (concat_chunks (map quote_chunk (rune_chunks s)) +:+ String dquote "").
