(* ===== verification/Regex.v ===== *)
(** * [regexp]: the expressions the program matches text with

    A greedy, leftmost-first matcher over runes, as the documentation of
    [regexp] (RE2 syntax, Perl-like preference) defines the match: [mt] tries
    the alternatives in their order and carries what is left of the expression
    as its continuation.  [matches] is the language of an expression;
    [find_sound] and [find_none] say that the matcher finds a match exactly
    when there is one, and the leftmost. *)

From S2P Require Import Prelude GoStrings GoText.
Open Scope nat_scope.

Inductive re :=
  | Eps
  | Chr (p : N -> bool)
  | Cat (a b : re)
  | Alt (a b : re)
  | Star (a : re)
  | Group (g : nat) (a : re)
  | Bol
  | Eol
  | Wordb.

Definition Caps := list (nat * (nat * nat)).

Definition word_rune (n : N) : bool := in_range 48 57 n || in_range 65 90 n || in_range 97 122 n || (n =? 95)%N.

Section Match.
Context (text : list N).

Definition word_at (i : nat) : bool := match text !! i with Some x => word_rune x | None => false end.
Definition boundary (i : nat) : bool :=
  negb (Bool.eqb (match i with 0 => false | S j => word_at j end) (word_at i)).

Section Try.
Context {A : Type}.

Fixpoint mt (r : re) (i : nat) (c : Caps) (k : nat -> Caps -> option A) : option A :=
  match r with
  | Eps => k i c
  | Chr p => match text !! i with Some x => if p x then k (S i) c else None | None => None end
  | Cat a b => mt a i c (fun j c => mt b j c k)
  | Alt a b => match mt a i c k with Some x => Some x | None => mt b i c k end
  | Star a =>
    (fix loop (n i : nat) (c : Caps) : option A :=
       match n with
       | 0 => k i c
       | S n =>
         match mt a i c (fun j c => if j <=? i then None else loop n j c) with
         | Some x => Some x
         | None => k i c
         end
       end) (length text - i) i c
  | Group g a => mt a i c (fun j c => k j ((g, (i, j)) :: c))
  | Bol => if i =? 0 then k i c else None
  | Eol => if i =? length text then k i c else None
  | Wordb => if boundary i then k i c else None
  end.
End Try.

(** The match that starts at [i]: its end and its groups. *)
Definition match_at (r : re) (i : nat) : option (nat * Caps) := mt r i [] (fun j c => Some (j, c)).

(** The leftmost match that starts at [i] or in the [n] runes after it. *)
Fixpoint search (r : re) (n i : nat) : option (nat * (nat * Caps)) :=
  match match_at r i with
  | Some m => Some (i, m)
  | None => match n with 0 => None | S n => search r n (S i) end
  end.

Definition find_from (r : re) (i : nat) : option (nat * (nat * Caps)) :=
  if i <=? length text then search r (length text - i) i else None.

(** The matches from left to right that do not overlap. *)
Fixpoint find_all (r : re) (fuel i : nat) : list (nat * (nat * Caps)) :=
  match fuel with
  | 0 => []
  | S fuel =>
    match find_from r i with
    | None => []
    | Some (a, (b, c)) => (a, (b, c)) :: find_all r fuel (if b <=? a then S b else b)
    end
  end.

(** ** The language of an expression *)
Inductive matches : re -> nat -> nat -> Prop :=
  | m_eps i : i <= length text -> matches Eps i i
  | m_chr p i x : text !! i = Some x -> p x = true -> matches (Chr p) i (S i)
  | m_cat a b i j l : matches a i j -> matches b j l -> matches (Cat a b) i l
  | m_left a b i j : matches a i j -> matches (Alt a b) i j
  | m_right a b i j : matches b i j -> matches (Alt a b) i j
  | m_stop a i : i <= length text -> matches (Star a) i i
  | m_again a i j l : matches a i j -> matches (Star a) j l -> matches (Star a) i l
  | m_group g a i j : matches a i j -> matches (Group g a) i j
  | m_bol : matches Bol 0 0
  | m_eol : matches Eol (length text) (length text)
  | m_wordb i : i <= length text -> boundary i = true -> matches Wordb i i.

Lemma matches_le r i j : matches r i j -> i <= j /\ j <= length text.
Proof.
  induction 1; try lia.
  apply lookup_lt_Some in H. lia.
Qed.

(** A repetition can leave out the rounds that match nothing. *)
Inductive rounds (a : re) : nat -> nat -> Prop :=
  | r_stop i : i <= length text -> rounds a i i
  | r_again i j l : matches a i j -> i < j -> rounds a j l -> rounds a i l.

Lemma star_rounds a i j : matches (Star a) i j -> rounds a i j.
Proof.
  remember (Star a) as r eqn:Er. induction 1; inversion Er; subst; [by constructor|].
  pose proof (matches_le _ _ _ H) as [Hle _].
  destruct (Nat.eq_dec i j) as [->|Hne]; [by apply IHmatches2|].
  econstructor; [exact H|lia|by apply IHmatches2].
Qed.

Lemma rounds_star a i j : rounds a i j -> matches (Star a) i j.
Proof. induction 1; [by constructor|by econstructor]. Qed.

(** Whether a continuation accepts must not depend on the groups. *)
Definition steady {A} (k : nat -> Caps -> option A) : Prop :=
  forall j c c', j <= length text -> is_Some (k j c) -> is_Some (k j c').

(** The matcher finds a way through the expression after which the
    continuation accepts, and finds one when there is one. *)
Definition right {A} (r : re) (k : nat -> Caps -> option A) (i : nat) (c : Caps) (o : option A) : Prop :=
  (forall x, o = Some x -> exists j c', matches r i j /\ k j c' = Some x) /\
  (forall j c', matches r i j -> is_Some (k j c') -> is_Some o).

Definition correct (r : re) : Prop :=
  forall A i c (k : nat -> Caps -> option A), i <= length text -> steady k -> right r k i c (mt r i c k).

Lemma correct_steady {A} r (k : nat -> Caps -> option A) : correct r -> steady k -> steady (fun i c => mt r i c k).
Proof.
  intros Hr Hk i c c' Hi [x Hx]. destruct (Hr A i c k Hi Hk) as [H1 _]. destruct (H1 x Hx) as (j&c2&Hm&Hy).
  destruct (Hr A i c' k Hi Hk) as [_ H2]. eapply H2; [exact Hm|by rewrite Hy].
Qed.

Lemma correct_cat a b : correct a -> correct b -> correct (Cat a b).
Proof.
  intros Ha Hb A i c k Hi Hk. cbn [mt]. destruct (Ha A i c _ Hi (correct_steady b k Hb Hk)) as [H1 H2]. split.
  - intros x Hx. destruct (H1 x Hx) as (j&c1&Hm&Hx'). pose proof (matches_le _ _ _ Hm) as [_ Hj].
    destruct (Hb A j c1 k Hj Hk) as [H3 _]. destruct (H3 x Hx') as (l&c2&Hm'&Hk'). exists l, c2. split; [by econstructor|done].
  - intros j c' Hm Hs. inversion Hm as [| |? ? ? m ? Hma Hmb| | | | | | | |]; subst.
    pose proof (matches_le _ _ _ Hma) as [_ Hj]. apply (H2 m c' Hma). destruct (Hb A m c' k Hj Hk) as [_ H4]. by eapply H4.
Qed.

Lemma correct_alt a b : correct a -> correct b -> correct (Alt a b).
Proof.
  intros Ha Hb A i c k Hi Hk. cbn [mt]. destruct (Ha A i c k Hi Hk) as [H1 H2], (Hb A i c k Hi Hk) as [H3 H4]. split.
  - intros x Hx. destruct (mt a i c k) eqn:E.
    + injection Hx as ->. destruct (H1 x eq_refl) as (j&c'&Hm&Hy). exists j, c'. split; [by apply m_left|done].
    + destruct (H3 x Hx) as (j&c'&Hm&Hy). exists j, c'. split; [by apply m_right|done].
  - intros j c' Hm Hs. destruct (mt a i c k) eqn:E; [done|]. inversion Hm; subst; [|by eapply H4].
    exfalso. destruct (H2 j c') as [y Hy]; done.
Qed.

Definition loop {A} (a : re) (k : nat -> Caps -> option A) : nat -> nat -> Caps -> option A :=
  fix loop (n i : nat) (c : Caps) : option A :=
    match n with
    | 0 => k i c
    | S n => match mt a i c (fun j c => if j <=? i then None else loop n j c) with Some x => Some x | None => k i c end
    end.

Lemma loop_right {A} a (k : nat -> Caps -> option A) : correct a -> steady k ->
  forall n i c, i <= length text -> length text - i <= n ->
    (forall x, loop a k n i c = Some x -> exists j c', rounds a i j /\ k j c' = Some x) /\
    (forall j c', rounds a i j -> is_Some (k j c') -> is_Some (loop a k n i c)).
Proof.
  intros Ha Hk. induction n as [|n IH]; intros i c Hi Hn; cbn [loop].
  { split; [intros x Hx; exists i, c; split; [by constructor|done]|]. intros j c' Hr Hs. destruct Hr as [|i j l Hm Hlt _].
    - by eapply Hk.
    - pose proof (matches_le _ _ _ Hm). lia. }
  assert (Hst : steady (fun j c => if j <=? i then None else loop a k n j c)).
  { intros j c1 c2 Hj Hs. destruct (Nat.leb_spec j i); [done|]. destruct (IH j c1 Hj) as [H1 _]; [lia|].
    destruct (IH j c2 Hj) as [_ H2]; [lia|]. destruct Hs as [x Hx]. destruct (H1 x Hx) as (l&c3&Hr&Hy).
    eapply H2; [exact Hr|by rewrite Hy]. }
  destruct (Ha A i c _ Hi Hst) as [H1 H2]. split.
  - intros x Hx. destruct (mt a i c _) eqn:E.
    + injection Hx as ->. destruct (H1 x eq_refl) as (j&c'&Hm&Hy). destruct (Nat.leb_spec j i); [done|].
      pose proof (matches_le _ _ _ Hm). destruct (IH j c') as [H3 _]; [lia..|].
      destruct (H3 x Hy) as (l&c2&Hr&Hz). exists l, c2. split; [by econstructor|done].
    + exists i, c. split; [by constructor|done].
  - intros j c' Hr Hs. destruct (mt a i c _) eqn:E; [done|]. destruct Hr as [|i j l Hm Hlt Hr]; [by eapply Hk|].
    exfalso. pose proof (matches_le _ _ _ Hm). destruct (H2 j c' Hm) as [y Hy]; [|done].
    destruct (Nat.leb_spec j i); [lia|]. destruct (IH j c') as [_ H4]; [lia..|]. by eapply H4.
Qed.

Lemma correct_star a : correct a -> correct (Star a).
Proof.
  intros Ha A i c k Hi Hk. change (mt (Star a) i c k) with (loop a k (length text - i) i c).
  destruct (loop_right a k Ha Hk (length text - i) i c Hi) as [H1 H2]; [done|]. split.
  - intros x Hx. destruct (H1 x Hx) as (j&c'&Hr&Hy). exists j, c'. split; [by apply rounds_star|done].
  - intros j c' Hm. by apply H2, star_rounds.
Qed.

Theorem mt_correct r : correct r.
Proof.
  induction r as [|p|a IHa b IHb|a IHa b IHb|a IHa|g a IHa| | |];
    [|  |by apply correct_cat|by apply correct_alt|by apply correct_star| | | |];
    intros A i c k Hi Hk; cbn [mt].
  - split; [intros x Hx; exists i, c; split; [by constructor|done]|]. intros j c' Hm. inversion Hm; subst. by apply Hk.
  - split.
    + intros x Hx. destruct (text !! i) as [y|] eqn:Ey; [|done]. destruct (p y) eqn:Ep; [|done].
      exists (S i), c. split; [by econstructor|done].
    + intros j c' Hm. inversion Hm as [|? ? y Hy Hp| | | | | | | | |]; subst. rewrite Hy, Hp. apply Hk.
      apply lookup_lt_Some in Hy. lia.
  - assert (Hst : steady (fun j c => k j ((g, (i, j)) :: c))) by (intros j c1 c2 Hj; by apply Hk).
    destruct (IHa A i c _ Hi Hst) as [H1 H2]. split.
    + intros x Hx. destruct (H1 x Hx) as (j&c'&Hm&Hy). exists j, ((g, (i, j)) :: c'). split; [by constructor|done].
    + intros j c' Hm Hs. inversion Hm; subst. pose proof (matches_le _ _ _ Hm) as [_ Hj].
      apply (H2 j c'); [done|]. by eapply Hk; [|exact Hs].
  - split; [intros x Hx|intros j c' Hm]; destruct (Nat.eqb_spec i 0) as [->|].
    + exists 0, c. split; [constructor|done].
    + done.
    + inversion Hm; subst. by apply Hk.
    + inversion Hm; subst. done.
  - split; [intros x Hx|intros j c' Hm]; destruct (Nat.eqb_spec i (length text)) as [->|].
    + exists (length text), c. split; [constructor|done].
    + done.
    + inversion Hm; subst. by apply Hk.
    + inversion Hm; subst. done.
  - split; [intros x Hx|intros j c' Hm]; destruct (boundary i) eqn:Eb.
    + exists i, c. split; [by constructor|done].
    + done.
    + inversion Hm; subst. by apply Hk.
    + inversion Hm; subst. congruence.
Qed.

Lemma match_at_spec r i : i <= length text ->
  (forall j c, match_at r i = Some (j, c) -> matches r i j) /\ (match_at r i = None -> forall j, ~ matches r i j).
Proof.
  intros Hi. unfold match_at. destruct (mt_correct r _ i [] (fun j c => Some (j, c)) Hi) as [H1 H2]; [by eexists|]. split.
  - intros j c Hm. destruct (H1 _ Hm) as (j'&c'&Hr&[= -> ->]). done.
  - intros Hn j Hm. destruct (H2 j [] Hm) as [x Hx]; [by eexists|congruence].
Qed.

Lemma search_spec r n i : i + n <= length text ->
  match search r n i with
  | Some (a, (b, _)) => matches r a b /\ i <= a <= i + n /\ forall a' b', i <= a' < a -> ~ matches r a' b'
  | None => forall a' b', i <= a' <= i + n -> ~ matches r a' b'
  end.
Proof.
  revert i. induction n as [|n IH]; intros i Hn; cbn [search].
  all: destruct (match_at_spec r i) as [H1 H2]; [lia|]; destruct (match_at r i) as [[b c]|].
  - split; [by eapply H1|]. split; [lia|]. intros; lia.
  - intros a' b' Ha. replace a' with i by lia. by apply H2.
  - split; [by eapply H1|]. split; [lia|]. intros; lia.
  - specialize (IH (S i)). destruct (search r n (S i)) as [[a [b c]]|].
    + destruct IH as (Hm&Ha&Hl); [lia|]. split; [done|]. split; [lia|]. intros a' b' Hr.
      destruct (Nat.eq_dec a' i) as [->|]; [by apply H2|apply Hl; lia].
    + intros a' b' Hr. destruct (Nat.eq_dec a' i) as [->|]; [by apply H2|apply IH; lia].
Qed.
End Match.

(** ** On strings *)
Section Strings.
Variable s : string.

(** The bytes of the runes from [i] to [j]. *)
Definition between (i j : nat) : string := concat_chunks (take (j - i) (drop i (rune_chunks s))).

Definition find (r : re) : option (nat * (nat * Caps)) := find_from (runes s) r 0.

Definition MatchString (r : re) : bool := match find r with Some _ => true | None => false end.
Definition FindString (r : re) : string := match find r with Some (i, (j, _)) => between i j | None => "" end.

Fixpoint group_of (g : nat) (c : Caps) : string :=
  match c with
  | [] => ""
  | (h, (i, j)) :: c => if h =? g then between i j else group_of g c
  end.

(** The [g]-th group of the first match, or of every match. *)
Definition FindStringSubmatch (r : re) (g : nat) : option string :=
  match find r with Some (_, (_, c)) => Some (group_of g c) | None => None end.
Definition FindAllStringSubmatch (r : re) (g : nat) : list string :=
  map (fun m => group_of g m.2.2) (find_all (runes s) r (S (length (runes s))) 0).

(** [ReplaceAllString], with the template as a function of the groups. *)
Fixpoint replaced (template : (nat -> string) -> string) (i : nat) (l : list (nat * (nat * Caps))) : string :=
  match l with
  | [] => between i (length (runes s))
  | (a, (b, c)) :: l => between i a +:+ template (fun g => group_of g c) +:+ replaced template b l
  end.
Definition ReplaceAllString (r : re) (template : (nat -> string) -> string) : string :=
  replaced template 0 (find_all (runes s) r (S (length (runes s))) 0).
End Strings.

(** ** Building expressions *)
Definition rune (n : N) : N -> bool := fun x => (x =? n)%N.
Definition one_of (set : string) : N -> bool := fun x => existsb (fun y => (x =? y)%N) (runes set).
Definition none_of (set : string) : N -> bool := fun x => negb (one_of set x).
Definition either (p q : N -> bool) : N -> bool := fun x => p x || q x.
Definition digit_rune (n : N) : bool := in_range 48 57 n.
Definition lower_rune_ (n : N) : bool := in_range 97 122 n.
Definition letter_rune (n : N) : bool := in_range 97 122 n || in_range 65 90 n.

(** [(?i)]: a letter matches what it folds with, the long s and the Kelvin
    sign included. *)
Definition fold_case (p : N -> bool) : N -> bool := fun x =>
  p x || (in_range 65 90 x && p (x + 32)%N) || (in_range 97 122 x && p (x - 32)%N)
  || ((x =? 383)%N && (p 115 || p 83)%N) || ((x =? 8490)%N && (p 107 || p 75)%N).

Definition space_runes : string := String (chr 9) (String (chr 10) (String (chr 12) (String (chr 13) " "))).
Definition newline_rune : string := String (chr 10) "".

Definition cats (l : list re) : re := foldr Cat Eps l.
Definition lit (s : string) : re := cats (map (fun n => Chr (rune n)) (runes s)).
Definition lit_ci (s : string) : re := cats (map (fun n => Chr (fold_case (rune n))) (runes s)).
Fixpoint alts (l : list re) : re := match l with [] => Chr (fun _ => false) | [r] => r | r :: l => Alt r (alts l) end.
Definition any_of (l : list string) : re := alts (map lit l).
Definition opt (r : re) : re := Alt r Eps.
Definition plus (r : re) : re := Cat r (Star r).
Definition blank : re := Chr (one_of space_runes).
Definition blanks : re := Star blank.
Fixpoint times (n : nat) (r : re) : re := match n with 0 => Eps | S n => Cat r (times n r) end.
Fixpoint up_to (n : nat) (r : re) : re := match n with 0 => Eps | S n => opt (Cat r (up_to n r)) end.
(** [r{n,m}] *)
Definition repeat_ (n m : nat) (r : re) : re := Cat (times n r) (up_to (m - n) r).

(** ** What a search says *)
Lemma find_sound s r i j c : find s r = Some (i, (j, c)) ->
  matches (runes s) r i j /\ forall i' j', i' < i -> ~ matches (runes s) r i' j'.
Proof.
  unfold find, find_from. cbn [Nat.leb]. intros Hf.
  pose proof (search_spec (runes s) r (length (runes s) - 0) 0) as H. rewrite Hf in H.
  destruct H as (Hm&_&Hl); [lia|]. split; [done|]. intros i' j' Hi. apply Hl. lia.
Qed.

Lemma find_none s r : find s r = None <-> forall i j, ~ matches (runes s) r i j.
Proof.
  unfold find, find_from. cbn [Nat.leb]. pose proof (search_spec (runes s) r (length (runes s) - 0) 0) as H.
  destruct (search _ _ _ _) as [[i [j c]]|].
  - split; [done|]. intros Hn. destruct H as (Hm&_); [lia|]. by destruct (Hn i j).
  - split; [|done]. intros _ i j Hm. pose proof (matches_le _ _ _ _ Hm). assert (Hb : 0 + (length (runes s) - 0) <= length (runes s)) by lia. apply (H Hb i j); [lia|done].
Qed.

Lemma MatchString_spec s r : MatchString s r = true <-> exists i j, matches (runes s) r i j.
Proof.
  unfold MatchString. destruct (find s r) as [[i [j c]]|] eqn:Hf.
  - split; [|done]. intros _. exists i, j. by eapply find_sound.
  - split; [done|]. intros (i&j&Hm). by destruct (proj1 (find_none s r) Hf i j).
Qed.

Example greedy_leftmost :
  FindString "see /var/log/x.log, /tmp" (Cat (lit "/") (plus (Chr (none_of (space_runes +:+ "，。,;"))))) = "/var/log/x.log" /\
  FindAllStringSubmatch "pid 12, pid 7" (Cat (lit "pid ") (Group 1 (plus (Chr digit_rune)))) 1 = ["12"; "7"] /\
  ReplaceAllString "key=a key=b" (Cat (Group 1 (lit "key=")) (plus (Chr (none_of space_runes)))) (fun g => g 1 +:+ "?")
    = "key=? key=?" /\
  MatchString "restarting" (cats [Wordb; lit "restart"; Wordb]) = false.
Proof. vm_compute. repeat split; reflexivity. Qed.
