(* ===== verification/Platform.v ===== *)
(** * [internal/platform]: reading the operating system

    The parsers of [process.go], [linux.go], [commands.go] and [network.go]
    over the bytes the kernel and [systemctl] produce.  The machine itself
    is the class [Machine]: its operations may fail, read and change the
    host state [H] in any way; nothing is assumed about them here. *)

From S2P Require Import Prelude GoStrings GoText GoPath Json Hash.
Open Scope Z_scope.

Record FileInfo := MkFileInfo {
  fi_Size : Z;
  fi_ModTime : Z;
  fi_Mode : Z;
  fi_Sys : option Z
}.

(** [fs.FileMode] bits. *)
Definition ModeDir : Z := 2147483648.
Definition ModeSymlink : Z := 134217728.
Definition ModeType : Z := 2401763328.
Definition IsDir (i : FileInfo) : bool := negb (Z.land (fi_Mode i) ModeDir =? 0).
Definition IsRegular (i : FileInfo) : bool := Z.land (fi_Mode i) ModeType =? 0.
Definition Perm (i : FileInfo) : Z := Z.land (fi_Mode i) 511.

Record DirEntry := MkDirEntry {
  de_Name : string;
  de_IsDir : bool
}.

Class Machine (H : Type) := {
  ReadFile : string -> M H string;
  ReadDir : string -> M H (list DirEntry);
  Readlink : string -> M H string;
  EvalSymlinks : string -> M H string;
  Lstat : string -> M H FileInfo;
  Stat : string -> M H FileInfo;
  RunCommand : string -> list string -> M H string;
  SendSignal : Z -> string -> M H unit
}.

(** A run-time panic: nothing in the code recovers from it. *)
Definition panic {S A} : M S A := throw (ESys ECRASH).

(** ** process.go *)

Record ProcessInfo := MkProcessInfo {
  pi_PID : Z;
  pi_PPID : Z;
  pi_Name : string;
  pi_State : string;
  pi_UID : Z;
  pi_Command : string;
  pi_Executable : string;
  pi_StartTicks : Z;
  pi_CPUTicks : Z;
  pi_RSSBytes : Z
}.

Record ProcessIdentity := MkProcessIdentity {
  id_PID : Z;
  id_StartTicks : Z;
  id_CommandDigest : string;
  id_UID : Z;
  id_Executable : string
}.

Definition nth_field (l : list string) (n : nat) : string := nth n l "".

(** [strings.TrimSpace(line[close+1:])], [line[open+1:close]] *)
Definition parseProcessStat (line : string) (pageSize : Z) : result ProcessInfo :=
  match IndexByte line "(", LastIndexByte line ")" with
  | Some op, Some cl =>
    fail_if (op <? 1)%nat || (cl <=? op)%nat with EMsg "invalid comm field" ;;
    let name := take_bytes (cl - S op) (drop_bytes (S op) line) in
    let fields := Fields (TrimSpace (drop_bytes (S cl) line)) in
    fail_if (length fields <? 22)%nat
    with EMsg ("got " +:+ show_Z (Z.of_nat (length fields)) +:+ " fields after comm") ;;
    let? ppid := Atoi (nth_field fields 1) in
    let? utime := ParseUint (nth_field fields 11) in
    let? stime := ParseUint (nth_field fields 12) in
    let? start := ParseUint (nth_field fields 19) in
    let? rssPages := Atoi (nth_field fields 21) in
    let rssPages := if rssPages <? 0 then 0 else rssPages in
    Ok (MkProcessInfo 0 ppid name (nth_field fields 0) 0 "" "" start
          (wrap64 (utime + stime)) (wrap64 (rssPages * pageSize)))
  | _, _ => Err (EMsg "invalid comm field")
  end.

Fixpoint uid_of_lines (lines : list string) : Z :=
  match lines with
  | [] => -1
  | line :: lines =>
    match Fields line with
    | k :: v :: _ =>
      if String.eqb k "Uid:" then match Atoi v with Ok value => value | Err _ => uid_of_lines lines end
      else uid_of_lines lines
    | _ => uid_of_lines lines
    end
  end.

Definition parseProcessUID (status : string) : Z := uid_of_lines (Lines status).1.

Definition secret_keys : list string :=
  ["password="; "passwd="; "token="; "secret="; "api_key="; "apikey="].

(** The loop over [secret_keys] for one word: the first key of the list
    that occurs decides. *)
Fixpoint redact_with (keys : list string) (part lower : string) : option string :=
  match keys with
  | [] => Some part
  | key :: keys =>
    match Index lower key with
    | Some index =>
      match slice_bytes part 0 (index + String.length key) with
      | Some kept => Some (kept +:+ "[REDACTED]")
      | None => None
      end
    | None => redact_with keys part lower
    end
  end.

Fixpoint all_some {A} (l : list (option A)) : option (list A) :=
  match l with
  | [] => Some []
  | Some x :: l => match all_some l with Some xs => Some (x :: xs) | None => None end
  | None :: _ => None
  end.

(** [None] is the panic of a slice out of range. *)
Definition redactCommand `{UnicodeCase} (raw : string) : option string :=
  let command := TrimSpace (replace_byte (chr 0) " " raw) in
  let command := if (512 <? String.length command)%nat then take_bytes 512 command +:+ "…" else command in
  match all_some (map (fun part => redact_with secret_keys part (ToLower part)) (Fields command)) with
  | Some parts => Some (Join parts " ")
  | None => None
  end.

Definition validateProcessExecutable (executable : string) : result string :=
  fail_if String.eqb executable "" with EMsg "process executable is empty" ;;
  fail_if (4096 <? String.length executable)%nat || any_byte (Ascii.eqb (chr 0)) executable
  with EMsg "process executable is invalid" ;;
  Ok executable.

Definition socketInode (target : string) : option string :=
  if negb (HasPrefix target "socket:[") || negb (HasSuffix target "]") then None
  else Some (TrimSuffix (TrimPrefix target "socket:[") "]").

(** One table of [socketInodesForPort]: the header line is skipped. *)
Definition inode_of_line (port : Z) (line : string) : option string :=
  let fields := Fields line in
  if (length fields <? 10)%nat then None
  else match Cut (nth_field fields 1) ":" with
       | None => None
       | Some (_, portHex) =>
         match ParseHex32 portHex with
         | Ok value => if value =? port then Some (nth_field fields 9) else None
         | Err _ => None
         end
       end.

Section Process.
Context {H : Type} `{Machine H} `{UnicodeCase} (procRoot : string) (pageSize : Z).

Definition readContext (name : string) : M H string :=
  ctx_check ;;; wrapping ("read " +:+ name +:+ ": ") (ReadFile name).

Definition proc_path (pid : Z) (leaf : string) : string := PathJoin [procRoot; show_Z pid; leaf].

Definition Process (pid : Z) : M H ProcessInfo :=
  lift (guard_ (pid <=? 0) (EMsg "pid must be positive")) ;;;
  statBytes <- readContext (proc_path pid "stat") ;;
  info <- wrapping ("parse process " +:+ show_Z pid +:+ " stat: ")
            (lift (parseProcessStat (TrimSpace statBytes) pageSize)) ;;
  status <- try_ (readContext (proc_path pid "status")) ;;
  command <- try_ (readContext (proc_path pid "cmdline")) ;;
  let uid := match status with Ok s => parseProcessUID s | Err _ => pi_UID info end in
  shown <- match command with
           | Ok raw => match redactCommand raw with Some c => ret c | None => panic end
           | Err _ => ret (pi_Command info)
           end ;;
  executable <- try_ (Readlink (proc_path pid "exe")) ;;
  ret (MkProcessInfo pid (pi_PPID info) (pi_Name info) (pi_State info) uid shown
         (match executable with Ok e => e | Err _ => pi_Executable info end)
         (pi_StartTicks info) (pi_CPUTicks info) (pi_RSSBytes info)).

(** The fallback helper of the privileged executor, when configured. *)
Definition resolveProcessExecutable (path : string) (pid uid : Z)
    (fallback : option (Z -> Z -> M H string)) : M H string :=
  ctx_check ;;;
  link <- try_ (Readlink path) ;;
  match link with
  | Ok executable => lift (validateProcessExecutable executable)
  | Err e =>
    match fallback with
    | Some run =>
      if errors_is e EACCES then
        executable <- wrapping "read process executable as target uid: " (run pid uid) ;;
        lift (validateProcessExecutable executable)
      else throw (EWrap "read process executable: " e)
    | None => throw (EWrap "read process executable: " e)
    end
  end.

Definition ProcessIdentity_ (fallback : option (Z -> Z -> M H string)) (pid : Z) : M H ProcessIdentity :=
  info <- Process pid ;;
  executable <- resolveProcessExecutable (proc_path pid "exe") pid (pi_UID info) fallback ;;
  raw <- readContext (proc_path pid "cmdline") ;;
  ret (MkProcessIdentity pid (pi_StartTicks info) (sha256_hex raw) (pi_UID info) executable).

(** [Processes]: the sort keys are those of the code; ties keep scan order. *)
Definition process_before (sortBy : string) (a b : ProcessInfo) : Prop :=
  if String.eqb sortBy "memory" then pi_RSSBytes b <= pi_RSSBytes a
  else if String.eqb sortBy "pid" then pi_PID a <= pi_PID b
  else pi_CPUTicks b <= pi_CPUTicks a.
#[export] Instance process_before_dec s a b : Decision (process_before s a b).
Proof. unfold process_before. repeat case_match; apply _. Defined.

Fixpoint scan_processes (needle : string) (entries : list DirEntry) : M H (list ProcessInfo) :=
  match entries with
  | [] => ret []
  | entry :: entries =>
    ctx_check ;;;
    found <- (if negb (de_IsDir entry) then ret None
              else match Atoi (de_Name entry) with
                   | Err _ => ret None
                   | Ok pid =>
                     info <- try_ (Process pid) ;;
                     match info with
                     | Err _ => ret None
                     | Ok info =>
                       if negb (String.eqb needle "")
                          && negb (Contains (ToLower (pi_Name info +:+ " " +:+ pi_Command info +:+ " " +:+ pi_Executable info)) needle)
                       then ret None else ret (Some info)
                     end
                   end) ;;
    rest <- scan_processes needle entries ;;
    ret (match found with Some info => info :: rest | None => rest end)
  end.

Definition Processes (search : string) (limit : Z) (sortBy : string) : M H (list ProcessInfo) :=
  let limit := if (limit <=? 0) || (500 <? limit) then 50 else limit in
  entries <- wrapping "read proc root: " (ReadDir procRoot) ;;
  out <- scan_processes (ToLower (TrimSpace search)) entries ;;
  ret (take (Z.to_nat limit) (merge_sort (process_before sortBy) out)).

Fixpoint inodes_of_tables (port : Z) (names : list string) (out : gset string) : M H (gset string) :=
  match names with
  | [] => ret out
  | name :: names =>
    table <- try_ (readContext (PathJoin [procRoot; "net"; name])) ;;
    match table with
    | Err e => if errors_is e ENOENT then inodes_of_tables port names out else throw e
    | Ok b =>
      let '(lines, long) := Lines b in
      if long then throw (EMsg "bufio.Scanner: token too long")
      else inodes_of_tables port names (out ∪ list_to_set (omap (inode_of_line port) (tail lines)))
    end
  end.

Definition socketInodesForPort (port : Z) : M H (gset string) :=
  inodes_of_tables port ["tcp"; "tcp6"; "udp"; "udp6"] ∅.
End Process.

(** ** linux.go *)

Record CPUStat := MkCPUStat {
  cpu_values : list Z;
  cpu_Total : Z;
  cpu_Busy : Z
}.

(** The eight counters, missing ones zero. *)
Fixpoint cpu_fields (n : nat) (f : list string) : result (list Z) :=
  match n with
  | 0%nat => Ok []
  | S n =>
    match f with
    | [] => Ok (replicate (S n) 0)
    | x :: f =>
      let? v := wrap_err "/proc/stat cpu field: " (ParseUint x) in
      let? vs := cpu_fields n f in
      Ok (v :: vs)
    end
  end.

Definition parse_cpu (b : string) : result CPUStat :=
  let line := match Cut b newline with Some (line, _) => line | None => b end in
  let f := Fields line in
  fail_if (length f <? 5)%nat || negb (String.eqb (nth_field f 0) "cpu")
  with EMsg "/proc/stat: aggregate cpu row missing" ;;
  let? values := cpu_fields 8 (tail f) in
  let total := foldl (fun acc v => wrap64 (acc + v)) 0 values in
  let idle := wrap64 (nth 3 values 0 + nth 4 values 0) in
  Ok (MkCPUStat values total (wrap64 (total - idle))).

Record MemoryStat := MkMemoryStat {
  mem_TotalBytes : Z;
  mem_AvailableBytes : Z;
  mem_UsedBytes : Z;
  mem_FreeBytes : Z;
  mem_BuffersBytes : Z;
  mem_CachedBytes : Z;
  mem_SwapTotalBytes : Z;
  mem_SwapFreeBytes : Z
}.

Definition meminfo_line (values : gmap string Z) (line : string) : gmap string Z :=
  match Fields line with
  | k :: v :: _ =>
    match ParseUint v with
    | Ok n => <[TrimSuffix k ":" := wrap64 (n * 1024)]> values
    | Err _ => values
    end
  | _ => values
  end.

Definition parse_meminfo (b : string) : result MemoryStat :=
  let '(lines, long) := Lines b in
  let values := foldl meminfo_line ∅ lines in
  let get k := default 0 (values !! k) in
  fail_if long with EMsg "bufio.Scanner: token too long" ;;
  let total := get "MemTotal" in
  fail_if total =? 0 with EMsg "/proc/meminfo: MemTotal missing" ;;
  let available := get "MemAvailable" in
  let available := if available =? 0
    then wrap64 (wrap64 (get "MemFree" + get "Buffers") + get "Cached") else available in
  let available := if total <? available then total else available in
  Ok (MkMemoryStat total available (wrap64 (total - available)) (get "MemFree") (get "Buffers")
        (get "Cached") (get "SwapTotal") (get "SwapFree")).

(** ** commands.go *)

Definition unit_byte (c : ascii) : bool := word_byte ["_"; "."; "@"; ":"; "-"]%char c.

Definition validateUnit (unit : string) : result string :=
  let unit := TrimSpace unit in
  fail_if negb (all_bytes unit_byte unit && (1 <=? String.length unit)%nat && (String.length unit <=? 255)%nat)
  with EMsg "invalid systemd unit" ;;
  Ok (if Contains unit "." then unit else unit +:+ ".service").

Definition parseKeyValues (output : string) : gmap string string :=
  foldl (fun out line => match Cut line "=" with Some (k, v) => <[k := v]> out | None => out end)
    ∅ (Split newline output).

Record ServiceStatus := MkServiceStatus {
  ss_Name : string;
  ss_Description : string;
  ss_LoadState : string;
  ss_ActiveState : string;
  ss_SubState : string;
  ss_MainPID : Z;
  ss_ExecMainStatus : Z;
  ss_RestartCount : Z;
  ss_FragmentPath : string
}.

(** [v, _ := strconv.Atoi(value)]: a range error still returns the nearest
    bound, a syntax error zero. *)
Definition parseInt (value : string) : Z :=
  match Atoi value with
  | Ok v => v
  | Err e => if decide (e = range_error)
             then (if HasPrefix value "-" then - (max_int64 + 1) else max_int64) else 0
  end.
Definition parseUint (value : string) : Z :=
  match ParseUint value with
  | Ok v => v
  | Err e => if decide (e = range_error) then max_uint64 else 0
  end.

Definition firstNonEmpty (a b : string) : string := if String.eqb a "" then b else a.

Definition serviceFromValues (unit : string) (values : gmap string string) : ServiceStatus :=
  let get k := default "" (values !! k) in
  MkServiceStatus (firstNonEmpty (get "Id") unit) (get "Description") (get "LoadState")
    (get "ActiveState") (get "SubState") (parseInt (get "MainPID")) (parseInt (get "ExecMainStatus"))
    (parseUint (get "NRestarts")) (get "FragmentPath").

Section Service.
Context {H : Type} `{Machine H} (systemctl journalctl : string).

(** [OSFixedRunner.Run] refuses an undiscovered binary. *)
Definition run_fixed (binary : string) (args : list string) : M H string :=
  lift (guard_ (String.eqb binary "") (EMsg "required fixed binary is unavailable")) ;;;
  RunCommand binary args.

Definition Service (unit : string) : M H ServiceStatus :=
  unit <- lift (validateUnit unit) ;;
  output <- run_fixed systemctl
    ["show"; "--no-pager";
     "--property=Id,Description,LoadState,ActiveState,SubState,MainPID,ExecMainStatus,NRestarts,FragmentPath";
     unit] ;;
  ret (serviceFromValues unit (parseKeyValues output)).

Definition ServiceDependencies (unit : string)
    : M H (string * list string * list string * list string * list string) :=
  unit <- lift (validateUnit unit) ;;
  output <- run_fixed systemctl
    ["show"; "--no-pager"; "--property=Id,Requires,Wants,After,Before"; unit] ;;
  let values := parseKeyValues output in
  let get k := default "" (values !! k) in
  ret (firstNonEmpty (get "Id") unit, Fields (get "Requires"), Fields (get "Wants"),
       Fields (get "After"), Fields (get "Before")).

Definition failed_line (line : string) : option ServiceStatus :=
  match Fields line with
  | name :: loaded :: active :: sub :: rest =>
    Some (MkServiceStatus (TrimPrefix name "●") (Join rest " ") loaded active sub 0 0 0 "")
  | _ => None
  end.

Definition FailedServices : M H (list ServiceStatus) :=
  output <- run_fixed systemctl
    ["list-units"; "--type=service"; "--state=failed"; "--no-legend"; "--no-pager"; "--plain"] ;;
  ret (omap failed_line (Split newline output)).

(** The command line of [Journal]; the decoding of its output is JSON. *)
Definition journal_args (unit : string) (lines priority : Z) : result (list string) :=
  let lines := if lines <=? 0 then 100 else lines in
  fail_if 500 <? lines with EMsg "journal lines must not exceed 500" ;;
  let args := ["--no-pager"; "--output=json"; "--lines=" +:+ show_Z lines] in
  let? args := (if String.eqb unit "" then Ok args
                else let? unit := validateUnit unit in Ok (args ++ ["--unit=" +:+ unit])) in
  if 0 <=? priority then
    fail_if 7 <? priority with EMsg "journal priority must be from 0 to 7" ;;
    Ok (args ++ ["--priority=" +:+ show_Z priority])
  else Ok args.
End Service.

(** ** Properties *)

(** *** /proc/PID/stat *)

(** The line the kernel prints: the pid, the name the process chose in
    parentheses, and the fields. *)
Definition stat_line (pid : Z) (name : string) (fields : list string) : string :=
  show_Z pid +:+ " (" +:+ name +:+ ") " +:+ Join fields " ".

Definition no_byte (c : ascii) (s : string) : bool := all_bytes (fun d => negb (Ascii.eqb d c)) s.

Lemma plain_no_paren s : all_bytes (fun c => match digit c with Some _ => true | None => false end) s = true ->
  no_byte "(" s = true.
Proof.
  unfold no_byte. induction s as [|c s IH]; cbn -[digit]; [done|]. rewrite !andb_true_iff.
  intros [Hc Hs]. split; [|auto]. destruct c as [[][][][][][][][]]; done.
Qed.

Lemma digits_from_all s acc n :
  digits_from acc s = Some n -> all_bytes (fun c => match digit c with Some _ => true | None => false end) s = true.
Proof.
  revert acc. induction s as [|c s IH]; intros acc; cbn -[digit]; [done|].
  destruct (digit c) as [d|]; [|done]. apply IH.
Qed.

Lemma show_no_paren n : 0 <= n -> no_byte "(" (show_Z n) = true.
Proof.
  intros Hn. pose proof (digits_show_Z n Hn) as H. unfold digits in H.
  destruct (String.eqb _ _); [done|]. apply plain_no_paren. by eapply digits_from_all.
Qed.

Lemma words_snoc ws : ws <> [] -> Forall word ws ->
  exists s d, Join ws " " = s +:+ String d "" /\ plain1 d = true.
Proof.
  induction ws as [|w [|v ws] IH]; intros Hne HF; [done| |].
  - inversion HF as [|? ? [Hw Hp]]; subst. destruct (string_snoc w Hw) as (s&d&E). exists s, d.
    split; [done|]. rewrite E, all_bytes_app in Hp. apply andb_true_iff in Hp as [_ Hp].
    cbn [all_bytes] in Hp. by rewrite andb_true_r in Hp.
  - inversion HF as [|? ? [Hw Hp] HF']; subst. destruct IH as (s&d&E&Hd); [done|done|].
    exists ((w +:+ " ") +:+ s), d. split; [|done].
    change (Join (w :: v :: ws) " ") with (w +:+ " " +:+ Join (v :: ws) " "). rewrite E.
    by rewrite !string_app_assoc.
Qed.

(** White space around words joined by blanks is trimmed off. *)
Lemma TrimSpace_words w1 w2 ws :
  all_bytes space1 w1 = true -> all_bytes space1 w2 = true -> ws <> [] -> Forall word ws ->
  TrimSpace (w1 +:+ Join ws " " +:+ w2) = Join ws " ".
Proof.
  intros H1 H2 Hne HF. unfold TrimSpace.
  destruct (words_snoc ws Hne HF) as (s&d&E&Hd).
  destruct ws as [|w ws]; [done|]. inversion HF as [|? ? [Hw Hp] _]; subst.
  destruct w as [|c w]; [done|]. cbn [all_bytes] in Hp. apply andb_true_iff in Hp as [Hc _].
  assert (Hj : exists t, Join (String c w :: ws) " " = String c t).
  { destruct ws as [|v ws]; [by exists w|]. by eexists. }
  destruct Hj as [t Ht]. rewrite Ht in *.
  rewrite string_app_cons, trim_left_pad by done. rewrite <- string_app_cons, E. by apply trim_right_pad.
Qed.

Lemma stat_line_index pid name fields :
  0 <= pid -> IndexByte (stat_line pid name fields) "(" = Some (S (String.length (show_Z pid))).
Proof.
  intros Hp. unfold stat_line.
  replace (show_Z pid +:+ " (" +:+ name +:+ ") " +:+ Join fields " ")
    with ((show_Z pid +:+ " ") +:+ String "(" (name +:+ ") " +:+ Join fields " "))
    by (by rewrite string_app_assoc).
  rewrite IndexByte_app.
  - rewrite string_length_app. cbn. f_equal. lia.
  - fold (no_byte "("). unfold no_byte. rewrite all_bytes_app. apply andb_true_iff.
    split; [by apply show_no_paren|done].
Qed.

Lemma stat_line_last pid name fields :
  no_byte ")" (Join fields " ") = true ->
  LastIndexByte (stat_line pid name fields) ")" = Some (String.length (show_Z pid) + 2 + String.length name)%nat.
Proof.
  intros Hf. unfold stat_line.
  replace (show_Z pid +:+ " (" +:+ name +:+ ") " +:+ Join fields " ")
    with ((show_Z pid +:+ " (" +:+ name) +:+ String ")" (" " +:+ Join fields " "))
    by (by rewrite !string_app_assoc).
  rewrite LastIndexByte_app; [|exact Hf].
  rewrite !string_length_app. cbn. f_equal. lia.
Qed.

Lemma drop_bytes_add n m s : drop_bytes (n + m) s = drop_bytes m (drop_bytes n s).
Proof. revert s. induction n as [|n IH]; intros s; [done|]. destruct s; cbn; [by destruct m|apply IH]. Qed.

Lemma stat_line_name pid name fields :
  take_bytes (String.length name) (drop_bytes (S (S (String.length (show_Z pid)))) (stat_line pid name fields)) = name.
Proof.
  unfold stat_line. replace (S (S (String.length (show_Z pid)))) with (String.length (show_Z pid +:+ " ("))
    by (rewrite string_length_app; cbn; lia).
  rewrite <- string_app_assoc, drop_bytes_app. apply take_bytes_app.
Qed.

Lemma stat_line_rest pid name fields :
  drop_bytes (S (String.length (show_Z pid) + 2 + String.length name)) (stat_line pid name fields)
  = " " +:+ Join fields " ".
Proof.
  unfold stat_line.
  replace (show_Z pid +:+ " (" +:+ name +:+ ") " +:+ Join fields " ")
    with ((show_Z pid +:+ " (" +:+ name +:+ ")") +:+ (" " +:+ Join fields " "))
    by (by rewrite !string_app_assoc).
  replace (S (String.length (show_Z pid) + 2 + String.length name))
    with (String.length (show_Z pid +:+ " (" +:+ name +:+ ")"))
    by (rewrite !string_length_app; cbn; lia).
  apply drop_bytes_app.
Qed.

(** The fields of a stat line after the name. *)
Definition stat_fields (state : string) (ppid : Z) (before : list string) (utime stime : Z)
    (middle : list string) (start : Z) (vsize : string) (rss : Z) (after : list string) : list string :=
  [state; show_Z ppid] ++ before ++ [show_Z utime; show_Z stime] ++ middle
  ++ [show_Z start; vsize; show_Z rss] ++ after.

Lemma no_byte_show n c : 0 <= n -> digit c = None -> no_byte c (show_Z n) = true.
Proof.
  intros Hn Hc. pose proof (digits_show_Z n Hn) as H. unfold digits in H.
  destruct (String.eqb _ _); [done|]. apply digits_from_all in H. unfold no_byte.
  induction (show_Z n) as [|d s IH]; cbn -[digit] in *; [done|].
  apply andb_true_iff in H as [Hd Hs]. apply andb_true_iff. split; [|auto].
  apply negb_true_iff, Ascii.eqb_neq. intros ->. by rewrite Hc in Hd.
Qed.

Lemma no_byte_join c ws : c <> " "%char -> Forall (fun w => no_byte c w = true) ws -> no_byte c (Join ws " ") = true.
Proof.
  intros Hc HF. unfold no_byte in *. induction HF as [|w [|v ws] Hw HF IH]; [done|done|].
  change (Join (w :: v :: ws) " ") with (w +:+ " " +:+ Join (v :: ws) " ").
  rewrite !all_bytes_app, Hw, IH. cbn [all_bytes andb].
  by rewrite (proj2 (Ascii.eqb_neq " " c)) by done.
Qed.

(** Fields the code does not read: any words without a closing
    parenthesis. *)
Definition plain_words (l : list string) : Prop := Forall (fun w => word w /\ no_byte ")" w = true) l.

Lemma stat_fields_words state ppid before utime stime middle start vsize rss after :
  plain_words (state :: vsize :: before ++ middle ++ after) ->
  0 <= ppid -> 0 <= utime -> 0 <= stime -> 0 <= start -> 0 <= rss ->
  plain_words (stat_fields state ppid before utime stime middle start vsize rss after).
Proof.
  intros HF Hp Hu Hs Ht Hr. unfold plain_words, stat_fields in *.
  assert (P : forall n, 0 <= n -> (fun w => word w /\ no_byte ")" w = true) (show_Z n))
    by (intros n Hn; split; [by apply show_nat_word|by apply no_byte_show]).
  apply P in Hp, Hu, Hs, Ht, Hr. rewrite !Forall_cons, !Forall_app in HF.
  destruct HF as (F1&F2&F3&F4&F5).
  rewrite !Forall_app. split_and!; try done; repeat (constructor; try done).
Qed.

Lemma stat_fields_nth state ppid before utime stime middle start vsize rss after :
  length before = 9%nat -> length middle = 6%nat ->
  let f := stat_fields state ppid before utime stime middle start vsize rss after in
  (22 <= length f)%nat /\ nth_field f 0 = state /\ nth_field f 1 = show_Z ppid /\
  nth_field f 11 = show_Z utime /\ nth_field f 12 = show_Z stime /\
  nth_field f 19 = show_Z start /\ nth_field f 21 = show_Z rss.
Proof.
  intros Hb Hm.
  do 10 (destruct before as [|? before]; try discriminate Hb).
  do 7 (destruct middle as [|? middle]; try discriminate Hm).
  cbn. split_and!; try done. lia.
Qed.

Lemma parse_stat_line pageSize pid name fields :
  0 <= pid -> (22 <= length fields)%nat -> plain_words fields ->
  parseProcessStat (stat_line pid name fields) pageSize =
  (let? ppid := Atoi (nth_field fields 1) in
   let? utime := ParseUint (nth_field fields 11) in
   let? stime := ParseUint (nth_field fields 12) in
   let? start := ParseUint (nth_field fields 19) in
   let? rssPages := Atoi (nth_field fields 21) in
   let rssPages := if rssPages <? 0 then 0 else rssPages in
   Ok (MkProcessInfo 0 ppid name (nth_field fields 0) 0 "" "" start
         (wrap64 (utime + stime)) (wrap64 (rssPages * pageSize)))).
Proof.
  intros Hp Hl HF. assert (W : Forall word fields) by (eapply Forall_impl; [exact HF|naive_solver]).
  assert (B : no_byte ")" (Join fields " ") = true)
    by (apply no_byte_join; [done|]; eapply Forall_impl; [exact HF|naive_solver]).
  unfold parseProcessStat. rewrite stat_line_index, stat_line_last by done.
  set (k := String.length (show_Z pid)). set (n := String.length name).
  replace (S k <? 1)%nat with false by (symmetry; apply Nat.ltb_ge; lia).
  replace (k + 2 + n <=? S k)%nat with false by (symmetry; apply Nat.leb_gt; lia). cbn [orb].
  replace (k + 2 + n - S (S k))%nat with n by lia. unfold n, k. cbv zeta.
  rewrite stat_line_name, stat_line_rest.
  assert (T : TrimSpace (" " +:+ Join fields " ") = Join fields " ").
  { pose proof (TrimSpace_words " " "" fields) as T. rewrite string_app_nil_r in T.
    apply T; try done. intros ->. cbn in Hl. lia. }
  rewrite T, Fields_Join by done. by rewrite (proj2 (Nat.ltb_ge _ _)) by lia.
Qed.

(** A process cannot forge its identity through its name.  The kernel
    prints the name a process chose between parentheses; for every name,
    also one that contains blanks, parentheses, newlines or text that looks
    like fields, the parser returns exactly that name and the state,
    parent, CPU times, start time and resident set the kernel printed. *)
Theorem stat_name_cannot_forge (pageSize pid ppid utime stime start rss : Z) (name state vsize : string)
    (before middle after : list string)
    (Hpid : 0 <= pid) (Hw : plain_words (state :: vsize :: before ++ middle ++ after))
    (Hb : length before = 9%nat) (Hm : length middle = 6%nat)
    (Hp : 0 <= ppid <= max_int64) (Hu : 0 <= utime <= max_uint64) (Hs : 0 <= stime <= max_uint64)
    (Ht : 0 <= start <= max_uint64) (Hr : 0 <= rss <= max_int64) :
  parseProcessStat (stat_line pid name (stat_fields state ppid before utime stime middle start vsize rss after)) pageSize
  = Ok (MkProcessInfo 0 ppid name state 0 "" "" start (wrap64 (utime + stime)) (wrap64 (rss * pageSize))).
Proof.
  destruct (stat_fields_nth state ppid before utime stime middle start vsize rss after Hb Hm)
    as (Hl&E0&E1&E11&E12&E19&E21).
  rewrite parse_stat_line by (try done; apply stat_fields_words; try done; lia).
  rewrite E0, E1, E11, E12, E19, E21, !Atoi_show, !ParseUint_show by done. cbn [rbind].
  by rewrite (proj2 (Z.ltb_ge _ _)) by lia.
Qed.

Lemma stat_name_cannot_forge_witness :
  parseProcessStat "4242 (evil) S 1 (x) S 1 4242 4242 0 -1 4194304 1 2 3 4 7 8 9 10 20 0 1 0 777 1000 55 99" 4096
  = Ok (MkProcessInfo 0 1 "evil) S 1 (x" "S" 0 "" "" 777 15 225280).
Proof.
  apply (stat_name_cannot_forge 4096 4242 1 7 8 777 55 "evil) S 1 (x" "S" "1000"
           ["4242"; "4242"; "0"; "-1"; "4194304"; "1"; "2"; "3"; "4"] ["9"; "10"; "20"; "0"; "1"; "0"] ["99"]);
    try reflexivity; try (vm_compute; intuition discriminate).
  repeat constructor; discriminate.
Defined.

(** *** Redaction *)

(** [w'] is [w] cut right after the name of a secret, or [w] itself when it
    names none. *)
Definition redacted (w w' : string) : Prop :=
  (exists key p k s, key ∈ secret_keys /\ w = p +:+ k +:+ s /\ map_bytes lower_ascii k = key /\
     w' = p +:+ k +:+ "[REDACTED]") \/
  (w' = w /\ forall key, key ∈ secret_keys -> Contains (map_bytes lower_ascii w) key = false).

Lemma redact_with_spec keys w :
  exists w', redact_with keys w (map_bytes lower_ascii w) = Some w' /\
  ((exists key p k s, key ∈ keys /\ w = p +:+ k +:+ s /\ map_bytes lower_ascii k = key /\
      w' = p +:+ k +:+ "[REDACTED]") \/
   (w' = w /\ forall key, key ∈ keys -> Contains (map_bytes lower_ascii w) key = false)).
Proof.
  induction keys as [|key keys (w'&E&IH)]; cbn [redact_with].
  - exists w. split; [done|]. right. split; [done|]. set_solver.
  - destruct (Index (map_bytes lower_ascii w) key) as [i|] eqn:Ei.
    + destruct (Index_some _ _ _ Ei) as (a&b&E1&<-).
      destruct (map_bytes_split _ _ _ _ E1) as (p&r&->&<-&E2).
      destruct (map_bytes_split _ _ _ _ E2) as (k&s&->&<-&_).
      rewrite !map_bytes_length, <- string_app_assoc, <- string_length_app, slice_bytes_app.
      eexists. split; [done|]. left. exists (map_bytes lower_ascii k), p, k, s.
      rewrite !string_app_assoc. split_and!; try done. by left.
    + exists w'. split; [done|]. destruct IH as [(x&p&k&s&Hx&H)|[-> H]].
      * left. exists x, p, k, s. split; [by right|done].
      * right. split; [done|]. intros x [->|Hx]%elem_of_cons; [by apply Index_none|auto].
Qed.

Lemma all_some_Forall2 {A B} (f : A -> option B) (P : A -> B -> Prop) l :
  Forall (fun x => exists y, f x = Some y /\ P x y) l ->
  exists ys, all_some (map f l) = Some ys /\ Forall2 P l ys.
Proof.
  induction 1 as [|x l (y&E&HP) _ (ys&Es&HF)]; cbn; [by exists []|].
  rewrite E, Es. exists (y :: ys). split; [done|]. by constructor.
Qed.

Lemma replace_byte_id a b s : no_byte a s = true -> replace_byte a b s = s.
Proof.
  unfold no_byte, replace_byte. induction s as [|c s IH]; cbn; [done|].
  rewrite andb_true_iff, negb_true_iff. intros [-> Hs]. by rewrite IH.
Qed.

Lemma replace_byte_join a b ws :
  Forall (fun w => no_byte a w = true) ws ->
  replace_byte a b (Join ws (String a "")) = Join ws (String b "").
Proof.
  induction 1 as [|w [|v ws] Hw HF IH]; [done|by apply replace_byte_id|].
  change (Join (w :: v :: ws) (String a "")) with (w +:+ String a "" +:+ Join (v :: ws) (String a "")).
  change (Join (w :: v :: ws) (String b "")) with (w +:+ String b "" +:+ Join (v :: ws) (String b "")).
  unfold replace_byte in *. rewrite !map_bytes_app, IH. cbn [map_bytes]. rewrite Ascii.eqb_refl.
  f_equal. by apply replace_byte_id.
Qed.

(** Secrets named in an ASCII command line are cut out.  For any
    command line of at most 512 bytes made of ASCII words separated by NUL
    bytes, [redactCommand] succeeds, and each word is shown unchanged only
    when it contains none of the key names in any letter case; otherwise it
    is cut right after a key name and marked. *)
Theorem redact_ascii `{UnicodeCase} (ws : list string) (Hne : ws <> [])
    (Hw : Forall (fun w => word w /\ no_byte (chr 0) w = true) ws)
    (Hl : (String.length (Join ws " ") <= 512)%nat) :
  exists ws', redactCommand (Join ws (String (chr 0) "")) = Some (Join ws' " ") /\ Forall2 redacted ws ws'.
Proof.
  assert (W : Forall word ws) by (eapply Forall_impl; [exact Hw|naive_solver]).
  unfold redactCommand. rewrite replace_byte_join by (eapply Forall_impl; [exact Hw|naive_solver]).
  assert (T : TrimSpace (Join ws " ") = Join ws " ").
  { pose proof (TrimSpace_words "" "" ws) as T. rewrite string_app_nil_r in T. by apply T. }
  change (String " " "") with " ". rewrite T, (proj2 (Nat.ltb_ge _ _)), Fields_Join by done.
  destruct (all_some_Forall2 (fun part => redact_with secret_keys part (ToLower part)) redacted ws)
    as (ws'&E&HF).
  - eapply Forall_impl; [exact W|]. intros w [_ Hp]. rewrite ToLower_ascii by (by apply plain_is_ascii).
    exact (redact_with_spec secret_keys w).
  - exists ws'. by rewrite E.
Qed.

Lemma redact_ascii_witness :
  exists ws', redactCommand (H := fun r => r) (Join ["mysql"; "--Password=hunter2"] (String (chr 0) "")) = Some (Join ws' " ")
  /\ Forall2 redacted ["mysql"; "--Password=hunter2"] ws'.
Proof.
  apply (redact_ascii (H := fun r => r) ["mysql"; "--Password=hunter2"]); [discriminate| |vm_compute; lia].
  repeat constructor; discriminate.
Defined.

(** The first key of the list, not of the word, decides where to cut: with
    two secrets in one word the earlier one can stay visible. *)
Example redact_shows_earlier_secret :
  redactCommand (H := fun r => r) "curl https://h/?token=abc&password=def"
  = Some "curl https://h/?token=abc&password=[REDACTED]".
Proof. vm_compute. reflexivity. Qed.

(** A letter whose lower case is longer in UTF-8 (U+023A, of two bytes, to
    U+2C65, of three) moves the index past the end of the word: a slice out
    of range. *)
Definition a_stroke : string := encode_rune 570.
Definition stroke_case : UnicodeCase := fun r => if (r =? 570)%N then 11365%N else r.

Example redact_panics_on_growing_letters :
  redactCommand (H := stroke_case) (a_stroke +:+ a_stroke +:+ "password=") = None.
Proof. vm_compute. reflexivity. Qed.

(** *** Memory *)

Definition u64_values (values : gmap string Z) : Prop := forall k v, values !! k = Some v -> 0 <= v <= max_uint64.

Lemma meminfo_line_u64 values line : u64_values values -> u64_values (meminfo_line values line).
Proof.
  intros Hv. unfold meminfo_line. destruct (Fields line) as [|k [|v l]]; try done.
  destruct (ParseUint v); [|done]. intros k' v' [[_ <-]|[_ Hk]]%lookup_insert_Some;
    [apply wrap64_bounds|by eapply Hv].
Qed.

Lemma meminfo_u64 lines values : u64_values values -> u64_values (foldl meminfo_line values lines).
Proof. revert values. induction lines as [|l lines IH]; intros values Hv; cbn; [done|]. by apply IH, meminfo_line_u64. Qed.

(** Memory figures add up.  For every text of /proc/meminfo, also with
    values that overflow 64 bits or with more available than total memory,
    a successful read has a positive total, no more available than total,
    and used plus available equal to the total, without wrapping around. *)
Theorem memory_adds_up (b : string) (m : MemoryStat) (Hm : parse_meminfo b = Ok m) :
  0 < mem_TotalBytes m <= max_uint64 /\
  (0 <= mem_AvailableBytes m /\ mem_AvailableBytes m <= mem_TotalBytes m) /\
  mem_UsedBytes m + mem_AvailableBytes m = mem_TotalBytes m.
Proof.
  unfold parse_meminfo in Hm. destruct (Lines b) as [lines long]. cbv zeta in Hm.
  pose proof (meminfo_u64 lines ∅) as U. specialize (U ltac:(intros k v Hk; by rewrite lookup_empty in Hk)).
  set (values := foldl meminfo_line ∅ lines) in *. clearbody values.
  assert (G : forall k, 0 <= default 0 (values !! k) <= max_uint64).
  { intros k. destruct (values !! k) as [v|] eqn:Ek; cbn; [by eapply U|]. unfold max_uint64. lia. }
  apply fail_if_ok in Hm as [_ Hm]. apply fail_if_ok in Hm as [Ht%Z.eqb_neq [= <-]].
  cbn [mem_TotalBytes mem_AvailableBytes mem_UsedBytes].
  pose proof (G "MemTotal") as GT. pose proof (G "MemAvailable") as GA.
  set (total := default 0 (values !! "MemTotal")) in *.
  set (avail := if default 0 (values !! "MemAvailable") =? 0 then _ else _).
  assert (A : 0 <= avail).
  { unfold avail. destruct (_ =? 0); [apply wrap64_bounds|lia]. }
  clearbody avail total. destruct (Z.ltb_spec total avail); rewrite wrap64_id; lia.
Qed.

Lemma memory_adds_up_witness :
  exists m, parse_meminfo ("MemTotal: 18014398509481985 kB" +:+ String newline "MemAvailable: 9 kB") = Ok m /\
  0 < mem_TotalBytes m <= max_uint64 /\
  (0 <= mem_AvailableBytes m /\ mem_AvailableBytes m <= mem_TotalBytes m) /\
  mem_UsedBytes m + mem_AvailableBytes m = mem_TotalBytes m.
Proof.
  eexists. split; [vm_compute; reflexivity|].
  apply (memory_adds_up ("MemTotal: 18014398509481985 kB" +:+ String newline "MemAvailable: 9 kB")).
  vm_compute. reflexivity.
Defined.

(** *** systemd units *)

(** What may stand where a unit name is expected.  [validateUnit]
    accepts exactly the texts whose trimmed form is 1 to 255 bytes of
    letters, digits, underscore, dot, at, colon and dash, and appends
    [.service] when there is no dot.  A leading dash is among them: the text
    -Hroot@host.example is accepted unchanged, and [Service] passes it to
    systemctl as an argument of its own, with no -- before it. *)
Theorem validateUnit_exact (unit v : string) :
  (validateUnit unit = Ok v <->
   all_bytes unit_byte (TrimSpace unit) = true /\ (1 <= String.length (TrimSpace unit) <= 255)%nat /\
   v = (if Contains (TrimSpace unit) "." then TrimSpace unit else TrimSpace unit +:+ ".service")) /\
  validateUnit "-Hroot@host.example" = Ok "-Hroot@host.example".
Proof.
  split; [|by vm_compute]. unfold validateUnit.
  rewrite fail_if_ok, negb_false_iff, !andb_true_iff, !Nat.leb_le. split.
  - intros [((?&?)&?) [= <-]]. done.
  - intros (?&[? ?]&->). split; [by split_and!|done].
Qed.
