(* ===== verification/Targets.v ===== *)
(** * [internal/executor/target.go]: target snapshots and the fixed scope

    What the executor observes of a process, service or file when it is
    asked to act, how it compares that with the snapshot that was approved,
    and the configured allowlist. *)

From S2P Require Import Prelude GoStrings GoText GoPath Json Hash Contracts Platform.
Open Scope Z_scope.

Definition withinRoots (path : string) (roots : list string) : bool :=
  let clean := Clean path in
  existsb (fun root => rel_stays_inside (Rel (Clean root) clean)) roots.

Section Targets.
Context {H : Type} `{Machine H} `{UnicodeCase}.

(** [LinuxTargets]: the platform's process reader is configured with
    [procRoot] and the page size, its service reader with [systemctl]. *)
Record LinuxTargets := MkLinuxTargets {
  lt_procRoot : string;
  lt_pageSize : Z;
  lt_fallback : option (Z -> Z -> M H string);
  lt_systemctl : string;
  lt_AllowedFileRoots : list string
}.

Definition SnapshotProcess (t : LinuxTargets) (targetID : string) (pid : Z) : M H TargetSnapshot :=
  identity <- ProcessIdentity_ (lt_procRoot t) (lt_pageSize t) (lt_fallback t) pid ;;
  ret (MkTargetSnapshot "process" targetID "" false "" 0 0 0 0 0 pid (id_StartTicks identity)
         (id_CommandDigest identity) (id_Executable identity) (id_UID identity) "" "" 0).

Definition SnapshotService (t : LinuxTargets) (targetID unit : string) : M H TargetSnapshot :=
  status <- Service (lt_systemctl t) unit ;;
  ret (MkTargetSnapshot "service" targetID "" false "" 0 0 0 0 0 0 0 "" "" 0
         (ss_Name status) (ss_ActiveState status) (ss_MainPID status)).

(** [uint32(info.Mode())] *)
Definition uint32 (n : Z) : Z := Z.land n 4294967295.

Definition SnapshotFile (t : LinuxTargets) (targetID path : string) : M H TargetSnapshot :=
  canonical <- EvalSymlinks (Clean path) ;;
  lift (guard_ (negb (withinRoots canonical (lt_AllowedFileRoots t)))
          (EMsg "file path is outside allowed roots")) ;;;
  info <- Lstat canonical ;;
  match fi_Sys info with
  | None => throw (EMsg "file inode unavailable")
  | Some ino =>
    ret (MkTargetSnapshot "file" targetID canonical false "" 0 (fi_Size info) (fi_ModTime info)
           (uint32 (fi_Mode info)) ino 0 0 "" "" 0 "" "" 0)
  end.

Definition SnapshotNewFile (t : LinuxTargets) (targetID path : string) : M H TargetSnapshot :=
  let clean := Clean path in
  parent <- EvalSymlinks (Dir clean) ;;
  let name := Base clean in
  lift (guard_ (String.eqb name "." || String.eqb name "/" || String.eqb name "")
          (EMsg "target file name is invalid")) ;;;
  let canonical := PathJoin [parent; name] in
  lift (guard_ (negb (withinRoots canonical (lt_AllowedFileRoots t)))
          (EMsg "file path is outside allowed roots")) ;;;
  existing <- try_ (Lstat canonical) ;;
  match existing with
  | Ok _ => throw (EMsg "target file already exists")
  | Err e =>
    if negb (errors_is e ENOENT) then throw e
    else
      info <- Lstat parent ;;
      lift (guard_ (negb (IsDir info)) (EMsg "target parent is not a directory")) ;;;
      match fi_Sys info with
      | None => throw (EMsg "parent directory inode unavailable")
      | Some ino =>
        ret (MkTargetSnapshot "file" targetID canonical true parent ino 0 0 0 0 0 0 "" "" 0 "" "" 0)
      end
  end.

Definition observe (t : LinuxTargets) (expected : TargetSnapshot) : M H TargetSnapshot :=
  if String.eqb (ts_Type expected) "process" then SnapshotProcess t (ts_ID expected) (ts_PID expected)
  else if String.eqb (ts_Type expected) "service" then SnapshotService t (ts_ID expected) (ts_ServiceName expected)
  else if String.eqb (ts_Type expected) "file" then
    if ts_ExpectAbsent expected then SnapshotNewFile t (ts_ID expected) (ts_CanonicalPath expected)
    else SnapshotFile t (ts_ID expected) (ts_CanonicalPath expected)
  else throw (EMsg "unsupported target snapshot type").

Definition Revalidate (t : LinuxTargets) (expected : TargetSnapshot) : M H unit :=
  current <- observe t expected ;;
  let expectedDigest := snapshot_Digest expected in
  let currentDigest := snapshot_Digest current in
  if negb (String.eqb expectedDigest currentDigest)
  then throw (EMsg ("snapshot digest changed: expected " +:+ expectedDigest +:+ " got " +:+ currentDigest))
  else ret tt.
End Targets.
Arguments LinuxTargets : clear implicits.

(** [MutableTargets]: the same readers with roots that can be replaced;
    every operation takes a copy of the current ones. *)
Record MutableTargets (H : Type) := MkMutableTargets {
  mt_readers : LinuxTargets H;
  mt_allowedFileRoots : list string
}.
Arguments MkMutableTargets {H}.
Arguments mt_readers {H}.
Arguments mt_allowedFileRoots {H}.

Definition NewMutableTargets {H} (readers : LinuxTargets H) (allowedFileRoots : list string) : MutableTargets H :=
  MkMutableTargets readers allowedFileRoots.

Definition UpdateAllowedFileRoots {H} (roots : list string) (t : MutableTargets H) : MutableTargets H :=
  MkMutableTargets (mt_readers t) roots.

Definition snapshotter {H} (t : MutableTargets H) : LinuxTargets H :=
  MkLinuxTargets (lt_procRoot (mt_readers t)) (lt_pageSize (mt_readers t)) (lt_fallback (mt_readers t))
    (lt_systemctl (mt_readers t)) (mt_allowedFileRoots t).

Definition MutableTargets_Revalidate {H} `{Machine H} `{UnicodeCase} (t : MutableTargets H)
    (expected : TargetSnapshot) : M H unit :=
  Revalidate (snapshotter t) expected.

Record FixedScope := MkFixedScope {
  fs_AllowedServices : gmap string bool;
  fs_AllowedFileRoots : list string;
  fs_AllowedProcessExecutables : list string
}.

Definition Authorize `{UnicodeCase} (s : FixedScope) (envelope : ActionEnvelope) : result unit :=
  let snapshot := ae_TargetSnapshot envelope in
  if String.eqb (ts_Type snapshot) "service" then
    fail_if negb (default false (fs_AllowedServices s !! ToLower (ts_ServiceName snapshot)))
    with EMsg "service is not allowlisted" ;; Ok tt
  else if String.eqb (ts_Type snapshot) "file" then
    fail_if negb (withinRoots (ts_CanonicalPath snapshot) (fs_AllowedFileRoots s))
    with EMsg "file path is not allowlisted" ;; Ok tt
  else if String.eqb (ts_Type snapshot) "process" then
    fail_if negb (existsb (fun prefix => String.eqb (ts_Executable snapshot) prefix
                                         || HasPrefix (ts_Executable snapshot) (prefix +:+ "/"))
                    (fs_AllowedProcessExecutables s))
    with EMsg "process executable is not allowlisted" ;; Ok tt
  else Err (EMsg "unsupported target type").

(** ** Lemmas *)

(** The component-wise reading of [withinRoots]. *)
Lemma withinRoots_iff path roots :
  IsAbs path = true -> Forall (fun r => IsAbs r = true) roots ->
  (withinRoots path roots = true <->
   exists root, root ∈ roots /\ path_comps root `prefix_of` path_comps path).
Proof.
  intros Hp HF. unfold withinRoots. rewrite existsb_exists. setoid_rewrite list_elem_of_In.
  split; intros (root&Hr&Hx); exists root; (split; [done|]);
    (assert (IsAbs root = true) by (rewrite Forall_forall in HF; apply HF; by apply list_elem_of_In));
    rewrite rel_inside_iff in * by (by rewrite IsAbs_Clean); rewrite !path_comps_Clean in * by done; done.
Qed.

(** The file branch of the scope, on absolute paths. *)
Lemma Authorize_file `{UnicodeCase} s envelope :
  ts_Type (ae_TargetSnapshot envelope) = "file" ->
  (Authorize s envelope = Ok tt <->
   withinRoots (ts_CanonicalPath (ae_TargetSnapshot envelope)) (fs_AllowedFileRoots s) = true).
Proof.
  intros Ht. unfold Authorize. rewrite Ht.
  change (String.eqb "file" "service") with false. change (String.eqb "file" "file") with true. cbn iota.
  destruct (withinRoots _ _); cbn; naive_solver.
Qed.

(** A file snapshot records what was observed, below the allowed roots. *)
Section Facts.
Context {H : Type} `{Machine H} `{UnicodeCase} (t : LinuxTargets H).

Lemma SnapshotFile_inside E targetID path h :
  wp E (SnapshotFile t targetID path) (fun r _ => forall s, r = Ok s ->
    ts_Type s = "file" /\ ts_ID s = targetID /\ ts_ExpectAbsent s = false /\
    withinRoots (ts_CanonicalPath s) (lt_AllowedFileRoots t) = true) h.
Proof.
  unfold SnapshotFile, guard_. apply wp_bind, wp_any. intros [canonical|e] h1; [|done].
  destruct (withinRoots canonical (lt_AllowedFileRoots t)) eqn:Er; cbn [negb]; [|by wp_go].
  do 2 wp_step. apply wp_bind, wp_any. intros [info|e] h2; [|done].
  destruct (fi_Sys info); wp_go; [|done]. by intros s [= <-].
Qed.
End Facts.

(** ** Property *)

(** A target that changed since its approval is refused.  When
    [Revalidate] accepts, what it just observed of the process, service or
    file, with the type, id and path or pid of the approved snapshot, is
    equal to the approved snapshot in every field (pid and start time,
    executable and command digest, size, times, mode and inode, parent
    inode, main pid and state), unless the two canonical texts are a
    SHA-256 collision; and a file observed this way lies below the
    allowed roots. *)
Theorem revalidate_binds {H : Type} `{Machine H} `{UnicodeCase} (t : LinuxTargets H) (expected : TargetSnapshot)
    (E : Env) (w w' : World H)
    (Hr : Revalidate t expected E w = (Ok tt, w'))
    (Hwf : wf_json (snapshot_json expected) = true)
    (Hcur : forall current, (observe t expected E w).1 = Ok current -> wf_json (snapshot_json current) = true) :
  exists current, observe t expected E w = (Ok current, w') /\
    (current = expected \/ collides (print (snapshot_json expected)) (print (snapshot_json current))) /\
    (ts_Type expected = "file" -> ts_ExpectAbsent expected = false ->
     withinRoots (ts_CanonicalPath current) (lt_AllowedFileRoots t) = true).
Proof.
  unfold Revalidate in Hr. apply bind_ok in Hr as (current&w1&Ho&Hr).
  destruct (String.eqb_spec (snapshot_Digest expected) (snapshot_Digest current)) as [Ed|];
    cbn [negb] in Hr; [|discriminate Hr]. injection Hr as ->.
  exists current. split; [done|]. split.
  - destruct (snapshot_digest_binds expected current Hwf) as [->|]; [|done|by left|by right].
    apply Hcur. by rewrite Ho.
  - intros Ht Ha. unfold observe in Ho. rewrite Ht, Ha in Ho.
    change (String.eqb "file" "process") with false in Ho. change (String.eqb "file" "service") with false in Ho.
    change (String.eqb "file" "file") with true in Ho. cbn iota in Ho.
    exact (proj2 (proj2 (proj2 (wp_run _ _ _ _ _ _
             (SnapshotFile_inside t E (ts_ID expected) (ts_CanonicalPath expected) (st w)) Ho current eq_refl)))).
Qed.

(** A machine with one regular file. *)
Definition one_file : Machine unit := {|
  ReadFile := fun _ => throw (ESys ENOENT);
  ReadDir := fun _ => throw (ESys ENOENT);
  Readlink := fun _ => throw (ESys ENOENT);
  EvalSymlinks := fun p => ret p;
  Lstat := fun _ => ret (MkFileInfo 3 100 420 (Some 7));
  Stat := fun _ => ret (MkFileInfo 3 100 420 (Some 7));
  RunCommand := fun _ _ => throw (ESys ENOENT);
  SendSignal := fun _ _ => throw (ESys ESRCH)
|}.

Definition lab_targets : LinuxTargets unit := MkLinuxTargets "/proc" 4096 None "/bin/systemctl" ["/srv/lab"].
Definition lab_file : TargetSnapshot :=
  MkTargetSnapshot "file" "a.txt" "/srv/lab/a.txt" false "" 0 3 100 420 7 0 0 "" "" 0 "" "" 0.

Lemma revalidate_binds_witness :
  exists current,
    observe (H0 := one_file) (H1 := fun r => r) lab_targets lab_file (calm 0 "") (init_world tt) = (Ok current, init_world tt) /\
    (current = lab_file \/ collides (print (snapshot_json lab_file)) (print (snapshot_json current))) /\
    (ts_Type lab_file = "file" -> ts_ExpectAbsent lab_file = false ->
     withinRoots (ts_CanonicalPath current) (lt_AllowedFileRoots lab_targets) = true).
Proof.
  apply (revalidate_binds (H0 := one_file) (H1 := fun r => r) lab_targets lab_file (calm 0 "") (init_world tt) (init_world tt)).
  - unfold Revalidate. unfold bind.
    assert (O : observe (H0 := one_file) (H1 := fun r => r) lab_targets lab_file (calm 0 "") (init_world tt)
                = (Ok lab_file, init_world tt)) by (vm_compute; reflexivity).
    rewrite O, String.eqb_refl. reflexivity.
  - vm_compute. reflexivity.
  - intros current Hc.
    assert (O : observe (H0 := one_file) (H1 := fun r => r) lab_targets lab_file (calm 0 "") (init_world tt)
                = (Ok lab_file, init_world tt)) by (vm_compute; reflexivity).
    rewrite O in Hc. injection Hc as <-. vm_compute. reflexivity.
Defined.
