(* ===== verification/Executor.v ===== *)
(** * [internal/executor]: validation and execution of envelopes

    [Validate] is [validator.go], [Execute] is [executor.go], the handlers
    are [mutation_handlers.go] and [http.go]; the approval store is used
    through the interface [ApprovalVerifier], which [Approval] implements.
    The state of the executor process is its approval directory, its nonce
    store and the host. *)

From S2P Require Import Prelude GoStrings GoText GoPath Json Hash Contracts Guard Approval Nonce Platform Targets.
Open Scope Z_scope.

(** ** Interfaces *)

(** [ApprovalVerifier] of [validator.go]. *)
Class ApprovalVerifier (A : Type) := {
  av_Validate : string -> Binding -> M A unit;
  av_Consume : string -> Binding -> M A unit
}.

(** What the executor relies on: checking changes nothing, a successful
    consumption was of an approval for exactly this binding that is not
    available any more, and the counters of the environment only advance. *)
Class ApprovalPromise (A : Type) `{ApprovalVerifier A} := {
  av_ok : A -> Prop;
  av_approved : string -> Binding -> A -> Prop;
  av_validate_still : forall id b, obeys (on_st eq) (av_Validate id b);
  av_consume_ok : forall id b E a, av_ok a -> wp E (av_Consume id b) (fun _ a' => av_ok a') a;
  av_consume_sound : forall id b E a, av_ok a ->
    wp E (av_Consume id b) (fun r a' => r = Ok tt -> av_approved id b a /\ ~ av_approved id b a') a;
  av_validate_advances : forall id b, obeys advances (av_Validate id b);
  av_consume_advances : forall id b, obeys advances (av_Consume id b)
}.

#[export] Instance approval_store : ApprovalVerifier (gmap string (option ApprovalRecord)) := {|
  av_Validate := Approval.Validate;
  av_Consume := Approval.Consume
|}.

(** ** State *)

Record XState (A H : Type) := MkXState {
  xs_approvals : A;
  xs_nonces : NonceStore;
  xs_host : H
}.
Arguments MkXState {A H}.
Arguments xs_approvals {A H}.
Arguments xs_nonces {A H}.
Arguments xs_host {A H}.

Definition on_approvals {A H X} : M A X -> M (XState A H) X :=
  zoom xs_approvals (fun a s => MkXState a (xs_nonces s) (xs_host s)).
Definition on_nonces {A H X} : M NonceStore X -> M (XState A H) X :=
  zoom xs_nonces (fun n s => MkXState (xs_approvals s) n (xs_host s)).
Definition on_host {A H X} : M H X -> M (XState A H) X :=
  zoom xs_host (fun h s => MkXState (xs_approvals s) (xs_nonces s) h).

(** ** validator.go *)

Record Validator (H : Type) := MkValidator {
  v_Secret : string;
  v_Catalog : Catalog;
  v_Nonces : bool;
  v_Approvals : bool;
  v_Scope : option (ActionEnvelope -> result unit);
  v_Targets : option (TargetSnapshot -> M H unit);
  v_MaxTTL : Z
}.
Arguments MkValidator {H}.
Arguments v_Secret {H}.
Arguments v_Catalog {H}.
Arguments v_Nonces {H}.
Arguments v_Approvals {H}.
Arguments v_Scope {H}.
Arguments v_Targets {H}.
Arguments v_MaxTTL {H}.

Record Validation := MkValidation {
  vn_Binding : Binding;
  vn_ApprovalRequired : bool
}.

Definition empty (s : string) : bool := String.eqb s "".

(** Lines 45-85: the checks before the safety pipeline runs again, on the
    time [current]. *)
Definition check_envelope `{UnicodeCase} `{TimeText} (secret version : string) (maxTTL current : Z)
    (envelope : ActionEnvelope) : result unit :=
  fail_if negb (ae_SchemaVersion envelope =? 1) with EMsg "unsupported ActionEnvelope schema" ;;
  fail_if empty (ae_TraceID envelope) || empty (ae_TaskID envelope) || empty (ae_SessionID envelope)
  with EMsg "envelope correlation IDs are required" ;;
  fail_if negb (String.eqb (ap_TaskID (ae_Proposal envelope)) (ae_TaskID envelope))
          || negb (String.eqb (ap_SessionID (ae_Proposal envelope)) (ae_SessionID envelope))
  with EMsg "envelope task/session binding mismatch" ;;
  fail_if empty (ap_Tool (ae_Proposal envelope)) with EMsg "invalid envelope tool" ;;
  fail_if empty (ae_Nonce envelope) with EMsg "envelope nonce is required" ;;
  fail_if ae_ExpiresAt envelope <=? current with EMsg "envelope expired" ;;
  let maxTTL := if maxTTL <=? 0 then 15 * Minute else maxTTL in
  fail_if current + maxTTL <? ae_ExpiresAt envelope with EMsg "envelope expiry exceeds maximum TTL" ;;
  let? _ := VerifySignature secret envelope in
  let? proposalDigest := proposal_Digest (ae_Proposal envelope) in
  fail_if negb (String.eqb proposalDigest (ae_ProposalDigest envelope)) with EMsg "proposal digest mismatch" ;;
  fail_if negb (String.eqb (ae_PolicyVersion envelope) version) with EMsg "policy version mismatch" ;;
  fail_if negb (String.eqb (CanonicalTarget (ap_Target (ae_Proposal envelope)))
                  (CanonicalTarget (MkTargetRef (ts_Type (ae_TargetSnapshot envelope))
                                      (ts_ID (ae_TargetSnapshot envelope)) "")))
  with EMsg "target snapshot binding mismatch" ;;
  Ok tt.

(** Lines 86-95: the outcome of the pipeline against the envelope. *)
Definition check_safety (safety : PipelineResult) (envelope : ActionEnvelope) : result unit :=
  fail_if String.eqb (gd_Outcome (pr_Static safety)) Deny || String.eqb (id_Outcome (pr_Intent safety)) Deny
          || String.eqb (gd_Outcome (pr_Final safety)) Deny
  with EMsg ("executor safety revalidation denied: " +:+ gd_Reason (pr_Final safety)) ;;
  fail_if negb (String.eqb (id_IntentDigest (pr_Intent safety)) (ae_IntentDigest envelope))
  with EMsg "intent digest mismatch" ;;
  fail_if negb (bool_decide (pr_Risk safety = ae_Risk envelope)) with EMsg "risk result mismatch" ;;
  Ok tt.

Definition envelope_binding (envelope : ActionEnvelope) : Binding :=
  MkBinding (ae_TaskID envelope) (ae_ProposalDigest envelope) (snapshot_Digest (ae_TargetSnapshot envelope))
    (ae_IntentDigest envelope) (ae_PolicyVersion envelope) (rr_Level (ae_Risk envelope))
    (ap_Tool (ae_Proposal envelope)) (ae_Nonce envelope).

Section Executor.
Context {A H : Type} `{ApprovalVerifier A} `{UnicodeCase} `{TimeText}.

Definition Validate (v : Validator H) (envelope : ActionEnvelope) : M (XState A H) Validation :=
  current <- now ;;
  lift (check_envelope (v_Secret v) (VersionID (Some (v_Catalog v))) (v_MaxTTL v) current envelope) ;;;
  static_id <- new_id "decision" ;;
  intent_id <- new_id "decision" ;;
  let safety := pipeline_Evaluate (v_Catalog v) static_id intent_id (ae_Proposal envelope) in
  lift (check_safety safety envelope) ;;;
  let binding := envelope_binding envelope in
  let approvalRequired := String.eqb (gd_Outcome (pr_Final safety)) RequireApproval in
  (if approvalRequired then
     lift (guard_ (empty (ae_ApprovalID envelope) || negb (v_Approvals v)) (EMsg "valid approval is required")) ;;;
     on_approvals (av_Validate (ae_ApprovalID envelope) binding)
   else ret tt) ;;;
  match v_Scope v with
  | None => throw (EMsg "executor target scope is not configured")
  | Some authorize =>
    lift (wrap_err "target scope denied: " (authorize envelope)) ;;;
    match v_Targets v with
    | None => throw (EMsg "target revalidator is not configured")
    | Some revalidate =>
      wrapping "TARGET_CHANGED: " (on_host (revalidate (ae_TargetSnapshot envelope))) ;;;
      lift (guard_ (negb (v_Nonces v)) (EMsg "nonce store is not configured")) ;;;
      on_nonces (Reserve (ae_Nonce envelope) (ae_ExpiresAt envelope)) ;;;
      ret (MkValidation binding approvalRequired)
    end
  end.

(** ** executor.go *)

Record Verification := MkVerification {
  vf_Verified : bool;
  vf_Checks : list string;
  vf_Evidence : gmap string string
}.

Record Result := MkResult {
  rs_Tool : string;
  rs_Mode : string;
  rs_Status : string;
  rs_Message : string;
  rs_ActionID : string;
  rs_Changed : bool;
  rs_Verification : option Verification;
  rs_StartedAt : Z;
  rs_FinishedAt : Z
}.

Definition fixedHandlers : list string :=
  ["service.restart"; "service.start"; "service.stop"; "process.terminate"; "file.quarantine";
   "file.restore_quarantine"; "file.create"; "file.delete"].

Record Executor := MkExecutor {
  x_Validator : Validator H;
  x_Handlers : gmap string (ActionEnvelope -> M H Result)
}.

Definition Execute (e : Executor) (envelope : ActionEnvelope) : M (XState A H) Result :=
  match x_Handlers e !! ap_Tool (ae_Proposal envelope) with
  | None => throw (EMsg "executor has no fixed handler for tool")
  | Some handler =>
    if negb (string_in (ap_Tool (ae_Proposal envelope)) fixedHandlers)
    then throw (EMsg "executor has no fixed handler for tool")
    else
      validation <- Validate (x_Validator e) envelope ;;
      (if vn_ApprovalRequired validation then
         wrapping "consume approval: " (on_approvals (av_Consume (ae_ApprovalID envelope) (vn_Binding validation)))
       else ret tt) ;;;
      on_host (handler envelope)
  end.

Definition DryRunHandler (envelope : ActionEnvelope) : M H Result :=
  t <- now ;;
  ret (MkResult (ap_Tool (ae_Proposal envelope)) "DRY_RUN" "DRY_RUN_OK"
         "固定 Handler 已完成校验；未执行系统写操作" "" false
         (Some (MkVerification true ["envelope and target validation completed"] ∅)) t t).

(** A restart of the process: the nonce file is read back. *)
Definition Restart : M (XState A H) unit := on_nonces NewNonceStore.
End Executor.
Arguments Executor : clear implicits.

(** ** The approval store keeps the promise *)

Definition record_approved (id : string) (b : Binding) (d : gmap string (option ApprovalRecord)) : Prop :=
  exists rec, d !! id = Some (Some rec) /\ ar_Status rec = Approved /\ ar_Binding rec = b.

(** On directories whose files are named after their records. *)
Lemma store_consume_sound id b E d :
  well_named d ->
  wp E (Approval.Consume id b) (fun r d' => r = Ok tt -> record_approved id b d /\ ~ record_approved id b d') d.
Proof.
  intros Hn. eapply wp_mono; [apply Consume_success|]. intros r d' Hc ->.
  destruct (Hc eq_refl) as (rec&n&n'&Hr&Hs&Hb&_&->). split; [by exists rec|].
  intros (rec'&Hr'&Hs'&_). rewrite (Hn id rec Hr), lookup_insert_eq in Hr'.
  by injection Hr' as <-.
Qed.

Lemma store_consume_ok id b E d :
  well_named d -> wp E (Approval.Consume id b) (fun _ d' => well_named d') d.
Proof. intros Hn. eapply wp_mono; [apply Consume_evolves|]. intros r d' H. by apply H. Qed.

Lemma store_validate_still id b : obeys (on_st eq) (Approval.Validate id b).
Proof. apply wp_obeys. intros E s. eapply wp_mono; [apply Validate_still|]. by intros r s' ->. Qed.

Lemma store_load_advances id : obeys advances (Approval.load id).
Proof. unfold Approval.load. adv_walk. Qed.

Lemma store_validate_advances id b : obeys advances (Approval.Validate id b).
Proof. unfold Approval.Validate. adv_walk. apply store_load_advances. Qed.

Lemma store_consume_advances id b : obeys advances (Approval.Consume id b).
Proof. unfold Approval.Consume, Approval.save. adv_walk. apply store_load_advances. Qed.

#[export] Instance approval_store_promise : ApprovalPromise (gmap string (option ApprovalRecord)) := {|
  av_ok := well_named;
  av_approved := record_approved;
  av_validate_still := store_validate_still;
  av_consume_ok := store_consume_ok;
  av_consume_sound := store_consume_sound;
  av_validate_advances := store_validate_advances;
  av_consume_advances := store_consume_advances
|}.

(** ** The gate *)
Section Gate.
Context {A H : Type} `{ApprovalPromise A} `{UnicodeCase} `{TimeText}.
Context (e : Executor H).
Abbreviation v := (x_Validator e).

(** What must hold of an envelope and the states before and after the gate
    for its action to run. *)
Record authorized (E : Env) (env : ActionEnvelope) (s s' : XState A H) : Prop := {
  au_tool : ap_Tool (ae_Proposal env) ∈ fixedHandlers;
  au_signature : VerifySignature (v_Secret v) env = Ok tt;
  au_digest : proposal_Digest (ae_Proposal env) = Ok (ae_ProposalDigest env);
  au_policy : ae_PolicyVersion env = cat_Version (v_Catalog v);
  au_target : CanonicalTarget (ap_Target (ae_Proposal env)) =
              CanonicalTarget (MkTargetRef (ts_Type (ae_TargetSnapshot env)) (ts_ID (ae_TargetSnapshot env)) "");
  au_time : exists n, clock E n < ae_ExpiresAt env /\
              ae_ExpiresAt env <= clock E n + (if v_MaxTTL v <=? 0 then 15 * Minute else v_MaxTTL v);
  au_pipeline : exists sid iid,
    let safety := pipeline_Evaluate (v_Catalog v) sid iid (ae_Proposal env) in
    gd_Outcome (pr_Final safety) <> Deny /\
    id_IntentDigest (pr_Intent safety) = ae_IntentDigest env /\ pr_Risk safety = ae_Risk env /\
    (gd_Outcome (pr_Final safety) = RequireApproval ->
     av_approved (ae_ApprovalID env) (envelope_binding env) (xs_approvals s) /\
     ~ av_approved (ae_ApprovalID env) (envelope_binding env) (xs_approvals s'));
  au_scope : exists authorize, v_Scope v = Some authorize /\ authorize env = Ok tt;
  au_nonce : ae_Nonce env <> "" /\
    exists n, forall e', ns_used (xs_nonces s) !! ae_Nonce env = Some e' -> e' < clock E n
}.

Lemma check_envelope_ok secret version ttl t env :
  check_envelope secret version ttl t env = Ok tt ->
  VerifySignature secret env = Ok tt /\ proposal_Digest (ae_Proposal env) = Ok (ae_ProposalDigest env) /\
  ae_PolicyVersion env = version /\
  CanonicalTarget (ap_Target (ae_Proposal env)) =
    CanonicalTarget (MkTargetRef (ts_Type (ae_TargetSnapshot env)) (ts_ID (ae_TargetSnapshot env)) "") /\
  t < ae_ExpiresAt env /\ ae_ExpiresAt env <= t + (if ttl <=? 0 then 15 * Minute else ttl).
Proof.
  unfold check_envelope. rewrite !fail_if_ok, !rbind_ok. intros (_&_&_&_&_&Ht&Hm&[]&Hs&Hr).
  apply rbind_ok in Hr as (d&Hd&Hr). rewrite !fail_if_ok in Hr. destruct Hr as (Ed&Ev&Ec&_).
  apply negb_false_iff, String.eqb_eq in Ed, Ev, Ec. apply Z.leb_gt in Ht. apply Z.ltb_ge in Hm.
  subst d. by split_and!.
Qed.

Lemma check_safety_ok safety env :
  check_safety safety env = Ok tt ->
  gd_Outcome (pr_Final safety) <> Deny /\ id_IntentDigest (pr_Intent safety) = ae_IntentDigest env /\
  pr_Risk safety = ae_Risk env.
Proof.
  unfold check_safety. rewrite !fail_if_ok, !orb_false_iff, !negb_false_iff, String.eqb_eq, bool_decide_eq_true.
  intros ([[_ _] Ho]&Hi&Hr&_). by apply String.eqb_neq in Ho.
Qed.

Lemma wp_Reserve E n x Q s :
  (forall er s', Q (Err er) s') ->
  (forall s' m, n <> "" -> (forall e', ns_used s !! n = Some e' -> e' < clock E m) -> Q (Ok tt) s') ->
  wp E (Reserve n x) Q s.
Proof.
  intros Herr Hok w <-. pose proof (Reserve_ok E n x w) as R. unfold wpw in R.
  destruct (Reserve n x E w) as [[[]|er] w']; cbn in *; [|apply Herr].
  destruct (R eq_refl) as (Hn&Hf&_). by eapply Hok.
Qed.

(** What a successful [Validate] has established. *)
Record validated (E : Env) (env : ActionEnvelope) (s : XState A H) (vn : Validation) : Prop := {
  vd_check : exists n, check_envelope (v_Secret v) (cat_Version (v_Catalog v)) (v_MaxTTL v) (clock E n) env = Ok tt;
  vd_safety : exists sid iid,
    let safety := pipeline_Evaluate (v_Catalog v) sid iid (ae_Proposal env) in
    check_safety safety env = Ok tt /\
    vn = MkValidation (envelope_binding env) (String.eqb (gd_Outcome (pr_Final safety)) RequireApproval);
  vd_scope : exists authorize, v_Scope v = Some authorize /\ authorize env = Ok tt;
  vd_nonce : ae_Nonce env <> "" /\
    exists n, forall e', ns_used (xs_nonces s) !! ae_Nonce env = Some e' -> e' < clock E n
}.

Context (Hstill : forall f sn, v_Targets v = Some f -> obeys (on_st eq) (f sn)).

(** Everything after the safety check: approval, scope, target, nonce. *)
Lemma Validate_tail E env s (need : bool) b (Q : result Validation -> XState A H -> Prop) :
  (forall er n', Q (Err er) (MkXState (xs_approvals s) n' (xs_host s))) ->
  (forall n' authorize m, v_Scope v = Some authorize -> authorize env = Ok tt -> ae_Nonce env <> "" ->
     (forall e', ns_used (xs_nonces s) !! ae_Nonce env = Some e' -> e' < clock E m) ->
     Q (Ok (MkValidation b need)) (MkXState (xs_approvals s) n' (xs_host s))) ->
  wp E ((if need then
     lift (guard_ (empty (ae_ApprovalID env) || negb (v_Approvals v)) (EMsg "valid approval is required")) ;;;
     on_approvals (av_Validate (ae_ApprovalID env) b)
   else ret tt) ;;;
  match v_Scope v with
  | None => throw (EMsg "executor target scope is not configured")
  | Some authorize =>
    lift (wrap_err "target scope denied: " (authorize env)) ;;;
    match v_Targets v with
    | None => throw (EMsg "target revalidator is not configured")
    | Some revalidate =>
      wrapping "TARGET_CHANGED: " (on_host (revalidate (ae_TargetSnapshot env))) ;;;
      lift (guard_ (negb (v_Nonces v)) (EMsg "nonce store is not configured")) ;;;
      on_nonces (Reserve (ae_Nonce env) (ae_ExpiresAt env)) ;;;
      ret (MkValidation b need)
    end
  end) Q s.
Proof.
  intros Herr Hok. assert (Es : forall er, Q (Err er) s) by (destruct s; intros er; apply Herr).
  assert (T : wp E (match v_Scope v with
  | None => throw (EMsg "executor target scope is not configured")
  | Some authorize =>
    lift (wrap_err "target scope denied: " (authorize env)) ;;;
    match v_Targets v with
    | None => throw (EMsg "target revalidator is not configured")
    | Some revalidate =>
      wrapping "TARGET_CHANGED: " (on_host (revalidate (ae_TargetSnapshot env))) ;;;
      lift (guard_ (negb (v_Nonces v)) (EMsg "nonce store is not configured")) ;;;
      on_nonces (Reserve (ae_Nonce env) (ae_ExpiresAt env)) ;;;
      ret (MkValidation b need)
    end
  end) Q s).
  { destruct (v_Scope v) as [authorize|] eqn:Esc; [|by wp_go].
    do 2 wp_step. destruct (authorize env) as [[]|er] eqn:Ea; cbn; [|apply Es].
    destruct (v_Targets v) as [f|] eqn:Et; [|by wp_go].
    do 2 wp_step. apply wp_zoom. eapply wp_of_obeys; [by apply Hstill|]. intros r h <-.
    replace (MkXState (xs_approvals s) (xs_nonces s) (xs_host s)) with s by (by destruct s).
    destruct r as [[]|er]; cbn; [|apply Es].
    do 2 wp_step. unfold guard_. destruct (v_Nonces v); cbn; [|apply Es].
    wp_step. apply wp_zoom. apply wp_Reserve; [intros; apply Herr|].
    intros n' m Hne Hn. wp_step. by eapply Hok. }
  destruct need; [|do 2 wp_step; exact T].
  do 3 wp_step. unfold guard_. destruct (_ || _); cbn; [apply Es|].
  apply wp_zoom. eapply wp_of_obeys; [apply av_validate_still|]. intros r a <-.
  replace (MkXState (xs_approvals s) (xs_nonces s) (xs_host s)) with s by (by destruct s).
  by destruct r as [[]|er].
Qed.

Lemma Validate_wp E env s :
  wp E (Validate v env) (fun r s' => xs_host s' = xs_host s /\ xs_approvals s' = xs_approvals s /\
    forall vn, r = Ok vn -> validated E env s vn) s.
Proof.
  unfold Validate. do 4 wp_step. destruct (check_envelope _ _ _ _ _) as [[]|er] eqn:Ec; [|done].
  do 5 wp_step. cbv zeta. wp_step.
  set (safety := pipeline_Evaluate _ _ _ _). destruct (check_safety safety env) as [[]|er] eqn:Es; [|done].
  apply Validate_tail; [done|]. intros n' authorize m H4 H5 H6 H7. split_and!; [done|done|].
  intros vn [= <-]. split; [eexists; exact Ec| |by eexists|].
  - do 2 eexists. split; [exact Es|reflexivity].
  - split; [done|]. by exists m.
Qed.
End Gate.

(** ** Replays *)
Section Replay.
Context {A H : Type} `{ApprovalPromise A} `{UnicodeCase} `{TimeText}.
Context (e : Executor H).
Abbreviation v := (x_Validator e).

(** The parts of an execution that leave the nonce store alone. *)
Definition aside (w w' : World (XState A H)) : Prop :=
  xs_nonces (st w') = xs_nonces (st w) /\ (ticks w <= ticks w')%nat.

#[local] Instance aside_preorder : PreOrder aside.
Proof. split; unfold aside; [intros w; split; [done|lia]|intros a b c [-> ?] [-> ?]; split; [done|lia]]. Qed.

Lemma aside_now : obeys aside now.
Proof. intros E w. unfold aside. cbn. split; [done|lia]. Qed.

Lemma aside_new_id p : obeys aside (new_id p).
Proof. intros E w. unfold aside. cbn. split; [done|lia]. Qed.

Lemma aside_approvals {X} (m : M A X) : obeys advances m -> obeys aside (on_approvals m).
Proof.
  intros Hm E w. unfold on_approvals, zoom. specialize (Hm E (with_st w (xs_approvals (st w)))).
  destruct (m E _) as [r w1]. unfold aside, advances in *. cbn in *. split; [done|lia].
Qed.

Lemma aside_host {X} (m : M H X) : obeys advances m -> obeys aside (on_host m).
Proof.
  intros Hm E w. unfold on_host, zoom. specialize (Hm E (with_st w (xs_host (st w)))).
  destruct (m E _) as [r w1]. unfold aside, advances in *. cbn in *. split; [done|lia].
Qed.

(** The nonce [n] is recorded until [x] in the executor's store. *)
Definition live (E : Env) (n : string) (x : Z) (w : World (XState A H)) : Prop :=
  held E n x (with_st w (xs_nonces (st w))).

Lemma live_aside E n x w w' : monotone E -> aside w w' -> live E n x w -> live E n x w'.
Proof.
  intros Hm [En Ht] [Hl|Hl]; [left|right]; cbn in *; [|by rewrite En].
  specialize (Hm _ _ Ht). lia.
Qed.

Lemma wpw_aside {X} E (m : M (XState A H) X) Q n x w :
  monotone E -> obeys aside m -> live E n x w ->
  (forall r w', aside w w' -> live E n x w' -> Q r w') -> wpw E m Q w.
Proof. intros Hm Ho Hl HQ. apply HQ; [apply Ho|]. eapply live_aside; [done|apply Ho|done]. Qed.

Lemma wpw_live_Reserve E n x n' x' w :
  monotone E -> live E n x w -> wpw E (on_nonces (Reserve n' x')) (fun _ w' => live E n x w') w.
Proof.
  intros Hm Hl. apply wpw_zoom. eapply wpw_mono; [apply (Reserve_held E n x); done|].
  intros r w' Hl'. exact Hl'.
Qed.

Context (Htargets : forall f sn, v_Targets v = Some f -> obeys advances (f sn)).
Context (Hhandlers : forall t h env, x_Handlers e !! t = Some h -> obeys advances (h env)).

(** The part of [Validate] before the nonce is reserved. *)
Definition before_reserve (env : ActionEnvelope) : M (XState A H) Validation :=
  current <- now ;;
  lift (check_envelope (v_Secret v) (VersionID (Some (v_Catalog v))) (v_MaxTTL v) current env) ;;;
  static_id <- new_id "decision" ;;
  intent_id <- new_id "decision" ;;
  let safety := pipeline_Evaluate (v_Catalog v) static_id intent_id (ae_Proposal env) in
  lift (check_safety safety env) ;;;
  let binding := envelope_binding env in
  let approvalRequired := String.eqb (gd_Outcome (pr_Final safety)) RequireApproval in
  (if approvalRequired then
     lift (guard_ (empty (ae_ApprovalID env) || negb (v_Approvals v)) (EMsg "valid approval is required")) ;;;
     on_approvals (av_Validate (ae_ApprovalID env) binding)
   else ret tt) ;;;
  match v_Scope v with
  | None => throw (EMsg "executor target scope is not configured")
  | Some authorize =>
    lift (wrap_err "target scope denied: " (authorize env)) ;;;
    match v_Targets v with
    | None => throw (EMsg "target revalidator is not configured")
    | Some revalidate =>
      wrapping "TARGET_CHANGED: " (on_host (revalidate (ae_TargetSnapshot env))) ;;;
      lift (guard_ (negb (v_Nonces v)) (EMsg "nonce store is not configured")) ;;;
      ret (MkValidation binding approvalRequired)
    end
  end.

Lemma Validate_split E env w :
  Validate v env E w =
  (vn <- before_reserve env ;; on_nonces (Reserve (ae_Nonce env) (ae_ExpiresAt env)) ;;; ret vn) E w.
Proof.
  unfold Validate, before_reserve. symmetry.
  etransitivity; [apply bind_assoc|]. apply bind_ext. intros current w1.
  etransitivity; [apply bind_assoc|]. apply bind_ext. intros [] w2.
  etransitivity; [apply bind_assoc|]. apply bind_ext. intros sid w3.
  etransitivity; [apply bind_assoc|]. apply bind_ext. intros iid w4. cbv zeta.
  etransitivity; [apply bind_assoc|]. apply bind_ext. intros [] w5.
  etransitivity; [apply bind_assoc|]. apply bind_ext. intros [] w6.
  destruct (v_Scope v) as [f|]; [|done].
  etransitivity; [apply bind_assoc|]. apply bind_ext. intros [] w7.
  destruct (v_Targets v) as [g|]; [|done].
  etransitivity; [apply bind_assoc|]. apply bind_ext. intros [] w8.
  etransitivity; [apply bind_assoc|]. apply bind_ext. intros [] w9. reflexivity.
Qed.

Lemma before_reserve_aside env : obeys aside (before_reserve env).
Proof.
  unfold before_reserve. cbv zeta.
  repeat match goal with
  | |- obeys aside (bind _ _) => apply obeys_bind; [apply _| |intros ?]
  | |- obeys aside (match ?x with _ => _ end) => destruct x eqn:?
  | |- obeys aside (ret _) => apply obeys_ret; apply _
  | |- obeys aside (throw _) => apply obeys_throw; apply _
  | |- obeys aside (lift _) => apply obeys_lift; apply _
  | |- obeys aside now => apply aside_now
  | |- obeys aside (new_id _) => apply aside_new_id
  | |- obeys aside (wrapping _ _) => apply obeys_wrapping
  | |- obeys aside (on_approvals _) => apply aside_approvals, av_validate_advances
  | |- obeys aside (on_host _) => apply aside_host; eauto
  end.
Qed.

Lemma before_reserve_time env E w vn w' :
  before_reserve env E w = (Ok vn, w') -> clock E (ticks w) < ae_ExpiresAt env.
Proof.
  unfold before_reserve, bind at 1, now. unfold bind at 1, lift at 1.
  destruct (check_envelope _ _ _ _ _) as [[]|] eqn:Ec; [|done].
  intros _. apply check_envelope_ok in Ec. tauto.
Qed.

(** A successful validation leaves its nonce recorded. *)
Lemma Validate_live E env w vn w' :
  Validate v env E w = (Ok vn, w') -> live E (ae_Nonce env) (ae_ExpiresAt env) w'.
Proof.
  rewrite Validate_split. intros Hv. apply bind_ok in Hv as (vn'&w1&_&Hv).
  apply bind_ok in Hv as ([]&w2&Hr&[= -> ->]).
  unfold on_nonces, zoom in Hr. destruct (Reserve _ _ E _) as [r w3] eqn:Er.
  injection Hr as -> <-. pose proof (wpw_run _ _ _ _ _ _ (Reserve_ok E _ _ _) Er eq_refl) as (_&_&Hu&Hf).
  right. cbn. split; [done|]. by eexists.
Qed.

(** Validation, execution and restart keep every recorded nonce. *)
Lemma Validate_keeps E n x env w :
  monotone E -> live E n x w -> live E n x (Validate v env E w).2.
Proof.
  intros Hm Hl. rewrite Validate_split. change (wpw E (vn <- before_reserve env ;;
    on_nonces (Reserve (ae_Nonce env) (ae_ExpiresAt env)) ;;; ret vn) (fun _ w' => live E n x w') w).
  apply wpw_bind. eapply wpw_aside; [done|apply before_reserve_aside|done|].
  intros [vn|er] w1 _ L1; [|done]. apply wpw_bind. eapply wpw_mono; [by apply wpw_live_Reserve|].
  by intros [[]|er] w2 L2.
Qed.

Lemma Execute_keeps E n x env w :
  monotone E -> live E n x w -> live E n x (Execute e env E w).2.
Proof.
  intros Hm Hl. unfold Execute. destruct (x_Handlers e !! _) as [h|] eqn:Eh; [|done].
  destruct (negb _); [done|].
  match goal with |- live _ _ _ (?m E w).2 => change (wpw E m (fun _ w' => live E n x w') w) end.
  apply wpw_bind. unfold wpw at 1. pose proof (Validate_keeps E n x env w Hm Hl) as L1.
  destruct (Validate v env E w) as [[vn|er] w1]; cbn in *; [|done].
  assert (O : obeys aside ((if vn_ApprovalRequired vn then
         wrapping "consume approval: " (on_approvals (av_Consume (ae_ApprovalID env) (vn_Binding vn)))
       else ret tt) ;;; on_host (h env))).
  { apply obeys_bind; [apply _| |intros _; apply aside_host; by eapply Hhandlers].
    destruct (vn_ApprovalRequired vn); [|apply obeys_ret, _].
    apply obeys_wrapping. apply aside_approvals, av_consume_advances. }
  eapply wpw_aside; [done|exact O|done|]. intros r w2 _ L2. exact L2.
Qed.

Lemma Restart_keeps E n x w :
  honest E -> live E n x w -> live E n x (Restart E w).2.
Proof.
  intros Hh Hl. change (wpw E (@Restart A H) (fun _ w' => live E n x w') w).
  unfold Restart, on_nonces. apply wpw_zoom. eapply wpw_mono; [by apply NewNonceStore_held|]. done.
Qed.

(** What the executor does between two deliveries of an envelope. *)
Inductive xop :=
  | XExecute (env : ActionEnvelope)
  | XRestart.

Definition run_xop (o : xop) : M (XState A H) unit :=
  match o with
  | XExecute env => Execute e env ;;; ret tt
  | XRestart => Restart
  end.

Definition run_xops (l : list xop) : M (XState A H) (list (result unit)) :=
  mapM (fun o => try_ (run_xop o)) l.

Lemma run_xops_keeps E n x l w :
  monotone E -> honest E -> live E n x w -> live E n x (run_xops l E w).2.
Proof.
  intros Hm Hh Hl. change (wpw E (run_xops l) (fun _ w' => live E n x w') w).
  apply wpw_mapM; [|done]. intros o w1 _ L1. apply wpw_try. destruct o as [env|]; cbn [run_xop].
  - apply wpw_bind. unfold wpw. pose proof (Execute_keeps E n x env w1 Hm L1) as L2.
    by destruct (Execute e env E w1) as [[r|er] w2].
  - unfold wpw. by apply Restart_keeps.
Qed.
End Replay.

(** ** Properties *)

Lemma validated_authorized {A H : Type} `{ApprovalPromise A} `{UnicodeCase} `{TimeText} (e : Executor H)
    E env (s s' : XState A H) vn :
  validated e E env s vn -> ap_Tool (ae_Proposal env) ∈ fixedHandlers ->
  (vn_ApprovalRequired vn = true ->
   av_approved (ae_ApprovalID env) (envelope_binding env) (xs_approvals s) /\
   ~ av_approved (ae_ApprovalID env) (envelope_binding env) (xs_approvals s')) ->
  vn_Binding vn = envelope_binding env /\ authorized e E env s s'.
Proof.
  intros [(n&Hc) (sid&iid&Hs&->) Hsc Hn] Ht Ha.
  apply check_envelope_ok in Hc as (C1&C2&C3&C4&C5&C6). apply check_safety_ok in Hs as (S1&S2&S3).
  split; [done|]. split; try done.
  - by exists n.
  - exists sid, iid. split_and!; [done..|]. intros Ho. apply Ha. cbn. by apply String.eqb_eq.
Qed.

(** C2: nothing privileged runs without every check.  Executing an envelope
    either returns an error and leaves the host as it was, or the envelope
    is authorised: its tool has a fixed handler, it is signed with the
    secret, its digest, policy version and target match, it is within its
    time, the safety pipeline evaluated again does not deny it and gives
    the envelope's risk and intent digest, the scope accepts it, its nonce
    was not in use, and when the pipeline asks for approval an approval for
    exactly this binding was available and is available no more.  (Reading
    targets does not change the host.) *)
Theorem execute_gate {A H : Type} `{ApprovalPromise A} `{UnicodeCase} `{TimeText} (e : Executor H)
    (Hstill : forall f sn, v_Targets (x_Validator e) = Some f -> obeys (on_st eq) (f sn))
    (E : Env) (env : ActionEnvelope) (s : XState A H) (Hok : av_ok (xs_approvals s)) :
  wp E (Execute e env) (fun r s' =>
    (xs_host s' = xs_host s /\ exists er, r = Err er) \/ authorized e E env s s') s.
Proof.
  unfold Execute. destruct (x_Handlers e !! _) as [h|] eqn:Eh; [|wp_go; left; eauto].
  destruct (string_in _ fixedHandlers) eqn:Ef; cbn [negb]; [|wp_go; left; eauto].
  apply string_in_spec in Ef. apply wp_bind. eapply wp_mono; [by apply Validate_wp|].
  intros [vn|er] s1 (Eh1&Ea1&Hv); [|left; eauto]. specialize (Hv vn eq_refl).
  apply wp_bind. destruct (vn_ApprovalRequired vn) eqn:Er.
  - wp_step. apply wp_zoom. rewrite Ea1.
    assert (Hb : vn_Binding vn = envelope_binding env) by (by destruct Hv as [_ (?&?&_&->) _ _]).
    eapply wp_mono; [by apply av_consume_sound|]. intros [[]|er] a Ha; cbn; [|left; eauto].
    apply wp_zoom, wp_any. intros r h'. right. cbn.
    apply (validated_authorized e E env s _ vn Hv Ef). intros _. cbn. rewrite <- Hb. by apply Ha.
  - wp_step. apply wp_zoom, wp_any. intros r h'. right.
    apply (validated_authorized e E env s _ vn Hv Ef). congruence.
Qed.

(** An accepted envelope is accepted again only across its expiry.
    After [Validate] has accepted an envelope, then any executions and
    restarts of the executor with any failures, [Validate] accepts the same
    envelope a second time only if it starts before the envelope's expiry
    and the clock passes that expiry while it runs, before the nonce is
    reserved; started at or after the expiry, or finished before it, the
    second delivery is refused.  (The clock does not go back, an existing
    file is not reported missing, programs only advance the counters.) *)
Theorem replay_only_across_expiry {A H : Type} `{ApprovalPromise A} `{UnicodeCase} `{TimeText} (e : Executor H)
    (Htargets : forall f sn, v_Targets (x_Validator e) = Some f -> obeys advances (f sn))
    (Hhandlers : forall t h env, x_Handlers e !! t = Some h -> obeys advances (h env))
    (E : Env) (env : ActionEnvelope) (l : list xop) (w w1 w2 w3 : World (XState A H))
    (vn vn' : Validation) (rs : result (list (result unit)))
    (Hm : monotone E) (Hh : honest E)
    (V1 : Validate (x_Validator e) env E w = (Ok vn, w1))
    (V2 : run_xops e l E w1 = (rs, w2))
    (V3 : Validate (x_Validator e) env E w2 = (Ok vn', w3)) :
  clock E (ticks w2) < ae_ExpiresAt env /\
  exists k, (ticks w2 <= k < ticks w3)%nat /\ ae_ExpiresAt env < clock E k.
Proof.
  pose proof (Validate_live e Htargets E env w vn w1 V1) as L1.
  pose proof (run_xops_keeps e Htargets Hhandlers E _ _ l w1 Hm Hh L1) as L2. rewrite V2 in L2. cbn in L2.
  rewrite (Validate_split e Htargets) in V3. apply bind_ok in V3 as (vn1&w4&V4&V3).
  split; [by eapply (before_reserve_time e)|].
  pose proof (before_reserve_aside e Htargets env E w2) as As. rewrite V4 in As. cbn in As.
  pose proof (live_aside E _ _ _ _ Hm As L2) as L4.
  apply bind_ok in V3 as ([]&w5&V5&[= -> ->]).
  unfold on_nonces, zoom in V5. destruct (Reserve _ _ E _) as [r w6] eqn:Er. injection V5 as -> <-.
  pose proof (wpw_run _ _ _ _ _ _ (Reserve_ok E _ _ _) Er eq_refl) as (_&F&_).
  pose proof (wpw_run _ _ _ _ _ _ (Reserve_ticks E _ _ _) Er eq_refl) as T6. cbn in T6, F.
  exists (ticks w4). cbn. rewrite T6. split; [destruct As; lia|].
  destruct L4 as [L4|[Hu _]]; [done|by apply F].
Qed.

(** *** A concrete executor: one unit may be restarted, the host counts. *)
Definition lab_unit : TargetRef := MkTargetRef "service" "safeops-lab.service" "".
Definition lab_proposal : ActionProposal :=
  MkActionProposal "proposal_9" "task_1" "session_1" "service.restart" Write ∅ lab_unit 1 false "" true ""
    (MkIntentContext "restart lab" "restart lab" [lab_unit] "restart" [lab_unit] []).
Definition lab_catalog : Catalog :=
  MkCatalog 1 "sha256:lab"
    {[ "service.restart" := MkToolPolicy "service.restart" Write L0 false false ["service"] "lab-restart" ]}.
Definition lab_snapshot : TargetSnapshot :=
  MkTargetSnapshot "service" "safeops-lab.service" "" false "" 0 0 0 0 0 0 0 "" "" 0
    "safeops-lab.service" "active" 77.
Definition lab_case : UnicodeCase := fun r => r.

Definition unsigned_envelope (expires : Z) : ActionEnvelope :=
  MkActionEnvelope 1 "task_1" "task_1" "session_1" lab_proposal
    (match proposal_Digest lab_proposal with Ok d => d | Err _ => "" end) lab_snapshot
    (risk_Evaluate (H := lab_case) lab_catalog lab_proposal) (intentDigest (ap_Intent lab_proposal))
    "sha256:lab" expires "nonce_1" "" "".

Definition lab_envelope : ActionEnvelope :=
  Eval vm_compute in
    match Sign (H := plain_time) sample_secret (unsigned_envelope 25) with
    | Ok e => e
    | Err _ => unsigned_envelope 25
    end.

Definition lab_scope : FixedScope := MkFixedScope {[ "safeops-lab.service" := true ]} [] [].
Definition count_handler (_ : ActionEnvelope) : M nat Result :=
  modify S ;;; ret (MkResult "service.restart" "LAB_SANDBOX" "SUCCEEDED" "" "" true None 0 0).
Definition lab_executor : Executor nat :=
  MkExecutor (MkValidator sample_secret lab_catalog true true (Some (Authorize (H := lab_case) lab_scope))
                (Some (fun _ => ret tt)) 0)
    {[ "service.restart" := count_handler ]}.

Definition lab_world : World (XState (gmap string (option ApprovalRecord)) nat) :=
  init_world (MkXState ∅ (MkNonceStore None ∅) 0%nat).

(** The clock ticks by ten at every reading: 0 and 10 during the first
    execution, 20 and 30 during the second. *)
Definition lab_env : Env :=
  MkEnv (fun n => 10 * Z.of_nat n) (fun _ => None) (fun _ => "00") (fun _ => None) (fun _ => 0%nat).

Lemma lab_targets_still f sn :
  v_Targets (x_Validator lab_executor) = Some f -> obeys (on_st eq) (f sn).
Proof. intros [= <-]. apply obeys_ret, _. Qed.
Lemma lab_targets_advance f sn :
  v_Targets (x_Validator lab_executor) = Some f -> obeys advances (f sn).
Proof. intros [= <-]. apply obeys_ret, _. Qed.
Lemma lab_handlers_advance t h env :
  x_Handlers lab_executor !! t = Some h -> obeys advances (h env).
Proof.
  intros Hh. cbn in Hh. apply lookup_singleton_Some in Hh as [_ <-]. unfold count_handler. adv_walk.
Qed.

Lemma execute_gate_witness :
  wp lab_env (Execute (H0 := approval_store) (H1 := lab_case) (H2 := plain_time) lab_executor lab_envelope)
    (fun r s' => (xs_host s' = xs_host (st lab_world) /\ exists er, r = Err er) \/
       authorized (H0 := approval_store) (H2 := lab_case) (H3 := plain_time) lab_executor lab_env lab_envelope
         (st lab_world) s') (st lab_world).
Proof.
  apply (execute_gate (H0 := approval_store) (H2 := lab_case) (H3 := plain_time) lab_executor
           lab_targets_still lab_env lab_envelope (st lab_world)).
  intros id r Hr. cbn in Hr. rewrite lookup_empty in Hr. discriminate Hr.
Defined.

Definition run_lab (w : World (XState (gmap string (option ApprovalRecord)) nat)) :=
  Validate (H0 := approval_store) (H1 := lab_case) (H2 := plain_time)
    (x_Validator lab_executor) lab_envelope lab_env w.
Definition lab_world1 := (run_lab lab_world).2.
Definition lab_world2 := (run_xops (H0 := approval_store) (H2 := lab_case) (H3 := plain_time) lab_executor [] lab_env lab_world1).2.
Definition lab_world3 := (run_lab lab_world2).2.
Definition lab_validation : Validation := MkValidation (envelope_binding lab_envelope) false.

(** The same envelope is accepted at 0 and again at 20, as its expiry, 25,
    passes between the two clock readings of the second validation. *)
Lemma replay_only_across_expiry_witness :
  clock lab_env (ticks lab_world2) < ae_ExpiresAt lab_envelope /\
  exists k, (ticks lab_world2 <= k < ticks lab_world3)%nat /\ ae_ExpiresAt lab_envelope < clock lab_env k.
Proof.
  apply (replay_only_across_expiry (H0 := approval_store) (H2 := lab_case) (H3 := plain_time) lab_executor
           lab_targets_advance lab_handlers_advance lab_env lab_envelope [] lab_world lab_world1 lab_world2
           lab_world3 lab_validation lab_validation (Ok [])).
  - intros m n Hmn. cbn. lia.
  - intros n. discriminate.
  - vm_compute. reflexivity.
  - vm_compute. reflexivity.
  - vm_compute. reflexivity.
Defined.
