(* ===== verification/Rollback.v ===== *)
(** * [internal/rollback/quarantine.go]: the quarantine of files

    The disk is the files of the machine by path, with their metadata and
    contents, and the manifests of the quarantine by the name of their
    [.json] file ([None] for bytes that do not decode).  Every system call
    of the code is one step that can fail, so all failures and all crashes
    between two steps are covered; what a power loss does to data that was
    not synced is not.  Renames only ever move what was just verified to be
    a regular file, so moving directory trees is not modelled.  The
    manager's lock serialises its operations. *)

From S2P Require Import Prelude GoStrings GoText GoPath Json Hash Contracts Platform Targets.
Open Scope Z_scope.

(** ** The disk *)

Record Node := MkNode {
  nd_Info : FileInfo;
  nd_Content : string
}.

Definition Prepared : string := "PREPARED".
Definition Committed : string := "COMMITTED".
Definition Restored : string := "RESTORED".

Record Manifest := MkManifest {
  qm_ID : string;
  qm_TaskID : string;
  qm_OriginalPath : string;
  qm_QuarantinedPath : string;
  qm_OriginalSnapshot : TargetSnapshot;
  qm_Status : string;
  qm_CreatedAt : Z;
  qm_CommittedAt : Z;
  qm_RestoredAt : Z
}.

Record Operation := MkOperation {
  op_Manifest : Manifest;
  op_Checks : list string
}.

Abbreviation Files := (gmap string Node).
Abbreviation Manifests := (gmap string (option Manifest)).

Record Disk := MkDisk {
  dk_files : Files;
  dk_manifests : Manifests
}.

Definition set_files (f : Files) (d : Disk) : Disk := MkDisk f (dk_manifests d).
Definition set_manifest (id : string) (m : option Manifest) (d : Disk) : Disk :=
  MkDisk (dk_files d) (<[id := m]> (dk_manifests d)).
Definition drop_manifest (id : string) (d : Disk) : Disk :=
  MkDisk (dk_files d) (delete id (dk_manifests d)).

(** What a string becomes when [encoding/json] writes and reads it: every
    byte that is not part of valid UTF-8 is replaced. *)
Definition json_string (s : string) : string := encode_runes (runes s).

Definition reread_snapshot (s : TargetSnapshot) : TargetSnapshot :=
  MkTargetSnapshot (json_string (ts_Type s)) (json_string (ts_ID s)) (json_string (ts_CanonicalPath s))
    (ts_ExpectAbsent s) (json_string (ts_ParentPath s)) (ts_ParentInode s) (ts_Size s) (ts_MTimeUnixNano s)
    (ts_Mode s) (ts_Inode s) (ts_PID s) (ts_StartTicks s) (json_string (ts_CommandDigest s))
    (json_string (ts_Executable s)) (ts_UID s) (json_string (ts_ServiceName s))
    (json_string (ts_ActiveState s)) (ts_MainPID s).

(** A manifest after [json.MarshalIndent] and [json.Unmarshal]. *)
Definition reread (m : Manifest) : Manifest :=
  MkManifest (json_string (qm_ID m)) (json_string (qm_TaskID m)) (json_string (qm_OriginalPath m))
    (json_string (qm_QuarantinedPath m)) (reread_snapshot (qm_OriginalSnapshot m)) (json_string (qm_Status m))
    (qm_CreatedAt m) (qm_CommittedAt m) (qm_RestoredAt m).

(** The parts of the machine that are not the disk's own: where a path
    leads through symbolic links, making directories, and the length of an
    encoded manifest (a shorter text is not complete JSON). *)
Class Kernel := {
  resolve : Files -> string -> result string;
  mkdir_all : string -> Files -> result Files;
  encoded_size : Manifest -> nat
}.

Definition disk_EvalSymlinks `{Kernel} (path : string) : M Disk string :=
  sys (fun d => let? p := resolve (dk_files d) path in Ok (p, d)).

Definition disk_Lstat (path : string) : M Disk FileInfo :=
  sys (fun d => match dk_files d !! path with
                | None => Err (ESys ENOENT)
                | Some node => Ok (nd_Info node, d)
                end).

(** [os.Rename] of a file. *)
Definition move (source destination : string) (node : Node) (f : Files) : Files :=
  <[destination := node]> (delete source f).

Definition disk_Rename (source destination : string) : M Disk unit :=
  sys (fun d => match dk_files d !! source with
                | None => Err (ESys ENOENT)
                | Some node =>
                  match dk_files d !! destination with
                  | Some old => if IsDir (nd_Info old) then Err (ESys EEXIST)
                                else Ok (tt, set_files (move source destination node (dk_files d)) d)
                  | None => Ok (tt, set_files (move source destination node (dk_files d)) d)
                  end
                end).

(** ** Helpers *)

Definition lower_hex (c : ascii) : bool := in_range 48 57 (code c) || in_range 97 102 (code c).

(** [^q_[a-f0-9]{24}$] *)
Definition quarantineIDPattern (id : string) : bool :=
  HasPrefix id "q_" && (String.length id =? 26)%nat && all_bytes lower_hex (drop_bytes 2 id).

Definition within (root path : string) : bool := rel_stays_inside (Rel root (Clean path)).
Definition withinAny (path : string) (roots : list string) : bool := existsb (fun root => within root path) roots.

Definition verifySameIdentity (current expected : TargetSnapshot) : result unit :=
  fail_if negb (ts_Inode current =? ts_Inode expected) || negb (ts_Size current =? ts_Size expected)
          || negb (ts_MTimeUnixNano current =? ts_MTimeUnixNano expected)
          || negb (ts_Mode current =? ts_Mode expected)
  with EMsg "inode, size, mtime, or mode changed" ;; Ok tt.

Definition verifyIdentity (path : string) (expected : TargetSnapshot) : M Disk unit :=
  info <- disk_Lstat path ;;
  lift (guard_ (negb (IsRegular info)) (EMsg "quarantine supports regular files only")) ;;;
  match fi_Sys info with
  | None => throw (EMsg "file inode is unavailable")
  | Some ino =>
    lift (verifySameIdentity
            (MkTargetSnapshot "file" (ts_ID expected) path false "" 0 (fi_Size info) (fi_ModTime info)
               (uint32 (fi_Mode info)) ino 0 0 "" "" 0 "" "" 0) expected)
  end.

(** ** Manifests *)

Definition load (id : string) : M Disk Manifest :=
  lift (guard_ (negb (quarantineIDPattern id)) (EMsg "invalid quarantine ID")) ;;;
  sys (fun d => match dk_manifests d !! id with
                | None => Err (ESys ENOENT)
                | Some None => Err (EMsg "json: cannot unmarshal manifest")
                | Some (Some m) => Ok (m, d)
                end).

Definition ok_err {A} (r : result A) : option error :=
  match r with Ok _ => None | Err e => Some e end.

(** Exclusive creation, write, sync and close; what was created is removed
    when one of them fails. *)
Definition saveNew `{Kernel} (manifest : Manifest) : M Disk unit :=
  sys (fun d => match dk_manifests d !! qm_ID manifest with
                | Some _ => Err (ESys EEXIST)
                | None => Ok (tt, set_manifest (qm_ID manifest) None d)
                end) ;;;
  written <- try_ (sys_torn (fun d => (tt, set_manifest (qm_ID manifest) (Some (reread manifest)) d))
                     (fun k d => set_manifest (qm_ID manifest)
                        (if (encoded_size manifest <=? k)%nat then Some (reread manifest) else None) d)) ;;
  synced <- (match written with Ok _ => try_ probe | Err e => ret (Err e) end) ;;
  closed <- try_ probe ;;
  match errors_join (ok_err synced) (ok_err closed) with
  | Some e => try_ (sys (fun d => Ok (tt, drop_manifest (qm_ID manifest) d))) ;;; throw e
  | None => ret tt
  end.

(** A temporary file is created, chmodded, written, synced and closed and
    renamed over the manifest; the directory is not synced. *)
Definition save (manifest : Manifest) : M Disk unit :=
  atomic_write 5 0 (set_manifest (qm_ID manifest) (Some (reread manifest))).

Definition with_status (m : Manifest) (status : string) (committed restored : Z) : Manifest :=
  MkManifest (qm_ID m) (qm_TaskID m) (qm_OriginalPath m) (qm_QuarantinedPath m) (qm_OriginalSnapshot m)
    status (qm_CreatedAt m) committed restored.

(** ** The manager *)

Record QuarantineManager := MkQuarantineManager {
  q_labRoots : list string;
  q_quarantineRoot : string;
  q_objectsDir : string;
  q_manifestsDir : string
}.

Definition canonicalDirectory `{Kernel} (path : string) : M Disk string :=
  lift (guard_ (negb (IsAbs path)) (EMsg "path must be absolute")) ;;;
  canonical <- disk_EvalSymlinks (Clean path) ;;
  info <- try_ (disk_Lstat canonical) ;;
  match info with
  | Ok i => if IsDir i then ret canonical else throw (EMsg "path must be an existing directory")
  | Err _ => throw (EMsg "path must be an existing directory")
  end.

Definition lab_root `{Kernel} (root : string) : M Disk string :=
  canonical <- wrapping ("Lab root " +:+ root +:+ ": ") (canonicalDirectory root) ;;
  if String.eqb canonical "/" then throw (EMsg "filesystem root cannot be a Lab root") else ret canonical.

(** [os.MkdirAll] *)
Definition disk_MkdirAll `{Kernel} (directory : string) : M Disk unit :=
  sys (fun d => let? f := mkdir_all directory (dk_files d) in Ok (tt, set_files f d)).

Definition NewQuarantineManager `{Kernel} (labRoots : list string) (quarantineRoot : string)
    : M Disk QuarantineManager :=
  lift (guard_ (match labRoots with [] => true | _ => false end) (EMsg "at least one Lab root is required")) ;;;
  canonicalRoots <- mapM lab_root labRoots ;;
  lift (guard_ (negb (IsAbs quarantineRoot) || String.eqb (Clean quarantineRoot) "/")
          (EMsg "quarantine root must be a scoped absolute path")) ;;;
  mapM disk_MkdirAll
    [quarantineRoot; PathJoin [quarantineRoot; "objects"]; PathJoin [quarantineRoot; "manifests"]] ;;;
  canonicalQuarantine <- canonicalDirectory quarantineRoot ;;
  lift (guard_ (existsb (fun root => within root canonicalQuarantine || within canonicalQuarantine root) canonicalRoots)
          (EMsg "quarantine root and Lab roots must not overlap")) ;;;
  ret (MkQuarantineManager (merge_sort String.le canonicalRoots) canonicalQuarantine
         (PathJoin [canonicalQuarantine; "objects"]) (PathJoin [canonicalQuarantine; "manifests"])).

Section Manager.
Context `{Kernel} (m : QuarantineManager).

(** The name of the object in quarantine. *)
Definition object_id (taskID nonce : string) (expected : TargetSnapshot) : string :=
  let digest := snapshot_Digest expected in
  "q_" +:+ hex_encode (take_bytes 12 (sha256 (taskID +:+ String (chr 0) (nonce +:+ String (chr 0) digest)))).

Definition object_path (id : string) : string := PathJoin [q_objectsDir m; id].

(** [errors.Join(fmt.Errorf("...: %w", err), rollbackErr)] *)
Definition give_back (source destination what : string) (e : error) : M Disk Operation :=
  rollback <- try_ (disk_Rename source destination) ;;
  throw (match rollback with Ok _ => EWrap what e | Err e' => EJoin (EWrap what e) e' end).

(** [if _, err := os.Lstat(path); !errors.Is(err, os.ErrNotExist)] *)
Definition must_be_vacant (path occupied : string) : M Disk unit :=
  found <- try_ (disk_Lstat path) ;;
  match found with
  | Ok _ => throw (EMsg occupied)
  | Err e => if errors_is e ENOENT then ret tt else throw e
  end.

Definition Quarantine (taskID nonce : string) (expected : TargetSnapshot) : M Disk Operation :=
  ctx_check ;;;
  lift (guard_ (negb (String.eqb (ts_Type expected) "file") || String.eqb (ts_CanonicalPath expected) ""
                || String.eqb taskID "" || String.eqb nonce "")
          (EMsg "complete file snapshot, task ID, and nonce are required")) ;;;
  currentPath <- disk_EvalSymlinks (ts_CanonicalPath expected) ;;
  lift (guard_ (negb (withinAny currentPath (q_labRoots m))) (EMsg "file is outside configured Lab roots")) ;;;
  wrapping "TARGET_CHANGED: " (verifyIdentity currentPath expected) ;;;
  let id := object_id taskID nonce expected in
  let destination := object_path id in
  must_be_vacant destination "quarantine object already exists" ;;;
  t <- now ;;
  let manifest := MkManifest id taskID currentPath destination expected Prepared t zero_time zero_time in
  saveNew manifest ;;;
  wrapping "atomic quarantine rename: " (disk_Rename currentPath destination) ;;;
  verified <- try_ (verifyIdentity destination expected) ;;
  match verified with
  | Err e => give_back destination currentPath "quarantine verification: " e
  | Ok _ =>
    t' <- now ;;
    let manifest := with_status manifest Committed t' zero_time in
    saved <- try_ (save manifest) ;;
    match saved with
    | Err e => give_back destination currentPath "commit quarantine manifest: " e
    | Ok _ => ret (MkOperation manifest ["source snapshot matched"; "atomic rename completed";
                                          "destination inode/size/mtime/mode matched"])
    end
  end.

Definition Restore (id : string) (expected : TargetSnapshot) : M Disk Operation :=
  ctx_check ;;;
  lift (guard_ (negb (quarantineIDPattern id)) (EMsg "invalid quarantine ID")) ;;;
  manifest <- load id ;;
  if String.eqb (qm_Status manifest) Restored then ret (MkOperation manifest ["restore already committed"])
  else if negb (String.eqb (qm_Status manifest) Committed) then
    throw (EMsg ("quarantine is " +:+ qm_Status manifest))
  else if negb (String.eqb (ts_Type expected) "file")
          || negb (String.eqb (Clean (ts_CanonicalPath expected)) (qm_QuarantinedPath manifest)) then
    throw (EMsg "restore target does not match quarantine manifest")
  else
    wrapping "TARGET_CHANGED: " (verifyIdentity (qm_QuarantinedPath manifest) expected) ;;;
    lift (wrap_err "quarantined object differs from original manifest: "
            (verifySameIdentity expected (qm_OriginalSnapshot manifest))) ;;;
    parent <- try_ (disk_EvalSymlinks (Dir (qm_OriginalPath manifest))) ;;
    (match parent with
     | Ok parent => lift (guard_ (negb (withinAny parent (q_labRoots m)))
                            (EMsg "original parent is unavailable or outside Lab roots"))
     | Err _ => throw (EMsg "original parent is unavailable or outside Lab roots")
     end) ;;;
    must_be_vacant (qm_OriginalPath manifest) "original path is already occupied" ;;;
    wrapping "atomic restore rename: " (disk_Rename (qm_QuarantinedPath manifest) (qm_OriginalPath manifest)) ;;;
    verified <- try_ (verifyIdentity (qm_OriginalPath manifest) (qm_OriginalSnapshot manifest)) ;;
    match verified with
    | Err e => give_back (qm_OriginalPath manifest) (qm_QuarantinedPath manifest) "restore verification: " e
    | Ok _ =>
      t <- now ;;
      let manifest := with_status manifest Restored (qm_CommittedAt manifest) t in
      saved <- try_ (save manifest) ;;
      match saved with
      | Err e => give_back (qm_OriginalPath manifest) (qm_QuarantinedPath manifest) "commit restore manifest: " e
      | Ok _ => ret (MkOperation manifest ["quarantine snapshot matched"; "original path was vacant";
                  "atomic restore completed"; "restored inode/size/mtime/mode matched"])
      end
    end.

(** One entry of the loop of [Recover]: the error it appends, if any. *)
Definition recover_entry (id : string) : M Disk (option error) :=
  ctx_check ;;;
  loaded <- try_ (load id) ;;
  match loaded with
  | Err e => ret (Some e)
  | Ok manifest =>
    if negb (String.eqb (qm_Status manifest) Prepared) then ret None
    else
      source <- try_ (disk_Lstat (qm_OriginalPath manifest)) ;;
      destination <- try_ (disk_Lstat (qm_QuarantinedPath manifest)) ;;
      match source, destination with
      | Ok _, Err e =>
        if errors_is e ENOENT then
          removed <- try_ (sys (fun d => match dk_manifests d !! qm_ID manifest with
                                         | None => Err (ESys ENOENT)
                                         | Some _ => Ok (tt, drop_manifest (qm_ID manifest) d)
                                         end)) ;;
          ret (ok_err removed)
        else ret (Some (EMsg ("cannot reconcile prepared quarantine " +:+ qm_ID manifest)))
      | Err e, Ok _ =>
        if errors_is e ENOENT then
          verified <- try_ (verifyIdentity (qm_QuarantinedPath manifest) (qm_OriginalSnapshot manifest)) ;;
          match verified with
          | Err e => ret (Some e)
          | Ok _ =>
            t <- now ;;
            saved <- try_ (save (with_status manifest Committed t (qm_RestoredAt manifest))) ;;
            ret (ok_err saved)
          end
        else ret (Some (EMsg ("cannot reconcile prepared quarantine " +:+ qm_ID manifest)))
      | _, _ => ret (Some (EMsg ("cannot reconcile prepared quarantine " +:+ qm_ID manifest)))
      end
  end.

(** [os.ReadDir] of the manifests, the names of the [.json] files in byte
    order; the loop; [errors.Join]. *)
Definition name_le (a b : string) : Prop := String.leb (a +:+ ".json") (b +:+ ".json") = true.
#[export] Instance name_le_dec a b : Decision (name_le a b).
Proof. unfold name_le. apply _. Defined.

Definition manifest_names (d : Disk) : list string := merge_sort name_le (elements (dom (dk_manifests d))).

Definition Recover : M Disk unit :=
  names <- sys (fun d => Ok (manifest_names d, d)) ;;
  errs <- mapM recover_entry names ;;
  match errors_join_list (omap id errs) with
  | Some e => throw e
  | None => ret tt
  end.

Definition Get (id : string) : M Disk Manifest :=
  lift (guard_ (negb (quarantineIDPattern id)) (EMsg "invalid quarantine ID")) ;;;
  load id.
End Manager.

(** ** Lemmas *)

(** The metadata of a regular file is what a snapshot recorded. *)
Record same_file (i : FileInfo) (s : TargetSnapshot) : Prop := {
  sf_regular : IsRegular i = true;
  sf_inode : fi_Sys i = Some (ts_Inode s);
  sf_size : fi_Size i = ts_Size s;
  sf_mtime : fi_ModTime i = ts_MTimeUnixNano s;
  sf_mode : uint32 (fi_Mode i) = ts_Mode s
}.

Lemma verifySameIdentity_ok a b :
  verifySameIdentity a b = Ok tt <->
  ts_Inode a = ts_Inode b /\ ts_Size a = ts_Size b /\ ts_MTimeUnixNano a = ts_MTimeUnixNano b /\ ts_Mode a = ts_Mode b.
Proof.
  unfold verifySameIdentity.
  destruct (Z.eqb_spec (ts_Inode a) (ts_Inode b)), (Z.eqb_spec (ts_Size a) (ts_Size b)),
    (Z.eqb_spec (ts_MTimeUnixNano a) (ts_MTimeUnixNano b)), (Z.eqb_spec (ts_Mode a) (ts_Mode b)); cbn;
    split; try tauto; try discriminate.
Qed.

Lemma same_file_transfer i a b : same_file i a -> verifySameIdentity a b = Ok tt -> same_file i b.
Proof. intros [] (?&?&?&?)%verifySameIdentity_ok. split; congruence. Qed.

Lemma same_file_reread i s : same_file i (reread_snapshot s) <-> same_file i s.
Proof. split; intros []; by split. Qed.

Lemma json_string_ascii s : is_ascii s = true -> json_string s = s.
Proof.
  intros Ha. unfold json_string. rewrite runes_ascii by done.
  induction s as [|c s IH]; cbn; [done|]. rewrite is_ascii_cons in Ha. apply andb_true_iff in Ha as [Hc Ha].
  assert (E : encode_rune (code c) = String c "").
  { unfold encode_rune, in_range. apply N.ltb_lt in Hc.
    destruct (N.leb_spec 55296 (code c)); [lia|]. destruct (N.ltb_spec 1114111 (code c)); [lia|].
    cbn [andb orb]. rewrite (proj2 (N.ltb_lt _ _) Hc). by rewrite chr_code. }
  rewrite E. cbn. by rewrite IH.
Qed.

(** *** Rules of the disk's operations *)
Lemma wp_Lstat E path Q d :
  honest E ->
  (forall node, dk_files d !! path = Some node -> Q (Ok (nd_Info node)) d) ->
  (forall e, errors_is e ENOENT = true -> dk_files d !! path = None -> Q (Err e) d) ->
  (forall e, errors_is e ENOENT = false -> Q (Err e) d) ->
  wp E (disk_Lstat path) Q d.
Proof.
  intros Hh H1 H2 H3. unfold disk_Lstat. apply wp_sys_honest; [done| |].
  - intros no Hno. apply H3. cbn. by apply bool_decide_eq_false.
  - destruct (dk_files d !! path) eqn:Ef; auto.
Qed.

Lemma wp_verifyIdentity E path expected Q d :
  (forall e, Q (Err e) d) ->
  (forall node, dk_files d !! path = Some node -> same_file (nd_Info node) expected -> Q (Ok tt) d) ->
  wp E (verifyIdentity path expected) Q d.
Proof.
  intros H1 H2. unfold verifyIdentity, disk_Lstat, guard_. apply wp_bind, wp_sys; [done|].
  destruct (dk_files d !! path) as [node|] eqn:Ef; [|done].
  destruct (IsRegular (nd_Info node)) eqn:Er; cbn [negb]; [|by wp_go].
  do 2 wp_step. destruct (fi_Sys (nd_Info node)) as [ino|] eqn:Es; wp_step; [|done].
  destruct (verifySameIdentity _ _) as [[]|e] eqn:Ev; [|done].
  apply verifySameIdentity_ok in Ev as (?&?&?&?). cbn in *. apply (H2 node); [done|]. split; congruence.
Qed.

Lemma wp_verifyIdentity_quiet E path expected node Q d :
  quiet E -> dk_files d !! path = Some node -> same_file (nd_Info node) expected ->
  Q (Ok tt) d -> wp E (verifyIdentity path expected) Q d.
Proof.
  intros Hq Hf [Hr Hi Hs Ht Hm] HQ. unfold verifyIdentity, disk_Lstat, guard_.
  apply wp_bind, wp_sys_quiet; [done|]. rewrite Hf, Hr, Hi. cbn [negb]. wp_go.
  replace (verifySameIdentity _ _) with (@Ok unit tt); [done|].
  symmetry. by apply verifySameIdentity_ok.
Qed.

Lemma wp_vacant E path occupied Q d :
  honest E -> (forall e, Q (Err e) d) -> (dk_files d !! path = None -> Q (Ok tt) d) ->
  wp E (must_be_vacant path occupied) Q d.
Proof.
  intros Hh H1 H2. unfold must_be_vacant. apply wp_bind, wp_try. apply wp_Lstat; [done| | |].
  - intros node Hf. by wp_go.
  - intros e He Hf. rewrite He. wp_go. auto.
  - intros e He. rewrite He. by wp_go.
Qed.

Lemma wp_Rename E source destination Q d :
  (forall e, Q (Err e) d) ->
  (forall node, dk_files d !! source = Some node ->
     Q (Ok tt) (set_files (move source destination node (dk_files d)) d)) ->
  wp E (disk_Rename source destination) Q d.
Proof.
  intros H1 H2. unfold disk_Rename. apply wp_sys; [done|].
  destruct (dk_files d !! source) as [node|] eqn:Es; [|done].
  destruct (dk_files d !! destination) as [old|]; [|auto]. destruct (IsDir (nd_Info old)); auto.
Qed.

Lemma wp_Rename_quiet E source destination node Q d :
  quiet E -> dk_files d !! source = Some node -> dk_files d !! destination = None ->
  Q (Ok tt) (set_files (move source destination node (dk_files d)) d) ->
  wp E (disk_Rename source destination) Q d.
Proof.
  intros Hq Hs Hd HQ. unfold disk_Rename. apply wp_sys_quiet; [done|]. by rewrite Hs, Hd.
Qed.

(** Moving a file to a vacant place and back. *)
Lemma move_back (f : Files) source destination node :
  f !! source = Some node -> f !! destination = None ->
  move destination source node (move source destination node f) = f.
Proof.
  intros Hs Hd. unfold move. rewrite delete_insert_id by (rewrite lookup_delete_ne; congruence).
  by rewrite insert_delete_id.
Qed.

Lemma move_source (f : Files) source destination node :
  source <> destination -> move source destination node f !! source = None.
Proof. intros Hne. unfold move. by rewrite lookup_insert_ne, lookup_delete_eq. Qed.

Lemma move_destination (f : Files) source destination node :
  move source destination node f !! destination = Some node.
Proof. apply lookup_insert_eq. Qed.

Lemma move_other (f : Files) source destination node p :
  p <> source -> p <> destination -> move source destination node f !! p = f !! p.
Proof. intros H1 H2. unfold move. by rewrite lookup_insert_ne, lookup_delete_ne. Qed.

(** A move neither loses nor duplicates a file. *)
Lemma move_perm (f : Files) source destination node :
  f !! source = Some node -> f !! destination = None ->
  (map_to_list (move source destination node f)).*2 ≡ₚ (map_to_list f).*2.
Proof.
  intros Hs Hd. unfold move.
  rewrite map_to_list_insert by (rewrite lookup_delete_ne; congruence).
  rewrite <- (insert_delete_id f source node Hs) at 2.
  rewrite map_to_list_insert by apply lookup_delete_eq. done.
Qed.

(** *** Manifest files *)
Lemma drop_set (d : Disk) id m : dk_manifests d !! id = None -> drop_manifest id (set_manifest id m d) = d.
Proof.
  intros Hn. destruct d as [f ms]. unfold drop_manifest, set_manifest. cbn in *.
  by rewrite delete_insert_id.
Qed.

Lemma set_set (d : Disk) id m m' : set_manifest id m' (set_manifest id m d) = set_manifest id m' d.
Proof. destruct d. unfold set_manifest. cbn. by rewrite insert_insert_eq. Qed.

Lemma set_set_files f i m m' (d : Disk) :
  set_manifest i m (MkDisk f (dk_manifests (set_manifest i m' d))) = MkDisk f (<[i := m]> (dk_manifests d)).
Proof. unfold set_manifest. cbn. by rewrite insert_insert_eq. Qed.

Lemma wp_saveNew `{Kernel} E man Q d :
  (forall e, Q (Err e) d) ->
  (forall e x, dk_manifests d !! qm_ID man = None -> x = None \/ x = Some (reread man) ->
     Q (Err e) (set_manifest (qm_ID man) x d)) ->
  (dk_manifests d !! qm_ID man = None -> Q (Ok tt) (set_manifest (qm_ID man) (Some (reread man)) d)) ->
  wp E (saveNew man) Q d.
Proof.
  intros H1 H2 H3. unfold saveNew. apply wp_bind, wp_sys; [done|].
  destruct (dk_manifests d !! qm_ID man) eqn:Em; [done|].
  assert (Fail : forall (w : result unit) x, (x = None \/ x = Some (reread man)) -> forall c : result unit,
    ok_err w <> None \/ ok_err c <> None ->
    wp E (match errors_join (ok_err w) (ok_err c) with
          | Some e => try_ (sys (fun d => Ok (tt, drop_manifest (qm_ID man) d))) ;;; throw e
          | None => ret tt
          end) Q (set_manifest (qm_ID man) x d)).
  { intros w x Hx c Hwc. assert (exists e, errors_join (ok_err w) (ok_err c) = Some e) as [e ->].
    { destruct w, c; cbn in *; eauto; naive_solver. }
    apply wp_bind, wp_try, wp_sys; [intros no|]; apply wp_throw.
    - by apply H2.
    - by rewrite drop_set. }
  apply wp_bind, wp_try, wp_sys_torn; [intros no k|]; rewrite set_set; cbn [fst snd].
  - apply wp_bind, wp_ret. apply wp_bind, wp_try, wp_probe; [|intros e];
      (eapply Fail; [case_match; auto|left; done]).
  - apply wp_bind, wp_try, wp_probe; [|intros e]; apply wp_bind, wp_try; (apply wp_probe; [|intros e']);
      try (eapply Fail; [by right|first [by left|by right]]).
    cbn. wp_go. auto.
Qed.

Lemma wp_saveNew_quiet `{Kernel} E man Q d :
  quiet E -> dk_manifests d !! qm_ID man = None ->
  Q (Ok tt) (set_manifest (qm_ID man) (Some (reread man)) d) -> wp E (saveNew man) Q d.
Proof.
  intros Hq Hn HQ. unfold saveNew. apply wp_bind, wp_sys_quiet; [done|]. rewrite Hn.
  apply wp_bind, wp_try, wp_sys_torn_quiet; [done|]. rewrite set_set. cbn [fst snd].
  apply wp_bind, wp_try, wp_probe_quiet; [done|]. apply wp_bind, wp_try, wp_probe_quiet; [done|].
  cbn. by wp_go.
Qed.

Lemma wp_save_manifest E man Q d :
  (forall e, Q (Err e) d) -> Q (Ok tt) (set_manifest (qm_ID man) (Some (reread man)) d) ->
  wp E (save man) Q d.
Proof. intros. by apply wp_atomic_write0. Qed.

Lemma wp_load_manifest E i Q d :
  (forall e, Q (Err e) d) ->
  (forall man, quarantineIDPattern i = true -> dk_manifests d !! i = Some (Some man) -> Q (Ok man) d) ->
  wp E (load i) Q d.
Proof.
  intros H1 H2. unfold load, guard_. destruct (quarantineIDPattern i) eqn:Ei; cbn [negb]; [|by wp_go].
  do 2 wp_step. apply wp_sys; [done|]. destruct (dk_manifests d !! i) as [[man|]|] eqn:Em; auto.
Qed.

Lemma wp_load_manifest_quiet E i man Q d :
  quiet E -> quarantineIDPattern i = true -> dk_manifests d !! i = Some (Some man) ->
  Q (Ok man) d -> wp E (load i) Q d.
Proof.
  intros Hq Hi Hm HQ. unfold load, guard_. rewrite Hi. cbn [negb]. do 2 wp_step.
  apply wp_sys_quiet; [done|]. by rewrite Hm.
Qed.

(** *** Identifiers and places *)
Lemma hex_encode_lower s : all_bytes lower_hex (hex_encode s) = true.
Proof.
  assert (D : forall n, (n < 16)%N -> lower_hex (hex_char n) = true).
  { intros n Hn. rewrite <- (N2Nat.id n). assert (T : forallb (fun k => lower_hex (hex_char (N.of_nat k))) (seq 0 16) = true) by reflexivity.
    rewrite List.forallb_forall in T. apply T, List.in_seq. lia. }
  induction s as [|c s IH]; cbn -[N.div N.modulo]; [done|].
  rewrite !D, IH; [done| |]; pose proof (code_lt_256 c); [apply N.mod_lt|apply N.Div0.div_lt_upper_bound]; lia.
Qed.

Lemma take_bytes_length n s : (n <= String.length s)%nat -> String.length (take_bytes n s) = n.
Proof.
  revert s. induction n as [|n IH]; intros [|c s] Hn; cbn in *; try done; try lia. rewrite IH; lia.
Qed.

Lemma object_id_valid taskID nonce expected : quarantineIDPattern (object_id taskID nonce expected) = true.
Proof.
  unfold object_id. set (h := hex_encode _).
  assert (Hl : String.length h = 24%nat).
  { unfold h. rewrite hex_encode_length, take_bytes_length; [done|]. rewrite sha256_length. lia. }
  unfold quarantineIDPattern. change ("q_" +:+ h) with (String "q" (String "_" h)). cbn [String.length drop_bytes].
  rewrite Hl. assert (Hb : all_bytes lower_hex h = true) by apply hex_encode_lower. by rewrite Hb.
Qed.

Lemma id_pattern_shape i : quarantineIDPattern i = true -> is_ascii i = true /\ normal i.
Proof.
  unfold quarantineIDPattern. intros Hi. apply andb_true_iff in Hi as [[Hp Hl]%andb_true_iff Hh].
  apply HasPrefix_spec in Hp as [t ->]. change ("q_" +:+ t) with (String "q" (String "_" t)) in *.
  cbn [drop_bytes] in Hh.
  assert (Hb : forall c, lower_hex c = true -> (code c <? 128)%N = true /\ Ascii.eqb c slash = false).
  { intros c Hc. unfold lower_hex, in_range in Hc. destruct (Ascii.eqb_spec c slash) as [->|_]; [discriminate Hc|].
    split; [|done]. apply N.ltb_lt. apply orb_true_iff in Hc. rewrite !andb_true_iff, !N.leb_le in Hc. lia. }
  assert (is_ascii t = true /\ no_slash t) as [Ha Hs].
  { clear Hl. unfold no_slash. induction t as [|c t IH]; [done|]. cbn in Hh. apply andb_true_iff in Hh as [Hc Hh].
    destruct (Hb c Hc) as [Hc1 Hc2]. destruct (IH Hh) as [IH1 IH2]. rewrite is_ascii_cons, Hc1, IH1.
    split; [done|]. cbn. by rewrite Hc2, IH2. }
  split; [by rewrite !is_ascii_cons, Ha|]. repeat split; try discriminate.
  unfold no_slash in *. cbn. by rewrite Hs.
Qed.

Lemma json_string_id i : quarantineIDPattern i = true -> json_string i = i.
Proof. intros Hi. apply json_string_ascii. by apply id_pattern_shape. Qed.

(** What [NewQuarantineManager] establishes. *)
Record well_placed (m : QuarantineManager) : Prop := {
  wp_abs : IsAbs (q_quarantineRoot m) = true;
  wp_objects : q_objectsDir m = PathJoin [q_quarantineRoot m; "objects"];
  wp_roots_abs : Forall (fun r => IsAbs r = true) (q_labRoots m);
  wp_apart : Forall (fun r => within r (q_quarantineRoot m) = false /\ within (q_quarantineRoot m) r = false)
               (q_labRoots m)
}.

Lemma within_iff root path :
  IsAbs root = true -> IsAbs path = true ->
  (within root path = true <-> path_comps root `prefix_of` path_comps path).
Proof.
  intros Hr Hp. unfold within. rewrite rel_inside_iff by (rewrite ?IsAbs_Clean; done). by rewrite path_comps_Clean.
Qed.

(** Two trees apart from each other share no path. *)
Lemma apart_disjoint a b p :
  IsAbs a = true -> IsAbs b = true -> within a b = false -> within b a = false ->
  within a p = true -> within b p = true -> False.
Proof.
  intros Ha Hb H1 H2 Hap Hbp.
  destruct (IsAbs p) eqn:Hp.
  - apply within_iff in Hap; [|done..]. apply within_iff in Hbp; [|done..].
    destruct (prefix_weak_total _ _ _ Hap Hbp) as [L|L]; apply within_iff in L; congruence.
  - unfold within in Hap. rewrite rel_mixed in Hap; [done|]. rewrite IsAbs_Clean. congruence.
Qed.

Section Placed.
Context (m : QuarantineManager) (Hw : well_placed m).

Lemma objectsDir_comps :
  IsAbs (q_objectsDir m) = true /\ path_comps (q_objectsDir m) = path_comps (q_quarantineRoot m) ++ ["objects"].
Proof.
  rewrite (wp_objects m Hw). destruct (path_comps_join (q_quarantineRoot m) "objects") as [E A]; [apply Hw| |done].
  repeat split; discriminate.
Qed.

Lemma object_path_comps i :
  quarantineIDPattern i = true ->
  IsAbs (object_path m i) = true /\ path_comps (object_path m i) = path_comps (q_objectsDir m) ++ [i].
Proof.
  intros Hi. destruct objectsDir_comps as [Ha _]. apply id_pattern_shape in Hi as [_ Hn].
  destruct (path_comps_join (q_objectsDir m) i Ha Hn). done.
Qed.

Lemma object_path_inj i j :
  quarantineIDPattern i = true -> quarantineIDPattern j = true -> object_path m i = object_path m j -> i = j.
Proof.
  intros Hi Hj E. pose proof (proj2 (object_path_comps i Hi)) as Ei. rewrite E, (proj2 (object_path_comps j Hj)) in Ei.
  apply app_inv_head in Ei. by injection Ei.
Qed.

Lemma object_not_in_lab i p :
  quarantineIDPattern i = true -> withinAny p (q_labRoots m) = true -> p <> object_path m i.
Proof.
  intros Hi Hl ->. unfold withinAny in Hl. apply existsb_exists in Hl as (r&Hr&Hl). apply list_elem_of_In in Hr.
  pose proof (wp_roots_abs m Hw) as Fa. pose proof (wp_apart m Hw) as Fp. rewrite Forall_forall in Fa, Fp.
  destruct (Fp r Hr) as [H1 H2]. eapply (apart_disjoint r (q_quarantineRoot m)); [by apply Fa|apply Hw|done|done|done|].
  apply within_iff; [apply Hw|by apply object_path_comps|].
  rewrite (proj2 (object_path_comps i Hi)), (proj2 objectsDir_comps), <- app_assoc. by eexists.
Qed.
End Placed.

(** ** Outcomes of the operations

    Whatever fails, an operation ends in one of a few ways; all statements
    about failures and crashes go through these lists. *)
Section Outcomes.
Context `{Kernel} (m : QuarantineManager) (Hw : well_placed m).
Context (Hutf : forall i, quarantineIDPattern i = true -> json_string (object_path m i) = object_path m i).
Context (Hres : forall f p q, resolve f p = Ok q -> json_string q = q).

(** The circumstances under which a file is moved to the quarantine. *)
Record q_facts (taskID nonce : string) (expected : TargetSnapshot) (d : Disk)
    (path : string) (node : Node) (man : Manifest) : Prop := {
  qf_resolved : resolve (dk_files d) (ts_CanonicalPath expected) = Ok path;
  qf_inside : withinAny path (q_labRoots m) = true;
  qf_file : dk_files d !! path = Some node;
  qf_same : same_file (nd_Info node) expected;
  qf_vacant : dk_files d !! object_path m (object_id taskID nonce expected) = None;
  qf_man : exists t, man = MkManifest (object_id taskID nonce expected) taskID path
                 (object_path m (object_id taskID nonce expected)) expected Prepared t zero_time zero_time;
  qf_new : dk_manifests d !! qm_ID man = None
}.

Inductive q_outcome (taskID nonce : string) (expected : TargetSnapshot) (d : Disk) : result Operation -> Disk -> Prop :=
  | q_refused e : q_outcome taskID nonce expected d (Err e) d
  | q_noted e path node man x :
      q_facts taskID nonce expected d path node man -> x = None \/ x = Some (reread man) ->
      q_outcome taskID nonce expected d (Err e) (set_manifest (qm_ID man) x d)
  | q_stuck e path node man :
      q_facts taskID nonce expected d path node man ->
      q_outcome taskID nonce expected d (Err e)
        (MkDisk (move path (qm_QuarantinedPath man) node (dk_files d))
                (<[qm_ID man := Some (reread man)]> (dk_manifests d)))
  | q_done op path node man t checks :
      q_facts taskID nonce expected d path node man ->
      op = MkOperation (with_status man Committed t zero_time) checks ->
      q_outcome taskID nonce expected d (Ok op)
        (MkDisk (move path (qm_QuarantinedPath man) node (dk_files d))
                (<[qm_ID man := Some (reread (op_Manifest op))]> (dk_manifests d))).

(** Giving a moved file back: it is back, or still where it was moved to. *)
Lemma wp_give_back E source destination node what e ms f (Q : result Operation -> Disk -> Prop) :
  f !! source = Some node -> f !! destination = None ->
  (forall e, Q (Err e) (MkDisk f ms)) ->
  (forall e, Q (Err e) (MkDisk (move source destination node f) ms)) ->
  wp E (give_back destination source what e) Q (MkDisk (move source destination node f) ms).
Proof.
  intros Hs Hd H1 H2. unfold give_back. apply wp_bind, wp_try, wp_Rename; [intros e'|intros node'];
    [by cbn; wp_go|].
  cbn [dk_files]. rewrite move_destination. intros [= <-]. unfold set_files. cbn [dk_manifests].
  rewrite (move_back f source destination node Hs Hd). cbn. by wp_go.
Qed.

Lemma Quarantine_outcome E taskID nonce expected d :
  honest E -> wp E (Quarantine m taskID nonce expected) (q_outcome taskID nonce expected d) d.
Proof.
  intros Hh. unfold Quarantine, guard_, disk_EvalSymlinks.
  wp_step. wp_step; [|constructor]. wp_step. wp_step. destruct (_ || _ : bool); [constructor|].
  wp_step. wp_step; [constructor|]. destruct (resolve (dk_files d) (ts_CanonicalPath expected)) as [path|e] eqn:Er; [|constructor].
  cbn [rbind]. wp_step. wp_step. destruct (withinAny path (q_labRoots m)) eqn:Ein; cbn [negb]; [|constructor].
  wp_step. wp_step. apply wp_verifyIdentity; [constructor|]. intros node Hn Hsame. cbn [wrap_err].
  set (i := object_id taskID nonce expected).
  wp_step. apply wp_vacant; [done|constructor|]. intros Hv.
  wp_step. wp_step. set (man := MkManifest i taskID path (object_path m i) expected Prepared _ _ _).
  wp_step. apply wp_saveNew; [constructor| |].
  { intros e x Hnew Hx. apply (q_noted _ _ _ _ e path node man x); [|done]. split; try done. by eexists. }
  intros Hnew. cbn zeta.
  assert (F : q_facts taskID nonce expected d path node man) by (split; try done; by eexists).
  wp_step. wp_step. apply wp_Rename; [intros e|intros node'].
  { cbn [wrap_err]. apply (q_noted _ _ _ _ _ path node man (Some (reread man)) F). by right. }
  cbn [set_manifest dk_files wrap_err]. rewrite Hn. intros [= <-]. unfold set_files. cbn [dk_manifests].
  assert (Back : forall e, q_outcome taskID nonce expected d (Err e)
            (MkDisk (dk_files d) (<[i := Some (reread man)]> (dk_manifests d)))).
  { intros e. apply (q_noted _ _ _ _ e path node man (Some (reread man)) F). by right. }
  pose proof (fun e => q_stuck taskID nonce expected d e path node man F) as Stuck.
  wp_step. wp_step. apply wp_verifyIdentity; [intros e|intros node' _ _].
  { by apply wp_give_back. }
  wp_step. wp_step. wp_step. wp_step. apply wp_save_manifest; [intros e|].
  { by apply wp_give_back. }
  wp_step. rewrite (set_set_files _ (qm_ID man) _ (Some (reread man)) d).
  exact (q_done taskID nonce expected d (MkOperation _ _) path node man _ _ F eq_refl).
Qed.

(** The circumstances under which an object goes back. *)
Record r_facts (id : string) (expected : TargetSnapshot) (d : Disk) (node : Node) (man : Manifest) : Prop := {
  rf_id : quarantineIDPattern id = true;
  rf_man : dk_manifests d !! id = Some (Some man);
  rf_status : qm_Status man = Committed;
  rf_file : dk_files d !! qm_QuarantinedPath man = Some node;
  rf_same : same_file (nd_Info node) (qm_OriginalSnapshot man);
  rf_vacant : dk_files d !! qm_OriginalPath man = None
}.

Inductive r_outcome (id : string) (expected : TargetSnapshot) (d : Disk) : result Operation -> Disk -> Prop :=
  | r_refused e : r_outcome id expected d (Err e) d
  | r_already man checks :
      dk_manifests d !! id = Some (Some man) -> qm_Status man = Restored ->
      r_outcome id expected d (Ok (MkOperation man checks)) d
  | r_stuck e node man :
      r_facts id expected d node man ->
      r_outcome id expected d (Err e)
        (MkDisk (move (qm_QuarantinedPath man) (qm_OriginalPath man) node (dk_files d)) (dk_manifests d))
  | r_done op node man t checks :
      r_facts id expected d node man ->
      op = MkOperation (with_status man Restored (qm_CommittedAt man) t) checks ->
      r_outcome id expected d (Ok op)
        (MkDisk (move (qm_QuarantinedPath man) (qm_OriginalPath man) node (dk_files d))
                (<[qm_ID man := Some (reread (op_Manifest op))]> (dk_manifests d))).

Lemma Restore_outcome E i expected d :
  honest E -> wp E (Restore m i expected) (r_outcome i expected d) d.
Proof.
  intros Hh. unfold Restore, guard_, disk_EvalSymlinks.
  wp_step. wp_step; [|constructor]. wp_step. wp_step. destruct (quarantineIDPattern i) eqn:Ei; cbn [negb]; [|constructor].
  wp_step. apply wp_load_manifest; [constructor|]. intros man _ Hm.
  destruct (String.eqb_spec (qm_Status man) Restored) as [Hst|_]; [wp_step; by constructor|].
  destruct (String.eqb_spec (qm_Status man) Committed) as [Hst|_]; cbn [negb]; [|wp_step; constructor].
  wp_step; [wp_step; constructor|].
  wp_step. wp_step. apply wp_verifyIdentity; [constructor|]. intros node Hn Hsame. cbn [wrap_err].
  wp_step. wp_step. destruct (verifySameIdentity _ _) as [[]|e] eqn:Ev; cbn [wrap_err]; [|constructor].
  pose proof (same_file_transfer _ _ _ Hsame Ev) as Horig.
  wp_step. wp_step. wp_step; [wp_step; wp_step; constructor|].
  destruct (resolve _ _) as [parent|e]; cbn [rbind]; [|wp_step; wp_step; constructor].
  wp_step. wp_step. destruct (withinAny parent _); cbn [negb]; [|constructor].
  wp_step. apply wp_vacant; [done|constructor|]. intros Hv.
  assert (F : r_facts i expected d node man) by (by split).
  wp_step. wp_step. apply wp_Rename; [constructor|]. rewrite Hn. intros node' [= <-]. cbn [wrap_err]. unfold set_files.
  assert (Back : forall e, r_outcome i expected d (Err e) (MkDisk (dk_files d) (dk_manifests d))).
  { intros e. destruct d. constructor. }
  pose proof (fun e => r_stuck i expected d e node man F) as Stuck.
  wp_step. wp_step. apply wp_verifyIdentity; [intros e|intros node' _ _].
  { by apply wp_give_back. }
  wp_step. wp_step. wp_step. wp_step. apply wp_save_manifest; [intros e|].
  { by apply wp_give_back. }
  wp_step. exact (r_done i expected d (MkOperation _ _) node man _ _ F eq_refl).
Qed.

Inductive e_outcome (i : string) (d : Disk) : Disk -> Prop :=
  | e_same : e_outcome i d d
  | e_dropped man node :
      quarantineIDPattern i = true -> dk_manifests d !! i = Some (Some man) -> qm_Status man = Prepared ->
      dk_files d !! qm_OriginalPath man = Some node -> dk_files d !! qm_QuarantinedPath man = None ->
      e_outcome i d (drop_manifest (qm_ID man) d)
  | e_committed man node t :
      quarantineIDPattern i = true -> dk_manifests d !! i = Some (Some man) -> qm_Status man = Prepared ->
      dk_files d !! qm_OriginalPath man = None -> dk_files d !! qm_QuarantinedPath man = Some node ->
      same_file (nd_Info node) (qm_OriginalSnapshot man) ->
      e_outcome i d (set_manifest (qm_ID man) (Some (reread (with_status man Committed t (qm_RestoredAt man)))) d).

Lemma recover_entry_outcome E i d :
  honest E -> wp E (recover_entry i) (fun _ d' => e_outcome i d d') d.
Proof.
  intros Hh. unfold recover_entry. wp_step. wp_step; [|constructor].
  wp_step. wp_step. apply wp_load_manifest; [intros e; wp_step; constructor|]. intros man Hi Hm.
  destruct (String.eqb_spec (qm_Status man) Prepared) as [Hst|_]; cbn [negb]; [|wp_step; constructor].
  wp_step. wp_step. apply wp_Lstat; [done|intros node Hn|intros e He Hn|intros e He]; wp_step; wp_step;
    (apply wp_Lstat; [done|intros node' Hn'|intros e' He' Hn'|intros e' He']); try rewrite He; try rewrite He';
    try (wp_step; constructor).
  - wp_step. wp_step. wp_step; [wp_step; constructor|]. destruct (_ !! qm_ID man); wp_step; [|constructor].
    by eapply e_dropped.
  - wp_step. wp_step. apply wp_verifyIdentity; [intros e''; wp_step; constructor|]. intros n2 Hn2 Hs.
    wp_step. wp_step. wp_step. wp_step. apply wp_save_manifest; [intros e''; wp_step; constructor|]. wp_step.
    exact (e_committed i d man n2 _ Hi Hm Hst Hn Hn2 Hs).
Qed.

(** ** The invariant: every object in quarantine can be found again *)

Record inv (d : Disk) : Prop := {
  inv_named : forall i man, dk_manifests d !! i = Some (Some man) ->
    qm_ID man = i /\ quarantineIDPattern i = true /\ qm_QuarantinedPath man = object_path m i /\
    withinAny (qm_OriginalPath man) (q_labRoots m) = true /\ json_string (qm_OriginalPath man) = qm_OriginalPath man;
  inv_recorded : forall i node, quarantineIDPattern i = true -> dk_files d !! object_path m i = Some node ->
    exists man, dk_manifests d !! i = Some (Some man) /\
      (qm_Status man = Prepared \/ qm_Status man = Committed) /\ same_file (nd_Info node) (qm_OriginalSnapshot man)
}.

(** No file is lost, duplicated or altered, and outside the lab roots and
    the objects nothing moves. *)
Record kept (d d' : Disk) : Prop := {
  kp_files : (map_to_list (dk_files d')).*2 ≡ₚ (map_to_list (dk_files d)).*2;
  kp_outside : forall p, withinAny p (q_labRoots m) = false ->
    (forall i, quarantineIDPattern i = true -> p <> object_path m i) -> dk_files d' !! p = dk_files d !! p
}.

#[global] Instance kept_preorder : PreOrder kept.
Proof.
  split; [by intros d|]. intros a b c [] []. split; [etransitivity; eauto|]. intros p H1 H2.
  rewrite kp_outside1, kp_outside0; auto.
Qed.

Lemma reread_man man i :
  quarantineIDPattern i = true -> qm_ID man = i -> qm_QuarantinedPath man = object_path m i ->
  json_string (qm_OriginalPath man) = qm_OriginalPath man ->
  qm_ID (reread man) = i /\ qm_QuarantinedPath (reread man) = object_path m i /\
  qm_OriginalPath (reread man) = qm_OriginalPath man /\
  (forall node, same_file node (qm_OriginalSnapshot (reread man)) <-> same_file node (qm_OriginalSnapshot man)).
Proof.
  intros Hi <- Hq Ho. cbn. rewrite (json_string_id _ Hi), Hq, Hutf, Ho by done. do 3 (split; [done|]).
  intros node. apply same_file_reread.
Qed.

(** A manifest for one object written, everything else as it was. *)
Lemma inv_write d (f : Files) man i (x : option Manifest) :
  inv d -> quarantineIDPattern i = true -> qm_ID man = i -> qm_QuarantinedPath man = object_path m i ->
  withinAny (qm_OriginalPath man) (q_labRoots m) = true -> json_string (qm_OriginalPath man) = qm_OriginalPath man ->
  (x = None \/ x = Some (reread man)) ->
  (forall j node, quarantineIDPattern j = true -> j <> i -> f !! object_path m j = Some node ->
     dk_files d !! object_path m j = Some node) ->
  (forall node, f !! object_path m i = Some node -> x = Some (reread man) /\
     (qm_Status (reread man) = Prepared \/ qm_Status (reread man) = Committed) /\
     same_file (nd_Info node) (qm_OriginalSnapshot man)) ->
  inv (MkDisk f (<[i := x]> (dk_manifests d))).
Proof.
  intros [I1 I2] Hi Hid Hq Hl Hj Hx Hf Hn.
  destruct (reread_man man i Hi Hid Hq Hj) as (R1&R2&R3&R4). split; cbn.
  - intros j man' Hm. destruct (decide (j = i)) as [->|Hne].
    + rewrite lookup_insert_eq in Hm. destruct Hx as [->| ->]; [done|]. injection Hm as <-.
      rewrite R1, R2, R3. done.
    + rewrite lookup_insert_ne in Hm by done. by apply I1.
  - intros j node Hjv Hj'. destruct (decide (j = i)) as [->|Hne].
    + rewrite lookup_insert_eq. destruct (Hn node Hj') as (->&Hs&Hsf). exists (reread man).
      split; [done|]. split; [done|]. by apply R4.
    + rewrite lookup_insert_ne by done. apply I2; [done|]. by apply Hf.
Qed.

(** Nothing is in quarantine under an id whose manifest is new. *)
Lemma inv_vacant d i : inv d -> quarantineIDPattern i = true -> (forall man, dk_manifests d !! i <> Some (Some man)) ->
  dk_files d !! object_path m i = None.
Proof.
  intros [_ I2] Hi Hn. destruct (dk_files d !! object_path m i) eqn:E; [|done].
  destruct (I2 i _ Hi E) as (man&Hm&_). by destruct (Hn man).
Qed.

Lemma move_kept d path i node ms :
  quarantineIDPattern i = true -> withinAny path (q_labRoots m) = true ->
  (dk_files d !! path = Some node /\ dk_files d !! object_path m i = None ->
   kept d (MkDisk (move path (object_path m i) node (dk_files d)) ms)) /\
  (dk_files d !! object_path m i = Some node /\ dk_files d !! path = None ->
   kept d (MkDisk (move (object_path m i) path node (dk_files d)) ms)).
Proof.
  intros Hi Hl. split; intros [Hs Hv]; (split; cbn; [by apply move_perm|]); intros p Hp Ho; apply move_other;
    try (intros ->; congruence); by apply Ho.
Qed.

Lemma Quarantine_keeps E taskID nonce expected d :
  honest E -> inv d -> wp E (Quarantine m taskID nonce expected) (fun _ d' => inv d' /\ kept d d') d.
Proof.
  intros Hh I. eapply wp_mono; [by apply Quarantine_outcome|]. intros r d' Ho.
  assert (W : forall path node man x f, q_facts taskID nonce expected d path node man ->
            forall man', (exists s t, man' = with_status man s t zero_time) ->
            x = None \/ x = Some (reread man') ->
            (f = dk_files d \/ (f = move path (qm_QuarantinedPath man) node (dk_files d) /\ x = Some (reread man') /\
              (qm_Status (reread man') = Prepared \/ qm_Status (reread man') = Committed))) ->
            inv (MkDisk f (<[qm_ID man := x]> (dk_manifests d)))).
  { intros path node man x f [Hr Hin Hf Hs Hv (t&Eman) Hnew] man' (st'&t'&Eman') Hx Hfile.
    pose proof (object_id_valid taskID nonce expected) as Hi. rewrite Eman in *. cbn [qm_ID qm_QuarantinedPath] in *.
    set (i := object_id taskID nonce expected) in *. clearbody i.
    assert (P : qm_ID man' = i /\ qm_QuarantinedPath man' = object_path m i /\ qm_OriginalPath man' = path /\
                qm_OriginalSnapshot man' = expected) by (by rewrite Eman').
    destruct P as (P1&P2&P3&P4).
    apply (inv_write d f man'); rewrite ?P3; try done; [by eapply Hres| |].
    - intros j node' Hj Hne. destruct Hfile as [->|[-> _]]; [done|]. rewrite move_other; [done| |].
      + intros E'. symmetry in E'. by eapply (object_not_in_lab m Hw j path).
      + intros E'. by apply (object_path_inj m Hw) in E'.
    - intros node'. destruct Hfile as [->|(->&Hxs&Hst)]; [by rewrite Hv|].
      rewrite move_destination. intros [= <-]. by rewrite P4. }
  destruct Ho as [e|e path node man x F Hx|e path node man F|op path node man t checks F ->].
  - split; [done|reflexivity].
  - split; [|by split]. apply (W path node man x (dk_files d) F man); [|done|by left].
    destruct F as [_ _ _ _ _ (t&->) _]. by eexists _, _.
  - split.
    + apply (W path node man _ _ F man); [|by right|right; split_and!; [done..|]];
        destruct F as [_ _ _ _ _ (t&->) _]; [by eexists _, _|by left].
    + destruct F as [_ Hin Hf _ Hv (t&->) _]. eapply move_kept; [apply object_id_valid|done|done].
  - cbn [op_Manifest]. split.
    + apply (W path node man _ _ F (with_status man Committed t zero_time)); [by eexists _, _|by right|].
      right. split_and!; [done..|]. by right.
    + destruct F as [_ Hin Hf _ Hv (t'&->) _]. eapply move_kept; [apply object_id_valid|done|done].
Qed.

Lemma Restore_keeps E i expected d :
  honest E -> inv d -> wp E (Restore m i expected) (fun _ d' => inv d' /\ kept d d') d.
Proof.
  intros Hh I. eapply wp_mono; [by apply Restore_outcome|]. intros r d' Ho.
  assert (W : forall node man ms, r_facts i expected d node man ->
            (forall j, j <> i -> ms !! j = dk_manifests d !! j) ->
            (ms !! i = dk_manifests d !! i \/ exists t, ms !! i = Some (Some (reread (with_status man Restored (qm_CommittedAt man) t)))) ->
            inv (MkDisk (move (qm_QuarantinedPath man) (qm_OriginalPath man) node (dk_files d)) ms) /\
            kept d (MkDisk (move (qm_QuarantinedPath man) (qm_OriginalPath man) node (dk_files d)) ms)).
  { intros node man ms [Hi Hm Hst Hf Hs Hv] Hms Hmi. destruct I as [I1 I2].
    destruct (I1 i man Hm) as (Hid&_&Hq&Hl&Hj). rewrite Hq in *.
    split; [|by eapply move_kept]. split; cbn.
    - intros j man'. destruct (decide (j = i)) as [->|Hne]; [|rewrite Hms by done; apply I1].
      destruct Hmi as [->|(t&->)]; [apply I1|]. intros [= <-].
      destruct (reread_man (with_status man Restored (qm_CommittedAt man) t) i Hi Hid Hq Hj) as (R1&R2&R3&_).
      rewrite R1, R2, R3. done.
    - intros j node' Hjv. destruct (decide (j = i)) as [->|Hne].
      + rewrite move_source; [done|]. intros E'. symmetry in E'. exact (object_not_in_lab m Hw i _ Hi Hl E').
      + rewrite Hms by done. rewrite move_other; [by apply I2| |].
        * intros E'. by apply (object_path_inj m Hw) in E'.
        * intros E'. symmetry in E'. exact (object_not_in_lab m Hw j _ Hjv Hl E'). }
  destruct Ho as [e|man checks _ _|e node man F|op node man t checks F ->].
  1,2: split; [done|reflexivity].
  - apply (W node man); [done|done|by left].
  - cbn [op_Manifest]. pose proof (rf_man _ _ _ _ _ F) as Hm. destruct (inv_named d I i man Hm) as (Hid&_).
    rewrite Hid. apply (W node man); [done| |right; exists t; apply lookup_insert_eq].
    intros j Hne. by rewrite lookup_insert_ne.
Qed.

Lemma entry_keeps i d d' : inv d -> e_outcome i d d' -> inv d' /\ dk_files d' = dk_files d.
Proof.
  intros I Ho. destruct Ho as [|man node Hi Hm Hst Hs Hd|man node t Hi Hm Hst Hs Hd Hsf]; [done| |].
  - destruct I as [I1 I2]. destruct (I1 i man Hm) as (Hid&_&Hq&_). rewrite Hid. split; [|done]. split; cbn.
    + intros j man' [_ Hj]%lookup_delete_Some. by apply I1.
    + intros j node' Hj Hn. destruct (decide (j = i)) as [->|Hne]; [congruence|].
      rewrite lookup_delete_ne by done. by apply I2.
  - destruct (inv_named d I i man Hm) as (Hid&_&Hq&Hl&Hj). split; [|done]. rewrite Hid.
    apply (inv_write d (dk_files d) (with_status man Committed t (qm_RestoredAt man)) i); try done; [by right|].
    intros node' Hn. split; [done|]. split; [by right|]. cbn in *. congruence.
Qed.

Lemma Recover_keeps E d :
  honest E -> inv d -> wp E Recover (fun _ d' => inv d' /\ dk_files d' = dk_files d) d.
Proof.
  intros Hh I. unfold Recover. wp_step. wp_step; [done|]. wp_step.
  eapply wp_mono; [apply (wp_mapM E recover_entry _ (fun d' => inv d' /\ dk_files d' = dk_files d) (fun _ => True))|].
  - intros i d1 _ [I1 F1]. eapply wp_mono; [by apply recover_entry_outcome|]. intros r d2 Ho.
    destruct (entry_keeps i d1 d2 I1 Ho) as [I2 F2]. split; [|done]. split; [done|congruence].
  - done.
  - intros [errs|e] d2 [K _]; [|done]. by wp_go.
Qed.
End Outcomes.

(** ** Runs: operations, failures, crashes and restarts *)
Inductive qop :=
  | QQuarantine (taskID nonce : string) (expected : TargetSnapshot)
  | QRestore (id : string) (expected : TargetSnapshot)
  | QRecover.

Definition run_qop `{Kernel} (m : QuarantineManager) (o : qop) : M Disk unit :=
  match o with
  | QQuarantine taskID nonce expected => Quarantine m taskID nonce expected ;;; ret tt
  | QRestore i expected => Restore m i expected ;;; ret tt
  | QRecover => Recover
  end.

(** The lives of the process: each has an environment, whose failures may
    go on for ever (a crash), and starts from the disk the last one left. *)
Fixpoint run_lives `{Kernel} (m : QuarantineManager) (lives : list (Env * list qop)) (d : Disk) : Disk :=
  match lives with
  | [] => d
  | (E, l) :: lives => run_lives m lives (st (mapM (fun o => try_ (run_qop m o)) l E (init_world d)).2)
  end.

Lemma run_qop_keeps `{Kernel} m (Hw : well_placed m)
    (Hutf : forall i, quarantineIDPattern i = true -> json_string (object_path m i) = object_path m i)
    (Hres : forall f p q, resolve f p = Ok q -> json_string q = q) E o d :
  honest E -> inv m d -> wp E (run_qop m o) (fun _ d' => inv m d' /\ kept m d d') d.
Proof.
  intros Hh I. destruct o as [taskID nonce expected|i expected|]; cbn [run_qop].
  - wp_step. eapply wp_mono; [by apply Quarantine_keeps|]. intros [r|e] d' K; [by wp_step|done].
  - wp_step. eapply wp_mono; [by apply Restore_keeps|]. intros [r|e] d' K; [by wp_step|done].
  - eapply wp_mono; [by eapply Recover_keeps|]. intros r d' [I' F']. split; [done|]. split; rewrite F'; [done|].
    by intros.
Qed.

(** What a loop over the manifests does when one of them needs work. *)
Lemma wp_one_entry `{Kernel} E i (P0 P1 : Disk -> Prop) l d :
  NoDup l ->
  (forall j d, j ∈ l -> j <> i -> P0 d -> wp E (recover_entry j) (fun r d' => r = Ok None /\ d' = d) d) ->
  (forall j d, j ∈ l -> j <> i -> P1 d -> wp E (recover_entry j) (fun r d' => r = Ok None /\ d' = d) d) ->
  (forall d, P0 d -> wp E (recover_entry i) (fun r d' => r = Ok None /\ P1 d') d) ->
  P1 d /\ i ∉ l \/ P0 d /\ i ∈ l ->
  wp E (mapM recover_entry l) (fun r d' => P1 d' /\ exists errs, r = Ok errs /\ omap id errs = []) d.
Proof.
  revert d. induction l as [|j l IH]; intros d Hnd N0 N1 Hi Hd; cbn [mapM].
  { wp_step. destruct Hd as [[Hd _]|[_ Hd]]; [|by apply not_elem_of_nil in Hd]. split; [done|]. by eexists. }
  apply NoDup_cons in Hnd as [Hj Hnd]. wp_step.
  assert (Rest : forall d, P1 d /\ i ∉ l \/ P0 d /\ i ∈ l -> wp E (bind (mapM recover_entry l) (fun ys => ret (None :: ys)))
      (fun r d' => P1 d' /\ exists errs, r = Ok errs /\ omap id errs = []) d).
  { intros d1 Hd1. wp_step. eapply wp_mono; [apply IH; [done| | |done|done]|].
    - intros k d2 Hk. apply N0. by right.
    - intros k d2 Hk. apply N1. by right.
    - intros r d2 (HP&errs&->&He). wp_step. split; [done|]. by exists (None :: errs). }
  destruct (decide (j = i)) as [->|Hne].
  - destruct Hd as [[_ Hd]|[Hd _]]; [by exfalso; apply Hd; left|].
    eapply wp_mono; [by apply Hi|]. intros r d' [-> HP]. apply Rest. by left.
  - destruct Hd as [[Hd Hn]|[Hd Hn]].
    + eapply wp_mono; [apply (N1 j d); [by left|done|done]|]. intros r d' [-> ->]. apply Rest. left.
      split; [done|]. intros Hin. apply Hn. by right.
    + eapply wp_mono; [apply (N0 j d); [by left|done|done]|]. intros r d' [-> ->]. apply Rest. right.
      split; [done|]. by apply elem_of_cons in Hn as [->|].
Qed.

Lemma manifest_names_spec d : NoDup (manifest_names d) /\ forall j, j ∈ manifest_names d <-> is_Some (dk_manifests d !! j).
Proof.
  unfold manifest_names. split.
  - rewrite merge_sort_Permutation. apply NoDup_elements.
  - intros j. rewrite merge_sort_Permutation, elem_of_elements. apply elem_of_dom.
Qed.

(** No quarantine is half done: every manifest is readable, under its own
    name and not in preparation. *)
Definition settled (d : Disk) : Prop :=
  forall i x, dk_manifests d !! i = Some x ->
    exists man, x = Some man /\ quarantineIDPattern i = true /\ qm_Status man <> Prepared.

Lemma recover_settled_entry `{Kernel} E i man d :
  quiet E -> quarantineIDPattern i = true -> dk_manifests d !! i = Some (Some man) -> qm_Status man <> Prepared ->
  wp E (recover_entry i) (fun r d' => r = Ok None /\ d' = d) d.
Proof.
  intros Hq Hi Hm Hs. unfold recover_entry. wp_step. apply wp_ctx_quiet; [done|].
  wp_step. wp_step. eapply wp_load_manifest_quiet; [done..|]. apply String.eqb_neq in Hs. rewrite Hs. cbn [negb]. by wp_step.
Qed.

Lemma recover_prepared_back `{Kernel} E i man node d :
  quiet E -> quarantineIDPattern i = true -> dk_manifests d !! i = Some (Some man) -> qm_ID man = i ->
  qm_Status man = Prepared -> dk_files d !! qm_OriginalPath man = Some node ->
  dk_files d !! qm_QuarantinedPath man = None ->
  wp E (recover_entry i) (fun r d' => r = Ok None /\ d' = drop_manifest i d) d.
Proof.
  intros Hq Hi Hm Hid Hs Ho Hv. unfold recover_entry, disk_Lstat. wp_step. apply wp_ctx_quiet; [done|].
  wp_step. wp_step. eapply wp_load_manifest_quiet; [done..|]. rewrite Hs, String.eqb_refl. cbn [negb].
  wp_step. wp_step. apply wp_sys_quiet; [done|]. rewrite Ho.
  wp_step. wp_step. apply wp_sys_quiet; [done|]. rewrite Hv. cbn [errors_is].
  rewrite bool_decide_true by done. wp_step. wp_step. apply wp_sys_quiet; [done|]. rewrite Hid, Hm. by wp_step.
Qed.

Lemma recover_prepared_gone `{Kernel} E i man node d :
  quiet E -> quarantineIDPattern i = true -> dk_manifests d !! i = Some (Some man) -> qm_ID man = i ->
  qm_Status man = Prepared -> dk_files d !! qm_OriginalPath man = None ->
  dk_files d !! qm_QuarantinedPath man = Some node -> same_file (nd_Info node) (qm_OriginalSnapshot man) ->
  wp E (recover_entry i) (fun r d' => r = Ok None /\
    exists t, d' = set_manifest i (Some (reread (with_status man Committed t (qm_RestoredAt man)))) d) d.
Proof.
  intros Hq Hi Hm Hid Hs Ho Hv Hsf. unfold recover_entry, disk_Lstat. wp_step. apply wp_ctx_quiet; [done|].
  wp_step. wp_step. eapply wp_load_manifest_quiet; [done..|]. rewrite Hs, String.eqb_refl. cbn [negb].
  wp_step. wp_step. apply wp_sys_quiet; [done|]. rewrite Ho.
  wp_step. wp_step. apply wp_sys_quiet; [done|]. rewrite Hv. cbn [errors_is].
  rewrite bool_decide_true by done. wp_step. wp_step. eapply wp_verifyIdentity_quiet; [done..|].
  wp_step. wp_step. wp_step. wp_step. unfold save. apply wp_atomic_write_quiet; [done|]. wp_step.
  split; [done|]. eexists. cbn [qm_ID with_status]. by rewrite Hid.
Qed.

(** The loop of [Recover] and its sum of errors. *)
Lemma wp_Recover_one `{Kernel} E i (P0 P1 : Disk -> Prop) d :
  quiet E -> (P1 d /\ dk_manifests d !! i = None \/ P0 d /\ is_Some (dk_manifests d !! i)) ->
  (forall j, j <> i -> is_Some (dk_manifests d !! j) ->
     exists man, dk_manifests d !! j = Some (Some man) /\ quarantineIDPattern j = true /\ qm_Status man <> Prepared) ->
  (forall d' j, P0 d' \/ P1 d' -> j <> i -> dk_manifests d' !! j = dk_manifests d !! j) ->
  (forall d', P0 d' -> wp E (recover_entry i) (fun r d'' => r = Ok None /\ P1 d'') d') ->
  wp E Recover (fun r d' => r = Ok tt /\ P1 d') d.
Proof.
  intros Hq Hd Hs Hsame Hi. unfold Recover. wp_step. apply wp_sys_quiet; [done|]. wp_step.
  destruct (manifest_names_spec d) as [Hnd Hin].
  eapply wp_mono; [apply (wp_one_entry E i P0 P1); [done| | |done|]|].
  - intros j d' Hj Hne HP. apply Hin in Hj. destruct (Hs j Hne Hj) as (man&Hm&Hp&Hst).
    eapply recover_settled_entry; [done|done| |done]. rewrite Hsame; [done|by left|done].
  - intros j d' Hj Hne HP. apply Hin in Hj. destruct (Hs j Hne Hj) as (man&Hm&Hp&Hst).
    eapply recover_settled_entry; [done|done| |done]. rewrite Hsame; [done|by right|done].
  - rewrite Hin. destruct Hd as [[HP Hn]|[HP Hn]]; [left|by right]. rewrite Hn. split; [done|]. by intros [? [=]].
  - intros r d' (HP&errs&->&He). rewrite He. cbn. by wp_step.
Qed.

Lemma wp_Recover_settled `{Kernel} E d :
  quiet E -> settled d -> wp E Recover (fun r d' => r = Ok tt /\ d' = d) d.
Proof.
  intros Hq Hs. apply (wp_Recover_one E "" (fun _ => False) (fun d' => d' = d)); [done| | |naive_solver|done].
  - left. split; [done|]. destruct (dk_manifests d !! "") as [x|] eqn:E'; [|done].
    destruct (Hs "" x E') as (man&_&Hp&_). discriminate Hp.
  - intros j _ [x Hx]. destruct (Hs j x Hx) as (man&->&Hp&Hst). by exists man.
Qed.

Section Properties.
Context `{Kernel} (m : QuarantineManager) (Hw : well_placed m).
Context (Hutf : forall i, quarantineIDPattern i = true -> json_string (object_path m i) = object_path m i).
Context (Hres : forall f p q, resolve f p = Ok q -> json_string q = q).

(** Recovery after a quarantine that stopped with its manifest in
    preparation: taken back when the file did not move, completed when it
    did. *)
Lemma recover_noted E taskID nonce expected d path node man :
  quiet E -> settled d -> q_facts m taskID nonce expected d path node man ->
  wp E Recover (fun r d' => r = Ok tt /\ d' = d) (set_manifest (qm_ID man) (Some (reread man)) d).
Proof.
  intros Hq Hs [Hr Hin Hf Hsame Hv (t&->) Hnew]. cbn [qm_ID] in *. set (i := object_id taskID nonce expected) in *.
  pose proof (object_id_valid taskID nonce expected : quarantineIDPattern i = true) as Hi. clearbody i.
  set (man := MkManifest i taskID path (object_path m i) expected Prepared t zero_time zero_time).
  destruct (reread_man m Hutf man i Hi eq_refl eq_refl (Hres _ _ _ Hr)) as (R1&R2&R3&R4).
  apply (wp_Recover_one E i (fun d' => d' = set_manifest i (Some (reread man)) d) (fun d' => d' = d)); [done| | | |].
  - right. split; [done|]. cbn. rewrite lookup_insert_eq. by eexists.
  - intros j Hne. cbn. rewrite lookup_insert_ne by done. intros [x Hx]. destruct (Hs j x Hx) as (man'&->&?&?). by exists man'.
  - intros d' j [->| ->] Hne; cbn; by rewrite !lookup_insert_ne.
  - intros d' ->. eapply wp_mono; [eapply (recover_prepared_back E i (reread man) node); try done|].
    + cbn. apply lookup_insert_eq.
    + rewrite R3. done.
    + rewrite R2. done.
    + intros r d' [-> ->]. split; [done|]. by apply drop_set.
Qed.

Lemma recover_stuck E taskID nonce expected d path node man :
  quiet E -> settled d -> q_facts m taskID nonce expected d path node man ->
  wp E Recover (fun r d' => r = Ok tt /\ exists t,
      d' = MkDisk (move path (qm_QuarantinedPath man) node (dk_files d))
             (<[qm_ID man := Some (reread (with_status (reread man) Committed t zero_time))]> (dk_manifests d)))
    (MkDisk (move path (qm_QuarantinedPath man) node (dk_files d)) (<[qm_ID man := Some (reread man)]> (dk_manifests d))).
Proof.
  intros Hq Hs [Hr Hin Hf Hsame Hv (t&->) Hnew]. cbn [qm_ID qm_QuarantinedPath] in *.
  set (i := object_id taskID nonce expected) in *.
  pose proof (object_id_valid taskID nonce expected : quarantineIDPattern i = true) as Hi. clearbody i.
  set (man := MkManifest i taskID path (object_path m i) expected Prepared t zero_time zero_time).
  destruct (reread_man m Hutf man i Hi eq_refl eq_refl (Hres _ _ _ Hr)) as (R1&R2&R3&R4).
  set (d1 := MkDisk (move path (object_path m i) node (dk_files d)) (<[i := Some (reread man)]> (dk_manifests d))).
  apply (wp_Recover_one E i (fun d' => d' = d1) (fun d' => exists t, d' = MkDisk (dk_files d1)
           (<[i := Some (reread (with_status (reread man) Committed t zero_time))]> (dk_manifests d)))); [done| | | |].
  - right. split; [done|]. cbn. rewrite lookup_insert_eq. by eexists.
  - intros j Hne. cbn. rewrite lookup_insert_ne by done. intros [x Hx]. destruct (Hs j x Hx) as (man'&->&?&?). by exists man'.
  - intros d' j [->|[t' ->]] Hne; cbn; by rewrite !lookup_insert_ne.
  - intros d' ->. eapply wp_mono; [eapply (recover_prepared_gone E i (reread man) node); try done|].
    + cbn. apply lookup_insert_eq.
    + rewrite R3. cbn. apply move_source. by eapply (object_not_in_lab m Hw i).
    + rewrite R2. cbn. apply move_destination.
    + by apply R4.
    + intros r d' [-> [t' ->]]. split; [done|]. exists t'. unfold set_manifest. cbn. by rewrite insert_insert_eq.
Qed.
End Properties.

(** [NewQuarantineManager] checks what the theorems need of a manager. *)
Lemma NewQuarantineManager_ok `{Kernel} E labRoots quarantineRoot d :
  (forall f p q, resolve f p = Ok q -> IsAbs p = true -> IsAbs q = true) ->
  wp E (NewQuarantineManager labRoots quarantineRoot) (fun r _ => forall m, r = Ok m -> well_placed m) d.
Proof.
  intros Habs. unfold NewQuarantineManager, guard_.
  assert (Dir : forall p d, wp E (canonicalDirectory p) (fun r _ => forall c, r = Ok c -> IsAbs c = true) d).
  { intros p d1. unfold canonicalDirectory, disk_EvalSymlinks, guard_. destruct (IsAbs p) eqn:Hp; cbn [negb]; [|by wp_go].
    wp_step. wp_step. wp_step. wp_step; [done|]. destruct (resolve _ _) as [c|e] eqn:Er; cbn [rbind]; [|done].
    assert (IsAbs c = true) by (eapply Habs; [done|by rewrite IsAbs_Clean]).
    wp_step. wp_step. apply wp_any. intros [i|e] d2; [|by wp_go]. destruct (IsDir i); wp_go; [|done]. by intros c' [= <-]. }
  wp_step. wp_step. destruct labRoots as [|r0 rs]; [done|].
  wp_step. eapply wp_mono; [apply (wp_mapM E lab_root _ (fun _ => True) (fun c => IsAbs c = true)); [|done]|].
  { intros root d1 _ _. unfold lab_root. wp_step. wp_step. eapply wp_mono; [apply Dir|].
    intros [c|e] d2 Hc; cbn [wrap_err]; [|done]. destruct (String.eqb c "/"); wp_step; [done|].
    split; [done|]. intros c' [= <-]. by apply Hc. }
  intros [roots|e] d1 [_ Hroots]; [|done]. specialize (Hroots roots eq_refl).
  wp_step. wp_step. destruct (_ || _ : bool); [done|].
  wp_step. apply wp_any. intros [us|e] d2; [|done]. wp_step. eapply wp_mono; [apply Dir|].
  intros [q|e] d3 Hq; [|done]. specialize (Hq q eq_refl).
  wp_step. wp_step. destruct (existsb _ roots) eqn:Ex; [done|]. wp_step. intros m [= <-].
  assert (P : roots ≡ₚ merge_sort String.le roots) by (by rewrite merge_sort_Permutation).
  split; cbn; [done|done|by rewrite <- P|]. rewrite <- P. apply Forall_forall. intros r Hr.
  destruct (within r q || within q r) eqn:Ew; [|by apply orb_false_iff in Ew].
  exfalso. assert (existsb (fun root => within root q || within q root) roots = true) by
    (apply existsb_exists; exists r; split; [by apply list_elem_of_In|done]). congruence.
Qed.

(** ** Properties *)

(** A manager is only built over trees that are apart.  When
    [NewQuarantineManager] succeeds, no path at all is both below one of
    its lab roots and below its quarantine root, whatever symbolic links
    the configured paths went through, and the objects and manifests are
    directly below the quarantine root. *)
Theorem manager_trees_disjoint `{Kernel}
    (Habs : forall f p q, resolve f p = Ok q -> IsAbs p = true -> IsAbs q = true)
    (E : Env) (labRoots : list string) (quarantineRoot : string) (d : Disk) :
  wp E (NewQuarantineManager labRoots quarantineRoot) (fun r _ => forall m, r = Ok m ->
    (forall p, withinAny p (q_labRoots m) = true -> within (q_quarantineRoot m) p = false) /\
    q_objectsDir m = PathJoin [q_quarantineRoot m; "objects"] /\
    q_manifestsDir m = PathJoin [q_quarantineRoot m; "manifests"]) d.
Proof.
  assert (Dirs : wp E (NewQuarantineManager labRoots quarantineRoot) (fun r _ => forall m, r = Ok m ->
    q_manifestsDir m = PathJoin [q_quarantineRoot m; "manifests"]) d).
  { unfold NewQuarantineManager. do 3 (apply wp_bind, wp_any; intros [?|?] ?; [|done]).
    do 3 (apply wp_bind, wp_any; intros [?|?] ?; [|done]). apply wp_ret. by intros m [= <-]. }
  intros w Hw m Hm. pose proof (NewQuarantineManager_ok E labRoots quarantineRoot d Habs w Hw m Hm) as [Ha Ho Hr Hap].
  split; [|split; [done|exact (Dirs w Hw m Hm)]].
  intros p Hp. destruct (within (q_quarantineRoot m) p) eqn:Hq; [|done]. exfalso.
  unfold withinAny in Hp. apply existsb_exists in Hp as (r&Hin&Hrp). apply list_elem_of_In in Hin.
  rewrite Forall_forall in Hr, Hap. destruct (Hap r Hin) as [H1 H2].
  exact (apart_disjoint r (q_quarantineRoot m) p (Hr r Hin) Ha H1 H2 Hrp Hq).
Qed.

Section Claims.
Context `{Kernel} (m : QuarantineManager).

(** What is assumed of names: [json_string p = p] says that [p] is valid
    UTF-8. *)
Record utf8_names : Prop := {
  un_objects : forall i, quarantineIDPattern i = true -> json_string (object_path m i) = object_path m i;
  un_resolved : forall f p q, resolve f p = Ok q -> json_string q = q
}.

(** C19: no file is ever lost.  Whatever quarantines, restores and
    recoveries are asked for, in any lives of the process and with any
    failures and crashes between two system calls, the files that exist at
    the end are, with their metadata and contents, those that existed at
    the beginning, only places below the lab roots and the objects changed,
    and every object still in quarantine has a readable manifest, prepared
    or committed, under its own name, from which it can be restored. *)
Theorem quarantine_never_loses (Hw : well_placed m) (Hu : utf8_names) (lives : list (Env * list qop)) (d : Disk)
    (Hh : Forall (fun life => honest life.1) lives) (Hi : inv m d) :
  inv m (run_lives m lives d) /\ kept m d (run_lives m lives d).
Proof.
  revert d Hi. induction Hh as [|[E l] lives Hh _ IH]; intros d Hi; cbn; [split; [done|apply kept_preorder]|].
  cbn in Hh. set (d1 := st _).
  assert (K : inv m d1 /\ kept m d d1).
  { refine (wp_run E (mapM (fun o => try_ (run_qop m o)) l) (fun _ d' => inv m d' /\ kept m d d') (init_world d) _ _ _
              (surjective_pairing _)). cbn.
    eapply wp_mono; [apply (wp_mapM E _ l (fun d' => inv m d' /\ kept m d d') (fun _ => True))|].
    - intros o d2 _ [I2 K2]. apply wp_try. eapply wp_mono;
        [exact (run_qop_keeps m Hw (un_objects Hu) (un_resolved Hu) E o d2 Hh I2)|].
      intros r d3 [I3 K3]. split; [|done]. split; [done|]. etransitivity; done.
    - split; [done|apply kept_preorder].
    - intros r d' [K _]. exact K. }
  destruct K as [I1 K1]. destruct (IH d1 I1) as [I2 K2]. split; [done|]. etransitivity; done.
Qed.

(** C20: a quarantine is all or nothing across a crash.  From a disk with
    no half-done quarantine, stop [Quarantine] at any point by a failure or
    a crash, so long as the first write of the manifest was not torn, and
    run [Recover] without failures: it succeeds, and either the disk is
    exactly as before, or the file is in quarantine under a committed
    manifest and everything else as before; the latter if [Quarantine] had
    reported success. *)
Theorem quarantine_atomic_after_recovery (Hw : well_placed m) (Hu : utf8_names) (E1 E2 : Env)
    (taskID nonce : string) (expected : TargetSnapshot) (d : Disk)
    (Hh : honest E1) (Hq : quiet E2) (Hs : settled d) :
  wp E1 (Quarantine m taskID nonce expected) (fun r d1 =>
    dk_manifests d1 !! object_id taskID nonce expected <> Some None ->
    wp E2 Recover (fun r2 d2 => r2 = Ok tt /\
      ((d2 = d /\ is_ok r = false) \/
       exists path node man, dk_files d !! path = Some node /\ withinAny path (q_labRoots m) = true /\
         d2 = MkDisk (move path (object_path m (object_id taskID nonce expected)) node (dk_files d))
                (<[object_id taskID nonce expected := Some man]> (dk_manifests d)) /\
         qm_Status man = Committed /\ qm_OriginalPath man = path)) d1) d.
Proof.
  eapply wp_mono; [by apply Quarantine_outcome|].
  intros r d1 Ho Ht. destruct Ho as [e|e path node man x F Hx|e path node man F|op path node man t checks F ->].
  - eapply wp_mono; [by apply wp_Recover_settled|]. intros r2 d2 [-> ->]. split; [done|]. by left.
  - destruct Hx as [->| ->].
    + exfalso. apply Ht. destruct F as [_ _ _ _ _ (t&->) _]. apply lookup_insert_eq.
    + eapply wp_mono; [exact (recover_noted m (un_objects Hu) (un_resolved Hu) E2 _ _ _ d path node man Hq Hs F)|].
      intros r2 d2 [-> ->]. split; [done|]. by left.
  - eapply wp_mono; [exact (recover_stuck m Hw (un_objects Hu) (un_resolved Hu) E2 _ _ _ d path node man Hq Hs F)|].
    intros r2 d2 [-> (t&->)]. split; [done|]. right. destruct F as [Fr Fi Ff _ _ (t'&->) _].
    exists path, node. eexists. split; [done|]. split; [done|]. split; [done|]. split; [done|]. 
    cbn -[json_string]. by rewrite !(un_resolved Hu _ _ _ Fr).
  - assert (Hs' : settled (MkDisk (move path (qm_QuarantinedPath man) node (dk_files d))
        (<[qm_ID man := Some (reread (op_Manifest (MkOperation (with_status man Committed t zero_time) checks)))]> (dk_manifests d)))).
    { intros i x Hx. cbn in Hx. destruct (decide (i = qm_ID man)) as [->|Hne].
      - rewrite lookup_insert_eq in Hx. injection Hx as <-. eexists. split; [done|].
        destruct F as [_ _ _ _ _ (t'&->) _]. split; [apply object_id_valid|]. discriminate.
      - rewrite lookup_insert_ne in Hx by done. by apply Hs. }
    eapply wp_mono; [by apply wp_Recover_settled|]. intros r2 d2 [-> ->]. split; [done|]. right.
    destruct F as [Fr Fi Ff _ _ (t'&->) _].
    exists path, node. eexists. split; [done|]. split; [done|]. split; [done|]. split; [done|]. 
    cbn -[json_string]. by rewrite !(un_resolved Hu _ _ _ Fr).
Qed.

Lemma wp_vacant_quiet E path occupied Q d :
  quiet E -> dk_files d !! path = None -> Q (Ok tt) d -> wp E (must_be_vacant path occupied) Q d.
Proof.
  intros Hq Hv HQ. unfold must_be_vacant, disk_Lstat. apply wp_bind, wp_try, wp_sys_quiet; [done|].
  rewrite Hv. cbn [errors_is]. rewrite bool_decide_true by done. by wp_step.
Qed.

(** A restore that nothing stands in the way of. *)
Lemma Restore_quiet E i man node snap parent d :
  quiet E -> quarantineIDPattern i = true -> dk_manifests d !! i = Some (Some man) -> qm_ID man = i ->
  qm_Status man = Committed -> dk_files d !! qm_QuarantinedPath man = Some node ->
  dk_files d !! qm_OriginalPath man = None ->
  same_file (nd_Info node) snap -> same_file (nd_Info node) (qm_OriginalSnapshot man) ->
  ts_Type snap = "file" -> Clean (ts_CanonicalPath snap) = qm_QuarantinedPath man ->
  resolve (dk_files d) (Dir (qm_OriginalPath man)) = Ok parent -> withinAny parent (q_labRoots m) = true ->
  wp E (Restore m i snap) (fun r d' => is_ok r = true /\ exists t,
    d' = MkDisk (move (qm_QuarantinedPath man) (qm_OriginalPath man) node (dk_files d))
           (<[i := Some (reread (with_status man Restored (qm_CommittedAt man) t))]> (dk_manifests d))) d.
Proof.
  intros Hq Hi Hm Hid Hs Hf Hv Hsf Hso Hty Hcl Hr Hp. unfold Restore, disk_EvalSymlinks, guard_.
  wp_step. apply wp_ctx_quiet; [done|]. wp_step. wp_step. rewrite Hi. cbn [negb].
  wp_step. eapply wp_load_manifest_quiet; [done..|]. rewrite Hs, Hty, Hcl, !String.eqb_refl.
  change (String.eqb Committed Restored) with false. cbn [negb orb].
  wp_step. wp_step. eapply wp_verifyIdentity_quiet; [done..|]. cbn [wrap_err].
  wp_step. wp_step. replace (verifySameIdentity snap (qm_OriginalSnapshot man)) with (@Ok unit tt)
    by (symmetry; apply verifySameIdentity_ok; destruct Hsf, Hso; split_and!; congruence). cbn [wrap_err].
  wp_step. wp_step. apply wp_sys_quiet; [done|]. rewrite Hr. cbn [rbind]. wp_step. wp_step. rewrite Hp. cbn [negb].
  wp_step. apply wp_vacant_quiet; [done..|].
  wp_step. wp_step. eapply wp_Rename_quiet; [done..|]. cbn [wrap_err].
  wp_step. wp_step. eapply wp_verifyIdentity_quiet; [done|apply move_destination|done|].
  wp_step. wp_step. wp_step. wp_step. unfold save. apply wp_atomic_write_quiet; [done|]. wp_step.
  split; [done|]. eexists. unfold set_manifest. cbn [dk_files dk_manifests set_files qm_ID with_status]. by rewrite Hid.
Qed.

Lemma Restore_again E i man snap d :
  quiet E -> quarantineIDPattern i = true -> dk_manifests d !! i = Some (Some man) -> qm_Status man = Restored ->
  wp E (Restore m i snap) (fun r d' => is_ok r = true /\ d' = d) d.
Proof.
  intros Hq Hi Hm Hs. unfold Restore, guard_. wp_step. apply wp_ctx_quiet; [done|]. wp_step. wp_step. rewrite Hi. cbn [negb].
  wp_step. eapply wp_load_manifest_quiet; [done..|]. rewrite Hs. cbn. by wp_step.
Qed.

(** Restoring undoes a quarantine.  After a successful [Quarantine], a
    [Restore] under the returned id that meets no failure, with a snapshot
    of the object and while the original parent directory is still below
    the lab roots, succeeds and leaves exactly the files that were there
    before the quarantine; asking again succeeds without any effect. *)
Theorem quarantine_restore_roundtrip (Hw : well_placed m) (Hu : utf8_names) (E1 E2 : Env)
    (taskID nonce : string) (expected : TargetSnapshot) (d : Disk) (Hh : honest E1) (Hq : quiet E2) :
  wp E1 (Quarantine m taskID nonce expected) (fun r d1 => forall op, r = Ok op ->
    forall snap parent, ts_Type snap = "file" ->
      Clean (ts_CanonicalPath snap) = qm_QuarantinedPath (op_Manifest op) -> verifySameIdentity expected snap = Ok tt ->
      resolve (dk_files d1) (Dir (qm_OriginalPath (op_Manifest op))) = Ok parent ->
      withinAny parent (q_labRoots m) = true ->
      wp E2 (Restore m (qm_ID (op_Manifest op)) snap) (fun r2 d2 => is_ok r2 = true /\ dk_files d2 = dk_files d /\
        wp E2 (Restore m (qm_ID (op_Manifest op)) snap) (fun r3 d3 => is_ok r3 = true /\ d3 = d2) d2) d1) d.
Proof.
  eapply wp_mono; [by apply Quarantine_outcome|]. intros r d1 Ho op ->.
  inversion Ho as [| | |op' path node man t checks F Eop]; subst. cbn [op_Manifest].
  intros snap parent Hty Hcl Hsame Hr Hp. destruct F as [Fr Fi Ff Fs Fv (t0&->) _].
  pose proof (object_id_valid taskID nonce expected) as Hi.
  cbn [qm_ID qm_QuarantinedPath qm_OriginalPath with_status dk_files] in *. set (i := object_id taskID nonce expected) in *.
  clearbody i. set (man := with_status _ Committed t zero_time) in *.
  destruct (reread_man m (un_objects Hu) man i Hi eq_refl eq_refl (un_resolved Hu _ _ _ Fr)) as (R1&R2&R3&R4).
  eapply wp_mono; [eapply (Restore_quiet E2 i (reread man) node snap parent); rewrite ?R2, ?R3; try done|].
  - apply lookup_insert_eq.
  - apply move_destination.
  - apply move_source. by eapply (object_not_in_lab m Hw i).
  - by eapply same_file_transfer.
  - by apply R4.
  - intros r2 d2 (Hok&t2&->). split; [done|]. cbn [dk_files dk_manifests].
    rewrite R2, R3. split; [by apply move_back|].
    eapply Restore_again; [done|done|apply lookup_insert_eq|done].
Qed.
End Claims.

(** *** A concrete quarantine *)
Definition dir_node : Node := MkNode (MkFileInfo 0 0 (ModeDir + 493) (Some 1)) "".
Definition lab_kernel : Kernel := {|
  resolve := fun _ p => if String.eqb (json_string p) p then Ok p else Err (ESys ENOENT);
  mkdir_all := fun p f => Ok (<[p := dir_node]> f);
  encoded_size := fun _ => 1000%nat
|}.
Definition lab_manager : QuarantineManager :=
  MkQuarantineManager ["/srv/lab"] "/var/q" "/var/q/objects" "/var/q/manifests".
Definition lab_node : Node := MkNode (MkFileInfo 3 100 420 (Some 7)) "abc".
Definition lab_disk : Disk := MkDisk {[ "/srv/lab/a" := lab_node ]} ∅.
Definition lab_target : TargetSnapshot :=
  MkTargetSnapshot "file" "a" "/srv/lab/a" false "" 0 3 100 420 7 0 0 "" "" 0 "" "" 0.
Definition lab_id : string := Eval vm_compute in object_id "task_1" "nonce_1" lab_target.
Definition lab_object : TargetSnapshot :=
  MkTargetSnapshot "file" "a" ("/var/q/objects/" +:+ lab_id) false "" 0 3 100 420 7 0 0 "" "" 0 "" "" 0.

Definition run_on {A} (E : Env) (p : M Disk A) (d : Disk) : result A * Disk :=
  let '(r, w) := p E (init_world d) in (r, st w).

(** The machine stops for good at the [n]-th system call. *)
Definition crash_at (n : nat) : Env :=
  MkEnv (fun _ => 0) (fun k => if (n <=? k)%nat then Some ECRASH else None) (fun _ => "") (fun _ => None) (fun _ => 0%nat).

Lemma crash_honest n : honest (crash_at n).
Proof. intros k. cbn. by case_match. Qed.

Lemma calm_honest t i : honest (calm t i).
Proof. done. Qed.

Lemma lab_well_placed : well_placed lab_manager.
Proof.
  split; [reflexivity|vm_compute; reflexivity|by repeat constructor|].
  repeat constructor; vm_compute; reflexivity.
Qed.

Lemma lab_utf8 : utf8_names (H := lab_kernel) lab_manager.
Proof.
  split.
  - intros i Hi. apply json_string_ascii.
    destruct (object_path_comps lab_manager lab_well_placed i Hi) as [Ha Hc].
    assert (Hne : String.eqb i "" = false) by (apply String.eqb_neq; by destruct (id_pattern_shape i Hi) as [_ []]).
    assert (HC : object_path lab_manager i = Clean (Join ["/var/q/objects"; i] "/")).
    { unfold object_path, PathJoin. cbn [q_objectsDir lab_manager List.filter]. by rewrite Hne. }
    rewrite HC in *. rewrite IsAbs_Clean in Ha. rewrite path_comps_Clean in Hc by done.
    rewrite Clean_abs, Hc by done.
    change (path_comps (q_objectsDir lab_manager)) with ["var"; "q"; "objects"]. cbn [app Join].
    apply id_pattern_shape in Hi as [Hi _]. unfold is_ascii in *. by rewrite !all_bytes_app, Hi.
  - intros f p q. cbn. destruct (String.eqb_spec (json_string p) p); [|done]. by intros [= <-].
Qed.

Lemma lab_inv : inv lab_manager lab_disk.
Proof.
  split; cbn.
  - intros i man Hm. by rewrite lookup_empty in Hm.
  - intros i node Hi Hn. apply lookup_singleton_Some in Hn as [Hn _]. exfalso.
    refine (object_not_in_lab lab_manager lab_well_placed i "/srv/lab/a" Hi _ Hn). vm_compute. reflexivity.
Qed.

Lemma lab_settled : settled lab_disk.
Proof. intros i x Hx. cbn in Hx. rewrite lookup_empty in Hx. discriminate Hx. Qed.

Definition lab_lives : list (Env * list qop) :=
  [(crash_at 9, [QQuarantine "task_1" "nonce_1" lab_target]); (calm 5 "", [QRecover; QRestore lab_id lab_object])].

Lemma manager_trees_disjoint_witness :
  wp (calm 5 "") (NewQuarantineManager (H := lab_kernel) ["/srv/lab"] "/var/q") (fun r _ => forall m, r = Ok m ->
    (forall p, withinAny p (q_labRoots m) = true -> within (q_quarantineRoot m) p = false) /\
    q_objectsDir m = PathJoin [q_quarantineRoot m; "objects"] /\
    q_manifestsDir m = PathJoin [q_quarantineRoot m; "manifests"]) (MkDisk {[ "/srv/lab" := dir_node ]} ∅).
Proof.
  apply (manager_trees_disjoint (H := lab_kernel)).
  intros f p q. cbn. destruct (String.eqb (json_string p) p); [|discriminate]. intros [= <-] Hp. exact Hp.
Defined.

(** The manager of the configured paths is built. *)
Example lab_manager_built :
  let '(r, _) := run_on (calm 5 "") (NewQuarantineManager (H := lab_kernel) ["/srv/lab"] "/var/q")
                   (MkDisk {[ "/srv/lab" := dir_node ]} ∅) in r = Ok lab_manager.
Proof. vm_compute. reflexivity. Qed.

Lemma quarantine_never_loses_witness :
  inv lab_manager (run_lives (H := lab_kernel) lab_manager lab_lives lab_disk) /\
  kept lab_manager lab_disk (run_lives (H := lab_kernel) lab_manager lab_lives lab_disk).
Proof.
  apply (quarantine_never_loses (H := lab_kernel) lab_manager lab_well_placed lab_utf8 lab_lives lab_disk).
  - repeat constructor; [apply (crash_honest 9)|apply (calm_honest 5 "")].
  - apply lab_inv.
Defined.

(** Stopped right after the rename: recovery completes the quarantine. *)
Lemma quarantine_atomic_after_recovery_witness :
  wp (crash_at 9) (Quarantine (H := lab_kernel) lab_manager "task_1" "nonce_1" lab_target) (fun r d1 =>
    dk_manifests d1 !! object_id "task_1" "nonce_1" lab_target <> Some None ->
    wp (calm 5 "") Recover (fun r2 d2 => r2 = Ok tt /\
      ((d2 = lab_disk /\ is_ok r = false) \/
       exists path node man, dk_files lab_disk !! path = Some node /\ withinAny path (q_labRoots lab_manager) = true /\
         d2 = MkDisk (move path (object_path lab_manager (object_id "task_1" "nonce_1" lab_target)) node (dk_files lab_disk))
                (<[object_id "task_1" "nonce_1" lab_target := Some man]> (dk_manifests lab_disk)) /\
         qm_Status man = Committed /\ qm_OriginalPath man = path)) d1) lab_disk.
Proof.
  exact (quarantine_atomic_after_recovery (H := lab_kernel) lab_manager lab_well_placed lab_utf8 (crash_at 9) (calm 5 "")
           "task_1" "nonce_1" lab_target lab_disk (crash_honest 9) (calm_quiet 5 "") lab_settled).
Defined.

Lemma quarantine_restore_roundtrip_witness :
  wp (calm 5 "") (Quarantine (H := lab_kernel) lab_manager "task_1" "nonce_1" lab_target) (fun r d1 => forall op, r = Ok op ->
    forall snap parent, ts_Type snap = "file" ->
      Clean (ts_CanonicalPath snap) = qm_QuarantinedPath (op_Manifest op) -> verifySameIdentity lab_target snap = Ok tt ->
      resolve (Kernel := lab_kernel) (dk_files d1) (Dir (qm_OriginalPath (op_Manifest op))) = Ok parent ->
      withinAny parent (q_labRoots lab_manager) = true ->
      wp (calm 6 "") (Restore (H := lab_kernel) lab_manager (qm_ID (op_Manifest op)) snap) (fun r2 d2 =>
        is_ok r2 = true /\ dk_files d2 = dk_files lab_disk /\
        wp (calm 6 "") (Restore (H := lab_kernel) lab_manager (qm_ID (op_Manifest op)) snap)
          (fun r3 d3 => is_ok r3 = true /\ d3 = d2) d2) d1) lab_disk.
Proof.
  exact (quarantine_restore_roundtrip (H := lab_kernel) lab_manager lab_well_placed lab_utf8 (calm 5 "") (calm 6 "")
           "task_1" "nonce_1" lab_target lab_disk (calm_honest 5 "") (calm_quiet 6 "")).
Defined.

(** What runs at the edges, evaluated. *)
Definition lab_quarantine : M Disk Operation := Quarantine (H := lab_kernel) lab_manager "task_1" "nonce_1" lab_target.
Definition lab_restore : M Disk Operation := Restore (H := lab_kernel) lab_manager lab_id lab_object.

(** Any failure after the manifest file is created and before it is written
    whole leaves a manifest that cannot be read, if the removal fails too;
    [Recover] then reports an error at every start. *)
Example torn_manifest_blocks_recovery :
  let d1 := (run_on (crash_at 4) lab_quarantine lab_disk).2 in
  let '(r, d2) := run_on (calm 5 "") Recover d1 in
  is_ok r = false /\ (match dk_manifests d2 !! lab_id with Some None => true | _ => false end) = true.
Proof. vm_compute. split; reflexivity. Qed.

(** A crash of [Restore] between its rename and its manifest leaves the file
    restored under a committed manifest: [Recover] has nothing to say, and
    the restore can neither be repeated nor reported. *)
Example crashed_restore_is_stranded :
  let d1 := (run_on (calm 5 "") lab_quarantine lab_disk).2 in
  let d2 := (run_on (crash_at 5) lab_restore d1).2 in
  let '(r3, d3) := run_on (calm 6 "") Recover d2 in
  let '(r4, d4) := run_on (calm 7 "") lab_restore d3 in
  is_ok r3 = true /\ is_ok r4 = false /\
  bool_decide (is_Some (dk_files d4 !! "/srv/lab/a")) = true /\
  (match dk_manifests d4 !! lab_id with Some (Some man) => qm_Status man | _ => "" end) = Committed.
Proof. vm_compute. repeat split; reflexivity. Qed.
