(* ===== verification/Handlers.v ===== *)
(** * [internal/executor]: the handlers of the privileged actions

    [mutation_handlers.go], [quarantine_handler.go] and [secret.go].  The
    service and process handlers run on the abstract [Machine]; creating a
    file and the quarantine run on the disk of [Rollback]. *)

From S2P Require Import Prelude GoStrings GoText GoPath Json Hash Contracts Platform Targets Guard Approval Nonce Executor Rollback.
Open Scope Z_scope.

Definition maxCreatedFileBytes : nat := 64 * 1024.
Definition DirectRestricted : string := "DIRECT_RESTRICTED".
Definition LabSandbox : string := "LAB_SANDBOX".

(** A verified result of the lab mode. *)
Definition succeeded (envelope : ActionEnvelope) (message id : string) (checks : list string)
    (evidence : gmap string string) (started finished : Z) : Result :=
  MkResult (ap_Tool (ae_Proposal envelope)) LabSandbox "SUCCEEDED" message id true
    (Some (MkVerification true checks evidence)) started finished.

(** ** Services and processes *)
Section Machine.
Context {H : Type} `{Machine H}.

Definition ServiceRestartHandler (systemctl : string) (envelope : ActionEnvelope) : M H Result :=
  let snapshot := ae_TargetSnapshot envelope in
  lift (guard_ (String.eqb systemctl "") (EMsg "fixed systemctl runner is unavailable")) ;;;
  lift (guard_ (negb (String.eqb (ap_Tool (ae_Proposal envelope)) "service.restart")
                || negb (String.eqb (ts_Type snapshot) "service") || String.eqb (ts_ServiceName snapshot) "")
          (EMsg "invalid service restart envelope")) ;;;
  started <- now ;;
  let unit := ts_ServiceName snapshot in
  RunCommand systemctl ["restart"; "--"; unit] ;;;
  status <- wrapping "verify restarted service: " (Service systemctl unit) ;;
  lift (guard_ (negb (String.eqb (ss_ActiveState status) "active"))
          (EMsg ("service verification failed: active_state=" +:+ ss_ActiveState status +:+
                 " sub_state=" +:+ ss_SubState status))) ;;;
  finished <- now ;;
  ret (succeeded envelope "allowlisted service restart completed and verified" (ap_ProposalID (ae_Proposal envelope))
         ["fixed systemctl restart returned success"; "systemctl show reports active"]
         (<["service" := ss_Name status]> (<["active_state" := ss_ActiveState status]>
            (<["sub_state" := ss_SubState status]> {["main_pid" := show_Z (ss_MainPID status)]})))
         started finished).

(** The loop of [ProcessTerminateHandler.Execute].  The runtime decides
    after how many ticks the deadline fires ([ticks]), and the environment
    whether the context is done at a [select]; [self] is [os.Getpid()]. *)
Fixpoint await_exit (read : Z -> M H ProcessInfo) (pid : Z) (ticks : nat) : M H unit :=
  info <- try_ (read pid) ;;
  let gone := match info with Ok i => String.eqb (pi_State i) "Z" | Err e => errors_is e ENOENT end in
  if gone then ret tt
  else match info with
       | Err e => throw (EWrap "verify process termination: " e)
       | Ok _ =>
         ctx_check ;;;
         match ticks with
         | 0%nat => throw (EMsg "process remained alive after fixed SIGTERM timeout; SIGKILL was not attempted")
         | S ticks => await_exit read pid ticks
         end
       end.

Definition ProcessTerminateHandler (read : Z -> M H ProcessInfo) (self : Z) (ticks : nat)
    (envelope : ActionEnvelope) : M H Result :=
  let snapshot := ae_TargetSnapshot envelope in
  lift (guard_ (negb (String.eqb (ap_Tool (ae_Proposal envelope)) "process.terminate")
                || negb (String.eqb (ts_Type snapshot) "process") || (ts_PID snapshot <=? 1))
          (EMsg "invalid process terminate envelope")) ;;;
  lift (guard_ (ts_PID snapshot =? self) (EMsg "executor refuses to signal itself")) ;;;
  started <- now ;;
  wrapping "send fixed SIGTERM: " (SendSignal (ts_PID snapshot) "SIGTERM") ;;;
  await_exit read (ts_PID snapshot) ticks ;;;
  finished <- now ;;
  ret (succeeded envelope "allowlisted process terminated with SIGTERM and verified" (ap_ProposalID (ae_Proposal envelope))
         ["PID/start time/executable snapshot revalidated"; "fixed SIGTERM sent"; "process absent or zombie after signal"]
         (<["pid" := show_Z (ts_PID snapshot)]> (<["start_ticks" := show_Z (ts_StartTicks snapshot)]>
            (<["executable" := ts_Executable snapshot]> (<["signal" := "SIGTERM"]> {["post_state" := "not_running"]}))))
         started finished).

(** [ReadSecretFile] *)
Definition ReadSecretFile (path : string) : M H string :=
  info <- Stat path ;;
  lift (guard_ (negb (IsRegular info)) (EMsg "HMAC secret must be a regular file")) ;;;
  lift (guard_ (negb (Z.land (Perm info) 63 =? 0))
          (EMsg "HMAC secret permissions must not allow group or other access")) ;;;
  secret <- ReadFile path ;;
  let secret := TrimSpace secret in
  lift (guard_ (String.length secret <? 32)%nat (EMsg "HMAC secret must contain at least 32 bytes")) ;;;
  ret secret.
End Machine.

(** ** Files *)

(** [fs.FileMode.String] *)
Definition mode_letters : list (Z * ascii) :=
  zip [2147483648; 1073741824; 536870912; 268435456; 134217728; 67108864; 33554432; 16777216;
       8388608; 4194304; 2097152; 1048576; 524288]
      (list_ascii_of_string "dalTLDpSugct?").
Definition perm_letters : list (Z * ascii) :=
  zip [256; 128; 64; 32; 16; 8; 4; 2; 1] (list_ascii_of_string "rwxrwxrwx").
Definition mode_String (mode : Z) : string :=
  let typ := filter (fun p => Z.land mode p.1 <> 0) mode_letters in
  string_of_list_ascii
    (match typ with [] => ["-"%char] | _ => map snd typ end
     ++ map (fun p => if Z.land mode p.1 =? 0 then "-"%char else p.2) perm_letters).

(** What the kernel gives a file that is created at a path with mode 0600:
    mode bits, inode and times.  (The times of creation and of the last
    write are not told apart; nothing reads them.) *)
Class NewFile := born : string -> FileInfo.

Definition sized (i : FileInfo) (n : nat) : FileInfo :=
  MkFileInfo (Z.of_nat n) (fi_ModTime i) (fi_Mode i) (fi_Sys i).

Definition disk_Create `{NewFile} (path : string) : M Disk unit :=
  sys (fun d => match dk_files d !! path with
                | Some _ => Err (ESys EEXIST)
                | None => Ok (tt, set_files (<[path := MkNode (sized (born path) 0) ""]> (dk_files d)) d)
                end).

(** [WriteString] into the new file; a failed write may have left a part. *)
Definition disk_Write `{NewFile} (path content : string) : M Disk unit :=
  let put s d := set_files (<[path := MkNode (sized (born path) (String.length s)) s]> (dk_files d)) d in
  sys_torn (fun d => (tt, put content d)) (fun k d => put (take_bytes k content) d).

Definition disk_Remove (path : string) : M Disk unit :=
  sys (fun d => match dk_files d !! path with
                | None => Err (ESys ENOENT)
                | Some _ => Ok (tt, set_files (delete path (dk_files d)) d)
                end).

(** Open, sync and close a directory. *)
Definition syncDirectory : M Disk unit := probes 3.

Definition joining (what : string) (cause : error) (r : result unit) : error :=
  match r with Ok _ => cause | Err e => EJoin cause (EWrap what e) end.

(** The closure [fail] of the handler; [open] says that the file has not
    been closed yet. *)
Definition fail_create {A} (path : string) (open : bool) (cause : error) : M Disk A :=
  closed <- (if open : bool then try_ probe else ret (Ok tt)) ;;
  let cause := joining "close failed create: " cause closed in
  removed <- try_ (disk_Remove path) ;;
  let cause := match removed with
               | Err e => if errors_is e ENOENT then cause else EJoin cause (EWrap "remove failed create: " e)
               | Ok _ => cause
               end in
  synced <- try_ syncDirectory ;;
  throw (joining "sync rollback parent: " cause synced).

(** [if err := step; err != nil { return fail(fmt.Errorf("what: %w", err)) }] *)
Definition or_fail {A B} (path : string) (open : bool) (what : string) (step : M Disk A) (k : A -> M Disk B) : M Disk B :=
  r <- try_ step ;;
  match r with
  | Ok a => k a
  | Err e => fail_create path open (EWrap what e)
  end.

Definition FileCreateHandler `{NewFile} (envelope : ActionEnvelope) : M Disk Result :=
  let snapshot := ae_TargetSnapshot envelope in
  lift (guard_ (negb (String.eqb (ap_Tool (ae_Proposal envelope)) "file.create")
                || negb (String.eqb (ts_Type snapshot) "file") || negb (ts_ExpectAbsent snapshot)
                || String.eqb (ts_CanonicalPath snapshot) "")
          (EMsg "invalid file create envelope")) ;;;
  match ap_Arguments (ae_Proposal envelope) !! "content" with
  | Some (JStr content) =>
    lift (guard_ (maxCreatedFileBytes <? String.length content)%nat
            (EMsg "file.create content exceeds bounded size limit")) ;;;
    started <- now ;;
    let path := ts_CanonicalPath snapshot in
    wrapping "create approved file: " (disk_Create path) ;;;
    or_fail path true "write approved file: " (disk_Write path content) (fun _ =>
    or_fail path true "sync approved file: " probe (fun _ =>
    or_fail path false "close approved file: " probe (fun _ =>
    or_fail path false "sync file parent: " syncDirectory (fun _ =>
    or_fail path false "verify created file: " (disk_Lstat path) (fun info =>
    if negb (IsRegular info) || negb (fi_Size info =? Z.of_nat (String.length content))
       || negb (Z.land (Perm info) 63 =? 0)
    then fail_create path false (EMsg ("created file verification failed: mode=" +:+ mode_String (fi_Mode info)
                                       +:+ " size=" +:+ show_Z (fi_Size info)))
    else
      finished <- now ;;
      ret (succeeded envelope "allowlisted file created and verified" (ap_ProposalID (ae_Proposal envelope))
             ["target absence and parent snapshot revalidated"; "O_EXCL create used fixed 0600 mode";
              "created file metadata verified"]
             (<["path" := path]> (<["bytes" := show_Z (fi_Size info)]> (<["mode" := mode_String (fi_Mode info)]>
                {["rollback_strategy" := ap_RollbackStrategy (ae_Proposal envelope)]})))
             started finished))))))
  | _ => throw (EMsg "file.create content must be a string")
  end.

(** ** The quarantine *)
Definition QuarantineHandler `{Kernel} (manager : QuarantineManager) (envelope : ActionEnvelope) : M Disk Result :=
  started <- now ;;
  let tool := ap_Tool (ae_Proposal envelope) in
  operation <-
    (if String.eqb tool "file.quarantine" || String.eqb tool "file.delete" then
       Quarantine manager (ae_TaskID envelope) (ae_Nonce envelope) (ae_TargetSnapshot envelope)
     else if String.eqb tool "file.restore_quarantine" then
       match ap_Arguments (ae_Proposal envelope) !! "quarantine_id" with
       | Some (JStr quarantine_id) =>
         if String.eqb quarantine_id "" then throw (EMsg "restore requires quarantine_id")
         else Restore manager quarantine_id (ae_TargetSnapshot envelope)
       | _ => throw (EMsg "restore requires quarantine_id")
       end
     else throw (EMsg "unsupported quarantine handler tool")) ;;
  finished <- now ;;
  let manifest := op_Manifest operation in
  ret (succeeded envelope (tool +:+ " completed with verified atomic rename") (qm_ID manifest) (op_Checks operation)
         (<["quarantine_id" := qm_ID manifest]> (<["original_path" := qm_OriginalPath manifest]>
            (<["quarantined_path" := qm_QuarantinedPath manifest]> {["manifest_status" := qm_Status manifest]})))
         started finished).

(** ** Lemmas *)

(** Some error in the tree was wrapped with this text. *)
Fixpoint mentions (what : string) (e : error) : bool :=
  match e with
  | EWrap p e => String.eqb p what || mentions what e
  | EJoin a b => mentions what a || mentions what b
  | _ => false
  end.

Lemma mentions_joining what w cause r : mentions what cause = true -> mentions what (joining w cause r) = true.
Proof. intros Hm. destruct r; cbn; [done|]. by rewrite Hm. Qed.

Lemma disk_eta (d : Disk) : d = MkDisk (dk_files d) (dk_manifests d).
Proof. by destruct d. Qed.

Section FileCreate.
Context `{NewFile} (path : string) (d0 : Disk).

(** The file of this run is there, or nothing is. *)
Definition with_file (node : Node) : Disk := set_files (<[path := node]> (dk_files d0)) d0.

Definition create_failed {A} (r : result A) (d : Disk) : Prop :=
  exists e, r = Err e /\ (d = d0 \/ exists node, d = with_file node /\ mentions "remove failed create: " e = true).

Lemma wp_fail_create {A} E open cause node :
  honest E -> dk_files d0 !! path = None ->
  wp E (fail_create (A := A) path open cause) create_failed (with_file node).
Proof.
  intros Hh Hv. unfold fail_create. apply wp_bind.
  apply (wp_mono _ _ (fun r d => d = with_file node /\ exists v, r = Ok v)).
  { destruct open; wp_go; eauto. }
  intros r d [-> [closed ->]]. apply wp_bind, wp_try. unfold disk_Remove. apply wp_sys_honest; [done|intros no Hno|].
  - cbn [errors_is]. rewrite bool_decide_false by done. apply wp_bind, wp_try.
    unfold syncDirectory. wp_go; (eexists; split; [done|]; right; exists node; split; [done|]);
      apply mentions_joining; cbn; by rewrite orb_true_r.
  - unfold with_file at 1, set_files. cbn [dk_files]. rewrite lookup_insert_eq.
    cbn [set_files dk_files with_file]. rewrite delete_insert_id by done.
    apply wp_bind, wp_try. unfold syncDirectory. wp_go; (eexists; split; [done|]; left; symmetry; exact (disk_eta d0)).
Qed.

Lemma wp_or_fail {A B} E open what (step : M Disk A) (k : A -> M Disk B) (Q : result B -> Disk -> Prop) node :
  honest E -> dk_files d0 !! path = None -> (forall r d, create_failed r d -> Q r d) ->
  wp E step (fun r d => match r with
                        | Ok a => wp E (k a) Q d
                        | Err _ => exists node, d = with_file node
                        end) (with_file node) ->
  wp E (or_fail path open what step k) Q (with_file node).
Proof.
  intros Hh Hv HQ Hs. unfold or_fail. apply wp_bind, wp_try. eapply wp_mono; [done|].
  intros [a|e] d Hd; [done|]. destruct Hd as [node' ->]. eapply wp_mono; [by apply wp_fail_create|done].
Qed.
End FileCreate.

(** ** Properties *)

(** Creating a file is all or nothing and never overwrites.  On success
    the path was free before and holds exactly the approved content with
    its length and no group or other permission bits; on an error nothing
    changed, or only the new path is occupied and the returned error says
    that its removal failed.  No other file changes in any case. *)
Theorem file_create_exact `{NewFile} (E : Env) (envelope : ActionEnvelope) (d : Disk) (Hh : honest E) :
  let path := ts_CanonicalPath (ae_TargetSnapshot envelope) in
  wp E (FileCreateHandler envelope) (fun r d' =>
    dk_manifests d' = dk_manifests d /\
    match r with
    | Ok _ => exists content, ap_Arguments (ae_Proposal envelope) !! "content" = Some (JStr content) /\
        dk_files d !! path = None /\ Z.land (Perm (born path)) 63 = 0 /\
        dk_files d' = <[path := MkNode (sized (born path) (String.length content)) content]> (dk_files d)
    | Err e => dk_files d' = dk_files d \/
        (dk_files d !! path = None /\ mentions "remove failed create: " e = true /\
         exists node, dk_files d' = <[path := node]> (dk_files d))
    end) d.
Proof.
  intros path. unfold FileCreateHandler, guard_. fold path.
  wp_step. wp_step. destruct (_ || _ : bool); [by split; [|left]|].
  destruct (ap_Arguments _ !! "content") as [[| | |content| |]|] eqn:Ec; try by (wp_step; split; [|left]).
  wp_step. wp_step. destruct (_ <? _)%nat; [by split; [|left]|]. wp_step. wp_step.
  wp_step. wp_step. unfold disk_Create. wp_step; [by split; [|left]|].
  destruct (dk_files d !! path) eqn:Ev; [by split; [|left]|]. cbn [wrap_err].
  match goal with |- wp _ _ ?Q _ => assert (HQ : forall r d', create_failed path d r d' -> Q r d') end.
  { intros r d' (e&->&[->|(node&->&Hm)]); [by split; [|left]|]. split; [done|]. right. split; [done|]. split; [done|]. by exists node. }
  set (node0 := MkNode _ "").
  apply (wp_or_fail path d _ _ _ _ _ _ node0 Hh Ev HQ). unfold disk_Write.
  set (node k := MkNode (sized (born path) (String.length (take_bytes k content))) (take_bytes k content)).
  set (full := MkNode (sized (born path) (String.length content)) content).
  assert (SS : forall n, set_files (<[path := n]> (dk_files (with_file path d node0))) (with_file path d node0) = with_file path d n).
  { intros n1. unfold with_file, set_files. cbn. by rewrite insert_insert_eq. }
  wp_step; cbn [fst snd]; rewrite SS; [by eexists|]. fold full.
  apply (wp_or_fail path d _ _ _ _ _ _ full Hh Ev HQ). wp_step; [|by eexists].
  apply (wp_or_fail path d _ _ _ _ _ _ full Hh Ev HQ). wp_step; [|by eexists].
  apply (wp_or_fail path d _ _ _ _ _ _ full Hh Ev HQ). unfold syncDirectory. wp_step; [|by eexists].
  apply (wp_or_fail path d _ _ _ _ _ _ full Hh Ev HQ). unfold disk_Lstat. wp_step; [by eexists|].
  cbn [with_file set_files dk_files]. rewrite lookup_insert_eq. cbn [nd_Info full].
  destruct (_ || _ || _ : bool) eqn:Eb.
  - eapply wp_mono; [by apply (wp_fail_create path d)|]. intros r d' Hf. by apply HQ.
  - apply orb_false_iff in Eb as [_ Eb]. apply negb_false_iff, Z.eqb_eq in Eb. wp_go.
    split; [done|]. exists content. done.
Qed.

(** Waiting reads at most once more than there are ticks, sends nothing,
    and ends well only on a read that shows the process gone. *)
Section Await.
Context {H : Type} (read : Z -> M H ProcessInfo) (signals : H -> list (Z * string)) (reads : H -> nat).
Context (Hread : forall E pid h, wp E (read pid) (fun _ h' => signals h' = signals h /\ reads h' = S (reads h)) h).

Lemma await_exit_bounded E pid ticks h :
  wp E (await_exit read pid ticks) (fun _ h' => signals h' = signals h /\ (reads h' <= reads h + S ticks)%nat) h.
Proof.
  revert h. induction ticks as [|ticks IH]; intros h; cbn [await_exit]; apply wp_bind, wp_try;
    (eapply wp_mono; [apply Hread|]); intros r h1 [S1 R1].
  - destruct (match r with Ok _ => _ | Err _ => _ end); [wp_step; split; [done|lia]|].
    destruct r; wp_go; (split; [done|lia]).
  - destruct (match r with Ok _ => _ | Err _ => _ end); [wp_step; split; [done|lia]|].
    destruct r; [|wp_step; split; [done|lia]]. wp_step. wp_step; [|split; [done|lia]].
    eapply wp_mono; [apply IH|]. intros r2 h2 [S2 R2]. split; [congruence|lia].
Qed.
End Await.

(** Terminating a process sends exactly one SIGTERM and comes to an
    end.  When the machine logs every signal, the handler either fails
    without a signal, or has sent one SIGTERM, to the approved process,
    which is neither process 0, 1 or the executor itself; it reads the
    process table at most once more than there are ticks before its
    deadline, and no other signal is ever sent. *)
Theorem terminate_signals_once {H : Type} `{Machine H} (read : Z -> M H ProcessInfo)
    (signals : H -> list (Z * string)) (reads : H -> nat)
    (Hsend : forall E pid s h, wp E (SendSignal pid s) (fun _ h' => signals h' = signals h ++ [(pid, s)] /\ reads h' = reads h) h)
    (Hread : forall E pid h, wp E (read pid) (fun _ h' => signals h' = signals h /\ reads h' = S (reads h)) h)
    (E : Env) (self : Z) (ticks : nat) (envelope : ActionEnvelope) (h : H) :
  let pid := ts_PID (ae_TargetSnapshot envelope) in
  wp E (ProcessTerminateHandler read self ticks envelope) (fun r h' =>
    (h' = h /\ is_ok r = false) \/
    (1 < pid /\ pid <> self /\ ap_Tool (ae_Proposal envelope) = "process.terminate" /\
     signals h' = signals h ++ [(pid, "SIGTERM")] /\ (reads h' <= reads h + S ticks)%nat)) h.
Proof.
  intros pid. unfold ProcessTerminateHandler, guard_. fold pid.
  wp_step. wp_step. destruct (String.eqb_spec (ap_Tool (ae_Proposal envelope)) "process.terminate") as [Ht|];
    cbn [negb orb]; [|by left].
  destruct (String.eqb (ts_Type _) "process"); cbn [negb orb]; [|by left].
  destruct (Z.leb_spec pid 1); [by left|]. wp_step. wp_step. destruct (Z.eqb_spec pid self); [by left|].
  wp_step. wp_step. wp_step. wp_step. eapply wp_mono; [apply Hsend|]. intros [[]|e] h1 [S1 R1]; cbn [wrap_err].
  - wp_step. eapply wp_mono; [by apply (await_exit_bounded read signals reads)|].
    intros [[]|e] h2 [S2 R2]; wp_go; right; (split_and!; [done|done|done|congruence|lia]).
  - right. split_and!; [done|done|done|done|lia].
Qed.

(** *** Witnesses *)
Definition lab_born : NewFile := fun _ => MkFileInfo 0 50 384 (Some 9).
Definition create_envelope : ActionEnvelope :=
  MkActionEnvelope 1 "task_1" "task_1" "session_1"
    (MkActionProposal "proposal_1" "task_1" "session_1" "file.create" Write {[ "content" := JStr "hello" ]}
       (MkTargetRef "file" "b" "") 1 true "delete" true "" (MkIntentContext "" "" [] "" [] []))
    "" (MkTargetSnapshot "file" "b" "/srv/lab/b" true "/srv/lab" 1 0 0 0 0 0 0 "" "" 0 "" "" 0)
    (risk_Evaluate (H := lab_case) lab_catalog lab_proposal) "" "" 100 "nonce_2" "" "".

Lemma file_create_exact_witness :
  wp (crash_at 2) (FileCreateHandler (H := lab_born) create_envelope) (fun r d' =>
    dk_manifests d' = dk_manifests lab_disk /\
    match r with
    | Ok _ => exists content, ap_Arguments (ae_Proposal create_envelope) !! "content" = Some (JStr content) /\
        dk_files lab_disk !! "/srv/lab/b" = None /\ Z.land (Perm (born (NewFile := lab_born) "/srv/lab/b")) 63 = 0 /\
        dk_files d' = <["/srv/lab/b" := MkNode (sized (born (NewFile := lab_born) "/srv/lab/b") (String.length content)) content]>
                        (dk_files lab_disk)
    | Err e => dk_files d' = dk_files lab_disk \/
        (dk_files lab_disk !! "/srv/lab/b" = None /\ mentions "remove failed create: " e = true /\
         exists node, dk_files d' = <["/srv/lab/b" := node]> (dk_files lab_disk))
    end) lab_disk.
Proof. exact (file_create_exact (H := lab_born) (crash_at 2) create_envelope lab_disk (crash_honest 2)). Defined.

(** The run without failures succeeds. *)
Example lab_create_succeeds :
  let '(r, d) := run_on (calm 5 "") (FileCreateHandler (H := lab_born) create_envelope) lab_disk in
  is_ok r = true /\ (match dk_files d !! "/srv/lab/b" with Some n => nd_Content n | None => "" end) = "hello".
Proof. vm_compute. split; reflexivity. Qed.

(** A machine that logs signals and counts reads; the process is a zombie. *)
Definition log_machine : Machine (list (Z * string) * nat) := {|
  ReadFile := fun _ => throw (ESys ENOENT);
  ReadDir := fun _ => throw (ESys ENOENT);
  Readlink := fun _ => throw (ESys ENOENT);
  EvalSymlinks := fun p => ret p;
  Lstat := fun _ => throw (ESys ENOENT);
  Stat := fun _ => throw (ESys ENOENT);
  RunCommand := fun _ _ => throw (ESys ENOENT);
  SendSignal := fun pid s => modify (fun h => (h.1 ++ [(pid, s)], h.2))
|}.
Definition log_read (pid : Z) : M (list (Z * string) * nat) ProcessInfo :=
  modify (fun h => (h.1, S h.2)) ;;; ret (MkProcessInfo pid 1 "sleep" "Z" 0 "" "" 5 0 0).
Definition terminate_envelope : ActionEnvelope :=
  MkActionEnvelope 1 "task_1" "task_1" "session_1"
    (MkActionProposal "proposal_1" "task_1" "session_1" "process.terminate" Write ∅
       (MkTargetRef "process" "77" "") 1 true "" true "" (MkIntentContext "" "" [] "" [] []))
    "" (MkTargetSnapshot "process" "77" "" false "" 0 0 0 0 0 77 5 "" "/bin/sleep" 0 "" "" 0)
    (risk_Evaluate (H := lab_case) lab_catalog lab_proposal) "" "" 100 "nonce_3" "" "".

Lemma terminate_signals_once_witness :
  wp (calm 5 "") (ProcessTerminateHandler (H0 := log_machine) log_read 10 3 terminate_envelope) (fun r h' =>
    (h' = ([], 0%nat) /\ is_ok r = false) \/
    (1 < 77 /\ 77 <> 10 /\ ap_Tool (ae_Proposal terminate_envelope) = "process.terminate" /\
     h'.1 = [] ++ [(77, "SIGTERM")] /\ (h'.2 <= 0 + 4)%nat)) ([], 0%nat).
Proof.
  apply (terminate_signals_once (H0 := log_machine) log_read fst snd).
  - intros E pid s h w Hw. cbn. rewrite Hw. split; reflexivity.
  - intros E pid h w Hw. cbn. rewrite Hw. split; reflexivity.
Defined.
