(* ===== verification/Config.v ===== *)
(** * [internal/executor/config.go]: the allowlist the operator may narrow

    The administrator's YAML file gives the widest roots; the operator may
    manage any roots below them, which the server keeps in a file of its
    own, replaced atomically and read again at the next start.  The server's
    snapshots of files use the managed roots through [MutableTargets].  The
    file holds the loading and normalisation of both files, the manager with
    its status, the path browser and the creation of a directory, and the
    life of the manager over requests, crashes and restarts. *)

From S2P Require Import Prelude GoStrings GoText GoPath Json Hash Contracts Platform Targets Rollback Handlers.
Open Scope Z_scope.

Record Config := MkConfig {
  cfg_SchemaVersion : Z;
  cfg_AllowedServices : list string;
  cfg_ReadFileRoots : list string;
  cfg_AllowedFileRoots : list string;
  cfg_LabFileRoots : list string;
  cfg_QuarantineRoot : string;
  cfg_AllowedProcessExecutables : list string
}.

Record AllowlistStatus := MkAllowlistStatus {
  al_ConfigPath : string;
  al_ReadOnlyRoots : list string;
  al_ManagedRoots : list string;
  al_CandidateRoots : list string;
  al_AllowedFileRoots : list string;
  al_QuarantineRoot : string;
  al_MissingRoots : list string;
  al_RequiresExecutorRestart : bool;
  al_WriteActionsEnabled : bool;
  al_UpdatedAt : Z
}.

Record PathBrowserEntry := MkPathBrowserEntry {
  pe_Name : string;
  pe_Path : string;
  pe_IsDir : bool;
  pe_SizeBytes : Z;
  pe_Mode : string;
  pe_Modified : Z;
  pe_SelectableRead : bool;
  pe_SelectableWrite : bool
}.

Record PathBrowser := MkPathBrowser {
  pb_Path : string;
  pb_Parent : string;
  pb_Mode : string;
  pb_ReadOnlyRoots : list string;
  pb_ManagedRoots : list string;
  pb_CandidateRoots : list string;
  pb_Entries : list PathBrowserEntry;
  pb_Truncated : bool;
  pb_CanSelectRead : bool;
  pb_CanSelectWrite : bool;
  pb_CanCreateChild : bool;
  pb_WriteRootMissing : bool
}.

Definition ErrInvalidManagedRoots : error := ESentinel "invalid managed roots".

Record managedRootsConfig := MkManagedRootsConfig {
  mrc_SchemaVersion : Z;
  mrc_ManagedRoots : list string
}.

(** The yaml package on the two types of the file. *)
Class ConfigYaml := {
  Unmarshal_Config : string -> result Config;
  Marshal_Config : Config -> result string;
  Unmarshal_managedRoots : string -> result managedRootsConfig;
  Marshal_managedRoots : managedRootsConfig -> result string
}.

(** Decoding gives back what was encoded. *)
Class ConfigYamlOk `{ConfigYaml} : Prop :=
  managed_roundtrip : forall c b, Marshal_managedRoots c = Ok b -> Unmarshal_managedRoots b = Ok c.

(** [os.Root] and the directories opened below it. *)
Class OsRoot (H : Type) := {
  Root : Type;
  Directory : Type;
  OpenRoot : string -> M H Root;
  Root_Stat : Root -> string -> M H FileInfo;
  Root_Open : Root -> string -> M H Directory;
  Root_Mkdir : Root -> string -> Z -> M H unit;
  Root_Close : Root -> M H unit;
  Directory_ReadDir : Directory -> Z -> M H (list DirEntry);
  Directory_Info : Directory -> DirEntry -> M H FileInfo;
  Directory_Sync : Directory -> M H unit;
  Directory_Close : Directory -> M H unit
}.

(** ** Paths *)

Definition sameOrInside (path root : string) : bool := rel_stays_inside (Rel (Clean root) (Clean path)).

Definition withinAny (path : string) (roots : list string) : bool :=
  existsb (fun root => sameOrInside path root) roots.

Definition validateRootsWithin (roots maximumRoots : list string) : result unit :=
  guard_ (negb (forallb (fun root => existsb (fun maximum => sameOrInside root maximum) maximumRoots) roots))
    (EMsg "managed root is outside administrator-defined roots").

Definition appendUniquePaths (values : list string) (next : string) : list string :=
  let next := Clean next in
  if existsb (fun value => String.eqb (Clean value) next) values then values else values ++ [next].

Definition safeDirectoryName (name : string) : bool :=
  if String.eqb name "" || String.eqb name "." || String.eqb name ".." || (128 <? String.length name)%nat
  then false
  else negb (ContainsAny name "/\").

(** [Config.Scope] *)
Definition Scope (c : Config) : FixedScope :=
  MkFixedScope
    (foldl (fun services service => if negb (String.eqb service "") then <[service := true]> services else services)
       ∅ (cfg_AllowedServices c))
    (cfg_AllowedFileRoots c) (cfg_AllowedProcessExecutables c).

Section Roots.
Context {H : Type} `{Machine H}.

Definition tooBroad : error := EMsg "root filesystem is too broad for allowlist".

(** Symbolic links are followed when the path exists. *)
Definition follow (clean : string) : M H string :=
  resolved <- try_ (EvalSymlinks clean) ;;
  match resolved with
  | Ok resolved => ret resolved
  | Err e => if errors_is e ENOENT then ret clean else throw e
  end.

Definition normalizeAllowlistRoot (value : string) : M H string :=
  let value := TrimSpace value in
  lift (guard_ (String.eqb value "") (EMsg "path is required")) ;;;
  lift (guard_ (negb (IsAbs value)) (EMsg "path must be absolute")) ;;;
  let clean := Clean value in
  lift (guard_ (String.eqb clean "/") tooBroad) ;;;
  clean <- follow clean ;;
  lift (guard_ (String.eqb clean "/") tooBroad) ;;;
  ret clean.

Fixpoint normalize_each (quarantineRoot : string) (out values : list string) : M H (list string) :=
  match values with
  | [] => ret out
  | value :: values =>
    root <- normalizeAllowlistRoot value ;;
    lift (guard_ (negb (String.eqb quarantineRoot "")
                  && (sameOrInside root quarantineRoot || sameOrInside quarantineRoot root))
            (EMsg "managed root must not overlap quarantine root")) ;;;
    normalize_each quarantineRoot (appendUniquePaths out root) values
  end.

Definition normalizeAllowlistRoots (values : list string) (quarantineRoot : string) : M H (list string) :=
  lift (guard_ (length values =? 0)%nat (EMsg "at least one managed root is required")) ;;;
  normalize_each quarantineRoot [] values.

Fixpoint normalize_readonly (out values : list string) : M H (list string) :=
  match values with
  | [] => ret out
  | value :: values =>
    let value := TrimSpace value in
    lift (guard_ (String.eqb value "") (EMsg "path is required")) ;;;
    lift (guard_ (negb (IsAbs value)) (EMsg "path must be absolute")) ;;;
    clean <- follow (Clean value) ;;
    normalize_readonly (appendUniquePaths out clean) values
  end.

Definition normalizeReadOnlyRoots (values : list string) : M H (list string) :=
  normalize_readonly [] (if (length values =? 0)%nat then ["/"] else values).

(** The loop of [candidateManagedRoots] over one directory, and whether it
    returned. *)
Fixpoint candidate_entries (root : string) (out : list string) (entries : list DirEntry) : list string * bool :=
  match entries with
  | [] => (out, false)
  | entry :: entries =>
    if (200 <=? length out)%nat then (out, true)
    else if negb (de_IsDir entry) || String.eqb (de_Name entry) "." || String.eqb (de_Name entry) ".."
    then candidate_entries root out entries
    else candidate_entries root (appendUniquePaths out (PathJoin [root; de_Name entry])) entries
  end.

Fixpoint candidate_roots (out roots : list string) : M H (list string) :=
  match roots with
  | [] => ret out
  | root :: roots =>
    let root := Clean root in
    let out := appendUniquePaths out root in
    entries <- try_ (ReadDir root) ;;
    match entries with
    | Err _ => candidate_roots out roots
    | Ok entries =>
      let '(out, stop) := candidate_entries root out entries in
      if stop : bool then ret out else candidate_roots out roots
    end
  end.

Definition candidateManagedRoots (maximumRoots : list string) : M H (list string) :=
  candidate_roots [] maximumRoots.

(** The loop of [openBoundedRoot]: the longest root that contains the path. *)
Definition longer_root (clean selected candidate : string) : string :=
  let candidate := Clean candidate in
  if negb (sameOrInside clean candidate) || (String.length candidate <=? String.length selected)%nat
  then selected else candidate.

Definition select_root (clean : string) (roots : list string) : string := foldl (longer_root clean) "" roots.

Definition openBoundedRoot `{OsRoot H} (path : string) (roots : list string) : M H (Root * string * string) :=
  let clean := Clean path in
  let selected := select_root clean roots in
  lift (guard_ (String.eqb selected "") (EMsg "path is outside configured roots")) ;;;
  relative <- lift (Rel selected clean) ;;
  root <- OpenRoot selected ;;
  ret (root, selected, relative).

(** The loop of [boundedPathMissing]; [last] is the last part. *)
Fixpoint missing_below (current : string) (parts : list string) : M H bool :=
  match parts with
  | [] => ret false
  | part :: rest =>
    if String.eqb part "" || String.eqb part "." || String.eqb part ".." then ret false
    else
      let current := PathJoin [current; part] in
      info <- try_ (Lstat current) ;;
      match info with
      | Err e => ret (errors_is e ENOENT)
      | Ok info =>
        if negb (Z.land (fi_Mode info) ModeSymlink =? 0) then ret false
        else if (0 <? length rest)%nat && negb (IsDir info) then ret false
        else missing_below current rest
      end
  end.

Definition boundedPathMissing (rootPath relative : string) : M H bool :=
  let relative := Clean relative in
  if String.eqb relative "." then ret false
  else missing_below (Clean rootPath) (Split slash relative).

Definition syncRootDirectory `{OsRoot H} (root : Root) (directory : string) : M H unit :=
  dir <- Root_Open root directory ;;
  synced <- try_ (Directory_Sync dir) ;;
  match synced with
  | Err e => try_ (Directory_Close dir) ;;; throw e
  | Ok _ => Directory_Close dir
  end.
End Roots.

(** ** The two files *)

(** A file of the configuration: its bytes, permission bits and time. *)
Record StoredFile := MkStoredFile {
  sf_bytes : string;
  sf_mode : Z;
  sf_mtime : Z
}.

(** The host and the configuration files on it. *)
Record Hosted (H : Type) := MkHosted {
  ho_host : H;
  ho_files : gmap string StoredFile
}.
Arguments MkHosted {H}.
Arguments ho_host {H}.
Arguments ho_files {H}.

Definition on_host {H A} (m : M H A) : M (Hosted H) A :=
  zoom ho_host (fun h s => MkHosted h (ho_files s)) m.

(** [os.Stat], with [os.ReadFile], of a configuration file. *)
Definition read_file {H} (path : string) : M (Hosted H) StoredFile :=
  sys (fun s => match ho_files s !! path with
                | Some f => Ok (f, s)
                | None => Err (ESys ENOENT)
                end).

Definition put_file {H} (path : string) (f : StoredFile) (s : Hosted H) : Hosted H :=
  MkHosted (ho_host s) (<[path := f]> (ho_files s)).

(** [MkdirAll] and [Stat]; create, chmod, write, sync and close the
    temporary file; rename it; open, sync and close the directory
    ([syncConfigDirectory]).  [now] is the time the kernel stamps. *)
Definition saveConfigBytes {H} (path b : string) (defaultMode : Z) : M (Hosted H) unit :=
  probe ;;;
  info <- try_ (read_file path) ;;
  let mode := match info with Ok info => sf_mode info | Err _ => defaultMode end in
  written <- now ;;
  atomic_write 5 3 (put_file path (MkStoredFile b mode written)).

Section Manager.
Context {H : Type} `{Machine H} `{UnicodeCase} `{ConfigYaml}.

Definition loadManagedRoots (path : string) : M (Hosted H) (list string) :=
  f <- read_file path ;;
  stored <- wrapping "parse managed roots config: " (lift (Unmarshal_managedRoots (sf_bytes f))) ;;
  lift (guard_ (negb (mrc_SchemaVersion stored =? 1)) (EMsg "unsupported managed roots schema")) ;;;
  ret (mrc_ManagedRoots stored).

Definition saveManagedRoots (path : string) (roots : list string) : M (Hosted H) unit :=
  b <- lift (Marshal_managedRoots (MkManagedRootsConfig 1 roots)) ;;
  saveConfigBytes path b 416.

Definition SaveConfig (path : string) (config : Config) : M (Hosted H) unit :=
  b <- lift (Marshal_Config (MkConfig 1 (cfg_AllowedServices config) (cfg_ReadFileRoots config)
                               (cfg_AllowedFileRoots config) (cfg_LabFileRoots config)
                               (cfg_QuarantineRoot config) (cfg_AllowedProcessExecutables config))) ;;
  saveConfigBytes path b 420.

Definition LoadConfig (path : string) : M (Hosted H) Config :=
  f <- wrapping "read executor config: " (read_file path) ;;
  config <- wrapping "parse executor config: " (lift (Unmarshal_Config (sf_bytes f))) ;;
  lift (guard_ (negb (cfg_SchemaVersion config =? 1)) (EMsg "unsupported executor config schema")) ;;;
  let services := map (fun value => ToLower (TrimSpace value)) (cfg_AllowedServices config) in
  lift (guard_ ((length (cfg_LabFileRoots config) =? 0)%nat || String.eqb (cfg_QuarantineRoot config) "")
          (EMsg "lab_file_roots and quarantine_root are required")) ;;;
  quarantine <- wrapping "quarantine_root: " (on_host (normalizeAllowlistRoot (cfg_QuarantineRoot config))) ;;
  lab <- wrapping "lab_file_roots: " (on_host (normalizeAllowlistRoots (cfg_LabFileRoots config) quarantine)) ;;
  readable <- wrapping "read_file_roots: " (on_host (normalizeReadOnlyRoots (cfg_ReadFileRoots config))) ;;
  allowed <- wrapping "allowed_file_roots: " (on_host (normalizeAllowlistRoots (cfg_AllowedFileRoots config) "")) ;;
  wrapping "lab_file_roots: " (lift (validateRootsWithin lab allowed)) ;;;
  wrapping "quarantine_root: " (lift (validateRootsWithin [quarantine] allowed)) ;;;
  ret (MkConfig (cfg_SchemaVersion config) services readable allowed lab quarantine
         (cfg_AllowedProcessExecutables config)).

(** The cell [targets] points to belongs to the manager, its only writer. *)
Record ConfigManager := MkConfigManager {
  cm_path : string;
  cm_config : Config;
  cm_maximumRoots : list string;
  cm_targets : option (MutableTargets H)
}.

(** [config] with other managed roots. *)
Definition with_roots (config : Config) (roots : list string) : Config :=
  MkConfig (cfg_SchemaVersion config) (cfg_AllowedServices config) (cfg_ReadFileRoots config)
    (appendUniquePaths roots (cfg_QuarantineRoot config)) roots
    (cfg_QuarantineRoot config) (cfg_AllowedProcessExecutables config).

Definition NewConfigManager (path : string) (config : Config) (targets : option (MutableTargets H))
  : M (Hosted H) ConfigManager :=
  let path := Clean path in
  let maximumRoots := cfg_LabFileRoots config in
  loaded <- try_ (loadManagedRoots path) ;;
  managedRoots <- match loaded with
                  | Ok value => ret value
                  | Err e => if errors_is e ENOENT then ret maximumRoots else throw e
                  end ;;
  normalized <- wrapping "load managed roots: "
                  (on_host (normalizeAllowlistRoots managedRoots (cfg_QuarantineRoot config))) ;;
  wrapping "load managed roots: " (lift (validateRootsWithin normalized maximumRoots)) ;;;
  let config := with_roots config normalized in
  ret (MkConfigManager path config maximumRoots
         (option_map (UpdateAllowedFileRoots (cfg_AllowedFileRoots config)) targets)).

Fixpoint missing_roots (roots : list string) : M (Hosted H) (list string) :=
  match roots with
  | [] => ret []
  | root :: roots =>
    info <- try_ (on_host (Stat root)) ;;
    rest <- missing_roots roots ;;
    ret (if is_ok info then rest else root :: rest)
  end.

Definition statusLocked (m : ConfigManager) : M (Hosted H) AllowlistStatus :=
  candidates <- on_host (candidateManagedRoots (cm_maximumRoots m)) ;;
  info <- try_ (read_file (cm_path m)) ;;
  missing <- missing_roots (cfg_LabFileRoots (cm_config m)) ;;
  ret (MkAllowlistStatus (cm_path m) (cfg_ReadFileRoots (cm_config m)) (cfg_LabFileRoots (cm_config m))
         candidates (cfg_AllowedFileRoots (cm_config m)) (cfg_QuarantineRoot (cm_config m)) missing false false
         (match info with Ok info => sf_mtime info | Err _ => zero_time end)).

Definition Status (m : ConfigManager) : M (Hosted H) AllowlistStatus := statusLocked m.

(** [fmt.Errorf("%w: %v", ErrInvalidManagedRoots, err)] *)
Definition invalid_roots {S A} (m : M S A) : M S A :=
  r <- try_ m ;;
  match r with
  | Ok a => ret a
  | Err _ => throw (EWrap "" ErrInvalidManagedRoots)
  end.

(** The status and the manager afterwards; an error leaves it as it was. *)
Definition UpdateManagedRoots (m : ConfigManager) (roots : list string)
  : M (Hosted H) (AllowlistStatus * ConfigManager) :=
  normalized <- invalid_roots (on_host (normalizeAllowlistRoots roots (cfg_QuarantineRoot (cm_config m)))) ;;
  invalid_roots (lift (validateRootsWithin normalized (cm_maximumRoots m))) ;;;
  let next := with_roots (cm_config m) normalized in
  saveManagedRoots (cm_path m) normalized ;;;
  let m := MkConfigManager (cm_path m) next (cm_maximumRoots m)
             (option_map (UpdateAllowedFileRoots (cfg_AllowedFileRoots next)) (cm_targets m)) in
  status <- statusLocked m ;;
  ret (status, m).
End Manager.
Arguments ConfigManager : clear implicits.

(** ** The path browser *)
Section Browser.
Context {H : Type} `{Machine H} `{OsRoot H} `{UnicodeCase}.

(** The entries shown of a directory at [clean]: directories whose
    information can still be read. *)
Fixpoint browse_entries (dir : Directory) (clean : string) (readRoots writeRoots : list string)
    (entries : list DirEntry) : M H (list PathBrowserEntry) :=
  match entries with
  | [] => ret []
  | entry :: entries =>
    shown <- (if negb (de_IsDir entry) then ret None
              else
                info <- try_ (Directory_Info dir entry) ;;
                match info with
                | Err _ => ret None
                | Ok info =>
                  let entryPath := PathJoin [clean; de_Name entry] in
                  ret (Some (MkPathBrowserEntry (de_Name entry) entryPath true (fi_Size info)
                               (mode_String (fi_Mode info)) (fi_ModTime info)
                               (withinAny entryPath readRoots) (withinAny entryPath writeRoots)))
                end) ;;
    rest <- browse_entries dir clean readRoots writeRoots entries ;;
    ret (match shown with Some e => e :: rest | None => rest end)
  end.

Definition BrowsePath (m : ConfigManager H) (path mode : string) (limit : Z) : M H PathBrowser :=
  let config := cm_config m in
  let maximumRoots := cm_maximumRoots m in
  let mode := ToLower (TrimSpace mode) in
  let mode := if String.eqb mode "" then "read" else mode in
  lift (guard_ (negb (String.eqb mode "read") && negb (String.eqb mode "write"))
          (EMsg "unsupported browser mode")) ;;;
  let limit := if limit <=? 0 then 200 else limit in
  lift (guard_ (500 <? limit) (EMsg "limit must not exceed 500")) ;;;
  let clean := Clean (TrimSpace path) in
  let clean := if String.eqb clean "." || String.eqb clean ""
               then match maximumRoots with
                    | root :: _ => if String.eqb mode "write" then root else "/"
                    | [] => "/"
                    end
               else clean in
  lift (guard_ (negb (IsAbs clean)) (EMsg "path must be absolute")) ;;;
  let roots := if String.eqb mode "write" then maximumRoots else cfg_ReadFileRoots config in
  opened <- try_ (openBoundedRoot clean roots) ;;
  match opened with
  | Err _ => throw (EMsg ("path is outside " +:+ mode +:+ " roots"))
  | Ok (root, rootPath, relative) =>
    closing (Root_Close root) (
      candidates <- candidateManagedRoots maximumRoots ;;
      let selectable := withinAny clean maximumRoots in
      let parent := Dir clean in
      let browser entries truncated child missing :=
        MkPathBrowser clean (if negb (String.eqb parent clean) && withinAny parent roots then parent else "")
          mode (cfg_ReadFileRoots config) (cfg_LabFileRoots config) candidates entries truncated
          (withinAny clean (cfg_ReadFileRoots config)) selectable child missing in
      info <- try_ (Root_Stat root relative) ;;
      match info with
      | Err e =>
        gone <- (if String.eqb mode "write" && errors_is e ENOENT then boundedPathMissing rootPath relative
                 else ret false) ;;
        if gone : bool then ret (browser [] false false true) else throw e
      | Ok info =>
        lift (guard_ (negb (IsDir info)) (EMsg "path is not a directory")) ;;;
        directory <- Root_Open root relative ;;
        closing (Directory_Close directory) (
          entries <- Directory_ReadDir directory (limit + 1) ;;
          let truncated := limit <? Z.of_nat (length entries) in
          let entries := if truncated then take (Z.to_nat limit) entries else entries in
          shown <- browse_entries directory clean (cfg_ReadFileRoots config) maximumRoots entries ;;
          ret (browser shown truncated (String.eqb mode "write" && selectable) false))
      end)
  end.

Definition CreateDirectory (m : ConfigManager H) (parent name : string) : M H PathBrowser :=
  let maximumRoots := cm_maximumRoots m in
  let parent := Clean (TrimSpace parent) in
  let name := TrimSpace name in
  lift (guard_ (negb (IsAbs parent)) (EMsg "parent path must be absolute")) ;;;
  lift (guard_ (negb (safeDirectoryName name)) (EMsg "directory name is invalid")) ;;;
  opened <- try_ (openBoundedRoot parent maximumRoots) ;;
  match opened with
  | Err _ => throw (EMsg "parent is outside writable administrator-defined roots")
  | Ok (root, _, relativeParent) =>
    closing (Root_Close root) (
      info <- Root_Stat root relativeParent ;;
      lift (guard_ (negb (IsDir info)) (EMsg "parent path is not a directory")) ;;;
      let path := PathJoin [parent; name] in
      lift (guard_ (negb (withinAny path maximumRoots)) (EMsg "directory path escapes writable roots")) ;;;
      Root_Mkdir root (PathJoin [relativeParent; name]) 488 ;;;
      syncRootDirectory root relativeParent ;;;
      BrowsePath m path "write" 200)
  end.
End Browser.

(** ** The server's use of the manager *)
Section Serving.
Context {H : Type} `{Machine H} `{OsRoot H} `{UnicodeCase} `{ConfigYaml} (readers : LinuxTargets H).

(** [main] of the server: the configuration at [configPath], the managed
    roots at [statePath]; an error ends the process. *)
Definition start_allowlist (configPath statePath : string) : M (Hosted H) (ConfigManager H) :=
  config <- LoadConfig configPath ;;
  NewConfigManager statePath config (Some (NewMutableTargets readers (cfg_AllowedFileRoots config))).

Inductive allowlist_event :=
  | Started (configPath statePath : string)
  | Viewed
  | Updated (roots : list string)
  | Browsed (path mode : string) (limit : Z)
  | DirectoryCreated (parent name : string).

(** One request, or a restart; [None] is a server that is not running.  A
    crash is an environment that fails from some call on, then a restart. *)
Definition allowlist_step (ev : allowlist_event) (running : option (ConfigManager H))
  : M (Hosted H) (option (ConfigManager H)) :=
  match ev, running with
  | Started configPath statePath, _ =>
    m <- try_ (start_allowlist configPath statePath) ;;
    ret (match m with Ok m => Some m | Err _ => None end)
  | _, None => ret None
  | Viewed, Some m => try_ (Status m) ;;; ret (Some m)
  | Updated roots, Some m =>
    r <- try_ (UpdateManagedRoots m roots) ;;
    ret (Some (match r with Ok (_, m) => m | Err _ => m end))
  | Browsed path mode limit, Some m => try_ (on_host (BrowsePath m path mode limit)) ;;; ret (Some m)
  | DirectoryCreated parent name, Some m => try_ (on_host (CreateDirectory m parent name)) ;;; ret (Some m)
  end.

Fixpoint allowlist_run (evs : list (Env * allowlist_event)) (running : option (ConfigManager H)) (s : Hosted H)
  : option (ConfigManager H) * Hosted H :=
  match evs with
  | [] => (running, s)
  | (E, ev) :: evs =>
    let '(r, w) := allowlist_step ev running E (init_world s) in
    allowlist_run evs (match r with Ok running => running | Err _ => None end) (st w)
  end.
End Serving.

(** ** Paths as components *)

Lemma sameOrInside_iff path root :
  IsAbs path = true -> IsAbs root = true ->
  (sameOrInside path root = true <-> path_comps root `prefix_of` path_comps path).
Proof.
  intros Hp Hr. unfold sameOrInside. rewrite rel_inside_iff by (by rewrite IsAbs_Clean).
  by rewrite !path_comps_Clean.
Qed.

(** Every root of the list is an absolute, cleaned path. *)
Definition clean_root (root : string) : Prop := IsAbs root = true /\ Clean root = root.

Lemma clean_root_Clean p : IsAbs p = true -> clean_root (Clean p).
Proof. intros Hp. split; [by rewrite IsAbs_Clean|by apply Clean_idemp]. Qed.

Lemma clean_root_inj a b : clean_root a -> clean_root b -> path_comps a = path_comps b -> a = b.
Proof. intros [Ha Ea] [Hb Eb] E. rewrite <- Ea, <- Eb. by apply Clean_eq_iff. Qed.

Lemma clean_root_comps root : clean_root root -> root <> "/" -> path_comps root <> [].
Proof. intros [Ha Ec] Hne E. apply Hne. rewrite <- Ec, Clean_abs, E by done. done. Qed.

Lemma withinAny_iff path roots :
  IsAbs path = true -> Forall clean_root roots ->
  (withinAny path roots = true <-> exists root, root ∈ roots /\ path_comps root `prefix_of` path_comps path).
Proof.
  intros Hp HF. unfold withinAny. rewrite existsb_exists. setoid_rewrite list_elem_of_In.
  rewrite Forall_forall in HF.
  split; intros (root&Hr&Hx); exists root; (split; [done|]);
    destruct (HF root) as [Ha _]; try (by apply list_elem_of_In); by apply sameOrInside_iff.
Qed.

Lemma validateRootsWithin_iff roots maximumRoots :
  Forall clean_root roots -> Forall clean_root maximumRoots ->
  (validateRootsWithin roots maximumRoots = Ok tt <->
   Forall (fun root => exists maximum, maximum ∈ maximumRoots /\ path_comps maximum `prefix_of` path_comps root) roots).
Proof.
  intros Hr Hm. unfold validateRootsWithin, guard_. change (fun root => existsb _ maximumRoots)
    with (fun root => withinAny root maximumRoots).
  transitivity (forallb (fun root => withinAny root maximumRoots) roots = true).
  { destruct (forallb _ _); cbn; naive_solver. }
  rewrite forallb_forall, <- List.Forall_forall, !Forall_forall. rewrite Forall_forall in Hr.
  split; intros HF root Hin; [apply withinAny_iff|apply withinAny_iff]; try apply Hr; auto.
Qed.

Lemma appendUniquePaths_elem values next x :
  Forall clean_root values -> clean_root next ->
  x ∈ appendUniquePaths values next <-> x ∈ values \/ x = next.
Proof.
  intros HF [Ha Ec]. unfold appendUniquePaths. rewrite Ec.
  destruct (existsb _ values) eqn:Ex; [|by rewrite elem_of_app, list_elem_of_singleton].
  split; [by left|]. intros [?|Hx]; [done|subst x]. apply existsb_exists in Ex as (v&Hv&Ev).
  apply String.eqb_eq in Ev. rewrite Forall_forall in HF.
  destruct (HF v) as [_ Cv]; [by apply list_elem_of_In|]. rewrite Cv in Ev. subst v. by apply list_elem_of_In.
Qed.

Lemma appendUniquePaths_fresh values next :
  Forall clean_root values -> clean_root next -> next ∉ values -> appendUniquePaths values next = values ++ [next].
Proof.
  intros HF [Ha Ec] Hn. unfold appendUniquePaths. rewrite Ec.
  destruct (existsb _ values) eqn:Ex; [|done]. exfalso. apply Hn.
  apply existsb_exists in Ex as (v&Hv&Ev). apply String.eqb_eq in Ev. rewrite Forall_forall in HF.
  destruct (HF v) as [_ Cv]; [by apply list_elem_of_In|]. rewrite Cv in Ev. subst v. by apply list_elem_of_In.
Qed.

Lemma appendUniquePaths_nonempty values next : appendUniquePaths values next <> [].
Proof. unfold appendUniquePaths. destruct values; [done|]. destruct (existsb _ _); [done|]. by destruct values. Qed.

Lemma appendUniquePaths_Forall P values next :
  Forall P values -> P (Clean next) -> Forall P (appendUniquePaths values next).
Proof. intros HF Hn. unfold appendUniquePaths. destruct (existsb _ _); [done|]. apply Forall_app. by repeat constructor. Qed.

Lemma appendUniquePaths_NoDup values next :
  Forall clean_root values -> clean_root next -> NoDup values -> NoDup (appendUniquePaths values next).
Proof.
  intros HF Hn Hd. destruct (decide (next ∈ values)) as [Hin|Hout].
  - unfold appendUniquePaths. replace (existsb _ values) with true; [done|]. symmetry.
    apply existsb_exists. exists next. split; [by apply list_elem_of_In|]. by rewrite String.eqb_refl.
  - rewrite appendUniquePaths_fresh by done. apply NoDup_app. split; [done|]. split; [|apply NoDup_singleton].
    intros x Hx ->%list_elem_of_singleton. done.
Qed.

(** What [filepath.EvalSymlinks] documents: the result is cleaned, and
    absolute when the argument is. *)
Class LinksOk (H : Type) `{Machine H} : Prop :=
  links_clean : forall E p h, IsAbs p = true ->
    wp E (EvalSymlinks p) (fun r _ => forall q, r = Ok q -> clean_root q) h.

(** Two trees neither of which contains the other. *)
Definition apart (a b : string) : Prop :=
  ~ path_comps a `prefix_of` path_comps b /\ ~ path_comps b `prefix_of` path_comps a.

(** A root the operator may manage beside a quarantine. *)
Definition manageable (quarantine root : string) : Prop :=
  clean_root root /\ path_comps root <> [] /\ apart root quarantine.

Section RootFacts.
Context {H : Type} `{Machine H} `{!LinksOk H} {E : Env}.

Lemma follow_clean clean h :
  clean_root clean -> wp E (follow clean) (fun r _ => forall q, r = Ok q -> clean_root q) h.
Proof.
  intros Hc. unfold follow. wp_step. wp_step. eapply wp_mono; [by apply links_clean, Hc|].
  intros [q|e] h1 Hq; cbn; wp_go; [|by intros ? [= <-]|done]. intros ? [= <-]. by apply Hq.
Qed.

Lemma normalizeAllowlistRoot_clean value h :
  wp E (normalizeAllowlistRoot value) (fun r _ => forall q, r = Ok q -> clean_root q /\ path_comps q <> []) h.
Proof.
  unfold normalizeAllowlistRoot. cbv zeta. apply wp_guard; [done|intros _].
  apply wp_guard; [done|intros Ha%negb_false_iff]. apply wp_guard; [done|intros _].
  apply wp_bind. eapply wp_mono; [by apply follow_clean, clean_root_Clean|].
  intros [q|e] h1 Hq; [|done]. apply wp_guard; [done|intros Hne%String.eqb_neq]. wp_step. intros ? [= <-].
  split; [by apply Hq|]. apply clean_root_comps; [by apply Hq|done].
Qed.

Lemma normalize_each_ok quarantine out values h (P : string -> Prop) :
  (forall root, clean_root root -> path_comps root <> [] ->
     negb (String.eqb quarantine "") && (sameOrInside root quarantine || sameOrInside quarantine root) = false -> P root) ->
  (forall root, P root -> clean_root root) -> Forall P out -> NoDup out ->
  wp E (normalize_each quarantine out values) (fun r _ => forall roots, r = Ok roots ->
    Forall P roots /\ NoDup roots /\ (out <> [] \/ values <> [] -> roots <> [])) h.
Proof.
  intros HP Hc. revert out h. induction values as [|value values IH]; intros out h Ho Hd; cbn [normalize_each].
  { wp_step. intros ? [= <-]. naive_solver. }
  apply wp_bind. eapply wp_mono; [apply normalizeAllowlistRoot_clean|]. intros [root|e] h1 Hr; [|done].
  destruct (Hr root eq_refl) as [Hcr Hne]. apply wp_guard; [done|intros Ha].
  assert (Pr : P root) by auto.
  eapply wp_mono; [apply IH|intros r h2 Hi roots Er; destruct (Hi roots Er) as (HF&HN&Hx); split; [done|];
    split; [done|]; intros _; apply Hx; left; apply appendUniquePaths_nonempty].
  - apply appendUniquePaths_Forall; [done|]. by rewrite (proj2 Hcr).
  - apply appendUniquePaths_NoDup; [by eapply Forall_impl|done..].
Qed.

Lemma normalizeAllowlistRoots_ok quarantine values h :
  clean_root quarantine ->
  wp E (normalizeAllowlistRoots values quarantine)
    (fun r _ => forall roots, r = Ok roots -> Forall (manageable quarantine) roots /\ NoDup roots /\ roots <> []) h.
Proof.
  intros Hq. unfold normalizeAllowlistRoots. apply wp_guard; [done|intros Hv].
  eapply wp_mono; [apply (normalize_each_ok _ _ _ _ (manageable quarantine)); [|by intros ? []|done|apply NoDup_nil_2]|].
  2: { intros r h1 Hr roots Er. destruct (Hr roots Er) as (HF&HN&Hx). split; [done|]. split; [done|]. apply Hx. right. by intros ->. }
  intros root Hr Hne Ha. assert (Hqe : String.eqb quarantine "" = false).
  { apply String.eqb_neq. intros ->. by destruct Hq. }
  rewrite Hqe in Ha. cbn in Ha. apply orb_false_iff in Ha as [H1 H2].
  split; [done|]. split; [done|]. destruct Hr, Hq. by split; rewrite <- sameOrInside_iff by done; apply not_true_iff_false.
Qed.

Lemma normalizeReadOnlyRoots_clean values h :
  wp E (normalizeReadOnlyRoots values) (fun r _ => forall roots, r = Ok roots -> Forall clean_root roots) h.
Proof.
  unfold normalizeReadOnlyRoots. generalize (if (length values =? 0)%nat then ["/"] else values). intros l.
  assert (Ho : Forall clean_root []) by done. revert Ho h. generalize (@nil string).
  induction l as [|value l IH]; intros out Ho h; cbn [normalize_readonly].
  { wp_step. by intros ? [= <-]. }
  cbv zeta. apply wp_guard; [done|intros _]. apply wp_guard; [done|intros Ha%negb_false_iff].
  apply wp_bind. eapply wp_mono; [by apply follow_clean, clean_root_Clean|]. intros [q|e] h1 Hq; [|done].
  apply IH. destruct (Hq q eq_refl) as [Hqa Hqc]. apply appendUniquePaths_Forall; [done|]. by rewrite Hqc.
Qed.

Lemma normalizeAllowlistRoots_clean values h :
  wp E (normalizeAllowlistRoots values "") (fun r _ => forall roots, r = Ok roots -> Forall clean_root roots) h.
Proof.
  unfold normalizeAllowlistRoots. apply wp_guard; [done|intros _]. eapply wp_mono.
  - by apply (normalize_each_ok _ _ _ _ clean_root); [|auto|done|apply NoDup_nil_2].
  - intros r h1 Hr roots Er. by apply Hr.
Qed.
End RootFacts.

(** ** The manager's invariant *)

(** A configuration that was accepted. *)
Definition wf_config (c : Config) : Prop :=
  clean_root (cfg_QuarantineRoot c) /\ path_comps (cfg_QuarantineRoot c) <> [] /\
  Forall (manageable (cfg_QuarantineRoot c)) (cfg_LabFileRoots c).

(** Below one of the administrator's roots. *)
Definition below (maximumRoots : list string) (path : string) : Prop :=
  exists maximum, maximum ∈ maximumRoots /\ path_comps maximum `prefix_of` path_comps path.

Definition wf_manager {H} (m : ConfigManager H) : Prop :=
  let c := cm_config m in
  wf_config c /\ Forall (manageable (cfg_QuarantineRoot c)) (cm_maximumRoots m) /\
  NoDup (cfg_LabFileRoots c) /\ cfg_LabFileRoots c <> [] /\ Forall (below (cm_maximumRoots m)) (cfg_LabFileRoots c) /\
  cfg_AllowedFileRoots c = cfg_LabFileRoots c ++ [cfg_QuarantineRoot c] /\
  (forall t, cm_targets m = Some t -> mt_allowedFileRoots t = cfg_AllowedFileRoots c).

Lemma manageable_clean q roots : Forall (manageable q) roots -> Forall clean_root roots.
Proof. intros HF. by eapply Forall_impl; [exact HF|intros ? []]. Qed.

Lemma with_roots_allowed c roots :
  clean_root (cfg_QuarantineRoot c) -> Forall (manageable (cfg_QuarantineRoot c)) roots ->
  cfg_AllowedFileRoots (with_roots c roots) = roots ++ [cfg_QuarantineRoot c].
Proof.
  intros Hq HF. apply appendUniquePaths_fresh; [by eapply manageable_clean|done|]. intros Hin.
  rewrite Forall_forall in HF. destruct (HF _ Hin) as (_&_&Hap&_). by apply Hap.
Qed.

Section ManagerFacts.
Context {H : Type} `{Machine H} `{!LinksOk H} `{UnicodeCase} `{ConfigYaml} {E : Env}.

Lemma wp_on_host {A} (m : M H A) (P : result A -> Prop) (s : Hosted H) :
  (forall h, wp E m (fun r _ => P r) h) ->
  wp E (on_host m) (fun r s' => P r /\ ho_files s' = ho_files s) s.
Proof. intros Hm. apply wp_zoom. eapply wp_mono; [apply Hm|]. by intros r h Hr. Qed.

Lemma LoadConfig_wf path s : wp E (LoadConfig path) (fun r _ => forall c, r = Ok c -> wf_config c) s.
Proof.
  unfold LoadConfig. apply wp_bind, wp_any. intros [f|e] s1; [|done].
  apply wp_bind, wp_any. intros [c|e] s2; [|done]. apply wp_guard; [done|intros _].
  cbv zeta. apply wp_guard; [done|intros _]. apply wp_bind, wp_wrapping.
  eapply wp_mono; [apply wp_on_host; intros h; apply normalizeAllowlistRoot_clean|].
  intros [q|e] s3 [Hq _]; [|done]. destruct (Hq q eq_refl) as [Hqc Hqn].
  apply wp_bind, wp_wrapping.
  eapply wp_mono; [apply wp_on_host; intros h; by apply (normalizeAllowlistRoots_ok q)|].
  intros [lab|e] s4 [Hl _]; [|done]. destruct (Hl lab eq_refl) as (Hlab&_).
  do 4 (apply wp_bind, wp_any; intros [?|?] ?; [|done]). wp_step. by intros c' [= <-].
Qed.

(** Roots that were normalised and lie below the maximum make a manager. *)
Lemma with_roots_wf path c maximumRoots (targets : option (MutableTargets H)) roots :
  wf_config c -> Forall (manageable (cfg_QuarantineRoot c)) maximumRoots ->
  Forall (manageable (cfg_QuarantineRoot c)) roots -> NoDup roots -> roots <> [] -> validateRootsWithin roots maximumRoots = Ok tt ->
  wf_manager (MkConfigManager path (with_roots c roots) maximumRoots
    (option_map (UpdateAllowedFileRoots (cfg_AllowedFileRoots (with_roots c roots))) targets)).
Proof.
  intros (Hq&Hqn&_) Hm Hr Hd Hne Hv. apply validateRootsWithin_iff in Hv; [|by eapply manageable_clean..].
  split; [by split|]. do 4 (split; [done|]). split; [exact (with_roots_allowed c roots Hq Hr)|].
  intros t. destruct targets; [|done]. by intros [= <-].
Qed.

Lemma NewConfigManager_wf path c targets s :
  wf_config c ->
  wp E (NewConfigManager path c targets) (fun r _ => forall m, r = Ok m -> wf_manager m /\
    cm_maximumRoots m = cfg_LabFileRoots c /\ cfg_QuarantineRoot (cm_config m) = cfg_QuarantineRoot c /\
    (cm_targets m = None -> targets = None)) s.
Proof.
  intros Hc. unfold NewConfigManager. cbv zeta. apply wp_bind, wp_any. intros [loaded|e] s1; [|done].
  apply wp_bind, wp_any. intros [roots|e] s2; [|done]. apply wp_bind, wp_wrapping.
  eapply wp_mono; [apply wp_on_host; intros h; by apply normalizeAllowlistRoots_ok, Hc|].
  intros [normalized|e] s3 [Hn _]; [|done]. destruct (Hn normalized eq_refl) as (HF&Hd&Hne).
  apply wp_bind, wp_wrapping, wp_lift. destruct (validateRootsWithin _ _) as [[]|e] eqn:Ev; [|done]. cbn.
  wp_step. intros m [= <-]. split; [apply with_roots_wf; [done|apply Hc|done..]|]. by destruct targets.
Qed.

Lemma UpdateManagedRoots_wf m roots s :
  wf_manager m ->
  wp E (UpdateManagedRoots m roots) (fun r _ => forall status m', r = Ok (status, m') -> wf_manager m' /\
    cm_maximumRoots m' = cm_maximumRoots m /\
    cfg_QuarantineRoot (cm_config m') = cfg_QuarantineRoot (cm_config m) /\
    (cm_targets m' = None -> cm_targets m = None)) s.
Proof.
  intros (Hc&Hm&_). unfold UpdateManagedRoots, invalid_roots at 1. apply wp_bind, wp_bind, wp_try.
  eapply wp_mono; [apply wp_on_host; intros h; by apply normalizeAllowlistRoots_ok, Hc|].
  intros [normalized|e] s1 [Hn _]; cbn beta iota; [|by apply wp_throw]. apply wp_ret.
  destruct (Hn normalized eq_refl) as (HF&Hd&Hne). unfold invalid_roots.
  apply wp_bind, wp_bind, wp_try, wp_lift. destruct (validateRootsWithin _ _) as [[]|e] eqn:Ev; cbn beta iota; [|by apply wp_throw].
  apply wp_ret. cbv zeta. apply wp_bind, wp_any. intros [[]|e] s2; [|done].
  apply wp_bind, wp_any. intros [status|e] s3; [|done]. wp_step. intros status' m' [= <- <-].
  split; [by apply with_roots_wf|]. by destruct (cm_targets m).
Qed.
End ManagerFacts.

Section Life.
Context {H : Type} `{Machine H} `{!LinksOk H} `{OsRoot H} `{UnicodeCase} `{ConfigYaml} (readers : LinuxTargets H).

(** [config] was accepted from the administrator's file. *)
Definition accepted (config : Config) : Prop :=
  exists E configPath w w', LoadConfig (H := H) configPath E w = (Ok config, w').

(** A manager that serves [config]. *)
Definition serves (m : ConfigManager H) (config : Config) : Prop :=
  wf_manager m /\ cm_maximumRoots m = cfg_LabFileRoots config /\
  cfg_QuarantineRoot (cm_config m) = cfg_QuarantineRoot config /\ cm_targets m <> None.

Lemma start_allowlist_serves E configPath statePath s :
  wp E (start_allowlist readers configPath statePath)
    (fun r _ => forall m, r = Ok m -> exists config, accepted config /\ serves m config) s.
Proof.
  intros w Hw. unfold start_allowlist, bind. destruct (LoadConfig configPath E w) as [[config|e] w1] eqn:El; [|done].
  pose proof (wp_run _ _ _ _ _ _ (LoadConfig_wf configPath (st w)) El config eq_refl) as Hc.
  pose proof (NewConfigManager_wf (E := E) statePath config
    (Some (NewMutableTargets readers (cfg_AllowedFileRoots config))) (st w1) Hc w1 eq_refl) as Hm.
  intros m Em. destruct (Hm m Em) as (Hwf&Hmax&Hq&Ht). exists config. split; [by exists E, configPath, w, w1|].
  repeat (split; [done|]). intros Hn. by specialize (Ht Hn).
Qed.

Lemma allowlist_step_serves E ev running s :
  (forall m, running = Some m -> exists config, accepted config /\ serves m config) ->
  wp E (allowlist_step readers ev running)
    (fun r _ => forall m, r = Ok (Some m) -> exists config, accepted config /\ serves m config) s.
Proof.
  intros Hrun. destruct ev as [cp sp| |roots|path mode limit|parent name], running as [m|]; cbn [allowlist_step];
    try (apply wp_ret; by intros ? [=]).
  1,2: apply wp_bind, wp_try; eapply wp_mono; [apply start_allowlist_serves|];
    intros [m'|e] s' Hm; apply wp_ret; intros m0 [= <-]; by apply Hm.
  all: destruct (Hrun m eq_refl) as (config&Hacc&Hwf&Hmax&Hq&Ht).
  2: { apply wp_bind, wp_try. eapply wp_mono; [by apply UpdateManagedRoots_wf|].
       intros [[status m']|e] s' Hm; apply wp_ret; intros m0 [= <-]; exists config; (split; [done|]); [|done].
       destruct (Hm status m' eq_refl) as (Hwf'&Hmax'&Hq'&Ht'). repeat split; [by apply Hwf'..| | |]; [congruence..|].
       intros Hn. by apply Ht, Ht'. }
  all: apply wp_bind, wp_any; intros [?|?] s'; [|by intros ? [=]]; apply wp_ret; intros m0 [= <-]; by exists config.
Qed.

Lemma allowlist_run_serves evs running s m :
  (forall m, running = Some m -> exists config, accepted config /\ serves m config) ->
  (allowlist_run readers evs running s).1 = Some m -> exists config, accepted config /\ serves m config.
Proof.
  revert running s. induction evs as [|[E ev] evs IH]; intros running s Hrun; cbn; [apply Hrun|].
  destruct (allowlist_step readers ev running E (init_world s)) as [r w] eqn:Es.
  pose proof (wp_run _ _ _ _ _ _ (allowlist_step_serves E ev running (st (init_world s)) Hrun) Es) as Hr.
  apply IH. intros m' Hm'. apply Hr. destruct r; [by subst|done].
Qed.

Lemma serves_paths m config t path :
  serves m config -> cm_targets m = Some t -> IsAbs path = true ->
  (withinRoots path (lt_AllowedFileRoots (snapshotter t)) = true <->
   below (cfg_LabFileRoots (cm_config m) ++ [cfg_QuarantineRoot config]) path).
Proof.
  intros (((Hq&_&Hl)&_&_&_&_&Ha&Ht)&_&Eq&_) Et Hp. cbn [snapshotter lt_AllowedFileRoots].
  rewrite (Ht t Et), Ha, Eq. apply withinRoots_iff; [done|]. rewrite Eq in Hq, Hl.
  apply Forall_app. split; [|repeat constructor; apply Hq].
  by eapply Forall_impl; [apply (manageable_clean _ _ Hl)|intros ? []].
Qed.

(** C26: the operator never widens what the administrator allowed.  Whatever
    requests the server serves, with failures and crashes at any system
    call, whatever the operator asks for, and whatever the file of managed
    roots holds when the server starts: a running manager serves a
    configuration that was accepted from the administrator's file; each
    managed root lies below one of its roots, is not the root of the file
    system, and neither contains the quarantine nor lies in it; and the
    server takes snapshots of files exactly below the managed roots and the
    quarantine, so never outside the administrator's roots. *)
Theorem managed_roots_confined (evs : list (Env * allowlist_event)) (s : Hosted H) (m : ConfigManager H) :
  (allowlist_run readers evs None s).1 = Some m ->
  exists config t, accepted config /\ cm_targets m = Some t /\
    (forall root, root ∈ cfg_LabFileRoots (cm_config m) ->
       below (cfg_LabFileRoots config) root /\ path_comps root <> [] /\ apart root (cfg_QuarantineRoot config)) /\
    (forall path, IsAbs path = true ->
       (withinRoots path (lt_AllowedFileRoots (snapshotter t)) = true <->
        below (cfg_LabFileRoots (cm_config m) ++ [cfg_QuarantineRoot config]) path) /\
       (withinRoots path (lt_AllowedFileRoots (snapshotter t)) = true ->
        below (cfg_LabFileRoots config ++ [cfg_QuarantineRoot config]) path)).
Proof.
  intros Hrun. apply allowlist_run_serves in Hrun as (config&Hacc&Hs); [|done].
  pose proof Hs as (((Hq&_&Hl)&_&_&_&Hb&_)&Hmax&Eq&Hn). destruct (cm_targets m) as [t|] eqn:Et; [|done].
  exists config, t. split; [done|]. split; [done|]. rewrite Eq in Hl. rewrite Hmax in Hb. rewrite Forall_forall in Hl, Hb.
  split; [intros root Hr; split; [by apply Hb|apply (Hl root Hr)]|]. intros path Hp.
  pose proof (serves_paths m config t path Hs Et Hp) as Hiff. split; [done|]. intros Hw. apply Hiff in Hw as (root&Hr&Hpre).
  apply elem_of_app in Hr as [Hr|Hr%list_elem_of_singleton].
  - destruct (Hb root Hr) as (maximum&Hin&Hpm). exists maximum. split; [apply elem_of_app; by left|by etrans].
  - exists root. split; [|done]. apply elem_of_app. right. by apply list_elem_of_singleton.
Qed.
End Life.

(** ** Updates and restarts *)
Section Durable.
Context {H : Type} `{Machine H} `{!LinksOk H} `{UnicodeCase} `{ConfigYaml} `{!ConfigYamlOk}.

(** A path that leads to itself, now and later: no component of it is, or
    becomes, a symbolic link; and it has no white space around it. *)
Definition settled (p : string) : Prop :=
  TrimSpace p = p /\
  forall E h, wp E (EvalSymlinks p) (fun r _ => match r with
                                                | Ok q => q = p
                                                | Err e => quiet E -> errors_is e ENOENT = true
                                                end) h.

(** The file holds exactly these roots. *)
Definition on_disk (path : string) (files : gmap string StoredFile) (roots : list string) : Prop :=
  exists f, files !! path = Some f /\ Unmarshal_managedRoots (sf_bytes f) = Ok (MkManagedRootsConfig 1 roots).

(** The next start will find the roots the manager has now. *)
Definition persists (m : ConfigManager H) (files : gmap string StoredFile) : Prop :=
  on_disk (cm_path m) files (cfg_LabFileRoots (cm_config m)) \/
  files !! cm_path m = None /\ cfg_LabFileRoots (cm_config m) = cm_maximumRoots m.

(** What normalising the request gave. *)
Definition requested (m : ConfigManager H) (roots normalized : list string) : Prop :=
  exists E w w', normalizeAllowlistRoots (H := H) roots (cfg_QuarantineRoot (cm_config m)) E w = (Ok normalized, w').

Lemma normalizeAllowlistRoot_settled E p h :
  settled p -> clean_root p -> path_comps p <> [] ->
  wp E (normalizeAllowlistRoot p) (fun r _ => match r with Ok q => q = p | Err _ => ~ quiet E end) h.
Proof.
  intros [Ht Hl] [Ha Hc] Hn. unfold normalizeAllowlistRoot. cbv zeta. rewrite Ht, Hc.
  assert (Hne : String.eqb p "/" = false) by (apply String.eqb_neq; by intros ->).
  apply wp_guard; [intros E0%String.eqb_eq; by subst|intros _]. rewrite Ha. apply wp_guard; [done|intros _].
  rewrite Hne. apply wp_guard; [done|intros _]. apply wp_bind. unfold follow.
  apply wp_bind, wp_try. eapply wp_mono; [apply Hl|]. intros [q|e] h1 Hr; cbn beta iota.
  - subst q. apply wp_ret. rewrite Hne. apply wp_guard; [done|intros _]. by apply wp_ret.
  - destruct (errors_is e ENOENT) eqn:Ee.
    + apply wp_ret. rewrite Hne. apply wp_guard; [done|intros _]. by apply wp_ret.
    + apply wp_throw. intros Hq. by specialize (Hr Hq).
Qed.

Lemma normalize_each_settled E quarantine out values h :
  clean_root quarantine -> Forall settled values -> Forall (manageable quarantine) (out ++ values) ->
  NoDup (out ++ values) ->
  wp E (normalize_each quarantine out values) (fun r _ => match r with Ok roots => roots = out ++ values | Err _ => ~ quiet E end) h.
Proof.
  intros Hq. revert out h. induction values as [|value values IH]; intros out h Hs Hm Hd; cbn [normalize_each].
  { apply wp_ret. by rewrite app_nil_r. }
  apply Forall_cons in Hs as [Hv Hs]. pose proof Hm as Hm'. apply Forall_app in Hm' as [Ho Hm'].
  apply Forall_cons in Hm' as [(Hc&Hn&Ha1&Ha2) _].
  apply wp_bind. eapply wp_mono; [by apply normalizeAllowlistRoot_settled|]. intros [root|e] h1 Hr; [subst root|done].
  assert (Hno : forall a b, IsAbs a = true -> IsAbs b = true -> ~ path_comps b `prefix_of` path_comps a -> sameOrInside a b = false).
  { intros a b Habs Hbbs Hp. apply not_true_iff_false. by rewrite sameOrInside_iff. }
  rewrite !Hno by (done || apply Hc || apply Hq). rewrite andb_false_r. apply wp_guard; [done|intros _].
  rewrite appendUniquePaths_fresh; [|by eapply manageable_clean|done|].
  - replace (out ++ value :: values) with ((out ++ [value]) ++ values) in * by (by rewrite <- app_assoc). by apply IH.
  - apply NoDup_app in Hd as (_&Hd&_). intros Hin. apply (Hd value Hin). by left.
Qed.

Lemma normalizeAllowlistRoots_settled E quarantine values h :
  clean_root quarantine -> values <> [] -> Forall settled values -> Forall (manageable quarantine) values -> NoDup values ->
  wp E (normalizeAllowlistRoots values quarantine) (fun r _ => match r with Ok roots => roots = values | Err _ => ~ quiet E end) h.
Proof.
  intros Hq Hne Hs Hm Hd. unfold normalizeAllowlistRoots. apply wp_guard; [by destruct values|intros _].
  by apply normalize_each_settled.
Qed.

(** A start reads the roots of the file, and the widest without one. *)
Lemma loadManagedRoots_finds E path (s : Hosted H) (P : result (list string) -> Prop) :
  honest E ->
  (forall roots, on_disk path (ho_files s) roots -> P (Ok roots)) ->
  (ho_files s !! path = None -> forall e, errors_is e ENOENT = true -> P (Err e)) ->
  (forall e, ~ quiet E -> errors_is e ENOENT = false -> P (Err e)) ->
  (ho_files s !! path = None \/ exists roots, on_disk path (ho_files s) roots) ->
  wp E (loadManagedRoots path) (fun r s' => P r /\ s' = s) s.
Proof.
  intros Hh HP1 HP2 HP3 Hd. unfold loadManagedRoots, read_file. apply wp_bind.
  intros w Hw. unfold sys. destruct (faults E (sysno w)) as [no|] eqn:Ef; cbn.
  - split; [|done]. apply HP3; [intros [Hq _]; by rewrite Hq in Ef|]. cbn. apply bool_decide_eq_false. intros ->. by apply (Hh (sysno w)).
  - rewrite Hw. destruct Hd as [Hn|(roots&f&Hf&Hu)].
    + rewrite Hn. cbn. split; [|done]. by apply HP2.
    + rewrite Hf. cbn. unfold bind, wrapping, lift. cbn. rewrite Hu. cbn. split; [|done]. apply HP1. by exists f.
Qed.

Lemma NewConfigManager_finds E m c targets s :
  honest E -> wf_manager m -> persists m (ho_files s) ->
  Forall settled (cfg_LabFileRoots (cm_config m)) ->
  cfg_LabFileRoots c = cm_maximumRoots m -> cfg_QuarantineRoot c = cfg_QuarantineRoot (cm_config m) ->
  Clean (cm_path m) = cm_path m ->
  wp E (NewConfigManager (cm_path m) c targets) (fun r _ => match r with
    | Ok m' => cfg_LabFileRoots (cm_config m') = cfg_LabFileRoots (cm_config m)
    | Err _ => ~ quiet E
    end) s.
Proof.
  intros Hh ((Hq&_&Hl)&Hm&Hd&Hne&Hb&_) Hp Hs Ec Eq Ep. unfold NewConfigManager. cbv zeta. rewrite Ep, Ec, Eq.
  set (roots := cfg_LabFileRoots (cm_config m)) in *.
  apply wp_bind, wp_try. eapply wp_mono; [apply (loadManagedRoots_finds E (cm_path m) s (fun r => match r with
    | Ok roots' => roots' = roots
    | Err e => if errors_is e ENOENT then cm_maximumRoots m = roots else ~ quiet E end)); [done|..]|].
  - intros roots' (f&Hf&Hu). destruct Hp as [(f'&Hf'&Hu')|[Hn _]]; [|congruence].
    rewrite Hf in Hf'. injection Hf' as <-. rewrite Hu in Hu'. by injection Hu' as ->.
  - intros Hn e ->. destruct Hp as [(f&Hf&_)|[_ Hr]]; [congruence|done].
  - by intros e Hnq ->.
  - destruct Hp as [Hp|[Hn _]]; [right; by exists roots|by left].
  - intros loaded s1 [HP ->]. cbn beta iota. apply wp_bind.
    apply (wp_mono _ _ (fun r _ => match r with Ok v => v = roots | Err _ => ~ quiet E end)).
    { destruct loaded as [v|e]; [by apply wp_ret|]. destruct (errors_is e ENOENT); [by apply wp_ret|by apply wp_throw]. }
    intros [v|e] s2 Hv; [subst v|done]. apply wp_bind, wp_wrapping.
    eapply wp_mono; [apply wp_on_host; intros h; by apply normalizeAllowlistRoots_settled|].
    intros [normalized|e] s3 [Hn _]; [subst normalized|done].
    apply wp_bind, wp_wrapping, wp_lift.
    assert (Hv : validateRootsWithin roots (cm_maximumRoots m) = Ok tt)
      by (apply validateRootsWithin_iff; [by eapply manageable_clean..|done]).
    rewrite Hv. cbn. by apply wp_ret.
Qed.

Lemma probes_sys {S} E n (s : S) :
  wp E (probes n) (fun r s' => s' = s /\ (r = Ok tt \/ exists no, r = Err (ESys no))) s.
Proof.
  revert s. induction n as [|[|n] IH]; intros s; [by apply wp_ret; auto|apply wp_sys; eauto|].
  apply (wp_bind _ probe), wp_sys; [by eauto|]. apply IH.
Qed.

(** The replaced file is the old or the new one, and a failure is one of
    the system's. *)
Lemma saveManagedRoots_wp E path roots (s : Hosted H) :
  wp E (saveManagedRoots path roots) (fun r s' => match r with
    | Ok _ => on_disk path (ho_files s') roots
    | Err e => ho_files s' = ho_files s \/ on_disk path (ho_files s') roots /\ exists no, e = ESys no
    end) s.
Proof.
  unfold saveManagedRoots. apply wp_bind, wp_lift. destruct (Marshal_managedRoots _) as [b|e] eqn:Eb; [|by left].
  apply managed_roundtrip in Eb. unfold saveConfigBytes. apply wp_bind, wp_probe; [|by left]. apply wp_bind, wp_try.
  unfold read_file. apply wp_sys; [intros no|destruct (ho_files s !! path)]; cbn beta iota;
    (apply wp_bind, wp_now; intros n; apply wp_bind; eapply wp_mono; [apply probes_sys|];
     intros r0 s1 [-> [->|[no0 ->]]]; [|by left]; apply wp_bind, wp_sys; [by left|];
     eapply wp_mono; [apply probes_sys|]; intros r1 s2 [-> [->|[no1 ->]]];
     [|right; split; [|by exists no1]]; eexists; (split; [apply lookup_insert_eq|done])).
Qed.

Lemma missing_roots_total roots E (s : Hosted H) :
  wp E (missing_roots roots) (fun r s' => is_ok r = true /\ ho_files s' = ho_files s) s.
Proof.
  revert s. induction roots as [|root roots IH]; intros s; cbn [missing_roots]; [by apply wp_ret|].
  apply wp_bind, wp_try. eapply wp_mono; [by apply (wp_on_host _ (fun _ => True))|]. intros info s1 [_ Hf].
  apply wp_bind. eapply wp_mono; [apply IH|]. intros [rest|e] s2 [Hok Hf']; [|done]. apply wp_ret. by rewrite Hf', Hf.
Qed.

Lemma candidate_roots_total out roots E h :
  wp E (candidate_roots (H := H) out roots) (fun r _ => is_ok r = true) h.
Proof.
  revert out h. induction roots as [|root roots IH]; intros out h; cbn [candidate_roots]; [by apply wp_ret|].
  cbv zeta. apply wp_bind, wp_try, wp_any. intros [entries|e] h1; cbn beta iota; [|apply IH].
  destruct (candidate_entries _ _ _) as [out' []]; [by apply wp_ret|apply IH].
Qed.

(** The status is always given, and changes nothing. *)
Lemma statusLocked_total (m : ConfigManager H) E s :
  wp E (statusLocked m) (fun r s' => ho_files s' = ho_files s /\
    exists status, r = Ok status /\ al_ManagedRoots status = cfg_LabFileRoots (cm_config m) /\
      al_AllowedFileRoots status = cfg_AllowedFileRoots (cm_config m)) s.
Proof.
  unfold statusLocked. apply wp_bind.
  eapply wp_mono; [apply (wp_on_host _ (fun r => is_ok r = true)); intros h; apply candidate_roots_total|].
  intros [candidates|e] s1 [Hok Hf]; [|done]. apply wp_bind, wp_try. unfold read_file.
  apply wp_sys; [intros no|destruct (ho_files s1 !! cm_path m)]; cbn beta iota;
    (apply wp_bind; eapply wp_mono; [apply missing_roots_total|]; intros [missing|e] s2 [Hok' Hf']; [|done];
     apply wp_ret; split; [by rewrite Hf', Hf|by eexists]).
Qed.

(** The manager a request asks for. *)
Definition asked (m : ConfigManager H) (roots : list string) (m' : ConfigManager H) : Prop :=
  wf_manager m' /\ cm_path m' = cm_path m /\ cm_maximumRoots m' = cm_maximumRoots m /\
  cfg_QuarantineRoot (cm_config m') = cfg_QuarantineRoot (cm_config m) /\
  requested m roots (cfg_LabFileRoots (cm_config m')).

Lemma UpdateManagedRoots_persists E m roots s :
  wf_manager m -> persists m (ho_files s) ->
  wp E (UpdateManagedRoots m roots) (fun r s' => match r with
    | Ok (status, m') => asked m roots m' /\ persists m' (ho_files s') /\
        al_ManagedRoots status = cfg_LabFileRoots (cm_config m')
    | Err e => persists m (ho_files s') \/
        (exists no, e = ESys no) /\ exists m', asked m roots m' /\ persists m' (ho_files s')
    end) s.
Proof.
  intros Hwf Hp. pose proof Hwf as (Hc&Hm&_). unfold UpdateManagedRoots, invalid_roots at 1. apply wp_bind, wp_bind, wp_try.
  eapply wp_mono; [apply (wp_on_host _ (fun r => forall normalized, r = Ok normalized ->
    requested m roots normalized /\ Forall (manageable (cfg_QuarantineRoot (cm_config m))) normalized /\
    NoDup normalized /\ normalized <> [])); intros h w Hw|].
  { intros normalized En. split; [exists E, w, (normalizeAllowlistRoots roots (cfg_QuarantineRoot (cm_config m)) E w).2;
      by rewrite <- En, <- surjective_pairing|].
    by apply (normalizeAllowlistRoots_ok (E := E) _ roots h (proj1 Hc) w Hw). }
  intros [normalized|e] s1 [Hn Hf]; cbn beta iota; [|apply wp_throw; left; by rewrite Hf].
  apply wp_ret. destruct (Hn normalized eq_refl) as (Hreq&HF&Hd&Hne). unfold invalid_roots.
  apply wp_bind, wp_bind, wp_try, wp_lift. destruct (validateRootsWithin _ _) as [[]|e] eqn:Ev; cbn beta iota;
    [|apply wp_throw; left; by rewrite Hf].
  apply wp_ret. cbv zeta. pose proof (with_roots_wf (cm_path m) (cm_config m) _ (cm_targets m) normalized Hc Hm HF Hd Hne Ev) as Hwf'.
  set (m' := MkConfigManager _ _ _ _) in *. assert (Hasked : asked m roots m') by done.
  apply wp_bind. eapply wp_mono; [apply saveManagedRoots_wp|]. intros [[]|e] s2 Hs.
  - apply wp_bind. eapply wp_mono; [apply (statusLocked_total m')|]. intros r s3 (Hf3&status&->&Hms&_).
    apply wp_ret. split; [done|]. split; [left; by rewrite Hf3|done].
  - destruct Hs as [Hs|[Hs Hno]]; [left; by rewrite Hs, Hf|right]. split; [done|]. exists m'. split; [done|by left].
Qed.

(** The next start, with the same roots of the administrator, finds the
    roots [m] has; without failures it does start. *)
Definition restarts_with (m : ConfigManager H) (files : gmap string StoredFile) : Prop :=
  forall E c targets w, honest E -> ho_files (st w) = files ->
    cfg_LabFileRoots c = cm_maximumRoots m -> cfg_QuarantineRoot c = cfg_QuarantineRoot (cm_config m) ->
    match (NewConfigManager (cm_path m) c targets E w).1 with
    | Ok m' => cfg_LabFileRoots (cm_config m') = cfg_LabFileRoots (cm_config m)
    | Err _ => ~ quiet E
    end.

Lemma persists_restarts m files :
  wf_manager m -> persists m files -> Forall settled (cfg_LabFileRoots (cm_config m)) ->
  Clean (cm_path m) = cm_path m -> restarts_with m files.
Proof.
  intros Hwf Hp Hs Hc E c targets w Hh Hf Hmax Hq. rewrite <- Hf in Hp.
  exact (NewConfigManager_finds E m c targets (st w) Hh Hwf Hp Hs Hmax Hq Hc w eq_refl).
Qed.

(** An update is kept across restarts exactly when it was acknowledged,
    and is never half kept.  After [UpdateManagedRoots] on a manager whose
    roots the file holds, with failures or a crash at any system call: when
    it returned a status, the status and the manager have the requested
    roots, and the next start has them too; when it returned an error, the
    next start has either the roots from before or, only when a system call
    failed, exactly the requested ones.  And the next start succeeds when
    nothing fails.  (The roots must lead to themselves, now and later; the
    [Example] below shows what happens otherwise.) *)
Theorem managed_roots_durable (E : Env) (m : ConfigManager H) (roots : list string) (w : World (Hosted H))
    (Hwf : wf_manager m) (Hp : persists m (ho_files (st w))) (Hclean : Clean (cm_path m) = cm_path m)
    (Hold : Forall settled (cfg_LabFileRoots (cm_config m)))
    (Hnew : forall normalized, requested m roots normalized -> Forall settled normalized) :
  let (r, w') := UpdateManagedRoots m roots E w in
  match r with
  | Ok (status, m') => asked m roots m' /\ al_ManagedRoots status = cfg_LabFileRoots (cm_config m') /\
      persists m' (ho_files (st w')) /\ restarts_with m' (ho_files (st w'))
  | Err e => restarts_with m (ho_files (st w')) \/
      (exists no, e = ESys no) /\ exists m', asked m roots m' /\ restarts_with m' (ho_files (st w'))
  end.
Proof.
  destruct (UpdateManagedRoots m roots E w) as [r w'] eqn:Eu.
  pose proof (wp_run _ _ _ _ _ _ (UpdateManagedRoots_persists E m roots (st w) Hwf Hp) Eu) as Hr. cbn beta in Hr.
  assert (Hkeep : forall m', asked m roots m' -> persists m' (ho_files (st w')) -> restarts_with m' (ho_files (st w'))).
  { intros m' (Hwf'&Hpath&_&_&Hreq) Hp'. apply persists_restarts; [done..|by apply Hnew|congruence]. }
  destruct r as [[status m']|e].
  - destruct Hr as (Ha&Hp'&Hms). auto.
  - destruct Hr as [Hp'|(Hno&m'&Ha&Hp')]; [left; by apply persists_restarts|right; eauto].
Qed.
End Durable.

(** ** The browser and the new directory *)

Lemma safeDirectoryName_normal name : safeDirectoryName name = true -> normal name.
Proof.
  unfold safeDirectoryName, ContainsAny.
  destruct (String.eqb_spec name ""), (String.eqb_spec name "."), (String.eqb_spec name ".."); cbn [orb]; try done.
  destruct (128 <? String.length name)%nat; cbn; [done|]. intros Hn%negb_true_iff.
  repeat (split; [done|]). unfold no_slash. clear -Hn. induction name as [|c s IH]; [done|].
  cbn -[Ascii.eqb] in Hn |- *. apply orb_false_iff in Hn as [Hc Hn]. rewrite IH by done. rewrite andb_true_r.
  apply orb_false_iff in Hc as [Hc _]. by apply negb_true_iff.
Qed.

(** A relative path of normal components is cleaned to itself. *)
Lemma Clean_relative cs : cs <> [] -> Forall normal cs -> Clean (Join cs "/") = Join cs "/".
Proof.
  intros Hne HF.
  assert (Hid : forall stack l, Forall normal l -> clean_comps false stack l = rev stack ++ l).
  { intros stack l. revert stack. induction l as [|c l IH]; intros stack Hl; cbn; [by rewrite app_nil_r|].
    apply Forall_cons in Hl as [(H1&H2&H3&_) Hl]. apply String.eqb_neq in H1, H2, H3. rewrite H1, H2, H3. cbn.
    rewrite IH by done. cbn. by rewrite <- app_assoc. }
  assert (Ha : IsAbs (Join cs "/") = false).
  { destruct cs as [|c cs]; [done|]. apply Forall_cons in HF as [(H1&_&_&Hs) _]. destruct c as [|a c]; [done|].
    unfold no_slash in Hs. cbn -[Ascii.eqb] in Hs. apply andb_true_iff in Hs as [Hs _]. apply negb_true_iff in Hs.
    destruct cs; cbn -[IsAbs Ascii.eqb]; by rewrite IsAbs_cons. }
  assert (Hc : path_comps (Join cs "/") = cs).
  { unfold path_comps. rewrite Ha, Split_Join by (done || by apply normal_no_slash). by apply Hid. }
  unfold Clean. rewrite Ha, Hc. by destruct cs.
Qed.

(** What [Rel] gives below a root, and the name joined to it. *)
Lemma Rel_below root path relative :
  IsAbs root = true -> IsAbs path = true -> path_comps root `prefix_of` path_comps path ->
  Rel root path = Ok relative ->
  exists t, path_comps path = path_comps root ++ t /\ relative = match t with [] => "." | _ => Join t "/" end.
Proof.
  intros Hr Hp [t Et] HR. exists t. split; [done|]. unfold Rel in HR.
  pose proof (path_comps_normal root Hr) as Nr. pose proof (path_comps_normal path Hp) as Np.
  destruct (String.eqb_spec (Clean path) (Clean root)) as [E|NE].
  { apply Clean_eq_iff in E; [|done..]. injection HR as <-. rewrite Et in E.
    destruct t; [done|]. apply (f_equal length) in E. rewrite length_app in E. cbn in E. lia. }
  rewrite !IsAbs_Clean, Hr, Hp in HR. cbn [Bool.eqb negb] in HR.
  destruct (String.eqb_spec (Clean root) ".") as [E|_].
  { pose proof (IsAbs_Clean root) as Hx. rewrite E, Hr in Hx. discriminate Hx. }
  rewrite !Clean_abs, !rel_elems_abs in HR by done. rewrite Et in HR.
  assert (Hs : forall l, strip_common l (l ++ t) = ([], t)).
  { clear. intros l. induction l as [|x l IH]; cbn; [by destruct t|]. by rewrite String.eqb_refl. }
  rewrite Hs in HR. injection HR as <-. destruct t; [|done]. exfalso. apply NE.
  apply Clean_eq_iff; [done..|]. by rewrite Et, app_nil_r.
Qed.

Lemma join_relative t name :
  Forall normal t -> normal name ->
  PathJoin [match t with [] => "." | _ => Join t "/" end; name] = Join (t ++ [name]) "/".
Proof.
  intros Ht Hn. assert (Hne : String.eqb name "" = false) by (apply String.eqb_neq; by destruct Hn).
  unfold PathJoin. destruct t as [|x t].
  - cbn [List.filter]. rewrite Hne. change (Clean (Join ["."; name] "/") = Join [name] "/").
    assert (Ha : path_comps (Join ["."; name] "/") = [name]).
    { change (Join ["."; name] "/") with (String "." (String slash name)). unfold path_comps.
      rewrite IsAbs_cons. change (String "." (String slash name)) with ("." +:+ String slash name).
      rewrite Split_app. rewrite (Split_word name) by (by destruct Hn as (?&?&?&?)).
      destruct Hn as (H1&H2&H3&_). apply String.eqb_neq in H1, H2, H3. cbn. by rewrite H1, H2, H3. }
    unfold Clean. rewrite Ha. change (IsAbs (Join ["."; name] "/")) with false. done.
  - assert (Hx : String.eqb (Join (x :: t) "/") "" = false).
    { apply String.eqb_neq. apply Forall_cons in Ht as [(Hx&_) _]. destruct x; [done|]. by destruct t. }
    cbn [List.filter]. rewrite Hx, Hne. cbn [negb].
    change (Join [Join (x :: t) "/"; name] "/") with (Join (x :: t) "/" +:+ String slash (Join [name] "/")).
    rewrite <- Join_app by done. apply Clean_relative; [by destruct t|].
    apply (Forall_app normal (x :: t) [name]). split; [done|by constructor].
Qed.

Lemma select_root_spec clean roots :
  Forall clean_root roots -> select_root clean roots <> "" ->
  select_root clean roots ∈ roots /\ sameOrInside clean (select_root clean roots) = true /\
  Forall (fun root => sameOrInside clean root = true -> (String.length root <= String.length (select_root clean roots))%nat) roots.
Proof.
  unfold select_root. intros HF.
  assert (Hg : forall l sel, Forall clean_root l ->
    (foldl (longer_root clean) sel l = sel \/
     foldl (longer_root clean) sel l ∈ l /\ sameOrInside clean (foldl (longer_root clean) sel l) = true) /\
    (String.length sel <= String.length (foldl (longer_root clean) sel l))%nat /\
    Forall (fun root => sameOrInside clean root = true ->
              (String.length root <= String.length (foldl (longer_root clean) sel l))%nat) l).
  { clear. induction l as [|x l IH]; intros sel HF; cbn [foldl]; [by auto|].
    apply Forall_cons in HF as [[_ Hx] HF]. destruct (IH (longer_root clean sel x) HF) as (Hr&Hle&Hall).
    assert (Hs : (longer_root clean sel x = sel \/ longer_root clean sel x = x /\ sameOrInside clean x = true) /\
                 (String.length sel <= String.length (longer_root clean sel x))%nat /\
                 (sameOrInside clean x = true -> (String.length x <= String.length (longer_root clean sel x))%nat)).
    { unfold longer_root. rewrite Hx. destruct (sameOrInside clean x); cbn; [|split; [by left|by split]].
      destruct (Nat.leb_spec (String.length x) (String.length sel)).
      - split; [by left|by split].
      - split; [by right|]. split; [lia|done]. }
    destruct Hs as (Hs1&Hs2&Hs3).
    split; [|split; [lia|constructor; [intros Hc; specialize (Hs3 Hc); lia|done]]].
    destruct Hr as [->|[Hin Hc]]; [|right; split; [by right|done]].
    destruct Hs1 as [->|[-> Hc]]; [by left|right; split; [by left|done]]. }
  intros Hne. destruct (Hg roots "" HF) as ([Hr|[Hin Hc]]&_&Hall); [by rewrite Hr in Hne|done].
Qed.

Section Confined.
Context {H : Type} `{Machine H} `{OsRoot H} `{UnicodeCase} (R : H -> H -> Prop) `{!PreOrder R} (opened : Root -> string -> Prop).

(** Looking at the host moves it only along [R]; [opened root p]: the root
    was opened at the path [p]. *)
Class LooksKeep : Prop := {
  keep_OpenRoot p : obeys (on_st R) (OpenRoot p);
  keep_Root_Stat r p : obeys (on_st R) (Root_Stat r p);
  keep_Root_Open r p : obeys (on_st R) (Root_Open r p);
  keep_Root_Close r : obeys (on_st R) (Root_Close r);
  keep_Directory_ReadDir d n : obeys (on_st R) (Directory_ReadDir d n);
  keep_Directory_Info d e : obeys (on_st R) (Directory_Info d e);
  keep_Directory_Sync d : obeys (on_st R) (Directory_Sync d);
  keep_Directory_Close d : obeys (on_st R) (Directory_Close d);
  keep_ReadDir p : obeys (on_st R) (ReadDir p);
  keep_Lstat p : obeys (on_st R) (Lstat p);
  OpenRoot_opens E p h : wp E (OpenRoot p) (fun r _ => forall root, r = Ok root -> opened root p) h
}.
Context `{!LooksKeep}.

#[local] Hint Resolve keep_OpenRoot keep_Root_Stat keep_Root_Open keep_Root_Close keep_Directory_ReadDir
  keep_Directory_Info keep_Directory_Sync keep_Directory_Close keep_ReadDir keep_Lstat : io.

Lemma keep_candidates out roots : obeys (on_st R) (candidate_roots out roots).
Proof.
  revert out. induction roots as [|root roots IH]; intros out; cbn [candidate_roots]; cbv zeta; [apply obeys_ret, _|].
  apply obeys_bind; [apply _|apply obeys_try, keep_ReadDir|]. intros [entries|e]; [|apply IH].
  destruct (candidate_entries _ _ _) as [o []]; [apply obeys_ret, _|apply IH].
Qed.

Lemma keep_missing current parts : obeys (on_st R) (missing_below current parts).
Proof. revert current. induction parts as [|part parts IH]; intros current; cbn [missing_below]; cbv zeta; obeys_walk. Qed.

Lemma keep_boundedPathMissing root relative : obeys (on_st R) (boundedPathMissing root relative).
Proof. unfold boundedPathMissing. cbv zeta. destruct (String.eqb _ _); [apply obeys_ret, _|apply keep_missing]. Qed.

Lemma keep_openBoundedRoot path roots : obeys (on_st R) (openBoundedRoot path roots).
Proof. unfold openBoundedRoot. cbv zeta. obeys_walk. Qed.

Lemma keep_entries dir clean readRoots writeRoots entries :
  obeys (on_st R) (browse_entries dir clean readRoots writeRoots entries).
Proof. induction entries as [|entry entries IH]; cbn [browse_entries]; cbv zeta; obeys_walk. Qed.

Lemma keep_closing {A} (close : M H unit) (m : M H A) :
  obeys (on_st R) close -> obeys (on_st R) m -> obeys (on_st R) (closing close m).
Proof. intros Hc Hm. unfold closing. obeys_walk. Qed.

Lemma keep_syncRootDirectory root directory : obeys (on_st R) (syncRootDirectory root directory).
Proof. unfold syncRootDirectory. obeys_walk. Qed.

#[local] Hint Resolve keep_candidates keep_boundedPathMissing keep_openBoundedRoot keep_entries keep_closing
  keep_syncRootDirectory : io.

Lemma keep_BrowsePath m path mode limit : obeys (on_st R) (BrowsePath m path mode limit).
Proof.
  unfold BrowsePath, candidateManagedRoots. cbv zeta.
  obeys_walk; apply keep_closing; obeys_walk; apply keep_closing; obeys_walk.
Qed.

(** A root is opened below one of the list, with the rest of the path. *)
Lemma openBoundedRoot_spec E path roots h :
  Forall clean_root roots -> IsAbs path = true ->
  wp E (openBoundedRoot path roots) (fun r h' => R h h' /\ forall root selected relative, r = Ok (root, selected, relative) ->
    opened root selected /\ selected ∈ roots /\
    exists t, path_comps path = path_comps selected ++ t /\ Forall normal t /\
              relative = match t with [] => "." | _ => Join t "/" end) h.
Proof.
  intros HF Ha w Hw. split; [subst h; apply (keep_openBoundedRoot path roots)|]. revert w Hw. change (wp E (openBoundedRoot path roots)
    (fun r _ => forall root selected relative, r = Ok (root, selected, relative) ->
    opened root selected /\ selected ∈ roots /\
    exists t, path_comps path = path_comps selected ++ t /\ Forall normal t /\
              relative = match t with [] => "." | _ => Join t "/" end) h).
  unfold openBoundedRoot. cbv zeta. apply wp_guard; [done|intros Hne%String.eqb_neq].
  apply select_root_spec in Hne as (Hin&Hs&_); [|done]. revert Hin Hs. generalize (select_root (Clean path) roots).
  intros sel Hin Hs. rewrite Forall_forall in HF. destruct (HF sel Hin) as [Hsa Hsc].
  apply sameOrInside_iff in Hs; [|by rewrite IsAbs_Clean|done].
  apply wp_bind, wp_lift. destruct (Rel sel (Clean path)) as [relative|e] eqn:Er; [|done].
  apply Rel_below in Er as (t&Et&->); [|done|by rewrite IsAbs_Clean|done]. rewrite path_comps_Clean in Et by done.
  apply wp_bind. eapply wp_mono; [apply OpenRoot_opens|]. intros [root|e] h1 Ho; [|done]. apply wp_ret.
  intros root' sel' relative [= <- <- <-]. split; [by apply Ho|]. split; [done|]. exists t. split; [done|]. split; [|done].
  pose proof (path_comps_normal path Ha) as HN. rewrite Et in HN. by apply Forall_app in HN as [_ HN].
Qed.

(** The operator's two ways of looking at and adding to the writable
    tree stay inside it.  [BrowsePath] changes nothing on the host;
    [CreateDirectory] makes a directory only through a root opened at one of
    the administrator's writable roots, by a relative path of plain names
    (no [..], nothing that leads back out) that leads from there to the
    requested parent and ends in the requested name.  [R] is any relation on
    the states of the host that looking keeps ([LooksKeep]) and that such a
    [Mkdir] keeps. *)
Theorem directories_confined (m : ConfigManager H) (parent name : string) (Hwf : wf_manager m)
    (Hmkdir : forall E root maximum comps h,
       opened root maximum -> maximum ∈ cm_maximumRoots m -> Forall normal comps -> normal (TrimSpace name) ->
       path_comps (Clean (TrimSpace parent)) = path_comps maximum ++ comps ->
       wp E (Root_Mkdir root (Join (comps ++ [TrimSpace name]) "/") 488) (fun _ h' => R h h') h) :
  obeys (on_st R) (CreateDirectory m parent name) /\
  forall path mode limit, obeys (on_st R) (BrowsePath m path mode limit).
Proof.
  split; [|intros; apply keep_BrowsePath]. apply wp_obeys. intros E s. unfold CreateDirectory. cbv zeta.
  apply wp_guard; [done|intros Ha%negb_false_iff]. apply wp_guard; [done|intros Hn%negb_false_iff].
  apply safeDirectoryName_normal in Hn. destruct Hwf as (_&Hm&_). apply manageable_clean in Hm.
  apply wp_bind, wp_try. eapply wp_mono; [by apply openBoundedRoot_spec|].
  intros [[[root selected] relative]|e] h1 [HR Ho]; cbn beta iota; [|by apply wp_throw].
  destruct (Ho root selected relative eq_refl) as (Hop&Hin&t&Et&Ht&->).
  unfold closing. apply wp_bind, wp_try.
  eapply (wp_mono _ _ (fun _ h' => R s h')).
  2: { intros r h2 HR2. apply wp_bind, wp_try. eapply wp_mono; [by apply obeys_wp, keep_Root_Close|].
       intros r' h3 HR3. apply wp_lift. by etrans. }
  apply wp_bind. eapply wp_mono; [by apply obeys_wp, keep_Root_Stat|]. intros [info|e] h2 HR2; [|by etrans].
  assert (R2 : R s h2) by (by etrans).
  apply wp_guard; [done|intros _]. apply wp_guard; [done|intros _]. rewrite join_relative by done.
  apply wp_bind. eapply wp_mono; [by eapply Hmkdir|]. intros [[]|e] h3 HR3; [|by etrans].
  assert (R3 : R s h3) by (by etrans).
  apply wp_bind. eapply wp_mono; [by apply obeys_wp, keep_syncRootDirectory|]. intros [[]|e] h4 HR4; [|by etrans].
  eapply wp_mono; [by apply obeys_wp, keep_BrowsePath|]. intros r h5 HR5. etrans; [done|]. by etrans.
Qed.
End Confined.

(** ** A host to run on *)
Module Lab.

(** The host remembers the directories made below an opened root; its
    paths lead to themselves. *)
Definition Made : Type := list (string * string).
Definition dir_info : FileInfo := MkFileInfo 0 100 (ModeDir + 493) (Some 9).

#[export] Instance lab_case : UnicodeCase := fun r => r.

#[export] Instance lab_machine : Machine Made := {|
  ReadFile := fun _ => throw (ESys ENOENT);
  ReadDir := fun _ => throw (ESys ENOENT);
  Readlink := fun _ => throw (ESys ENOENT);
  EvalSymlinks := fun p => ret (Clean p);
  Lstat := fun _ => ret dir_info;
  Stat := fun _ => ret dir_info;
  RunCommand := fun _ _ => throw (ESys ENOENT);
  SendSignal := fun _ _ => throw (ESys ESRCH)
|}.

#[export] Instance lab_links : LinksOk Made.
Proof. intros E p h Hp. apply wp_ret. intros q [= <-]. by apply clean_root_Clean. Qed.

#[export] Instance lab_roots : OsRoot Made := {|
  Root := string;
  Directory := string;
  OpenRoot := fun p => ret p;
  Root_Stat := fun _ _ => ret dir_info;
  Root_Open := fun _ p => ret p;
  Root_Mkdir := fun root p _ => modify (fun made => made ++ [(root, p)]);
  Root_Close := fun _ => ret tt;
  Directory_ReadDir := fun _ _ => ret [];
  Directory_Info := fun _ _ => ret dir_info;
  Directory_Sync := fun _ => ret tt;
  Directory_Close := fun _ => ret tt
|}.

Definition admin : Config :=
  MkConfig 1 [] [] ["/srv/lab"; "/srv/quarantine"] ["/srv/lab"] "/srv/quarantine" [].

(** A yaml package that knows the documents of the examples. *)
Definition documents : list (string * list string) :=
  [("lab", ["/srv/lab"]); ("a", ["/srv/lab/a"]); ("root", ["/"])].

#[export] Instance lab_yaml : ConfigYaml := {|
  Unmarshal_Config := fun b => if String.eqb b "admin" then Ok admin else Err (EMsg "yaml");
  Marshal_Config := fun _ => Err (EMsg "yaml");
  Unmarshal_managedRoots := fun b =>
    match find (fun d => String.eqb d.1 b) documents with
    | Some d => Ok (MkManagedRootsConfig 1 d.2)
    | None => Err (EMsg "yaml")
    end;
  Marshal_managedRoots := fun c =>
    match find (fun d => (mrc_SchemaVersion c =? 1) && bool_decide (mrc_ManagedRoots c = d.2)) documents with
    | Some d => Ok d.1
    | None => Err (EMsg "yaml")
    end
|}.

#[export] Instance lab_yaml_ok : ConfigYamlOk.
Proof.
  intros [v roots] b. cbn -[String.eqb Z.eqb]. unfold documents. cbn [find fst snd].
  destruct (Z.eqb_spec v 1) as [->|]; cbn [andb]; [|done].
  repeat (case_bool_decide; [subst; by intros [= <-]|]). done.
Qed.

Definition lab_readers : LinuxTargets Made := MkLinuxTargets "/proc" 4096 None "/bin/systemctl" [].
Definition state_path : string := "/var/lib/safeops/state/executor_allowlist.yaml".
Definition calm_env : Env := calm 7 "".
Definition installed : Hosted Made := MkHosted [] {["/etc/executor.yaml" := MkStoredFile "admin" 420 1]}.

(** The operator narrows the roots, asks for too much, and the server
    restarts. *)
Definition narrowed : option (ConfigManager Made) * Hosted Made :=
  allowlist_run lab_readers
    [(calm_env, Started "/etc/executor.yaml" state_path);
     (calm_env, Updated [" /srv/lab/x/../a "]);
     (calm_env, Updated ["/srv"]);
     (calm_env, Updated ["/srv/quarantine/b"]);
     (calm_env, DirectoryCreated "/srv/lab/a" "new");
     (calm_env, DirectoryCreated "/srv/lab/a" "..");
     (calm_env, Started "/etc/executor.yaml" state_path)] None installed.

Example narrowed_roots :
  option_map (fun m => cfg_LabFileRoots (cm_config m)) narrowed.1 = Some ["/srv/lab/a"] /\
  option_map (fun m => option_map mt_allowedFileRoots (cm_targets m)) narrowed.1
    = Some (Some ["/srv/lab/a"; "/srv/quarantine"]) /\
  ho_host narrowed.2 = [("/srv/lab", "a/new")].
Proof. vm_compute. repeat split. Qed.

Definition m0 : ConfigManager Made := default (MkConfigManager "" admin [] None) narrowed.1.

Lemma managed_roots_confined_witness :
  exists config t, accepted (H := Made) config /\ cm_targets m0 = Some t /\
    (forall root, root ∈ cfg_LabFileRoots (cm_config m0) ->
       below (cfg_LabFileRoots config) root /\ path_comps root <> [] /\ apart root (cfg_QuarantineRoot config)) /\
    (forall path, IsAbs path = true ->
       (withinRoots path (lt_AllowedFileRoots (snapshotter t)) = true <->
        below (cfg_LabFileRoots (cm_config m0) ++ [cfg_QuarantineRoot config]) path) /\
       (withinRoots path (lt_AllowedFileRoots (snapshotter t)) = true ->
        below (cfg_LabFileRoots config ++ [cfg_QuarantineRoot config]) path)).
Proof.
  apply (managed_roots_confined lab_readers
    [(calm_env, Started "/etc/executor.yaml" state_path);
     (calm_env, Updated [" /srv/lab/x/../a "]);
     (calm_env, Updated ["/srv"]);
     (calm_env, Updated ["/srv/quarantine/b"]);
     (calm_env, DirectoryCreated "/srv/lab/a" "new");
     (calm_env, DirectoryCreated "/srv/lab/a" "..");
     (calm_env, Started "/etc/executor.yaml" state_path)] installed m0).
  vm_compute. reflexivity.
Defined.

(** Everything below [/srv/lab], by plain names. *)
Definition grows (made made' : Made) : Prop :=
  exists new, made' = made ++ new /\
    Forall (fun d => d.1 = "/srv/lab" /\ exists comps, Forall normal comps /\ d.2 = Join comps "/") new.

#[export] Instance grows_preorder : PreOrder grows.
Proof.
  split; [intros made; exists []; by rewrite app_nil_r|].
  intros a b c (n1&->&F1) (n2&->&F2). exists (n1 ++ n2). split; [by rewrite app_assoc|]. by apply Forall_app.
Qed.

Definition opened_at (root p : string) : Prop := root = p.

#[export] Instance lab_looks : LooksKeep (H1 := lab_roots) grows opened_at.
Proof.
  split; intros; try (intros w Hw; cbn; by intros ? [= <-]); intros E0 w; unfold on_st; cbn; reflexivity.
Qed.

Lemma m0_wf : wf_manager m0.
Proof.
  pose proof (allowlist_run_serves lab_readers
    [(calm_env, Started "/etc/executor.yaml" state_path);
     (calm_env, Updated [" /srv/lab/x/../a "]);
     (calm_env, Updated ["/srv"]);
     (calm_env, Updated ["/srv/quarantine/b"]);
     (calm_env, DirectoryCreated "/srv/lab/a" "new");
     (calm_env, DirectoryCreated "/srv/lab/a" "..");
     (calm_env, Started "/etc/executor.yaml" state_path)] None installed m0) as Hm.
  destruct Hm as (config&_&Hs&_); [done|vm_compute; reflexivity|done].
Qed.

Lemma directories_confined_witness :
  obeys (on_st grows) (CreateDirectory m0 "/srv/lab/a" "new") /\
  forall path mode limit, obeys (on_st grows) (BrowsePath m0 path mode limit).
Proof.
  apply (directories_confined (H1 := lab_roots) grows opened_at m0 "/srv/lab/a" "new" m0_wf).
  intros E root maximum comps h -> Hin Hc Hn _. apply wp_modify. exists [(maximum, Join (comps ++ [TrimSpace "new"]) "/")].
  split; [done|]. constructor; [|done]. split; [by apply list_elem_of_singleton in Hin|].
  exists (comps ++ [TrimSpace "new"]). split; [|done]. apply Forall_app. split; [done|by constructor].
Defined.

(** The directory cannot be synced after the rename. *)
Definition sync_fails : Env := MkEnv (fun _ => 7) (fun n => if (n =? 10)%nat then Some EIO else None) (fun _ => "") (fun _ => None) (fun _ => 0%nat).

Definition first_start : option (ConfigManager Made) * Hosted Made :=
  allowlist_run lab_readers [(calm_env, Started "/etc/executor.yaml" state_path)] None installed.
Definition m1 : ConfigManager Made := default (MkConfigManager "" admin [] None) first_start.1.

(** An update that was answered with an error is in force after the next
    start, while the running server refuses what it allows. *)
Example refused_update_takes_effect :
  (UpdateManagedRoots m1 ["/srv/lab/a"] sync_fails (init_world first_start.2)).1 = Err (ESys EIO) /\
  option_map (fun m => cfg_LabFileRoots (cm_config m))
    (allowlist_run lab_readers [(sync_fails, Updated ["/srv/lab/a"])] (Some m1) first_start.2).1 = Some ["/srv/lab"] /\
  option_map (fun m => cfg_LabFileRoots (cm_config m))
    (allowlist_run lab_readers [(sync_fails, Updated ["/srv/lab/a"]); (calm_env, Started "/etc/executor.yaml" state_path)]
       (Some m1) first_start.2).1 = Some ["/srv/lab/a"].
Proof. vm_compute. repeat split. Qed.

Lemma m1_wf : wf_manager m1.
Proof.
  pose proof (allowlist_run_serves lab_readers [(calm_env, Started "/etc/executor.yaml" state_path)] None installed m1) as Hm.
  destruct Hm as (config&_&Hs&_); [done|vm_compute; reflexivity|done].
Qed.

Lemma managed_roots_durable_witness :
  restarts_with m1 (ho_files (st (UpdateManagedRoots m1 ["/srv/lab/a"] sync_fails (init_world first_start.2)).2)) \/
  (exists no, ESys EIO = ESys no) /\ exists m', asked m1 ["/srv/lab/a"] m' /\
    restarts_with m' (ho_files (st (UpdateManagedRoots m1 ["/srv/lab/a"] sync_fails (init_world first_start.2)).2)).
Proof.
  pose proof (managed_roots_durable sync_fails m1 ["/srv/lab/a"] (init_world first_start.2) m1_wf) as Ht.
  destruct (UpdateManagedRoots m1 ["/srv/lab/a"] sync_fails (init_world first_start.2)) as [r w'] eqn:Eu.
  assert (Er : r = Err (ESys EIO)).
  { change r with (r, w').1. rewrite <- Eu. apply refused_update_takes_effect. }
  subst r. apply Ht.
  - right. vm_compute. split; reflexivity.
  - vm_compute. reflexivity.
  - repeat constructor; intros; vm_compute; reflexivity.
  - intros normalized (E&w&w1&En). vm_compute in En. injection En as <- _. repeat constructor.
Defined.
End Lab.
