(* ===== verification/Trace.v ===== *)
(** * [internal/trace/trace.go]: the hash-chained audit log

    Each task has a file of one JSON event per line and a head file that
    counts the committed events.  The model keeps the bytes of the event
    file and what the head file decodes to ([None] for bytes that do not
    decode); an append can stop at every system call and after any number
    of bytes of its write.

    Events are kept with their timestamp and payload as the texts
    [json.Marshal] gives.  What [json.Unmarshal] makes of a line is the
    class [EventDecoder]: it gives back the event on the lines [Append]
    writes; on other texts nothing but valid UTF-8 is assumed of it.
    The regular expressions of [redactValue] are the class
    [SecretPatterns]. *)

From S2P Require Import Prelude GoStrings GoText Json Hash Contracts.
Open Scope Z_scope.

(** ** Data *)

Definition DecisionRecorded : string := "DECISION_RECORDED".

Record Event := MkEvent {
  ev_Sequence : Z;
  ev_Timestamp : string;
  ev_Type : string;
  ev_TaskID : string;
  ev_SessionID : string;
  ev_Data : string;
  ev_PrevHash : string;
  ev_EventHash : string
}.

Record head := MkHead {
  hd_Count : Z;
  hd_Hash : string
}.

#[export] Instance head_eq_dec : EqDecision head.
Proof. solve_decision. Defined.

Definition no_head : head := MkHead 0 "".

(** The files of one task. *)
Record TaskFiles := MkTaskFiles {
  tf_data : option string;
  tf_head : option (option head)
}.

Definition set_data (b : string) (f : TaskFiles) : TaskFiles := MkTaskFiles (Some b) (tf_head f).
Definition set_head (h : head) (f : TaskFiles) : TaskFiles := MkTaskFiles (tf_data f) (Some (Some h)).

(** ** Encoding *)

(** A JSON object of texts that are JSON already. *)
Definition raw_obj (l : list (string * string)) : string :=
  "{" +:+ Join (map (fun kv => quote kv.1 +:+ ":" +:+ kv.2) l) "," +:+ "}".

(** The fields of [canonicalEvent]; [Event] has two more. *)
Definition canonical_fields (e : Event) : list (string * string) :=
  [("sequence", show_Z (ev_Sequence e)); ("timestamp", quote (ev_Timestamp e)); ("type", quote (ev_Type e));
   ("task_id", quote (ev_TaskID e)); ("session_id", quote (ev_SessionID e)); ("data", ev_Data e)].

Definition canonical_text (e : Event) : string := raw_obj (canonical_fields e).

Definition event_line (e : Event) : string :=
  raw_obj (canonical_fields e ++ [("prev_hash", quote (ev_PrevHash e)); ("event_hash", quote (ev_EventHash e))]).

(** [sha256.Sum256(append([]byte(previous), canonical...))] in hexadecimal *)
Definition event_hash (previous : string) (e : Event) : string := sha256_hex (previous +:+ canonical_text e).

#[global] Arguments canonical_text : simpl never.
#[global] Arguments event_line : simpl never.
#[global] Arguments event_hash : simpl never.

Class EventDecoder := Unmarshal : string -> result Event.

(** ** Reading *)

(** [scanner.Buffer(..., 4*1024*1024)]: a line and its newline must fit. *)
Definition maxLine : Z := 4 * 1024 * 1024.

Fixpoint scan_events (l : list string) : list string * bool :=
  match l with
  | [] => ([], false)
  | x :: l =>
    if maxLine <=? Z.of_nat (String.length x) then ([], true)
    else let '(out, long) := scan_events l in (drop_cr x :: out, long)
  end.

(** The loop of [parseEvents]; [hashes] are the [EventHash]es of the events
    it returns. *)
Fixpoint parse_lines `{EventDecoder} (taskID : string) (sequence : Z) (previous : string) (long : bool)
    (lines : list string) : result (list Event) :=
  match lines with
  | [] => if long then Err (EMsg "bufio.Scanner: token too long") else Ok []
  | line :: lines =>
    let? event := wrap_err ("event " +:+ show_Z sequence +:+ " decode: ") (Unmarshal line) in
    fail_if negb (ev_Sequence event =? sequence)
    with EMsg ("event sequence mismatch at " +:+ show_Z sequence) ;;
    fail_if negb (String.eqb (ev_TaskID event) taskID)
    with EMsg ("event " +:+ show_Z sequence +:+ " task mismatch") ;;
    fail_if negb (String.eqb (ev_PrevHash event) previous)
    with EMsg ("event " +:+ show_Z sequence +:+ " previous hash mismatch") ;;
    fail_if negb (String.eqb (ev_EventHash event) (event_hash previous event))
    with EMsg ("event " +:+ show_Z sequence +:+ " hash mismatch") ;;
    let? events := parse_lines taskID (sequence + 1) (ev_EventHash event) long lines in
    Ok (event :: events)
  end.

Definition parseEvents `{EventDecoder} (taskID data : string) : result (list Event) :=
  let '(lines, long) := scan_events (without_last_empty (Split newline data)) in
  parse_lines taskID 1 "" long lines.

(** [data[len(data)-1] != '\n'] *)
Definition ends_with_newline (data : string) : bool := HasSuffix data (String newline "").

Definition validID (id : string) : result unit :=
  fail_if String.eqb id "" || ContainsAny id "/\" || String.eqb id "." || String.eqb id ".."
  with EMsg "invalid trace id" ;; Ok tt.

(** [w.readHead]: the size of the event file decides what a missing head
    means. *)
Definition readHead : M TaskFiles head :=
  b <- try_ (sys (fun f => match tf_head f with None => Err (ESys ENOENT) | Some h => Ok (h, f) end)) ;;
  match b with
  | Err e =>
    if errors_is e ENOENT then
      info <- try_ (sys (fun f => match tf_data f with None => Err (ESys ENOENT) | Some b => Ok (b, f) end)) ;;
      match info with
      | Ok data => if (0 <? String.length data)%nat then throw (EMsg "trace head is missing while event data exists")
                   else ret no_head
      | Err e => if errors_is e ENOENT then ret no_head else throw e
      end
    else throw e
  | Ok None => throw (EMsg "json: cannot unmarshal trace head")
  | Ok (Some h) => ret h
  end.

Definition readData : M TaskFiles string :=
  sys (fun f => match tf_data f with None => Err (ESys ENOENT) | Some b => Ok (b, f) end).

(** [atomicJSON]: create, chmod, write, sync, close; rename; open and sync
    the directory. *)
Definition atomicJSON (h : head) : M TaskFiles unit := atomic_write 5 2 (set_head h).

(** Open; truncate; sync, close, open and sync the directory. *)
Definition truncateAndSync (size : nat) : M TaskFiles unit :=
  probe ;;;
  sys (fun f => Ok (tt, MkTaskFiles (take_bytes size <$> tf_data f) (tf_head f))) ;;;
  probes 4.

(** [bytes.LastIndexByte(data, '\n') + 1] *)
Definition last_line_start (data : string) : nat :=
  match LastIndexByte data newline with Some i => S i | None => 0%nat end.

Definition last_hash (events : list Event) : string := default "" (ev_EventHash <$> last events).

Definition readEvents `{EventDecoder} (taskID : string) : M TaskFiles (list Event) :=
  data <- readData ;;
  lift (guard_ ((0 <? String.length data)%nat && negb (ends_with_newline data))
          (EMsg "trace has an incomplete crash tail")) ;;;
  lift (parseEvents taskID data).

(** ** Recovery *)

(** Lines 264-273: the committed prefix against the head. *)
Definition check_prefix (h : head) (events : list Event) : result unit :=
  fail_if Z.of_nat (length events) <? hd_Count h with EMsg "trace event data is shorter than the committed head" ;;
  if hd_Count h =? 0 then
    fail_if negb (String.eqb (hd_Hash h) "") with EMsg "zero trace head has a non-empty hash" ;; Ok tt
  else
    fail_if negb (String.eqb (default "" (ev_EventHash <$> events !! Z.to_nat (hd_Count h - 1))) (hd_Hash h))
    with EMsg "committed trace prefix does not match the head" ;; Ok tt.

Definition recoverLocked `{EventDecoder} (taskID : string) : M TaskFiles head :=
  h <- readHead ;;
  read <- try_ readData ;;
  match read with
  | Err e =>
    if errors_is e ENOENT then
      lift (guard_ (negb (hd_Count h =? 0) || negb (String.eqb (hd_Hash h) ""))
              (EMsg "trace head exists but event data is missing")) ;;;
      ret h
    else throw e
  | Ok data =>
    let needsTruncate := (0 <? String.length data)%nat && negb (ends_with_newline data) in
    let truncateAt := if needsTruncate then last_line_start data else String.length data in
    events <- lift (parseEvents taskID (take_bytes truncateAt data)) ;;
    lift (check_prefix h events) ;;;
    (if needsTruncate then truncateAndSync truncateAt else ret tt) ;;;
    if hd_Count h <? Z.of_nat (length events) then
      let h := MkHead (Z.of_nat (length events)) (last_hash events) in
      atomicJSON h ;;;
      ret h
    else ret h
  end.

(** ** Payloads *)

(** [bearerPattern], [openAIKeyPattern] and [assignmentPattern] as the
    regular-expression engine replaces them; the last one calls back. *)
Class SecretPatterns := {
  replace_bearer : string -> string;
  replace_openai : string -> string;
  replace_assignment : (string -> string) -> string -> string
}.

Definition remove_bytes (set : string) (s : string) : string :=
  string_of_list_ascii (List.filter (fun c => negb (ContainsAny (String c "") set)) (list_ascii_of_string s)).

Definition sensitive_names : list string :=
  ["token"; "accesstoken"; "refreshtoken"; "idtoken"; "authorization"; "cookie"; "setcookie"; "apikey"; "password";
   "passwd"; "secret"; "clientsecret"; "chainofthought"; "hiddenreasoning"; "reasoningcontent"; "cot"].

Definition sensitiveKey `{UnicodeCase} (key : string) : bool :=
  let normalized := remove_bytes "_-. " (ToLower key) in
  string_in normalized sensitive_names
  || Contains normalized "password" || Contains normalized "secret" || HasSuffix normalized "token".

(** [strings.IndexAny(match, ":=")] *)
Fixpoint index_separator (s : string) : option nat :=
  match s with
  | "" => None
  | String c s => if Ascii.eqb c ":" || Ascii.eqb c "=" then Some 0%nat else S <$> index_separator s
  end.

Definition hide_assignment (m : string) : string :=
  match index_separator m with
  | None => "[REDACTED]"
  | Some separator => TrimSpace (take_bytes separator m) +:+ "=[REDACTED]"
  end.

Definition redact_text `{SecretPatterns} (s : string) : string :=
  replace_assignment hide_assignment (replace_openai (replace_bearer s)).

Definition REDACTED : json := JStr "[REDACTED]".

(** Decoding into [map[string]any] keeps the last of equal keys; encoding a
    map sorts them. *)
Definition of_fields (l : list (string * json)) : gmap string json := list_to_map (rev l).

Fixpoint redactValue `{UnicodeCase} `{SecretPatterns} (value : json) : json :=
  match value with
  | JObj fields => JMap (of_fields (map (fun kv => (kv.1, if sensitiveKey kv.1 then REDACTED else redactValue kv.2)) fields))
  | JArr l => JArr (map redactValue l)
  | JStr s => JStr (redact_text s)
  | _ => value
  end.

Definition decision_defaults : list (string * json) :=
  [("plan_version", JInt 1); ("objective", JStr ""); ("current_step", JStr "");
   ("decision_summary", JStr "structured workflow decision"); ("candidate_hypotheses", JArr []);
   ("selected_hypothesis", JStr ""); ("rejected_hypotheses", JArr []); ("evidence_used", JArr []);
   ("evidence_missing", JArr []); ("selected_tool", JStr ""); ("tool_arguments_digest", JStr "");
   ("expected_observation", JStr ""); ("completion_assessment", JStr ""); ("replan_reason", JStr "")].

Definition with_default (record : gmap string json) (kv : string * json) : gmap string json :=
  match record !! kv.1 with None => <[kv.1 := kv.2]> record | Some _ => record end.

Definition digest_arguments (record : gmap string json) (key : string) : gmap string json :=
  match record !! key with
  | None => record
  | Some arguments => delete key (<["tool_arguments_digest" := JStr (sha256_hex (print arguments))]> record)
  end.

Definition normalizeDecision (taskID : string) (sequence : Z) (value : json) : gmap string json :=
  let record := match value with
                | JObj fields => of_fields fields
                | _ => {[ "decision_summary" := JStr "structured workflow decision" ]}
                end in
  let record := <["decision_id" := JStr ("decision_" +:+ taskID +:+ "_" +:+ show_Z sequence)]> record in
  let record := <["task_id" := JStr taskID]> record in
  let record := foldl with_default record decision_defaults in
  foldl digest_arguments record ["tool_arguments"; "arguments"].

(** [data] is what [json.Marshal] gives for the payload. *)
Definition payload_json `{UnicodeCase} `{SecretPatterns} (taskID : string) (sequence : Z) (typ : string) (data : json) : json :=
  let value := redactValue data in
  if String.eqb typ DecisionRecorded then JMap (normalizeDecision taskID sequence value) else value.

Definition marshalPayload `{UnicodeCase} `{SecretPatterns} (taskID : string) (sequence : Z) (typ : string)
    (data : result json) : result string :=
  let? data := data in Ok (print (payload_json taskID sequence typ data)).

(** ** Operations on one task *)
Section Writer.
Context `{EventDecoder} `{UnicodeCase} `{SecretPatterns} `{TimeText}.

(** [f.Write(encodedLine)] in append mode. *)
Definition append_bytes (line : string) : M TaskFiles unit :=
  sys_torn (fun f => (tt, set_data (default "" (tf_data f) +:+ line) f))
           (fun k f => set_data (default "" (tf_data f) +:+ take_bytes k line) f).

(** Lines 153-159: a first append writes an empty head before any event. *)
Definition ensure_head : M TaskFiles unit :=
  stat <- try_ (sys (fun f => match tf_head f with None => Err (ESys ENOENT) | Some _ => Ok (tt, f) end)) ;;
  match stat with
  | Err e => if errors_is e ENOENT then atomicJSON no_head else throw e
  | Ok _ => ret tt
  end.

Definition Append (taskID sessionID typ : string) (data : result json) : M TaskFiles Event :=
  ctx_check ;;;
  lift (validID taskID) ;;;
  h <- recoverLocked taskID ;;
  ensure_head ;;;
  payload <- lift (marshalPayload taskID (hd_Count h + 1) typ data) ;;
  t <- now ;;
  let unsealed := MkEvent (hd_Count h + 1) (time_text t) typ taskID sessionID payload (hd_Hash h) "" in
  let event := MkEvent (hd_Count h + 1) (time_text t) typ taskID sessionID payload (hd_Hash h)
                 (event_hash (hd_Hash h) unsealed) in
  sys (fun f => Ok (tt, set_data (default "" (tf_data f)) f)) ;;;
  append_bytes (event_line event +:+ String newline "") ;;;
  probe ;;;
  probe ;;;
  probes 2 ;;;
  atomicJSON (MkHead (ev_Sequence event) (ev_EventHash event)) ;;;
  ret event.

Definition VerifyIntegrity (taskID : string) : M TaskFiles unit :=
  lift (validID taskID) ;;;
  events <- readEvents taskID ;;
  expectedHead <- readHead ;;
  lift (guard_ (negb (hd_Count expectedHead =? Z.of_nat (length events))
                || negb (String.eqb (hd_Hash expectedHead) (last_hash events)))
          (EMsg "trace head does not match event chain; an event may have been deleted or reordered")).

Definition Read (taskID : string) : M TaskFiles (list Event) :=
  lift (validID taskID) ;;;
  readEvents taskID.

(** *** The directory of all tasks *)
Abbreviation TraceDir := (gmap string TaskFiles).

Definition on_task {A} (taskID : string) (p : M TaskFiles A) : M TraceDir A :=
  zoom (fun d => default (MkTaskFiles None None) (d !! taskID)) (fun f d => <[taskID := f]> d) p.

(** [NewWriter] recovers every task that has a file; the order of a Go map
    is left open, here it is that of [elements]. *)
Definition NewWriter : M TraceDir unit :=
  probe ;;;
  names <- sys (fun d => Ok (elements (dom d), d)) ;;
  mapM (fun taskID =>
    lift (validID taskID) ;;;
    wrapping ("recover trace " +:+ taskID +:+ ": ") (on_task taskID (recoverLocked taskID))) names ;;;
  ret tt.
End Writer.

(** ** Lemmas *)

(** *** JSON texts have no raw newline *)
Definition not_newline (c : ascii) : bool := negb (Ascii.eqb c newline).
Definition one_line (s : string) : Prop := all_bytes not_newline s = true.

Lemma one_line_app a b : one_line (a +:+ b) <-> one_line a /\ one_line b.
Proof. unfold one_line. rewrite all_bytes_app, andb_true_iff. done. Qed.

Lemma high_not_newline c : (code c <? 128)%N = false -> not_newline c = true.
Proof. unfold not_newline. destruct (Ascii.eqb_spec c newline) as [->|]; done. Qed.

Lemma one_line_escape c : one_line (escape_ascii c).
Proof. destruct c as [[][][][][][][][]]; vm_compute; reflexivity. Qed.

Lemma one_line_quote_body s : one_line (quote_body s).
Proof.
  remember (String.length s) as n eqn:En. revert s En. induction (lt_wf n) as [n _ IH]. intros s ->.
  assert (Sub : forall t, (String.length t < String.length s)%nat -> one_line (quote_body t)) by (intros t Ht; by eapply IH).
  assert (Inv : forall t, (String.length t < String.length s)%nat -> one_line (invalid_rune +:+ quote_body t))
    by (intros t Ht; apply one_line_app; split; [done|by apply Sub]).
  destruct s as [|a s]; [done|]. cbn [quote_body].
  destruct (code a <? 128)%N eqn:Ha; [apply one_line_app; split; [apply one_line_escape|apply Sub; cbn; lia]|].
  pose proof (high_not_newline a Ha) as Na.
  destruct (in_range 194 223 (code a)).
  { destruct s as [|b s]; [done|]. destruct (cont b) eqn:Cb; [|apply Inv; cbn; lia].
    apply one_line_app. split; [|apply Sub; cbn; lia]. unfold one_line. cbn. by rewrite Na, (high_not_newline b (cont_high b Cb)). }
  destruct (in_range 224 239 (code a)).
  { destruct s as [|b [|c s]]; try (apply Inv; cbn; lia).
    destruct (second3 a b && cont c) eqn:E; [|apply Inv; cbn; lia]. apply andb_true_iff in E as [E2 E3].
    apply one_line_app. split; [|apply Sub; cbn; lia]. unfold one_line, escape3.
    destruct (_ && _ && _); [done|]. destruct (_ && _ && _); [done|]. cbn.
    by rewrite Na, (high_not_newline b (second3_high a b E2)), (high_not_newline c (cont_high c E3)). }
  destruct (in_range 240 244 (code a)); [|apply Inv; cbn; lia].
  destruct s as [|b [|c [|d s]]]; try (apply Inv; cbn; lia).
  destruct (second4 a b && cont c && cont d) eqn:E; [|apply Inv; cbn; lia].
  apply andb_true_iff in E as [[E2 E3]%andb_true_iff E4].
  apply one_line_app. split; [|apply Sub; cbn; lia]. unfold one_line. cbn.
  by rewrite Na, (high_not_newline b (second4_high a b E2)), (high_not_newline c (cont_high c E3)), (high_not_newline d (cont_high d E4)).
Qed.

Lemma one_line_quote s : one_line (quote s).
Proof. unfold quote, one_line. cbn. rewrite all_bytes_app. cbn. by rewrite (one_line_quote_body s). Qed.

Lemma one_line_Join l sep : one_line sep -> Forall one_line l -> one_line (Join l sep).
Proof.
  intros Hs Hl. induction Hl as [|x l Hx Hl IH]; [done|]. destruct l as [|y l]; [done|].
  change (Join (x :: y :: l) sep) with (x +:+ sep +:+ Join (y :: l) sep). rewrite !one_line_app. done.
Qed.

Lemma one_line_num s : all_bytes num_char s = true -> one_line s.
Proof.
  unfold one_line. induction s as [|c s IH]; cbn; [done|]. intros [Hc Hs]%andb_true_iff. rewrite (IH Hs), andb_true_r.
  unfold not_newline. destruct (Ascii.eqb_spec c newline) as [->|]; [discriminate Hc|done].
Qed.

Lemma one_line_print j : wf_json j = true -> one_line (print j).
Proof.
  induction j as [|b|lit|s|l IH|l IH] using json_ind_nested; cbn; intros Hw; try done.
  - by destruct b.
  - by apply one_line_num, num_lit_bytes.
  - apply one_line_quote.
  - apply (one_line_app "["). split; [done|]. apply one_line_app. split; [|done]. apply one_line_Join; [done|].
    rewrite Forall_map. rewrite forallb_forall in Hw. rewrite Forall_forall in IH |- *. intros x Hx. apply IH; [done|].
    by apply Hw, list_elem_of_In.
  - apply (one_line_app "{"). split; [done|]. apply one_line_app. split; [|done]. apply one_line_Join; [done|].
    rewrite Forall_map. rewrite forallb_forall in Hw. rewrite Forall_forall in IH |- *. intros x Hx.
    specialize (Hw x (proj1 (list_elem_of_In _ _) Hx)). apply andb_true_iff in Hw as [_ Hw].
    apply one_line_app. split; [apply one_line_quote|]. apply (one_line_app ":"). split; [done|]. by apply IH.
Qed.

Lemma one_line_show_Z z : one_line (show_Z z).
Proof. apply one_line_num, num_lit_bytes, num_lit_show_Z. Qed.

Lemma one_line_event e : one_line (ev_Data e) -> one_line (event_line e).
Proof.
  intros Hd. unfold event_line, raw_obj. apply (one_line_app "{"). split; [done|]. apply one_line_app. split; [|done].
  apply one_line_Join; [done|]. cbn [canonical_fields app map fst snd].
  repeat constructor; (apply one_line_app; split; [apply one_line_quote|apply (one_line_app ":"); split; [done|]]);
    auto using one_line_quote, one_line_show_Z.
Qed.

(** *** Lines of a text *)
Lemma Split_line x rest : one_line x -> Split newline (x +:+ String newline rest) = x :: Split newline rest.
Proof.
  unfold one_line, not_newline. induction x as [|c x IH]; [done|]. cbn [all_bytes String.append].
  intros [Hc Hx]%andb_true_iff. change (Split newline (String c (x +:+ String newline rest))) with
    (if Ascii.eqb c newline then "" :: Split newline (x +:+ String newline rest)
     else match Split newline (x +:+ String newline rest) with [] => [String c ""] | w :: ws => String c w :: ws end).
  apply negb_true_iff in Hc. by rewrite Hc, IH.
Qed.

Lemma Split_not_nil c s : Split c s <> [].
Proof. destruct s as [|d s]; cbn; [done|]. destruct (Ascii.eqb d c); [done|]. by destruct (Split c s). Qed.

Definition as_line (e : Event) : string := event_line e +:+ String newline "".
Definition log_text (log : list Event) : string := foldr (fun e t => as_line e +:+ t) "" log.

Lemma log_text_app a b : log_text (a ++ b) = log_text a +:+ log_text b.
Proof.
  induction a as [|e a IH]; [done|]. change (log_text ((e :: a) ++ b)) with (as_line e +:+ log_text (a ++ b)).
  by rewrite IH, <- string_app_assoc.
Qed.

Lemma lines_of_log log :
  Forall (fun e => one_line (ev_Data e)) log ->
  without_last_empty (Split newline (log_text log)) = map event_line log.
Proof.
  induction 1 as [|e log He Hl IH]; [done|]. cbn [log_text foldr map]. fold (log_text log). unfold as_line.
  rewrite string_app_assoc. change (String newline "" +:+ log_text log) with (String newline (log_text log)).
  rewrite Split_line by by apply one_line_event.
  rewrite <- IH. pose proof (Split_not_nil newline (log_text log)) as Hn. by destruct (Split newline (log_text log)).
Qed.

Lemma drop_cr_event e : drop_cr (event_line e) = event_line e.
Proof.
  unfold drop_cr, TrimSuffix, event_line, raw_obj.
  set (b := Join _ ","). replace (HasSuffix _ _) with false; [done|]. symmetry.
  unfold HasSuffix. rewrite !string_rev_app. cbn. reflexivity.
Qed.

Definition fits (e : Event) : Prop := Z.of_nat (String.length (event_line e)) < maxLine.
#[export] Instance fits_dec e : Decision (fits e).
Proof. unfold fits. apply _. Defined.

Lemma scan_fitting log : Forall fits log -> scan_events (map event_line log) = (map event_line log, false).
Proof.
  induction 1 as [|e log He Hl IH]; [done|]. cbn [map scan_events]. unfold fits in He. rewrite (proj2 (Z.leb_gt _ _) He), IH.
  by rewrite drop_cr_event.
Qed.

Lemma scan_long log : ~ Forall fits log -> (scan_events (map event_line log)).2 = true.
Proof.
  induction log as [|e log IH]; intros Hf; [by destruct Hf|]. cbn [map scan_events].
  destruct (Z.leb_spec maxLine (Z.of_nat (String.length (event_line e)))); [done|].
  destruct (scan_events (map event_line log)) as [out long] eqn:E. apply IH. intros F. apply Hf. by constructor.
Qed.

(** *** Chains *)

(** What the decoder is relied on for. *)
Record valid_event (e : Event) : Prop := {
  ve_Timestamp : valid_utf8 (ev_Timestamp e) = true;
  ve_Type : valid_utf8 (ev_Type e) = true;
  ve_TaskID : valid_utf8 (ev_TaskID e) = true;
  ve_SessionID : valid_utf8 (ev_SessionID e) = true;
  ve_PrevHash : valid_utf8 (ev_PrevHash e) = true;
  ve_EventHash : valid_utf8 (ev_EventHash e) = true
}.

Class EventDecoderOk `{EventDecoder} := {
  Unmarshal_line : forall e j, valid_event e -> wf_json j = true -> ev_Data e = print j -> Unmarshal (event_line e) = Ok e;
  Unmarshal_valid : forall line e, Unmarshal line = Ok e -> valid_event e
}.

(** An event of the log of [taskID] at its place in the chain, with a
    payload of a given kind. *)
Record sealed (D : Event -> Prop) (taskID : string) (sequence : Z) (previous : string) (e : Event) : Prop := {
  se_sequence : ev_Sequence e = sequence;
  se_task : ev_TaskID e = taskID;
  se_prev : ev_PrevHash e = previous;
  se_hash : ev_EventHash e = event_hash previous e;
  se_valid : valid_event e;
  se_data : D e
}.

Fixpoint chain (D : Event -> Prop) (taskID : string) (sequence : Z) (previous : string) (log : list Event) : Prop :=
  match log with
  | [] => True
  | e :: log => sealed D taskID sequence previous e /\ chain D taskID (sequence + 1) (ev_EventHash e) log
  end.

(** A payload that [Append] writes. *)
Definition json_data (e : Event) : Prop := exists j, wf_json j = true /\ ev_Data e = print j.

Lemma last_hash_cons e log : last_hash (e :: log) = default (ev_EventHash e) (ev_EventHash <$> last log).
Proof. unfold last_hash. destruct log as [|x log]; [done|]. rewrite last_cons. by destruct (last (x :: log)). Qed.

Lemma chain_app D taskID n prev a b :
  chain D taskID n prev (a ++ b) <->
  chain D taskID n prev a /\ chain D taskID (n + Z.of_nat (length a)) (default prev (ev_EventHash <$> last a)) b.
Proof.
  revert n prev. induction a as [|e a IH]; intros n prev; cbn [app chain length].
  { rewrite Z.add_0_r. cbn. tauto. }
  rewrite IH. replace (n + 1 + Z.of_nat (length a)) with (n + Z.of_nat (S (length a))) by lia.
  replace (default prev (ev_EventHash <$> last (e :: a))) with (default (ev_EventHash e) (ev_EventHash <$> last a)); [tauto|].
  rewrite last_cons. by destruct (last a).
Qed.

Lemma chain_snoc taskID log e :
  chain json_data taskID 1 "" log -> sealed json_data taskID (Z.of_nat (length log) + 1) (last_hash log) e -> chain json_data taskID 1 "" (log ++ [e]).
Proof.
  intros Hc Hs. apply chain_app. split; [done|]. cbn. split; [|done]. unfold last_hash in Hs.
  by replace (1 + Z.of_nat (length log)) with (Z.of_nat (length log) + 1) by lia.
Qed.

Lemma chain_data taskID n prev log : chain json_data taskID n prev log -> Forall (fun e => one_line (ev_Data e)) log.
Proof.
  revert n prev. induction log as [|e log IH]; intros n prev; [done|]. intros [[_ _ _ _ _ (j&Hj&E)] Hc]. constructor; [|by eapply IH].
  rewrite E. by apply one_line_print.
Qed.

Section Chains.
Context `{EventDecoderOk}.

Lemma parse_lines_chain taskID n prev log :
  chain json_data taskID n prev log -> parse_lines taskID n prev false (map event_line log) = Ok log.
Proof.
  revert n prev. induction log as [|e log IH]; intros n prev; [done|]. intros [[Hs Ht Hp Hh Hv (j&Hj&Hd)] Hc].
  cbn [map parse_lines]. rewrite (Unmarshal_line e j Hv Hj Hd). cbn [wrap_err rbind].
  rewrite Hs, Z.eqb_refl, Ht, Hp, !String.eqb_refl. cbn [negb]. rewrite <- Hh, String.eqb_refl. cbn [negb].
  by rewrite (IH _ _ Hc).
Qed.

Lemma parse_lines_long taskID n prev lines : is_ok (parse_lines taskID n prev true lines) = false.
Proof.
  revert n prev. induction lines as [|x lines IH]; intros n prev; [done|]. cbn [parse_lines].
  destruct (Unmarshal x) as [e|]; [|done]. cbn [wrap_err rbind].
  destruct (negb _); [done|]. destruct (negb _); [done|]. destruct (negb _); [done|]. destruct (negb _); [done|].
  specialize (IH (n + 1) (ev_EventHash e)). by destruct (parse_lines _ _ _ _ _).
Qed.

(** A written log is read back, unless one of its lines is too long for the
    scanner: then it is not read at all. *)
Lemma parseEvents_log taskID log :
  chain json_data taskID 1 "" log ->
  (Forall fits log /\ parseEvents taskID (log_text log) = Ok log) \/
  (~ Forall fits log /\ is_ok (parseEvents taskID (log_text log)) = false).
Proof.
  intros Hc. unfold parseEvents. rewrite lines_of_log by by eapply chain_data.
  destruct (decide (Forall fits log)) as [Hf|Hf]; [left|right]; (split; [done|]).
  - rewrite (scan_fitting log Hf). by apply parse_lines_chain.
  - pose proof (scan_long log Hf) as Hl. destruct (scan_events _) as [out long]. cbn in Hl. subst. apply parse_lines_long.
Qed.
End Chains.

(** *** Representation: a log and the files of its task *)

Definition head_at (log : list Event) (n : nat) : head := MkHead (Z.of_nat n) (last_hash (take n log)).

Record Rep (taskID : string) (log : list Event) (f : TaskFiles) : Prop := {
  rp_chain : chain json_data taskID 1 "" log;
  rp_data : (tf_data f = None /\ log = []) \/ exists tail, one_line tail /\ tf_data f = Some (log_text log +:+ tail);
  rp_head : (tf_head f = None /\ log = [] /\ (tf_data f = None \/ tf_data f = Some "")) \/
            exists n, (n <= length log)%nat /\ tf_head f = Some (Some (head_at log n))
}.

(** After recovery: no tail, and the head counts every event. *)
Record Settled (taskID : string) (log : list Event) (f : TaskFiles) : Prop := {
  st_chain : chain json_data taskID 1 "" log;
  st_data : (tf_data f = None /\ log = []) \/ tf_data f = Some (log_text log);
  st_head : (tf_head f = None /\ log = []) \/ tf_head f = Some (Some (head_at log (length log)))
}.

Lemma Settled_Rep taskID log f : Settled taskID log f -> Rep taskID log f.
Proof.
  intros [Hc Hd Hh]. split; [done| |].
  - destruct Hd as [Hd|Hd]; [by left|]. right. exists "". split; [done|]. by rewrite string_app_nil_r.
  - destruct Hh as [[Hh ->]|Hh]; [|right; by exists (length log)]. left. split; [done|]. split; [done|].
    destruct Hd as [[Hd _]|Hd]; [by left|by right].
Qed.

Lemma head_at_full log : head_at log (length log) = MkHead (Z.of_nat (length log)) (last_hash log).
Proof. unfold head_at. by rewrite take_ge. Qed.

Lemma ends_newline_tail a tail : one_line tail -> tail <> "" -> ends_with_newline (a +:+ tail) = false.
Proof.
  intros Ht Hn. unfold ends_with_newline. destruct (HasSuffix _ _) eqn:E; [|done]. exfalso.
  apply HasSuffix_spec in E as [t E]. destruct (string_snoc tail Hn) as (u&d&->).
  rewrite <- string_app_assoc in E. assert (Hd : d = newline).
  { apply (f_equal string_rev) in E. rewrite !string_rev_app in E. cbn in E. by injection E. }
  subst. apply one_line_app in Ht as [_ Ht]. discriminate Ht.
Qed.

Lemma log_text_ends log : log <> [] -> ends_with_newline (log_text log) = true.
Proof.
  intros Hn. destruct log as [|e log] using rev_ind; [done|]. rewrite log_text_app. unfold ends_with_newline.
  apply HasSuffix_spec. exists (log_text log +:+ event_line e). cbn [log_text foldr]. unfold as_line.
  rewrite string_app_nil_r. by rewrite string_app_assoc.
Qed.

Lemma log_text_nonempty log : log <> [] -> (0 <? String.length (log_text log))%nat = true.
Proof.
  intros Hn. apply Nat.ltb_lt. destruct log as [|e log]; [done|]. change (log_text (e :: log)) with (as_line e +:+ log_text log).
  unfold as_line. rewrite !string_length_app. cbn. lia.
Qed.

Lemma last_line_start_tail log tail : one_line tail -> last_line_start (log_text log +:+ tail) = String.length (log_text log).
Proof.
  intros Ht. unfold last_line_start. destruct log as [|e log] using rev_ind.
  - cbn [log_text foldr]. change ("" +:+ tail) with tail. by rewrite LastIndexByte_none.
  - rewrite log_text_app. cbn [log_text foldr]. unfold as_line. rewrite string_app_nil_r.
    replace ((log_text log +:+ event_line e +:+ String newline "") +:+ tail)
      with ((log_text log +:+ event_line e) +:+ String newline tail)
      by (rewrite !string_app_assoc; done).
    rewrite LastIndexByte_app by done. rewrite !string_length_app. cbn. lia.
Qed.

Lemma check_prefix_ok log n : (n <= length log)%nat -> check_prefix (head_at log n) log = Ok tt.
Proof.
  intros Hn. unfold check_prefix, head_at. cbn [hd_Count hd_Hash].
  destruct (Z.ltb_spec (Z.of_nat (length log)) (Z.of_nat n)); [lia|].
  destruct n as [|n]; [done|]. destruct (Z.eqb_spec (Z.of_nat (S n)) 0); [lia|].
  replace (Z.to_nat (Z.of_nat (S n) - 1)) with n by lia.
  destruct (lookup_lt_is_Some_2 log n) as [e He]; [lia|]. rewrite He. unfold last_hash.
  by rewrite (take_S_r _ _ _ He), last_snoc, String.eqb_refl.
Qed.

Section Recovery.
Context `{EventDecoderOk} (taskID : string).

Lemma wp_readHead E log f Q :
  honest E -> Rep taskID log f -> (forall e, Q (Err e) f) ->
  (forall n, (n <= length log)%nat ->
     tf_head f = Some (Some (head_at log n)) \/ (tf_head f = None /\ n = 0%nat) -> Q (Ok (head_at log n)) f) ->
  wp E readHead Q f.
Proof.
  intros Hh [_ _ Hd] H1 H2. unfold readHead. wp_step. wp_step. apply wp_sys_honest; [done|intros no Hno|].
  { cbn [errors_is]. rewrite bool_decide_false by done. by wp_step. }
  destruct Hd as [(Hd&->&Hdata)|(n&Hn&Hd)]; rewrite Hd.
  - cbn [errors_is]. rewrite bool_decide_true by done. wp_step. wp_step. apply wp_sys_honest; [done|intros no Hno|].
    { cbn [errors_is]. rewrite bool_decide_false by done. by wp_step. }
    assert (Q (Ok no_head) f) by (apply (H2 0%nat); [cbn; lia|by right]).
    destruct Hdata as [Hx|Hx]; rewrite Hx; [|by apply wp_ret]. cbn [errors_is]. rewrite bool_decide_true by done. by wp_step.
  - wp_step. apply H2; [done|by left].
Qed.

(** Setting the head to any committed count keeps the log. *)
Lemma Rep_set_head log f n :
  chain json_data taskID 1 "" log -> (n <= length log)%nat ->
  ((tf_data f = None /\ log = []) \/ exists tail, one_line tail /\ tf_data f = Some (log_text log +:+ tail)) ->
  Rep taskID log (set_head (head_at log n) f).
Proof. intros Hc Hn Hd. split; [done|done|]. right. by exists n. Qed.

Lemma recoverLocked_wp E log f :
  honest E -> Rep taskID log f ->
  wp E (recoverLocked taskID) (fun r f' => match r with
    | Ok h => Forall fits log /\ Settled taskID log f' /\ h = head_at log (length log)
    | Err _ => Rep taskID log f'
    end) f.
Proof.
  intros Hh R. unfold recoverLocked, guard_. wp_step. apply (wp_readHead E log f); [done|done|done|]. intros n Hn Hhead.
  destruct R as [Hc Hd Hhd]. wp_step. wp_step. unfold readData. apply wp_sys_honest; [done|intros no Hno|].
  { cbn [errors_is]. rewrite bool_decide_false by done. wp_step. by split. }
  destruct Hd as [[Hd ->]|(tail&Ht&Hd)]; rewrite Hd.
  { cbn [errors_is]. rewrite bool_decide_true by done. cbn in Hn. replace n with 0%nat in * by lia. cbn. wp_go; [|discriminate].
    split; [constructor|]. split; [|done]. split; [done|by left|]. destruct Hhead as [Hx|[Hx _]]; [by right|by left]. }
  set (data := log_text log +:+ tail) in *.
  set (needs := (0 <? String.length data)%nat && negb (ends_with_newline data)).
  assert (Hneeds : needs = negb (String.eqb tail "")).
  { unfold needs, data. destruct (String.eqb_spec tail "") as [->|Hne].
    - rewrite string_app_nil_r. destruct log as [|e log]; [done|]. by rewrite log_text_ends, andb_false_r.
    - rewrite ends_newline_tail by done. cbn [negb]. rewrite andb_true_r. apply Nat.ltb_lt. rewrite string_length_app.
      destruct tail; [done|]. cbn [String.length]. lia. }
  assert (Hcut : (if needs then last_line_start data else String.length data) = String.length (log_text log)).
  { rewrite Hneeds. destruct (String.eqb_spec tail "") as [->|Hne]; cbn.
    - unfold data. by rewrite string_app_nil_r.
    - by apply last_line_start_tail. }
  rewrite Hcut. unfold data at 1. rewrite take_bytes_app.
  assert (RF : Rep taskID log f) by (split; [done|right; by exists tail|done]).
  wp_step. wp_step. destruct (parseEvents_log taskID log Hc) as [[Hf Hp]|[_ Hp]];
    [rewrite Hp|by destruct (parseEvents taskID (log_text log))].
  wp_step. wp_step. rewrite check_prefix_ok by done. wp_step.
  apply (wp_mono _ _ (fun r f1 => tf_head f1 = tf_head f /\
    match r with Ok _ => tf_data f1 = Some (log_text log) | Err _ => Rep taskID log f1 end)).
  { destruct needs eqn:En; [|wp_step; split; [done|]].
    - unfold truncateAndSync. wp_step. wp_step; [|by split]. wp_step. wp_step; [by split|].
      rewrite Hd. unfold data. cbn [fmap option_fmap option_map]. rewrite take_bytes_app. wp_step; [by split|].
      split; [done|]. split; [done|right; exists ""; split; [done|by rewrite string_app_nil_r]|].
      cbn [tf_head tf_data]. destruct Hhd as [(Ha&->&_)|Hx]; [left|by right]. split; [done|]. split; [done|by right].
    - symmetry in Hneeds. apply negb_false_iff, String.eqb_eq in Hneeds. rewrite Hd. unfold data.
      by rewrite Hneeds, string_app_nil_r. }
  intros [[]|e] f1 [Hh1 Hd1]; [|done].
  assert (D1 : (tf_data f1 = None /\ log = []) \/ exists tail, one_line tail /\ tf_data f1 = Some (log_text log +:+ tail)).
  { right. exists "". split; [done|]. by rewrite string_app_nil_r. }
  cbn [hd_Count head_at]. destruct (Z.ltb_spec (Z.of_nat n) (Z.of_nat (length log))) as [Hlt|Hge].
  - rewrite <- (head_at_full log). wp_step. unfold atomicJSON. wp_step.
    + destruct r; [wp_step|by apply Rep_set_head].
      split; [done|]. split; [|done]. split; [done|by right|by right].
    + split; [done|done|]. rewrite Hh1. destruct Hhd as [(Ha&->&_)|Hx]; [|by right]. left. split; [done|]. split; [done|by right].
  - replace n with (length log) in * by lia. wp_step. split; [done|]. split; [|done]. split; [done|by right|].
    rewrite Hh1. destruct Hhead as [Hx|[Hx Hl]]; [by right|left]. split; [done|]. by apply length_zero_iff_nil.
Qed.
End Recovery.

(** *** Payloads are well-formed JSON *)
Class SecretPatternsOk `{SecretPatterns} := {
  redact_text_valid : forall s, valid_utf8 s = true -> valid_utf8 (redact_text s) = true
}.

Lemma of_fields_lookup l k v : of_fields l !! k = Some v -> (k, v) ∈ l.
Proof.
  unfold of_fields. intros Hv. apply elem_of_list_to_map_2 in Hv. apply list_elem_of_In in Hv.
  apply list_elem_of_In. by apply in_rev.
Qed.

Section Payload.
Context `{UnicodeCase} `{SecretPatternsOk}.

Lemma redactValue_wf v : wf_json v = true -> wf_json (redactValue v) = true.
Proof.
  induction v as [|b|lit|s|l IH|l IH] using json_ind_nested; intros Hw; try done.
  - by apply redact_text_valid.
  - cbn in *. rewrite forallb_forall in Hw. apply forallb_forall. intros x Hx.
    apply in_map_iff in Hx as (y&<-&Hy). rewrite Forall_forall in IH. apply IH; [by apply list_elem_of_In|by apply Hw].
  - cbn [redactValue]. apply wf_JMap. intros k x Hx. apply of_fields_lookup in Hx.
    apply list_elem_of_In, in_map_iff in Hx as ([k' y]&E&Hy). cbn [fst snd] in E. injection E as <- <-.
    cbn in Hw. rewrite forallb_forall in Hw. specialize (Hw _ Hy). cbn in Hw. apply andb_true_iff in Hw as [Hk Hyw].
    split; [done|]. destruct (sensitiveKey k'); [done|]. rewrite Forall_forall in IH.
    apply (IH (k', y)); [by apply list_elem_of_In|done].
Qed.

Definition wf_record (m : gmap string json) : Prop := map_Forall (fun k v => valid_utf8 k = true /\ wf_json v = true) m.

Lemma wf_record_insert m k v : wf_record m -> valid_utf8 k = true -> wf_json v = true -> wf_record (<[k := v]> m).
Proof. intros Hm Hk Hv. by apply map_Forall_insert_2. Qed.

Lemma valid_utf8_app_ascii a b : is_ascii a = true -> valid_utf8 (a +:+ b) = valid_utf8 b.
Proof.
  induction a as [|c a IH]; [done|]. rewrite is_ascii_cons. intros [Hc Ha]%andb_true_iff. cbn. rewrite Hc. auto.
Qed.

Lemma valid_app_ascii_r a b : valid_utf8 a = true -> is_ascii b = true -> valid_utf8 (a +:+ b) = true.
Proof.
  intros Ha Hb. remember (String.length a) as n eqn:En. revert a En Ha. induction (lt_wf n) as [n _ IH]. intros a -> Ha.
  assert (Sub : forall t, (String.length t < String.length a)%nat -> valid_utf8 t = true -> valid_utf8 (t +:+ b) = true)
    by (intros t Ht; by eapply IH).
  destruct a as [|c a]; [by apply ascii_valid|]. cbn [String.append valid_utf8] in *.
  destruct (code c <? 128)%N; [apply Sub; [cbn; lia|done]|].
  destruct (in_range 194 223 (code c)).
  { destruct a as [|d a]; [done|]. cbn [String.append]. apply andb_true_iff in Ha as [-> Ha]. apply Sub; [cbn; lia|done]. }
  destruct (in_range 224 239 (code c)).
  { destruct a as [|d [|e a]]; try done. cbn [String.append]. apply andb_true_iff in Ha as [-> Ha]. apply Sub; [cbn; lia|done]. }
  destruct (in_range 240 244 (code c)); [|done].
  destruct a as [|d [|e [|g a]]]; try done. cbn [String.append]. apply andb_true_iff in Ha as [-> Ha]. apply Sub; [cbn; lia|done].
Qed.

Lemma num_char_ascii s : all_bytes num_char s = true -> is_ascii s = true.
Proof.
  induction s as [|c s IH]; [done|]. cbn [all_bytes]. rewrite is_ascii_cons, !andb_true_iff. intros [Hc Hs]. split; [|auto].
  destruct c as [[][][][][][][][]]; try discriminate Hc; done.
Qed.

Lemma hex_encode_ascii s : is_ascii (hex_encode s) = true.
Proof.
  induction s as [|c s IH]; [done|]. destruct c as [[][][][][][][][]];
    (change (is_ascii (hex_encode (String ?c s))) with (is_ascii (hex_encode (String c s)));
     cbn [hex_encode]; rewrite !is_ascii_cons, IH; vm_compute; reflexivity).
Qed.

Lemma sha256_hex_valid s : valid_utf8 (sha256_hex s) = true.
Proof. apply ascii_valid, hex_encode_ascii. Qed.

Lemma normalizeDecision_wf taskID n v : valid_utf8 taskID = true -> wf_json v = true -> wf_record (normalizeDecision taskID n v).
Proof.
  intros Ht Hv. unfold normalizeDecision.
  assert (D : forall m k, wf_record m -> wf_record (digest_arguments m k)).
  { intros m k Hm. unfold digest_arguments. destruct (m !! k) as [x|]; [|done].
    apply map_Forall_delete. apply wf_record_insert; [done|done|apply sha256_hex_valid]. }
  assert (F : forall l m, wf_record m -> Forall (fun kv => valid_utf8 kv.1 = true /\ wf_json kv.2 = true) l ->
              wf_record (foldl with_default m l)).
  { induction l as [|[k x] l IH]; intros m Hm Hl; [done|]. apply Forall_cons_1 in Hl as [[Hk Hx] Hl]. cbn [foldl].
    apply IH; [|done]. unfold with_default. cbn [fst snd] in *. destruct (m !! k); [done|]. by apply wf_record_insert. }
  cbn [foldl]. apply D, D, F; [|repeat constructor].
  apply wf_record_insert; [apply wf_record_insert| |]; try done.
  - destruct v; try (apply map_Forall_singleton; done).
    intros k x Hx. apply of_fields_lookup, list_elem_of_In in Hx. cbn in Hv. rewrite forallb_forall in Hv.
    specialize (Hv _ Hx). cbn in Hv. by apply andb_true_iff in Hv.
  - cbn [wf_json]. rewrite (valid_utf8_app_ascii "decision_") by done. apply valid_app_ascii_r; [done|].
    change ("_" +:+ show_Z n) with (String "_" (show_Z n)). rewrite is_ascii_cons.
    by rewrite (num_char_ascii _ (num_lit_bytes _ (num_lit_show_Z n))).
Qed.

Lemma payload_wf taskID n typ data :
  valid_utf8 taskID = true -> wf_json data = true -> wf_json (payload_json taskID n typ data) = true.
Proof.
  intros Ht Hd. unfold payload_json. destruct (String.eqb typ DecisionRecorded); [|by apply redactValue_wf].
  apply wf_JMap, normalizeDecision_wf; [done|by apply redactValue_wf].
Qed.
End Payload.

(** *** Appending *)
Lemma take_line_prefix k line : (k <= String.length line)%nat -> one_line line ->
  one_line (take_bytes k (line +:+ String newline "")).
Proof.
  unfold one_line. revert k. induction line as [|c line IH]; intros k Hk Hl.
  - cbn in Hk. replace k with 0%nat by lia. done.
  - destruct k as [|k]; [done|]. cbn [String.append take_bytes all_bytes] in *. apply andb_true_iff in Hl as [Hc Hl].
    rewrite Hc. apply IH; [cbn in Hk; lia|done].
Qed.

Lemma take_bytes_ge k s : (String.length s <= k)%nat -> take_bytes k s = s.
Proof. revert k. induction s as [|c s IH]; intros [|k] Hk; cbn in *; try done; try lia. rewrite IH by lia. done. Qed.

Lemma last_hash_snoc log e : last_hash (log ++ [e]) = ev_EventHash e.
Proof. unfold last_hash. by rewrite last_snoc. Qed.

Section Appending.
Context `{EventDecoderOk} `{UnicodeCase} `{SecretPatternsOk} `{TimeTextOk}.
Context (taskID : string) (Htask : valid_utf8 taskID = true).

(** What an append adds. *)
Definition is_append (sessionID typ : string) (data : result json) (log : list Event) (e : Event) : Prop :=
  ev_Type e = typ /\ ev_SessionID e = sessionID /\
  marshalPayload taskID (Z.of_nat (length log) + 1) typ data = Ok (ev_Data e).

Definition good_input (sessionID typ : string) (data : result json) : Prop :=
  valid_utf8 sessionID = true /\ valid_utf8 typ = true /\ forall j, data = Ok j -> wf_json j = true.

Lemma Rep_append log e f :
  chain json_data taskID 1 "" log -> sealed json_data taskID (Z.of_nat (length log) + 1) (last_hash log) e ->
  tf_head f = Some (Some (head_at log (length log))) ->
  (forall tail, one_line tail -> tf_data f = Some (log_text log +:+ tail) -> Rep taskID log f) /\
  (tf_data f = Some (log_text (log ++ [e])) -> Rep taskID (log ++ [e]) f).
Proof.
  intros Hc Hs Hh. split.
  - intros tail Ht Hd. split; [done|right; by exists tail|right; by exists (length log)].
  - intros Hd. split; [by apply chain_snoc|right; exists ""; split; [done|by rewrite string_app_nil_r]|].
    right. exists (length log). rewrite length_app. cbn. split; [lia|]. rewrite Hh. unfold head_at.
    by rewrite take_ge, take_app_length by lia.
Qed.

Lemma Append_wp E sessionID typ data log f :
  honest E -> Rep taskID log f -> good_input sessionID typ data ->
  wp E (Append taskID sessionID typ data) (fun r f' => match r with
    | Ok e => Rep taskID (log ++ [e]) f' /\ is_append sessionID typ data log e
    | Err _ => Rep taskID log f' \/ exists e, Rep taskID (log ++ [e]) f' /\ is_append sessionID typ data log e
    end) f.
Proof.
  intros Hh R (Hsid&Htyp&Hdata). unfold Append, guard_. wp_step. wp_step; [|by left].
  wp_step. wp_step. destruct (validID taskID) as [[]|e]; [|by left].
  wp_step. eapply wp_mono; [by apply recoverLocked_wp|]. intros [h|e] f1 R1; [|by left]. destruct R1 as (Hf&[Hc Hd Hhd]&->).
  assert (R1 : Rep taskID log f1) by (by apply Settled_Rep; split).
  apply wp_bind. apply (wp_mono _ _ (fun r f2 => match r with
    | Ok _ => tf_head f2 = Some (Some (head_at log (length log))) /\ ((tf_data f2 = None /\ log = []) \/ tf_data f2 = Some (log_text log))
    | Err _ => Rep taskID log f2
    end)).
  { unfold ensure_head. wp_step. wp_step. apply wp_sys_honest; [done|intros no Hno|].
    { cbn [errors_is]. rewrite bool_decide_false by done. by wp_step. }
    destruct Hhd as [[Hx ->]|Hx]; rewrite Hx; [|by wp_step; split].
    cbn [errors_is]. rewrite bool_decide_true by done. unfold atomicJSON. wp_step; [|done].
    destruct r; [by split|]. apply (Rep_set_head taskID [] f1 0); [done|cbn; lia|].
    destruct Hd as [Hd|Hd]; [by left|right; exists ""; by rewrite Hd]. }
  intros [[]|e] f2 R2; [|by left]. destruct R2 as [Hh2 Hd2]. rewrite head_at_full. cbn [hd_Count hd_Hash].
  wp_step. wp_step. destruct (marshalPayload _ _ _ _) as [payload|e] eqn:Ep.
  2: { left. split; [done| |right; by exists (length log)]. destruct Hd2 as [Hd2|Hd2]; [by left|right; exists ""; by rewrite string_app_nil_r]. }
  wp_step. wp_step. set (unsealed := MkEvent _ _ _ _ _ _ _ ""). set (e := MkEvent _ _ _ _ _ _ _ (event_hash _ _)).
  assert (Hj : exists j, wf_json j = true /\ payload = print j).
  { unfold marshalPayload in Ep. destruct data as [j|]; [|done]. injection Ep as <-. eexists. split; [|done].
    apply payload_wf; [done|by apply Hdata]. }
  assert (Hlast : valid_utf8 (last_hash log) = true).
  { unfold last_hash. destruct log as [|x log'] using rev_ind; [done|]. rewrite last_snoc. cbn.
    apply chain_app in Hc as [_ [Hs _]]. apply (ve_EventHash x), Hs. }
  assert (S : sealed json_data taskID (Z.of_nat (length log) + 1) (last_hash log) e).
  { split; [done|done|done|done| |exact Hj]. split; try done; cbn; [apply time_text_valid|].
    apply sha256_hex_valid. }
  assert (A : is_append sessionID typ data log e) by done. clearbody e. clear unsealed.
  wp_step. wp_step.
  { left. split; [done| |right; by exists (length log)]. destruct Hd2 as [Hd2|Hd2]; [by left|right; exists ""; by rewrite string_app_nil_r]. }
  set (f3 := set_data _ f2). assert (Hd3 : tf_data f3 = Some (log_text log)).
  { unfold f3. cbn. by destruct Hd2 as [[Hd2 ->]|Hd2]; rewrite Hd2. }
  assert (Hh3 : tf_head f3 = Some (Some (head_at log (length log)))) by done. clearbody f3.
  destruct (se_data _ _ _ _ _ S) as (j&Hwj&Ej).
  assert (One : one_line (event_line e)) by (apply one_line_event; rewrite Ej; by apply one_line_print).
  assert (Full : log_text log +:+ (event_line e +:+ String newline "") = log_text (log ++ [e])).
  { rewrite log_text_app. cbn [log_text foldr]. unfold as_line. by rewrite string_app_nil_r. }
  wp_step. unfold append_bytes. rewrite <- (string_app_nil_r (log_text log)) in Hd3. wp_step; cbn [fst snd]; rewrite string_app_nil_r in Hd3; rewrite Hd3; cbn [default from_option id].
  { destruct (decide (k <= String.length (event_line e))%nat) as [Hk|Hk].
    - left. apply (proj1 (Rep_append log e (set_data _ f3) Hc S Hh3) (take_bytes k (event_line e +:+ String newline ""))); [|done].
      by apply take_line_prefix.
    - right. exists e. split; [|done]. apply (proj2 (Rep_append log e (set_data _ f3) Hc S Hh3)).
      cbn [tf_data set_data]. rewrite take_bytes_ge; [by rewrite Full|]. rewrite string_length_app. cbn. lia. }
  rewrite Full. set (f4 := set_data _ f3).
  assert (R4 : Rep taskID (log ++ [e]) f4) by (by apply (proj2 (Rep_append log e f4 Hc S Hh3))).
  assert (Err4 : Rep taskID log f4 \/ exists e0, Rep taskID (log ++ [e0]) f4 /\ is_append sessionID typ data log e0)
    by (right; by exists e).
  wp_step. wp_step; [|done]. wp_step. wp_step; [|done]. wp_step. wp_step; [|done].
  wp_step. unfold atomicJSON. wp_step; [|done].
  assert (R5 : Rep taskID (log ++ [e]) (set_head (MkHead (ev_Sequence e) (ev_EventHash e)) f4)).
  { replace (MkHead (ev_Sequence e) (ev_EventHash e)) with (head_at (log ++ [e]) (length (log ++ [e]))).
    - apply Rep_set_head; [apply R4|lia|]. right. exists "". split; [done|]. by rewrite string_app_nil_r.
    - rewrite head_at_full, last_hash_snoc, (se_sequence _ _ _ _ _ S), length_app. cbn. f_equal. lia. }
  destruct r; [wp_step; by split|]. right. by exists e.
Qed.
End Appending.

(** ** Lives of the writer *)
Inductive trace_op :=
  | TAppend (sessionID typ : string) (data : result json)
  | TRecover.

Section Lives.
Context `{EventDecoder} `{UnicodeCase} `{SecretPatterns} `{TimeText}.

Definition run_trace_op (taskID : string) (o : trace_op) : M TaskFiles (option Event) :=
  match o with
  | TAppend sessionID typ data => e <- Append taskID sessionID typ data ;; ret (Some e)
  | TRecover => recoverLocked taskID ;;; ret None
  end.

(** The events whose append reported success, in order. *)
Definition acknowledged (rs : list (result (option Event))) : list Event :=
  omap (fun r => match r with Ok o => o | Err _ => None end) rs.

Fixpoint run_traces (taskID : string) (lives : list (Env * list trace_op)) (f : TaskFiles) : TaskFiles * list Event :=
  match lives with
  | [] => (f, [])
  | (E, l) :: lives =>
    let '(rs, w) := mapM (fun o => try_ (run_trace_op taskID o)) l E (init_world f) in
    let '(f', acked) := run_traces taskID lives (st w) in
    (f', match rs with Ok rs => acknowledged rs | Err _ => [] end ++ acked)
  end.
End Lives.

Definition good_op (o : trace_op) : Prop :=
  match o with
  | TAppend sessionID typ data => good_input sessionID typ data
  | TRecover => True
  end.

Section Durable.
Context `{EventDecoderOk} `{UnicodeCase} `{SecretPatternsOk} `{TimeTextOk}.
Context (taskID : string) (Htask : valid_utf8 taskID = true).

Lemma run_trace_op_wp E o log f :
  honest E -> Rep taskID log f -> good_op o ->
  wp E (run_trace_op taskID o) (fun r f' => exists new, Rep taskID (log ++ new) f' /\ acknowledged [r] `sublist_of` new) f.
Proof.
  intros Hh R Hg. destruct o as [sessionID typ data|]; cbn [run_trace_op]; wp_step.
  - eapply wp_mono; [by apply Append_wp|]. intros [e|e] f1 R1.
    + wp_step. exists [e]. split; [apply R1|done].
    + destruct R1 as [R1|(x&R1&_)]; [exists []|exists [x]]; rewrite ?app_nil_r; (split; [done|]).
      * done.
      * apply sublist_nil_l.
  - eapply wp_mono; [by apply recoverLocked_wp|]. intros [h|e] f1 R1; [wp_step; destruct R1 as (_&R1&_)|];
      (exists []; rewrite app_nil_r; split; [|done]); [by apply Settled_Rep|done].
Qed.

Lemma run_life_wp E l log f :
  honest E -> Rep taskID log f -> Forall good_op l ->
  wp E (mapM (fun o => try_ (run_trace_op taskID o)) l) (fun r f' => exists new, Rep taskID (log ++ new) f' /\
    exists rs, r = Ok rs /\ acknowledged rs `sublist_of` new) f.
Proof.
  intros Hh R Hg. revert log f R. induction Hg as [|o l Ho Hl IH]; intros log f R; cbn [mapM].
  { wp_step. exists []. rewrite app_nil_r. split; [done|]. by exists []. }
  wp_step. wp_step. eapply wp_mono; [by apply (run_trace_op_wp E o log f)|]. intros r f1 (new1&R1&S1).
  wp_step. eapply wp_mono; [by apply (IH (log ++ new1) f1)|]. intros rs f2 (new2&R2&rs'&->&S2). wp_step.
  exists (new1 ++ new2). rewrite app_assoc. split; [done|]. eexists. split; [done|].
  change (acknowledged (r :: rs')) with (acknowledged ([r] ++ rs')). unfold acknowledged. rewrite omap_app.
  by apply sublist_app.
Qed.
End Durable.

(** ** Reading without failures *)
Lemma wp_and {S A} E (m : M S A) (Q1 Q2 : result A -> S -> Prop) s :
  wp E m Q1 s -> wp E m Q2 s -> wp E m (fun r s' => Q1 r s' /\ Q2 r s') s.
Proof. intros H1 H2 w Hw. split; [by apply H1|by apply H2]. Qed.

Section Quiet.
Context `{EventDecoderOk} (taskID : string).

Lemma wp_readHead_quiet E log f Q :
  quiet E -> Rep taskID log f ->
  (forall n, (n <= length log)%nat -> Q (Ok (head_at log n)) f) -> wp E readHead Q f.
Proof.
  intros Hq [_ _ Hd] H2. unfold readHead. wp_step. wp_step. apply wp_sys_quiet; [done|].
  destruct Hd as [(Hd&->&Hdata)|(n&Hn&Hd)]; rewrite Hd.
  - cbn [errors_is]. rewrite bool_decide_true by done. wp_step. wp_step. apply wp_sys_quiet; [done|].
    assert (Q (Ok no_head) f) by (apply (H2 0%nat); cbn; lia).
    destruct Hdata as [Hx|Hx]; rewrite Hx; [|by apply wp_ret]. cbn [errors_is]. rewrite bool_decide_true by done. by wp_step.
  - wp_step. by apply H2.
Qed.

Lemma recoverLocked_quiet E log f :
  quiet E -> Rep taskID log f -> Forall fits log ->
  wp E (recoverLocked taskID) (fun r _ => is_ok r = true) f.
Proof.
  intros Hq R Hf. unfold recoverLocked, guard_. wp_step. eapply wp_readHead_quiet; [done|done|]. intros n Hn.
  destruct R as [Hc Hd Hhd]. wp_step. wp_step. unfold readData. apply wp_sys_quiet; [done|].
  destruct Hd as [[Hd ->]|(tail&Ht&Hd)]; rewrite Hd.
  { cbn [errors_is]. rewrite bool_decide_true by done. cbn in Hn. replace n with 0%nat in * by lia. cbn. by wp_go; [|discriminate]. }
  assert (Hcut : forall data, data = log_text log +:+ tail ->
    (if (0 <? String.length data)%nat && negb (ends_with_newline data) then last_line_start data else String.length data)
    = String.length (log_text log)).
  { intros data ->. destruct (String.eqb_spec tail "") as [->|Hne].
    - rewrite string_app_nil_r. destruct log as [|e log]; [done|]. by rewrite log_text_ends, andb_false_r.
    - rewrite ends_newline_tail by done. rewrite andb_true_r. rewrite (proj2 (Nat.ltb_lt _ _)).
      + by apply last_line_start_tail.
      + rewrite string_length_app. destruct tail; [done|]. cbn [String.length]. lia. }
  rewrite Hcut by done. rewrite take_bytes_app. wp_step. wp_step.
  destruct (parseEvents_log taskID log Hc) as [[_ Hp]|[Hx _]]; [rewrite Hp|done].
  wp_step. wp_step. rewrite check_prefix_ok by done. wp_step.
  apply (wp_mono _ _ (fun r f1 => r = Ok tt)).
  { destruct (_ && _); [|by wp_step]. unfold truncateAndSync. wp_step. apply wp_probe_quiet; [done|]. wp_step.
    apply wp_sys_quiet; [done|]. by apply wp_probes_quiet. }
  intros r f1 ->. destruct (_ <? _); [|by wp_step]. wp_step. unfold atomicJSON. apply wp_atomic_write_quiet; [done|]. by wp_step.
Qed.

Lemma readEvents_settled E log f :
  quiet E -> Settled taskID log f -> Forall fits log -> log <> [] ->
  wp E (readEvents taskID) (fun r f' => r = Ok log /\ f' = f) f.
Proof.
  intros Hq [Hc Hd _] Hf Hn. destruct Hd as [[_ ->]|Hd]; [done|]. unfold readEvents, readData, guard_.
  wp_step. apply wp_sys_quiet; [done|]. rewrite Hd. wp_step. wp_step. rewrite log_text_ends by done. rewrite andb_false_r.
  wp_step. destruct (parseEvents_log taskID log Hc) as [[_ ->]|[Hx _]]; done.
Qed.

Lemma VerifyIntegrity_settled E log f :
  quiet E -> Settled taskID log f -> Forall fits log -> log <> [] -> validID taskID = Ok tt ->
  wp E (VerifyIntegrity taskID) (fun r f' => r = Ok tt /\ f' = f) f.
Proof.
  intros Hq S Hf Hn Hv. unfold VerifyIntegrity, guard_. rewrite Hv. wp_step. wp_step. wp_step.
  eapply wp_mono; [by apply (readEvents_settled E log f)|]. intros r f' [-> ->]. wp_step.
  unfold readHead. wp_step. wp_step. apply wp_sys_quiet; [done|]. destruct S as [_ _ [[_ Hx]|Hh]]; [done|]. rewrite Hh.
  wp_step. wp_step. rewrite head_at_full. cbn [hd_Count hd_Hash]. by rewrite Z.eqb_refl, String.eqb_refl.
Qed.
End Quiet.

(** *** The hashed text identifies the event *)
Lemma quote_app_inj a b r r' :
  valid_utf8 a = true -> valid_utf8 b = true -> quote a +:+ r = quote b +:+ r' -> a = b /\ r = r'.
Proof.
  intros Ha Hb E. unfold quote in E. cbn [String.append] in E. injection E as E. rewrite !string_app_assoc in E.
  apply (f_equal unquote) in E. cbn [String.append] in E. rewrite !unquote_quote_body in E by done. by injection E.
Qed.

Lemma num_app_inj a b r r' : show_Z a +:+ String "," r = show_Z b +:+ String "," r' -> a = b /\ r = r'.
Proof.
  intros E. apply (f_equal span_num) in E. rewrite !span_num_app in E by (apply num_lit_bytes, num_lit_show_Z || done).
  injection E as E1 ->. split; [by apply show_Z_inj|done].
Qed.

Lemma canonical_text_eq e : canonical_text e =
  ("{" +:+ quote "sequence" +:+ ":") +:+ show_Z (ev_Sequence e) +:+ String "," ((quote "timestamp" +:+ ":") +:+
  quote (ev_Timestamp e) +:+ ("," +:+ quote "type" +:+ ":") +:+ quote (ev_Type e) +:+ ("," +:+ quote "task_id" +:+ ":") +:+
  quote (ev_TaskID e) +:+ ("," +:+ quote "session_id" +:+ ":") +:+ quote (ev_SessionID e) +:+
  ("," +:+ quote "data" +:+ ":") +:+ ev_Data e +:+ "}").
Proof.
  unfold canonical_text, raw_obj, canonical_fields. cbn [map Join fst snd].
  rewrite !string_app_assoc. reflexivity.
Qed.

Lemma canonical_text_inj a b : valid_event a -> valid_event b -> canonical_text a = canonical_text b ->
  ev_Sequence a = ev_Sequence b /\ ev_Timestamp a = ev_Timestamp b /\ ev_Type a = ev_Type b /\
  ev_TaskID a = ev_TaskID b /\ ev_SessionID a = ev_SessionID b /\ ev_Data a = ev_Data b.
Proof.
  intros [] [] E. rewrite !canonical_text_eq in E.
  apply string_app_inv_l, num_app_inj in E as [E1 E].
  apply string_app_inv_l, quote_app_inj in E as [E2 E]; [|done..].
  apply string_app_inv_l, quote_app_inj in E as [E3 E]; [|done..].
  apply string_app_inv_l, quote_app_inj in E as [E4 E]; [|done..].
  apply string_app_inv_l, quote_app_inj in E as [E5 E]; [|done..].
  apply string_app_inv_l, string_app_inv_r in E. done.
Qed.

Lemma app_inv_length (a b x y : string) : String.length a = String.length b -> a +:+ x = b +:+ y -> a = b /\ x = y.
Proof.
  revert b. induction a as [|c a IH]; intros [|d b] Hl E; try discriminate Hl; [done|].
  cbn in Hl, E. injection E as -> E. injection Hl as Hl. destruct (IH b Hl E) as [-> ->]. done.
Qed.

Lemma event_hash_length p e : String.length (event_hash p e) = 64%nat.
Proof. unfold event_hash, sha256_hex. by rewrite hex_encode_length, sha256_length. Qed.

Section Tamper.
Context `{EventDecoderOk}.

(** Events of a chain that is read, whatever their payloads. *)
Definition any_data (e : Event) : Prop := True.

Lemma parse_lines_linked taskID n prev long lines events :
  parse_lines taskID n prev long lines = Ok events -> chain any_data taskID n prev events.
Proof.
  revert n prev events. induction lines as [|x lines IH]; intros n prev events; cbn [parse_lines].
  { destruct long; [done|]. by intros [= <-]. }
  destruct (Unmarshal x) as [e|] eqn:Eu; [|done]. cbn [wrap_err rbind].
  rewrite !fail_if_ok. intros (Es&Et&Ep&Eh&E). apply negb_false_iff in Es, Et, Ep, Eh.
  apply Z.eqb_eq in Es. apply String.eqb_eq in Et, Ep, Eh.
  apply rbind_ok in E as (rest&Er&[= <-]). split; [|by apply IH]. split; try done. by eapply Unmarshal_valid.
Qed.

(** Two chains of one length that end in the same hash are the same. *)
Lemma chains_agree taskID a b :
  chain any_data taskID 1 "" a -> chain any_data taskID 1 "" b -> length a = length b -> last_hash a = last_hash b ->
  a = b \/ exists x y, collides x y.
Proof.
  revert b. induction a as [|e a IH] using rev_ind; intros b Ha Hb Hl Hh.
  { left. by destruct b. }
  destruct b as [|e' b _] using rev_ind; [by rewrite length_app in Hl; cbn in Hl; lia|].
  rewrite !length_app in Hl. cbn in Hl. rewrite !last_hash_snoc in Hh.
  apply chain_app in Ha as [Ha [Sa _]]. apply chain_app in Hb as [Hb [Sb _]].
  fold (last_hash a) in Sa. fold (last_hash b) in Sb.
  assert (Hp : String.length (last_hash a) = String.length (last_hash b)).
  { assert (L : forall l, chain any_data taskID 1 "" l -> String.length (last_hash l) = match l with [] => 0%nat | _ => 64%nat end).
    { intros l Hc. destruct l as [|x l _] using rev_ind; [done|]. rewrite last_hash_snoc.
      apply chain_app in Hc as [_ [S _]]. rewrite (se_hash _ _ _ _ _ S), event_hash_length. by destruct l. }
    rewrite (L a Ha), (L b Hb). destruct a, b; cbn in Hl; try done; lia. }
  rewrite (se_hash _ _ _ _ _ Sa), (se_hash _ _ _ _ _ Sb) in Hh. unfold event_hash in Hh.
  apply sha256_hex_inj in Hh as [E|C]; [|right; by eexists _, _].
  apply app_inv_length in E as [E1 E2]; [|done].
  destruct (IH b Ha Hb) as [->|C]; [lia|done| |by right]. left. f_equal. f_equal.
  destruct (canonical_text_inj e e') as (?&?&?&?&?&?); [apply Sa|apply Sb|done|].
  pose proof (se_prev _ _ _ _ _ Sa). pose proof (se_prev _ _ _ _ _ Sb).
  pose proof (se_hash _ _ _ _ _ Sa) as F1. pose proof (se_hash _ _ _ _ _ Sb) as F2.
  unfold event_hash in F1, F2. rewrite E2 in F1. destruct e, e'. cbn in *. congruence.
Qed.

(** What a successful verification has read. *)
Lemma VerifyIntegrity_inv taskID E (w w' : World TaskFiles) :
  honest E -> VerifyIntegrity taskID E w = (Ok tt, w') ->
  exists data events, tf_data (st w) = Some data /\ parseEvents taskID data = Ok events /\
    chain any_data taskID 1 "" events /\
    (tf_head (st w) = Some (Some (head_at events (length events))) \/ (tf_head (st w) = None /\ events = [])).
Proof.
  intros Hho. unfold VerifyIntegrity, readEvents, readData. intros Hv. apply bind_ok in Hv as (u&w1&G1&Hv).
  injection G1 as _ <-. apply bind_ok in Hv as (events&w2&He&Hv). apply bind_ok in He as (data&w3&Hd&He).
  assert (D : tf_data (st w) = Some data /\ st w3 = st w).
  { unfold sys in Hd. destruct (faults E _); [done|]. destruct (tf_data (st w)) eqn:Ed; [|done]. injection Hd as <- <-. by destruct w. }
  destruct D as [D1 D2]. apply bind_ok in He as (u'&w4&Hg&He). injection Hg as _ <-. injection He as He <-.
  assert (C : chain any_data taskID 1 "" events).
  { unfold parseEvents in He. destruct (scan_events _) as [lines long]. by eapply parse_lines_linked. }
  apply bind_ok in Hv as (h&w5&Hh&Hv). unfold guard_, lift in Hv.
  destruct (_ || _ : bool) eqn:Eb; [done|]. apply orb_false_iff in Eb as [E1 E2].
  apply negb_false_iff in E1, E2. apply Z.eqb_eq in E1. apply String.eqb_eq in E2.
  assert (Hhd : h = head_at events (length events)) by (rewrite head_at_full; destruct h; cbn in *; congruence).
  exists data, events. split; [done|]. split; [done|]. split; [done|]. rewrite <- Hhd.
  unfold readHead in Hh. apply bind_ok in Hh as (r&w6&Hr&Hh). unfold try_, sys in Hr.
  destruct (faults E (sysno w3)) as [no|] eqn:Ef.
  - injection Hr as <- <-. cbn [errors_is] in Hh. case_bool_decide; [|done]. subst. by apply Hho in Ef.
  - rewrite D2 in Hr. destruct (tf_head (st w)) as [[h'|]|] eqn:Eh; injection Hr as <- <-; [|done|].
    + injection Hh as <- _. by left.
    + right. split; [done|]. cbn [errors_is] in Hh. rewrite bool_decide_true in Hh by done.
      apply bind_ok in Hh as (r2&w7&Hr2&Hh).
      assert (h = no_head) as -> by (destruct r2 as [d2|e2]; [destruct (0 <? String.length d2)%nat|destruct (errors_is e2 ENOENT)]; by injection Hh).
      cbn in E1. destruct events; [done|cbn in E1; lia].
Qed.
End Tamper.

(** ** Redaction *)
Section Redaction.
Context `{UnicodeCase} `{SecretPatterns}.

(** At every depth the value of a sensitive key is the placeholder. *)
Fixpoint secrets_hidden (v : json) : Prop :=
  match v with
  | JObj l => foldr and True (map (fun kv => if sensitiveKey kv.1 then kv.2 = REDACTED else secrets_hidden kv.2) l)
  | JArr l => foldr and True (map secrets_hidden l)
  | _ => True
  end.

Lemma foldr_and {A} (P : A -> Prop) l : foldr and True (map P l) <-> forall x, x ∈ l -> P x.
Proof.
  induction l as [|y l IH]; cbn; [split; [intros _ x Hx; by apply not_elem_of_nil in Hx|done]|].
  rewrite IH. setoid_rewrite elem_of_cons. naive_solver.
Qed.

Definition record_hidden (m : gmap string json) : Prop :=
  map_Forall (fun k v => if sensitiveKey k then v = REDACTED else secrets_hidden v) m.

Lemma JMap_hidden m : record_hidden m -> secrets_hidden (JMap m).
Proof.
  intros Hm. unfold JMap. cbn [secrets_hidden]. apply foldr_and. intros [k v] Hkv.
  rewrite merge_sort_Permutation, elem_of_map_to_list in Hkv. exact (Hm k v Hkv).
Qed.

Lemma redactValue_hidden v : secrets_hidden (redactValue v).
Proof.
  induction v as [|b|lit|s|l IH|l IH] using json_ind_nested; cbn [redactValue]; try done.
  - cbn [secrets_hidden]. apply foldr_and. intros x Hx. apply list_elem_of_In, in_map_iff in Hx as (y&<-&Hy).
    rewrite Forall_forall in IH. by apply IH, list_elem_of_In.
  - apply JMap_hidden. intros k v Hv. apply of_fields_lookup, list_elem_of_In, in_map_iff in Hv as ([k' y]&E&Hy).
    cbn [fst snd] in E. injection E as <- <-. destruct (sensitiveKey k'); [done|].
    rewrite Forall_forall in IH. by apply (IH (k', y)), list_elem_of_In.
Qed.

Lemma plain_key k : is_ascii k = true ->
  sensitiveKey k = let n := remove_bytes "_-. " (map_bytes lower_ascii k) in
    string_in n sensitive_names || Contains n "password" || Contains n "secret" || HasSuffix n "token".
Proof. intros Hk. unfold sensitiveKey. by rewrite ToLower_ascii. Qed.

Lemma hidden_insert m k v : record_hidden m -> is_ascii k = true -> sensitiveKey k = false -> secrets_hidden v ->
  record_hidden (<[k := v]> m).
Proof. intros Hm Hk Hs Hv. apply map_Forall_insert_2; [|done]. by rewrite Hs. Qed.

Lemma normalizeDecision_hidden taskID n v : secrets_hidden v -> record_hidden (normalizeDecision taskID n v).
Proof.
  intros Hv. unfold normalizeDecision.
  assert (K : forall k, is_ascii k = true ->
    (let n := remove_bytes "_-. " (map_bytes lower_ascii k) in
     string_in n sensitive_names || Contains n "password" || Contains n "secret" || HasSuffix n "token") = false ->
    sensitiveKey k = false) by (intros k Hk Hn; by rewrite plain_key).
  assert (D : forall m k, record_hidden m -> record_hidden (digest_arguments m k)).
  { intros m k Hm. unfold digest_arguments. destruct (m !! k); [|done]. apply map_Forall_delete.
    by apply hidden_insert; [| |apply K|]. }
  assert (F : forall l m, record_hidden m ->
              Forall (fun kv => is_ascii kv.1 = true /\ sensitiveKey kv.1 = false /\ secrets_hidden kv.2) l ->
              record_hidden (foldl with_default m l)).
  { induction l as [|[k x] l IH]; intros m Hm Hl; [done|]. apply Forall_cons_1 in Hl as [(Hk&Hs&Hx) Hl]. cbn [foldl].
    apply IH; [|done]. unfold with_default. cbn [fst snd] in *. destruct (m !! k); [done|]. by apply hidden_insert. }
  cbn [foldl]. apply D, D, F.
  - apply hidden_insert; [apply hidden_insert| | |]; try done; try by apply K.
    destruct v; try (apply map_Forall_singleton; by rewrite K).
    intros k x Hx. apply of_fields_lookup in Hx. cbn [secrets_hidden] in Hv. rewrite foldr_and in Hv. exact (Hv _ Hx).
  - repeat (constructor; [split; [done|split; [by apply K|done]]|]). constructor.
Qed.
End Redaction.

(** ** Properties *)

(** C22: the audit log is durable.  Start from files that hold a log, run
    any appends and recoveries in any lives of the process, with failures,
    torn writes and crashes anywhere: afterwards the files hold the old log
    followed by new events, still one hash chain, and the events whose
    append reported success are among the new ones, unaltered and in
    order. *)
Theorem trace_durable `{EventDecoderOk} `{UnicodeCase} `{SecretPatternsOk} `{TimeTextOk}
    (taskID : string) (Htask : valid_utf8 taskID = true)
    (lives : list (Env * list trace_op)) (Hh : Forall (fun life => honest life.1) lives)
    (Hg : Forall (fun life => Forall good_op life.2) lives) (log : list Event) (f : TaskFiles) (R : Rep taskID log f) :
  exists new, Rep taskID (log ++ new) (run_traces taskID lives f).1 /\
    (run_traces taskID lives f).2 `sublist_of` new.
Proof.
  revert log f R. induction lives as [|[E l] lives IH]; intros log f R.
  { exists []. by rewrite app_nil_r. }
  apply Forall_cons_1 in Hh as [Hh1 Hh], Hg as [Hg1 Hg]. cbn [fst snd run_traces] in *.
  destruct (mapM _ l E (init_world f)) as [rs w] eqn:Er.
  destruct (wp_run E _ _ (init_world f) rs w (run_life_wp taskID Htask E l log f Hh1 R Hg1) Er) as (new1&R1&rs'&->&S1).
  destruct (IH Hh Hg _ _ R1) as (new2&R2&S2). destruct (run_traces taskID lives (st w)) as [f' acked]. cbn [fst snd] in *.
  exists (new1 ++ new2). rewrite app_assoc. split; [done|]. by apply sublist_app.
Qed.

(** After a crash, recovery makes the log verifiable.  From files that
    hold a non-empty log whose lines fit the scanner, with a torn tail or a
    late head, recovery without failures succeeds, [VerifyIntegrity] then
    accepts, and [Read] returns exactly the log. *)
Theorem trace_verifies_after_recovery `{EventDecoderOk} (taskID : string) (E : Env) (log : list Event) (f : TaskFiles)
    (Hq : quiet E) (R : Rep taskID log f) (Hf : Forall fits log) (Hn : log <> []) (Hv : validID taskID = Ok tt) :
  wp E (recoverLocked taskID ;;; VerifyIntegrity taskID ;;; Read taskID) (fun r _ => r = Ok log) f.
Proof.
  assert (Hh : honest E) by (intros n; by rewrite (proj1 Hq)).
  wp_step. eapply wp_mono; [apply wp_and; [by apply (recoverLocked_wp taskID E log)|by eapply recoverLocked_quiet]|].
  intros [h|e] f1 [R1 Hok]; [|done]. destruct R1 as (_&S1&_). wp_step.
  eapply wp_mono; [by apply (VerifyIntegrity_settled taskID E log f1)|]. intros r f2 [-> ->].
  unfold Read. rewrite Hv. wp_step. wp_step.
  eapply wp_mono; [by apply (readEvents_settled taskID E log f1)|]. by intros r f2 [-> ->].
Qed.

(** Tampering shows.  If [VerifyIntegrity] accepts two event files
    against the same head, in any environments, the two files hold the same
    events, field by field, unless there is a SHA-256 collision. *)
Theorem trace_tamper_evident `{EventDecoderOk} (taskID : string) (E1 E2 : Env) (w1 w2 w1' w2' : World TaskFiles)
    (H1 : honest E1) (H2 : honest E2)
    (V1 : VerifyIntegrity taskID E1 w1 = (Ok tt, w1')) (V2 : VerifyIntegrity taskID E2 w2 = (Ok tt, w2'))
    (Hh : tf_head (st w1) = tf_head (st w2)) :
  (exists d1 d2 events, tf_data (st w1) = Some d1 /\ tf_data (st w2) = Some d2 /\
     parseEvents taskID d1 = Ok events /\ parseEvents taskID d2 = Ok events) \/
  exists x y, collides x y.
Proof.
  destruct (VerifyIntegrity_inv taskID E1 w1 w1' H1 V1) as (d1&l1&D1&P1&C1&K1).
  destruct (VerifyIntegrity_inv taskID E2 w2 w2' H2 V2) as (d2&l2&D2&P2&C2&K2).
  assert (A : length l1 = length l2 /\ last_hash l1 = last_hash l2).
  { destruct K1 as [K1|[K1 ->]], K2 as [K2|[K2 ->]]; rewrite K1, K2 in Hh; try done.
    rewrite !head_at_full in Hh. injection Hh as El Eh. split; [lia|done]. }
  destruct (chains_agree taskID l1 l2 C1 C2) as [->|C]; [apply A|apply A| |by right].
  left. by exists d1, d2, l2.
Qed.

(** No secret reaches the log.  In every payload that [Append] writes,
    at every depth of objects and arrays, the value of a key that is
    sensitive (after lower-casing and dropping separators) is the
    placeholder, also in normalised decision records. *)
Theorem payload_hides_secrets `{UnicodeCase} `{SecretPatterns} (taskID : string) (sequence : Z) (typ : string) (data : json) :
  secrets_hidden (payload_json taskID sequence typ data).
Proof.
  unfold payload_json. destruct (String.eqb typ DecisionRecorded); [|apply redactValue_hidden].
  apply JMap_hidden, normalizeDecision_hidden, redactValue_hidden.
Qed.

(** *** A concrete decoder: the lines that [Append] writes *)
Definition str_field (k : string) (l : list (string * json)) : option string :=
  match get_field k l with Some (JStr s) => Some s | _ => None end.

Definition event_of_fields (l : list (string * json)) : option Event :=
  match get_field "sequence" l, str_field "timestamp" l, str_field "type" l, str_field "task_id" l,
        str_field "session_id" l, get_field "data" l, str_field "prev_hash" l, str_field "event_hash" l with
  | Some (JNum n), Some ts, Some ty, Some ta, Some se, Some d, Some p, Some h =>
    match parse_Z n with
    | Some n => if forallb valid_utf8 [ts; ty; ta; se; p; h] then Some (MkEvent n ts ty ta se (print d) p h) else None
    | None => None
    end
  | _, _, _, _, _, _, _, _ => None
  end.

Lemma event_of_fields_valid l e : event_of_fields l = Some e -> valid_event e.
Proof.
  unfold event_of_fields. repeat (case_match; try done). intros [= <-].
  match goal with F : forallb _ _ = true |- _ => cbn [forallb] in F; rewrite !andb_true_iff in F; destruct F as (?&?&?&?&?&?&_) end.
  by split.
Qed.

Definition plain_decoder : EventDecoder := fun line =>
  match parse line with
  | Some (JObj l) => match event_of_fields l with Some e => Ok e | None => Err (EMsg "json: event") end
  | _ => Err (EMsg "json: event")
  end.

Definition event_json (e : Event) (data : json) : json :=
  JObj [("sequence", JInt (ev_Sequence e)); ("timestamp", JStr (ev_Timestamp e)); ("type", JStr (ev_Type e));
        ("task_id", JStr (ev_TaskID e)); ("session_id", JStr (ev_SessionID e)); ("data", data);
        ("prev_hash", JStr (ev_PrevHash e)); ("event_hash", JStr (ev_EventHash e))].

Lemma plain_decoder_ok : @EventDecoderOk plain_decoder.
Proof.
  split.
  - intros e j [V1 V2 V3 V4 V5 V6] Hj Hd. unfold Unmarshal, plain_decoder.
    assert (L : event_line e = print (event_json e j)) by (unfold event_line, raw_obj, canonical_fields; by rewrite Hd).
    rewrite L, parse_print.
    + unfold event_json, event_of_fields, str_field. cbn [get_field String.eqb Ascii.eqb Bool.eqb].
      unfold JInt. rewrite parse_show_Z. cbn [forallb]. rewrite V1, V2, V3, V4, V5, V6, <- Hd. by destruct e.
    + unfold event_json. cbn [wf_json forallb fst snd]. unfold JInt. cbn [wf_json].
      by rewrite num_lit_show_Z, V1, V2, V3, V4, V5, V6, Hj.
  - intros line e. unfold Unmarshal, plain_decoder. repeat (case_match; try done). intros [= <-]. by eapply event_of_fields_valid.
Qed.

Definition plain_patterns : SecretPatterns := {|
  replace_bearer := fun s => s; replace_openai := fun s => s; replace_assignment := fun _ s => s
|}.
Lemma plain_patterns_ok : @SecretPatternsOk plain_patterns.
Proof. split. done. Qed.

Definition trace_case : UnicodeCase := fun r => r.
Definition fresh_files : TaskFiles := MkTaskFiles None None.

Lemma fresh_Rep taskID : Rep taskID [] fresh_files.
Proof. split; [done|by left|]. left. split; [done|]. split; [done|]. by left. Qed.

Definition one_append : list trace_op :=
  [TAppend "session_1" "TOOL_CALL" (Ok (JObj [("token", JStr "abc"); ("n", JNum "1")]))].

(** The write of the second life is torn after 30 bytes. *)
Definition torn_env : Env :=
  MkEnv (fun _ => 7) (fun k => if (4 <=? k)%nat then Some EIO else None) (fun _ => "") (fun _ => None) (fun _ => 30%nat).
Definition trace_lives : list (Env * list trace_op) :=
  [(calm 5 "", one_append); (torn_env, one_append); (calm 9 "", TRecover :: one_append)].

Lemma trace_lives_good :
  Forall (fun life => honest life.1) trace_lives /\ Forall (fun life => Forall good_op life.2) trace_lives.
Proof.
  assert (G : Forall good_op one_append).
  { constructor; [|constructor]. split; [done|]. split; [done|]. by intros j [= <-]. }
  split.
  - constructor; [done|]. constructor; [|by constructor]. intros n. unfold torn_env. cbn [faults fst]. by destruct (4 <=? n)%nat.
  - constructor; [done|]. constructor; [done|]. constructor; [by constructor|constructor].
Qed.

Lemma trace_durable_witness :
  exists new, Rep "task_1" ([] ++ new)
    (run_traces (H := plain_decoder) (H0 := trace_case) (H1 := plain_patterns) (H2 := plain_time) "task_1" trace_lives fresh_files).1 /\
    (run_traces (H := plain_decoder) (H0 := trace_case) (H1 := plain_patterns) (H2 := plain_time) "task_1" trace_lives fresh_files).2
      `sublist_of` new.
Proof.
  apply (trace_durable (H := plain_decoder) (H0 := plain_decoder_ok) (H1 := trace_case) (H2 := plain_patterns)
           (H3 := plain_patterns_ok) (H4 := plain_time) (H5 := plain_time_ok) "task_1" eq_refl trace_lives
           (proj1 trace_lives_good) (proj2 trace_lives_good) [] fresh_files (fresh_Rep "task_1")).
Defined.

(** Two events were acknowledged; the torn one left nothing. *)
Definition lab_files : TaskFiles * list Event := Eval vm_compute in
  run_traces (H := plain_decoder) (H0 := trace_case) (H1 := plain_patterns) (H2 := plain_time) "task_1" trace_lives fresh_files.
Example trace_lives_run :
  length lab_files.2 = 2%nat /\
  (match tf_data lab_files.1 with Some d => Some d | None => None end) = Some (log_text lab_files.2).
Proof. vm_compute. split; reflexivity. Qed.

(** A torn tail behind one event, and the head one event late. *)
Definition late_files : TaskFiles :=
  MkTaskFiles (Some (log_text lab_files.2 +:+ "{")) (Some (Some (head_at lab_files.2 1))).

Lemma lab_chain : chain json_data "task_1" 1 "" lab_files.2.
Proof.
  split; [|split; [|done]]; (split; [reflexivity|reflexivity|reflexivity|vm_compute; reflexivity|by split|]);
    exists (JObj [("n", JNum "1"); ("token", REDACTED)]); split; reflexivity.
Qed.

Lemma late_Rep : Rep "task_1" lab_files.2 late_files.
Proof.
  split; [exact lab_chain| |].
  - right. exists "{". split; reflexivity.
  - right. exists 1%nat. split; [cbn; lia|reflexivity].
Qed.

Lemma trace_verifies_after_recovery_witness :
  wp (calm 5 "") (recoverLocked (H := plain_decoder) "task_1" ;;; VerifyIntegrity (H := plain_decoder) "task_1" ;;;
                  Read (H := plain_decoder) "task_1") (fun r _ => r = Ok lab_files.2) late_files.
Proof.
  apply (trace_verifies_after_recovery (H := plain_decoder) (H0 := plain_decoder_ok) "task_1" (calm 5 "") lab_files.2 late_files).
  - apply calm_quiet.
  - exact late_Rep.
  - repeat constructor; vm_compute; reflexivity.
  - discriminate.
  - reflexivity.
Defined.

Definition whole_files : TaskFiles :=
  MkTaskFiles (Some (log_text lab_files.2)) (Some (Some (head_at lab_files.2 2))).

Lemma trace_tamper_evident_witness :
  (exists d1 d2 events, tf_data whole_files = Some d1 /\ tf_data whole_files = Some d2 /\
     parseEvents (H := plain_decoder) "task_1" d1 = Ok events /\ parseEvents (H := plain_decoder) "task_1" d2 = Ok events) \/
  exists x y, collides x y.
Proof.
  apply (trace_tamper_evident (H := plain_decoder) (H0 := plain_decoder_ok) "task_1" (calm 5 "") (calm 6 "")
           (init_world whole_files) (init_world whole_files)
           (MkWorld whole_files 0 2 0 0) (MkWorld whole_files 0 2 0 0)).
  - intros n. discriminate.
  - intros n. discriminate.
  - vm_compute. reflexivity.
  - vm_compute. reflexivity.
  - reflexivity.
Defined.

(** An event whose line does not fit the scanner is written and
    acknowledged all the same; from then on the log of its task can be
    neither read nor appended to. *)
Lemma oversized_event_blocks_log `{EventDecoderOk} `{UnicodeCase} `{SecretPatternsOk} `{TimeTextOk}
    (taskID : string) (log : list Event) (e : Event) (f : TaskFiles) (E : Env) sessionID typ data :
  honest E -> Rep taskID (log ++ [e]) f -> ~ fits e ->
  wp E (Append taskID sessionID typ data) (fun r _ => is_ok r = false) f.
Proof.
  intros Hh R Hl. unfold Append, guard_. wp_step. wp_step; [|done]. wp_step. wp_step. destruct (validID taskID) as [[]|]; [|done].
  wp_step. eapply wp_mono; [by apply recoverLocked_wp|]. intros [h|er] f1 R1; [|done]. destruct R1 as [Hf _].
  exfalso. apply Hl. apply Forall_app in Hf as [_ Hf]. by apply Forall_cons_1 in Hf as [Hf _].
Qed.
