(* ===== verification/Store.v ===== *)
(** * [internal/storage/file.go]: tasks, sessions, leases and the journal

    The store keeps one JSON file per session and task and one journal file
    per task in preparation.  The model keeps, by file name, what the file
    decodes to ([None] for bytes that do not decode).  Every operation that
    writes holds the file lock, so operations of several processes do not
    interleave; a lock that is busy is waited for as long as the context
    lives ([busy] tells how often it was found taken).  The value an
    operation returns beside an error is not modelled, and a record is taken
    to be read back as it was written. *)

From S2P Require Import Prelude GoStrings GoText GoPath Json.
Open Scope Z_scope.

(** ** [internal/task/task.go] and [internal/session/session.go] *)
Record Step := MkStep {
  sp_ID : string;
  sp_Description : string;
  sp_Tool : string;
  sp_State : string
}.

Record RuntimeObservation := MkRuntimeObservation {
  ro_ServerID : string;
  ro_Tool : string;
  ro_Arguments : json;
  ro_Result : json;
  ro_EvidenceRef : string;
  ro_Digest : string
}.

Record RuntimeGuardFeedback := MkRuntimeGuardFeedback {
  rg_Code : string;
  rg_Summary : string;
  rg_Tool : string;
  rg_AttemptedPath : string;
  rg_AuthorizedPaths : list string;
  rg_ExcludedPaths : list string
}.

Record RuntimeCheckpoint := MkRuntimeCheckpoint {
  rc_Iterations : Z;
  rc_ToolCalls : Z;
  rc_Replans : Z;
  rc_NoProgressRepeats : Z;
  rc_LastProgressDigest : string;
  rc_MaxIterations : Z;
  rc_MaxToolCalls : Z;
  rc_StartedAt : Z;
  rc_DeadlineAt : Z;
  rc_Observations : list RuntimeObservation;
  rc_GuardFeedback : list RuntimeGuardFeedback
}.

Record WorkerLease := MkWorkerLease {
  wl_Owner : string;
  wl_Token : string;
  wl_Fence : Z;
  wl_ExpiresAt : Z
}.

Record Task := MkTask {
  tk_ID : string;
  tk_SessionID : string;
  tk_Objective : string;
  tk_OriginalRequest : string;
  tk_State : string;
  tk_IntentType : string;
  tk_Plan : list Step;
  tk_CurrentStep : Z;
  tk_CompletedSteps : list string;
  tk_Findings : list string;
  tk_SelectedResources : list string;
  tk_EvidenceRefs : list string;
  tk_PendingAction : option json;
  tk_PendingApprovalID : string;
  tk_VerificationGoal : string;
  tk_WorkflowData : gmap string json;
  tk_Runtime : RuntimeCheckpoint;
  tk_WorkerLease : WorkerLease;
  tk_Checkpoint : Z;
  tk_FailureReason : string;
  tk_CreatedAt : Z;
  tk_UpdatedAt : Z
}.

(** The task with the fields the store and the scheduler change. *)
Definition task_with (t : Task) (state : string) (lease : WorkerLease) (checkpoint updated : Z) : Task :=
  MkTask (tk_ID t) (tk_SessionID t) (tk_Objective t) (tk_OriginalRequest t) state (tk_IntentType t) (tk_Plan t)
    (tk_CurrentStep t) (tk_CompletedSteps t) (tk_Findings t) (tk_SelectedResources t) (tk_EvidenceRefs t)
    (tk_PendingAction t) (tk_PendingApprovalID t) (tk_VerificationGoal t) (tk_WorkflowData t) (tk_Runtime t)
    lease checkpoint (tk_FailureReason t) (tk_CreatedAt t) updated.

Definition with_lease (t : Task) (lease : WorkerLease) : Task :=
  task_with t (tk_State t) lease (tk_Checkpoint t) (tk_UpdatedAt t).

Definition Transition {S} (state : string) (t : Task) : M S Task :=
  current <- now ;; ret (task_with t state (tk_WorkerLease t) (tk_Checkpoint t + 1) current).

Record Message := MkMessage {
  ms_ID : string;
  ms_Role : string;
  ms_Content : string;
  ms_TaskID : string;
  ms_CreatedAt : Z
}.

Record Session := MkSession {
  sn_ID : string;
  sn_Name : string;
  sn_Archived : bool;
  sn_Messages : list Message;
  sn_Summary : string;
  sn_PinnedContext : gmap string string;
  sn_SelectedResources : list string;
  sn_CreatedAt : Z;
  sn_UpdatedAt : Z
}.

(** ** The store *)
Definition ErrNotFound : error := ESentinel "not found".
Definition ErrTaskLeased : error := ESentinel "task is leased by another worker".
Definition ErrLeaseConflict : error := ESentinel "task worker lease conflict".
Definition ErrLeaseExpired : error := ESentinel "task worker lease expired".

Record taskPreparation := MkTaskPreparation {
  tp_SchemaVersion : Z;
  tp_Task : Task;
  tp_Session : Session
}.

(** The directories "sessions", "tasks" and "state" (its lock file has no
    content). *)
Record Store := MkStore {
  st_sessions : gmap string (option Session);
  st_tasks : gmap string (option Task);
  st_state : gmap string (option taskPreparation)
}.

(** One of the directories, with the files in it. *)
Record Kind (A : Type) := MkKind {
  kd_get : Store -> gmap string (option A);
  kd_set : gmap string (option A) -> Store -> Store
}.
Arguments MkKind {A}.
Arguments kd_get {A}.
Arguments kd_set {A}.

Definition sessions : Kind Session := MkKind st_sessions (fun m s => MkStore m (st_tasks s) (st_state s)).
Definition tasks : Kind Task := MkKind st_tasks (fun m s => MkStore (st_sessions s) m (st_state s)).
Definition state : Kind taskPreparation := MkKind st_state (fun m s => MkStore (st_sessions s) (st_tasks s) m).

Definition validateID (id : string) : result unit :=
  fail_if String.eqb id "" || ContainsAny id "/\" || String.eqb id "." || String.eqb id ".."
  with EMsg "invalid id" ;; Ok tt.

(** Create, chmod, write, sync and close a temporary file; rename; open,
    sync and close the directory. *)
Definition saveLocked {A} (kind : Kind A) (id : string) (value : A) : M Store unit :=
  ctx_check ;;;
  atomic_write 5 3 (fun s => kd_set kind (<[id := Some value]> (kd_get kind s)) s).

Definition read_file {A} (kind : Kind A) (id : string) : M Store A :=
  b <- try_ (sys (fun s => match kd_get kind s !! id with None => Err (ESys ENOENT) | Some b => Ok (b, s) end)) ;;
  match b with
  | Err e => if errors_is e ENOENT then throw ErrNotFound else throw e
  | Ok None => throw (EMsg "json: cannot unmarshal")
  | Ok (Some v) => ret v
  end.

Definition loadLocked {A} (kind : Kind A) (id : string) : M Store A := read_file kind id.

(** The wait for [flock]: the context is polled each time it is busy. *)
Fixpoint await_lock (busy : nat) : M Store unit :=
  match busy with
  | 0%nat => probe
  | S busy => ctx_check ;;; await_lock busy
  end.

Definition withExclusive {A} (busy : nat) (operation : M Store A) : M Store A :=
  ctx_check ;;;
  probe ;;;
  await_lock busy ;;;
  operation.

Definition preparationID (taskID : string) : string := "prepare-" +:+ taskID.

(** Remove the journal; open, sync and close the directory. *)
Definition removePreparationLocked (taskID : string) : M Store unit :=
  sys (fun s => match st_state s !! preparationID taskID with
                | None => Err (ESys ENOENT)
                | Some _ => Ok (tt, kd_set state (delete (preparationID taskID) (st_state s)) s)
                end) ;;;
  probes 3.

Definition validateTaskWrite (current next : Task) : M Store unit :=
  let lease := tk_WorkerLease current in
  let mine := tk_WorkerLease next in
  if String.eqb (wl_Token lease) "" then
    lift (guard_ (negb (String.eqb (wl_Token mine) "") || (wl_Fence mine <? wl_Fence lease)) ErrLeaseConflict)
  else
    lift (guard_ (negb (String.eqb (wl_Token mine) (wl_Token lease)) || negb (wl_Fence mine =? wl_Fence lease))
            ErrLeaseConflict) ;;;
    t <- now ;;
    lift (guard_ (negb (t <? wl_ExpiresAt lease)) ErrLeaseExpired).

(** One entry of the loop of [recoverTaskPreparationsLocked]. *)
Definition recover_entry (name : string) : M Store unit :=
  if negb (HasPrefix name "prepare-") then ret tt
  else
    record <- loadLocked state name ;;
    lift (guard_ (negb (tp_SchemaVersion record =? 1) || negb (is_ok (validateID (tk_ID (tp_Task record))))
                  || negb (is_ok (validateID (sn_ID (tp_Session record))))
                  || negb (String.eqb (tk_SessionID (tp_Task record)) (sn_ID (tp_Session record))))
            (EMsg ("invalid task preparation journal " +:+ name +:+ ".json"))) ;;;
    saveLocked tasks (tk_ID (tp_Task record)) (tp_Task record) ;;;
    saveLocked sessions (sn_ID (tp_Session record)) (tp_Session record) ;;;
    removePreparationLocked (tk_ID (tp_Task record)).

Definition file_le (a b : string) : Prop := String.leb (a +:+ ".json") (b +:+ ".json") = true.
#[export] Instance file_le_dec a b : Decision (file_le a b).
Proof. unfold file_le. apply _. Defined.

(** [os.ReadDir]: the names of the [.json] files in byte order. *)
Definition file_names {A} (m : gmap string A) : list string := merge_sort file_le (elements (dom m)).

Definition recoverTaskPreparationsLocked : M Store unit :=
  names <- sys (fun s => Ok (file_names (st_state s), s)) ;;
  mapM recover_entry names ;;;
  ret tt.

(** Making the directories has no effect on the files. *)
Definition NewFileStore (busy : nat) : M Store unit :=
  probes 7 ;;;
  wrapping "recover task preparations: " (background (withExclusive busy recoverTaskPreparationsLocked)).

(** ** Operations *)
Section Operations.
Context (busy : nat).

Definition SaveSession (value : Session) : M Store unit :=
  lift (validateID (sn_ID value)) ;;;
  withExclusive busy (saveLocked sessions (sn_ID value) value).

Definition UpdateSession (id : string) (mutate : Session -> result Session) : M Store Session :=
  lift (validateID id) ;;;
  withExclusive busy (
    value <- loadLocked sessions id ;;
    value <- lift (mutate value) ;;
    lift (guard_ (negb (String.eqb (sn_ID value) id)) (EMsg "session mutation changed the session id")) ;;;
    saveLocked sessions id value ;;;
    ret value).

Definition message_count (s : Session) (taskID : string) : nat :=
  length (List.filter (fun m => String.eqb (ms_TaskID m) taskID) (sn_Messages s)).

Definition PrepareTask (value : Task) (mutate : Session -> result Session) : M Store Session :=
  lift (validateID (tk_ID value)) ;;;
  lift (validateID (tk_SessionID value)) ;;;
  withExclusive busy (
    existing <- try_ (loadLocked tasks (tk_ID value)) ;;
    (match existing with
     | Ok _ => throw (EMsg "task already exists")
     | Err e => if errors_is_sentinel e "not found" then ret tt else throw e
     end) ;;;
    prepared <- loadLocked sessions (tk_SessionID value) ;;
    prepared <- lift (mutate prepared) ;;
    lift (guard_ (negb (String.eqb (sn_ID prepared) (tk_SessionID value)))
            (EMsg "session mutation changed the session id")) ;;;
    lift (guard_ (negb (message_count prepared (tk_ID value) =? 1)%nat)
            (EMsg "prepared session must contain exactly one message bound to the task")) ;;;
    saveLocked state (preparationID (tk_ID value)) (MkTaskPreparation 1 value prepared) ;;;
    saveLocked tasks (tk_ID value) value ;;;
    saveLocked sessions (sn_ID prepared) prepared ;;;
    removePreparationLocked (tk_ID value) ;;;
    ret prepared).

Definition SaveTask (value : Task) : M Store unit :=
  lift (validateID (tk_ID value)) ;;;
  withExclusive busy (
    current <- try_ (loadLocked tasks (tk_ID value)) ;;
    (match current with
     | Ok current => validateTaskWrite current value
     | Err e => if errors_is_sentinel e "not found" then ret tt else throw e
     end) ;;;
    saveLocked tasks (tk_ID value) value).

Definition ClaimTask (id owner token : string) (ttl : Z) : M Store Task :=
  lift (validateID id) ;;;
  lift (guard_ (String.eqb (TrimSpace owner) "" || String.eqb (TrimSpace token) "")
          (EMsg "worker owner and token are required")) ;;;
  lift (guard_ ((ttl <=? 0) || (10 * Minute <? ttl)) (EMsg "worker lease TTL must be within (0, 10m]")) ;;;
  withExclusive busy (
    value <- loadLocked tasks id ;;
    t <- now ;;
    lift (guard_ (negb (String.eqb (wl_Token (tk_WorkerLease value)) "") && (t <? wl_ExpiresAt (tk_WorkerLease value)))
            ErrTaskLeased) ;;;
    let value := with_lease value (MkWorkerLease (TrimSpace owner) (TrimSpace token)
                                     (wrap64 (wl_Fence (tk_WorkerLease value) + 1)) (t + ttl)) in
    saveLocked tasks id value ;;;
    ret value).

Definition ReleaseTask (id token : string) (fence : Z) : M Store Task :=
  lift (validateID id) ;;;
  withExclusive busy (
    value <- loadLocked tasks id ;;
    lift (guard_ (negb (String.eqb (wl_Token (tk_WorkerLease value)) token)
                  || negb (wl_Fence (tk_WorkerLease value) =? fence)) ErrLeaseConflict) ;;;
    let value := with_lease value (MkWorkerLease "" "" (wl_Fence (tk_WorkerLease value)) zero_time) in
    saveLocked tasks id value ;;;
    ret value).
End Operations.

(** Reading takes no file lock: a replaced file is the old or the new one. *)
Definition get {A} (kind : Kind A) (id : string) : M Store A :=
  ctx_check ;;;
  lift (validateID id) ;;;
  read_file kind id.

Definition GetSession : string -> M Store Session := get sessions.
Definition GetTask : string -> M Store Task := get tasks.

Definition list_ {A} (kind : Kind A) : M Store (list A) :=
  ctx_check ;;;
  names <- sys (fun s => Ok (file_names (kd_get kind s), s)) ;;
  mapM (fun name =>
    ctx_check ;;;
    b <- sys (fun s => match kd_get kind s !! name with None => Err (ESys ENOENT) | Some b => Ok (b, s) end) ;;
    match b with
    | None => throw (EWrap ("decode " +:+ name +:+ ".json: ") (EMsg "json: cannot unmarshal"))
    | Some v => ret v
    end) names.

(** [sort.Slice] by the time of update, latest first (it leaves the order
    of equal times open). *)
Definition later_first {A} (updated : A -> Z) (a b : A) : Prop := updated b <= updated a.
#[export] Instance later_first_dec {A} (updated : A -> Z) a b : Decision (later_first updated a b).
Proof. unfold later_first. apply _. Defined.

Definition ListSessions : M Store (list Session) :=
  out <- list_ sessions ;; ret (merge_sort (later_first sn_UpdatedAt) out).
Definition ListTasks : M Store (list Task) :=
  out <- list_ tasks ;; ret (merge_sort (later_first tk_UpdatedAt) out).

(** ** What is promised

    [effect E o s r s']: what operation [o] may do to the store, whatever
    fails: the whole protocol, without system calls, locks and contexts. *)
Inductive sop :=
  | OSaveSession (value : Session)
  | OUpdateSession (id : string) (mutate : Session -> result Session)
  | OPrepareTask (value : Task) (mutate : Session -> result Session)
  | OSaveTask (value : Task)
  | OClaimTask (id owner token : string) (ttl : Z)
  | OReleaseTask (id token : string) (fence : Z)
  | ORestart.

Definition run_sop (busy : nat) (o : sop) : M Store unit :=
  match o with
  | OSaveSession v => SaveSession busy v
  | OUpdateSession id f => UpdateSession busy id f ;;; ret tt
  | OPrepareTask v f => PrepareTask busy v f ;;; ret tt
  | OSaveTask v => SaveTask busy v
  | OClaimTask id owner token ttl => ClaimTask busy id owner token ttl ;;; ret tt
  | OReleaseTask id token fence => ReleaseTask busy id token fence ;;; ret tt
  | ORestart => NewFileStore busy
  end.

Definition put {A} (kind : Kind A) (id : string) (v : A) (s : Store) : Store :=
  kd_set kind (<[id := Some v]> (kd_get kind s)) s.
Definition drop_journal (taskID : string) (s : Store) : Store :=
  kd_set state (delete (preparationID taskID) (st_state s)) s.

Definition has {A} (kind : Kind A) (id : string) (v : A) (s : Store) : Prop := kd_get kind s !! id = Some (Some v).

Definition valid (id : string) : Prop := validateID id = Ok tt.

(** A journal entry is replayed only when it is well formed. *)
Record journal_ok (r : taskPreparation) : Prop := {
  jo_version : tp_SchemaVersion r = 1;
  jo_task : valid (tk_ID (tp_Task r));
  jo_session : valid (sn_ID (tp_Session r));
  jo_bound : tk_SessionID (tp_Task r) = sn_ID (tp_Session r)
}.

Inductive replay : Store -> Store -> Prop :=
  | replay_task s name r : HasPrefix name "prepare-" = true -> has state name r s -> journal_ok r ->
      replay s (put tasks (tk_ID (tp_Task r)) (tp_Task r) s)
  | replay_session s name r : HasPrefix name "prepare-" = true -> has state name r s -> journal_ok r ->
      has tasks (tk_ID (tp_Task r)) (tp_Task r) s ->
      replay s (put sessions (sn_ID (tp_Session r)) (tp_Session r) s)
  | replay_done s name r : HasPrefix name "prepare-" = true -> has state name r s -> journal_ok r ->
      has tasks (tk_ID (tp_Task r)) (tp_Task r) s -> has sessions (sn_ID (tp_Session r)) (tp_Session r) s ->
      replay s (drop_journal (tk_ID (tp_Task r)) s).

(** What [PrepareTask] may write: the journal first, then what it says. *)
Definition prepared_record (value : Task) (mutate : Session -> result Session) (s : Store) (r : taskPreparation) : Prop :=
  exists old, has sessions (tk_SessionID value) old s /\ mutate old = Ok (tp_Session r) /\
    st_tasks s !! tk_ID value = None /\ tp_Task r = value /\ journal_ok r /\
    message_count (tp_Session r) (tk_ID value) = 1%nat.

Definition journaled (r : taskPreparation) : Store -> Store := put state (preparationID (tk_ID (tp_Task r))) r.
Definition tasked (r : taskPreparation) : Store -> Store := put tasks (tk_ID (tp_Task r)) (tp_Task r).
Definition sessioned (r : taskPreparation) : Store -> Store := put sessions (sn_ID (tp_Session r)) (tp_Session r).

(** The lease rules for a write over [current], at time [t]. *)
Definition may_write (t : Z) (current next : Task) : Prop :=
  if String.eqb (wl_Token (tk_WorkerLease current)) ""
  then wl_Token (tk_WorkerLease next) = "" /\ wl_Fence (tk_WorkerLease current) <= wl_Fence (tk_WorkerLease next)
  else wl_Token (tk_WorkerLease next) = wl_Token (tk_WorkerLease current) /\
       wl_Fence (tk_WorkerLease next) = wl_Fence (tk_WorkerLease current) /\ t < wl_ExpiresAt (tk_WorkerLease current).

Definition claimed (owner token : string) (ttl t : Z) (v : Task) : Task :=
  with_lease v (MkWorkerLease (TrimSpace owner) (TrimSpace token) (wrap64 (wl_Fence (tk_WorkerLease v) + 1)) (t + ttl)).
Definition released (v : Task) : Task :=
  with_lease v (MkWorkerLease "" "" (wl_Fence (tk_WorkerLease v)) zero_time).

Definition free_at (t : Z) (v : Task) : Prop :=
  wl_Token (tk_WorkerLease v) = "" \/ wl_ExpiresAt (tk_WorkerLease v) <= t.

Inductive effect (E : Env) : sop -> Store -> result unit -> Store -> Prop :=
  | ef_refused o s e : effect E o s (Err e) s
  | ef_save_session v s r : valid (sn_ID v) -> effect E (OSaveSession v) s r (put sessions (sn_ID v) v s)
  | ef_update_session id f old v s r : valid id -> has sessions id old s -> f old = Ok v -> sn_ID v = id ->
      effect E (OUpdateSession id f) s r (put sessions id v s)
  | ef_journaled v f j s e : prepared_record v f s j -> effect E (OPrepareTask v f) s (Err e) (journaled j s)
  | ef_tasked v f j s e : prepared_record v f s j -> effect E (OPrepareTask v f) s (Err e) (tasked j (journaled j s))
  | ef_sessioned v f j s e : prepared_record v f s j ->
      effect E (OPrepareTask v f) s (Err e) (sessioned j (tasked j (journaled j s)))
  | ef_prepared v f j s r : prepared_record v f s j ->
      effect E (OPrepareTask v f) s r (drop_journal (tk_ID v) (sessioned j (tasked j (journaled j s))))
  | ef_save_new v s r : valid (tk_ID v) -> st_tasks s !! tk_ID v = None -> effect E (OSaveTask v) s r (put tasks (tk_ID v) v s)
  | ef_save_task v current n s r : valid (tk_ID v) -> has tasks (tk_ID v) current s -> may_write (clock E n) current v ->
      effect E (OSaveTask v) s r (put tasks (tk_ID v) v s)
  | ef_claim id owner token ttl v n s r : valid id -> has tasks id v s -> free_at (clock E n) v ->
      TrimSpace token <> "" -> 0 < ttl <= 10 * Minute ->
      effect E (OClaimTask id owner token ttl) s r (put tasks id (claimed owner token ttl (clock E n) v) s)
  | ef_release id token fence v s r : valid id -> has tasks id v s ->
      wl_Token (tk_WorkerLease v) = token -> wl_Fence (tk_WorkerLease v) = fence ->
      effect E (OReleaseTask id token fence) s r (put tasks id (released v) s)
  | ef_restart s r s' : rtc replay s s' -> effect E ORestart s r s'.

(** ** The operations keep the promise *)
Lemma wp_saveLocked {A} E (kind : Kind A) id v (Q : result unit -> Store -> Prop) s :
  (forall r, Q r (put kind id v s)) -> (forall e, Q (Err e) s) -> wp E (saveLocked kind id v) Q s.
Proof. intros H1 H2. unfold saveLocked. wp_go; auto. Qed.

Lemma wp_read_file {A} E (kind : Kind A) id (Q : result A -> Store -> Prop) s : honest E ->
  (forall v, has kind id v s -> Q (Ok v) s) ->
  (forall e, errors_is_sentinel e "not found" = true -> kd_get kind s !! id = None -> Q (Err e) s) ->
  (forall e, errors_is_sentinel e "not found" = false -> Q (Err e) s) -> wp E (read_file kind id) Q s.
Proof.
  intros Hh H1 H2 H3. unfold read_file. wp_step. wp_step. apply wp_sys_honest; [done| |].
  - intros no Hno. destruct (errors_is (ESys no) ENOENT) eqn:En; [by apply bool_decide_eq_true in En|].
    wp_step. by apply H3.
  - destruct (kd_get kind s !! id) as [[v|]|] eqn:Ek; cbn -[errors_is]; [wp_step; by apply H1|wp_step; by apply H3|].
    change (errors_is (ESys ENOENT) ENOENT) with true. apply wp_throw. by apply H2.
Qed.

(** Whatever the environment, what is read is what is stored. *)
Lemma wp_get_record {A} E (kind : Kind A) id (Q : result A -> Store -> Prop) s :
  (forall v, has kind id v s -> Q (Ok v) s) -> (forall e, Q (Err e) s) -> wp E (get kind id) Q s.
Proof.
  intros H1 H2. unfold get, read_file. wp_step. apply wp_ctx_check; [|done]. wp_step. apply wp_lift.
  destruct (validateID id); [|done]. wp_step. wp_step. apply wp_sys.
  - intros no. cbv beta iota. destruct (errors_is _ _); apply wp_throw, H2.
  - destruct (kd_get kind s !! id) as [[v|]|] eqn:Ek; cbn -[errors_is]; [wp_step; by apply H1|wp_step; by apply H2|].
    change (errors_is (ESys ENOENT) ENOENT) with true. by apply wp_throw.
Qed.

Lemma wp_exclusive {A} E busy (op : M Store A) Q s :
  wp E op Q s -> (forall e, Q (Err e) s) -> wp E (withExclusive busy op) Q s.
Proof.
  intros H1 H2. unfold withExclusive. do 2 wp_step; [|done]. do 2 wp_step; [|done]. wp_step.
  induction busy as [|busy IH]; cbn [await_lock]; [by wp_step|]. wp_step. wp_step; [|done]. exact IH.
Qed.

Lemma wp_remove E id (Q : result unit -> Store -> Prop) s :
  (forall r, Q r (drop_journal id s)) -> (forall e, Q (Err e) s) -> wp E (removePreparationLocked id) Q s.
Proof.
  intros H1 H2. unfold removePreparationLocked. wp_step. wp_step; [done|].
  destruct (st_state s !! preparationID id); [|done]. wp_step; auto.
Qed.

Lemma wp_validate {A} E id (k : unit -> M Store A) Q s :
  (forall e, Q (Err e) s) -> (valid id -> wp E (k tt) Q s) -> wp E (bind (lift (validateID id)) k) Q s.
Proof. intros H1 H2. wp_step. wp_step. unfold valid in H2. destruct (validateID id) as [[]|]; auto. Qed.

Lemma is_ok_valid id : is_ok (validateID id) = true <-> valid id.
Proof. unfold valid. destruct (validateID id) as [[]|]; cbn; split; congruence. Qed.

Ltac leave := first [progress intros; cbn; apply ef_refused | cbn; apply ef_refused].
Ltac enter := apply wp_exclusive; [|leave].

Lemma SaveSession_effect E busy v s :
  wp E (SaveSession busy v) (fun r s' => effect E (OSaveSession v) s r s') s.
Proof.
  unfold SaveSession. apply wp_validate; [leave|intros V]. enter.
  apply wp_saveLocked; [intros r; by apply ef_save_session|leave].
Qed.

Lemma UpdateSession_effect E busy id f s : honest E ->
  wp E (UpdateSession busy id f ;;; ret tt) (fun r s' => effect E (OUpdateSession id f) s r s') s.
Proof.
  intros Hh. wp_step. unfold UpdateSession. apply wp_validate; [leave|intros V]. enter.
  wp_step. apply wp_read_file; [done| |leave..]. intros old Ho.
  wp_step. wp_step. destruct (f old) as [v|e] eqn:Ef; [|leave].
  apply wp_guard; [leave|]. intros Hid%negb_false_iff%String.eqb_eq.
  wp_step. apply wp_saveLocked; [intros [[]|e]|leave]; repeat wp_step; by eapply ef_update_session.
Qed.

Lemma PrepareTask_effect E busy v f s : honest E ->
  wp E (PrepareTask busy v f ;;; ret tt) (fun r s' => effect E (OPrepareTask v f) s r s') s.
Proof.
  intros Hh. wp_step. unfold PrepareTask. apply wp_validate; [leave|intros Vt]. apply wp_validate; [leave|intros Vs].
  enter. wp_step. wp_step. apply wp_read_file; [done|intros old _; repeat wp_step; leave| |].
  2:{ intros e ->. repeat wp_step. leave. }
  intros e -> Hnone. wp_step. wp_step. wp_step. apply wp_read_file; [done| |leave..]. intros old Ho.
  wp_step. wp_step. destruct (f old) as [p|e'] eqn:Ef; [|leave].
  apply wp_guard; [leave|]. intros Hid%negb_false_iff%String.eqb_eq.
  apply wp_guard; [leave|]. intros Hc%negb_false_iff%Nat.eqb_eq.
  set (j := MkTaskPreparation 1 v p).
  assert (J : prepared_record v f s j).
  { exists old. repeat split; [done..| |done|done]. cbn. unfold valid. by rewrite Hid. }
  wp_step. apply wp_saveLocked; [intros [[]|?]|leave]; [|by apply (ef_journaled E v f j)].
  wp_step. apply wp_saveLocked; [intros [[]|?]|intros ?; by apply (ef_journaled E v f j)];
    [|by apply (ef_tasked E v f j)].
  wp_step. apply wp_saveLocked; [intros [[]|?]|intros ?; by apply (ef_tasked E v f j)];
    [|by apply (ef_sessioned E v f j)].
  wp_step. apply wp_remove; [intros [[]|?]|intros ?; by apply (ef_sessioned E v f j)]; repeat wp_step;
    by apply (ef_prepared E v f j).
Qed.

Lemma validateTaskWrite_may E current v Q s :
  (forall n, may_write (clock E n) current v -> Q (Ok tt) s) -> (forall e, Q (Err e) s) ->
  wp E (validateTaskWrite current v) Q s.
Proof.
  intros H1 H2. unfold validateTaskWrite. cbv zeta. unfold may_write in H1.
  destruct (String.eqb (wl_Token (tk_WorkerLease current)) "").
  - wp_step. unfold guard_. destruct (_ || _) eqn:Eg; [done|].
    apply orb_false_iff in Eg as [Et%negb_false_iff%String.eqb_eq Ef%Z.ltb_ge]. by apply (H1 0%nat).
  - apply wp_guard; [done|]. intros [Et%negb_false_iff%String.eqb_eq Ef%negb_false_iff%Z.eqb_eq]%orb_false_iff.
    wp_step. wp_step. wp_step. unfold guard_. destruct (negb _) eqn:Eg; [done|].
    apply negb_false_iff, Z.ltb_lt in Eg. by eapply H1.
Qed.

Lemma SaveTask_effect E busy v s : honest E ->
  wp E (SaveTask busy v) (fun r s' => effect E (OSaveTask v) s r s') s.
Proof.
  intros Hh. unfold SaveTask. apply wp_validate; [leave|intros V]. enter.
  wp_step. wp_step. apply wp_read_file; [done| | |].
  - intros current Hc. wp_step. apply validateTaskWrite_may; [|leave]. intros n Hn.
    apply wp_saveLocked; [intros r; by eapply ef_save_task|leave].
  - intros e -> Hnone. wp_step. wp_step. apply wp_saveLocked; [intros r; by apply ef_save_new|leave].
  - intros e ->. repeat wp_step. leave.
Qed.

(** *** What holds in every environment *)
Lemma wp_read_any {A} E (kind : Kind A) id (Q : result A -> Store -> Prop) s :
  (forall r, Q r s) -> wp E (read_file kind id) Q s.
Proof.
  intros HQ. unfold read_file. wp_step. wp_step. apply wp_sys.
  - intros no. cbv beta iota. destruct (errors_is _ _); by apply wp_throw.
  - destruct (kd_get kind s !! id) as [[v|]|]; cbn -[errors_is]; [by wp_step..|].
    destruct (errors_is _ _); by apply wp_throw.
Qed.

Lemma SaveTask_changes E busy v s :
  wp E (SaveTask busy v) (fun r s' => (r = Ok tt -> s' = put tasks (tk_ID v) v s) /\ (s' = s \/ s' = put tasks (tk_ID v) v s)) s.
Proof.
  assert (Hno : forall e : error, (Err e = Ok tt -> s = put tasks (tk_ID v) v s) /\ (s = s \/ s = put tasks (tk_ID v) v s)) by (by split; [|left]).
  assert (Hput : wp E (saveLocked tasks (tk_ID v) v)
    (fun r s' => (r = Ok tt -> s' = put tasks (tk_ID v) v s) /\ (s' = s \/ s' = put tasks (tk_ID v) v s)) s).
  { apply wp_saveLocked; [by split; [|right]|done]. }
  unfold SaveTask. apply wp_validate; [done|intros _]. apply wp_exclusive; [|done].
  wp_step. wp_step. apply wp_read_any. intros [current|e]; cbv beta iota.
  - wp_step. apply validateTaskWrite_may; [intros _ _; exact Hput|done].
  - wp_step. destruct (errors_is_sentinel _ _); wp_step; [exact Hput|apply Hno].
Qed.

Lemma UpdateSession_tasks E busy id f s :
  wp E (UpdateSession busy id f) (fun _ s' => st_tasks s' = st_tasks s /\ st_state s' = st_state s) s.
Proof.
  unfold UpdateSession. apply wp_validate; [done|intros _]. apply wp_exclusive; [|done]. wp_step. apply wp_read_any.
  intros [old|e]; [|done]. wp_step. wp_step. destruct (f old); [|done]. apply wp_guard; [done|intros _]. wp_step.
  apply wp_saveLocked; [|done]. intros [[]|e]; [by wp_step|done].
Qed.

Lemma ClaimTask_effect E busy id owner token ttl s : honest E ->
  wp E (ClaimTask busy id owner token ttl ;;; ret tt) (fun r s' => effect E (OClaimTask id owner token ttl) s r s') s.
Proof.
  intros Hh. wp_step. unfold ClaimTask. apply wp_validate; [leave|intros V].
  apply wp_guard; [leave|]. intros [_ Ht%String.eqb_neq]%orb_false_iff.
  apply wp_guard; [leave|]. intros [Hp%Z.leb_gt Hm%Z.ltb_ge]%orb_false_iff. enter.
  wp_step. apply wp_read_file; [done| |leave..]. intros v Hv. wp_step. wp_step.
  apply wp_guard; [leave|]. intros Hfree. wp_step.
  assert (F : free_at (clock E n) v).
  { apply andb_false_iff in Hfree as [H%negb_false_iff%String.eqb_eq|H%Z.ltb_ge]; [by left|by right]. }
  apply wp_saveLocked; [intros [[]|?]|leave]; repeat wp_step; by apply ef_claim.
Qed.

Lemma ReleaseTask_effect E busy id token fence s : honest E ->
  wp E (ReleaseTask busy id token fence ;;; ret tt) (fun r s' => effect E (OReleaseTask id token fence) s r s') s.
Proof.
  intros Hh. wp_step. unfold ReleaseTask. apply wp_validate; [leave|intros V]. enter.
  wp_step. apply wp_read_file; [done| |leave..]. intros v Hv.
  apply wp_guard; [leave|]. intros [Et%negb_false_iff%String.eqb_eq Ef%negb_false_iff%Z.eqb_eq]%orb_false_iff.
  wp_step. apply wp_saveLocked; [intros [[]|?]|leave]; repeat wp_step; by apply ef_release.
Qed.

Lemma journal_checked r :
  negb (tp_SchemaVersion r =? 1) || negb (is_ok (validateID (tk_ID (tp_Task r))))
    || negb (is_ok (validateID (sn_ID (tp_Session r))))
    || negb (String.eqb (tk_SessionID (tp_Task r)) (sn_ID (tp_Session r))) = false <-> journal_ok r.
Proof.
  rewrite !orb_false_iff, !negb_false_iff, Z.eqb_eq, !is_ok_valid, String.eqb_eq.
  split; [intros [[[? ?] ?] ?]; by split|by intros []].
Qed.

Lemma has_put {A} (kind : Kind A) id (v : A) s :
  (forall m, kd_get kind (kd_set kind m s) = m) -> has kind id v (put kind id v s).
Proof. intros H. unfold has, put. rewrite H. apply lookup_insert_eq. Qed.

Lemma has_task id v s : has tasks id v (put tasks id v s).
Proof. by apply has_put. Qed.

Lemma has_session id v s : has sessions id v (put sessions id v s).
Proof. by apply has_put. Qed.

Lemma recover_entry_replays E name s : honest E ->
  wp E (recover_entry name) (fun _ s' => rtc replay s s') s.
Proof.
  intros Hh. unfold recover_entry. destruct (HasPrefix name "prepare-") eqn:Hn; cbn [negb]; [|by wp_step].
  wp_step. apply wp_read_file; [done| |done..]. intros r Hr.
  apply wp_guard; [done|]. intros J%journal_checked.
  assert (R1 : replay s (tasked r s)) by (by eapply replay_task).
  wp_step. apply wp_saveLocked; [intros [[]|?]|done]; [|by apply rtc_once].
  assert (R2 : replay (tasked r s) (sessioned r (tasked r s))).
  { eapply (replay_session _ name); [done|exact Hr|done|apply has_task]. }
  wp_step. apply wp_saveLocked; [intros [[]|?]|intros ?; by apply rtc_once]; [|eapply rtc_l; [done|by apply rtc_once]].
  apply wp_remove; [intros ?|intros ?; eapply rtc_l; [done|by apply rtc_once]].
  eapply rtc_l; [done|]. eapply rtc_l; [done|]. apply rtc_once.
  eapply (replay_done _ name r); [done|exact Hr|done|apply has_task|apply has_session].
Qed.

Lemma NewFileStore_effect E busy s : honest E ->
  wp E (NewFileStore busy) (fun r s' => effect E ORestart s r s') s.
Proof.
  intros Hh. unfold NewFileStore. wp_step. wp_step; [|leave]. wp_step. wp_step. apply wp_exclusive; [|leave].
  unfold recoverTaskPreparationsLocked. wp_step. wp_step; [leave|]. wp_step. eapply wp_mono.
  - apply (wp_mapM _ _ _ (fun s' => rtc replay s s') (fun _ => True)); [|done].
    intros name s1 _ H1. eapply wp_mono; [by apply recover_entry_replays|].
    intros r s2 H2. split; [by etransitivity|done].
  - intros [l|e] s2 [H _]; [wp_step|]; by apply ef_restart.
Qed.

Lemma run_sop_effect E busy o s : honest E -> wp E (run_sop busy o) (fun r s' => effect E o s r s') s.
Proof.
  intros Hh. destruct o; cbn [run_sop].
  - apply SaveSession_effect.
  - by apply UpdateSession_effect.
  - by apply PrepareTask_effect.
  - by apply SaveTask_effect.
  - by apply ClaimTask_effect.
  - by apply ReleaseTask_effect.
  - by apply NewFileStore_effect.
Qed.

(** A history: the operations in the order in which they held the lock,
    each with what happened outside while it ran. *)
Fixpoint run_store (busy : nat) (l : list (Env * sop)) (s : Store) : list (result unit) * Store :=
  match l with
  | [] => ([], s)
  | (E, o) :: l =>
      let '(r, w) := run_sop busy o E (init_world s) in
      let '(rs, s') := run_store busy l (st w) in (r :: rs, s')
  end.

Definition after (busy : nat) (l : list (Env * sop)) (s : Store) : Store := (run_store busy l s).2.

Inductive behaves : list (Env * sop) -> Store -> list (result unit) -> Store -> Prop :=
  | behaves_nil s : behaves [] s [] s
  | behaves_cons E o l s r s1 rs s2 : effect E o s r s1 -> behaves l s1 rs s2 ->
      behaves ((E, o) :: l) s (r :: rs) s2.

Definition honest_run (l : list (Env * sop)) : Prop := Forall (fun p => honest p.1) l.

Lemma run_behaves busy l s : honest_run l -> behaves l s (run_store busy l s).1 (after busy l s).
Proof.
  intros Hh. unfold after. revert s. induction Hh as [|[E o] l Hh _ IH]; intros s; cbn; [constructor|].
  pose proof (run_sop_effect E busy o s Hh (init_world s) eq_refl) as He.
  destruct (run_sop busy o E (init_world s)) as [r w]. cbn in He.
  specialize (IH (st w)). destruct (run_store busy l (st w)) as [rs s']. by eapply behaves_cons.
Qed.

Lemma behaves_length l s rs s' : behaves l s rs s' -> length rs = length l.
Proof. induction 1; cbn; congruence. Qed.

(** What every effect keeps is kept by every history. *)
Lemma behaves_keeps (P : sop -> Prop) (I : Store -> Prop) :
  (forall E o s r s', P o -> I s -> effect E o s r s' -> I s') ->
  forall l s rs s', Forall (fun p => P p.2) l -> I s -> behaves l s rs s' -> I s'.
Proof.
  intros H l s rs s' Hl Hs Hb. induction Hb as [|E o l s r s1 rs s2 He _ IH]; [done|].
  apply Forall_cons in Hl as [Ho Hl]. apply IH; [done|]. by eapply H.
Qed.

(** C30: every operation of the store, run in an environment where any
    system call may fail or the process may stop for good, does one of the
    things the protocol [effect] allows, and so does every history of
    operations. *)
Theorem store_refines_protocol busy (l : list (Env * sop)) (s : Store) :
  honest_run l ->
  exists rs, run_store busy l s = (rs, after busy l s) /\ length rs = length l /\ behaves l s rs (after busy l s).
Proof.
  intros Hh. pose proof (run_behaves busy l s Hh) as Hb. exists (run_store busy l s).1.
  split; [apply surjective_pairing|]. split; [by eapply behaves_length|done].
Qed.

(** ** Fencing *)
Definition fence_of (id : string) (s : Store) : option Z :=
  match st_tasks s !! id with Some (Some t) => Some (wl_Fence (tk_WorkerLease t)) | _ => None end.

(** No journal left from a preparation of the task. *)
Definition unjournaled (id : string) (s : Store) : Prop :=
  forall name r, HasPrefix name "prepare-" = true -> has state name r s -> tk_ID (tp_Task r) <> id.

Lemma has_fence id v s : has tasks id v s -> fence_of id s = Some (wl_Fence (tk_WorkerLease v)).
Proof. unfold fence_of, has. cbn. by intros ->. Qed.

Lemma fence_put_task id v s : fence_of id (put tasks id v s) = Some (wl_Fence (tk_WorkerLease v)).
Proof. apply has_fence, has_task. Qed.

Lemma fence_put_other id id' v s : id' <> id -> fence_of id (put tasks id' v s) = fence_of id s.
Proof. intros Hne. unfold fence_of, put. cbn. by rewrite lookup_insert_ne. Qed.

(** The fence of a task that exists and has no journal left moves up only,
    by one for each claim, and to a stated value for a save without a lease. *)
Record fenced (id : string) (lo : Z) (s : Store) : Prop := {
  fd_fence : exists f, fence_of id s = Some f /\ lo <= f;
  fd_unjournaled : unjournaled id s
}.

Lemma unjournaled_tasks id id' v s : unjournaled id s -> unjournaled id (put tasks id' v s).
Proof. done. Qed.
Lemma unjournaled_sessions id id' v s : unjournaled id s -> unjournaled id (put sessions id' v s).
Proof. done. Qed.

Lemma unjournaled_drop id id' s : unjournaled id s -> unjournaled id (drop_journal id' s).
Proof. intros H name r Hp Hr. apply (H name r Hp). unfold has in Hr. cbn in Hr. by apply lookup_delete_Some in Hr as [_ ?]. Qed.

Lemma unjournaled_journal id r s : tk_ID (tp_Task r) <> id -> unjournaled id s -> unjournaled id (journaled r s).
Proof.
  intros Hne H name r' Hp Hr. unfold has in Hr. cbn in Hr.
  apply lookup_insert_Some in Hr as [[_ [= <-]]|[_ Hr]]; [done|by apply (H name)].
Qed.

Lemma fence_replay id s s' : unjournaled id s -> replay s s' -> fence_of id s' = fence_of id s /\ unjournaled id s'.
Proof.
  intros Hu Hr. destruct Hr as [s name r Hp H _|s name r Hp H _ _|s name r Hp H _ _ _].
  - split; [|by apply unjournaled_tasks]. apply fence_put_other, (Hu name r Hp H).
  - split; [done|by apply unjournaled_sessions].
  - split; [done|by apply unjournaled_drop].
Qed.

Lemma fence_replays id s s' : rtc replay s s' -> unjournaled id s -> fence_of id s' = fence_of id s /\ unjournaled id s'.
Proof.
  induction 1 as [|s s1 s' H1 _ IH]; [done|]. intros Hu. destruct (fence_replay id s s1 Hu H1) as [<- Hu1]. by apply IH.
Qed.

Lemma fence_prepared id j s : tk_ID (tp_Task j) <> id -> unjournaled id s ->
  Forall (fun s1 => fence_of id s1 = fence_of id s /\ unjournaled id s1)
    [journaled j s; tasked j (journaled j s); sessioned j (tasked j (journaled j s));
     drop_journal (tk_ID (tp_Task j)) (sessioned j (tasked j (journaled j s)))].
Proof.
  intros Hne Hu. pose proof (unjournaled_journal id j s Hne Hu) as Hj.
  assert (F : fence_of id (tasked j (journaled j s)) = fence_of id s) by (exact (fence_put_other id _ _ (journaled j s) Hne)).
  repeat constructor; [done|exact F|done|exact F|done|exact F|]. by apply unjournaled_drop.
Qed.

(** One operation: where the fence of a task can go. *)
Inductive fence_step (id : string) : sop -> Z -> Z -> Prop :=
  | fs_same o f : fence_step id o f f
  | fs_claim owner token ttl f : fence_step id (OClaimTask id owner token ttl) f (wrap64 (f + 1))
  | fs_save v f : tk_ID v = id -> f <= wl_Fence (tk_WorkerLease v) ->
      fence_step id (OSaveTask v) f (wl_Fence (tk_WorkerLease v)).

Lemma effect_fence E id o s r s' f : effect E o s r s' -> unjournaled id s -> fence_of id s = Some f ->
  exists f', fence_of id s' = Some f' /\ fence_step id o f f' /\ unjournaled id s'.
Proof.
  intros He Hu Hf. assert (Hhere : forall id' v, has tasks id' v s -> id' = id -> f = wl_Fence (tk_WorkerLease v)).
  { intros id' v Hv ->. apply has_fence in Hv. congruence. }
  assert (Hkeep : forall o' s1, fence_of id s1 = fence_of id s -> unjournaled id s1 ->
            exists f', fence_of id s1 = Some f' /\ fence_step id o' f f' /\ unjournaled id s1).
  { intros o' s1 -> Hu1. exists f. split; [done|]. split; [constructor|done]. }
  assert (Hprep : forall v fm j, prepared_record v fm s j -> tk_ID (tp_Task j) <> id).
  { intros v fm j (old&_&_&Hn&<-&_) <-. unfold fence_of in Hf. by rewrite Hn in Hf. }
  destruct He as [o s e|v s r V|i fm old v s r V Hv Em Hi|v fm j s e J|v fm j s e J|v fm j s e J|v fm j s r J|
    v s r V Hn|v current n s r V Hc Hw|i owner token ttl v n s r V Hv Hfree Ht Hl|i token fence v s r V Hv Ht Hfe|s r s' Hr].
  1-3: by apply Hkeep.
  1-4: pose proof (fence_prepared id j s (Hprep _ _ _ J) Hu) as F; assert (tp_Task j = v) as Ev by (by destruct J as (?&?&?&?&?&?));
       rewrite Ev in F; rewrite !Forall_cons in F; destruct_and! F; by apply Hkeep.
  - apply Hkeep; [|done]. apply fence_put_other. intros <-. unfold fence_of in Hf. by rewrite Hn in Hf.
  - destruct (decide (tk_ID v = id)) as [Hid|Hid]; [|apply Hkeep; [by apply fence_put_other|done]].
    pose proof (Hhere _ _ Hc Hid). eexists. rewrite Hid, fence_put_task. split; [done|]. split; [|done].
    unfold may_write in Hw. destruct (String.eqb _ _); apply fs_save; [done|lia|done|lia].
  - destruct (decide (i = id)) as [->|Hid]; [|apply Hkeep; [by apply fence_put_other|done]].
    pose proof (Hhere _ _ Hv eq_refl) as ->. eexists. rewrite fence_put_task. split; [done|]. split; [|done].
    apply fs_claim.
  - destruct (decide (i = id)) as [->|Hid]; [|apply Hkeep; [by apply fence_put_other|done]].
    pose proof (Hhere _ _ Hv eq_refl) as ->. apply Hkeep; [by rewrite fence_put_task|done].
  - destruct (fence_replays id s s' Hr Hu) as [Hf' Hu']. by apply Hkeep.
Qed.

Definition saves_below (id : string) (B : Z) (l : list (Env * sop)) : Prop :=
  Forall (fun p => match p.2 with
                   | OSaveTask v => tk_ID v = id -> wl_Fence (tk_WorkerLease v) <= B
                   | _ => True
                   end) l.

Lemma saves_below_le id B B' l : B <= B' -> saves_below id B l -> saves_below id B' l.
Proof.
  intros Hb Hs. eapply Forall_impl; [exact Hs|]. intros [E []]; cbn; try done. intros H Hid. specialize (H Hid). lia.
Qed.

Lemma behaves_fence id l s rs s' : behaves l s rs s' -> forall B f, unjournaled id s -> fence_of id s = Some f ->
  0 <= f <= B -> saves_below id B l -> B + Z.of_nat (length l) <= max_uint64 ->
  exists f', fence_of id s' = Some f' /\ f <= f' <= B + Z.of_nat (length l) /\ unjournaled id s'.
Proof.
  induction 1 as [|E o l s r s1 rs s2 He _ IH]; intros B f Hu Hf Hb Hs Hl; cbn in Hl |- *; [exists f; split; [done|split; [lia|done]]|].
  apply Forall_cons in Hs as [Ho Hs]. destruct (effect_fence _ _ _ _ _ _ _ He Hu Hf) as (f1&Hf1&Hstep&Hu1).
  assert (Hf1b : f <= f1 <= B + 1).
  { destruct Hstep as [o f|owner token ttl f|v f Hid Hv]; [lia|rewrite wrap64_id; lia|]. cbn in Ho. specialize (Ho Hid). lia. }
  destruct (IH (B + 1) f1) as (f'&?&?&?); [done|done|lia|apply (saves_below_le _ B); [lia|done]|lia|].
  exists f'. split; [done|]. split; [lia|done].
Qed.

(** C21: a worker whose lease was taken over can no longer write.  Whatever
    happened since fence [f] was read, once another claim of the task has
    succeeded every later [SaveTask] with a fence not above [f] is refused and
    changes nothing, through further operations, failures and restarts (as
    long as the fence does not reach the end of 64 bits). *)
Theorem lease_fencing busy id B (l1 l2 : list (Env * sop)) (Ec Es : Env) owner token ttl (v : Task) (s : Store) f :
  honest_run l1 -> honest Ec -> honest_run l2 -> honest Es ->
  fence_of id s = Some f -> unjournaled id s ->
  0 <= f <= B -> saves_below id B (l1 ++ l2) -> B + Z.of_nat (length l1 + length l2) < max_uint64 ->
  tk_ID v = id -> wl_Fence (tk_WorkerLease v) <= f ->
  wp Ec (run_sop busy (OClaimTask id owner token ttl)) (fun r s2 => r = Ok tt ->
    wp Es (SaveTask busy v) (fun r' s4 => is_ok r' = false /\ s4 = after busy l2 s2) (after busy l2 s2)) (after busy l1 s).
Proof.
  intros H1 Hc H2 Hs Hf Hu Hb Hsv Hl Hid Hv. apply Forall_app in Hsv as [Hsv1 Hsv2].
  destruct (behaves_fence id l1 s _ _ (run_behaves busy l1 s H1) B f Hu Hf Hb Hsv1) as (f1&Hf1&Hb1&Hu1); [lia|].
  eapply wp_mono; [by apply run_sop_effect|]. intros r s2 He ->.
  assert (Hf2 : fence_of id s2 = Some (f1 + 1) /\ unjournaled id s2).
  { inversion He; subst. rewrite fence_put_task. split; [|done]. cbn [claimed with_lease task_with tk_WorkerLease wl_Fence].
    match goal with H : has tasks _ _ _ |- _ => apply has_fence in H; rewrite H in Hf1; injection Hf1 as -> end.
    by rewrite wrap64_id by lia. }
  destruct Hf2 as [Hf2 Hu2]. set (B2 := B + Z.of_nat (length l1) + 1).
  destruct (behaves_fence id l2 s2 _ _ (run_behaves busy l2 s2 H2) B2 (f1 + 1) Hu2 Hf2) as (f3&Hf3&Hb3&_);
    [lia|apply (saves_below_le _ B); [lia|done]|lia|].
  eapply wp_mono; [by apply SaveTask_effect|]. intros r' s4 Hw. subst id. unfold fence_of in Hf3.
  inversion Hw as [|o|o|o|o|o|o|v' s' r'' _ Hn|v' current n s' r'' _ Hcur Hm| | |]; subst; [done|by rewrite Hn in Hf3|].
  exfalso. cbn in Hcur. unfold has in Hcur. cbn in Hcur. rewrite Hcur in Hf3. injection Hf3 as Hf3.
  unfold may_write in Hm. destruct (String.eqb _ _); lia.
Qed.

(** While the lease [L] on the task is live: its holder keeps the lease in
    the records it saves, and nobody releases it. *)
Definition respects (id : string) (L : WorkerLease) (o : sop) : Prop :=
  match o with
  | OSaveTask v => tk_ID v = id -> wl_Token (tk_WorkerLease v) = wl_Token L -> wl_Fence (tk_WorkerLease v) = wl_Fence L ->
      tk_WorkerLease v = L
  | OReleaseTask i token fence => i = id -> ~ (token = wl_Token L /\ fence = wl_Fence L)
  | _ => True
  end.

(** What the others get to hear. *)
Definition shut_out (id : string) (L : WorkerLease) (o : sop) (r : result unit) : Prop :=
  match o with
  | OClaimTask i _ _ _ | OReleaseTask i _ _ => i = id -> is_ok r = false
  | OSaveTask v => tk_ID v = id -> tk_WorkerLease v <> L -> is_ok r = false
  | OPrepareTask v _ => tk_ID v = id -> is_ok r = false
  | _ => True
  end.

Record leased (id : string) (L : WorkerLease) (s : Store) : Prop := {
  ls_task : exists v, has tasks id v s /\ tk_WorkerLease v = L;
  ls_unjournaled : unjournaled id s
}.

Lemma leased_other id L id' v s : id' <> id -> leased id L s -> leased id L (put tasks id' v s).
Proof.
  intros Hne [(w&Hw&HL) Hu]. split; [|done]. exists w. split; [|done]. unfold has. cbn. by rewrite lookup_insert_ne.
Qed.

Lemma leased_here id L v s : tk_WorkerLease v = L -> leased id L s -> leased id L (put tasks id v s).
Proof. intros HL [_ Hu]. split; [|done]. exists v. split; [apply has_task|done]. Qed.

Lemma leased_replays id L s s' : rtc replay s s' -> leased id L s -> leased id L s'.
Proof.
  induction 1 as [|s s1 s' H1 _ IH]; [done|]. intros Hl. apply IH. destruct Hl as [Hv Hu].
  destruct H1 as [s name r Hp H _|s name r Hp H _ _|s name r Hp H _ _ _].
  - by apply leased_other; [apply (Hu name r Hp H)|].
  - done.
  - split; [done|by apply unjournaled_drop].
Qed.

Lemma effect_leased E id L o s r s' : effect E o s r s' -> wl_Token L <> "" -> (forall n, clock E n < wl_ExpiresAt L) ->
  respects id L o -> leased id L s -> leased id L s' /\ shut_out id L o r.
Proof.
  intros He Ht Hc Ho Hl. pose proof Hl as [(w&Hw&HL) Hu].
  assert (Hhere : forall v, has tasks id v s -> v = w) by (unfold has in *; congruence).
  assert (Hprep : forall v fm j, prepared_record v fm s j -> tp_Task j = v /\ tk_ID v <> id).
  { intros v fm j (old&_&_&Hn&<-&_). split; [done|]. intros <-. unfold has in Hw. cbn in Hw. congruence. }
  assert (Hlj : forall v fm j, prepared_record v fm s j -> leased id L (tasked j (journaled j s)) /\ leased id L (journaled j s)).
  { intros v fm j J. destruct (Hprep _ _ _ J) as [Ev Hne]. rewrite <- Ev in Hne.
    pose proof (unjournaled_journal id j s Hne Hu) as Hj. split; [apply leased_other; [done|]|]; (split; [by exists w|done]). }
  destruct He as [o s e|v s r V|i fm old v s r V Hv Em Hi|v fm j s e J|v fm j s e J|v fm j s e J|v fm j s r J|
    v s r V Hn|v current n s r V Hcur Hm|i owner token ttl v n s r V Hv Hfree Hk Hb|i token fence v s r V Hv Hk Hf|s r s' Hr].
  - split; [done|]. by destruct o.
  - split; [split; [by exists w|done]|done].
  - split; [split; [by exists w|done]|done].
  - split; [apply (Hlj _ _ _ J)|done].
  - split; [apply (Hlj _ _ _ J)|done].
  - split; [|done]. destruct (Hlj _ _ _ J) as [[(w'&?&?) ?] _]. split; [by exists w'|done].
  - split; [|intros Hid; by destruct (Hprep _ _ _ J)]. destruct (Hlj _ _ _ J) as [[(w'&?&?) ?] _].
    split; [by exists w'|by apply unjournaled_drop].
  - assert (tk_ID v <> id) by (intros <-; unfold has in Hw; cbn in Hw; congruence).
    split; [by apply leased_other|by intros ?].
  - destruct (decide (tk_ID v = id)) as [Hid|Hid]; [|split; [by apply leased_other|by intros ?]].
    rewrite Hid in *. rewrite (Hhere _ Hcur) in Hm. unfold may_write in Hm. rewrite HL in Hm.
    destruct (String.eqb_spec (wl_Token L) ""); [done|]. destruct Hm as (Hm1&Hm2&_).
    pose proof (Ho Hid Hm1 Hm2) as HvL. split; [by apply leased_here|]. by intros _ ?.
  - destruct (decide (i = id)) as [->|Hid]; [|split; [by apply leased_other|by intros ?]].
    rewrite (Hhere _ Hv) in Hfree. destruct Hfree as [?|Hx]; rewrite HL in *; [done|]. specialize (Hc n). lia.
  - destruct (decide (i = id)) as [->|Hid]; [|split; [by apply leased_other|by intros ?]].
    rewrite (Hhere _ Hv), HL in *. by destruct (Ho eq_refl).
  - split; [by eapply leased_replays|done].
Qed.

(** A live lease excludes everyone else.  Until it expires, through any
    history in which its holder keeps it, the task stays under the lease; all
    other claims and releases of the task fail, a second [PrepareTask] of its
    id fails, and no record without the lease is saved. *)
Theorem live_lease_excludes busy id (l : list (Env * sop)) (s : Store) (v : Task) :
  honest_run l -> has tasks id v s -> unjournaled id s -> wl_Token (tk_WorkerLease v) <> "" ->
  Forall (fun p => (forall n, clock p.1 n < wl_ExpiresAt (tk_WorkerLease v)) /\ respects id (tk_WorkerLease v) p.2) l ->
  (exists w, has tasks id w (after busy l s) /\ tk_WorkerLease w = tk_WorkerLease v) /\
  Forall2 (fun p r => shut_out id (tk_WorkerLease v) p.2 r) l (run_store busy l s).1.
Proof.
  intros Hh Hv Hu Ht Hl. pose proof (run_behaves busy l s Hh) as Hb.
  assert (HL : leased id (tk_WorkerLease v) s) by (split; [by exists v|done]).
  cut (leased id (tk_WorkerLease v) (after busy l s) /\
       Forall2 (fun p r => shut_out id (tk_WorkerLease v) p.2 r) l (run_store busy l s).1).
  { by intros [[] ?]. }
  clear Hh Hv Hu. generalize dependent (tk_WorkerLease v). intros L Ht Hl HL.
  induction Hb as [|E o l s r s1 rs s2 He _ IH]; [by split|].
  apply Forall_cons in Hl as [[Hc Ho] Hl]. destruct (effect_leased _ _ _ _ _ _ _ He Ht Hc Ho HL) as [HL1 Hs].
  destruct (IH Hl HL1). split; [done|by constructor].
Qed.

(** ** Recovery *)
Lemma quiet_honest E : quiet E -> honest E.
Proof. intros [Hf _] n. by rewrite Hf. Qed.

Lemma wp_saveLocked_quiet {A} E (kind : Kind A) id v (Q : result unit -> Store -> Prop) s :
  quiet E -> Q (Ok tt) (put kind id v s) -> wp E (saveLocked kind id v) Q s.
Proof. intros Hq H. unfold saveLocked. wp_step. apply wp_ctx_quiet; [done|]. by apply wp_atomic_write_quiet. Qed.

Lemma wp_read_quiet {A} E (kind : Kind A) id v (Q : result A -> Store -> Prop) s :
  quiet E -> has kind id v s -> Q (Ok v) s -> wp E (read_file kind id) Q s.
Proof.
  intros Hq Hv H. unfold read_file. wp_step. wp_step. apply wp_sys_quiet; [done|]. rewrite Hv. by wp_step.
Qed.

Lemma wp_exclusive_quiet {A} E busy (op : M Store A) Q s : quiet E -> wp E op Q s -> wp E (withExclusive busy op) Q s.
Proof.
  intros Hq H. unfold withExclusive. wp_step. apply wp_ctx_quiet; [done|]. wp_step. apply wp_probe_quiet; [done|].
  wp_step. induction busy as [|busy IH]; cbn [await_lock]; [by apply wp_probe_quiet|].
  wp_step. by apply wp_ctx_quiet.
Qed.

(** What replaying one entry, and all of them, comes to. *)
Definition replayed (r : taskPreparation) (s : Store) : Store :=
  drop_journal (tk_ID (tp_Task r)) (sessioned r (tasked r s)).

Definition journal_of (name : string) (s : Store) : option taskPreparation :=
  if HasPrefix name "prepare-" then match st_state s !! name with Some o => o | None => None end else None.

Definition replay_one (s : Store) (name : string) : Store :=
  match journal_of name s with Some r => replayed r s | None => s end.

Definition replay_all (s : Store) : Store := foldl replay_one s (file_names (st_state s)).

(** Every journal can be read and is filed under its task. *)
Definition journals_filed (s : Store) : Prop :=
  forall name o, HasPrefix name "prepare-" = true -> st_state s !! name = Some o ->
    exists r, o = Some r /\ name = preparationID (tk_ID (tp_Task r)) /\ journal_ok r.

Lemma journal_filed s name r : journals_filed s -> journal_of name s = Some r ->
  name = preparationID (tk_ID (tp_Task r)) /\ journal_ok r /\ has state name r s.
Proof.
  intros Hf. unfold journal_of. destruct (HasPrefix name _) eqn:Hp; [|done].
  destruct (st_state s !! name) as [o|] eqn:Eo; [|done]. intros ->. destruct (Hf name _ Hp Eo) as (r'&[= <-]&->&J).
  done.
Qed.

Lemma replay_one_state s name : journals_filed s ->
  st_state (replay_one s name) = if HasPrefix name "prepare-" then delete name (st_state s) else st_state s.
Proof.
  intros Hf. unfold replay_one. destruct (journal_of name s) as [r|] eqn:Ej.
  - destruct (journal_filed _ _ _ Hf Ej) as (->&_&_). unfold journal_of in Ej. destruct (HasPrefix _ _); [|done].
    reflexivity.
  - unfold journal_of in Ej. destruct (HasPrefix name _) eqn:Hp; [|done].
    destruct (st_state s !! name) as [o|] eqn:Eo; [|by rewrite delete_id].
    destruct (Hf name o Hp Eo) as (r&->&_). done.
Qed.

Lemma replay_one_filed s name : journals_filed s -> journals_filed (replay_one s name).
Proof.
  intros Hf name' o Hp. rewrite replay_one_state by done. destruct (HasPrefix name _); [|by apply Hf].
  intros [_ Ho]%lookup_delete_Some. by apply Hf.
Qed.

Lemma wp_recover_entry_quiet E name s : quiet E -> journals_filed s ->
  (HasPrefix name "prepare-" = true -> is_Some (st_state s !! name)) ->
  wp E (recover_entry name) (fun r s' => r = Ok tt /\ s' = replay_one s name) s.
Proof.
  intros Hq Hf Hn. unfold recover_entry, replay_one, journal_of.
  destruct (HasPrefix name "prepare-") eqn:Hp; cbn [negb]; [|by wp_step].
  destruct (Hn eq_refl) as (o&Ho). destruct (Hf name o Hp Ho) as (r&->&->&J). rewrite Ho.
  wp_step. apply (wp_read_quiet _ _ _ r); [done..|].
  apply wp_guard; [by rewrite (proj2 (journal_checked r) J)|intros _].
  wp_step. apply wp_saveLocked_quiet; [done|]. wp_step. apply wp_saveLocked_quiet; [done|].
  unfold removePreparationLocked. wp_step. apply wp_sys_quiet; [done|].
  match goal with |- context [st_state ?x !! _] => change (st_state x) with (st_state s) end. rewrite Ho.
  by apply wp_probes_quiet.
Qed.

Lemma wp_recover_all_quiet E names s : quiet E -> journals_filed s -> NoDup names ->
  (forall name, name ∈ names -> HasPrefix name "prepare-" = true -> is_Some (st_state s !! name)) ->
  wp E (mapM recover_entry names) (fun r s' => is_ok r = true /\ s' = foldl replay_one s names) s.
Proof.
  intros Hq. revert s. induction names as [|name names IH]; intros s Hf Hnd Hn; cbn; [by wp_step|].
  apply NoDup_cons in Hnd as [Hni Hnd].
  wp_step. eapply wp_mono; [apply wp_recover_entry_quiet; [done..|apply Hn; by left]|]. intros r s1 [-> ->].
  wp_step. eapply wp_mono; [apply IH; [by apply replay_one_filed|done|]|].
  - intros name' Hin Hp. rewrite replay_one_state by done. destruct (HasPrefix name "prepare-"); [|apply Hn; [by right|done]].
    rewrite lookup_delete_ne by (by intros ->). apply Hn; [by right|done].
  - intros [bs|e] s2 [? ->]; [|done]. by wp_step.
Qed.

Lemma file_names_spec {A} (m : gmap string A) : NoDup (file_names m) /\ forall name, name ∈ file_names m <-> is_Some (m !! name).
Proof.
  unfold file_names. split.
  - rewrite merge_sort_Permutation. apply NoDup_elements.
  - intros name. rewrite merge_sort_Permutation, elem_of_elements. apply elem_of_dom.
Qed.

Lemma wp_NewFileStore_quiet E busy s : quiet E -> journals_filed s ->
  wp E (NewFileStore busy) (fun r s' => r = Ok tt /\ s' = replay_all s) s.
Proof.
  intros Hq Hf. pose proof (background_quiet E Hq) as Hqb. unfold NewFileStore. wp_step. apply wp_probes_quiet; [done|]. wp_step. wp_step.
  apply wp_exclusive_quiet; [done|]. unfold recoverTaskPreparationsLocked. wp_step. apply wp_sys_quiet; [done|].
  destruct (file_names_spec (st_state s)) as [Hnd Hin].
  wp_step. eapply wp_mono; [apply wp_recover_all_quiet; [done..|]|].
  - intros name Hn _. by apply Hin.
  - intros [bs|e] s' [? ->]; [|done]. by wp_step.
Qed.

Definition journal_free (s : Store) : Prop :=
  forall name, HasPrefix name "prepare-" = true -> st_state s !! name = None.

Lemma preparation_prefixed id : HasPrefix (preparationID id) "prepare-" = true.
Proof. reflexivity. Qed.

Lemma replay_nothing s names : journal_free s -> foldl replay_one s names = s.
Proof.
  intros Hf. induction names as [|name names IH]; [done|]. cbn.
  assert (E : replay_one s name = s).
  { unfold replay_one, journal_of. destruct (HasPrefix name _) eqn:Hp; [|done]. by rewrite (Hf name Hp). }
  by rewrite E.
Qed.

(** With one journal, recovery replays that one. *)
Lemma replay_single s name r : (forall name', HasPrefix name' "prepare-" = true -> name' <> name -> st_state s !! name' = None) ->
  journals_filed s -> HasPrefix name "prepare-" = true -> has state name r s -> replay_all s = replayed r s.
Proof.
  intros Ho Hf Hp Hr. unfold replay_all. destruct (file_names_spec (st_state s)) as [_ Hin].
  assert (Hn : name ∈ file_names (st_state s)) by (apply Hin; by rewrite Hr).
  assert (Hj : journal_of name s = Some r) by (unfold journal_of; by rewrite Hp, Hr).
  clear Hin. induction (file_names (st_state s)) as [|n names IH]; [by apply not_elem_of_nil in Hn|].
  change (foldl replay_one (replay_one s n) names = replayed r s).
  destruct (decide (n = name)) as [->|Hne].
  - assert (E : replay_one s name = replayed r s) by (unfold replay_one; by rewrite Hj).
    pose proof (replay_one_state s name Hf) as Hs. rewrite Hp, E in Hs. rewrite E. apply replay_nothing.
    unfold journal_free. rewrite Hs. intros n Hpn.
    destruct (decide (n = name)) as [->|Hne]; [apply lookup_delete_eq|]. rewrite lookup_delete_ne by done. by apply Ho.
  - assert (E : replay_one s n = s).
    { unfold replay_one, journal_of. destruct (HasPrefix n _) eqn:Hpn; [|done]. by rewrite (Ho n Hpn Hne). }
    rewrite E. apply IH. apply elem_of_cons in Hn as [->|Hn]; done.
Qed.

Lemma journaled_filed j s : journal_ok j -> journals_filed s -> journals_filed (journaled j s).
Proof.
  intros J Hf name o Hp Ho. cbn in Ho. apply lookup_insert_Some in Ho as [[<- <-]|[_ Ho]]; [by exists j|by apply Hf].
Qed.

Lemma free_filed s : journal_free s -> journals_filed s.
Proof. intros Hf name o Hp Ho. by rewrite (Hf name Hp) in Ho. Qed.

(** Whatever of the journal has been replayed already, replaying it gives
    the same. *)
Lemma replay_completes j s s1 :
  journal_free s -> journal_ok j ->
  s1 = journaled j s \/ s1 = tasked j (journaled j s) \/ s1 = sessioned j (tasked j (journaled j s)) ->
  journals_filed s1 /\ replay_all s1 = sessioned j (tasked j s).
Proof.
  intros Hf J Hs1.
  assert (Hst : st_state s1 = st_state (journaled j s)) by (destruct Hs1 as [->|[->| ->]]; reflexivity).
  assert (Hjf : journals_filed s1).
  { intros name o. rewrite Hst. by apply journaled_filed, free_filed. }
  split; [done|]. rewrite (replay_single s1 (preparationID (tk_ID (tp_Task j))) j).
  - assert (Hdel : delete (preparationID (tk_ID (tp_Task j))) (st_state (journaled j s)) = st_state s).
    { cbn. rewrite delete_insert_eq. apply delete_id. by apply Hf. }
    destruct s as [ss ts js].
    destruct Hs1 as [->|[->| ->]]; unfold replayed, drop_journal, sessioned, tasked, put; cbn in *; rewrite Hdel;
      rewrite ?insert_insert_eq; reflexivity.
  - intros name' Hp Hne. rewrite Hst. cbn. rewrite lookup_insert_ne by done. by apply Hf.
  - done.
  - reflexivity.
  - unfold has. cbn. rewrite Hst. cbn. apply lookup_insert_eq.
Qed.

(** C27: the start of a task is all or nothing across a crash.  With no
    journal about, stop [PrepareTask] at any point by a failure or a crash and
    start the store again without failures: the start succeeds, no journal is
    left, and either nothing has changed, or the task and the session with its
    message are both there exactly as prepared; the latter if [PrepareTask]
    had reported success. *)
Theorem prepare_task_atomic busy busy' (E1 E2 : Env) (value : Task) (mutate : Session -> result Session) (s : Store) :
  honest E1 -> quiet E2 -> journal_free s ->
  wp E1 (PrepareTask busy value mutate ;;; ret tt) (fun r s1 =>
    wp E2 (NewFileStore busy') (fun r2 s2 => r2 = Ok tt /\ journal_free s2 /\
      ((s2 = s /\ is_ok r = false) \/
       exists old new, has sessions (tk_SessionID value) old s /\ mutate old = Ok new /\
         st_tasks s !! tk_ID value = None /\ message_count new (tk_ID value) = 1%nat /\
         s2 = put sessions (sn_ID new) new (put tasks (tk_ID value) value s))) s1) s.
Proof.
  intros Hh Hq Hf. eapply wp_mono; [by apply PrepareTask_effect|]. intros r s1 He.
  assert (Hdone : forall j, prepared_record value mutate s j ->
            forall s2, s2 = sessioned j (tasked j s) -> journal_free s2 /\ ((s2 = s /\ is_ok r = false) \/
       exists old new, has sessions (tk_SessionID value) old s /\ mutate old = Ok new /\
         st_tasks s !! tk_ID value = None /\ message_count new (tk_ID value) = 1%nat /\
         s2 = put sessions (sn_ID new) new (put tasks (tk_ID value) value s))).
  { intros j (old&Ho&Em&Hn&<-&_&Hc) s2 ->. split; [exact Hf|]. right. by exists old, (tp_Session j). }
  assert (Hmid : forall j, prepared_record value mutate s j ->
            s1 = journaled j s \/ s1 = tasked j (journaled j s) \/ s1 = sessioned j (tasked j (journaled j s)) ->
            journals_filed s1 /\ replay_all s1 = sessioned j (tasked j s)).
  { intros j (old&_&_&_&_&J&_). by apply replay_completes. }
  assert (Hstill : journal_free s1 -> journals_filed s1 /\ replay_all s1 = s1).
  { intros H. split; [by apply free_filed|by apply replay_nothing]. }
  assert (Hfin : journals_filed s1 /\ ((replay_all s1 = s /\ is_ok r = false) \/
            exists j, prepared_record value mutate s j /\ replay_all s1 = sessioned j (tasked j s))).
  { inversion He; subst; try (match goal with H : prepared_record _ _ _ ?j |- _ => pose proof H as Hj end).
    - destruct (Hstill Hf) as [? ->]. split; [done|]. by left.
    - destruct (Hmid _ Hj) as [? ?]; [by left|]. split; [done|]. right. by eexists.
    - destruct (Hmid _ Hj) as [? ?]; [by right; left|]. split; [done|]. right. by eexists.
    - destruct (Hmid _ Hj) as [? ?]; [by right; right|]. split; [done|]. right. by eexists.
    - assert (E : drop_journal (tk_ID value) (sessioned j (tasked j (journaled j s))) = sessioned j (tasked j s)).
      { destruct Hj as (old&_&_&_&<-&_). unfold drop_journal, sessioned, tasked, journaled, put. cbn.
        rewrite delete_insert_eq, delete_id by (by apply Hf). by destruct s. }
      rewrite E in Hstill |- *. destruct (Hstill Hf) as [? ->]. split; [done|]. right. by eexists. }
  destruct Hfin as [Hjf Hcase]. eapply wp_mono; [by apply wp_NewFileStore_quiet|]. intros r2 s2 [-> ->].
  split; [done|]. destruct Hcase as [[-> ?]|(j&Hj&Ej)]; [split; [done|by left]|by apply (Hdone j)].
Qed.

(** ** The store stays well formed *)
Record well_formed (s : Store) : Prop := {
  wf_tasks : forall id v, has tasks id v s -> tk_ID v = id /\ valid id;
  wf_sessions : forall id v, has sessions id v s -> sn_ID v = id /\ valid id;
  wf_journals : journals_filed s
}.

Lemma wf_put_task id v s : tk_ID v = id -> valid id -> well_formed s -> well_formed (put tasks id v s).
Proof.
  intros Hi V [Ht Hs Hj]. split; [|exact Hs|exact Hj]. intros i w Hw. unfold has in Hw. cbn in Hw.
  apply lookup_insert_Some in Hw as [[<- [= <-]]|[_ Hw]]; [done|by apply Ht].
Qed.

Lemma wf_put_session id v s : sn_ID v = id -> valid id -> well_formed s -> well_formed (put sessions id v s).
Proof.
  intros Hi V [Ht Hs Hj]. split; [exact Ht| |exact Hj]. intros i w Hw. unfold has in Hw. cbn in Hw.
  apply lookup_insert_Some in Hw as [[<- [= <-]]|[_ Hw]]; [done|by apply Hs].
Qed.

Lemma wf_drop id s : well_formed s -> well_formed (drop_journal id s).
Proof.
  intros [Ht Hs Hj]. split; [exact Ht|exact Hs|]. intros name o Hp Ho. cbn in Ho.
  apply lookup_delete_Some in Ho as [_ Ho]. by apply Hj.
Qed.

Lemma wf_journaled j s : journal_ok j -> well_formed s -> well_formed (journaled j s).
Proof. intros J [Ht Hs Hj]. split; [exact Ht|exact Hs|by apply journaled_filed]. Qed.

Lemma wf_tasked j s : journal_ok j -> well_formed s -> well_formed (tasked j s).
Proof. intros [] ?. by apply wf_put_task. Qed.

Lemma wf_sessioned j s : journal_ok j -> well_formed s -> well_formed (sessioned j s).
Proof. intros [] ?. by apply wf_put_session. Qed.

Create HintDb store discriminated.
#[export] Hint Resolve wf_put_task wf_put_session wf_drop wf_journaled wf_tasked wf_sessioned : store.

Lemma wf_replays s s' : rtc replay s s' -> well_formed s -> well_formed s'.
Proof.
  induction 1 as [|s s1 s' H1 _ IH]; [done|]. intros Hw. apply IH.
  destruct H1 as [s name r _ _ J|s name r _ _ J _|s name r _ _ J _ _]; destruct J; auto with store.
Qed.

Lemma wf_effect E o s r s' : effect E o s r s' -> well_formed s -> well_formed s'.
Proof.
  intros He Hw. pose proof (wf_tasks s Hw) as Ht.
  destruct He as [| | |? ? ? ? ? J|? ? ? ? ? J|? ? ? ? ? J|? ? ? ? ? J| | |i ? ? ? v ? ? ? ? Hv|i ? ? v ? ? ? Hv|];
    try (destruct J as (?&?&?&?&?&J&?)); auto 8 with store.
  - destruct (Ht i v Hv). apply wf_put_task; [done..|exact Hw].
  - destruct (Ht i v Hv). apply wf_put_task; [done..|exact Hw].
  - by eapply wf_replays.
Qed.

Lemma replay_one_tasks s name id : journals_filed s ->
  st_tasks (replay_one s name) !! id =
    if decide (name = preparationID id) then
      match journal_of name s with Some j => Some (Some (tp_Task j)) | None => st_tasks s !! id end
    else st_tasks s !! id.
Proof.
  intros Hf. unfold replay_one. destruct (journal_of name s) as [j|] eqn:Ej; [|by destruct (decide _)].
  destruct (journal_filed _ _ _ Hf Ej) as (Hn&_&_). destruct (decide (name = preparationID id)) as [E|Hne].
  - assert (tk_ID (tp_Task j) = id) as <- by (rewrite E in Hn; by injection Hn). cbn. apply lookup_insert_eq.
  - cbn. apply lookup_insert_ne. congruence.
Qed.

Lemma replay_all_tasks names s id : journals_filed s -> NoDup names ->
  st_tasks (foldl replay_one s names) !! id =
    if decide (preparationID id ∈ names) then
      match journal_of (preparationID id) s with Some j => Some (Some (tp_Task j)) | None => st_tasks s !! id end
    else st_tasks s !! id.
Proof.
  revert s. induction names as [|n names IH]; intros s Hf Hnd; [by destruct (decide _) as [H%not_elem_of_nil|]|].
  apply NoDup_cons in Hnd as [Hni Hnd]. cbn [foldl]. rewrite IH by (done || by apply replay_one_filed).
  assert (Hj : preparationID id ∈ names -> journal_of (preparationID id) (replay_one s n) = journal_of (preparationID id) s).
  { intros Hin. unfold journal_of. rewrite preparation_prefixed, replay_one_state by done.
    destruct (HasPrefix n _); [|done]. rewrite lookup_delete_ne; [done|]. by intros ->. }
  rewrite !(replay_one_tasks s n id Hf). destruct (decide (preparationID id ∈ names)) as [Hin|Hnin].
  - rewrite (Hj Hin). destruct (decide (n = preparationID id)) as [->|Hne]; [done|].
    destruct (decide (preparationID id ∈ n :: names)) as [_|Hno]; [done|]. destruct Hno. by right.
  - destruct (decide (n = preparationID id)) as [->|Hne].
    + destruct (decide (_ ∈ _ :: _)) as [_|Hno]; [done|]. destruct Hno. by left.
    + destruct (decide (_ ∈ n :: _)) as [[?|?]%elem_of_cons|_]; [congruence|done|done].
Qed.

Lemma replay_all_free names s : journals_filed s ->
  (forall name, HasPrefix name "prepare-" = true -> is_Some (st_state s !! name) -> name ∈ names) ->
  journal_free (foldl replay_one s names).
Proof.
  revert s. induction names as [|n names IH]; intros s Hf Hn.
  - intros name Hp. destruct (st_state s !! name) eqn:E; [|done]. destruct (not_elem_of_nil name). apply Hn; [done|by rewrite E].
  - cbn [foldl]. apply IH; [by apply replay_one_filed|]. intros name Hp. rewrite replay_one_state by done. intros Hs.
    assert (Hne : name <> n).
    { intros ->. rewrite Hp, lookup_delete_eq in Hs. by destruct Hs. }
    assert (is_Some (st_state s !! name)) as Hs'.
    { destruct (HasPrefix n _); [by rewrite lookup_delete_ne in Hs|done]. }
    destruct (proj1 (elem_of_cons names name n) (Hn name Hp Hs')); [done|done].
Qed.

(** The store is always in order and always comes back.  From a
    well-formed store, any history of operations, failures and crashes leaves
    a well-formed store; starting it then without failures succeeds, leaves
    no journal, and gives every task the record of its journal if it had one
    and otherwise the record it had. *)
Theorem store_recovers busy busy' (l : list (Env * sop)) (E : Env) (s : Store) :
  well_formed s -> honest_run l -> quiet E ->
  wp E (NewFileStore busy') (fun r s2 => r = Ok tt /\ well_formed s2 /\ journal_free s2 /\
    forall id, st_tasks s2 !! id =
      match st_state (after busy l s) !! preparationID id with
      | Some (Some j) => Some (Some (tp_Task j))
      | _ => st_tasks (after busy l s) !! id
      end) (after busy l s).
Proof.
  intros Hw Hh Hq. assert (Hw1 : well_formed (after busy l s)).
  { eapply (behaves_keeps (fun _ => True) well_formed); [|by apply Forall_true|exact Hw|by apply run_behaves].
    intros E' o s' r s'' _ Hs He. by eapply wf_effect. }
  set (s1 := after busy l s) in *. clearbody s1. pose proof (wf_journals s1 Hw1) as Hf.
  destruct (file_names_spec (st_state s1)) as [Hnd Hin]. intros w Hs1. split_and!.
  - by apply (wp_NewFileStore_quiet E busy' s1 Hq Hf).
  - pose proof (NewFileStore_effect E busy' s1 (quiet_honest E Hq) w Hs1) as He. by eapply wf_effect.
  - destruct (wp_NewFileStore_quiet E busy' s1 Hq Hf w Hs1) as [_ ->].
    apply replay_all_free; [done|]. intros name _. apply Hin.
  - destruct (wp_NewFileStore_quiet E busy' s1 Hq Hf w Hs1) as [_ ->]. intros id.
    unfold replay_all. rewrite replay_all_tasks by done.
    unfold journal_of. rewrite preparation_prefixed.
    destruct (st_state s1 !! preparationID id) as [[j|]|] eqn:Ej; [|by destruct (decide _)..].
    destruct (decide _) as [_|Hno]; [done|]. destruct Hno. apply Hin. by rewrite Ej.
Qed.

(** ** Witnesses *)
Definition lab_runtime : RuntimeCheckpoint := MkRuntimeCheckpoint 0 0 0 0 "" 0 0 zero_time zero_time [] [].
Definition no_lease : WorkerLease := MkWorkerLease "" "" 0 zero_time.
Definition lab_task : Task :=
  MkTask "task_1" "session_1" "objective" "" "created" "" [] 0 [] [] [] [] None "" "" ∅ lab_runtime no_lease 0 "" 0 0.
Definition lab_session (messages : list Message) : Session := MkSession "session_1" "" false messages "" ∅ [] 0 0.
Definition lab_message (id taskID : string) : Message := MkMessage id "user" "content" taskID 0.

Definition say (m : Message) (s : Session) : result Session := Ok (lab_session (sn_Messages s ++ [m])).

Definition lab_store : Store := MkStore {[ "session_1" := Some (lab_session []) ]} ∅ ∅.

(** All system calls from the [n]-th on fail. *)
Definition stop_at (n : nat) : Env :=
  MkEnv (fun _ => 0) (fun k => if (n <=? k)%nat then Some ECRASH else None) (fun _ => "") (fun _ => None) (fun _ => 0%nat).

Lemma stop_honest n : honest (stop_at n).
Proof. intros k. cbn. by case_match. Qed.

Lemma calm_honest' t i : honest (calm t i).
Proof. done. Qed.

Definition at_ (t : Z) : Env := calm t "".

(** Two workers: the second claims after the first one's lease ran out. *)
Definition lab_claims : list (Env * sop) :=
  [(at_ 0, OPrepareTask lab_task (say (lab_message "m1" "task_1")));
   (at_ 1, OClaimTask "task_1" "worker" "token_1" 100)].
Definition lab_claimed : Store := after 2 lab_claims lab_store.

Definition held (token : string) (fence expires : Z) : Task := with_lease lab_task (MkWorkerLease "worker" token fence expires).

Example lab_claims_succeed :
  map is_ok (run_store 2 (lab_claims ++ [(at_ 50, OClaimTask "task_1" "other" "token_2" 100);
                                         (at_ 50, OSaveTask (held "token_1" 1 101));
                                         (at_ 101, OClaimTask "task_1" "other" "token_2" 100);
                                         (at_ 102, OSaveTask (held "token_1" 1 101));
                                         (at_ 103, OReleaseTask "task_1" "token_2" 2)]) lab_store).1
  = [true; true; false; true; true; false; true].
Proof. vm_compute. reflexivity. Qed.

Lemma lab_claims_honest : honest_run lab_claims.
Proof. repeat constructor; apply calm_honest'. Qed.

Lemma store_refines_protocol_witness :
  exists rs, run_store 2 lab_claims lab_store = (rs, after 2 lab_claims lab_store) /\ length rs = length lab_claims /\
    behaves lab_claims lab_store rs (after 2 lab_claims lab_store).
Proof. exact (store_refines_protocol 2 lab_claims lab_store lab_claims_honest). Defined.

Lemma lab_claimed_state : st_state lab_claimed = ∅.
Proof. vm_compute. reflexivity. Qed.

Lemma lab_unjournaled : unjournaled "task_1" lab_claimed.
Proof. intros name r _ H. unfold has in H. cbn [kd_get state] in H. by rewrite lab_claimed_state in H. Qed.

Lemma lease_fencing_witness :
  wp (at_ 200) (run_sop 2 (OClaimTask "task_1" "other" "token_2" 100)) (fun r s2 => r = Ok tt ->
    wp (at_ 250) (SaveTask 2 (held "token_1" 1 101))
      (fun r' s4 => is_ok r' = false /\ s4 = after 2 [(stop_at 3, ORestart)] s2) (after 2 [(stop_at 3, ORestart)] s2))
    (after 2 [(at_ 50, OSaveTask (held "token_1" 1 101))] lab_claimed).
Proof.
  apply (lease_fencing 2 "task_1" 1 _ [(stop_at 3, ORestart)] (at_ 200) (at_ 250) "other" "token_2" 100 (held "token_1" 1 101)
           lab_claimed 1).
  - repeat constructor; apply calm_honest'.
  - apply calm_honest'.
  - repeat constructor. apply (stop_honest 3).
  - apply calm_honest'.
  - vm_compute. reflexivity.
  - apply lab_unjournaled.
  - lia.
  - repeat constructor. cbn. lia.
  - cbn. unfold max_uint64. lia.
  - reflexivity.
  - cbn. lia.
Defined.

Lemma live_lease_excludes_witness :
  (exists w, has tasks "task_1" w (after 2 [(at_ 50, OClaimTask "task_1" "other" "token_2" 100)] lab_claimed) /\
     tk_WorkerLease w = tk_WorkerLease (held "token_1" 1 101)) /\
  Forall2 (fun p r => shut_out "task_1" (tk_WorkerLease (held "token_1" 1 101)) p.2 r)
    [(at_ 50, OClaimTask "task_1" "other" "token_2" 100)]
    (run_store 2 [(at_ 50, OClaimTask "task_1" "other" "token_2" 100)] lab_claimed).1.
Proof.
  apply (live_lease_excludes 2 "task_1" _ lab_claimed (held "token_1" 1 101)).
  - repeat constructor. apply calm_honest'.
  - vm_compute. reflexivity.
  - apply lab_unjournaled.
  - discriminate.
  - repeat constructor.
Defined.

Lemma lab_free : journal_free lab_store.
Proof. intros name _. apply lookup_empty. Qed.

(** Stopped right after the journal is in place. *)
Lemma prepare_task_atomic_witness :
  wp (stop_at 10) (PrepareTask 2 lab_task (say (lab_message "m1" "task_1")) ;;; ret tt) (fun r s1 =>
    wp (at_ 5) (NewFileStore 0) (fun r2 s2 => r2 = Ok tt /\ journal_free s2 /\
      ((s2 = lab_store /\ is_ok r = false) \/
       exists old new, has sessions (tk_SessionID lab_task) old lab_store /\ say (lab_message "m1" "task_1") old = Ok new /\
         st_tasks lab_store !! tk_ID lab_task = None /\ message_count new (tk_ID lab_task) = 1%nat /\
         s2 = put sessions (sn_ID new) new (put tasks (tk_ID lab_task) lab_task lab_store))) s1) lab_store.
Proof.
  exact (prepare_task_atomic 2 0 (stop_at 10) (at_ 5) lab_task (say (lab_message "m1" "task_1")) lab_store
           (stop_honest 10) (calm_quiet 5 "") lab_free).
Defined.

Example lab_prepare_recovered :
  let s1 := after 2 [(stop_at 10, OPrepareTask lab_task (say (lab_message "m1" "task_1")))] lab_store in
  let tasks_of s := match st_tasks s !! "task_1" with Some (Some t) => [tk_Objective t] | _ => [] end in
  tasks_of s1 = [] /\ tasks_of (after 2 [(at_ 5, ORestart)] s1) = ["objective"].
Proof. vm_compute. split; reflexivity. Qed.

Lemma lab_well_formed : well_formed lab_store.
Proof.
  split.
  - intros id v H. unfold has in H. cbn in H. by rewrite lookup_empty in H.
  - intros id v H. unfold has in H. cbn in H. by apply lookup_singleton_Some in H as [<- [= <-]].
  - intros name o _ H. cbn in H. by rewrite lookup_empty in H.
Qed.

Lemma store_recovers_witness :
  wp (at_ 9) (NewFileStore 1) (fun r s2 => r = Ok tt /\ well_formed s2 /\ journal_free s2 /\
    forall id, st_tasks s2 !! id =
      match st_state (after 2 lab_claims lab_store) !! preparationID id with
      | Some (Some j) => Some (Some (tp_Task j))
      | _ => st_tasks (after 2 lab_claims lab_store) !! id
      end) (after 2 lab_claims lab_store).
Proof. exact (store_recovers 2 1 lab_claims (at_ 9) lab_store lab_well_formed lab_claims_honest (calm_quiet 9 "")). Defined.

(** A [PrepareTask] that reports an error after its journal was written: the
    session goes on without it, and the next start brings back the session of
    the journal, without the message that was added since, and the task. *)
Example failed_preparation_overwrites_later_work :
  let s1 := after 2 [(stop_at 10, OPrepareTask lab_task (say (lab_message "m1" "task_1")));
                     (at_ 1, OUpdateSession "session_1" (say (lab_message "m2" "task_2")))] lab_store in
  let messages s := match st_sessions s !! "session_1" with Some (Some v) => map ms_ID (sn_Messages v) | _ => [] end in
  messages s1 = ["m2"] /\ messages (after 2 [(at_ 2, ORestart)] s1) = ["m1"].
Proof. vm_compute. split; reflexivity. Qed.
