(* ===== verification/Planner.v ===== *)
(** * What the planner is asked and what it may answer

    [internal/llm/provider.go] (the records), [internal/agent/session_context.go]
    (the bounded view of a session) and [internal/agent/schema.go] (the check
    of arguments against a discovered schema).  The model behind the planner,
    the regular-expression engine and the printing of values by [fmt.Sprint]
    are parameters.  Numbers are [float64]: a finite one is [m * 2^e], and a
    literal is rounded to the nearest, ties to even. *)

From S2P Require Import Prelude GoStrings GoText Json Contracts Store.
Open Scope Z_scope.

(** ** [internal/llm/provider.go] *)
Definition DecisionTool : string := "tool".
Definition DecisionActionRequest : string := "action_request".
Definition DecisionFinal : string := "final".
Definition DecisionReplan : string := "replan".

Record ToolCapability := MkToolCapability {
  tc_ServerID : string;
  tc_Name : string;
  tc_Description : string;
  tc_InputSchema : string
}.

Record ManagedActionCapability := MkManagedActionCapability {
  ma_Name : string;
  ma_Description : string;
  ma_TargetType : string;
  ma_InputSchema : string;
  ma_ApprovalRequired : bool;
  ma_Reversible : bool;
  ma_RollbackStrategy : string;
  ma_RequiresEvidence : bool;
  ma_ExecutionBoundary : string
}.

Record Observation := MkObservation {
  ob_Tool : string;
  ob_Arguments : json;
  ob_Result : json;
  ob_EvidenceRef : string
}.

Record SessionMessage := MkSessionMessage {
  sm_Role : string;
  sm_Content : string
}.

Record SessionContext := MkSessionContext {
  sc_Summary : string;
  sc_RecentMessages : list SessionMessage;
  sc_SelectedResources : list string
}.

Record ReadScope := MkReadScope {
  rs_ResourceType : string;
  rs_AuthorizedPaths : list string;
  rs_ExcludedPaths : list string;
  rs_Source : string
}.

Record GuardFeedback := MkGuardFeedback {
  gf_Code : string;
  gf_Summary : string;
  gf_Tool : string;
  gf_AttemptedPath : string;
  gf_AuthorizedPaths : list string;
  gf_ExcludedPaths : list string
}.

Record DecisionRequest := MkDecisionRequest {
  dr_Objective : string;
  dr_OriginalRequest : string;
  dr_FinalOnly : bool;
  dr_SessionContext : option SessionContext;
  dr_Tools : list ToolCapability;
  dr_ManagedActions : list ManagedActionCapability;
  dr_LocalReadScope : option ReadScope;
  dr_GuardFeedback : list GuardFeedback;
  dr_Observations : list Observation;
  dr_Iteration : Z;
  dr_ToolCalls : Z
}.

Record Decision_ := MkDecision {
  de_Kind : string;
  de_DecisionSummary : string;
  de_ServerID : string;
  de_Tool : string;
  de_Arguments : gmap string json;
  de_Target : TargetRef;
  de_ExpectedObservation : string;
  de_FinalAnswer : string
}.

(** ** [internal/agent/session_context.go] *)
Definition maxPlannerContextMessages : nat := 6.
Definition maxPlannerMessageBytes : Z := 2048.
Definition maxPlannerMessagesBytes : Z := 8192.
Definition maxPlannerSummaryBytes : Z := 2048.
Definition maxPlannerSelectedResources : nat := 50.
Definition maxPlannerSelectedResourceBytes : Z := 2048.
Definition maxPlannerSelectedResourcesBytes : Z := 16384.

(** The four [plannerSecretPatterns] as the regular-expression engine
    replaces them. *)
Class PlannerPatterns := replace_secrets : list (string -> string).

Definition redactPlannerSecrets `{PlannerPatterns} (value : string) : string :=
  foldl (fun v replace => replace v) value replace_secrets.

Definition len (s : string) : Z := Z.of_nat (String.length s).

(** Shorten the cut string until it is valid. *)
Fixpoint valid_prefix (n : nat) (value : string) : string :=
  match n with
  | 0%nat => ""
  | S n' => if valid_utf8 (take_bytes n value) then take_bytes n value else valid_prefix n' value
  end.

Definition truncateUTF8 (value : string) (limit : Z) : string :=
  if limit <=? 0 then ""
  else if len value <=? limit then value
  else valid_prefix (Z.to_nat limit) value.

Definition boundedPlannerText `{PlannerPatterns} (value : string) (limit : Z) : string :=
  truncateUTF8 (redactPlannerSecrets (TrimSpace value)) limit.

Definition planner_message (currentTaskID : string) (m : Message) : bool :=
  negb (String.eqb (ms_TaskID m) currentTaskID)
  && (String.eqb (ms_Role m) "user" || String.eqb (ms_Role m) "assistant").

(** The messages from the newest back; [messages] is already in the order
    in which the planner reads them. *)
Fixpoint recent_messages `{PlannerPatterns} (currentTaskID : string) (newest_first : list Message)
    (messages : list SessionMessage) (remaining : Z) : list SessionMessage :=
  match newest_first with
  | [] => messages
  | m :: older =>
    if (maxPlannerContextMessages <=? length messages)%nat || (remaining <=? 0) then messages
    else if negb (planner_message currentTaskID m) then recent_messages currentTaskID older messages remaining
    else
      let content := truncateUTF8 (redactPlannerSecrets (TrimSpace (ms_Content m))) (Z.min maxPlannerMessageBytes remaining) in
      if String.eqb content "" then recent_messages currentTaskID older messages remaining
      else recent_messages currentTaskID older (MkSessionMessage (ms_Role m) content :: messages) (remaining - len content)
  end.

Fixpoint selected_resources `{PlannerPatterns} (raws chosen : list string) (remaining : Z) : list string :=
  match raws with
  | [] => chosen
  | raw :: raws =>
    if (length chosen =? maxPlannerSelectedResources)%nat || (remaining =? 0) then chosen
    else
      let resource := truncateUTF8 (redactPlannerSecrets (TrimSpace raw)) (Z.min maxPlannerSelectedResourceBytes remaining) in
      if String.eqb resource "" || string_in resource chosen then selected_resources raws chosen remaining
      else selected_resources raws (chosen ++ [resource]) (remaining - len resource)
  end.

Definition buildPlannerSessionContext `{PlannerPatterns} (value : Session) (currentTaskID : string) : option SessionContext :=
  let summary := boundedPlannerText (sn_Summary value) maxPlannerSummaryBytes in
  let messages := recent_messages currentTaskID (rev (sn_Messages value)) [] maxPlannerMessagesBytes in
  let resources := selected_resources (sn_SelectedResources value) [] maxPlannerSelectedResourcesBytes in
  if String.eqb summary "" && nil_slice messages && nil_slice resources then None
  else Some (MkSessionContext summary messages resources).

(** ** Numbers *)
Record float64 := MkFloat { f_mant : Z; f_exp : Z }.

(** The nearest integer to [p / q], ties to even ([q > 0], [p >= 0]). *)
Definition nearest (p q : Z) : Z :=
  let d := p / q in
  let r := p mod q in
  if 2 * r <? q then d else if q <? 2 * r then d + 1 else if Z.even d then d else d + 1.

(** [p / q] rounded to 53 bits, with the exponent of a subnormal at least
    -1074; [None] past the largest finite number. *)
Definition round_ratio (p q : Z) : option float64 :=
  if p =? 0 then Some (MkFloat 0 0)
  else
    let l := Z.log2 p - Z.log2 q in
    let below := if l <? 0 then p * 2 ^ (- l) <? q else p <? q * 2 ^ l in
    let e := Z.max ((if below then l - 1 else l) - 52) (-1074) in
    let m := if e <? 0 then nearest (p * 2 ^ (- e)) q else nearest p (q * 2 ^ e) in
    if (971 <=? e) && (2 ^ 1024 <=? m * 2 ^ e) then None else Some (MkFloat m e).

Fixpoint read_digits (s : string) (acc : Z) (count : Z) : Z * Z * string :=
  match s with
  | String c s' => match digit c with Some d => read_digits s' (acc * 10 + d) (count + 1) | None => (acc, count, s) end
  | "" => (acc, count, "")
  end.

(** A JSON number literal as [n * 10^k]. *)
Definition decimal_of (lit : string) : Z * Z :=
  let '(neg, s) := match lit with String "-" s => (true, s) | _ => (false, lit) end in
  let '(i, _, s) := read_digits s 0 0 in
  let '(n, k, s) := match s with String "." s => let '(n, c, s) := read_digits s i 0 in (n, - c, s) | _ => (i, 0, s) end in
  let x := match s with
           | String "e" s | String "E" s =>
             match s with
             | String "-" s => - (read_digits s 0 0).1.1
             | String "+" s => (read_digits s 0 0).1.1
             | _ => (read_digits s 0 0).1.1
             end
           | _ => 0
           end in
  ((if neg then - n else n), k + x).

Definition ParseFloat (lit : string) : option float64 :=
  let '(n, k) := decimal_of lit in
  let r := if k <? 0 then round_ratio (Z.abs n) (10 ^ (- k)) else round_ratio (Z.abs n * 10 ^ k) 1 in
  match r with
  | Some f => Some (if n <? 0 then MkFloat (- f_mant f) (f_exp f) else f)
  | None => None
  end.

(** [math.Trunc(f) == f] and [f < g]. *)
Definition is_integer (f : float64) : bool := (0 <=? f_exp f) || (f_mant f mod 2 ^ (- f_exp f) =? 0).
Definition float_lt (f g : float64) : bool :=
  let e := Z.min (f_exp f) (f_exp g) in
  f_mant f * 2 ^ (f_exp f - e) <? f_mant g * 2 ^ (f_exp g - e).
Definition float_eq (f g : float64) : bool := negb (float_lt f g) && negb (float_lt g f).

Definition numeric (value : option json) : option float64 :=
  match value with Some (JNum lit) => ParseFloat lit | _ => None end.

(** ** [internal/agent/schema.go] *)

(** [regexp.Compile] and the matcher it gives. *)
Class Regexp := Compile : string -> option (string -> bool).
(** [fmt.Sprint] of a value that is not a string. *)
Class Sprinter := sprint_other : json -> string.

Definition Sprint `{Sprinter} (v : json) : string := match v with JStr s => s | _ => sprint_other v end.

(** A field of a decoded object: the last of equal keys. *)
Definition key (k : string) (fields : list (string * json)) : option json := get_field k (rev fields).

Definition validateNumberBounds (schema : list (string * json)) (number : float64) (path : string) : result unit :=
  fail_if (match numeric (key "minimum" schema) with Some minimum => float_lt number minimum | None => false end)
  with EMsg (path +:+ " is below minimum") ;;
  fail_if (match numeric (key "maximum" schema) with Some maximum => float_lt maximum number | None => false end)
  with EMsg (path +:+ " exceeds maximum") ;;
  Ok tt.

Definition validateEnum `{Sprinter} (schema : list (string * json)) (value : json) (path : string) : result unit :=
  match key "enum" schema with
  | Some (JArr items) =>
    if existsb (fun item => String.eqb (Sprint item) (Sprint value)) items then Ok tt
    else Err (EMsg (path +:+ " is outside the allowed enum"))
  | _ => Ok tt
  end.

Definition required_names (schema : list (string * json)) : list string :=
  match key "required" schema with
  | Some (JArr values) => omap (fun item => match item with JStr name => Some name | _ => None end) values
  | _ => []
  end.

(** The checks of a loop in order; the first failure is returned. *)
Fixpoint all_ok (l : list (result unit)) : result unit :=
  match l with [] => Ok tt | Ok _ :: l => all_ok l | Err e :: _ => Err e end.

Definition Checker : Type := json -> string -> bool -> result unit.

(** The checkers of the values of an object schema, with those of their own
    properties: what [schema["properties"]] and [schema["items"]] hold. *)
Abbreviation Checkers := (list (string * option Checker)).

Fixpoint find_key {A} (k : string) (l : list (string * A)) : option A :=
  match l with
  | [] => None
  | (k', v) :: l => match find_key k l with Some w => Some w | None => if String.eqb k' k then Some v else None end
  end.

(** One entry of the loop over the object (in the order of the keys: Go
    leaves it open, and with it which of several failures is reported). *)
Definition check_property (properties : Checkers) (closed : bool) (path : string) (kv : string * json) : result unit :=
  match find_key kv.1 properties with
  | None => if closed then Err (EMsg (path +:+ "." +:+ kv.1 +:+ " is not allowed")) else Ok tt
  | Some None => Err (EMsg (path +:+ "." +:+ kv.1 +:+ " has an invalid discovered schema"))
  | Some (Some check) => check kv.2 (path +:+ "." +:+ kv.1) false
  end.

Definition schema_type (schema : list (string * json)) (root : bool) : string :=
  let typeName := match key "type" schema with Some (JStr s) => s | _ => "" end in
  if root && String.eqb typeName "" then "object" else typeName.

Definition check_object (schema : list (string * json)) (properties : Checkers) (value : json) (path : string) : result unit :=
  match value with
  | JObj object =>
    let? _ := all_ok (map (fun name => match find_key name object with
                                     | Some _ => Ok tt
                                     | None => Err (EMsg (path +:+ "." +:+ name +:+ " is required"))
                                     end) (required_names schema)) in
    all_ok (map (check_property properties (match key "additionalProperties" schema with Some (JBool false) => true | _ => false end) path)
              object)
  | _ => Err (EMsg (path +:+ " must be an object"))
  end.

Definition check_string `{Regexp} `{Sprinter} (schema : list (string * json)) (value : json) (path : string) : result unit :=
  match value with
  | JStr text =>
    let? _ := match key "pattern" schema with
              | Some (JStr pattern) =>
                match Compile pattern with
                | None => Err (EMsg (path +:+ " has invalid discovered pattern"))
                | Some MatchString => guard_ (negb (MatchString text)) (EMsg (path +:+ " does not match the required pattern"))
                end
              | _ => Ok tt
              end in
    validateEnum schema value path
  | _ => Err (EMsg (path +:+ " must be a string"))
  end.

Definition check_number (integer : bool) (schema : list (string * json)) (value : json) (path : string) : result unit :=
  match numeric (Some value) with
  | Some number =>
    fail_if integer && negb (is_integer number) with EMsg (path +:+ " must be an integer") ;;
    validateNumberBounds schema number path
  | None => Err (EMsg (path +:+ " must be a number"))
  end.

Definition check_array (items : option Checker) (value : json) (path : string) : result unit :=
  match value with
  | JArr values =>
    match items with
    | Some check => all_ok (imap (fun index item => check item (path +:+ "[" +:+ show_Z (Z.of_nat index) +:+ "]") false) values)
    | None => Ok tt
    end
  | _ => Err (EMsg (path +:+ " must be an array"))
  end.

(** The body of [validateSchemaValue] after its subschemas. *)
Definition check_value `{Regexp} `{Sprinter} (schema : list (string * json)) (properties : Checkers) (items : option Checker) : Checker :=
  fun value path root =>
  let typeName := schema_type schema root in
  if String.eqb typeName "object" then check_object schema properties value path
  else if String.eqb typeName "string" then check_string schema value path
  else if String.eqb typeName "integer" then check_number true schema value path
  else if String.eqb typeName "number" then check_number false schema value path
  else if String.eqb typeName "boolean" then
    match value with JBool _ => Ok tt | _ => Err (EMsg (path +:+ " must be a boolean")) end
  else if String.eqb typeName "array" then check_array items value path
  else if String.eqb typeName "" || String.eqb typeName "null" then Ok tt
  else Err (EMsg (path +:+ " uses unsupported discovered schema type")).

Section Schema.
Context `{Regexp} `{Sprinter}.

(** [None] for a schema that is not an object. *)
Fixpoint schema_checker (schema : json) : option Checker :=
  match schema with
  | JObj fields =>
    let subschemas := map (fun kv =>
      (kv.1, (schema_checker kv.2,
              match kv.2 with JObj named => map (fun nv => (nv.1, schema_checker nv.2)) named | _ => [] end))) fields in
    let properties := match find_key "properties" subschemas with Some (_, named) => named | None => [] end in
    let items := match find_key "items" subschemas with Some (check, _) => check | None => None end in
    Some (check_value fields properties items)
  | _ => None
  end.

Definition validateSchemaValue (schema : json) (value : json) (path : string) (root : bool) : result unit :=
  match schema_checker schema with Some check => check value path root | None => Err (EMsg "not a schema") end.

Definition validateToolArguments (raw : string) (arguments : gmap string json) : result unit :=
  fail_if String.eqb raw "" || String.eqb raw "null" with EMsg "tool has no discovered input schema" ;;
  match parse raw with
  | Some (JObj fields) => validateSchemaValue (JObj fields) (JMap arguments) "$" true
  | _ => Err (EMsg "json: cannot unmarshal")
  end.
End Schema.

(** ** The planner sees a bounded, redacted part of the session *)
Lemma take_bytes_split n s : exists t, s = take_bytes n s +:+ t.
Proof.
  revert s. induction n as [|n IH]; intros s; [by exists s|]. destruct s as [|c s]; [by exists ""|].
  destruct (IH s) as [t E]. exists t. cbn. by rewrite E at 1.
Qed.

Lemma take_bytes_len n s : len (take_bytes n s) <= Z.of_nat n.
Proof.
  unfold len. revert s. induction n as [|n IH]; intros [|c s]; cbn -[Z.of_nat]; try lia. specialize (IH s). lia.
Qed.

Lemma valid_prefix_spec n s : (exists t, s = valid_prefix n s +:+ t) /\ len (valid_prefix n s) <= Z.of_nat n /\
  valid_utf8 (valid_prefix n s) = true.
Proof.
  induction n as [|n IH]; [split; [by exists s|done]|].
  cbn [valid_prefix]. destruct (valid_utf8 (take_bytes (S n) s)) eqn:Ev.
  - split; [apply take_bytes_split|]. split; [apply take_bytes_len|done].
  - destruct IH as (?&?&?). split; [done|]. split; [lia|done].
Qed.

Definition starts (content full : string) : Prop := exists t, full = content +:+ t.

Lemma truncate_spec s limit : starts (truncateUTF8 s limit) s /\ len (truncateUTF8 s limit) <= Z.max 0 limit /\
  (truncateUTF8 s limit = s \/ valid_utf8 (truncateUTF8 s limit) = true).
Proof.
  unfold truncateUTF8. destruct (Z.leb_spec limit 0).
  - split; [by exists s|]. split; [change (len "") with 0; lia|by right].
  - destruct (Z.leb_spec (len s) limit).
    + split; [exists ""; by rewrite string_app_nil_r|]. split; [lia|by left].
    + destruct (valid_prefix_spec (Z.to_nat limit) s) as (?&?&?). split; [done|]. split; [lia|by right].
Qed.

Section Context_.
Context `{PlannerPatterns}.

(** What one message of the session becomes. *)
Record shown (currentTaskID : string) (m : Message) (c : SessionMessage) : Prop := {
  sh_task : ms_TaskID m <> currentTaskID;
  sh_role : sm_Role c = ms_Role m /\ (ms_Role m = "user" \/ ms_Role m = "assistant");
  sh_content : starts (sm_Content c) (redactPlannerSecrets (TrimSpace (ms_Content m))) /\ sm_Content c <> "";
  sh_bounded : len (sm_Content c) <= maxPlannerMessageBytes
}.

Definition total_bytes (l : list string) : Z := foldr (fun s n => len s + n) 0 l.

Lemma planner_message_spec id m : planner_message id m = true <->
  ms_TaskID m <> id /\ (ms_Role m = "user" \/ ms_Role m = "assistant").
Proof.
  unfold planner_message. rewrite andb_true_iff, negb_true_iff, orb_true_iff, String.eqb_neq, !String.eqb_eq. done.
Qed.

Lemma recent_messages_spec id newest : forall messages remaining,
  exists ms kept, recent_messages id newest messages remaining = kept ++ messages /\
    ms `sublist_of` rev newest /\ Forall2 (shown id) ms kept /\
    (length (kept ++ messages) <= Nat.max (length messages) maxPlannerContextMessages)%nat /\
    total_bytes (map sm_Content kept) <= Z.max 0 remaining.
Proof.
  assert (Hnil : forall l (messages : list SessionMessage) remaining, exists ms kept, messages = kept ++ messages /\
    ms `sublist_of` rev l /\ Forall2 (shown id) ms kept /\
    (length (kept ++ messages) <= Nat.max (length messages) maxPlannerContextMessages)%nat /\
    total_bytes (map sm_Content kept) <= Z.max 0 remaining).
  { intros l messages remaining. exists [], []. split; [done|]. split; [apply sublist_nil_l|]. split; [done|]. cbn. lia. }
  induction newest as [|m older IH]; intros messages remaining; [apply (Hnil [])|]. cbn [recent_messages].
  assert (Hskip : exists ms kept, recent_messages id older messages remaining = kept ++ messages /\
    ms `sublist_of` rev (m :: older) /\ Forall2 (shown id) ms kept /\
    (length (kept ++ messages) <= Nat.max (length messages) maxPlannerContextMessages)%nat /\
    total_bytes (map sm_Content kept) <= Z.max 0 remaining).
  { destruct (IH messages remaining) as (ms&kept&?&?&?). exists ms, kept. split; [done|]. split; [|done].
    cbn [rev]. by apply sublist_inserts_r. }
  destruct (_ || _) eqn:Efull; [apply Hnil|]. apply orb_false_iff in Efull as [El%Nat.leb_gt Er%Z.leb_gt].
  destruct (planner_message id m) eqn:Ep; cbn [negb]; [|done]. apply planner_message_spec in Ep as [Ht Hr].
  cbv zeta. set (content := truncateUTF8 _ _). destruct (String.eqb_spec content "") as [Ec|Ec]; [done|].
  destruct (truncate_spec (redactPlannerSecrets (TrimSpace (ms_Content m))) (Z.min maxPlannerMessageBytes remaining)) as (Hs&Hl&_).
  fold content in Hs, Hl. change maxPlannerMessageBytes with 2048 in *.
  destruct (IH (MkSessionMessage (ms_Role m) content :: messages) (remaining - len content)) as (ms&kept&E&Hsub&Hsh&Hlen&Hb).
  exists (ms ++ [m]), (kept ++ [MkSessionMessage (ms_Role m) content]). rewrite E, <- !app_assoc. split; [done|].
  split; [cbn [rev]; by apply sublist_app|]. split; [|split].
  - apply Forall2_app; [done|]. constructor; [|done]. split; [done|done|done|]. cbn [sm_Content]. change maxPlannerMessageBytes with 2048. lia.
  - rewrite !length_app in *. cbn [length] in *. unfold maxPlannerContextMessages in *. lia.
  - rewrite map_app. assert (Happ : forall a b, total_bytes (a ++ b) = total_bytes a + total_bytes b).
    { intros a b. induction a as [|x a IHa]; cbn [app total_bytes foldr]; [done|]. unfold total_bytes in *. rewrite IHa. lia. }
    rewrite Happ. cbn. lia.
Qed.

(** What the planner is shown of the resources the user selected. *)
Record chosen_from (raws chosen : list string) (bytes : Z) : Prop := {
  ch_source : Forall (fun r => r <> "" /\ len r <= maxPlannerSelectedResourceBytes /\
                exists raw, raw ∈ raws /\ starts r (redactPlannerSecrets (TrimSpace raw))) chosen;
  ch_distinct : NoDup chosen;
  ch_number : (length chosen <= maxPlannerSelectedResources)%nat;
  ch_bytes : total_bytes chosen <= bytes
}.

Lemma total_bytes_app a b : total_bytes (a ++ b) = total_bytes a + total_bytes b.
Proof. unfold total_bytes. induction a as [|x a IH]; cbn [app foldr]; [done|]. rewrite IH. lia. Qed.

Lemma selected_resources_spec all raws : forall chosen remaining, (forall r, r ∈ raws -> r ∈ all) -> 0 <= remaining ->
  chosen_from all chosen (maxPlannerSelectedResourcesBytes - remaining) ->
  chosen_from all (selected_resources raws chosen remaining) maxPlannerSelectedResourcesBytes.
Proof.
  induction raws as [|raw raws IH]; intros chosen remaining Hin Hr C; cbn [selected_resources].
  { destruct C. split; [done..|lia]. }
  destruct (_ || _) eqn:Efull; [destruct C; split; [done..|lia]|].
  apply orb_false_iff in Efull as [El%Nat.eqb_neq Er%Z.eqb_neq].
  assert (Hin' : forall r, r ∈ raws -> r ∈ all) by (intros r Hr'; apply Hin; by right).
  cbv zeta. set (resource := truncateUTF8 _ _). destruct (_ || _) eqn:Es; [by apply IH|].
  apply orb_false_iff in Es as [En%String.eqb_neq Ed].
  destruct (truncate_spec (redactPlannerSecrets (TrimSpace raw)) (Z.min maxPlannerSelectedResourceBytes remaining)) as (Hs&Hl&_).
  fold resource in Hs, Hl. change maxPlannerSelectedResourceBytes with 2048 in *.
  apply IH; [done|lia|]. destruct C as [C1 C2 C3 C4]. split.
  - apply Forall_app. split; [done|]. constructor; [|done]. split; [done|]. split; [change maxPlannerSelectedResourceBytes with 2048; lia|].
    exists raw. split; [apply Hin; by left|done].
  - apply NoDup_app. split; [done|]. split; [|apply NoDup_singleton].
    intros x Hx ->%list_elem_of_singleton. apply string_in_spec in Hx. congruence.
  - rewrite length_app. cbn. unfold maxPlannerSelectedResources in *. lia.
  - rewrite total_bytes_app. cbn. lia.
Qed.

(** Whatever a session holds, the planner is shown at most six of its
    messages, in their order, none of the current task and none of a system
    role, each the beginning of the redacted text and at most 2 KiB, 8 KiB in
    all; at most fifty different resources of at most 2 KiB, 16 KiB in all; and
    a summary of at most 2 KiB. *)
Theorem planner_context_bounded (value : Session) (currentTaskID : string) (c : SessionContext) :
  buildPlannerSessionContext value currentTaskID = Some c ->
  (exists ms, ms `sublist_of` sn_Messages value /\ Forall2 (shown currentTaskID) ms (sc_RecentMessages c)) /\
  (length (sc_RecentMessages c) <= 6)%nat /\ total_bytes (map sm_Content (sc_RecentMessages c)) <= 8192 /\
  chosen_from (sn_SelectedResources value) (sc_SelectedResources c) 16384 /\
  len (sc_Summary c) <= 2048 /\ starts (sc_Summary c) (redactPlannerSecrets (TrimSpace (sn_Summary value))).
Proof.
  unfold buildPlannerSessionContext. destruct (_ && _); [done|]. intros [= <-]. cbn [sc_RecentMessages sc_SelectedResources sc_Summary].
  destruct (recent_messages_spec currentTaskID (rev (sn_Messages value)) [] maxPlannerMessagesBytes) as (ms&kept&E&Hsub&Hsh&Hlen&Hb).
  rewrite E, app_nil_r in *. rewrite rev_involutive in Hsub.
  destruct (truncate_spec (redactPlannerSecrets (TrimSpace (sn_Summary value))) maxPlannerSummaryBytes) as (Hs&Hl&_).
  split; [by exists ms|]. split; [exact Hlen|]. split; [exact Hb|]. split; [|by split].
  apply selected_resources_spec; [done|done|]. split; [done|apply NoDup_nil_2|cbn; lia|done].
Qed.
End Context_.

Definition mask_patterns : PlannerPatterns := [fun s => if Contains s "password=" then "[REDACTED]" else s].

Definition lab_chat : Session :=
  MkSession "session_1" "" false
    [MkMessage "m1" "user" "password=x" "task_1" 0; MkMessage "m2" "system" "hidden" "task_1" 0;
     MkMessage "m3" "assistant" " done " "task_1" 0; MkMessage "m4" "user" "again" "task_2" 0] "" ∅ ["/srv/a"; "/srv/a"] 0 0.

Example lab_chat_shown :
  buildPlannerSessionContext (H := mask_patterns) lab_chat "task_2" =
    Some (MkSessionContext "" [MkSessionMessage "user" "[REDACTED]"; MkSessionMessage "assistant" "done"] ["/srv/a"]).
Proof. vm_compute. reflexivity. Qed.

Lemma planner_context_bounded_witness :
  exists c, buildPlannerSessionContext (H := mask_patterns) lab_chat "task_2" = Some c /\
    (length (sc_RecentMessages c) <= 6)%nat /\ total_bytes (map sm_Content (sc_RecentMessages c)) <= 8192.
Proof.
  eexists. split; [vm_compute; reflexivity|].
  destruct (planner_context_bounded (H := mask_patterns) lab_chat "task_2" _ eq_refl) as (_&?&?&_). by split.
Defined.

(** ** Schemas *)
Example numbers_are_rounded :
  ParseFloat "0.1" = Some (MkFloat 7205759403792794 (-56)) /\ ParseFloat "9007199254740993" = ParseFloat "9007199254740992" /\
  ParseFloat "1e309" = None /\ is_integer (MkFloat 5 (-1)) = false.
Proof. vm_compute. repeat split; reflexivity. Qed.
