(* ===== verification/Scope.v ===== *)
(** * [internal/agent/general_scope.go]: the read scope of a request

    Which paths the operator's words allow and exclude, and the check of a
    tool decision of the planner against them.  Chinese literals are their
    UTF-8 bytes. *)

From S2P Require Import Prelude GoStrings GoText GoPath Json Store Planner.
Open Scope nat_scope.

Definition safeOpsLabReadRoot : string := "/var/lib/safeops/lab".
Definition maxRuntimeGuardFeedback : nat := 4.

Record generalReadScope := MkGeneralReadScope {
  gs_ResourceType : string;
  gs_AuthorizedPaths : list string;
  gs_ExcludedPaths : list string;
  gs_Source : string
}.

Record readScopeViolation := MkReadScopeViolation {
  vi_Code : string;
  vi_Summary : string;
  vi_Tool : string;
  vi_AttemptedPath : string
}.

(** ** The words of the request *)

(** The first element for which [f] has an answer. *)
Fixpoint first_some {A B} (f : A -> option B) (l : list A) : option B :=
  match l with [] => None | x :: l => match f x with Some y => Some y | None => first_some f l end end.

Definition contains_one (s : string) (markers : list string) : bool := existsb (Contains s) markers.

(** Every word of one list before every word of another. *)
Definition phrases (firsts seconds : list string) (between : string) : list string :=
  concat (map (fun f => map (fun s => f +:+ between +:+ s) seconds) firsts).

Definition read_verbs : list string := ["看"; "查"; "检查"; "读取"; "访问"].

Definition positiveMarkers : list string :=
  [" and read "; " and inspect "; " and check "; " and access "; " and do read "; " and do inspect "; " and do check ";
   " and do access "; " but read "; " but inspect "; " but check "; " but access "; " but instead read ";
   " but instead inspect "; " but instead check "; " but instead access "; ": read "; ": inspect "; ": check "; ": access "]
  ++ phrases ["并"; "再"; "然后"; "但"; "但是"; "只"; "改为"; "而是"; "："; "： "] read_verbs "".

Definition negativeMarkers : list string :=
  ["不包括"; "排除"; "忽略"; "exclude"; "except"; "skip"; "ignore"]
  ++ phrases ["不要"; "禁止"; "别"; "不"] read_verbs ""
  ++ phrases ["do not"; "don't"; "must not"; "never"] ["read"; "inspect"; "check"; "access"] " ".

(** The end of the last positive phrase. *)
Definition positiveClauseEnd (prefix : string) : option nat :=
  foldl (fun best marker =>
    match LastIndex prefix marker, best with
    | Some index, Some b => if b <? index + String.length marker then Some (index + String.length marker) else best
    | Some index, None => Some (index + String.length marker)
    | None, _ => best
    end) None positiveMarkers.

Section Scope.
Context `{UnicodeCase}.

Definition readScopeMentionNegated (request : string) (mentionStart : nat) : bool :=
  let prefix := ToLower (take_bytes mentionStart request) in
  let prefix := match LastIndexAny prefix (",.!?，。；;！？" +:+ String newline "") with
                | Some separator => drop_bytes (separator + 1) prefix
                | None => prefix
                end in
  let prefix := match positiveClauseEnd prefix with Some e => drop_bytes e prefix | None => prefix end in
  contains_one prefix negativeMarkers.

(** The pattern [requestAbsolutePath], leftmost and longest: a slash and then
    at least one rune that is not white space, a quote or one of a few marks.
    Each match is where it starts and its text. *)
Definition path_stop : list string :=
  map (fun n => String (chr n) "") [9; 10; 12; 13; 32; 34; 39; 96; 59; 33; 63]%N ++ ["，"; "。"; "；"; "！"; "？"].

Definition finished (cur : option (nat * string)) : list (nat * string) :=
  match cur with Some (start, text) => if 1 <? String.length text then [(start, text)] else [] | None => [] end.

Fixpoint path_matches (chunks : list string) (offset : nat) (cur : option (nat * string)) : list (nat * string) :=
  match chunks with
  | [] => finished cur
  | c :: chunks =>
    match cur with
    | Some (start, text) =>
      if string_in c path_stop then finished cur ++ path_matches chunks (offset + String.length c) None
      else path_matches chunks (offset + String.length c) (Some (start, text +:+ c))
    | None => path_matches chunks (offset + String.length c) (if String.eqb c "/" then Some (offset, "/") else None)
    end
  end.

Definition requestAbsolutePath (request : string) : list (nat * string) := path_matches (rune_chunks request) 0 None.

(** Trailing punctuation is not part of a path. *)
Definition clean_mention (value : string) : string := TrimRight (TrimSpace value) ".,!?，。；;！？：:)]}）】》>`".

Definition normalizedUniquePaths (values : list string) : list string :=
  merge_sort String.le
    (foldl (fun paths value =>
       let value := clean_mention value in
       if negb (IsAbs value) || string_in (Clean value) paths then paths else paths ++ [Clean value]) [] values).

Definition lab_aliases : list string := ["safeops lab"; "safeops 实验区"; "safeops实验区"].

(** The mentions of the request: what is named, and whether it is excluded. *)
Definition mentions (request : string) : list (string * bool) :=
  let lower := ToLower request in
  match first_some (Index lower) lab_aliases with
  | Some index => [(safeOpsLabReadRoot, readScopeMentionNegated lower index)]
  | None => []
  end ++ map (fun m => (m.2, readScopeMentionNegated request m.1)) (requestAbsolutePath request).

Definition requestPathScopes (request : string) : list string * list string :=
  let named (excluded : bool) := map fst (List.filter (fun m => Bool.eqb m.2 excluded) (mentions request)) in
  (normalizedUniquePaths (named false), normalizedUniquePaths (named true)).

Definition requestScopePaths (request : string) : list string := (requestPathScopes request).1.

Definition isASCIIWordByte (c : ascii) : bool :=
  in_range 97 122 (code c) || in_range 48 57 (code c) || Ascii.eqb c "_".

(** The phrase between bytes that are not of a word; [before] says whether
    the byte before [value] is not. *)
Fixpoint phrase_at (value phrase : string) (before : bool) : bool :=
  (before && HasPrefix value phrase &&
   match drop_bytes (String.length phrase) value with "" => true | String c _ => negb (isASCIIWordByte c) end)
  || match value with "" => false | String c value' => phrase_at value' phrase (negb (isASCIIWordByte c)) end.

Definition containsASCIIPhrase (value phrase : string) : bool :=
  if (String.length value <? String.length phrase) then false else phrase_at value phrase true.

Definition isAmbiguousResourceFollowup (request : string) : bool :=
  let lower := ToLower (TrimSpace request) in
  contains_one lower ["这些"; "上述"; "前面"; "刚才"; "其中"; "第一个"; "第二个"; "第三个"; "第四个"; "第五个"; "最后一个"; "哪个";
    "哪些"; "该文件"; "这个文件"; "该资源"; "处理它"; "检查它"; "查看它"; "它呢"; "它的"]
  || existsb (containsASCIIPhrase lower) ["these files"; "those files"; "selected file"; "selected resource"; "previous file";
    "this file"; "that file"; "this one"; "that one"; "which file"; "which one"; "which should"; "them"; "it"].

Definition mentionsExplicitNonFileTopic (request : string) : bool :=
  let lower := ToLower request in
  contains_one lower ["内存"; "负载"; "服务"; "端口"; "进程"; "网络"]
  || existsb (containsASCIIPhrase lower) ["cpu"; "journal"; "systemd"; "service"; "port"; "process"; "network"; "memory";
    "load average"].

Definition empty_ {A} (l : list A) : bool := match l with [] => true | _ => false end.

Definition deriveGeneralReadScope (request : string) (selectedResources : list string) : option generalReadScope :=
  let '(paths, excluded) := requestPathScopes request in
  let '(paths, source) :=
    if empty_ paths && isAmbiguousResourceFollowup request && negb (mentionsExplicitNonFileTopic request)
    then (normalizedUniquePaths selectedResources, "session.selected_resources")
    else (paths, "request") in
  if empty_ paths && empty_ excluded then None
  else Some (MkGeneralReadScope "file" paths excluded source).
End Scope.

(** ** The check of a decision *)
Definition scopedPathReadToolTraverses (tool : string) : bool :=
  string_in tool ["file/file.list_directory"; "file/file.find_large"; "config/config.snapshot"; "config/config.diff_snapshot"].

Definition scopedPathReadTool (tool : string) : bool :=
  string_in tool ["file/file.stat"; "file/file.list_directory"; "file/file.sha256"; "file/file.find_large";
    "config/config.get_metadata"; "config/config.snapshot"; "config/config.diff_snapshot";
    "system/system.get_disk_usage"; "diagnostic/diagnostic.disk_pressure"].

Definition pathWithinScope (authorized candidate : string) : bool :=
  let authorized := Clean authorized in
  let candidate := Clean candidate in
  String.eqb authorized candidate || rel_stays_inside (Rel authorized candidate).

Definition validateGeneralReadScope (scope : option generalReadScope) (decision : Decision_) : option readScopeViolation :=
  match scope with
  | None => None
  | Some scope =>
    if negb (String.eqb (de_Kind decision) DecisionTool) then None
    else
      let tool := de_ServerID decision +:+ "/" +:+ de_Tool decision in
      let exclusionOnly := empty_ (gs_AuthorizedPaths scope) && negb (empty_ (gs_ExcludedPaths scope)) in
      if exclusionOnly && negb (scopedPathReadTool tool) then None
      else if negb (scopedPathReadTool tool) then
        Some (MkReadScopeViolation "REQUEST_READ_SCOPE_TOOL_MISMATCH"
                "文件范围任务只能选择文件元数据、文件系统容量或磁盘压力的路径受限工具" tool "")
      else
        match de_Arguments decision !! "path" with
        | None => Some (MkReadScopeViolation "REQUEST_READ_SCOPE_PATH_REQUIRED" "文件范围任务只能选择携带受权 path 的只读工具" tool "")
        | Some pathValue =>
          let path := match pathValue with JStr p => p | _ => "" end in
          if negb (match pathValue with JStr p => IsAbs p | _ => false end) then
            Some (MkReadScopeViolation "REQUEST_READ_SCOPE_PATH_INVALID"
                    "文件范围任务要求绝对 path，且该 path 必须位于本次请求的受权范围内" tool (TrimSpace path))
          else
            let path := Clean path in
            if existsb (fun excluded => pathWithinScope excluded path || (scopedPathReadToolTraverses tool && pathWithinScope path excluded))
                 (gs_ExcludedPaths scope) then
              Some (MkReadScopeViolation "REQUEST_READ_SCOPE_EXCLUDED"
                      "工具 path 位于操作员明确排除的路径内，或会遍历到该排除路径" tool path)
            else if exclusionOnly then None
            else if existsb (fun authorized => pathWithinScope authorized path) (gs_AuthorizedPaths scope) then None
            else Some (MkReadScopeViolation "REQUEST_READ_SCOPE_MISMATCH"
                         "工具 path 超出操作员本次请求或会话已选资源的受权范围" tool path)
        end
  end.

Definition plannerReadScope (scope : option generalReadScope) : option ReadScope :=
  match scope with
  | None => None
  | Some s => Some (MkReadScope (gs_ResourceType s) (gs_AuthorizedPaths s) (gs_ExcludedPaths s) (gs_Source s))
  end.

Definition plannerGuardFeedback (values : list RuntimeGuardFeedback) : list GuardFeedback :=
  map (fun v => MkGuardFeedback (rg_Code v) (rg_Summary v) (rg_Tool v) (rg_AttemptedPath v) (rg_AuthorizedPaths v)
                  (rg_ExcludedPaths v)) values.

(** The last [n] elements. *)
Definition keep_last {A} (n : nat) (l : list A) : list A := drop (length l - n) l.

Definition with_feedback (c : RuntimeCheckpoint) (feedback : list RuntimeGuardFeedback) : RuntimeCheckpoint :=
  MkRuntimeCheckpoint (rc_Iterations c) (rc_ToolCalls c) (rc_Replans c) (rc_NoProgressRepeats c) (rc_LastProgressDigest c)
    (rc_MaxIterations c) (rc_MaxToolCalls c) (rc_StartedAt c) (rc_DeadlineAt c) (rc_Observations c) feedback.

Definition appendRuntimeGuardFeedback (checkpoint : RuntimeCheckpoint) (scope : option generalReadScope)
    (violation : readScopeViolation) : RuntimeCheckpoint :=
  let feedback := MkRuntimeGuardFeedback (vi_Code violation) (vi_Summary violation) (vi_Tool violation)
    (vi_AttemptedPath violation)
    (match scope with Some s => gs_AuthorizedPaths s | None => [] end)
    (match scope with Some s => gs_ExcludedPaths s | None => [] end) in
  with_feedback checkpoint (keep_last maxRuntimeGuardFeedback (rc_GuardFeedback checkpoint ++ [feedback])).

(** ** Theorems *)
Lemma TrimRight_empty cut : TrimRight "" cut = "".
Proof. reflexivity. Qed.

Lemma normalized_loop values : forall paths,
  let out := foldl (fun paths value =>
       let value := clean_mention value in
       if negb (IsAbs value) || string_in (Clean value) paths then paths else paths ++ [Clean value]) paths values in
  NoDup paths ->
  NoDup out /\ forall p, p ∈ out <-> p ∈ paths \/ exists v, v ∈ values /\ IsAbs (clean_mention v) = true /\ p = Clean (clean_mention v).
Proof.
  cbv zeta. induction values as [|v values IH]; intros paths Hnd; cbn [foldl].
  - split; [done|]. intros p. split; [by left|]. intros [?|(v&Hv&_)]; [done|]. by apply not_elem_of_nil in Hv.
  - destruct (negb (IsAbs (clean_mention v)) || string_in (Clean (clean_mention v)) paths) eqn:Es.
    + destruct (IH paths Hnd) as [H1 H2]. split; [done|]. intros p. rewrite H2. split.
      * intros [?|(v'&?&?)]; [by left|]. right. exists v'. split; [by right|done].
      * intros [?|(v'&Hv&Ha&->)]; [by left|]. apply elem_of_cons in Hv as [->|Hv]; [|right; by exists v'].
        rewrite Ha in Es. cbn in Es. left. by apply string_in_spec.
    + apply orb_false_iff in Es as [Ea%negb_false_iff Ei].
      assert (Hni : Clean (clean_mention v) ∉ paths) by (intros ?%string_in_spec; congruence).
      destruct (IH (paths ++ [Clean (clean_mention v)])) as [H1 H2].
      { apply NoDup_app. split; [done|]. split; [|apply NoDup_singleton]. by intros x Hx ->%list_elem_of_singleton. }
      split; [done|]. intros p. rewrite H2, elem_of_app, list_elem_of_singleton. split.
      * intros [[?| ->]|(v'&?&?)]; [by left|right; exists v; split; [by left|done]|right; exists v'; split; [by right|done]].
      * intros [?|(v'&Hv&Ha&->)]; [left; by left|]. apply elem_of_cons in Hv as [->|Hv]; [left; by right|right; by exists v'].
Qed.

(** The paths of a scope are the clean forms of the absolute ones among the
    values, each once and in order. *)
Lemma normalized_spec values :
  NoDup (normalizedUniquePaths values) /\ StronglySorted String.le (normalizedUniquePaths values) /\
  forall p, p ∈ normalizedUniquePaths values <-> exists v, v ∈ values /\ IsAbs (clean_mention v) = true /\ p = Clean (clean_mention v).
Proof.
  destruct (normalized_loop values [] (NoDup_nil_2)) as [H1 H2]. unfold normalizedUniquePaths.
  split; [by rewrite merge_sort_Permutation|]. split.
  - apply StronglySorted_merge_sort; apply _.
  - intros p. rewrite merge_sort_Permutation, H2. split; [|by right]. intros [H|?]; [by apply not_elem_of_nil in H|done].
Qed.

Lemma normalized_abs values p : p ∈ normalizedUniquePaths values -> IsAbs p = true.
Proof. intros (v&_&Ha&->)%(proj2 (proj2 (normalized_spec values))). by rewrite IsAbs_Clean. Qed.

(** [p] lies at or below [root], component by component. *)
Definition under (root p : string) : Prop := path_comps root `prefix_of` path_comps p.

#[export] Instance under_dec root p : Decision (under root p).
Proof. unfold under. apply _. Defined.

Lemma pathWithinScope_under root p : IsAbs root = true -> IsAbs p = true -> pathWithinScope root p = true <-> under root p.
Proof.
  intros Hr Hp. unfold pathWithinScope, under.
  rewrite orb_true_iff, String.eqb_eq, rel_inside_iff, !path_comps_Clean by (by rewrite ?IsAbs_Clean).
  split; [|by right]. intros [E|?]; [|done]. apply Clean_eq_iff in E; [by rewrite E|done..].
Qed.

Record absolute (sc : generalReadScope) : Prop := {
  ab_authorized : forall p, p ∈ gs_AuthorizedPaths sc -> IsAbs p = true;
  ab_excluded : forall p, p ∈ gs_ExcludedPaths sc -> IsAbs p = true
}.

(** What a decision must look like to pass: a tool of the list with an
    absolute path outside what is excluded and inside what is authorized. *)
Record confined (sc : generalReadScope) (tool path : string) : Prop := {
  co_abs : IsAbs path = true;
  co_outside : forall e, e ∈ gs_ExcludedPaths sc -> ~ under e path /\ (scopedPathReadToolTraverses tool = true -> ~ under path e);
  co_inside : gs_AuthorizedPaths sc = [] \/ exists a, a ∈ gs_AuthorizedPaths sc /\ under a path
}.


Lemma excluded_check sc tool path : absolute sc -> IsAbs path = true ->
  existsb (fun excluded => pathWithinScope excluded (Clean path)
             || (scopedPathReadToolTraverses tool && pathWithinScope (Clean path) excluded)) (gs_ExcludedPaths sc) = false <->
  forall e, e ∈ gs_ExcludedPaths sc -> ~ under e path /\ (scopedPathReadToolTraverses tool = true -> ~ under path e).
Proof.
  intros [_ He] Hp. rewrite <- not_true_iff_false, existsb_elem.
  assert (Hc : IsAbs (Clean path) = true) by (by rewrite IsAbs_Clean).
  assert (Hu : forall e, e ∈ gs_ExcludedPaths sc ->
            pathWithinScope e (Clean path) || (scopedPathReadToolTraverses tool && pathWithinScope (Clean path) e) = true <->
            under e path \/ (scopedPathReadToolTraverses tool = true /\ under path e)).
  { intros e Hin. rewrite orb_true_iff, andb_true_iff, !pathWithinScope_under by auto.
    unfold under. by rewrite path_comps_Clean. }
  split.
  - intros H e Hin. split; [intros Hx|intros Ht Hx]; apply H; exists e; (split; [done|]); apply (Hu e Hin); [by left|by right].
  - intros H (e&Hin&Hx). apply (Hu e Hin) in Hx. destruct (H e Hin). naive_solver.
Qed.

Lemma empty_spec {A} (l : list A) : empty_ l = true <-> l = [].
Proof. by destruct l. Qed.

Lemma derived_absolute `{UnicodeCase} request selected sc : deriveGeneralReadScope request selected = Some sc ->
  absolute sc /\ (gs_AuthorizedPaths sc = [] -> gs_ExcludedPaths sc <> []).
Proof.
  unfold deriveGeneralReadScope.
  assert (Ha : forall p, p ∈ (requestPathScopes request).1 -> IsAbs p = true) by (intros p; apply normalized_abs).
  assert (He : forall p, p ∈ (requestPathScopes request).2 -> IsAbs p = true) by (intros p; apply normalized_abs).
  assert (Hsel : forall p, p ∈ normalizedUniquePaths selected -> IsAbs p = true) by (intros p; apply normalized_abs).
  destruct (requestPathScopes request) as [a e]. cbn in Ha, He.
  assert (Hgo : forall l src, (forall p, p ∈ l -> IsAbs p = true) ->
    (if empty_ l && empty_ e then None else Some (MkGeneralReadScope "file" l e src)) = Some sc ->
    absolute sc /\ (gs_AuthorizedPaths sc = [] -> gs_ExcludedPaths sc <> [])).
  { intros l src Hl. destruct (empty_ l && empty_ e) eqn:Ee; [done|]. intros [= <-]. split; [by split|].
    cbn. intros -> ->. done. }
  destruct (_ && negb _); by apply Hgo.
Qed.

(** C15: a tool decision of the planner passes the scope of a request exactly
    when it stays in it: its tool is one of the path-bound readers, its path is
    absolute, not inside an excluded path (nor above one when the tool
    traverses) and inside an authorized path if any was named; or the request
    only excludes paths and the tool takes none. *)
Theorem read_scope_exact `{UnicodeCase} (request : string) (selected : list string) (sc : generalReadScope) (d : Decision_) :
  deriveGeneralReadScope request selected = Some sc -> de_Kind d = DecisionTool ->
  validateGeneralReadScope (Some sc) d = None <->
    (gs_AuthorizedPaths sc = [] /\ scopedPathReadTool (de_ServerID d +:+ "/" +:+ de_Tool d) = false) \/
    (scopedPathReadTool (de_ServerID d +:+ "/" +:+ de_Tool d) = true /\
     exists path, de_Arguments d !! "path" = Some (JStr path) /\ confined sc (de_ServerID d +:+ "/" +:+ de_Tool d) path).
Proof.
  intros [Habs Hne]%derived_absolute Hk. unfold validateGeneralReadScope. rewrite Hk. cbn [negb String.eqb Ascii.eqb DecisionTool].
  change (negb (String.eqb DecisionTool DecisionTool)) with false. cbv iota zeta. set (tool := de_ServerID d +:+ _).
  assert (Hex : empty_ (gs_AuthorizedPaths sc) && negb (empty_ (gs_ExcludedPaths sc)) = empty_ (gs_AuthorizedPaths sc)).
  { destruct (gs_AuthorizedPaths sc); [|done]. cbn. specialize (Hne eq_refl). by destruct (gs_ExcludedPaths sc). }
  rewrite Hex. clear Hex. destruct (scopedPathReadTool tool) eqn:Et; cbn [negb andb].
  - rewrite andb_false_r.
    transitivity (exists path, de_Arguments d !! "path" = Some (JStr path) /\ confined sc tool path); [|naive_solver].
    destruct (de_Arguments d !! "path") as [pv|] eqn:Ep; [|split; [done|intros (?&?&_); done]].
    destruct pv as [|b|lit|path|l|o]; try (split; [done|intros (?&?&_); done]).
    destruct (IsAbs path) eqn:Ea; cbn [negb]; [|split; [done|intros (?&[= <-]&[]); congruence]].
    transitivity (confined sc tool path); [|split; [by exists path|intros (?&[= <-]&?); done]].
    destruct (existsb _ (gs_ExcludedPaths sc)) eqn:Ee.
    + split; [done|]. intros [_ Ho _]. pose proof (proj2 (excluded_check sc tool path Habs Ea) Ho). congruence.
    + pose proof (proj1 (excluded_check sc tool path Habs Ea) Ee) as Ho. clear Ee.
      destruct (empty_ (gs_AuthorizedPaths sc)) eqn:Em; [apply empty_spec in Em; split; [by split; auto|done]|].
      assert (Hin : existsb (fun authorized => pathWithinScope authorized (Clean path)) (gs_AuthorizedPaths sc) = true <->
                    exists a, a ∈ gs_AuthorizedPaths sc /\ under a path).
      { rewrite existsb_elem. split; intros (a&Ha&Hu); exists a; (split; [done|]); revert Hu;
          rewrite pathWithinScope_under by (rewrite ?IsAbs_Clean; first [done|by apply (ab_authorized sc Habs)]);
          unfold under; by rewrite path_comps_Clean. }
      destruct (existsb (fun _ => pathWithinScope _ _) _) eqn:Ei.
      * split; [|done]. intros _. split; [done|done|]. right. by apply Hin.
      * split; [done|]. intros [_ _ [E|E]]; [by rewrite E in Em|]. apply Hin in E. congruence.
  - rewrite andb_true_r. destruct (empty_ (gs_AuthorizedPaths sc)) eqn:Em.
    + apply empty_spec in Em. split; [by left|done].
    + split; [done|]. intros [[E _]|[? _]]; [by rewrite E in Em|done].
Qed.

(** ** Requests, evaluated *)
Definition scope_case : UnicodeCase := fun r => r.

Definition scope_of (request : string) (selected : list string) : option (list string * list string) :=
  match deriveGeneralReadScope (H := scope_case) request selected with
  | Some sc => Some (gs_AuthorizedPaths sc, gs_ExcludedPaths sc)
  | None => None
  end.

Example scopes_read_from_words :
  scope_of "检查 /srv/app，不要读取 /srv/app/secret。" [] = Some (["/srv/app"], ["/srv/app/secret"]) /\
  scope_of "Do not read /etc but inspect /srv/b/../c" [] = Some (["/srv/c"], ["/etc"]) /\
  scope_of "look at the SafeOps Lab and /tmp//x." [] = Some (["/tmp/x"; "/var/lib/safeops/lab"], []) /\
  scope_of "Which one is it?" ["/srv/z"; "rel"; "/srv/a/"] = Some (["/srv/a"; "/srv/z"], []) /\
  scope_of "Is the service on that port? which one" ["/srv/z"] = None /\
  scope_of "cpu load" ["/srv/z"] = None.
Proof. vm_compute. repeat split; reflexivity. Qed.

Definition lab_decision (tool path : string) : Decision_ :=
  MkDecision DecisionTool "" "file" tool {[ "path" := JStr path ]} (Contracts.MkTargetRef "" "" "") "" "".

Definition lab_scope : generalReadScope := MkGeneralReadScope "file" ["/srv/app"] ["/srv/app/secret"] "request".

Lemma read_scope_exact_witness :
  (validateGeneralReadScope (Some lab_scope) (lab_decision "file.stat" "/srv/app/x") = None <->
    (gs_AuthorizedPaths lab_scope = [] /\ scopedPathReadTool "file/file.stat" = false) \/
    (scopedPathReadTool "file/file.stat" = true /\
     exists path, de_Arguments (lab_decision "file.stat" "/srv/app/x") !! "path" = Some (JStr path) /\
       confined lab_scope "file/file.stat" path)) /\
  validateGeneralReadScope (Some lab_scope) (lab_decision "file.stat" "/srv/app/x") = None /\
  validateGeneralReadScope (Some lab_scope) (lab_decision "file.find_large" "/srv/app") <> None.
Proof.
  split; [|split; [vm_compute; reflexivity|vm_compute; discriminate]].
  apply (read_scope_exact (H := scope_case) "检查 /srv/app，不要读取 /srv/app/secret。" [] lab_scope (lab_decision "file.stat" "/srv/app/x")).
  - vm_compute. reflexivity.
  - reflexivity.
Defined.
