(* ===== verification/Agent.v ===== *)
(** * The agent's state, its budget and what its parts share

    [internal/agent/reducer.go] and the helpers of [orchestrator.go] and
    [general.go] that every workflow uses.  The agent works on the task store,
    the audit log, the approval records and the machine, and calls out to the
    planner and the tool servers.  The audit log is used through the interface
    [TraceSink]; the planner and the servers are outside the program.  The
    model also keeps the list of the tool calls that went out. *)

From S2P Require Import Prelude GoStrings GoText GoPath Json Hash Contracts Guard Approval Store Planner Scope.
Open Scope Z_scope.

(** ** State *)

(** [mcp.CallToolResult]: the texts of its content and its structured part. *)
Record CallToolResult := MkCallToolResult {
  ct_IsError : bool;
  ct_Texts : list string;
  ct_StructuredContent : option json
}.

Record ToolCall_ := MkToolCall {
  tl_Server : string;
  tl_Tool : string;
  tl_Arguments : gmap string json
}.

Record AgentState (T H X : Type) := MkAgentState {
  as_store : Store;
  as_trace : T;
  as_approvals : ApprovalDir;
  as_host : H;
  as_outside : X;
  as_calls : list ToolCall_
}.
Arguments MkAgentState {T H X}.
Arguments as_store {T H X}.
Arguments as_trace {T H X}.
Arguments as_approvals {T H X}.
Arguments as_host {T H X}.
Arguments as_outside {T H X}.
Arguments as_calls {T H X}.

(** [trace.Writer.Append]: the sequence number of the new event. *)
Class TraceSink (T : Type) := trace_append : string -> string -> string -> result json -> M T Z.

(** [llm.Provider] (with the deadline of its context), [CapabilitySource]
    and [ToolCaller]. *)
Class Outside (X : Type) := {
  out_Decide : DecisionRequest -> Z -> M X Decision_;
  out_AvailableTools : X -> list ToolCapability;
  out_CallTool : string -> string -> gmap string json -> M X CallToolResult
}.

Section Parts.
Context {T H X A : Type}.

Definition on_store : M Store A -> M (AgentState T H X) A :=
  zoom as_store (fun v s => MkAgentState v (as_trace s) (as_approvals s) (as_host s) (as_outside s) (as_calls s)).
Definition on_trace : M T A -> M (AgentState T H X) A :=
  zoom as_trace (fun v s => MkAgentState (as_store s) v (as_approvals s) (as_host s) (as_outside s) (as_calls s)).
Definition on_approvals : M ApprovalDir A -> M (AgentState T H X) A :=
  zoom as_approvals (fun v s => MkAgentState (as_store s) (as_trace s) v (as_host s) (as_outside s) (as_calls s)).
Definition on_machine : M H A -> M (AgentState T H X) A :=
  zoom as_host (fun v s => MkAgentState (as_store s) (as_trace s) (as_approvals s) v (as_outside s) (as_calls s)).
Definition on_outside : M X A -> M (AgentState T H X) A :=
  zoom as_outside (fun v s => MkAgentState (as_store s) (as_trace s) (as_approvals s) (as_host s) v (as_calls s)).
End Parts.

(** A tool call goes out. *)
Definition note_call {T H X} (c : ToolCall_) (s : AgentState T H X) : AgentState T H X :=
  MkAgentState (as_store s) (as_trace s) (as_approvals s) (as_host s) (as_outside s) (as_calls s ++ [c]).

(** *** Functions that return a value beside an error

    [return value, err]: the value as it is when the error occurs goes back to
    the caller, which may save it. *)
Abbreviation Returned := (Task * option error)%type.

Definition attempt {S A B} (value : B) (m : M S A) (k : A -> M S (B * option error)) : M S (B * option error) :=
  r <- try_ m ;;
  match r with Ok a => k a | Err e => ret (value, Some e) end.

Notation "'let*' x := m 'or' value 'in' k" := (attempt value m (fun x => k))
  (at level 10, x binder, m at level 100, value at level 9, k at level 200,
   format "'[v' 'let*'  x  :=  m  'or'  value  'in' '/' k ']'") : go_scope.

Definition fail {S B} (value : B) (msg : string) : M S (B * option error) := ret (value, Some (EMsg msg)).

(** ** Encodings of the payloads of the audit log *)
Definition payload (l : list (string * json)) : result json := Ok (JMap (list_to_map l)).

(** [map[string]any] values, decoded and encoded again: sorted keys. *)
Fixpoint as_any (j : json) : json :=
  match j with
  | JObj fields => JMap (list_to_map (rev (map (fun kv => (kv.1, as_any kv.2)) fields)))
  | JArr l => JArr (map as_any l)
  | _ => j
  end.

Definition strings (l : list string) : json := slice JStr l.

Definition guard_json (d : GuardDecision) : json :=
  JObj [("decision_id", JStr (gd_DecisionID d)); ("outcome", JStr (gd_Outcome d)); ("reason_codes", strings (gd_ReasonCodes d));
        ("reason", JStr (gd_Reason d)); ("matched_rule_ids", strings (gd_MatchedRuleIDs d));
        ("policy_version", JStr (gd_PolicyVersion d)); ("risk", risk_json (gd_Risk d))].

Definition intent_decision_json (d : IntentDecision) : json :=
  JObj ([("decision_id", JStr (id_DecisionID d)); ("outcome", JStr (id_Outcome d)); ("reason_code", JStr (id_ReasonCode d));
         ("reason", JStr (id_Reason d)); ("intent_digest", JStr (id_IntentDigest d))]
        ++ omit (nil_slice (id_EvidenceRefs d)) "evidence_refs" (strings (id_EvidenceRefs d))
        ++ [("policy_version", JStr (id_PolicyVersion d))]).

Definition binding_json (b : Binding) : json :=
  JObj [("task_id", JStr (bd_TaskID b)); ("proposal_digest", JStr (bd_ProposalDigest b));
        ("target_snapshot_digest", JStr (bd_TargetSnapshotDigest b)); ("intent_digest", JStr (bd_IntentDigest b));
        ("policy_version", JStr (bd_PolicyVersion b)); ("risk_level", JStr (bd_RiskLevel b)); ("tool", JStr (bd_Tool b));
        ("nonce", JStr (bd_Nonce b))].

(** The event types of [internal/trace/trace.go] the agent writes. *)
Definition TaskResumed : string := "TASK_RESUMED".
Definition IntentParsed : string := "INTENT_PARSED".
Definition PlanCreated : string := "PLAN_CREATED".
Definition DecisionRecorded : string := "DECISION_RECORDED".
Definition ActionProposed : string := "ACTION_PROPOSED".
Definition StaticGuardResult : string := "STATIC_GUARD_RESULT".
Definition IntentGuardResult : string := "INTENT_GUARD_RESULT".
Definition RiskEvaluated : string := "RISK_EVALUATED".
Definition ApprovalRequested : string := "APPROVAL_REQUESTED".
Definition ApprovalResolved : string := "APPROVAL_RESULT".
Definition ToolCall : string := "TOOL_CALL".
Definition ToolResult : string := "TOOL_RESULT".
Definition Execution : string := "EXECUTION".
Definition VerificationResult : string := "VERIFICATION".
Definition Rollback : string := "ROLLBACK".
Definition FindingsUpdated : string := "FINDINGS_UPDATED".
Definition TaskCompleted : string := "TASK_COMPLETED".
Definition TaskFailed : string := "TASK_FAILED".
Definition TaskCancelled : string := "TASK_CANCELLED".
Definition Final : string := "FINAL".

(** [internal/task/task.go] *)
Definition Investigating : string := "INVESTIGATING".
Definition Planning : string := "PLANNING".
Definition Executing : string := "EXECUTING".
Definition WaitingApproval : string := "WAITING_APPROVAL".
Definition Verifying : string := "VERIFYING".
Definition Replanning : string := "REPLANNING".
Definition Completed : string := "COMPLETED".
Definition Failed : string := "FAILED".
Definition Cancelled : string := "CANCELLED".

Definition zero_task : Task :=
  MkTask "" "" "" "" "" "" [] 0 [] [] [] [] None "" "" ∅
    (MkRuntimeCheckpoint 0 0 0 0 "" 0 0 zero_time zero_time [] []) (MkWorkerLease "" "" 0 zero_time) 0 "" zero_time zero_time.

(** ** Updates of a task *)
Definition with_runtime (t : Task) (runtime : RuntimeCheckpoint) : Task :=
  MkTask (tk_ID t) (tk_SessionID t) (tk_Objective t) (tk_OriginalRequest t) (tk_State t) (tk_IntentType t) (tk_Plan t)
    (tk_CurrentStep t) (tk_CompletedSteps t) (tk_Findings t) (tk_SelectedResources t) (tk_EvidenceRefs t)
    (tk_PendingAction t) (tk_PendingApprovalID t) (tk_VerificationGoal t) (tk_WorkflowData t) runtime
    (tk_WorkerLease t) (tk_Checkpoint t) (tk_FailureReason t) (tk_CreatedAt t) (tk_UpdatedAt t).

Definition with_intent (t : Task) (intent : string) : Task :=
  MkTask (tk_ID t) (tk_SessionID t) (tk_Objective t) (tk_OriginalRequest t) (tk_State t) intent (tk_Plan t)
    (tk_CurrentStep t) (tk_CompletedSteps t) (tk_Findings t) (tk_SelectedResources t) (tk_EvidenceRefs t)
    (tk_PendingAction t) (tk_PendingApprovalID t) (tk_VerificationGoal t) (tk_WorkflowData t) (tk_Runtime t)
    (tk_WorkerLease t) (tk_Checkpoint t) (tk_FailureReason t) (tk_CreatedAt t) (tk_UpdatedAt t).

(** The plan with the step the task is at, and the steps done. *)
Definition with_plan (t : Task) (plan : list Step) (current : Z) (completed : list string) : Task :=
  MkTask (tk_ID t) (tk_SessionID t) (tk_Objective t) (tk_OriginalRequest t) (tk_State t) (tk_IntentType t) plan
    current completed (tk_Findings t) (tk_SelectedResources t) (tk_EvidenceRefs t)
    (tk_PendingAction t) (tk_PendingApprovalID t) (tk_VerificationGoal t) (tk_WorkflowData t) (tk_Runtime t)
    (tk_WorkerLease t) (tk_Checkpoint t) (tk_FailureReason t) (tk_CreatedAt t) (tk_UpdatedAt t).

Definition with_evidence (t : Task) (findings selected refs : list string) : Task :=
  MkTask (tk_ID t) (tk_SessionID t) (tk_Objective t) (tk_OriginalRequest t) (tk_State t) (tk_IntentType t) (tk_Plan t)
    (tk_CurrentStep t) (tk_CompletedSteps t) findings selected refs
    (tk_PendingAction t) (tk_PendingApprovalID t) (tk_VerificationGoal t) (tk_WorkflowData t) (tk_Runtime t)
    (tk_WorkerLease t) (tk_Checkpoint t) (tk_FailureReason t) (tk_CreatedAt t) (tk_UpdatedAt t).

Definition with_pending (t : Task) (pending : option json) (approvalID : string) : Task :=
  MkTask (tk_ID t) (tk_SessionID t) (tk_Objective t) (tk_OriginalRequest t) (tk_State t) (tk_IntentType t) (tk_Plan t)
    (tk_CurrentStep t) (tk_CompletedSteps t) (tk_Findings t) (tk_SelectedResources t) (tk_EvidenceRefs t)
    pending approvalID (tk_VerificationGoal t) (tk_WorkflowData t) (tk_Runtime t)
    (tk_WorkerLease t) (tk_Checkpoint t) (tk_FailureReason t) (tk_CreatedAt t) (tk_UpdatedAt t).

Definition with_failure (t : Task) (reason : string) : Task :=
  MkTask (tk_ID t) (tk_SessionID t) (tk_Objective t) (tk_OriginalRequest t) (tk_State t) (tk_IntentType t) (tk_Plan t)
    (tk_CurrentStep t) (tk_CompletedSteps t) (tk_Findings t) (tk_SelectedResources t) (tk_EvidenceRefs t)
    (tk_PendingAction t) (tk_PendingApprovalID t) (tk_VerificationGoal t) (tk_WorkflowData t) (tk_Runtime t)
    (tk_WorkerLease t) (tk_Checkpoint t) reason (tk_CreatedAt t) (tk_UpdatedAt t).

(** [err.Error()] *)
Fixpoint error_text (e : error) : string :=
  match e with
  | EMsg m => m
  | EWrap p e => p +:+ error_text e
  | EJoin a b => error_text a +:+ String newline "" +:+ error_text b
  | ESys no =>
    match no with
    | ECANCELED => "context canceled"
    | EDEADLINE => "context deadline exceeded"
    | _ => "system error"
    end
  | ESentinel n => n
  end.

(** ** [internal/agent/reducer.go] *)
Definition MaxIterations : Z := 12.
Definition MaxToolCalls : Z := 30.
Definition MaxReplans : Z := 3.
Definition MaxNoProgressRepeats : Z := 2.
Definition DefaultTaskTimeout : Z := 2 * Minute.

(** The checkpoint with other counters and limits. *)
Definition with_counters (c : RuntimeCheckpoint) (iterations toolCalls replans : Z) : RuntimeCheckpoint :=
  MkRuntimeCheckpoint iterations toolCalls replans (rc_NoProgressRepeats c) (rc_LastProgressDigest c)
    (rc_MaxIterations c) (rc_MaxToolCalls c) (rc_StartedAt c) (rc_DeadlineAt c) (rc_Observations c) (rc_GuardFeedback c).

Definition initializeRuntime (c : RuntimeCheckpoint) (t : Z) : RuntimeCheckpoint :=
  let started := if rc_StartedAt c =? zero_time then t else rc_StartedAt c in
  MkRuntimeCheckpoint (rc_Iterations c) (rc_ToolCalls c) (rc_Replans c) (rc_NoProgressRepeats c) (rc_LastProgressDigest c)
    (if rc_MaxIterations c =? 0 then MaxIterations else rc_MaxIterations c)
    (if rc_MaxToolCalls c =? 0 then MaxToolCalls else rc_MaxToolCalls c)
    started
    (if rc_DeadlineAt c =? zero_time then started + DefaultTaskTimeout else rc_DeadlineAt c)
    (rc_Observations c) (rc_GuardFeedback c).

(** The functions that count change the checkpoint and return an error; the
    change counts either way. *)
Definition deadline_error : error := EWrap "agent task deadline reached: " (ESys EDEADLINE).
Definition limit_error (what : string) (n : Z) : error := EMsg ("agent " +:+ what +:+ " limit reached: " +:+ show_Z n).

Definition beginDecision (c : RuntimeCheckpoint) (t : Z) : RuntimeCheckpoint * result unit :=
  let c := initializeRuntime c t in
  if negb (t <? rc_DeadlineAt c) then (c, Err deadline_error)
  else if rc_MaxIterations c <=? rc_Iterations c then (c, Err (limit_error "iteration" (rc_MaxIterations c)))
  else (with_counters c (rc_Iterations c + 1) (rc_ToolCalls c) (rc_Replans c), Ok tt).

Definition reserveToolCall (c : RuntimeCheckpoint) : RuntimeCheckpoint * result unit :=
  if rc_MaxToolCalls c <=? rc_ToolCalls c then (c, Err (limit_error "tool-call" (rc_MaxToolCalls c)))
  else (with_counters c (rc_Iterations c) (rc_ToolCalls c + 1) (rc_Replans c), Ok tt).

Definition recordReplan (c : RuntimeCheckpoint) : RuntimeCheckpoint * result unit :=
  let c := with_counters c (rc_Iterations c) (rc_ToolCalls c) (rc_Replans c + 1) in
  (c, guard_ (MaxReplans <? rc_Replans c) (limit_error "replan" MaxReplans)).

Definition observationDigest (o : RuntimeObservation) : string :=
  sha256_hex (print (JObj [("server_id", JStr (ro_ServerID o)); ("tool", JStr (ro_Tool o));
                           ("arguments", ro_Arguments o); ("result", ro_Result o)])).

Definition recordObservation (c : RuntimeCheckpoint) (o : RuntimeObservation) : RuntimeCheckpoint * result unit :=
  let digest := observationDigest o in
  let o := MkRuntimeObservation (ro_ServerID o) (ro_Tool o) (ro_Arguments o) (ro_Result o) (ro_EvidenceRef o) digest in
  let repeats := if String.eqb digest (rc_LastProgressDigest c) then rc_NoProgressRepeats c + 1 else 0 in
  (MkRuntimeCheckpoint (rc_Iterations c) (rc_ToolCalls c) (rc_Replans c) repeats digest
     (rc_MaxIterations c) (rc_MaxToolCalls c) (rc_StartedAt c) (rc_DeadlineAt c) (rc_Observations c ++ [o]) (rc_GuardFeedback c),
   guard_ (MaxNoProgressRepeats <=? repeats) (EMsg "agent stopped after three identical tool observations")).
#[global] Arguments observationDigest : simpl never.
#[global] Arguments recordObservation : simpl never.

(** ** Shared by the workflows *)
Section Shared.
Context {T H X : Type} `{TraceSink T} (busy : nat).

Definition SaveTask_ (value : Task) : M (AgentState T H X) unit := on_store (SaveTask busy value).

Definition appendTrace (t : Task) (typ : string) (data : result json) : M (AgentState T H X) unit :=
  on_trace (trace_append (tk_ID t) (tk_SessionID t) typ data) ;;; ret tt.

Definition evidence_ref (t : Task) (sequence : Z) : string := "trace://" +:+ tk_ID t +:+ "/" +:+ show_Z sequence.
End Shared.

Definition maxObservationBytes : Z := 128 * 1024.

(** The JSON of an observation, or a short record in its place. *)
Definition boundedObservation (value : json) : json :=
  let b := print (as_any value) in
  if len b <=? maxObservationBytes then as_any value
  else JMap (list_to_map [("truncated", JBool true); ("original_bytes", JInt (len b)); ("sha256", JStr (sha256_hex b));
                          ("next_action", JStr "rerun the same read tool with narrower bounded arguments")]).
#[global] Arguments boundedObservation : simpl never.

Definition shortDigest (value : json) : string := "sha256:" +:+ take_bytes 12 (sha256_hex (print value)).
#[global] Arguments shortDigest : simpl never.

Definition boundedToolError (message : string) : string :=
  let message := TrimSpace message in
  if String.eqb message "" then "tool failed without a message"
  else if len message <=? 1024 then message
  else take_bytes 1024 message +:+ "...".

Definition textResult (r : CallToolResult) : string := Join (ct_Texts r) "; ".

Definition step_id (plan : list Step) : string :=
  let n := Z.of_nat (length plan) + 1 in
  "step_" +:+ (if n <? 10 then "0" else "") +:+ show_Z n.
