(* ===== verification/Network.v ===== *)
(** * [internal/platform]: the readers behind the read-only tools

    The socket tables of /proc/net with their addresses ([network.go]), the
    processes that hold a port ([process.go]), the journal ([commands.go]),
    and the smaller readers of [linux.go].  The system calls that are not
    files of /proc are the class [HostCalls]. *)

From S2P Require Import Prelude GoStrings GoText GoPath Json Unicode Hash Contracts Platform Store Planner Agent.
Open Scope Z_scope.

(** ** [net.IP.String] *)

(** A number below 65536 in lower-case hexadecimal without leading zeros. *)
Definition hex16 (n : N) : string :=
  let digits := map (fun k => N.shiftr n (4 * k) mod 16)%N [3; 2; 1; 0]%N in
  let fix drop (l : list N) : list N :=
    match l with x :: (_ :: _) as l' => if (x =? 0)%N then drop l' else l | _ => l end in
  concat_chunks (map (fun d => String (Json.hex_digit d) "") (drop digits)).

(** The zero groups at the front. *)
Fixpoint zero_run (l : list N) : nat :=
  match l with x :: l => if (x =? 0)%N then S (zero_run l) else O | [] => O end.

(** The first longest run of two zero groups or more: where it starts and
    how long it is. *)
Fixpoint longest_run (i : nat) (l : list N) (best : nat * nat) : nat * nat :=
  match l with
  | [] => best
  | _ :: l' =>
    let n := zero_run l in
    longest_run (S i) l' (if (2 <=? n)%nat && (snd best <? n)%nat then (i, n) else best)
  end.

Definition ipv6_text (groups : list N) : string :=
  let '(start, n) := longest_run 0 groups (0%nat, 0%nat) in
  if Nat.eqb n 0 then Join (map hex16 groups) ":"
  else Join (map hex16 (take start groups)) ":" +:+ "::" +:+ Join (map hex16 (drop (start + n) groups)) ":".

Fixpoint bytes_of (s : string) : list N :=
  match s with String c s => code c :: bytes_of s | "" => [] end.

Fixpoint groups_of (l : list N) : list N :=
  match l with a :: b :: l => (a * 256 + b)%N :: groups_of l | _ => [] end.

Definition ipv4_text (l : list N) : string := Join (map (fun n => show_Z (Z.of_N n)) l) ".".

(** An address of 4 bytes, or of 16 with the IPv4 addresses among them. *)
Definition IP_String (raw : string) : string :=
  let l := bytes_of raw in
  if Nat.eqb (length l) 4 then ipv4_text l
  else if bool_decide (take 12 l = repeat 0%N 10 ++ [255%N; 255%N]) then ipv4_text (drop 12 l)
  else ipv6_text (groups_of l).

(** ** [network.go] *)
Record SocketInfo := MkSocketInfo {
  so_Protocol : string;
  so_LocalAddress : string;
  so_LocalPort : Z;
  so_RemoteAddress : string;
  so_RemotePort : Z;
  so_State : string;
  so_Inode : string;
  so_Listening : bool
}.

(** [strconv.ParseUint(s, 16, 16)] *)
Definition ParseHex16 (s : string) : result Z :=
  if String.eqb s "" then Err syntax_error
  else match hex_from 0 s with
       | None => Err syntax_error
       | Some n => if 65535 <? n then Err range_error else Ok n
       end.

(** [hex.DecodeString]: digits of either case. *)
Fixpoint hex_bytes (s : string) : option string :=
  match s with
  | "" => Some ""
  | String _ "" => None
  | String a (String b s) =>
    match GoText.hex_digit a, GoText.hex_digit b, hex_bytes s with
    | Some x, Some y, Some t => Some (String (chr (Z.to_N (x * 16 + y))) t)
    | _, _, _ => None
    end
  end.

(** The words of the table are in the byte order of the host. *)
Fixpoint swap_words (s : string) : string :=
  match s with
  | String a (String b (String c (String d s))) => String d (String c (String b (String a (swap_words s))))
  | _ => s
  end.

Definition parseProcEndpoint (value : string) (ipv6 : bool) : result (string * Z) :=
  match Cut value ":" with
  | None => Err (EMsg "invalid endpoint")
  | Some (addressHex, portHex) =>
    let? port64 := ParseHex16 portHex in
    match hex_bytes addressHex with
    | None => Err (EMsg "encoding/hex: invalid")
    | Some raw =>
      if negb (Nat.eqb (String.length raw) (if ipv6 then 16 else 4)) then Err (EMsg "invalid address length")
      else Ok (IP_String (swap_words raw), port64)
    end
  end.

Definition socket_states : list (string * string) :=
  [("01", "ESTABLISHED"); ("02", "SYN_SENT"); ("03", "SYN_RECV"); ("04", "FIN_WAIT1"); ("05", "FIN_WAIT2");
   ("06", "TIME_WAIT"); ("07", "CLOSE"); ("08", "CLOSE_WAIT"); ("09", "LAST_ACK"); ("0A", "LISTEN"); ("0B", "CLOSING")].

Definition socketState (protocol code : string) : string :=
  if HasPrefix protocol "udp" && String.eqb code "07" then "UNCONN"
  else if HasPrefix protocol "udp" && String.eqb code "01" then "ESTABLISHED"
  else default code (find_key code socket_states).

(** One line of a table; [None] for a line that is skipped. *)
Definition socket_of_line (protocol : string) (ipv6 listeningOnly : bool) (line : string) : option SocketInfo :=
  let fields := Fields line in
  if (length fields <? 10)%nat then None
  else
    match parseProcEndpoint (nth_field fields 1) ipv6, parseProcEndpoint (nth_field fields 2) ipv6 with
    | Ok (localAddress, localPort), Ok (remoteAddress, remotePort) =>
      let state := socketState protocol (nth_field fields 3) in
      let listening := String.eqb state "LISTEN" || (HasPrefix protocol "udp" && (remotePort =? 0)) in
      if listeningOnly && negb listening then None
      else Some (MkSocketInfo protocol localAddress localPort remoteAddress remotePort state (nth_field fields 9) listening)
    | _, _ => None
    end.

Definition socket_before (a b : SocketInfo) : Prop :=
  so_LocalPort a < so_LocalPort b \/ so_LocalPort a = so_LocalPort b /\ String.le (so_Protocol a) (so_Protocol b).
#[export] Instance socket_before_dec a b : Decision (socket_before a b).
Proof. unfold socket_before. apply _. Defined.

Section Network.
Context {H : Type} `{Machine H} (procRoot : string).

(** The lines of one table: the sockets so far, and whether the limit was
    reached. *)
Fixpoint table_sockets (protocol : string) (ipv6 listeningOnly : bool) (limit : Z) (lines : list string) (out : list SocketInfo)
  : M H (list SocketInfo * bool) :=
  match lines with
  | [] => ret (out, false)
  | line :: lines =>
    ctx_check ;;;
    match socket_of_line protocol ipv6 listeningOnly line with
    | None => table_sockets protocol ipv6 listeningOnly limit lines out
    | Some socket =>
      let out := out ++ [socket] in
      if limit <=? Z.of_nat (length out) then ret (out, true)
      else table_sockets protocol ipv6 listeningOnly limit lines out
    end
  end.

Fixpoint tables_sockets (tables : list (string * bool)) (listeningOnly : bool) (limit : Z) (out : list SocketInfo)
  : M H (list SocketInfo * bool) :=
  match tables with
  | [] => ret (out, false)
  | (name, ipv6) :: tables =>
    b <- try_ (readContext (PathJoin [procRoot; "net"; name])) ;;
    match b with
    | Err e => if errors_is e ENOENT then tables_sockets tables listeningOnly limit out else throw e
    | Ok b =>
      let '(lines, long) := Lines b in
      scanned <- table_sockets name ipv6 listeningOnly limit (tail lines) out ;;
      let '(out, full) := scanned in
      if full then ret (out, true)
      else if long then throw (EMsg "bufio.Scanner: token too long")
      else tables_sockets tables listeningOnly limit out
    end
  end.

Definition socket_tables : list (string * bool) := [("tcp", false); ("tcp6", true); ("udp", false); ("udp6", true)].

(** At the limit the sockets are as they were read; otherwise they are
    sorted. *)
Definition Sockets (listeningOnly : bool) (limit : Z) : M H (list SocketInfo) :=
  let limit := if (limit <=? 0) || (5000 <? limit) then 500 else limit in
  scanned <- tables_sockets socket_tables listeningOnly limit [] ;;
  let '(out, full) := scanned in
  ret (if full then out else merge_sort socket_before out).

(** *** [process.go]: the processes of a port *)
Definition fd_matches (inodes : gset string) (path : string) : M H bool :=
  link <- try_ (Readlink path) ;;
  match link with
  | Ok target => ret (match socketInode target with Some inode => bool_decide (inode ∈ inodes) | None => false end)
  | Err _ => ret false
  end.

Fixpoint any_fd (inodes : gset string) (dir : string) (fds : list DirEntry) : M H bool :=
  match fds with
  | [] => ret false
  | fd :: fds =>
    matched <- fd_matches inodes (PathJoin [dir; de_Name fd]) ;;
    if (matched : bool) then ret true else any_fd inodes dir fds
  end.

Variables (pageSize : Z).
Context `{UnicodeCase}.

(** The entries of /proc that hold one of the sockets. *)
Fixpoint owners_of (inodes : gset string) (entries : list DirEntry) (seen : gset Z) : M H (list ProcessInfo) :=
  match entries with
  | [] => ret []
  | entry :: entries =>
    ctx_check ;;;
    match Atoi (de_Name entry) with
    | Err _ => owners_of inodes entries seen
    | Ok pid =>
      if negb (de_IsDir entry) then owners_of inodes entries seen
      else
        let dir := PathJoin [procRoot; de_Name entry; "fd"] in
        fds <- try_ (ReadDir dir) ;;
        match fds with
        | Err _ => owners_of inodes entries seen
        | Ok fds =>
          matched <- any_fd inodes dir fds ;;
          if negb matched || bool_decide (pid ∈ seen) then owners_of inodes entries seen
          else
            info <- try_ (Process procRoot pageSize pid) ;;
            match info with
            | Err _ => owners_of inodes entries seen
            | Ok info => rest <- owners_of inodes entries ({[pid]} ∪ seen) ;; ret (info :: rest)
            end
        end
    end
  end.

Definition pid_le (a b : ProcessInfo) : Prop := pi_PID a <= pi_PID b.
#[export] Instance pid_le_dec a b : Decision (pid_le a b).
Proof. unfold pid_le. apply _. Defined.

Definition ProcessesByPort (port : Z) : M H (list ProcessInfo) :=
  lift (guard_ ((port <? 1) || (65535 <? port)) (EMsg "port must be between 1 and 65535")) ;;;
  inodes <- socketInodesForPort procRoot port ;;
  if bool_decide (inodes = ∅) then ret []
  else
    entries <- ReadDir procRoot ;;
    out <- owners_of inodes entries ∅ ;;
    ret (merge_sort pid_le out).
End Network.

(** *** Interfaces *)
Record InterfaceInfo := MkInterfaceInfo {
  if_Name : string;
  if_Index : Z;
  if_MTU : Z;
  if_HardwareAddress : string;
  if_Flags : list string;
  if_Addresses : list string;
  if_RXBytes : Z;
  if_TXBytes : Z
}.

(** [net.Interface]: its addresses can fail to be read. *)
Record NetInterface := MkNetInterface {
  ni_Name : string;
  ni_Index : Z;
  ni_MTU : Z;
  ni_HardwareAddr : string;
  ni_Flags : string;
  ni_Addrs : option (list string)
}.

(** The system calls on the host beside files: the interfaces, [statfs] with
    its blocks, block size and available blocks, [uname]'s release and the
    host's name; and the platform the program was built for. *)
Class HostCalls (H : Type) := {
  net_Interfaces : M H (list NetInterface);
  sys_Statfs : string -> M H (Z * Z * Z);
  sys_Uname : M H string;
  os_Hostname : M H string;
  GOOS : string;
  GOARCH : string
}.

(** [strconv.ParseFloat] of a finite number. *)
Class FloatText := float_of : string -> option float64.

(** [bufio.Scanner.Err] after the lines of a text. *)
Definition scan_error (long : bool) : result unit := guard_ long (EMsg "bufio.Scanner: token too long").

Definition interface_line (values : gmap string (Z * Z)) (text : string) : gmap string (Z * Z) :=
  match Cut (TrimSpace text) ":" with
  | None => values
  | Some (name, numbers) =>
    let fields := Fields numbers in
    if (length fields <? 9)%nat then values
    else match ParseUint (nth_field fields 0), ParseUint (nth_field fields 8) with
         | Ok rx, Ok tx => <[TrimSpace name := (rx, tx)]> values
         | _, _ => values
         end
  end.

(** [strings.Split] on a byte. *)
Definition flag_names (flags : string) : list string := Split "|" flags.

Definition index_le (a b : InterfaceInfo) : Prop := if_Index a <= if_Index b.
#[export] Instance index_le_dec a b : Decision (index_le a b).
Proof. unfold index_le. apply _. Defined.

Section Readers.
Context {H : Type} `{Machine H} `{HostCalls H} `{UnicodeCase} (procRoot etcRoot : string).

Definition interfaceStats : M H (gmap string (Z * Z)) :=
  b <- readContext (PathJoin [procRoot; "net"; "dev"]) ;;
  let '(lines, long) := Lines b in
  wrapping "parse /proc/net/dev: " (lift (scan_error long)) ;;;
  ret (foldl interface_line ∅ lines).

Definition interface_info (stats : gmap string (Z * Z)) (item : NetInterface) : option InterfaceInfo :=
  match ni_Addrs item with
  | None => None
  | Some addresses =>
    let '(rx, tx) := default (0, 0) (stats !! ni_Name item) in
    Some (MkInterfaceInfo (ni_Name item) (ni_Index item) (ni_MTU item) (ni_HardwareAddr item)
            (flag_names (ni_Flags item)) addresses rx tx)
  end.

Definition Interfaces : M H (list InterfaceInfo) :=
  ctx_check ;;;
  interfaces <- net_Interfaces ;;
  stats <- interfaceStats ;;
  ret (merge_sort index_le (omap (interface_info stats) interfaces)).
End Readers.

(** ** The journal ([commands.go]) *)
Record JournalEvent := MkJournalEvent {
  je_Timestamp : Z;
  je_Unit : string;
  je_PID : Z;
  je_Priority : Z;
  je_Message : string;
  je_BootID : string;
  je_Cursor : string;
  je_Redacted : bool
}.

(** A signed 64-bit product. *)
Definition signed64 (n : Z) : Z := let w := wrap64 n in if max_int64 <? w then w - 18446744073709551616 else w.

Definition journalTime (value : string) : Z :=
  match Atoi value with Ok micros => signed64 (micros * 1000) | Err _ => zero_time end.

Section Journal.
Context {H : Type} `{Machine H} `{UnicodeCase} `{Sprinter} (journalctl : string).

Definition jsonString (value : option json) : string :=
  match value with
  | Some (JStr s) => s
  | Some (JArr items) => Join (map Sprint items) " "
  | Some JNull | None => ""
  | Some v => Sprint v
  end.

(** A line as a map; [null] is the nil map. *)
Definition journal_values (line : string) : option (gmap string json) :=
  match parse line with
  | Some (JObj fields) => Some (list_to_map (rev (map (fun kv => (kv.1, as_any kv.2)) fields)))
  | Some JNull => Some ∅
  | _ => None
  end.

(** [None] is the panic of [redactCommand]. *)
Definition journal_event (values : gmap string json) : option JournalEvent :=
  let get k := jsonString (values !! k) in
  let message := get "MESSAGE" in
  let message := if 4096 <? len message then take_bytes 4096 message +:+ "…" else message in
  match redactCommand message with
  | None => None
  | Some redacted =>
    Some (MkJournalEvent (journalTime (get "_SOURCE_REALTIME_TIMESTAMP")) (get "_SYSTEMD_UNIT") (parseInt (get "_PID"))
            (parseInt (get "PRIORITY")) redacted (get "_BOOT_ID") (get "__CURSOR") (negb (String.eqb redacted message)))
  end.

Definition parseJournal (output : string) : option (list JournalEvent) :=
  all_some (map journal_event
    (omap (fun line => let line := TrimSpace line in if String.eqb line "" then None else journal_values line)
       (Split newline output))).

Definition Journal (unit : string) (lines priority : Z) : M H (list JournalEvent) :=
  args <- lift (journal_args unit lines priority) ;;
  output <- run_fixed journalctl args ;;
  match parseJournal output with
  | Some events => ret events
  | None => panic
  end.
End Journal.

(** ** [linux.go] *)

(** *** Arithmetic of finite floating-point numbers *)
(** [p / q * 2^e], rounded. *)
Definition float_scale (p q : Z) (e : Z) : option float64 :=
  let r := if 0 <=? e then round_ratio (Z.abs p * 2 ^ e) q else round_ratio (Z.abs p) (q * 2 ^ (- e)) in
  option_map (fun f => if p <? 0 then MkFloat (- f_mant f) (f_exp f) else f) r.
Definition float_of_Z (n : Z) : option float64 := float_scale n 1 0.
Definition fmul (a b : float64) : option float64 := float_scale (f_mant a * f_mant b) 1 (f_exp a + f_exp b).
(** The divisor is positive. *)
Definition fdiv (a b : float64) : option float64 := float_scale (f_mant a) (f_mant b) (f_exp a - f_exp b).
Definition fadd (a b : float64) : option float64 :=
  let e := Z.min (f_exp a) (f_exp b) in
  float_scale (f_mant a * 2 ^ (f_exp a - e) + f_mant b * 2 ^ (f_exp b - e)) 1 e.
Definition fneg (a : float64) : float64 := MkFloat (- f_mant a) (f_exp a).
Definition zero_float : float64 := MkFloat 0 0.
(** Truncation, and rounding half away from zero. *)
Definition ftrunc (a : float64) : Z := if 0 <=? f_exp a then f_mant a * 2 ^ f_exp a else Z.quot (f_mant a) (2 ^ (- f_exp a)).
Definition fround (a : float64) : Z :=
  if 0 <=? f_exp a then f_mant a * 2 ^ f_exp a
  else Z.sgn (f_mant a) * ((2 * Z.abs (f_mant a) + 2 ^ (- f_exp a)) / (2 * 2 ^ (- f_exp a))).

Record LoadAverage := MkLoadAverage {
  la_One : float64;
  la_Five : float64;
  la_Fifteen : float64;
  la_RunningProcesses : Z;
  la_TotalProcesses : Z;
  la_LastPID : Z;
  la_Collected : Z
}.

Record DiskUsage := MkDiskUsage {
  du_Path : string;
  du_TotalBytes : Z;
  du_FreeBytes : Z;
  du_UsedBytes : Z;
  du_UsedRatio : float64
}.

Record Mount := MkMount {
  mo_Source : string;
  mo_Target : string;
  mo_Filesystem : string;
  mo_Options : string
}.

Record KernelInfo := MkKernelInfo {
  ki_OS : string;
  ki_Architecture : string;
  ki_Kernel : string;
  ki_Hostname : string;
  ki_OSName : string;
  ki_OSVersion : string
}.

Record SysctlSetting := MkSysctlSetting {
  sy_Key : string;
  sy_Value : string
}.

(** [strings.NewReplacer] with the four escapes of a mount table. *)
Fixpoint unescape_from (skip : nat) (s : string) : string :=
  match s with
  | "" => ""
  | String c r =>
    match skip with
    | S skip => unescape_from skip r
    | O =>
      if HasPrefix s "\040" then String " " (unescape_from 3 r)
      else if HasPrefix s "\011" then String (chr 9) (unescape_from 3 r)
      else if HasPrefix s "\012" then String (chr 10) (unescape_from 3 r)
      else if HasPrefix s "\134" then String "\" (unescape_from 3 r)
      else String c (unescape_from 0 r)
    end
  end.
Definition unescapeMount (s : string) : string := unescape_from 0 s.

Definition mount_of_line (text : string) : option Mount :=
  match Fields text with
  | source :: target :: filesystem :: options :: _ => Some (MkMount (unescapeMount source) (unescapeMount target) filesystem options)
  | _ => None
  end.

(** [strings.Trim] with one ASCII character. *)
Fixpoint trim_byte_left (c : ascii) (s : string) : string :=
  match s with String d r => if Ascii.eqb c d then trim_byte_left c r else s | "" => "" end.
Definition Trim (c : ascii) (s : string) : string := TrimRight (trim_byte_left c s) (String c "").

Definition release_line (info : KernelInfo) (text : string) : KernelInfo :=
  match Cut text "=" with
  | None => info
  | Some (key, value) =>
    let value := Trim dquote (TrimSpace value) in
    if String.eqb key "PRETTY_NAME" then MkKernelInfo (ki_OS info) (ki_Architecture info) (ki_Kernel info) (ki_Hostname info) value (ki_OSVersion info)
    else if String.eqb key "VERSION_ID" then MkKernelInfo (ki_OS info) (ki_Architecture info) (ki_Kernel info) (ki_Hostname info) (ki_OSName info) value
    else info
  end.
Definition parseOSRelease (b : string) (info : KernelInfo) : KernelInfo := foldl release_line info (Lines b).1.

(** [sysctlKeyPattern]: two to eight words of letters, digits and
    underscores, with dots between them. *)
Definition sysctl_key (key : string) : bool :=
  let words := Split "." key in
  (2 <=? length words)%nat && (length words <=? 8)%nat
  && forallb (fun w => negb (String.eqb w "") && all_bytes (word_byte ["_"%char]) w) words.

Definition parse_load (b : string) (collected : Z) `{FloatText} : result LoadAverage :=
  let f := Fields b in
  fail_if (length f <? 5)%nat with EMsg "/proc/loadavg: invalid field count" ;;
  match float_of (nth_field f 0), float_of (nth_field f 1), float_of (nth_field f 2) with
  | Some one, Some five, Some fifteen =>
    match Cut (nth_field f 3) "/" with
    | None => Err (EMsg "/proc/loadavg: invalid process counts")
    | Some (run, totalText) =>
      match ParseUint run, ParseUint totalText, ParseUint (nth_field f 4) with
      | Ok running, Ok total, Ok lastPID => Ok (MkLoadAverage one five fifteen running total lastPID collected)
      | e4, e5, e6 =>
        let err r := match r with Ok _ => None | Err e => Some e end in
        match errors_join (err e4) (errors_join (err e5) (err e6)) with
        | Some e => Err (EWrap "/proc/loadavg: " e)
        | None => Err (EMsg "/proc/loadavg: ")
        end
      end
    end
  | _, _, _ => Err (EWrap "/proc/loadavg: " syntax_error)
  end.

(** [used / total] with the products and the difference of [uint64]. *)
Definition disk_usage (path : string) (blocks bsize bavail : Z) : DiskUsage :=
  let total := wrap64 (blocks * bsize) in
  let free := wrap64 (bavail * bsize) in
  let used := wrap64 (total - free) in
  let ratio := if 0 <? total then
                 match float_of_Z used, float_of_Z total with
                 | Some u, Some t => default zero_float (fdiv u t)
                 | _, _ => zero_float
                 end
               else zero_float in
  MkDiskUsage path total free used ratio.

Definition Second : Z := 1000000000.

Section Linux.
Context {H : Type} `{Machine H} `{HostCalls H} `{FloatText} `{UnicodeClass} (procRoot etcRoot : string).

Definition CPU : M H (CPUStat * Z) :=
  b <- readContext (PathJoin [procRoot; "stat"]) ;;
  cpu <- lift (parse_cpu b) ;;
  collected <- now ;;
  ret (cpu, collected).

Definition Memory : M H (MemoryStat * Z) :=
  b <- readContext (PathJoin [procRoot; "meminfo"]) ;;
  memory <- lift (parse_meminfo b) ;;
  collected <- now ;;
  ret (memory, collected).

Definition Load : M H LoadAverage :=
  b <- readContext (PathJoin [procRoot; "loadavg"]) ;;
  parsed <- lift (parse_load b 0) ;;
  collected <- now ;;
  ret (MkLoadAverage (la_One parsed) (la_Five parsed) (la_Fifteen parsed) (la_RunningProcesses parsed)
         (la_TotalProcesses parsed) (la_LastPID parsed) collected).

Definition Disk (path : string) : M H DiskUsage :=
  ctx_check ;;;
  let clean := Clean path in
  st <- wrapping ("statfs " +:+ clean +:+ ": ") (sys_Statfs clean) ;;
  let '(blocks, bsize, bavail) := st in
  ret (disk_usage clean blocks bsize bavail).

(** The mounts that were read, with the scanner's error. *)
Definition Mounts : M H (list Mount * option error) :=
  b <- readContext (PathJoin [procRoot; "self"; "mounts"]) ;;
  let '(lines, long) := Lines b in
  ret (omap mount_of_line lines, match scan_error long with Ok _ => None | Err e => Some e end).

Definition Kernel : M H KernelInfo :=
  ctx_check ;;;
  host <- os_Hostname ;;
  release <- wrapping "uname: " sys_Uname ;;
  let info := MkKernelInfo GOOS GOARCH release host "" "" in
  f <- try_ (ReadFile (PathJoin [etcRoot; "os-release"])) ;;
  ret (match f with Ok b => parseOSRelease b info | Err _ => info end).

Definition Uptime : M H Z :=
  b <- readContext (PathJoin [procRoot; "uptime"]) ;;
  match Fields b with
  | [] => throw (EMsg "/proc/uptime: empty")
  | f :: _ =>
    match float_of f with
    | None => throw (EWrap "/proc/uptime: " syntax_error)
    | Some seconds => ret (default 0 (option_map ftrunc (match float_of_Z Second with Some s => fmul seconds s | None => None end)))
    end
  end.

(** The settings read before an error come with it. *)
Fixpoint sysctls_from (keys : list string) (seen : list string) (settings : list SysctlSetting)
  : M H (list SysctlSetting * option error) :=
  match keys with
  | [] => ret (settings, None)
  | key :: keys =>
    live <- try_ ctx_check ;;
    match live with
    | Err e => ret (settings, Some e)
    | Ok _ =>
      let key := TrimSpace key in
      if negb (sysctl_key key) then ret (settings, Some (EMsg ("invalid selected sysctl key " +:+ Quote key)))
      else if string_in key seen then sysctls_from keys seen settings
      else
        value <- try_ (readContext (PathJoin [procRoot; "sys"; replace_byte "." "/" key])) ;;
        match value with
        | Err e => ret (settings, Some (EWrap ("read selected sysctl " +:+ key +:+ ": ") e))
        | Ok value =>
          let text := TrimSpace value in
          if 4096 <? len text then ret (settings, Some (EMsg ("selected sysctl " +:+ key +:+ " exceeds 4096 bytes")))
          else sysctls_from keys (key :: seen) (settings ++ [MkSysctlSetting key text])
        end
    end
  end.

Definition Sysctls (keys : list string) : M H (list SysctlSetting * option error) :=
  if (64 <? length keys)%nat then ret ([], Some (EMsg "selected sysctl keys must not exceed 64"))
  else sysctls_from keys [] [].
End Linux.
