(* ===== verification/Hub.v ===== *)
(** * [internal/api/hub.go] and the event stream of [server.go]

    The progress of tasks as the web console follows it: the hub numbers the
    events of a task, retains the last 200 of them and offers each to the
    channels of the streams that are open; a stream first replays what its
    client has missed, says so when something is gone, and then sends what
    its channel brings until a task has ended.  The hub lives in memory, its
    operations under one lock, so a history is a sequence of steps. *)

From S2P Require Import Prelude GoStrings GoText GoPath Json Hash Contracts Platform Guard Approval Trace Store Planner Scope Agent.
Open Scope Z_scope.

Record RuntimeEvent := MkRuntimeEvent {
  re_Sequence : Z;
  re_Type : string;
  re_TaskID : string;
  re_State : string;
  re_Message : string;
  re_Timestamp : Z
}.

Definition with_sequence (n : Z) (e : RuntimeEvent) : RuntimeEvent :=
  MkRuntimeEvent n (re_Type e) (re_TaskID e) (re_State e) (re_Message e) (re_Timestamp e).

Definition event_json `{TimeText} (e : RuntimeEvent) : json :=
  JObj [("sequence", JInt (re_Sequence e)); ("type", JStr (re_Type e)); ("task_id", JStr (re_TaskID e));
        ("state", JStr (re_State e)); ("message", JStr (re_Message e)); ("timestamp", JStr (time_text (re_Timestamp e)))].

(** ** The hub *)

(** A channel of capacity 32.  [ch_lost] counts the events it was full for;
    the code keeps no such count. *)
Record Channel := MkChannel {
  ch_buffer : list RuntimeEvent;
  ch_lost : nat
}.

Record eventHub := MkEventHub {
  history : gmap string (list RuntimeEvent);
  next : gmap string Z;
  subscribers : gmap string (gmap nat Channel)
}.

Record replayWindow := MkReplayWindow {
  rw_Events : list RuntimeEvent;
  rw_Oldest : Z;
  rw_Latest : Z;
  rw_Gap : bool
}.

Definition newEventHub : eventHub := MkEventHub ∅ ∅ ∅.

(** [select { case ch <- event: default: }] *)
Definition offer (event : RuntimeEvent) (ch : Channel) : Channel :=
  if (length (ch_buffer ch) <? 32)%nat then MkChannel (ch_buffer ch ++ [event]) (ch_lost ch)
  else MkChannel (ch_buffer ch) (S (ch_lost ch)).

Definition retained (h : eventHub) (taskID : string) : list RuntimeEvent := default [] (history h !! taskID).
Definition latest (h : eventHub) (taskID : string) : Z := default 0 (next h !! taskID).

Definition publish (event : RuntimeEvent) (h : eventHub) : eventHub :=
  let taskID := re_TaskID event in
  let n := wrap64 (latest h taskID + 1) in
  let event := with_sequence n event in
  let kept := retained h taskID ++ [event] in
  let kept := if (200 <? length kept)%nat then drop (length kept - 200) kept else kept in
  MkEventHub (<[taskID := kept]> (history h)) (<[taskID := n]> (next h))
    (alter (fmap (offer event)) taskID (subscribers h)).

Definition subscribe (taskID : string) (after : Z) (id : nat) (h : eventHub) : replayWindow * eventHub :=
  let kept := retained h taskID in
  let newest := latest h taskID in
  let oldest := match kept with e :: _ => re_Sequence e | [] => 0 end in
  let none := (length kept =? 0)%nat in
  let gap := (0 <? after) && ((newest <? after) || (none && (newest =? 0))
                              || (negb none && (wrap64 (after + 1) <? oldest))) in
  (MkReplayWindow (List.filter (fun e => after <? re_Sequence e) kept) oldest newest gap,
   MkEventHub (history h) (next h)
     (<[taskID := <[id := MkChannel [] 0]> (default ∅ (subscribers h !! taskID))]> (subscribers h))).

Definition unsubscribe (taskID : string) (id : nat) (h : eventHub) : eventHub :=
  MkEventHub (history h) (next h) (alter (delete id) taskID (subscribers h)).

Definition channel (h : eventHub) (taskID : string) (id : nat) : option Channel :=
  subscribers h !! taskID ≫= (fun channels => channels !! id).

(** [event, ok := <-ch], when something is there. *)
Definition receive (taskID : string) (id : nat) (h : eventHub) : option (RuntimeEvent * eventHub) :=
  match channel h taskID id with
  | Some (MkChannel (event :: rest) lost) =>
    Some (event, MkEventHub (history h) (next h) (alter (<[id := MkChannel rest lost]>) taskID (subscribers h)))
  | _ => None
  end.

(** ** The stream *)

Definition terminal (state : string) : bool :=
  String.eqb state Completed || String.eqb state Failed || String.eqb state Cancelled.

Record Frame := MkFrame {
  fr_name : string;
  fr_event : RuntimeEvent
}.

(** The bytes [send] writes. *)
Definition frame_text `{TimeText} (f : Frame) : string :=
  (if 0 <? re_Sequence (fr_event f) then "id: " +:+ show_Z (re_Sequence (fr_event f)) +:+ String newline "" else "")
  +:+ "event: " +:+ fr_name f +:+ String newline ("data: " +:+ print (event_json (fr_event f)) +:+ String newline (String newline "")).

(** The header [Last-Event-ID]. *)
Definition last_event_id (header : string) : result Z :=
  let value := TrimSpace header in
  if String.eqb value "" then Ok 0
  else match ParseUint value with
       | Ok n => Ok n
       | Err _ => Err (EMsg "Last-Event-ID must be an unsigned integer")
       end.

Definition progress (e : RuntimeEvent) : Frame := MkFrame "task.progress" e.

(** The replay, and whether it ended the stream. *)
Fixpoint replay (events : list RuntimeEvent) : list Frame * bool :=
  match events with
  | [] => ([], false)
  | event :: events =>
    if terminal (re_State event) then ([progress event], true)
    else let '(frames, ended) := replay events in (progress event :: frames, ended)
  end.

Definition gap_frame (t : Task) (lastID : Z) (window : replayWindow) (at_ : Z) : Frame :=
  MkFrame "task.gap" (MkRuntimeEvent 0 "task.gap" (tk_ID t) (tk_State t)
    ("SSE 重放窗口存在缺口；last=" +:+ show_Z lastID +:+ " oldest=" +:+ show_Z (rw_Oldest window) +:+ " latest="
     +:+ show_Z (rw_Latest window) +:+ "，请回读持久 Task/Trace") at_).

Definition snapshot_frame (t : Task) : Frame :=
  MkFrame "task.snapshot" (MkRuntimeEvent 0 "task.snapshot" (tk_ID t) (tk_State t)
    (if String.eqb (tk_State t) Failed then "任务失败：" +:+ tk_FailureReason t else "任务已从持久化状态恢复") (tk_UpdatedAt t)).

(** What is sent before the loop of [events], and whether the loop is
    reached. *)
Definition opening (t : Task) (lastID : Z) (window : replayWindow) (at_ : Z) : list Frame * bool :=
  let gap := if rw_Gap window then [gap_frame t lastID window at_] else [] in
  let '(frames, ended) := replay (rw_Events window) in
  if ended then (gap ++ frames, false)
  else
    let done := terminal (tk_State t) in
    if (length (rw_Events window) =? 0)%nat && (done || rw_Gap window)
    then (gap ++ frames ++ [snapshot_frame t], negb done)
    else (gap ++ frames, true).

(** A stream that was opened for a task: what was sent, and whether its
    loop is running. *)
Record Stream := MkStream {
  sr_task : string;
  sr_after : Z;
  sr_sent : list Frame;
  sr_open : bool
}.

Record EventServer := MkEventServer {
  es_hub : eventHub;
  es_streams : gmap nat Stream
}.

Inductive hub_step :=
  | Published (e : RuntimeEvent)
  | Connected (id : nat) (t : Task) (lastID : Z) (at_ : Z)
  | Received (id : nat)
  | Disconnected (id : nat).

(** [events] of a client: it subscribes with the task as stored, replays,
    and loops over its channel; it ends with the task, or when the client
    goes or a write fails.  Each stream has its own [id]. *)
Definition hub_do (a : hub_step) (s : EventServer) : EventServer :=
  match a with
  | Published e => MkEventServer (publish e (es_hub s)) (es_streams s)
  | Connected id t lastID at_ =>
    match es_streams s !! id with
    | Some _ => s
    | None =>
      let '(window, h) := subscribe (tk_ID t) lastID id (es_hub s) in
      let '(frames, on) := opening t lastID window at_ in
      MkEventServer (if on : bool then h else unsubscribe (tk_ID t) id h)
        (<[id := MkStream (tk_ID t) lastID frames on]> (es_streams s))
    end
  | Received id =>
    match es_streams s !! id with
    | Some (MkStream taskID after sent true) =>
      match receive taskID id (es_hub s) with
      | Some (event, h) =>
        let on := negb (terminal (re_State event)) in
        MkEventServer (if on then h else unsubscribe taskID id h)
          (<[id := MkStream taskID after (sent ++ [progress event]) on]> (es_streams s))
      | None => s
      end
    | _ => s
    end
  | Disconnected id =>
    match es_streams s !! id with
    | Some (MkStream taskID after sent true) =>
      MkEventServer (unsubscribe taskID id (es_hub s)) (<[id := MkStream taskID after sent false]> (es_streams s))
    | _ => s
    end
  end.

Definition hub_run (l : list hub_step) : EventServer := foldl (fun s a => hub_do a s) (MkEventServer newEventHub ∅) l.

(** ** What was published *)

Definition published_to (taskID : string) (a : hub_step) : option RuntimeEvent :=
  match a with
  | Published e => if String.eqb (re_TaskID e) taskID then Some e else None
  | _ => None
  end.

(** The events of a task in order, each with its number. *)
Definition published (l : list hub_step) (taskID : string) : list RuntimeEvent :=
  imap (fun i e => with_sequence (Z.of_nat i + 1) e) (omap (published_to taskID) l).

Lemma published_snoc l a taskID :
  published (l ++ [a]) taskID =
    published l taskID ++ match published_to taskID a with
                          | Some e => [with_sequence (Z.of_nat (length (published l taskID)) + 1) e]
                          | None => []
                          end.
Proof.
  unfold published. rewrite omap_app, imap_app, length_imap. f_equal. cbn.
  destruct (published_to taskID a); cbn; [|done]. by rewrite Nat.add_0_r.
Qed.

Lemma published_seq l taskID i e : published l taskID !! i = Some e -> re_Sequence e = Z.of_nat i + 1.
Proof. unfold published. rewrite list_lookup_imap. intros (x&_&->)%fmap_Some. done. Qed.

Lemma length_published l taskID : (length (published l taskID) <= length l)%nat.
Proof.
  unfold published. rewrite length_imap. induction l as [|a l IH]; cbn; [done|]. destruct (published_to taskID a); cbn; lia.
Qed.

(** Selecting by number is dropping a prefix. *)
Lemma filter_numbered (ev : list RuntimeEvent) n after :
  (forall i e, ev !! i = Some e -> re_Sequence e = Z.of_nat (n + i) + 1) -> 0 <= after ->
  List.filter (fun e => after <? re_Sequence e) ev = drop (Z.to_nat after - n) ev.
Proof.
  revert n. induction ev as [|e ev IH]; intros n Hn Ha; [by rewrite drop_nil|]. cbn [List.filter].
  rewrite (Hn 0%nat e eq_refl), Nat.add_0_r. rewrite (IH (S n)); [| |done].
  - destruct (Z.ltb_spec after (Z.of_nat n + 1)).
    + replace (Z.to_nat after - n)%nat with 0%nat by lia. by replace (Z.to_nat after - S n)%nat with 0%nat by lia.
    + replace (Z.to_nat after - n)%nat with (S (Z.to_nat after - S n)) by lia. done.
  - intros i x Hi. rewrite (Hn (S i) x Hi). lia.
Qed.

Definition small (l : list hub_step) : Prop := Z.of_nat (length l) < max_uint64.

Lemma hub_run_snoc l a : hub_run (l ++ [a]) = hub_do a (hub_run l).
Proof. unfold hub_run. by rewrite foldl_snoc. Qed.

(** Only [Published] changes what the hub remembers. *)
Lemma hub_do_quiet a s : (forall e, a <> Published e) ->
  history (es_hub (hub_do a s)) = history (es_hub s) /\ next (es_hub (hub_do a s)) = next (es_hub s).
Proof.
  intros Ha. destruct a as [e|id t lastID at_|id|id]; cbn [hub_do]; [by destruct (Ha e)|..].
  - destruct (es_streams s !! id); [done|]. destruct (subscribe _ _ _ _) as [w h] eqn:E.
    injection E as <- <-. destruct (opening _ _ _ _) as [f []]; done.
  - destruct (es_streams s !! id) as [[tid af sent []]|]; [|done..]. unfold receive.
    destruct (channel _ _ _) as [[[|ev rest] lost]|]; [done| |done]. by destruct (negb _).
  - destruct (es_streams s !! id) as [[tid af sent []]|]; done.
Qed.

(** The hub retains the last 200 events of each task and its counter is the
    number of events published. *)
Lemma hub_remembers l taskID : small l ->
  retained (es_hub (hub_run l)) taskID = drop (length (published l taskID) - 200) (published l taskID) /\
  latest (es_hub (hub_run l)) taskID = Z.of_nat (length (published l taskID)).
Proof.
  induction l as [|a l IH] using rev_ind; [done|]. intros Hs. unfold small in *. rewrite length_app in Hs. cbn in Hs.
  rewrite hub_run_snoc, published_snoc. destruct IH as [IH1 IH2]; [lia|].
  destruct (published_to taskID a) as [e|] eqn:Ea.
  - destruct a as [e'| | |]; try done. cbn in Ea. destruct (String.eqb_spec (re_TaskID e') taskID) as [<-|]; [|done].
    injection Ea as ->. cbn [hub_do es_hub]. unfold retained, latest, publish in *. cbn [history next].
    rewrite !lookup_insert_eq. cbn [default]. unfold retained, latest. rewrite IH1, IH2.
    pose proof (length_published l (re_TaskID e)) as Hl.
    rewrite wrap64_id by lia. rewrite !length_app. cbn [length]. split; [|unfold id; lia]. unfold id.
    set (ev := published l (re_TaskID e)) in *. rewrite length_drop.
    destruct (Nat.ltb_spec 200 (length ev - (length ev - 200) + 1)).
    + rewrite (drop_app_le (drop _ _)) by (rewrite length_drop; lia). rewrite drop_drop.
      rewrite (drop_app_le ev) by lia. f_equal. f_equal. lia.
    + rewrite (drop_app_le ev) by lia. f_equal. f_equal. lia.
  - rewrite app_nil_r. assert (Hk : retained (es_hub (hub_do a (hub_run l))) taskID = retained (es_hub (hub_run l)) taskID /\
      latest (es_hub (hub_do a (hub_run l))) taskID = latest (es_hub (hub_run l)) taskID).
    { destruct a as [e| | |].
      2-4: unfold retained, latest;
        match goal with |- context [hub_do ?a ?s] => destruct (hub_do_quiet a s) as [-> ->]; [by intros|done] end.
      cbn in Ea. destruct (String.eqb_spec (re_TaskID e) taskID) as [|Hne]; [done|].
      cbn [hub_do es_hub]. unfold retained, latest, publish. cbn [history next]. by rewrite !lookup_insert_ne. }
    destruct Hk as [-> ->]. done.
Qed.

(** A client that comes back with the number of its last event gets
    exactly what it missed, or is told.  Whatever happened to the hub
    before, the replay holds the events of the task after that number that
    are among the last 200, in order and with their numbers; and a gap is
    reported if and only if the client named an event (a positive number)
    that is later than every event, or one after which something is missing
    from the replay. *)
Theorem replay_exact (l : list hub_step) (taskID : string) (after : Z) (id : nat) :
  small l -> 0 <= after <= max_uint64 ->
  let window := (subscribe taskID after id (es_hub (hub_run l))).1 in
  let all := published l taskID in
  rw_Events window = drop (Z.to_nat after `max` (length all - 200)) all /\
  rw_Latest window = Z.of_nat (length all) /\
  (rw_Gap window = true <->
   0 < after /\ (Z.of_nat (length all) < after \/ rw_Events window <> drop (Z.to_nat after) all)).
Proof.
  intros Hs Ha. cbv zeta. destruct (hub_remembers l taskID Hs) as [Hr Hl].
  unfold subscribe. cbn [fst rw_Events rw_Latest rw_Gap]. rewrite Hr, Hl.
  pose proof (published_seq l taskID) as Hn. pose proof (length_published l taskID) as Hle. unfold small in Hs.
  set (all := published l taskID) in *. clearbody all.
  assert (Hev : List.filter (fun e => after <? re_Sequence e) (drop (length all - 200) all)
                = drop (Z.to_nat after `max` (length all - 200)) all).
  { rewrite (filter_numbered _ (length all - 200)); [|intros i e Hi; rewrite lookup_drop in Hi; by rewrite (Hn _ _ Hi)|lia].
    rewrite drop_drop. f_equal. lia. }
  rewrite Hev. split; [done|]. split; [done|].
  rewrite andb_true_iff, Z.ltb_lt, !orb_true_iff, !andb_true_iff, negb_true_iff, !Z.ltb_lt, Z.eqb_eq, Nat.eqb_eq, Nat.eqb_neq.
  split; intros [Hpos Hg]; (split; [done|]).
  - destruct (decide (Z.of_nat (length all) < after)); [by left|right]. destruct Hg as [[Hg|[_ Hg]]|[Hne Hg]]; [lia..|].
    intros E. apply (f_equal length) in E. rewrite !length_drop in E. rewrite length_drop in Hne.
    destruct (drop (length all - 200) all) as [|e kept] eqn:Ed; [apply (f_equal length) in Ed; rewrite length_drop in Ed; cbn in Ed; lia|].
    assert (He : all !! (length all - 200 + 0)%nat = Some e) by (rewrite <- lookup_drop, Ed; done).
    rewrite (Hn _ _ He), wrap64_id in Hg by lia. lia.
  - destruct Hg as [Hg|Hg]; [by left; left|]. destruct (decide (Z.of_nat (length all) < after)); [by left; left|].
    right. rewrite length_drop. split; [lia|].
    destruct (drop (length all - 200) all) as [|e kept] eqn:Ed; [apply (f_equal length) in Ed; rewrite length_drop in Ed; cbn in Ed; lia|].
    assert (He : all !! (length all - 200 + 0)%nat = Some e) by (rewrite <- lookup_drop, Ed; done).
    rewrite (Hn _ _ He), wrap64_id by lia.
    destruct (decide (Z.to_nat after < length all - 200)%nat); [lia|]. exfalso. apply Hg. f_equal. lia.
Qed.

(** ** Streams *)

(** The task events a stream has sent. *)
Definition progress_of (f : Frame) : option RuntimeEvent :=
  if String.eqb (fr_name f) "task.progress" then Some (fr_event f) else None.
Definition sent_events (s : Stream) : list RuntimeEvent := omap progress_of (sr_sent s).
Definition told_of_gap (s : Stream) : bool := existsb (fun f => String.eqb (fr_name f) "task.gap") (sr_sent s).

Definition waiting (h : eventHub) (id : nat) (s : Stream) : Channel :=
  default (MkChannel [] 0) (channel h (sr_task s) id).

(** What an open stream has sent and what waits in its channel: some of the
    events of its task, in order; all from some point on, unless the channel
    was full; and all after the client's last one, unless it was told. *)
Definition stream_ok (all : list RuntimeEvent) (h : eventHub) (id : nat) (s : Stream) : Prop :=
  if sr_open s then
    is_Some (channel h (sr_task s) id) /\
    sublist (sent_events s ++ ch_buffer (waiting h id s)) all /\
    (ch_lost (waiting h id s) = 0%nat ->
     exists k, (k <= length all)%nat /\ sent_events s ++ ch_buffer (waiting h id s) = drop k all /\
               (0 < sr_after s -> told_of_gap s = false -> k = Z.to_nat (sr_after s)))
  else sublist (sent_events s) all.

Lemma sent_snoc taskID after sent e b :
  sent_events (MkStream taskID after (sent ++ [progress e]) b) = sent_events (MkStream taskID after sent b) ++ [e].
Proof. unfold sent_events. cbn [sr_sent]. by rewrite omap_app. Qed.

Lemma told_snoc taskID after sent e b b' :
  told_of_gap (MkStream taskID after (sent ++ [progress e]) b) = told_of_gap (MkStream taskID after sent b').
Proof. unfold told_of_gap. cbn [sr_sent]. rewrite existsb_app. cbn. by rewrite orb_false_r. Qed.

Lemma replay_sent events frames ended : replay events = (frames, ended) ->
  (if ended : bool then omap progress_of frames `prefix_of` events else omap progress_of frames = events) /\
  existsb (fun f => String.eqb (fr_name f) "task.gap") frames = false.
Proof.
  revert frames ended. induction events as [|e events IH]; cbn; intros frames ended; [by intros [= <- <-]|].
  destruct (terminal (re_State e)).
  - intros [= <- <-]. cbn. split; [|done]. by exists events.
  - destruct (replay events) as [frames' ended'] eqn:Er. intros [= <- <-]. destruct (IH _ _ eq_refl) as [Hs Hg].
    cbn. split; [|done]. destruct ended'; [by apply prefix_cons|by rewrite Hs].
Qed.

Lemma opening_sent t lastID w at_ frames on : opening t lastID w at_ = (frames, on) ->
  (if on : bool then omap progress_of frames = rw_Events w else omap progress_of frames `prefix_of` rw_Events w) /\
  existsb (fun f => String.eqb (fr_name f) "task.gap") frames = rw_Gap w.
Proof.
  unfold opening. destruct (replay (rw_Events w)) as [fs ended] eqn:Er. apply replay_sent in Er as [Hs Hg].
  assert (Gap : forall x, omap progress_of ((if rw_Gap w then [gap_frame t lastID w at_] else []) ++ x) = omap progress_of x)
    by (intros x; by destruct (rw_Gap w)).
  assert (Gap' : forall x, existsb (fun f => String.eqb (fr_name f) "task.gap")
    ((if rw_Gap w then [gap_frame t lastID w at_] else []) ++ x) =
    rw_Gap w || existsb (fun f => String.eqb (fr_name f) "task.gap") x) by (intros x; by destruct (rw_Gap w)).
  destruct ended; [intros [= <- <-]; by rewrite Gap, Gap', Hg, orb_false_r|].
  destruct (_ && _); intros [= <- <-]; rewrite Gap, Gap'.
  - rewrite omap_app, existsb_app, Hg. cbn. rewrite app_nil_r, Hs, orb_false_r. by destruct (terminal _); cbn.
  - by rewrite Hs, Hg, orb_false_r.
Qed.

(** The channels of the other streams are left alone. *)
Lemma channel_insert h taskID' id' taskID id ch :
  (taskID, id) <> (taskID', id') ->
  channel (MkEventHub (history h) (next h) (<[taskID := <[id := ch]> (default ∅ (subscribers h !! taskID))]> (subscribers h))) taskID' id'
    = channel h taskID' id'.
Proof.
  intros Hne. unfold channel. cbn [subscribers]. destruct (decide (taskID = taskID')) as [<-|]; [|by rewrite lookup_insert_ne].
  rewrite lookup_insert_eq. cbn. rewrite lookup_insert_ne by congruence. by destruct (subscribers h !! taskID).
Qed.

Lemma channel_alter h taskID' id' taskID (f : gmap nat Channel -> gmap nat Channel) hist nx :
  channel (MkEventHub hist nx (alter f taskID (subscribers h))) taskID' id' =
    (if decide (taskID = taskID') then f <$> subscribers h !! taskID' else subscribers h !! taskID') ≫= (fun c => c !! id').
Proof.
  unfold channel. cbn [subscribers]. destruct (decide (taskID = taskID')) as [<-|]; [by rewrite lookup_alter_eq|by rewrite lookup_alter_ne].
Qed.

Lemma channel_unsubscribe h taskID' id' taskID id : id <> id' ->
  channel (unsubscribe taskID id h) taskID' id' = channel h taskID' id'.
Proof.
  intros Hne. unfold unsubscribe. rewrite channel_alter. unfold channel.
  destruct (decide _) as [<-|]; [|done]. destruct (subscribers h !! taskID); cbn; [by rewrite lookup_delete_ne|done].
Qed.

Lemma channel_publish e h taskID id :
  channel (publish e h) taskID id =
    if decide (re_TaskID e = taskID)
    then offer (with_sequence (wrap64 (latest h taskID + 1)) e) <$> channel h taskID id
    else channel h taskID id.
Proof.
  unfold publish. rewrite channel_alter. unfold channel. destruct (decide (re_TaskID e = taskID)) as [<-|]; [|done].
  destruct (subscribers h !! re_TaskID e); cbn; [by rewrite lookup_fmap|done].
Qed.

Lemma receive_some taskID id h e h' : receive taskID id h = Some (e, h') ->
  exists rest lost, channel h taskID id = Some (MkChannel (e :: rest) lost) /\
    channel h' taskID id = Some (MkChannel rest lost) /\
    forall taskID' id', id <> id' -> channel h' taskID' id' = channel h taskID' id'.
Proof.
  unfold receive. destruct (channel h taskID id) as [[[|x rest] lost]|] eqn:Ec; try done. intros [= -> <-].
  exists rest, lost. split; [done|]. unfold channel in Ec. apply bind_Some in Ec as (c&Hc&Ec). split.
  - rewrite channel_alter, decide_True by done. rewrite Hc. cbn. by rewrite lookup_insert_eq.
  - intros taskID' id' Hne. rewrite channel_alter. unfold channel. destruct (decide _) as [<-|]; [|done].
    rewrite Hc. cbn. by rewrite lookup_insert_ne.
Qed.

Lemma stream_ok_channel all h h' id s :
  channel h' (sr_task s) id = channel h (sr_task s) id -> stream_ok all h id s -> stream_ok all h' id s.
Proof. unfold stream_ok, waiting. by intros ->. Qed.

Lemma stream_ok_closed all h h' id s :
  stream_ok all h id s -> stream_ok all h' id (MkStream (sr_task s) (sr_after s) (sr_sent s) false).
Proof.
  unfold stream_ok. destruct s as [taskID after sent on]. cbn [sr_open sr_sent sr_task sr_after].
  change (sent_events (MkStream taskID after sent false)) with (sent_events (MkStream taskID after sent on)).
  destruct on; [|done]. intros (_&Hs&_). etrans; [|exact Hs]. apply sublist_inserts_r. done.
Qed.

Lemma stream_ok_publish all h e id s :
  Z.of_nat (length all) < max_uint64 -> latest h (sr_task s) = Z.of_nat (length all) -> stream_ok all h id s ->
  stream_ok (all ++ if String.eqb (re_TaskID e) (sr_task s) then [with_sequence (Z.of_nat (length all) + 1) e] else [])
    (publish e h) id s.
Proof.
  intros Hb Hl Hok. destruct (String.eqb_spec (re_TaskID e) (sr_task s)) as [Ht|Ht].
  2: { rewrite app_nil_r. eapply stream_ok_channel; [|done]. by rewrite channel_publish, decide_False. }
  unfold stream_ok, waiting in *. rewrite channel_publish, decide_True by done. rewrite Hl, wrap64_id by lia.
  set (e' := with_sequence _ e). destruct (sr_open s); [|by apply sublist_inserts_r].
  destruct Hok as ([ch Hch]&Hsub&Hall). rewrite Hch in *. cbn [fmap option_fmap option_map default] in *. unfold Datatypes.id in *.
  unfold offer. destruct (Nat.ltb_spec (length (ch_buffer ch)) 32); cbn [ch_buffer ch_lost].
  - split; [by eexists|]. rewrite app_assoc. split; [by apply sublist_app|]. intros H0.
    destruct (Hall H0) as (k&Hk&Ek&Hg). exists k. rewrite length_app. split; [lia|]. split; [|done].
    by rewrite Ek, drop_app_le.
  - split; [by eexists|]. split; [by apply sublist_inserts_r|done].
Qed.

Lemma stream_ok_receive all h h' id taskID after sent e :
  receive taskID id h = Some (e, h') -> stream_ok all h id (MkStream taskID after sent true) ->
  stream_ok all (if negb (terminal (re_State e)) then h' else unsubscribe taskID id h') id
    (MkStream taskID after (sent ++ [progress e]) (negb (terminal (re_State e)))).
Proof.
  intros Hr Hok. apply receive_some in Hr as (rest&lost&Hc&Hc'&_).
  unfold stream_ok, waiting in Hok. cbn [sr_open sr_task] in Hok. rewrite Hc in Hok. cbn [default] in Hok. unfold Datatypes.id in Hok.
  destruct Hok as (_&Hsub&Hall). cbn [ch_buffer ch_lost sr_after] in *. unfold stream_ok. cbn [sr_open sr_task sr_after].
  rewrite sent_snoc. change (sent_events (MkStream taskID after sent (negb (terminal (re_State e)))))
    with (sent_events (MkStream taskID after sent true)).
  destruct (terminal (re_State e)); cbn [negb].
  - etrans; [|exact Hsub]. apply sublist_app; [done|]. apply sublist_skip, sublist_nil_l.
  - unfold waiting. cbn [sr_task]. rewrite Hc'. cbn [default]. unfold Datatypes.id. cbn [ch_buffer ch_lost].
    split; [by eexists|]. rewrite <- app_assoc. cbn [app]. split; [done|]. intros H0.
    destruct (Hall H0) as (k&Hk&Ek&Hg). exists k. split; [done|]. split; [done|]. by rewrite (told_snoc _ _ _ _ _ true).
Qed.

Lemma stream_ok_connect l t lastID at_ id window h frames on :
  small l -> 0 <= lastID <= max_uint64 ->
  subscribe (tk_ID t) lastID id (es_hub (hub_run l)) = (window, h) -> opening t lastID window at_ = (frames, on) ->
  stream_ok (published l (tk_ID t)) (if on then h else unsubscribe (tk_ID t) id h) id (MkStream (tk_ID t) lastID frames on).
Proof.
  intros Hs Ha Hsub Ho. destruct (replay_exact l (tk_ID t) lastID id Hs Ha) as (Hev&_&Hgap). rewrite Hsub in Hev, Hgap.
  cbn [fst] in Hev, Hgap. apply opening_sent in Ho as [Hsent Hg]. set (all := published l (tk_ID t)) in *. clearbody all.
  unfold stream_ok. cbn [sr_open]. change (sent_events (MkStream (tk_ID t) lastID frames on)) with (omap progress_of frames).
  destruct on.
  - assert (Hc : channel h (tk_ID t) id = Some (MkChannel [] 0)).
    { unfold subscribe in Hsub. injection Hsub as _ <-. unfold channel. cbn [subscribers].
      rewrite lookup_insert_eq. cbn. by rewrite lookup_insert_eq. }
    unfold waiting. cbn [sr_task]. rewrite Hc. cbn. rewrite app_nil_r, Hsent, Hev. split; [by eexists|].
    split; [apply sublist_drop|]. intros _.
    exists ((Z.to_nat lastID `max` (length all - 200)) `min` length all)%nat. split; [lia|]. split.
    + destruct (decide (length all <= Z.to_nat lastID `max` (length all - 200)))%nat.
      * rewrite Nat.min_r by lia. by rewrite !drop_ge by lia.
      * by rewrite Nat.min_l by lia.
    + intros Hpos Hno. unfold told_of_gap in Hno. cbn [sr_sent sr_after] in *. rewrite Hg in Hno.
      assert (Hn : ~ (Z.of_nat (length all) < lastID \/ rw_Events window <> drop (Z.to_nat lastID) all)).
      { intros Hx. enough (rw_Gap window = true) by congruence. by apply Hgap. }
      destruct (decide (Z.to_nat lastID < length all - 200)%nat); [|lia]. exfalso. apply Hn. right. rewrite Hev.
      intros E. apply (f_equal length) in E. rewrite !length_drop in E. lia.
  - destruct Hsent as [rest Hr]. etrans; [|apply (sublist_drop all)]. rewrite <- Hev, Hr. by apply sublist_inserts_r.
Qed.

(** The numbers clients give, as [last_event_id] reads them. *)
Definition numbered (l : list hub_step) : Prop :=
  forall id t lastID at_, Connected id t lastID at_ ∈ l -> 0 <= lastID <= max_uint64.

Lemma streams_ok l : small l -> numbered l ->
  forall id s, es_streams (hub_run l) !! id = Some s -> stream_ok (published l (sr_task s)) (es_hub (hub_run l)) id s.
Proof.
  induction l as [|a l IH] using rev_ind; [done|]. intros Hs Hn id s.
  assert (Hs' : small l) by (unfold small in *; rewrite length_app in Hs; cbn in Hs; lia).
  specialize (IH Hs' ltac:(intros ? ? ? ? Hin; eapply Hn, elem_of_app; by left)).
  rewrite hub_run_snoc, published_snoc. destruct a as [e|id' t lastID at_|id'|id']; cbn [hub_do published_to]; rewrite ?app_nil_r.
  - intros Hst. pose proof (hub_remembers l (sr_task s) Hs') as [_ Hl].
    pose proof (length_published l (sr_task s)) as Hlen. unfold small in Hs'.
    assert (Hb : Z.of_nat (length (published l (sr_task s))) < max_uint64) by lia.
    pose proof (stream_ok_publish _ _ e id s Hb Hl (IH id s Hst)) as Hok.
    by destruct (String.eqb (re_TaskID e) (sr_task s)).
  - destruct (es_streams (hub_run l) !! id') eqn:Ei; [apply IH|].
    destruct (subscribe _ _ _ _) as [window h] eqn:Esub. destruct (opening _ _ _ _) as [frames on] eqn:Eo. cbn [es_streams es_hub].
    destruct (decide (id' = id)) as [->|Hne].
    + rewrite lookup_insert_eq. intros [= <-]. cbn [sr_task]. eapply stream_ok_connect; try done. eapply Hn, elem_of_app. right. by left.
    + rewrite lookup_insert_ne by done. intros Hst. eapply stream_ok_channel; [|by apply IH].
      assert (Hc : channel h (sr_task s) id = channel (es_hub (hub_run l)) (sr_task s) id).
      { unfold subscribe in Esub. injection Esub as _ <-. apply channel_insert. congruence. }
      destruct on; [done|]. by rewrite channel_unsubscribe.
  - destruct (es_streams (hub_run l) !! id') as [[taskID after sent []]|] eqn:Ei; [|apply IH..].
    destruct (receive taskID id' (es_hub (hub_run l))) as [[e h]|] eqn:Er; [|apply IH]. cbn [es_streams es_hub].
    destruct (decide (id' = id)) as [->|Hne].
    + rewrite lookup_insert_eq. intros [= <-]. cbn [sr_task]. eapply stream_ok_receive; [done|]. by apply IH in Ei.
    + rewrite lookup_insert_ne by done. intros Hst. eapply stream_ok_channel; [|by apply IH].
      apply receive_some in Er as (rest&lost&_&_&Hother). destruct (negb _); [by apply Hother|].
      rewrite channel_unsubscribe by done. by apply Hother.
  - destruct (es_streams (hub_run l) !! id') as [[taskID after sent []]|] eqn:Ei; [|apply IH..]. cbn [es_streams es_hub].
    destruct (decide (id' = id)) as [->|Hne].
    + rewrite lookup_insert_eq. intros [= <-]. cbn [sr_task]. apply IH in Ei. by apply (stream_ok_closed _ _ _ _ _ Ei).
    + rewrite lookup_insert_ne by done. intros Hst. eapply stream_ok_channel; [|by apply IH]. by rewrite channel_unsubscribe.
Qed.

(** When a client is told of a gap: its number is larger than any this hub
    had given out, or events after it are not retained any more. *)
Definition gap_due (l : list hub_step) (taskID : string) (after : Z) : Prop :=
  let n := Z.of_nat (length (published l taskID)) in 0 < after /\ (n < after \/ after < n - 200).

Lemma window_gap l t lastID id window h : small l -> 0 <= lastID <= max_uint64 ->
  subscribe (tk_ID t) lastID id (es_hub (hub_run l)) = (window, h) -> rw_Gap window = true <-> gap_due l (tk_ID t) lastID.
Proof.
  intros Hs Ha Hsub. destruct (replay_exact l (tk_ID t) lastID id Hs Ha) as (Hev&_&Hgap). rewrite Hsub in Hev, Hgap. cbn [fst] in Hev, Hgap.
  rewrite Hgap, Hev. unfold gap_due. set (all := published l (tk_ID t)). clearbody all.
  split; intros [Hp Hor]; (split; [done|]); (destruct (decide (Z.of_nat (length all) < lastID)); [by left|right]); destruct Hor as [Hor|Hor]; try lia.
  - destruct (decide (lastID < Z.of_nat (length all) - 200)); [done|]. exfalso. apply Hor. f_equal. lia.
  - intros E. apply (f_equal length) in E. rewrite !length_drop in E. lia.
Qed.

(** A stream keeps what its client named and what it was told at once. *)
Lemma streams_told l : small l -> numbered l -> forall id s, es_streams (hub_run l) !! id = Some s ->
  exists l1 t at_ l2, l = l1 ++ Connected id t (sr_after s) at_ :: l2 /\ tk_ID t = sr_task s /\
    (told_of_gap s = true <-> gap_due l1 (sr_task s) (sr_after s)).
Proof.
  induction l as [|a l IH] using rev_ind; [done|]. intros Hs Hn id s.
  assert (Hs' : small l) by (unfold small in *; rewrite length_app in Hs; cbn in Hs; lia).
  specialize (IH Hs' ltac:(intros ? ? ? ? Hin; eapply Hn, elem_of_app; by left)).
  assert (Old : forall s', es_streams (hub_run l) !! id = Some s' -> sr_task s' = sr_task s -> sr_after s' = sr_after s ->
    told_of_gap s' = told_of_gap s -> exists l1 t at_ l2, l ++ [a] = l1 ++ Connected id t (sr_after s) at_ :: l2 /\ tk_ID t = sr_task s /\
      (told_of_gap s = true <-> gap_due l1 (sr_task s) (sr_after s))).
  { intros s' Hst <- <- <-. destruct (IH id s' Hst) as (l1&t&at_&l2&->&Ht&Hg). exists l1, t, at_, (l2 ++ [a]). by rewrite <- app_assoc. }
  rewrite hub_run_snoc. destruct a as [e|id' t lastID at_|id'|id']; cbn [hub_do].
  - intros Hst. by apply (Old s).
  - destruct (es_streams (hub_run l) !! id') eqn:Ei; [intros Hst; by apply (Old s)|].
    destruct (subscribe _ _ _ _) as [window h] eqn:Esub. destruct (opening _ _ _ _) as [frames on] eqn:Eo. cbn [es_streams].
    destruct (decide (id' = id)) as [->|Hne]; [|rewrite lookup_insert_ne by done; intros Hst; by apply (Old s)].
    rewrite lookup_insert_eq. intros [= <-]. cbn [sr_task sr_after]. exists l, t, at_, []. split; [done|]. split; [done|].
    unfold told_of_gap. cbn [sr_sent]. apply opening_sent in Eo as [_ ->]. eapply window_gap; [done| |done].
    eapply Hn, elem_of_app. right. by left.
  - destruct (es_streams (hub_run l) !! id') as [[taskID after sent []]|] eqn:Ei; [|intros Hst; by apply (Old s)..].
    destruct (receive taskID id' (es_hub (hub_run l))) as [[e h]|]; [|intros Hst; by apply (Old s)]. cbn [es_streams].
    destruct (decide (id' = id)) as [->|Hne]; [|rewrite lookup_insert_ne by done; intros Hst; by apply (Old s)].
    rewrite lookup_insert_eq. intros [= <-]. apply (Old _ Ei); [done|done|]. by rewrite (told_snoc _ _ _ _ _ true).
  - destruct (es_streams (hub_run l) !! id') as [[taskID after sent []]|] eqn:Ei; [|intros Hst; by apply (Old s)..]. cbn [es_streams].
    destruct (decide (id' = id)) as [->|Hne]; [|rewrite lookup_insert_ne by done; intros Hst; by apply (Old s)].
    rewrite lookup_insert_eq. intros [= <-]. by apply (Old _ Ei).
Qed.

(** C33: what a stream of one run of the server shows of a task.  Through any
    history of publications, connections, deliveries and disconnections from
    the start of the process, each stream has sent events of its task as this
    process published them, in order and none twice.  While it is open and
    its channel has not been full, what it has sent and what waits for it are
    all the events from some point on, without a hole; and they are all
    events after the one that has, in this process, the number its client
    named, unless it was told of a gap.  It was told exactly when it named a
    number and this process had not published as many events of the task
    yet, or no longer retained one after it.  A number from a process before
    a restart is taken for one of this process: it is told under the same
    condition and no other. *)
Theorem stream_exact (l : list hub_step) (id : nat) (s : Stream) :
  small l -> numbered l -> es_streams (hub_run l) !! id = Some s ->
  let all := published l (sr_task s) in
  let waits := if sr_open s then ch_buffer (waiting (es_hub (hub_run l)) id s) else [] in
  (sublist (sent_events s) all /\ NoDup (re_Sequence <$> sent_events s)) /\
  (sr_open s = true -> ch_lost (waiting (es_hub (hub_run l)) id s) = 0%nat ->
     exists k, sent_events s ++ waits = drop k all /\
       (0 < sr_after s -> told_of_gap s = false -> k = Z.to_nat (sr_after s))) /\
  (exists l1 t at_ l2, l = l1 ++ Connected id t (sr_after s) at_ :: l2 /\ tk_ID t = sr_task s /\
     (told_of_gap s = true <-> gap_due l1 (sr_task s) (sr_after s))).
Proof.
  intros Hs Hn Hst. pose proof (streams_ok l Hs Hn id s Hst) as Hok. cbv zeta. unfold stream_ok in Hok.
  assert (Hsub : sublist (sent_events s) (published l (sr_task s))).
  { destruct (sr_open s); [|done]. destruct Hok as (_&Hsub&_). etrans; [|exact Hsub]. by apply sublist_inserts_r. }
  split; [split; [done|]|split; [|by apply streams_told]].
  - eapply sublist_NoDup; [|by apply fmap_sublist]. apply NoDup_alt. intros i j n Hi Hj.
    apply list_lookup_fmap_Some in Hi as (x&->&Hx), Hj as (y&Hy&Hj). apply published_seq in Hx, Hj. lia.
  - intros Ho. rewrite Ho in *. destruct Hok as (_&_&Hall). intros H0. destruct (Hall H0) as (k&_&Ek&Hg). by exists k.
Qed.

(** ** The wire format *)

Lemma digits_from_nonneg acc s n : 0 <= acc -> digits_from acc s = Some n -> 0 <= n.
Proof.
  revert acc. induction s as [|c s IH]; intros acc Ha; cbn; [by intros [= <-]|].
  unfold digit. destruct (in_range 48 57 (code c)) eqn:Ec; [|done]. apply IH.
  unfold in_range in Ec. apply andb_true_iff in Ec as [Ec _]. apply N.leb_le in Ec. lia.
Qed.

Lemma last_event_id_range header n : last_event_id header = Ok n -> 0 <= n <= max_uint64.
Proof.
  unfold last_event_id, ParseUint. destruct (String.eqb _ _); [intros [= <-]; unfold max_uint64; lia|].
  unfold digits. destruct (String.eqb _ _); [done|]. destruct (digits_from _ _) as [m|] eqn:Ed; [|done].
  destruct (Z.ltb_spec max_uint64 m); [done|]. intros [= <-]. apply digits_from_nonneg in Ed; lia.
Qed.

Lemma Split_field name text rest : one_line name -> one_line text ->
  Split newline (name +:+ text +:+ String newline rest) = (name +:+ text) :: Split newline rest.
Proof. intros Hn Ht. rewrite <- string_app_assoc. apply Split_line. by apply one_line_app. Qed.

(** A frame is one frame: no text of an event, its message included, starts
    a line of its own. *)
Lemma frame_lines `{TimeText} f :
  one_line (fr_name f) -> wf_json (event_json (fr_event f)) = true ->
  Split newline (frame_text f) =
    (if 0 <? re_Sequence (fr_event f) then ["id: " +:+ show_Z (re_Sequence (fr_event f))] else [])
    ++ ["event: " +:+ fr_name f; "data: " +:+ print (event_json (fr_event f)); ""; ""].
Proof.
  intros Hname Hwf. apply one_line_print in Hwf. unfold frame_text.
  destruct (0 <? _); rewrite ?string_app_assoc; cbn [app].
  - match goal with |- context [String newline "" +:+ ?x] => change (String newline "" +:+ x) with (String newline x) end.
    rewrite (Split_field "id: ") by (done || apply one_line_show_Z).
    by rewrite (Split_field "event: "), (Split_field "data: ").
  - match goal with |- context ["" +:+ ?x] => change ("" +:+ x) with x end. by rewrite (Split_field "event: "), (Split_field "data: ").
Qed.

(** ** Histories *)
Module Lab.

Definition told (state message : string) : hub_step := Published (MkRuntimeEvent 0 "task.progress" "task_1" state message 5).
Definition observing : Task := MkTask "task_1" "session_1" "" "" Executing "" [] 0 [] [] [] [] None "" "" ∅ (tk_Runtime zero_task)
  (tk_WorkerLease zero_task) 0 "" 0 0.

(** A client misses nothing when it comes back in time. *)
Definition back_in_time : list hub_step :=
  [told Executing "one"; Connected 1 observing 0 6; told Executing "two"; Received 1; Disconnected 1;
   told Executing "three"; Connected 2 observing 2 7; told Completed "four"; Received 2].

Definition shown (l : list hub_step) (id : nat) : list (string * Z) :=
  default [] ((fun s => map (fun f => (fr_name f, re_Sequence (fr_event f))) (sr_sent s)) <$> es_streams (hub_run l) !! id).

Example nothing_missed :
  shown back_in_time 1 = [("task.progress", 1); ("task.progress", 2)] /\
  shown back_in_time 2 = [("task.progress", 3); ("task.progress", 4)].
Proof. vm_compute. by split. Qed.

Lemma replay_exact_witness :
  let window := (subscribe "task_1" 2 3 (es_hub (hub_run back_in_time))).1 in
  let all := published back_in_time "task_1" in
  rw_Events window = drop (2 `max` (4 - 200)) all /\ rw_Latest window = 4 /\
  (rw_Gap window = true <-> 0 < 2 /\ (4 < 2 \/ rw_Events window <> drop 2 all)).
Proof. apply (replay_exact back_in_time "task_1" 2 3); [vm_compute; reflexivity|split; vm_compute; discriminate]. Defined.

Lemma back_in_time_numbered : numbered back_in_time.
Proof.
  intros id t lastID at_ Hin. unfold back_in_time in Hin.
  repeat (apply elem_of_cons in Hin as [Hin|Hin]; [try discriminate Hin; injection Hin as _ _ -> _; unfold max_uint64; lia|]).
  by apply elem_of_nil in Hin.
Qed.

Definition second : Stream := default (MkStream "" 0 [] false) (es_streams (hub_run back_in_time) !! 2%nat).

Lemma stream_exact_witness :
  sublist (sent_events second) (published back_in_time "task_1") /\ NoDup (re_Sequence <$> sent_events second).
Proof.
  destruct (stream_exact back_in_time 2 second) as ((H1&H2)&_);
    [vm_compute; reflexivity|exact back_in_time_numbered|vm_compute; reflexivity|]. by split.
Defined.

(** A client that does not keep up loses events and is not told; when the
    last one is lost its stream never ends. *)
Definition slow : list hub_step :=
  Connected 1 observing 0 6 :: replicate 32 (told Executing "busy") ++ [told Completed "done"] ++ replicate 40 (Received 1).

Example slow_client_not_told :
  length (shown slow 1) = 32%nat /\ forallb (fun f => String.eqb f.1 "task.progress") (shown slow 1) = true /\
  (sr_open <$> es_streams (hub_run slow) !! 1%nat) = Some true /\
  (re_State <$> last (published slow "task_1")) = Some Completed.
Proof. vm_compute. repeat split. Qed.

(** The numbers start again with the process.  This is the history of a
    process after a restart, and the client knows the events up to 3 of the
    process before: that one is told only if it is back before three events
    are published, and here misses the first three, untold. *)
Definition restarted : list hub_step :=
  [told Executing "a"; told Executing "b"; told Executing "c"; told Executing "d"; Connected 1 observing 3 6].

Example restart_not_told : shown restarted 1 = [("task.progress", 4)].
Proof. vm_compute. reflexivity. Qed.

Example restart_told : shown (take 2 restarted ++ drop 4 restarted) 1 = [("task.gap", 0); ("task.snapshot", 0)].
Proof. vm_compute. reflexivity. Qed.
End Lab.
