(* ===== verification/Registry.v ===== *)
(** * [internal/registry]: the tool servers

    The manifests the administrator wrote, the state of each server, the
    sessions with the child processes, the discovery of their tools with its
    fingerprints, the health cycle, the bounded histories, and the calls of
    the agent.  The MCP library and the child processes are a parameter; a
    pointer to a session is a number given out in order.

    Two locks order the operations.  Those that hold [lifecycleMu] (discovery,
    health, disabling, closing) exclude each other, and their histories are
    sequences.  [r.mu] is held only for a few lines at a time: wherever it is
    released inside such an operation, [others] lets the other goroutines do
    what needs only [r.mu] or no lock - the two halves of a tool call, and the
    first part of [SetEnabled] - as a schedule chosen from outside says. *)

From S2P Require Import Prelude GoStrings GoText GoPath Json Hash Regex Platform Handlers Planner Agent.
Open Scope Z_scope.

(** ** manifest.go *)
Record ServerManifest := MkServerManifest {
  mf_ID : string;
  mf_Name : string;
  mf_DisplayName : string;
  mf_Version : string;
  mf_Description : string;
  mf_Transport : string;
  mf_Command : string;
  mf_Arguments : list string;
  mf_Enabled : bool;
  mf_HealthCheck : string;
  mf_Source : string;
  mf_Capabilities : list string;
  mf_Dependencies : list string;
  mf_Environment : gmap string string
}.

(** [Config] of the package. *)
Record RegistryConfig := MkRegistryConfig { rc_Servers : list ServerManifest }.

Class RegistryYaml := Unmarshal_registry : string -> result RegistryConfig.

(** The loop of [Load]: [i] is the index, [seen] the ids before. *)
Fixpoint check_servers (i : nat) (seen : list string) (servers : list ServerManifest) : result unit :=
  match servers with
  | [] => Ok tt
  | m :: servers =>
    fail_if String.eqb (mf_ID m) "" || String.eqb (mf_Name m) ""
    with EMsg ("server " +:+ show_Z (Z.of_nat i) +:+ ": id and name are required") ;;
    fail_if string_in (mf_ID m) seen with EMsg ("duplicate server id " +:+ quote (mf_ID m)) ;;
    fail_if negb (String.eqb (mf_Transport m) "stdio")
    with EMsg ("server " +:+ mf_ID m +:+ ": unsupported transport " +:+ quote (mf_Transport m)) ;;
    fail_if String.eqb (mf_Command m) "" with EMsg ("server " +:+ mf_ID m +:+ ": command required") ;;
    check_servers (S i) (mf_ID m :: seen) servers
  end.

Definition Load `{RegistryYaml} {H} `{Machine H} (path : string) : M H RegistryConfig :=
  b <- wrapping "read registry config: " (ReadFile path) ;;
  cfg <- wrapping "parse registry config: " (lift (Unmarshal_registry b)) ;;
  lift (check_servers 0 [] (rc_Servers cfg)) ;;;
  ret cfg.

Definition StatusDisabled : string := "DISABLED".
Definition StatusStarting : string := "STARTING".
Definition StatusHealthy : string := "HEALTHY".
Definition StatusUnhealthy : string := "UNHEALTHY".

Record ToolRecord := MkToolRecord {
  to_ServerID : string;
  to_Name : string;
  to_Description : string;
  to_InputSchema : string;
  to_SchemaHash : string;
  to_DiscoveredAt : Z;
  to_ServerVersion : string
}.

Record DependencyState := MkDependencyState {
  dp_Name : string;
  dp_Kind : string;
  dp_Available : bool;
  dp_Resolved : string;
  dp_Mode : string;
  dp_IsDir : bool;
  dp_SizeBytes : Z;
  dp_ModifiedAt : Z;
  dp_Error : string;
  dp_CheckedAt : Z
}.

Record HealthRecord := MkHealthRecord {
  hr_CheckedAt : Z;
  hr_Status : string;
  hr_Error : string;
  hr_DependenciesHealthy : bool;
  hr_DurationMillis : Z
}.

Record DiscoveryRecord := MkDiscoveryRecord {
  di_DiscoveredAt : Z;
  di_Status : string;
  di_Error : string;
  di_ServerName : string;
  di_ServerVersion : string;
  di_ProtocolVersion : string;
  di_ToolSetHash : string;
  di_ToolCount : Z;
  di_ToolsChanged : bool;
  di_DependenciesHealthy : bool;
  di_DurationMillis : Z
}.

Record ServerStatus := MkServerStatus {
  ss_Manifest : ServerManifest;
  ss_Status : string;
  ss_Error : string;
  ss_ActualServerName : string;
  ss_ActualServerVersion : string;
  ss_ProtocolVersion : string;
  ss_Tools : list ToolRecord;
  ss_ToolSetHash : string;
  ss_PreviousToolSetHash : string;
  ss_ToolsChanged : bool;
  ss_DependenciesChecked : bool;
  ss_DependenciesHealthy : bool;
  ss_DependencyChecks : list DependencyState;
  ss_HealthHistory : list HealthRecord;
  ss_DiscoveryHistory : list DiscoveryRecord;
  ss_LastChecked : Z
}.

(** ** Bounded texts and histories *)
Definition registryHistoryLimit : nat := 32.

Definition appendBounded {A} (values : list A) (value : A) : list A :=
  let values := values ++ [value] in
  if (registryHistoryLimit <? length values)%nat then drop (length values - registryHistoryLimit) values else values.

(** [registrySecretPatterns] *)
Definition secret_names : re :=
  alts [cats [lit_ci "api"; opt (Chr (one_of "_-")); lit_ci "key"]; cats [lit_ci "access"; opt (Chr (one_of "_-")); lit_ci "token"];
        lit_ci "secret"; lit_ci "password"; lit_ci "passwd"; lit_ci "authorization"].
Definition value_runes : re := plus (Chr (none_of (space_runes +:+ ",;"))).
Definition assignment_pattern : re :=
  Cat (Group 1 (cats [secret_names; blanks; Chr (one_of ":="); blanks])) value_runes.
Definition bearer_pattern : re := cats [Wordb; lit_ci "bearer"; plus blank; value_runes].

Definition redacted (value : string) : string :=
  ReplaceAllString (ReplaceAllString value assignment_pattern (fun g => g 1%nat +:+ "[REDACTED]"))
    bearer_pattern (fun _ => "Bearer [REDACTED]").

Definition boundedRegistryDetail (value : string) : string :=
  let value := TrimSpace (replace_byte "010" " " (replace_byte "013" " " value)) in
  let value := redacted value in
  let runes := runes value in
  if (512 <? length runes)%nat then encode_runes (take 512 runes) +:+ "..." else value.

Definition firstNonEmptyRegistry (value fallback : string) : string :=
  if String.eqb (TrimSpace value) "" then fallback else value.

(** ** Dependencies *)
Definition validDependencyCommand (value : string) : bool :=
  if String.eqb value "" || HasPrefix value "-" || Contains value "/" then false
  else forallb (fun r => in_range 97 122 r || in_range 65 90 r || in_range 48 57 r || one_of "._+-" r)%N (runes value).

Class PathLookup (H : Type) := {
  LookPath : string -> M H string;
  FilepathAbs : string -> M H string
}.

Section Dependencies.
Context {H : Type} `{Machine H} `{PathLookup H}.

Definition unavailable (name kind error : string) (t : Z) : DependencyState :=
  MkDependencyState name kind false "" "" false 0 zero_time error t.

(** [setDependencyMetadata] *)
Definition setDependencyMetadata (name kind resolved : string) (info : FileInfo) (t : Z) : DependencyState :=
  MkDependencyState name kind true resolved (mode_String (fi_Mode info)) (IsDir info) (fi_Size info) (fi_ModTime info) "" t.

Definition inspectDependency (t : Z) (raw : string) : M H DependencyState :=
  let name := TrimSpace raw in
  let refused kind e := unavailable name kind (boundedRegistryDetail (error_text e)) t in
  if IsAbs name then
    let resolved := Clean name in
    info <- try_ (Stat resolved) ;;
    ret (match info with
         | Err e => refused "path" e
         | Ok info => setDependencyMetadata name "path" resolved info t
         end)
  else if validDependencyCommand name then
    found <- try_ (LookPath name) ;;
    match found with
    | Err e => ret (refused "command" e)
    | Ok resolved =>
      absolute <- try_ (FilepathAbs resolved) ;;
      match absolute with
      | Err e => ret (refused "command" e)
      | Ok absolute =>
        info <- try_ (Stat absolute) ;;
        ret (match info with
             | Err e => refused "command" e
             | Ok info => setDependencyMetadata name "command" (Clean absolute) info t
             end)
      end
    end
  else ret (unavailable name "invalid" "dependency must be an absolute path or a bare command name" t).

Definition inspectDependencies (values : list string) (t : Z) : M H (list DependencyState * bool) :=
  checks <- mapM (inspectDependency t) values ;;
  ret (checks, forallb dp_Available checks).
End Dependencies.

Definition name_sorted (a b : string) : Prop := String.leb a b = true.
#[export] Instance name_sorted_dec a b : Decision (name_sorted a b).
Proof. unfold name_sorted. apply _. Defined.

Definition dependencyFailure (checks : list DependencyState) : option error :=
  let missing := map (fun c => firstNonEmptyRegistry (dp_Name c) "<empty>") (List.filter (fun c => negb (dp_Available c)) checks) in
  match missing with
  | [] => None
  | _ => Some (EMsg ("MCP dependencies unavailable: " +:+ String.concat ", " (merge_sort name_sorted missing)))
  end.

(** ** The library *)

(** [mcp.Tool]; the schemas and annotations as decoded JSON. *)
Record McpTool := MkMcpTool {
  mt_Name : string;
  mt_Title : string;
  mt_Description : string;
  mt_InputSchema : json;
  mt_OutputSchema : json;
  mt_Annotations : json
}.

(** [ServerInfo] of the initialize result, and the protocol version. *)
Record Initialized := MkInitialized {
  in_ServerInfo : option (string * string);
  in_ProtocolVersion : string
}.

(** [mcp.Client] and [mcp.ClientSession] over the child process of a
    manifest: the sessions are the numbers of the calls of [Connect]. *)
Class McpLibrary (X : Type) := {
  Connect : nat -> ServerManifest -> M X unit;
  InitializeResult : X -> nat -> option Initialized;
  SessionTools : nat -> M X (list McpTool);
  Ping : nat -> M X unit;
  CallSession : nat -> string -> gmap string json -> M X CallToolResult;
  CloseSession : nat -> M X unit
}.

(** What the registry asked of the sessions, and what it did with them: a
    session entered the map of sessions and left it; a call with number [k]
    found its session, and was sent; a ping failed. *)
Inductive session_event :=
  | Listed (id : string) (session : nat) (names : list string)
  | Registered (id : string) (session : nat)
  | LookedUp (k : nat) (id : string) (session : nat) (name : string)
  | Called (k : nat) (id : string) (session : nat) (name : string)
  | PingFailed (session : nat)
  | Closed (session : nat)
  | Removed (session : nat).

(** A call of a tool that has found its session and is not sent yet. *)
Record PendingCall := MkPendingCall {
  pc_number : nat;
  pc_ServerID : string;
  pc_session : nat;
  pc_name : string;
  pc_arguments : gmap string json
}.

(** What another goroutine may do while the operation under way does not hold
    [r.mu]: the two halves of [CallTool], and the first part of
    [SetEnabled]. *)
Inductive interference :=
  | LooksUp (serverID name : string) (arguments : gmap string json)
  | Sends (k : nat)
  | Flags (id : string) (enabled : bool).

(** The map of clients is written and never read, and left out.  [rg_calls]
    holds the calls of other goroutines that are under way, [rg_asked] counts
    the calls that found a session, and [rg_schedule] is what the others will
    do, one list for each time the lock is free. *)
Record Registry (H X : Type) := MkRegistry {
  rg_host : H;
  rg_library : X;
  rg_manifests : gmap string ServerManifest;
  rg_states : gmap string ServerStatus;
  rg_sessions : gmap string nat;
  rg_next : nat;
  rg_log : list session_event;
  rg_asked : nat;
  rg_calls : gmap nat PendingCall;
  rg_schedule : list (list interference)
}.
Arguments MkRegistry {H X}.
Arguments rg_host {H X}.
Arguments rg_library {H X}.
Arguments rg_manifests {H X}.
Arguments rg_states {H X}.
Arguments rg_sessions {H X}.
Arguments rg_next {H X}.
Arguments rg_log {H X}.
Arguments rg_asked {H X}.
Arguments rg_calls {H X}.
Arguments rg_schedule {H X}.

(** *** Fingerprints *)
Definition marshal_any (j : json) : string := print (as_any j).

Definition fingerprint (tool : McpTool) : json :=
  JObj [("name", JStr (mt_Name tool)); ("title", JStr (mt_Title tool)); ("description", JStr (mt_Description tool));
        ("input_schema", as_any (mt_InputSchema tool)); ("output_schema", as_any (mt_OutputSchema tool));
        ("annotations", mt_Annotations tool)].

Definition record_of (serverID version : string) (t : Z) (tool : McpTool) : ToolRecord :=
  MkToolRecord serverID (mt_Name tool) (mt_Description tool) (marshal_any (mt_InputSchema tool))
    (sha256_hex (print (fingerprint tool))) t version.

(** [sort.Slice] by name leaves the order of equal names open. *)
Definition tool_sorted (a b : ToolRecord) : Prop := String.leb (to_Name a) (to_Name b) = true.
#[export] Instance tool_sorted_dec a b : Decision (tool_sorted a b).
Proof. unfold tool_sorted. apply _. Defined.

Definition stable_record (r : ToolRecord) : json :=
  JObj [("name", JStr (to_Name r)); ("schema_hash", JStr (to_SchemaHash r)); ("server_version", JStr (to_ServerVersion r))].

Definition toolSetHash (records : list ToolRecord) : string :=
  sha256_hex (print (JArr (map stable_record (merge_sort tool_sorted records)))).

Definition new_state (m : ServerManifest) : ServerStatus :=
  MkServerStatus m StatusDisabled "" "" "" "" [] "" "" false false false [] [] [] zero_time.

Definition New {H X} (host : H) (library : X) (cfg : RegistryConfig) : Registry H X :=
  MkRegistry host library (list_to_map (rev (map (fun m => (mf_ID m, m)) (rc_Servers cfg))))
    (list_to_map (rev (map (fun m => (mf_ID m, new_state m)) (rc_Servers cfg))))
    ∅ 0 [] 0 ∅ [].

Section Registry.
Context {H X : Type} `{Machine H} `{PathLookup H} `{McpLibrary X}.

Abbreviation Reg A := (M (Registry H X) A).

Definition on_host {A} : M H A -> Reg A :=
  zoom rg_host (fun v r =>
    MkRegistry v (rg_library r) (rg_manifests r) (rg_states r) (rg_sessions r) (rg_next r) (rg_log r)
      (rg_asked r) (rg_calls r) (rg_schedule r)).
Definition on_library {A} : M X A -> Reg A :=
  zoom rg_library (fun v r =>
    MkRegistry (rg_host r) v (rg_manifests r) (rg_states r) (rg_sessions r) (rg_next r) (rg_log r)
      (rg_asked r) (rg_calls r) (rg_schedule r)).

Definition set_manifests (v : gmap string ServerManifest) (r : Registry H X) : Registry H X :=
  MkRegistry (rg_host r) (rg_library r) v (rg_states r) (rg_sessions r) (rg_next r) (rg_log r) (rg_asked r) (rg_calls r) (rg_schedule r).
Definition set_states (v : gmap string ServerStatus) (r : Registry H X) : Registry H X :=
  MkRegistry (rg_host r) (rg_library r) (rg_manifests r) v (rg_sessions r) (rg_next r) (rg_log r) (rg_asked r) (rg_calls r) (rg_schedule r).
Definition set_sessions (v : gmap string nat) (r : Registry H X) : Registry H X :=
  MkRegistry (rg_host r) (rg_library r) (rg_manifests r) (rg_states r) v (rg_next r) (rg_log r) (rg_asked r) (rg_calls r) (rg_schedule r).
Definition note (e : session_event) (r : Registry H X) : Registry H X :=
  MkRegistry (rg_host r) (rg_library r) (rg_manifests r) (rg_states r) (rg_sessions r) (rg_next r) (rg_log r ++ [e]) (rg_asked r)
    (rg_calls r) (rg_schedule r).
Definition take_number (r : Registry H X) : Registry H X :=
  MkRegistry (rg_host r) (rg_library r) (rg_manifests r) (rg_states r) (rg_sessions r) (S (rg_next r)) (rg_log r) (rg_asked r)
    (rg_calls r) (rg_schedule r).
Definition count_call (r : Registry H X) : Registry H X :=
  MkRegistry (rg_host r) (rg_library r) (rg_manifests r) (rg_states r) (rg_sessions r) (rg_next r) (rg_log r) (S (rg_asked r))
    (rg_calls r) (rg_schedule r).
Definition set_calls (v : gmap nat PendingCall) (r : Registry H X) : Registry H X :=
  MkRegistry (rg_host r) (rg_library r) (rg_manifests r) (rg_states r) (rg_sessions r) (rg_next r) (rg_log r) (rg_asked r) v
    (rg_schedule r).
Definition set_schedule (v : list (list interference)) (r : Registry H X) : Registry H X :=
  MkRegistry (rg_host r) (rg_library r) (rg_manifests r) (rg_states r) (rg_sessions r) (rg_next r) (rg_log r) (rg_asked r)
    (rg_calls r) v.

(** [r.sessions[id] = session] *)
Definition register (id : string) (session : nat) (r : Registry H X) : Registry H X :=
  note (Registered id session) (set_sessions (<[id := session]> (rg_sessions r)) r).

(** [delete(r.sessions, id)] *)
Definition remove_session (id : string) (r : Registry H X) : Registry H X :=
  match rg_sessions r !! id with
  | Some session => note (Removed session) (set_sessions (delete id (rg_sessions r)) r)
  | None => r
  end.

(** [r.states[id]], the zero value when there is none. *)
Definition zero_manifest : ServerManifest := MkServerManifest "" "" "" "" "" "" "" [] false "" "" [] [] ∅.
Definition zero_status : ServerStatus := MkServerStatus zero_manifest "" "" "" "" "" [] "" "" false false false [] [] [] zero_time.
Definition state_of (id : string) (r : Registry H X) : ServerStatus := default zero_status (rg_states r !! id).

Definition update_state (id : string) (f : ServerStatus -> ServerStatus) : Reg unit :=
  modify (fun r => set_states (<[id := f (state_of id r)]> (rg_states r)) r).

(** *** What needs [lifecycleMu] at no time *)
Definition unknown_server (id : string) : error := EMsg ("unknown MCP server " +:+ quote id).

Definition with_enabled (b : bool) (m : ServerManifest) : ServerManifest :=
  MkServerManifest (mf_ID m) (mf_Name m) (mf_DisplayName m) (mf_Version m) (mf_Description m) (mf_Transport m) (mf_Command m)
    (mf_Arguments m) b (mf_HealthCheck m) (mf_Source m) (mf_Capabilities m) (mf_Dependencies m) (mf_Environment m).

Definition with_manifest (m : ServerManifest) (s : ServerStatus) : ServerStatus :=
  MkServerStatus m (ss_Status s) (ss_Error s) (ss_ActualServerName s) (ss_ActualServerVersion s) (ss_ProtocolVersion s)
    (ss_Tools s) (ss_ToolSetHash s) (ss_PreviousToolSetHash s) (ss_ToolsChanged s) (ss_DependenciesChecked s)
    (ss_DependenciesHealthy s) (ss_DependencyChecks s) (ss_HealthHistory s) (ss_DiscoveryHistory s) (ss_LastChecked s).

(** The first part of [SetEnabled], which needs no [lifecycleMu]. *)
Definition set_flag (id : string) (enabled : bool) : Reg unit :=
  r <- get_st ;;
  match rg_manifests r !! id with
  | None => throw (unknown_server id)
  | Some m =>
    let m := with_enabled enabled m in
    modify (fun r => set_manifests (<[id := m]> (rg_manifests r)) r) ;;;
    update_state id (with_manifest m)
  end.

(** The guards of [CallTool]: the session to ask. *)
Definition may_call (r : Registry H X) (serverID name : string) : result nat :=
  let state := state_of serverID r in
  match rg_sessions r !! serverID with
  | Some session =>
    fail_if negb (String.eqb (ss_Status state) StatusHealthy)
    with EMsg ("MCP server " +:+ serverID +:+ " is not healthy") ;;
    fail_if negb (existsb (fun tool => String.eqb (to_Name tool) name) (ss_Tools state))
    with EMsg ("tool " +:+ quote name +:+ " is not registered for server " +:+ serverID) ;;
    Ok session
  | None => Err (EMsg ("MCP server " +:+ serverID +:+ " is not healthy"))
  end.

(** The first half of [CallTool], under [RLock]. *)
Definition look_up (serverID name : string) (arguments : gmap string json) : Reg PendingCall :=
  r <- get_st ;;
  session <- lift (may_call r serverID name) ;;
  modify (fun r => note (LookedUp (rg_asked r) serverID session name) (count_call r)) ;;;
  ret (MkPendingCall (rg_asked r) serverID session name arguments).

(** The second half, with no lock. *)
Definition send_call (c : PendingCall) : Reg CallToolResult :=
  modify (note (Called (pc_number c) (pc_ServerID c) (pc_session c) (pc_name c))) ;;;
  on_library (CallSession (pc_session c) (pc_name c) (pc_arguments c)).

(** A step of another goroutine.  What it returns goes to its own caller. *)
Definition interfere (a : interference) : Reg unit :=
  match a with
  | LooksUp serverID name arguments =>
    found <- try_ (look_up serverID name arguments) ;;
    match found with
    | Ok c => modify (fun r => set_calls (<[pc_number c := c]> (rg_calls r)) r)
    | Err _ => ret tt
    end
  | Sends k =>
    r <- get_st ;;
    match rg_calls r !! k with
    | Some c => modify (fun r => set_calls (delete k (rg_calls r)) r) ;;; try_ (send_call c) ;;; ret tt
    | None => ret tt
    end
  | Flags id enabled => try_ (set_flag id enabled) ;;; ret tt
  end.

(** A sending needs no lock at all. *)
Definition needs_no_lock (a : interference) : bool := match a with Sends _ => true | _ => false end.

(** The others run: [r.mu] is free, or held by the operation under way. *)
Definition others_if (allowed : interference -> bool) : Reg unit :=
  r <- get_st ;;
  match rg_schedule r with
  | [] => ret tt
  | now_ :: later => modify (set_schedule later) ;;; mapM interfere (List.filter allowed now_) ;;; ret tt
  end.
Definition others : Reg unit := others_if (fun _ => true).
Definition others_locked : Reg unit := others_if needs_no_lock.

Definition CallTool (serverID name : string) (arguments : gmap string json) : Reg CallToolResult :=
  c <- look_up serverID name arguments ;;
  others ;;;
  send_call c.

(** *** Sessions and failures *)
(** [session.Close()] *)
Definition close_session (session : nat) : Reg (result unit) :=
  modify (note (Closed session)) ;;; try_ (on_library (CloseSession session)).

(** [time.Since(started).Milliseconds()] *)
Definition since (started : Z) : Reg Z := t <- now ;; ret (Z.quot (t - started) 1000000).

Definition starting (s : ServerStatus) : ServerStatus :=
  MkServerStatus (ss_Manifest s) StatusStarting "" (ss_ActualServerName s) (ss_ActualServerVersion s) (ss_ProtocolVersion s)
    (ss_Tools s) (ss_ToolSetHash s) (ss_PreviousToolSetHash s) (ss_ToolsChanged s) (ss_DependenciesChecked s)
    (ss_DependenciesHealthy s) (ss_DependencyChecks s) (ss_HealthHistory s) (ss_DiscoveryHistory s) (ss_LastChecked s).

(** A check at [t], with the histories it leaves. *)
Definition checked (status error : string) (healthy : bool) (checks : list DependencyState) (t : Z)
    (health : HealthRecord) (discovery : option DiscoveryRecord) (s : ServerStatus) : ServerStatus :=
  MkServerStatus (ss_Manifest s) status error (ss_ActualServerName s) (ss_ActualServerVersion s) (ss_ProtocolVersion s)
    (ss_Tools s) (ss_ToolSetHash s) (ss_PreviousToolSetHash s) (ss_ToolsChanged s) true healthy checks
    (appendBounded (ss_HealthHistory s) health)
    (match discovery with Some d => appendBounded (ss_DiscoveryHistory s) d | None => ss_DiscoveryHistory s end) t.

Definition recordDiscoveryFailure (id : string) (started : Z) (checks : list DependencyState)
    (serverName serverVersion protocolVersion : string) (e : error) : Reg unit :=
  t <- now ;;
  let detail := boundedRegistryDetail (error_text e) in
  let healthy := match dependencyFailure checks with None => true | Some _ => false end in
  r <- get_st ;;
  match rg_states r !! id with
  | None => ret tt
  | Some _ =>
    d1 <- since started ;;
    d2 <- since started ;;
    update_state id (checked StatusUnhealthy detail healthy checks t (MkHealthRecord t StatusUnhealthy detail healthy d1)
      (Some (MkDiscoveryRecord t StatusUnhealthy detail serverName serverVersion protocolVersion "" 0 false healthy d2)))
  end.

Definition recordHealthFailure (id : string) (started : Z) (checks : list DependencyState) (e : error) : Reg unit :=
  t <- now ;;
  let detail := boundedRegistryDetail (error_text e) in
  let healthy := match dependencyFailure checks with None => true | Some _ => false end in
  r <- get_st ;;
  match rg_states r !! id with
  | None => ret tt
  | Some _ =>
    d <- since started ;;
    update_state id (checked StatusUnhealthy detail healthy checks t (MkHealthRecord t StatusUnhealthy detail healthy d) None)
  end.

(** The loop over [session.Tools]: an error ends it. *)
Definition listTools (session : nat) (serverID version : string) : Reg (list ToolRecord) :=
  tools <- on_library (SessionTools session) ;;
  modify (note (Listed serverID session (map mt_Name tools))) ;;;
  records <- mapM (fun tool => t <- now ;; ret (record_of serverID version t tool)) tools ;;
  ret (merge_sort tool_sorted records).

(** The state after a discovery. *)
Definition discovered (name version protocol newHash : string) (healthy : bool) (checks : list DependencyState)
    (tools : list ToolRecord) (t d1 d2 : Z) (s : ServerStatus) : ServerStatus :=
  let changed := negb (String.eqb (ss_ToolSetHash s) "") && negb (String.eqb (ss_ToolSetHash s) newHash) in
  MkServerStatus (ss_Manifest s) StatusHealthy "" name version protocol tools newHash (ss_ToolSetHash s) changed true healthy checks
    (appendBounded (ss_HealthHistory s) (MkHealthRecord t StatusHealthy "" healthy d2))
    (appendBounded (ss_DiscoveryHistory s)
       (MkDiscoveryRecord t StatusHealthy "" name version protocol newHash (Z.of_nat (length tools)) changed healthy d1)) t.

(** The part of [Discover] with a session: the handshake and the tools. *)
Definition finish_discovery (id : string) (session : nat) (started : Z) (checks : list DependencyState) (healthy : bool) : Reg unit :=
  let failed name version protocol e :=
    close_session session ;;;
    others ;;;
    recordDiscoveryFailure id started checks name version protocol e in
  r <- get_st ;;
  match InitializeResult (rg_library r) session with
  | Some (MkInitialized (Some (name, version)) protocol) =>
    if String.eqb (TrimSpace name) "" || String.eqb (TrimSpace version) "" || String.eqb (TrimSpace protocol) "" then
      let e := EMsg "initialize result omitted actual server name, version, or protocol version" in
      failed "" "" "" e ;;; throw (EWrap ("connect MCP server " +:+ id +:+ ": ") e)
    else
      tools <- try_ (listTools session id version) ;;
      others ;;;
      match tools with
      | Err e => failed name version protocol e ;;; throw (EWrap ("discover MCP server " +:+ id +:+ ": ") e)
      | Ok tools =>
        t <- now ;;
        modify (register id session) ;;;
        d1 <- since started ;;
        d2 <- since started ;;
        update_state id (discovered name version protocol (toolSetHash tools) healthy checks tools t d1 d2)
      end
  | _ =>
    let e := EMsg "initialize result omitted actual server name, version, or protocol version" in
    failed "" "" "" e ;;; throw (EWrap ("connect MCP server " +:+ id +:+ ": ") e)
  end.

Definition Discover (id : string) : Reg unit :=
  started <- now ;;
  r <- get_st ;;
  match rg_manifests r !! id with
  | None => throw (unknown_server id)
  | Some m =>
    if negb (mf_Enabled m) then throw (EMsg ("MCP server " +:+ id +:+ " is disabled"))
    else
      update_state id starting ;;;
      others ;;;
      (match rg_sessions r !! id with Some old => close_session old ;;; ret tt | None => ret tt end) ;;;
      others ;;;
      modify (remove_session id) ;;;
      others ;;;
      t <- now ;;
      inspected <- on_host (inspectDependencies (mf_Dependencies m) t) ;;
      others ;;;
      let '(checks, healthy) := inspected : list DependencyState * bool in
      match dependencyFailure checks with
      | Some e => recordDiscoveryFailure id started checks "" "" "" e ;;; throw e
      | None =>
        r <- get_st ;;
        let session := rg_next r in
        modify take_number ;;;
        connected <- try_ (on_library (Connect session m)) ;;
        others ;;;
        match connected with
        | Err e =>
          recordDiscoveryFailure id started checks "" "" "" e ;;;
          throw (EWrap ("connect MCP server " +:+ id +:+ ": ") e)
        | Ok _ => finish_discovery id session started checks healthy
        end
      end
  end.

(** *** Enabling and disabling *)
Definition disabled (t : Z) (s : ServerStatus) : ServerStatus :=
  MkServerStatus (ss_Manifest s) StatusDisabled "" (ss_ActualServerName s) (ss_ActualServerVersion s) (ss_ProtocolVersion s)
    [] (ss_ToolSetHash s) (ss_ToolSetHash s) false (ss_DependenciesChecked s) (ss_DependenciesHealthy s) (ss_DependencyChecks s)
    (appendBounded (ss_HealthHistory s) (MkHealthRecord t StatusDisabled "" (ss_DependenciesHealthy s) 0)) (ss_DiscoveryHistory s) t.

(** The second part when the server is disabled. *)
Definition disconnect (id : string) : Reg unit :=
  r <- get_st ;;
  modify (remove_session id) ;;;
  t <- now ;;
  update_state id (disabled t) ;;;
  others ;;;
  match rg_sessions r !! id with
  | Some session => closed <- close_session session ;; lift closed
  | None => ret tt
  end.

Definition SetEnabled (id : string) (enabled : bool) : Reg unit :=
  set_flag id enabled ;;;
  others ;;;
  if enabled then Discover id else disconnect id.

(** *** Tools *)
Definition capability (s : ServerStatus) (tool : ToolRecord) : ToolCapability :=
  MkToolCapability (mf_ID (ss_Manifest s)) (to_Name tool) (to_Description tool) (to_InputSchema tool).

Definition capability_sorted (a b : ToolCapability) : Prop :=
  (if String.eqb (tc_ServerID a) (tc_ServerID b) then String.leb (tc_Name a) (tc_Name b)
   else String.leb (tc_ServerID a) (tc_ServerID b)) = true.
#[local] Instance capability_sorted_dec a b : Decision (capability_sorted a b).
Proof. unfold capability_sorted. apply _. Defined.

Definition AvailableTools (r : Registry H X) : list ToolCapability :=
  merge_sort capability_sorted
    (flat_map (fun s => if negb (String.eqb (ss_Status s) StatusHealthy) || negb (mf_Enabled (ss_Manifest s)) then []
                        else map (capability s) (ss_Tools s))
       (map snd (map_to_list (rg_states r)))).

(** *** Health *)
Definition recovered (checks : list DependencyState) (t d : Z) (s : ServerStatus) : ServerStatus :=
  checked StatusHealthy "" true checks t (MkHealthRecord t StatusHealthy "" true d) None s.

Definition Health (id : string) : Reg unit :=
  started <- now ;;
  r <- get_st ;;
  match rg_manifests r !! id with
  | None => throw (unknown_server id)
  | Some m =>
    if negb (mf_Enabled m) then throw (EMsg ("MCP server " +:+ id +:+ " is disabled"))
    else
      others ;;;
      t <- now ;;
      inspected <- on_host (inspectDependencies (mf_Dependencies m) t) ;;
      others ;;;
      let '(checks, _) := inspected : list DependencyState * bool in
      match dependencyFailure checks, rg_sessions r !! id with
      | Some e, _ => recordHealthFailure id started checks e ;;; throw e
      | None, None =>
        let e := EMsg ("MCP server " +:+ id +:+ " is not connected") in
        recordHealthFailure id started checks e ;;; throw e
      | None, Some session =>
        pinged <- try_ (on_library (Ping session)) ;;
        others ;;;
        match pinged with
        | Err e =>
          modify (note (PingFailed session)) ;;;
          cancelled <- try_ ctx_check ;;
          match cancelled with
          | Err (ESys ECANCELED) => throw (ESys ECANCELED)
          | _ =>
            close_session session ;;;
            others ;;;
            modify (fun r => if base.decide (rg_sessions r !! id = Some session) then remove_session id r else r) ;;;
            others ;;;
            recordHealthFailure id started checks e ;;; throw e
          end
        | Ok _ =>
          t <- now ;;
          d <- since started ;;
          update_state id (recovered checks t d)
        end
      end
  end.

(** The enabled servers in the order of their ids. *)
Definition enabled_ids (r : Registry H X) : list string :=
  merge_sort name_sorted (map fst (List.filter (fun im => mf_Enabled im.2) (map_to_list (rg_manifests r)))).

(** The loop of [CheckAll], with the errors it joins. *)
Fixpoint check_each (ids : list string) : Reg (list error) :=
  match ids with
  | [] => ret []
  | id :: ids =>
    ended <- try_ ctx_check ;;
    match ended with
    | Err e => ret [e]
    | Ok _ =>
      others ;;;
      r <- get_st ;;
      others ;;;
      checked <- try_ (match rg_sessions r !! id with None => Discover id | Some _ => Health id end) ;;
      errs <- check_each ids ;;
      ret (match checked with Ok _ => errs | Err e => EWrap (id +:+ ": ") e :: errs end)
    end
  end.

(** [return errors.Join(errs...)] *)
Definition joined (errs : list error) : Reg unit :=
  match errors_join_list errs with Some e => throw e | None => ret tt end.

Definition CheckAll (perServerTimeout : Z) : Reg unit :=
  if perServerTimeout <=? 0 then throw (EMsg "MCP per-server health timeout must be positive")
  else
    r <- get_st ;;
    errs <- check_each (enabled_ids r) ;;
    joined errs.

Fixpoint discover_each (ids : list string) : Reg (list error) :=
  match ids with
  | [] => ret []
  | id :: ids =>
    others ;;;
    found <- try_ (Discover id) ;;
    errs <- discover_each ids ;;
    ret (match found with Ok _ => errs | Err e => e :: errs end)
  end.

Definition Start : Reg unit := r <- get_st ;; errs <- discover_each (enabled_ids r) ;; joined errs.

Definition id_sorted (a b : ServerStatus) : Prop := String.leb (mf_ID (ss_Manifest a)) (mf_ID (ss_Manifest b)) = true.
#[local] Instance id_sorted_dec a b : Decision (id_sorted a b).
Proof. unfold id_sorted. apply _. Defined.

Definition States (r : Registry H X) : list ServerStatus := merge_sort id_sorted (map snd (map_to_list (rg_states r))).

(** The loop of [Close] over the map of sessions, in the order [sessions]. *)
Fixpoint close_each (sessions : list (string * nat)) : Reg (list error) :=
  match sessions with
  | [] => ret []
  | (id, session) :: sessions =>
    closed <- close_session session ;;
    others_locked ;;;
    errs <- close_each sessions ;;
    ret (match closed with Ok _ => errs | Err e => EWrap (id +:+ ": ") e :: errs end)
  end.

(** [r.sessions = map[string]*mcp.ClientSession{}] *)
Definition forget_sessions (r : Registry H X) : Registry H X :=
  foldr (fun s => note (Removed s.2)) (set_sessions ∅ r) (map_to_list (rg_sessions r)).

(** It holds both locks from the beginning to the end. *)
Definition Close : Reg unit :=
  r <- get_st ;;
  errs <- close_each (map_to_list (rg_sessions r)) ;;
  modify forget_sessions ;;;
  joined errs.
End Registry.

(** ** Histories *)
Inductive registry_step :=
  | FlagSet (id : string) (enabled : bool)
  | Discovered (id : string)
  | Disconnected (id : string)
  | HealthChecked (id : string)
  | CycleRun (perServerTimeout : Z)
  | Started
  | ToolCalled (id name : string) (arguments : gmap string json)
  | Acted (a : interference)
  | AllClosed.

(** A step, and what the other goroutines do at each of its points where the
    lock is free.  Operations that hold [lifecycleMu] follow each other; the
    checks of a cycle, and the discoveries of [Start], between which others
    may get that lock, can be listed one by one. *)
Record registry_turn := MkTurn {
  tn_Env : Env;
  tn_others : list (list interference);
  tn_step : registry_step
}.

Section Histories.
Context {H X : Type} `{Machine H} `{PathLookup H} `{McpLibrary X}.

Abbreviation Reg A := (M (Registry H X) A).
Abbreviation State := (Registry H X).

Definition registry_do (step : registry_step) : Reg unit :=
  match step with
  | FlagSet id enabled => set_flag id enabled
  | Discovered id => Discover id
  | Disconnected id => r <- get_st ;; match rg_manifests r !! id with Some _ => disconnect id | None => throw (unknown_server id) end
  | HealthChecked id => Health id
  | CycleRun timeout => CheckAll timeout
  | Started => Start
  | ToolCalled id name arguments => CallTool id name arguments ;;; ret tt
  | Acted a => interfere a
  | AllClosed => Close
  end.

(** An operation among the others. *)
Definition among {A} (m : Reg A) (E : Env) (schedule : list (list interference)) (r : State) : State :=
  st (m E (init_world (set_schedule schedule r))).2.

Fixpoint registry_run (l : list registry_turn) (r : State) : State :=
  match l with
  | [] => r
  | t :: l => registry_run l (among (registry_do (tn_step t)) (tn_Env t) (tn_others t) r)
  end.

(** Everything but the outside. *)
Definition same_wires (r r' : State) : Prop :=
  rg_manifests r' = rg_manifests r /\ rg_states r' = rg_states r /\ rg_sessions r' = rg_sessions r /\
  rg_next r' = rg_next r /\ rg_log r' = rg_log r /\ rg_asked r' = rg_asked r /\ rg_calls r' = rg_calls r /\
  rg_schedule r' = rg_schedule r.

(** *** What the log shows *)
Definition of_calls (e : session_event) : bool :=
  match e with LookedUp _ _ _ _ | Called _ _ _ _ => true | _ => false end.

(** The window in [Health]: the ping failed, the session was closed, and
    nothing but calls has come since. *)
Definition dying (s : nat) (log : list session_event) : Prop :=
  exists la lb, log = la ++ PingFailed s :: lb /\ Forall (fun e => of_calls e = true \/ e = Closed s) lb.

(** The session is the one in use: it listed the tool, it is in the map, and
    only a health check that just found it dead may have closed it. *)
Definition in_use (id : string) (s : nat) (name : string) (log : list session_event) : Prop :=
  (exists names, Listed id s names ∈ log /\ name ∈ names) /\ Registered id s ∈ log /\ Removed s ∉ log /\ (Closed s ∈ log -> dying s log).

Definition looked_up (k : nat) (id : string) (s : nat) (name : string) (log : list session_event) : Prop :=
  exists l0 l3, log = l0 ++ LookedUp k id s name :: l3 /\ in_use id s name l0.

Definition unsent (k : nat) (log : list session_event) : Prop := forall id s name, Called k id s name ∉ log.

(** Each call is sent once, after its own look-up. *)
Definition answered (log : list session_event) : Prop :=
  forall l1 k id s name l2, log = l1 ++ Called k id s name :: l2 -> looked_up k id s name l1 /\ unsent k l1.

Definition ready (c : PendingCall) (log : list session_event) : Prop :=
  looked_up (pc_number c) (pc_ServerID c) (pc_session c) (pc_name c) log /\ unsent (pc_number c) log.

Lemma looked_up_app k id s name log ev : looked_up k id s name log -> looked_up k id s name (log ++ ev).
Proof. intros (l0&l3&->&Hu). exists l0, (l3 ++ ev). by rewrite <- app_assoc. Qed.

Lemma looked_up_in k id s name log : looked_up k id s name log -> LookedUp k id s name ∈ log.
Proof. intros (l0&l3&->&_). set_solver. Qed.

Lemma dying_app s log ev : Forall (fun e => of_calls e = true) ev -> dying s log -> dying s (log ++ ev).
Proof.
  intros Hev (la&lb&->&Hlb). exists la, (lb ++ ev). rewrite <- app_assoc. split; [done|]. apply Forall_app. split; [done|].
  eapply Forall_impl; [exact Hev|]. by left.
Qed.

Lemma answered_nil : answered [].
Proof. intros l1 k id s name l2 Hl. by destruct l1. Qed.

Lemma answered_app log e : answered log ->
  (forall k id s name, e = Called k id s name -> looked_up k id s name log /\ unsent k log) -> answered (log ++ [e]).
Proof.
  intros Ha He l1 k id s name l2 Hl. destruct l2 as [|x l2 _] using rev_ind.
  - apply app_inj_tail in Hl as [-> ->]. by apply He.
  - rewrite app_comm_cons, app_assoc in Hl. apply app_inj_tail in Hl as [-> _]. by eapply Ha.
Qed.

Lemma in_snoc {A} (x e : A) l : x ∈ l ++ [e] <-> x ∈ l \/ x = e.
Proof. by rewrite elem_of_app, list_elem_of_singleton. Qed.

Lemma unsent_app k log e : unsent k log -> (forall id s name, e <> Called k id s name) -> unsent k (log ++ [e]).
Proof. intros Hu He id s name [Hin|Heq]%in_snoc; [by eapply Hu|by eapply He]. Qed.

Lemma ready_app c log e : ready c log -> (forall id s name, e <> Called (pc_number c) id s name) -> ready c (log ++ [e]).
Proof. intros [Hl Hu] He. split; [by apply looked_up_app|by apply unsent_app]. Qed.

(** *** The invariant *)
Definition filed (r : State) : Prop := forall id,
  match rg_manifests r !! id, rg_states r !! id with
  | Some m, Some s => mf_ID m = id /\ ss_Manifest s = m
  | None, None => True
  | _, _ => False
  end.

(** Where the operation that holds [lifecycleMu] is: it has closed the
    session of a server that is still in the map, it has taken out of the map
    a session it has not closed, or it is closing them all. *)
Inductive business := Quiet | Closing (id : string) | Leaving (s : nat) | Ending.

Definition may_be_closed (b : business) (id : string) : Prop :=
  match b with Closing id' => id' = id | Ending => True | _ => False end.

Record wired (b : business) (r : State) : Prop := {
  wi_filed : filed r;
  wi_numbers : forall id s, rg_sessions r !! id = Some s -> (s < rg_next r)%nat;
  wi_gone : forall s, Closed s ∈ rg_log r \/ Removed s ∈ rg_log r -> (s < rg_next r)%nat;
  wi_apart : forall id id' s, rg_sessions r !! id = Some s -> rg_sessions r !! id' = Some s -> id = id';
  wi_open : forall id s, rg_sessions r !! id = Some s -> Removed s ∉ rg_log r /\ (Closed s ∈ rg_log r -> may_be_closed b id);
  wi_dying : forall id s, b <> Ending -> rg_sessions r !! id = Some s -> ss_Status (state_of id r) = StatusHealthy ->
    Closed s ∈ rg_log r -> dying s (rg_log r);
  wi_tools : forall id s, rg_sessions r !! id = Some s ->
    exists names, (Listed id s names ∈ rg_log r /\ Registered id s ∈ rg_log r) /\
      forall t, t ∈ ss_Tools (state_of id r) -> to_Name t ∈ names;
  wi_looked : forall k id s name, LookedUp k id s name ∈ rg_log r ->
    (k < rg_asked r)%nat /\ (rg_sessions r !! id = Some s \/ Closed s ∈ rg_log r \/ b = Leaving s);
  wi_calls : forall k c, rg_calls r !! k = Some c -> pc_number c = k /\ ready c (rg_log r);
  wi_answered : answered (rg_log r)
}.

(** A healthy server has a session. *)
Definition connected (r : State) : Prop :=
  forall id, ss_Status (state_of id r) = StatusHealthy -> is_Some (rg_sessions r !! id).

(** What the others cannot do: they touch no session and no status, and send
    no call that is not theirs. *)
Definition stirred (r r' : State) : Prop :=
  rg_sessions r' = rg_sessions r /\ rg_next r' = rg_next r /\
  (forall id, ss_Status (state_of id r') = ss_Status (state_of id r)) /\
  (forall id, is_Some (rg_states r !! id) -> is_Some (rg_states r' !! id)) /\
  (rg_asked r <= rg_asked r')%nat /\
  exists ev, rg_log r' = rg_log r ++ ev /\ Forall (fun e => of_calls e = true) ev /\
    forall k, (k < rg_asked r)%nat -> rg_calls r !! k = None -> rg_calls r' !! k = None /\ unsent k ev.

#[local] Instance stirred_preorder : PreOrder stirred.
Proof.
  split.
  - intros r. repeat split; try done. exists []. rewrite app_nil_r. repeat split; [constructor|done|]. intros id s name Hin. by apply elem_of_nil in Hin.
  - intros a b c (S1&N1&T1&I1&A1&e1&L1&F1&C1) (S2&N2&T2&I2&A2&e2&L2&F2&C2). split_and!; [congruence|congruence| | |lia|].
    + intros id. by rewrite T2, T1.
    + auto.
    + exists (e1 ++ e2). rewrite L2, L1, app_assoc. split; [done|]. split; [by apply Forall_app|]. intros k Hk Hn.
      destruct (C1 k Hk Hn) as [Hn1 U1]. destruct (C2 k ltac:(lia) Hn1) as [Hn2 U2]. split; [done|].
      intros id s name [?|?]%elem_of_app; [by eapply U1|by eapply U2].
Qed.

Lemma state_of_insert id id' v (r : State) m :
  state_of id' (set_states (<[id := v]> m) r) = if base.decide (id = id') then v else default zero_status (m !! id').
Proof.
  unfold state_of. cbn. destruct (base.decide (id = id')) as [<-|Hne]; [by rewrite lookup_insert_eq|by rewrite lookup_insert_ne].
Qed.

Lemma wired_same b r r' : same_wires r r' -> wired b r -> wired b r'.
Proof.
  intros (Em&Es&Ess&En&El&Ea&Ec&Eq) []. split; unfold filed, state_of in *; rewrite ?Em, ?Es, ?Ess, ?En, ?El, ?Ea, ?Ec; done.
Qed.

Lemma stirred_same r r' : same_wires r r' -> stirred r r'.
Proof.
  intros (Em&Es&Ess&En&El&Ea&Ec&Eq). unfold stirred, state_of. rewrite Es, Ess, En, El, Ea, Ec. split_and!; try done.
  exists []. rewrite app_nil_r. repeat split; [constructor|done|]. intros id s name Hin. by apply elem_of_nil in Hin.
Qed.

Lemma connected_stirred r r' : stirred r r' -> connected r -> connected r'.
Proof. intros (Ess&_&Et&_) Hc id. rewrite Et, Ess. apply Hc. Qed.

(** A state that keeps its manifest, gains no tool, and becomes healthy only
    while its session is open. *)
Lemma wired_update b id f r : wired b r -> is_Some (rg_states r !! id) ->
  (forall s, ss_Manifest (f s) = ss_Manifest s) -> (forall s, ss_Tools (f s) ⊆ ss_Tools s) ->
  (ss_Status (f (state_of id r)) = StatusHealthy -> b = Quiet) ->
  wired b (set_states (<[id := f (state_of id r)]> (rg_states r)) r).
Proof.
  intros [W1 W2 W3 W4 W5 W6 W7 W8 W9 W10] [old Hold] Hm Ht Hb. split; try done.
  - intros id'. cbn. specialize (W1 id'). destruct (base.decide (id = id')) as [<-|Hne]; [|by rewrite lookup_insert_ne].
    rewrite lookup_insert_eq, Hm. rewrite Hold in W1. unfold state_of. by rewrite Hold.
  - intros id' s He Hs. rewrite state_of_insert. cbn. destruct (base.decide (id = id')) as [<-|Hne]; [|by apply (W6 id' s)].
    intros Hst Hc. destruct (W5 id s Hs) as [_ Ho]. apply Ho in Hc. by rewrite (Hb Hst) in Hc.
  - intros id' s Hs. destruct (W7 id' s Hs) as (names&Hl&Hn). exists names. split; [exact Hl|].
    rewrite state_of_insert. destruct (base.decide (id = id')) as [<-|Hne]; [|exact Hn]. intros t Hin. by apply Hn, Ht.
Qed.

(** *** Events of the sessions *)
Lemma closed_not_quiet r id s : wired Quiet r -> rg_sessions r !! id = Some s -> Closed s ∉ rg_log r.
Proof. intros W Hs Hc. by apply (wi_open _ _ W _ _ Hs) in Hc. Qed.

(** A tool listing, a failed ping. *)
Lemma wired_note e r : match e with Listed _ _ _ | PingFailed _ => True | _ => False end -> wired Quiet r -> wired Quiet (note e r).
Proof.
  intros He W. pose proof (closed_not_quiet r) as Hq. destruct W as [W1 W2 W3 W4 W5 W6 W7 W8 W9 W10].
  split; cbn; try done.
  - intros s [[?| <-]%in_snoc|[?| <-]%in_snoc]; auto; done.
  - intros id s Hs. destruct (W5 id s Hs) as [Wr Wc]. split; intros [Hin| <-]%in_snoc; [by apply Wr|destruct He|by apply Wc|destruct He].
  - intros id s _ Hs _ [Hin| <-]%in_snoc; [|done]. by apply (W5 id s Hs) in Hin.
  - intros id s Hs. destruct (W7 id s Hs) as (n&Hl&Ht). exists n. split; [set_solver|done].
  - intros k id s name [Hin| <-]%in_snoc; [|done]. destruct (W8 _ _ _ _ Hin) as [Hk Hor]. split; [done|]. rewrite in_snoc. naive_solver.
  - intros k c Hc. destruct (W9 k c Hc) as [Hk Hr]. split; [done|]. apply ready_app; [done|]. intros id s name ->. done.
  - apply answered_app; [done|]. intros k id s name ->. done.
Qed.

(** A session that is not in the map is closed. *)
Lemma wired_closed b s r : wired b r -> b = Quiet \/ b = Leaving s -> (s < rg_next r)%nat -> (forall id, rg_sessions r !! id <> Some s) ->
  wired Quiet (note (Closed s) r).
Proof.
  intros [W1 W2 W3 W4 W5 W6 W7 W8 W9 W10] Hb Hlt Hn.
  assert (Hopen : forall id s', rg_sessions r !! id = Some s' -> Closed s' ∉ rg_log r ++ [Closed s]).
  { intros id s' Hs' [Hin|[= ->]]%in_snoc; [|by apply (Hn id)]. apply (W5 id s' Hs') in Hin. by destruct Hb as [-> | ->]. }
  split; cbn; try done.
  - intros s' [[?|[= ->]]%in_snoc|[?|[=]]%in_snoc]; auto.
  - intros id s' Hs'. split; [intros [Hin|[=]]%in_snoc; by apply (proj1 (W5 id s' Hs'))|]. intros Hin. by eapply Hopen.
  - intros id s' _ Hs' _ Hin. by eapply Hopen in Hs'.
  - intros id s' Hs'. destruct (W7 id s' Hs') as (n&Hl&Ht). exists n. split; [set_solver|done].
  - intros k id s' name [Hin|[=]]%in_snoc. destruct (W8 _ _ _ _ Hin) as [Hk Hor]. split; [done|]. rewrite in_snoc.
    destruct Hor as [?|[?|Hl]]; [auto..|]. destruct Hb as [-> | ->]; [done|]. injection Hl as ->. auto.
  - intros k c Hc. destruct (W9 k c Hc) as [Hk Hr]. split; [done|]. by apply ready_app.
  - by apply answered_app.
Qed.

(** A session is closed while it is in the map. *)
Lemma wired_closing id s r : wired Quiet r -> rg_sessions r !! id = Some s ->
  (ss_Status (state_of id r) = StatusHealthy -> dying s (rg_log r ++ [Closed s])) -> wired (Closing id) (note (Closed s) r).
Proof.
  intros W Hid Hd. pose proof (closed_not_quiet r) as Hq. assert (W' := W). destruct W as [W1 W2 W3 W4 W5 W6 W7 W8 W9 W10].
  split; cbn; try done.
  - intros s' [[?|[= ->]]%in_snoc|[?|[=]]%in_snoc]; auto. by eapply W2.
  - intros id' s' Hs'. split; [intros [Hin|[=]]%in_snoc; by apply (proj1 (W5 id' s' Hs'))|]. intros [Hin|[= ->]]%in_snoc; [by apply (Hq id' s') in Hin|].
    by eapply W4.
  - intros id' s' _ Hs' Hst [Hin|[= ->]]%in_snoc; [by apply (Hq id' s') in Hin|]. apply Hd. by rewrite (W4 _ _ _ Hid Hs').
  - intros id' s' Hs'. destruct (W7 id' s' Hs') as (n&Hl&Ht). exists n. split; [set_solver|done].
  - intros k id' s' name [Hin|[=]]%in_snoc. destruct (W8 _ _ _ _ Hin) as [Hk Hor]. split; [done|]. rewrite in_snoc. naive_solver.
  - intros k c Hc. destruct (W9 k c Hc) as [Hk Hr]. split; [done|]. by apply ready_app.
  - by apply answered_app.
Qed.

Lemma wired_ending s r : wired Ending r -> (s < rg_next r)%nat -> wired Ending (note (Closed s) r).
Proof.
  intros [W1 W2 W3 W4 W5 W6 W7 W8 W9 W10] Hlt. split; cbn; try done.
  - intros s' [[?|[= ->]]%in_snoc|[?|[=]]%in_snoc]; auto.
  - intros id' s' Hs'. split; [|done]. intros [Hin|[=]]%in_snoc. by apply (proj1 (W5 id' s' Hs')).
  - intros id' s' Hs'. destruct (W7 id' s' Hs') as (n&Hl&Ht). exists n. split; [set_solver|done].
  - intros k id' s' name [Hin|[=]]%in_snoc. destruct (W8 _ _ _ _ Hin) as [Hk Hor]. split; [done|]. rewrite in_snoc. naive_solver.
  - intros k c Hc. destruct (W9 k c Hc) as [Hk Hr]. split; [done|]. by apply ready_app.
  - by apply answered_app.
Qed.

(** A session leaves the map. *)
Lemma wired_removed b b' id s r : wired b r -> rg_sessions r !! id = Some s ->
  b = Quiet /\ b' = Leaving s \/ b = Closing id /\ b' = Quiet /\ Closed s ∈ rg_log r -> wired b' (remove_session id r).
Proof.
  intros [W1 W2 W3 W4 W5 W6 W7 W8 W9 W10] Hid Hb. unfold remove_session. rewrite Hid.
  assert (Hopen : forall id' s', id <> id' -> rg_sessions r !! id' = Some s' -> Closed s' ∉ rg_log r).
  { intros id' s' Hne Hs' Hin. apply (W5 id' s' Hs') in Hin. by destruct Hb as [[-> _]|[-> _]]. }
  split; cbn; try done.
  - intros id' s' [_ Hs]%lookup_delete_Some. by eapply W2.
  - intros s' [[?|[=]]%in_snoc|[?|[= ->]]%in_snoc]; eauto.
  - intros a b0 s' [_ Ha]%lookup_delete_Some [_ Hb0]%lookup_delete_Some. by eapply W4.
  - intros id' s' [Hne Hs']%lookup_delete_Some. split.
    + intros [Hin|[= ->]]%in_snoc; [by apply (proj1 (W5 id' s' Hs'))|by apply Hne; eapply W4].
    + intros [Hin|[=]]%in_snoc. by apply (Hopen id' s') in Hin.
  - intros id' s' _ [Hne Hs']%lookup_delete_Some _ [Hin|[=]]%in_snoc. by apply (Hopen id' s') in Hin.
  - intros id' s' [Hne Hs']%lookup_delete_Some. destruct (W7 id' s' Hs') as (n&Hl&Ht). exists n. split; [set_solver|done].
  - intros k id' s' name [Hin|[=]]%in_snoc. destruct (W8 _ _ _ _ Hin) as [Hk Hor]. split; [done|]. rewrite in_snoc, lookup_delete_Some.
    destruct Hor as [Hs'|[?| ->]]; [|by auto|by destruct Hb as [[? _]|[? _]]].
    destruct (base.decide (id = id')) as [<-|Hne]; [|by auto]. assert (s' = s) as -> by congruence.
    destruct Hb as [[_ ->]|(_&->&?)]; auto.
  - intros k c Hc. destruct (W9 k c Hc) as [Hk Hr]. split; [done|]. by apply ready_app.
  - by apply answered_app.
Qed.

Lemma wired_number r : wired Quiet r -> wired Quiet (take_number r).
Proof.
  intros [W1 W2 W3 W4 W5 W6 W7 W8 W9 W10]. split; try done; cbn.
  - intros id s Hs. apply W2 in Hs. lia.
  - intros s Hs. apply W3 in Hs. lia.
Qed.

(** *** The others *)
Lemma wp_host_same {A} E (m : M H A) (Q : result A -> State -> Prop) r :
  (forall x r', same_wires r r' -> Q x r') -> wp E (on_host m) Q r.
Proof. intros HQ. apply wp_zoom, wp_any. intros x v. by apply HQ. Qed.

Lemma wp_library_same {A} E (m : M X A) (Q : result A -> State -> Prop) r :
  (forall x r', same_wires r r' -> Q x r') -> wp E (on_library m) Q r.
Proof. intros HQ. apply wp_zoom, wp_any. intros x v. by apply HQ. Qed.

Lemma wp_host_part {A} b E (m : M H A) (Q : result A -> State -> Prop) r : wired b r ->
  (forall x r', wired b r' -> stirred r r' -> Q x r') -> wp E (on_host m) Q r.
Proof. intros W HQ. apply wp_host_same. intros x r' Hs. apply HQ; [by eapply wired_same|by apply stirred_same]. Qed.

Lemma wp_library_part {A} b E (m : M X A) (Q : result A -> State -> Prop) r : wired b r ->
  (forall x r', wired b r' -> stirred r r' -> Q x r') -> wp E (on_library m) Q r.
Proof. intros W HQ. apply wp_library_same. intros x r' Hs. apply HQ; [by eapply wired_same|by apply stirred_same]. Qed.

Lemma wp_update E id f (Q : result unit -> State -> Prop) r :
  Q (Ok tt) (set_states (<[id := f (state_of id r)]> (rg_states r)) r) -> wp E (update_state id f) Q r.
Proof. intros HQ. unfold update_state. by apply wp_modify. Qed.

Lemma has_state b id m r : wired b r -> rg_manifests r !! id = Some m -> is_Some (rg_states r !! id).
Proof. intros W Hm. pose proof (wi_filed b r W id) as Hf. rewrite Hm in Hf. by destruct (rg_states r !! id). Qed.

Lemma may_call_Ok (r : State) id name s : may_call r id name = Ok s <->
  rg_sessions r !! id = Some s /\ ss_Status (state_of id r) = StatusHealthy /\
  exists t, t ∈ ss_Tools (state_of id r) /\ to_Name t = name.
Proof.
  unfold may_call. destruct (rg_sessions r !! id) as [s'|]; [|by split; [|intros [? _]]].
  rewrite !fail_if_ok, !negb_false_iff, String.eqb_eq, existsb_exists. split.
  - intros (Hst&(t&Ht&Hn%String.eqb_eq)&[= ->]). repeat split; [done|]. exists t. by rewrite list_elem_of_In.
  - intros ([= ->]&Hst&t&Ht&Hn). repeat split; [done|]. exists t. rewrite <- list_elem_of_In. split; [done|by apply String.eqb_eq].
Qed.

Lemma answered_asked b r k : wired b r -> (rg_asked r <= k)%nat -> unsent k (rg_log r).
Proof.
  intros W Hk id s name Hin. apply list_elem_of_split in Hin as (l1&l2&Hl). pose proof (wi_answered b r W) as Ha.
  destruct (Ha _ _ _ _ _ _ Hl) as [Hu%looked_up_in _]. assert (Hin : LookedUp k id s name ∈ rg_log r) by (rewrite Hl; set_solver).
  apply (wi_looked b r W) in Hin as [? _]. lia.
Qed.

(** A session found in the map is the one in use. *)
Lemma found_in_use b r id s name : wired b r -> b <> Ending -> may_call r id name = Ok s -> in_use id s name (rg_log r).
Proof.
  intros W Hb (Hs&Hst&t&Ht&Hn)%may_call_Ok. destruct (wi_tools b r W id s Hs) as (names&[Hl Hr]&Hin). split; [|split; [done|split]].
  - exists names. split; [done|]. rewrite <- Hn. by apply Hin.
  - by apply (wi_open b r W id s Hs).
  - by apply (wi_dying b r W id s).
Qed.

Lemma wp_look_up b E id name arguments r (Q : result PendingCall -> State -> Prop) : wired b r -> b <> Ending ->
  (forall e, Q (Err e) r) ->
  (forall c r', wired b r' -> stirred r r' -> pc_number c = rg_asked r -> ready c (rg_log r') ->
    rg_calls r' = rg_calls r -> rg_asked r' = S (rg_asked r) -> Q (Ok c) r') ->
  wp E (look_up id name arguments) Q r.
Proof.
  intros W Hb Herr Hok. unfold look_up. wp_step. wp_step. wp_step. apply wp_lift. destruct (may_call r id name) as [s|e] eqn:Hm; [|apply Herr].
  pose proof (found_in_use b r id s name W Hb Hm) as Hu. pose proof (answered_asked b r (rg_asked r) W (le_n _)) as Hfresh.
  apply may_call_Ok in Hm as (Hs&_). wp_step. wp_step. cbn beta iota. wp_step. set (r' := note _ _). apply Hok; try done.
  - destruct W as [W1 W2 W3 W4 W5 W6 W7 W8 W9 W10]. split; cbn; try done.
    + intros s' [[?|[=]]%in_snoc|[?|[=]]%in_snoc]; auto.
    + intros id' s' Hs'. destruct (W5 id' s' Hs') as [Wr Wc]. split; intros [?|[=]]%in_snoc; auto.
    + intros id' s' Hb' Hs' Hst [Hc|[=]]%in_snoc. apply dying_app; [by repeat constructor|]. by apply (W6 id' s').
    + intros id' s' Hs'. destruct (W7 id' s' Hs') as (n&Hl&Ht). exists n. split; [set_solver|done].
    + intros k id' s' name' [Hin|[= -> -> -> ->]]%in_snoc; [|by auto]. destruct (W8 _ _ _ _ Hin) as [Hk Hor]. split; [lia|].
      destruct Hor as [?|[?|?]]; [by left|right; left; set_solver|by right; right].
    + intros k c Hc. destruct (W9 k c Hc) as [Hk Hr]. split; [done|]. by apply ready_app.
    + by apply answered_app.
  - split_and!; try done; [cbn; lia|]. exists [LookedUp (rg_asked r) id s name]. split; [done|]. split; [by repeat constructor|].
    intros k Hk Hn. split; [done|]. intros id' s' name' Hin%list_elem_of_singleton. done.
  - split; cbn; [by exists (rg_log r), []|]. by apply unsent_app.
Qed.

Lemma wired_calls b calls r : wired b r -> (forall k c, calls !! k = Some c -> pc_number c = k /\ ready c (rg_log r)) ->
  wired b (set_calls calls r).
Proof. intros [W1 W2 W3 W4 W5 W6 W7 W8 W9 W10] Hc. by split. Qed.

Lemma wired_called b c r : wired b r -> ready c (rg_log r) -> rg_calls r !! pc_number c = None ->
  wired b (note (Called (pc_number c) (pc_ServerID c) (pc_session c) (pc_name c)) r).
Proof.
  intros [W1 W2 W3 W4 W5 W6 W7 W8 W9 W10] Hr Hn. split; cbn; try done.
  - intros s' [[?|[=]]%in_snoc|[?|[=]]%in_snoc]; auto.
  - intros id' s' Hs'. destruct (W5 id' s' Hs') as [Wr Wc]. split; intros [?|[=]]%in_snoc; auto.
  - intros id' s' Hb' Hs' Hst [Hc|[=]]%in_snoc. apply dying_app; [by repeat constructor|]. by apply (W6 id' s').
  - intros id' s' Hs'. destruct (W7 id' s' Hs') as (n&Hl&Ht). exists n. split; [set_solver|done].
  - intros k id' s' name' [Hin|[=]]%in_snoc. destruct (W8 _ _ _ _ Hin) as [Hk Hor]. split; [lia|].
    destruct Hor as [?|[?|?]]; [by left|right; left; set_solver|by right; right].
  - intros k c' Hc. destruct (W9 k c' Hc) as [Hk Hr']. split; [done|]. apply ready_app; [done|]. intros id s name [= Heq _ _ _].
    rewrite Heq, Hk in Hn. congruence.
  - apply answered_app; [done|]. intros k id s name [= <- <- <- <-]. exact Hr.
Qed.

Lemma wp_send_call b E c r (Q : result CallToolResult -> State -> Prop) : wired b r -> ready c (rg_log r) -> rg_calls r !! pc_number c = None ->
  (forall x r', wired b r' -> same_wires (note (Called (pc_number c) (pc_ServerID c) (pc_session c) (pc_name c)) r) r' -> Q x r') ->
  wp E (send_call c) Q r.
Proof.
  intros W Hr Hn HQ. unfold send_call. wp_step. wp_step. cbn beta iota. apply wp_library_same. intros x r' Hs.
  apply HQ; [|done]. eapply wired_same; [exact Hs|]. by apply wired_called.
Qed.

Lemma wp_set_flag b E id enabled r (Q : result unit -> State -> Prop) : wired b r ->
  (forall x r', wired b r' -> stirred r r' ->
     (forall m, rg_manifests r !! id = Some m -> rg_manifests r' !! id = Some (with_enabled enabled m)) -> Q x r') ->
  wp E (set_flag id enabled) Q r.
Proof.
  intros W HQ. unfold set_flag. wp_step. wp_step. destruct (rg_manifests r !! id) as [m|] eqn:Hm; [|by apply wp_throw, HQ].
  cbv zeta. wp_step. wp_step. cbn beta iota. apply wp_update.
  destruct W as [W1 W2 W3 W4 W5 W6 W7 W8 W9 W10]. pose proof (W1 id) as Hf. rewrite Hm in Hf.
  destruct (rg_states r !! id) as [old|] eqn:Hold; [|done]. destruct Hf as [Hmf _].
  apply HQ; [split; try done|split_and!; try done|].
  - intros id'. cbn. specialize (W1 id'). destruct (base.decide (id = id')) as [<-|Hne]; [by rewrite !lookup_insert_eq|by rewrite !lookup_insert_ne].
  - intros id' s Hb Hs. rewrite state_of_insert. cbn. destruct (base.decide (id = id')) as [<-|Hne]; by apply W6.
  - intros id' s Hs. destruct (W7 id' s Hs) as (names&Hl&Ht). exists names. split; [exact Hl|].
    rewrite state_of_insert. destruct (base.decide (id = id')) as [<-|Hne]; exact Ht.
  - intros id'. rewrite state_of_insert. destruct (base.decide (id = id')) as [<-|Hne]; done.
  - intros id' Hid. cbn. destruct (base.decide (id = id')) as [<-|Hne]; [rewrite lookup_insert_eq; by eexists|by rewrite lookup_insert_ne].
  - exists []. rewrite app_nil_r. split; [done|]. split; [constructor|]. intros k _ Hn. split; [done|]. intros ? ? ? Hin. by apply elem_of_nil in Hin.
  - intros m' [= <-]. cbn. by rewrite lookup_insert_eq.
Qed.

(** What is true between any two steps of an operation stays true when the
    others run. *)
Lemma wp_interfere b E a r (Q : result unit -> State -> Prop) : wired b r -> (b = Ending -> needs_no_lock a = true) ->
  (forall r', wired b r' -> stirred r r' -> Q (Ok tt) r') -> wp E (interfere a) Q r.
Proof.
  intros W Hb HQ. destruct a as [id name arguments|k|id enabled]; cbn [interfere].
  - assert (Hne : b <> Ending) by (intros ->; by discriminate Hb). wp_step. wp_step. apply (wp_look_up b); [done|done| |].
    + intros e. cbn beta iota. wp_step. by apply HQ.
    + intros c r' W' S' Hk Hr Hcalls Hasked. cbn beta iota. wp_step. apply HQ.
      * apply wired_calls; [done|]. intros k c' [[<- <-]|[_ Hc]]%lookup_insert_Some; [done|by apply (wi_calls b r' W')].
      * destruct S' as (Ess&En&Et&Ei&Ea&ev&El&Fe&Ce). split_and!; try done. exists ev. split_and!; try done. intros k Hk' Hn.
        destruct (Ce k Hk' Hn) as [Hn' U]. split; [|done]. cbn. rewrite lookup_insert_ne; [done|]. rewrite Hk. lia.
  - wp_step. wp_step. destruct (rg_calls r !! k) as [c|] eqn:Hc; [|by apply wp_ret, HQ].
    destruct (wi_calls b r W k c Hc) as [Hk Hr]. wp_step. wp_step. cbn beta iota. wp_step. wp_step.
    apply (wp_send_call b); [|done|by cbn; rewrite Hk, lookup_delete_eq|].
    + apply wired_calls; [done|]. intros k' c' [_ Hc']%lookup_delete_Some. by apply (wi_calls b r W).
    + intros x r' W' (Em&Es&Ess&En&El&Ea&Ec&Eq). cbn beta iota. wp_step. cbn in Em, Es, Ess, En, El, Ea, Ec. apply HQ; [done|].
      unfold stirred, state_of. rewrite Es, Ess, En, Ea, Ec, El. split_and!; try done. eexists. split; [done|]. split; [by repeat constructor|].
      intros k' Hk' Hn. split; [by rewrite lookup_delete_None; right|]. intros id s name [= -> _ _ _]%list_elem_of_singleton. congruence.
  - wp_step. wp_step. apply (wp_set_flag b); [done|]. intros x r' W' S' _. cbn beta iota. wp_step. by apply HQ.
Qed.

Lemma wired_schedule b l r : wired b r -> wired b (set_schedule l r).
Proof. intros []. by split. Qed.

Lemma stirred_schedule l r : stirred r (set_schedule l r).
Proof.
  unfold stirred, state_of. split_and!; try done. exists []. rewrite app_nil_r. repeat split; [constructor|done|].
  intros id s name Hin. by apply elem_of_nil in Hin.
Qed.

Lemma wp_others_if b E allowed r (Q : result unit -> State -> Prop) : wired b r ->
  (b = Ending -> forall a, allowed a = true -> needs_no_lock a = true) ->
  (forall r', wired b r' -> stirred r r' -> Q (Ok tt) r') -> wp E (others_if allowed) Q r.
Proof.
  intros W Hb HQ. unfold others_if. wp_step. wp_step. destruct (rg_schedule r) as [|l later]; [by apply wp_ret, HQ|].
  wp_step. wp_step. cbn beta iota. wp_step.
  assert (Hw : forall l r1, wired b r1 -> (b = Ending -> Forall (fun a => needs_no_lock a = true) l) ->
    wp E (mapM interfere l) (fun x r' => is_ok x = true /\ wired b r' /\ stirred r1 r') r1).
  { clear dependent l. clear later HQ. intros l. induction l as [|a l IH]; intros r1 W1 Hl; cbn [mapM]; [by apply wp_ret|].
    wp_step. apply (wp_interfere b); [done|intros He; by apply Hl, Forall_cons in He as [? _]|]. intros r2 W2 S2.
    cbn beta iota. wp_step. eapply wp_mono; [apply IH; [done|intros He; by apply Hl, Forall_cons in He as [_ ?]]|].
    intros y r3 (Hy&W3&S3). assert (S13 : stirred r1 r3) by by transitivity r2. destruct y; [by apply wp_ret|done]. }
  eapply wp_mono; [apply Hw; [by apply wired_schedule|]|].
  - intros He. apply Forall_forall. intros a [_ Ha]%list_elem_of_In%filter_In. by apply Hb.
  - intros [ys|e] r' (Hy&W'&S'); [|done]. wp_step. apply HQ; [done|]. transitivity (set_schedule later r); [|done]. by apply stirred_schedule.
Qed.

Lemma wp_others b E r (Q : result unit -> State -> Prop) : wired b r -> b <> Ending ->
  (forall r', wired b r' -> stirred r r' -> Q (Ok tt) r') -> wp E others Q r.
Proof. intros W Hb. by apply wp_others_if. Qed.

(** *** What every operation keeps *)
Definition steady (b : business) (P : State -> Prop) : Prop :=
  (forall r, P r -> wired b r) /\ forall r r', wired b r' -> stirred r r' -> P r -> P r'.

Section Steady.
Context (b : business) (P : State -> Prop) (HP : steady b P).

Lemma wp_steady_others E r (Q : result unit -> State -> Prop) : P r -> b <> Ending ->
  (forall r', P r' -> stirred r r' -> Q (Ok tt) r') -> wp E others Q r.
Proof. intros Hr Hb HQ. destruct HP as [Hw Hs]. apply (wp_others b); eauto. Qed.

Lemma wp_steady_host {A} E (m : M H A) r (Q : result A -> State -> Prop) : P r ->
  (forall x r', P r' -> stirred r r' -> Q x r') -> wp E (on_host m) Q r.
Proof. intros Hr HQ. destruct HP as [Hw Hs]. apply (wp_host_part b); eauto. Qed.

Lemma wp_steady_library {A} E (m : M X A) r (Q : result A -> State -> Prop) : P r ->
  (forall x r', P r' -> stirred r r' -> Q x r') -> wp E (on_library m) Q r.
Proof. intros Hr HQ. destruct HP as [Hw Hs]. apply (wp_library_part b); eauto. Qed.
End Steady.

Context (live : bool).

Definition kept_but (b : business) (id : string) (r : State) : Prop := wired b r /\
  (live = true -> forall id', id' <> id -> ss_Status (state_of id' r) = StatusHealthy -> is_Some (rg_sessions r !! id')).

Definition kept (r : State) : Prop := wired Quiet r /\ (live = true -> connected r).

Lemma steady_kept : steady Quiet kept.
Proof.
  split; [by intros r [W _]|]. intros r r' W' S [W C]. split; [done|]. intros Hl. eapply connected_stirred; [exact S|auto].
Qed.

Lemma steady_but b id : steady b (kept_but b id).
Proof.
  split; [by intros r [W _]|]. intros r r' W' (Ess&_&Et&_) [W C]. split; [done|]. intros Hl id'. rewrite Et, Ess. by apply C.
Qed.

Lemma kept_any id r : kept r -> kept_but Quiet id r.
Proof. intros [W C]. split; [done|]. intros Hl id' _. by apply C. Qed.

Lemma known_stirred id r r' : stirred r r' -> is_Some (rg_states r !! id) -> is_Some (rg_states r' !! id).
Proof. intros (_&_&_&Hi&_). apply Hi. Qed.
Lemma session_stirred id r r' : stirred r r' -> rg_sessions r' !! id = rg_sessions r !! id.
Proof. by intros (->&_). Qed.
Lemma status_stirred id r r' : stirred r r' -> ss_Status (state_of id r') = ss_Status (state_of id r).
Proof. intros (_&_&Et&_). apply Et. Qed.

Lemma kept_update id f r : kept_but Quiet id r -> is_Some (rg_states r !! id) ->
  (forall s, ss_Manifest (f s) = ss_Manifest s) -> (forall s, ss_Tools (f s) ⊆ ss_Tools s) ->
  (ss_Status (f (state_of id r)) = StatusHealthy -> is_Some (rg_sessions r !! id)) ->
  kept (set_states (<[id := f (state_of id r)]> (rg_states r)) r).
Proof.
  intros [W C] Hid Hm Ht Hs. split; [by apply wired_update|]. intros Hl id'. rewrite state_of_insert. cbn.
  destruct (base.decide (id = id')) as [<-|Hne]; [exact Hs|]. apply C; [done|by apply not_eq_sym].
Qed.

Lemma wp_since E t (Q : result Z -> State -> Prop) r : (forall d, Q (Ok d) r) -> wp E (since t) Q r.
Proof. intros HQ. unfold since. wp_go. apply HQ. Qed.

Lemma wp_discovery_failed E id started checks a b c e r : kept_but Quiet id r -> is_Some (rg_states r !! id) ->
  wp E (recordDiscoveryFailure id started checks a b c e) (fun _ r' => kept r') r.
Proof.
  intros K [s Hs]. unfold recordDiscoveryFailure. wp_step. wp_step. cbv zeta. wp_step. wp_step. rewrite Hs.
  apply wp_bind, wp_since. intros d1. apply wp_bind, wp_since. intros d2. apply wp_update.
  apply kept_update; [done|by eexists|done|by intros s'|done].
Qed.

Lemma wp_health_failed E id started checks e r : kept_but Quiet id r -> is_Some (rg_states r !! id) ->
  wp E (recordHealthFailure id started checks e) (fun _ r' => kept r') r.
Proof.
  intros K [s Hs]. unfold recordHealthFailure. wp_step. wp_step. cbv zeta. wp_step. wp_step. rewrite Hs.
  apply wp_bind, wp_since. intros d. apply wp_update. apply kept_update; [done|by eexists|done|by intros s'|done].
Qed.

(** A session that the registry does not hold yet. *)
Record opened (id : string) (s : nat) (r : State) : Prop := {
  op_kept : kept r;
  op_state : is_Some (rg_states r !! id);
  op_none : rg_sessions r !! id = None;
  op_number : (s < rg_next r)%nat;
  op_open : Closed s ∉ rg_log r /\ Removed s ∉ rg_log r;
  op_apart : forall id', rg_sessions r !! id' <> Some s
}.

Lemma steady_opened id s : steady Quiet (opened id s).
Proof.
  split; [by intros r [[W _] _ _ _ _ _]|]. intros r r' W' S [O1 O2 O3 O4 [O5 O5'] O6].
  assert (K' : kept r') by (eapply steady_kept; eauto). assert (I' := known_stirred id _ _ S O2).
  destruct S as (Ess&En&_&_&_&ev&El&Fe&_). split; [done|done|by rewrite Ess|by rewrite En| |by rewrite Ess].
  rewrite El, Forall_forall in *. split; intros [?|Hin%Fe]%elem_of_app; done.
Qed.

Lemma wp_close_opened E id s r (Q : result (result unit) -> State -> Prop) : opened id s r ->
  (forall x r', kept r' -> is_Some (rg_states r' !! id) -> Q (Ok x) r') -> wp E (close_session s) Q r.
Proof.
  intros [[W C] O2 O3 O4 O5 O6] HQ. unfold close_session. wp_step. wp_step. wp_step.
  apply (wp_steady_library Quiet kept steady_kept).
  - split; [|exact C]. by apply (wired_closed Quiet); [|left| |].
  - intros x r' K' S'. apply HQ; [done|]. by eapply known_stirred.
Qed.

Lemma wp_discovery_abandoned E id s started checks a b c e e' r : opened id s r ->
  wp E ((close_session s ;;; others ;;; recordDiscoveryFailure id started checks a b c e) ;;; throw (A := unit) e') (fun _ r' => kept r') r.
Proof.
  intros O. wp_step. wp_step. eapply wp_close_opened; [exact O|]. intros x r' K Hid. cbn beta iota. wp_step.
  apply (wp_steady_others Quiet kept steady_kept); [done|done|]. intros r1 K1 S1. cbn beta iota.
  eapply wp_mono; [apply wp_discovery_failed; [by apply kept_any|by eapply known_stirred]|]. intros [[]|?] r2 K2; [by apply wp_throw|done].
Qed.

(** A session whose tools were listed is registered with them. *)
Lemma kept_register id s names f r : opened id s r -> Listed id s names ∈ rg_log r ->
  (forall v, ss_Manifest (f v) = ss_Manifest v) -> (forall v t, t ∈ ss_Tools (f v) -> to_Name t ∈ names) ->
  kept (set_states (<[id := f (state_of id r)]> (rg_states r)) (register id s r)).
Proof.
  intros [[W C] [old Hold] O3 O4 [O5 O5'] O6] Hl Hm Ht. pose proof (closed_not_quiet r) as Hq.
  destruct W as [W1 W2 W3 W4 W5 W6 W7 W8 W9 W10].
  assert (Hnot : forall id' s', <[id := s]> (rg_sessions r) !! id' = Some s' -> Removed s' ∉ rg_log r /\ Closed s' ∉ rg_log r).
  { intros id' s' [[_ <-]|[_ Hs]]%lookup_insert_Some; [done|]. destruct (W5 id' s' Hs) as [? Hc]. split; [done|exact Hc]. }
  split; [split; cbn; try done|].
  - intros id'. cbn. specialize (W1 id'). destruct (base.decide (id = id')) as [<-|Hne]; [|by rewrite lookup_insert_ne].
    rewrite lookup_insert_eq, Hm. rewrite Hold in W1. unfold state_of. by rewrite Hold.
  - intros id' s' [[_ <-]|[_ Hs]]%lookup_insert_Some; [done|by eapply W2].
  - intros s' [[?|[=]]%in_snoc|[?|[=]]%in_snoc]; auto.
  - intros a b s' [[<- <-]|[Ha Hsa]]%lookup_insert_Some [[<- Hb]|[Hb Hsb]]%lookup_insert_Some; [done| | |by eapply W4].
    + by destruct (O6 b).
    + subst s'. by destruct (O6 a).
  - intros id' s' Hs. destruct (Hnot id' s' Hs) as [Hr Hc]. split; [intros [Hin|[=]]%in_snoc; by apply Hr|].
    intros [Hin|[=]]%in_snoc. by apply Hc.
  - intros id' s' _ Hs _ [Hc|[=]]%in_snoc. by destruct (Hnot id' s' Hs).
  - intros id' s' Hs. apply lookup_insert_Some in Hs as [[<- <-]|[Hne Hs]].
    + exists names. split; [set_solver|]. rewrite state_of_insert, decide_True by done. apply Ht.
    + destruct (W7 id' s' Hs) as (n&Hn&Htn). exists n. split; [set_solver|]. rewrite state_of_insert, decide_False by done. exact Htn.
  - intros k id' s' name [Hin|[=]]%in_snoc. destruct (W8 k id' s' name Hin) as [Hk Hor]. split; [done|].
    destruct Hor as [Hs|[?|?]]; [|right; left; set_solver|by right; right].
    left. rewrite lookup_insert_ne; [done|]. intros ->. congruence.
  - intros k c Hc. destruct (W9 k c Hc) as [Hk Hr]. split; [done|]. by apply ready_app.
  - by apply answered_app.
  - intros Hlive id'. rewrite state_of_insert. cbn. destruct (base.decide (id = id')) as [<-|Hne]; [by rewrite lookup_insert_eq|].
    rewrite lookup_insert_ne by done. by apply C.
Qed.

Lemma wp_listTools E id s version r (Q : result (list ToolRecord) -> State -> Prop) : opened id s r ->
  (forall e r', opened id s r' -> Q (Err e) r') ->
  (forall names tools r', opened id s r' -> Listed id s names ∈ rg_log r' -> (forall t, t ∈ tools -> to_Name t ∈ names) -> Q (Ok tools) r') ->
  wp E (listTools s id version) Q r.
Proof.
  intros O Herr Hok. unfold listTools. wp_step. apply (wp_steady_library Quiet _ (steady_opened id s)); [done|].
  intros [tools|e] r1 O1 _; cbn beta iota; [|by apply Herr]. wp_step. wp_step. set (r2 := note _ r1).
  assert (O2 : opened id s r2).
  { destruct O1 as [[W C] P2 P3 P4 [P5 P5'] P6]. split; try done; [split; [by apply wired_note|done]|]. cbn. split; intros [?|[=]]%in_snoc; done. }
  cbn beta iota. wp_step.
  eapply wp_mono; [apply (wp_mapM _ _ _ (fun r => r = r2) (fun rec => to_Name rec ∈ map mt_Name tools)); [|done]|].
  - intros tool r3 Hin ->. wp_step. wp_step. wp_step. split; [done|]. intros rec [= <-]. cbn.
    apply list_elem_of_fmap. eauto.
  - intros [recs|e] r3 [-> Hrecs]; cbn beta iota; [|by apply Herr]. apply wp_ret.
    apply (Hok (map mt_Name tools)); [done|unfold r2; cbn; set_solver|].
    intros t. rewrite merge_sort_Permutation. specialize (Hrecs _ eq_refl). rewrite Forall_forall in Hrecs. apply Hrecs.
Qed.

Lemma wp_finish E id s started checks healthy r : opened id s r ->
  wp E (finish_discovery id s started checks healthy) (fun _ r' => kept r') r.
Proof.
  intros O. unfold finish_discovery. cbv zeta. wp_step. wp_step.
  destruct (InitializeResult (rg_library r) s) as [[[[name version]|] protocol]|];
    [|by apply (wp_discovery_abandoned E id)..].
  destruct (_ || _); [by apply (wp_discovery_abandoned E id)|]. wp_step. wp_step. eapply wp_listTools; [exact O| |].
  - intros e r' O'. cbn beta iota. wp_step. apply (wp_steady_others Quiet _ (steady_opened id s)); [done|done|].
    intros r1 O1 _. cbn beta iota. by apply (wp_discovery_abandoned E id).
  - intros names tools r' O' Hl Ht. cbn beta iota. wp_step. apply (wp_steady_others Quiet _ (steady_opened id s)); [done|done|].
    intros r1 O1 S1. cbn beta iota. wp_step. wp_step. wp_step. wp_step. apply wp_bind, wp_since. intros d1.
    apply wp_bind, wp_since. intros d2. apply wp_update.
    assert (Hl1 : Listed id s names ∈ rg_log r1) by (destruct S1 as (_&_&_&_&_&ev&->&_); set_solver).
    exact (kept_register id s names (discovered name version protocol (toolSetHash tools) healthy checks tools _ d1 d2) r1 O1 Hl1
             (fun _ => eq_refl) (fun _ => Ht)).
Qed.

(** The session of a server is closed and still in the map. *)
Record shut (id : string) (s : nat) (r : State) : Prop := {
  sh_kept : kept_but (Closing id) id r;
  sh_state : is_Some (rg_states r !! id);
  sh_session : rg_sessions r !! id = Some s;
  sh_closed : Closed s ∈ rg_log r
}.

Lemma steady_shut id s : steady (Closing id) (shut id s).
Proof.
  split; [by intros r [[W _] _ _ _]|]. intros r r' W' S [S1 S2 S3 S4]. split.
  - by eapply steady_but.
  - by eapply known_stirred.
  - by rewrite (session_stirred _ _ _ S).
  - destruct S as (_&_&_&_&_&ev&->&_). set_solver.
Qed.

Lemma wp_shut E id s r (Q : result (result unit) -> State -> Prop) : kept r -> is_Some (rg_states r !! id) -> rg_sessions r !! id = Some s ->
  (ss_Status (state_of id r) = StatusHealthy -> dying s (rg_log r ++ [Closed s])) ->
  (forall x r', shut id s r' -> ss_Status (state_of id r') = ss_Status (state_of id r) -> Q (Ok x) r') -> wp E (close_session s) Q r.
Proof.
  intros [W C] Hid Hs Hd HQ. unfold close_session. wp_step. wp_step. wp_step. apply (wp_steady_library _ _ (steady_shut id s)).
  - split; [split|done|done|cbn; set_solver]; [by apply wired_closing|]. intros Hl id' _. by apply C.
  - intros x r' Hsh S. apply HQ; [done|]. exact (status_stirred id _ _ S).
Qed.

Lemma shut_removed id s r : shut id s r -> kept_but Quiet id (remove_session id r) /\ is_Some (rg_states (remove_session id r) !! id) /\
  rg_sessions (remove_session id r) !! id = None /\ state_of id (remove_session id r) = state_of id r.
Proof.
  intros [[W C] S2 S3 S4]. assert (W' : wired Quiet (remove_session id r)) by (apply (wired_removed (Closing id) Quiet id s); auto).
  revert W'. unfold remove_session. rewrite S3. intros W'. split_and!; [split; [done|]|done|apply lookup_delete_eq|done].
  intros Hl id' Hne. unfold state_of. cbn. rewrite lookup_delete_ne by done. by apply C.
Qed.

Lemma kept_unhealthy id r : kept_but Quiet id r -> ss_Status (state_of id r) <> StatusHealthy -> kept r.
Proof. intros [W C] Hst. split; [done|]. intros Hl id' Hh. destruct (base.decide (id' = id)) as [->|Hne]; [done|by apply C]. Qed.

(** The server is marked as starting and the session it had is closed. *)
Lemma wp_restarted E id m r (k : unit -> Reg unit) (Q : result unit -> State -> Prop) :
  kept r -> rg_manifests r !! id = Some m ->
  (forall r', kept r' -> is_Some (rg_states r' !! id) -> rg_sessions r' !! id = None -> wp E (k tt) Q r') ->
  wp E (update_state id starting ;;; others ;;;
      (match rg_sessions r !! id with Some old => close_session old ;;; ret tt | None => ret tt end) ;;; others ;;;
      bind (modify (remove_session id)) k) Q r.
Proof.
  intros K Hm HQ. pose proof (has_state _ _ _ _ (proj1 K) Hm) as Hid. apply wp_bind, wp_update. cbn beta iota.
  set (r1 := set_states _ r).
  assert (K1 : kept r1) by (apply kept_update; [by apply kept_any|done|done|by intros s|done]).
  assert (Hid1 : is_Some (rg_states r1 !! id)) by (unfold r1; cbn; rewrite lookup_insert_eq; by eexists).
  assert (Hst : ss_Status (state_of id r1) <> StatusHealthy) by (unfold r1; by rewrite state_of_insert, decide_True).
  change (rg_sessions r !! id) with (rg_sessions r1 !! id). clearbody r1. clear dependent r. wp_step.
  apply (wp_steady_others _ _ steady_kept); [done|done|]. intros r2 K2 S2. cbn beta iota.
  rewrite <- (session_stirred id _ _ S2). rewrite <- (status_stirred id _ _ S2) in Hst. pose proof (known_stirred id _ _ S2 Hid1) as Hid2.
  clear dependent r1. wp_step. destruct (rg_sessions r2 !! id) as [old|] eqn:Hold.
  - wp_step. apply (wp_shut E id old); [done|done|done|done|]. intros x r3 Hsh Hst3. cbn beta iota. wp_step. cbn beta iota. wp_step.
    apply (wp_steady_others _ _ (steady_shut id old)); [done|done|]. intros r4 Hsh4 S4. cbn beta iota. wp_step. wp_step. cbn beta iota.
    destruct (shut_removed _ _ _ Hsh4) as (K5&Hid5&Hn5&Hst5). apply HQ; [|done|done]. apply (kept_unhealthy id); [done|].
    by rewrite Hst5, (status_stirred id _ _ S4), Hst3.
  - wp_step. cbn beta iota. wp_step. apply (wp_steady_others _ _ steady_kept); [done|done|]. intros r3 K3 S3. cbn beta iota.
    assert (Hn3 : rg_sessions r3 !! id = None) by by rewrite (session_stirred _ _ _ S3). wp_step. wp_step. cbn beta iota.
    assert (Hr : remove_session id r3 = r3) by by unfold remove_session; rewrite Hn3. rewrite Hr. apply HQ; [done|by eapply known_stirred|done].
Qed.

Definition keeps {A} (m : Reg A) : Prop := forall E r, kept r -> wp E m (fun _ r' => kept r') r.

Lemma keeps_Discover id : keeps (Discover id).
Proof.
  intros E r K. unfold Discover. wp_step. wp_step. cbn beta iota. wp_step. wp_step.
  destruct (rg_manifests r !! id) as [m|] eqn:Hm; [|by apply wp_throw]. destruct (negb _); [by apply wp_throw|].
  eapply wp_restarted; [done|done|]. intros r1 K1 Hid1 Hn1. cbn beta iota. wp_step.
  set (P := fun r' => kept r' /\ is_Some (rg_states r' !! id) /\ rg_sessions r' !! id = None).
  assert (HP : steady Quiet P).
  { split; [by intros r' [[W _] _]|]. intros r' r'' W S (K'&Hid'&Hn'). split_and!; [by eapply steady_kept|by eapply known_stirred|].
    by rewrite (session_stirred _ _ _ S). }
  assert (P1 : P r1) by done. clear dependent r K1 Hid1 Hn1.
  apply (wp_steady_others _ _ HP); [done|done|]. intros r2 P2 _. cbn beta iota. wp_step. wp_step. wp_step.
  apply (wp_steady_host _ _ HP); [done|]. intros x r3 P3 _. destruct x as [[checks healthy]|e]; [|apply P3]. cbn beta iota. wp_step.
  apply (wp_steady_others _ _ HP); [done|done|]. intros r4 P4 _. cbn beta iota. destruct (dependencyFailure checks) as [e|].
  - wp_step. destruct P4 as (K4&Hid4&_). eapply wp_mono; [apply wp_discovery_failed; [by apply kept_any|done]|].
    intros [[]|?] r5 K5; [by apply wp_throw|done].
  - wp_step. wp_step. cbv zeta. wp_step. wp_step. wp_step. wp_step.
    assert (O : opened id (rg_next r4) (take_number r4)).
    { destruct P4 as ([W4 C4]&Hid4&Hn4). split; try done.
      - split; [by apply wired_number|done].
      - cbn. lia.
      - split; intros Hc; [assert ((rg_next r4 < rg_next r4)%nat); [|lia]; apply (wi_gone _ _ W4); by left|].
        assert ((rg_next r4 < rg_next r4)%nat); [|lia]. apply (wi_gone _ _ W4). by right.
      - intros id' Hs'%(wi_numbers _ _ W4). lia. }
    apply (wp_steady_library _ _ (steady_opened id (rg_next r4))); [done|]. intros x r5 O5 _. cbn beta iota. wp_step.
    apply (wp_steady_others _ _ (steady_opened id (rg_next r4))); [done|done|]. intros r6 O6 _. cbn beta iota.
    destruct x as [[]|e]; [by apply wp_finish|]. wp_step.
    eapply wp_mono; [apply wp_discovery_failed; [by apply kept_any, (op_kept _ _ _ O6)|by eapply op_state]|].
    intros [[]|?] r7 K7; [by apply wp_throw|done].
Qed.

Lemma keeps_set_flag id enabled : keeps (set_flag id enabled).
Proof.
  intros E r K. apply (wp_set_flag Quiet); [apply K|]. intros x r' W' S' _. by eapply steady_kept.
Qed.

Lemma keeps_interfere a : keeps (interfere a).
Proof. intros E r K. apply (wp_interfere Quiet); [apply K|done|]. intros r' W' S'. by eapply steady_kept. Qed.

Lemma keeps_others : keeps others.
Proof. intros E r K. by apply (wp_steady_others _ _ steady_kept). Qed.

Lemma fresh_call b r : wired b r -> rg_calls r !! rg_asked r = None.
Proof.
  intros W. destruct (rg_calls r !! rg_asked r) as [c|] eqn:Hc; [|done]. destruct (wi_calls b r W _ _ Hc) as [Hk [Hl%looked_up_in _]].
  apply (wi_looked b r W) in Hl as [Hlt _]. rewrite Hk in Hlt. lia.
Qed.

Lemma keeps_CallTool id name arguments : keeps (CallTool id name arguments).
Proof.
  intros E r K. unfold CallTool. wp_step. apply (wp_look_up Quiet); [apply K|done|done|]. intros c r1 W1 S1 Hk Hr Hcalls Hasked.
  cbn beta iota. wp_step. assert (K1 : kept r1) by by eapply steady_kept.
  assert (Hn : rg_calls r1 !! pc_number c = None) by (rewrite Hcalls, Hk; by apply (fresh_call Quiet), K).
  apply (wp_steady_others _ _ steady_kept); [done|done|]. intros r2 K2 S2. cbn beta iota.
  pose proof S2 as (_&_&_&_&_&ev&El&_&Hev). destruct (Hev (pc_number c)) as [Hn2 Hu2]; [lia|done|].
  apply (wp_send_call Quiet); [apply K2| |done|].
  - rewrite El. destruct Hr as [Hl Hu]. split; [by apply looked_up_app|]. intros ? ? ? [?|?]%elem_of_app; [by eapply Hu|by eapply Hu2].
  - intros x r3 W3 Hs3. split; [done|]. intros Hl. destruct K2 as [_ C2]. destruct Hs3 as (_&Es&Ess&_). intros id'. unfold state_of.
    rewrite Es, Ess. by apply C2.
Qed.

Lemma keeps_disconnect E id m r : kept r -> rg_manifests r !! id = Some m -> wp E (disconnect id) (fun _ r' => kept r') r.
Proof.
  intros [W C] Hm. pose proof (has_state _ _ _ _ W Hm) as Hid. unfold disconnect.
  wp_step. wp_step. wp_step. wp_step. wp_step. wp_step. cbn beta iota. set (r1 := remove_session id r).
  apply wp_bind, wp_update. cbn beta iota. set (r2 := set_states _ r1). wp_step.
  assert (Hst : forall r' : State, ss_Status (state_of id r') = ss_Status (state_of id r2) -> ss_Status (state_of id r') <> StatusHealthy).
  { intros r' ->. unfold r2. by rewrite state_of_insert, decide_True. }
  assert (Hc2 : live = true -> forall id', id' <> id -> ss_Status (state_of id' r2) = StatusHealthy -> is_Some (rg_sessions r2 !! id')).
  { intros Hl id' Hne. unfold r2, r1. rewrite state_of_insert, decide_False by done. cbn. unfold remove_session.
    destruct (rg_sessions r !! id) eqn:Hs; cbn; [rewrite lookup_delete_ne by done|]; by apply C. }
  destruct (rg_sessions r !! id) as [s|] eqn:Hs.
  - assert (W2 : wired (Leaving s) r2).
    { apply wired_update; [|unfold r1, remove_session; by rewrite Hs|done|by intros v t Ht%elem_of_nil|done].
      apply (wired_removed Quiet (Leaving s) id s); [done|done|by left]. }
    assert (Hn2 : forall id', rg_sessions r2 !! id' <> Some s /\ (s < rg_next r2)%nat).
    { intros id'. unfold r2, r1, remove_session. rewrite Hs. cbn. split; [|by apply (wi_numbers _ _ W id)].
      intros [Hne Hs']%lookup_delete_Some. apply Hne. by apply (wi_apart _ _ W id id' s). }
    apply (wp_others (Leaving s)); [done|done|]. intros r3 W3 S3. cbn beta iota. wp_step. unfold close_session. wp_step. wp_step. wp_step.
    assert (K3 : kept (note (Closed s) r3)).
    { split.
      - apply (wired_closed (Leaving s)); [done|by right| |]; destruct S3 as (Ess&En&_); [rewrite En; by apply (Hn2 id)|].
        intros id'. rewrite Ess. by apply Hn2.
      - intros Hl id' Hh. cbn. rewrite (session_stirred _ _ _ S3). apply Hc2; [done| |by rewrite <- (status_stirred _ _ _ S3)].
        intros ->. revert Hh. by apply Hst, (status_stirred _ _ _ S3). }
    apply (wp_steady_library _ _ steady_kept); [done|]. intros x r4 K4 _. cbn beta iota. by apply wp_lift.
  - assert (K2 : kept r2).
    { unfold r2, r1, remove_session. rewrite Hs. apply kept_update; [by apply kept_any|done|done|by intros v t Ht%elem_of_nil|done]. }
    apply (wp_steady_others _ _ steady_kept); [done|done|]. intros r3 K3 _. cbn beta iota. by apply wp_ret.
Qed.

(** The health check found the session dead: it is closed, and then taken
    from the map. *)
Lemma wp_dead E id s started checks e r : kept (note (PingFailed s) r) -> is_Some (rg_states r !! id) -> rg_sessions r !! id = Some s ->
  wp E (close_session s ;;; others ;;;
    modify (fun r => if base.decide (rg_sessions r !! id = Some s) then remove_session id r else r) ;;; others ;;;
    recordHealthFailure id started checks e ;;; throw (A := unit) e) (fun _ r' => kept r') (note (PingFailed s) r).
Proof.
  intros K Hid Hs. wp_step. apply (wp_shut E id s); [done|done|done| |].
  { intros _. exists (rg_log r), [Closed s]. cbn. rewrite <- app_assoc. split; [done|]. constructor; [by right|constructor]. }
  intros x r1 Hsh1 _. cbn beta iota. wp_step. apply (wp_steady_others _ _ (steady_shut id s)); [done|done|].
  intros r2 Hsh2 _. cbn beta iota. wp_step. wp_step. cbn beta iota. rewrite decide_True by apply Hsh2.
  destruct (shut_removed _ _ _ Hsh2) as (K3&Hid3&Hn3&_). wp_step.
  apply (wp_steady_others _ _ (steady_but Quiet id)); [done|done|]. intros r4 K4 S4. cbn beta iota. wp_step.
  eapply wp_mono; [apply wp_health_failed; [done|by eapply known_stirred]|]. intros [[]|?] r5 K5; [by apply wp_throw|done].
Qed.

Lemma keeps_Health id : keeps (Health id).
Proof.
  intros E r K. unfold Health. wp_step. wp_step. cbn beta iota. wp_step. wp_step.
  destruct (rg_manifests r !! id) as [m|] eqn:Hm; [|by apply wp_throw]. destruct (negb _); [by apply wp_throw|].
  pose proof (has_state _ _ _ _ (proj1 K) Hm) as Hid. wp_step.
  set (P := fun r' => kept r' /\ is_Some (rg_states r' !! id) /\ rg_sessions r' !! id = rg_sessions r !! id).
  assert (HP : steady Quiet P).
  { split; [by intros r' [[W _] _]|]. intros r' r'' W S (K'&Hid'&Hn'). split_and!; [by eapply steady_kept|by eapply known_stirred|].
    by rewrite (session_stirred _ _ _ S). }
  assert (P0 : P r) by done. apply (wp_steady_others _ _ HP); [done|done|]. intros r1 P1 _. cbn beta iota. wp_step. wp_step. wp_step.
  apply (wp_steady_host _ _ HP); [done|]. intros x r2 P2 _. destruct x as [[checks healthy]|e]; [|apply P2]. cbn beta iota. wp_step.
  apply (wp_steady_others _ _ HP); [done|done|]. intros r3 P3 _. cbn beta iota.
  assert (Hfail : forall e, wp E (recordHealthFailure id (clock E n) checks e ;;; throw (A := unit) e) (fun _ r' => kept r') r3).
  { intros e. destruct P3 as (K3&Hid3&_). wp_step. eapply wp_mono; [apply wp_health_failed; [by apply kept_any|done]|].
    intros [[]|?] r4 K4; [by apply wp_throw|done]. }
  destruct (dependencyFailure checks) as [e|]; [apply Hfail|]. destruct (rg_sessions r !! id) as [s|]; [|apply Hfail].
  wp_step. wp_step. apply (wp_steady_library _ _ HP); [done|]. intros x r4 P4 _. cbn beta iota. wp_step.
  apply (wp_steady_others _ _ HP); [done|done|]. intros r5 (K5&Hid5&Hs5) _. cbn beta iota.
  destruct x as [[]|e]; cbn beta iota.
  - wp_step. wp_step. apply wp_bind, wp_since. intros d. apply wp_update. apply kept_update; [by apply kept_any|done|done|by intros v|].
    intros _. by exists s.
  - wp_step. wp_step. cbn beta iota.
    assert (K6 : kept (note (PingFailed s) r5)) by (destruct K5 as [W5 C5]; split; [by apply wired_note|done]).
    wp_step. wp_step. apply wp_ctx_check; [by apply wp_dead|]. intros no. cbn beta iota. destruct no; try by apply wp_dead. by apply wp_throw.
Qed.

Lemma keeps_check_each ids : keeps (check_each ids).
Proof.
  induction ids as [|id ids IH]; intros E r K; cbn [check_each]; [by apply wp_ret|].
  wp_step. wp_step. apply wp_ctx_check; [|intros no; by apply wp_ret]. cbn beta iota. wp_step.
  eapply wp_mono; [by apply keeps_others|]. intros [[]|e] r0 K0; [|done]. wp_step. wp_step. wp_step.
  eapply wp_mono; [by apply keeps_others|]. intros [[]|e] r1 K1; [|done]. wp_step. wp_step.
  assert (Hc : wp E (match rg_sessions r0 !! id with None => Discover id | Some _ => Health id end) (fun _ r' => kept r') r1).
  { destruct (rg_sessions r0 !! id); [by apply keeps_Health|by apply keeps_Discover]. }
  eapply wp_mono; [exact Hc|]. intros x r2 K2. cbn beta iota. wp_step.
  eapply wp_mono; [by apply IH|]. intros [errs|e] r3 K3; [by apply wp_ret|done].
Qed.

Lemma keeps_joined errs : keeps (joined errs).
Proof. intros E r K. unfold joined. destruct (errors_join_list errs); [by apply wp_throw|by apply wp_ret]. Qed.

Lemma keeps_CheckAll timeout : keeps (CheckAll timeout).
Proof.
  intros E r K. unfold CheckAll. destruct (timeout <=? 0); [by apply wp_throw|]. wp_step. wp_step. wp_step.
  eapply wp_mono; [by apply keeps_check_each|]. intros [errs|e] r1 K1; [by apply keeps_joined|done].
Qed.

Lemma keeps_discover_each ids : keeps (discover_each ids).
Proof.
  induction ids as [|id ids IH]; intros E r K; cbn [discover_each]; [by apply wp_ret|].
  wp_step. eapply wp_mono; [by apply keeps_others|]. intros [[]|e] r0 K0; [|done].
  wp_step. wp_step. eapply wp_mono; [by apply keeps_Discover|]. intros x r1 K1. cbn beta iota. wp_step.
  eapply wp_mono; [by apply IH|]. intros [errs|e] r2 K2; [by apply wp_ret|done].
Qed.

Lemma keeps_Start : keeps Start.
Proof.
  intros E r K. unfold Start. wp_step. wp_step. wp_step.
  eapply wp_mono; [by apply keeps_discover_each|]. intros [errs|e] r1 K1; [by apply keeps_joined|done].
Qed.

(** Closing everything at the end of the process: whatever is closed stays
    so, and the sessions that were open are closed. *)
Lemma wp_close_each E sessions r : wired Ending r -> Forall (fun s => (s.2 < rg_next r)%nat) sessions ->
  wp E (close_each sessions) (fun x r' => is_ok x = true /\ wired Ending r' /\ rg_sessions r' = rg_sessions r /\
    forall s, Closed s ∈ rg_log r \/ s ∈ sessions.*2 -> Closed s ∈ rg_log r') r.
Proof.
  revert r. induction sessions as [|[id s] sessions IH]; intros r W Hs; cbn [close_each].
  { apply wp_ret. split_and!; try done. by intros s [?|?%elem_of_nil]. }
  apply Forall_cons in Hs as [Hs Hrest]. cbn in Hs. unfold close_session. wp_step. wp_step. wp_step. wp_step.
  apply (wp_library_part Ending); [by apply wired_ending|]. intros x r1 W1 S1. cbn beta iota. wp_step.
  apply (wp_others_if Ending); [done|done|]. intros r2 W2 S2. cbn beta iota. wp_step.
  assert (S : stirred (note (Closed s) r) r2) by by transitivity r1. destruct S as (Ess&En&_&_&_&ev&El&_). cbn in Ess, En, El.
  eapply wp_mono; [apply IH; [done|by rewrite En]|]. intros [errs|e] r3 (Hok&W3&Ess3&Hc3); [|done]. apply wp_ret.
  split_and!; [done|done|congruence|]. intros s' Hs'. apply Hc3. rewrite El. cbn in Hs'. rewrite elem_of_cons in Hs'.
  destruct Hs' as [?|[->|?]]; [left; set_solver..|by right].
Qed.

Lemma wired_all r : wired Quiet r -> wired Ending r.
Proof.
  intros [W1 W2 W3 W4 W5 W6 W7 W8 W9 W10]. split; try done.
  - intros id s Hs. split; [by apply (W5 id s)|done].
  - intros k id s name Hin. destruct (W8 k id s name Hin) as [Hk Hor]. split; [done|]. destruct Hor as [?|[?|[=]]]; auto.
Qed.

Lemma wired_forgotten r : wired Ending r -> (forall id s, rg_sessions r !! id = Some s -> Closed s ∈ rg_log r) -> wired Quiet (forget_sessions r).
Proof.
  intros W Hc. unfold forget_sessions.
  assert (Hl : Forall (fun x => (x.2 < rg_next r)%nat) (map_to_list (rg_sessions r))).
  { apply Forall_forall. intros [id s] Hin. apply elem_of_map_to_list in Hin. by apply (wi_numbers _ _ W id). }
  assert (W0 : wired Quiet (set_sessions ∅ r)).
  { destruct W as [W1 W2 W3 W4 W5 W6 W7 W8 W9 W10]. split; cbn; try done. intros k id s name Hin. destruct (W8 k id s name Hin) as [Hk Hor].
    split; [done|]. right. left. destruct Hor as [?|[?|[=]]]; [by eapply Hc|done]. }
  induction (map_to_list (rg_sessions r)) as [|[id s] l IH]; cbn [foldr]; [done|]. apply Forall_cons in Hl as [Hs Hl]. specialize (IH Hl).
  set (r' := foldr _ _ _) in *. assert (E' : rg_next r' = rg_next r /\ rg_sessions r' = ∅).
  { unfold r'. clear. induction l as [|x l IH]; cbn; [done|exact IH]. }
  destruct E' as [En Ess]. destruct IH as [W1 W2 W3 W4 W5 W6 W7 W8 W9 W10]. split; cbn; try done.
  - intros s' [[?|[=]]%in_snoc|[?|[= ->]]%in_snoc]; auto. by rewrite En.
  - intros id' s'. by rewrite Ess.
  - intros id' s' _. by rewrite Ess.
  - intros id' s'. by rewrite Ess.
  - intros k id' s' name [Hin|[=]]%in_snoc. destruct (W8 _ _ _ _ Hin) as [Hk Hor]. split; [done|].
    destruct Hor as [?|[?|?]]; [by left|right; left; set_solver|by right; right].
  - intros k c Hck. destruct (W9 k c Hck) as [Hk Hr]. split; [done|]. by apply ready_app.
  - by apply answered_app.
Qed.

Lemma wp_Close E r : wired Quiet r -> wp E Close (fun _ r' => wired Quiet r') r.
Proof.
  intros W. unfold Close. wp_step. wp_step. wp_step.
  eapply wp_mono; [apply wp_close_each; [by apply wired_all|]|].
  - apply Forall_forall. intros [id s] Hin. apply elem_of_map_to_list in Hin. by apply (wi_numbers _ _ W id).
  - intros [errs|e] r1 (Hok&W1&Ess&Hc); [|done]. wp_step. wp_step. cbn beta iota.
    assert (W2 : wired Quiet (forget_sessions r1)).
    { apply wired_forgotten; [done|]. intros id s Hs. apply Hc. right. rewrite Ess in Hs. apply list_elem_of_fmap. exists (id, s).
      split; [done|]. by apply elem_of_map_to_list. }
    unfold joined. destruct (errors_join_list errs); [by apply wp_throw|by apply wp_ret].
Qed.
End Histories.

(** ** What no operation breaks
    A relation between the states before and after that holds of the small
    steps holds of the operations. *)
Section Walks.
Context {H X : Type} `{Machine H} `{PathLookup H} `{McpLibrary X}.

Abbreviation Reg A := (M (Registry H X) A).
Abbreviation State := (Registry H X).

Record leaves (R : State -> State -> Prop) : Prop := {
  lv_preorder : PreOrder R;
  lv_same : forall r r', same_wires r r' -> R r r';
  lv_note : forall e r, of_calls e = false -> R r (note e r);
  lv_number : forall r, R r (take_number r);
  lv_others : forall allowed, obeys (on_st R) (others_if allowed)
}.

(** Those about one server. *)
Record leaves_of (R : State -> State -> Prop) (other : string) : Prop := {
  lo_update : forall f r, R r (set_states (<[other := f (state_of other r)]> (rg_states r)) r);
  lo_removed : forall r, R r (remove_session other r);
  lo_registered : forall s r, R r (register other s r)
}.

Section Walk.
Context (R : State -> State -> Prop) (L : leaves R).

#[local] Instance walk_preorder : PreOrder R := lv_preorder R L.

Lemma walk_host {A} (m : M H A) : obeys (on_st R) (on_host (X := X) m).
Proof. apply wp_obeys. intros E r. apply wp_host_same. intros x r'. apply (lv_same R L). Qed.

Lemma walk_library {A} (m : M X A) : obeys (on_st R) (on_library (H := H) m).
Proof. apply wp_obeys. intros E r. apply wp_library_same. intros x r'. apply (lv_same R L). Qed.

Lemma walk_others : obeys (on_st R) (others (H := H) (X := X)).
Proof. apply (lv_others R L). Qed.
Lemma walk_locked : obeys (on_st R) (others_locked (H := H) (X := X)).
Proof. apply (lv_others R L). Qed.
Lemma walk_closed s : obeys (on_st R) (modify (note (H := H) (X := X) (Closed s))).
Proof. apply obeys_modify. intros r. by apply (lv_note R L). Qed.
Lemma walk_listed id s names : obeys (on_st R) (modify (note (H := H) (X := X) (Listed id s names))).
Proof. apply obeys_modify. intros r. by apply (lv_note R L). Qed.
Lemma walk_dead s : obeys (on_st R) (modify (note (H := H) (X := X) (PingFailed s))).
Proof. apply obeys_modify. intros r. by apply (lv_note R L). Qed.
Lemma walk_number : obeys (on_st R) (modify (take_number (H := H) (X := X))).
Proof. apply obeys_modify, (lv_number R L). Qed.

#[local] Hint Resolve walk_host walk_library walk_others walk_locked walk_closed walk_listed walk_dead walk_number : io.

Lemma walk_since t : obeys (on_st R) (since (H := H) (X := X) t).
Proof. unfold since. obeys_walk. Qed.
Lemma walk_close s : obeys (on_st R) (close_session (H := H) (X := X) s).
Proof. unfold close_session. obeys_walk. Qed.
Lemma walk_joined errs : obeys (on_st R) (joined (H := H) (X := X) errs).
Proof. unfold joined. obeys_walk. Qed.
#[local] Hint Resolve walk_since walk_close walk_joined : io.

Lemma walk_listTools s other version : obeys (on_st R) (listTools (H := H) (X := X) s other version).
Proof. unfold listTools. obeys_walk. Qed.
Lemma walk_close_each l : obeys (on_st R) (close_each (H := H) (X := X) l).
Proof. induction l as [|[id' s] l IH]; cbn [close_each]; obeys_walk. Qed.
#[local] Hint Resolve walk_listTools : io.

Section Other.
Context (other : string) (O : leaves_of R other).

Lemma walk_update f : obeys (on_st R) (update_state (H := H) (X := X) other f).
Proof. unfold update_state. apply obeys_modify, (lo_update R other O). Qed.
Lemma walk_removed : obeys (on_st R) (modify (remove_session (H := H) (X := X) other)).
Proof. apply obeys_modify, (lo_removed R other O). Qed.
Lemma walk_removed_if s :
  obeys (on_st R) (modify (fun r : State => if base.decide (rg_sessions r !! other = Some s) then remove_session other r else r)).
Proof. apply obeys_modify. intros r. destruct (base.decide _); [apply (lo_removed R other O)|reflexivity]. Qed.
Lemma walk_registered s : obeys (on_st R) (modify (register (H := H) (X := X) other s)).
Proof. apply obeys_modify, (lo_registered R other O). Qed.
#[local] Hint Resolve walk_update walk_removed walk_removed_if walk_registered : io.

Lemma walk_discovery_failed started checks a b c e : obeys (on_st R) (recordDiscoveryFailure (H := H) (X := X) other started checks a b c e).
Proof. unfold recordDiscoveryFailure. obeys_walk. Qed.
Lemma walk_health_failed started checks e : obeys (on_st R) (recordHealthFailure (H := H) (X := X) other started checks e).
Proof. unfold recordHealthFailure. obeys_walk. Qed.
#[local] Hint Resolve walk_discovery_failed walk_health_failed : io.

Lemma walk_finish s started checks healthy : obeys (on_st R) (finish_discovery (H := H) (X := X) other s started checks healthy).
Proof. unfold finish_discovery. obeys_walk. Qed.
#[local] Hint Resolve walk_finish : io.

Lemma walk_Discover : obeys (on_st R) (Discover (H := H) (X := X) other).
Proof. unfold Discover. obeys_walk. Qed.
Lemma walk_Health : obeys (on_st R) (Health (H := H) (X := X) other).
Proof. unfold Health. obeys_walk. Qed.
Lemma walk_disconnect : obeys (on_st R) (disconnect (H := H) (X := X) other).
Proof. unfold disconnect. obeys_walk. Qed.
End Other.

Section Loops.
Context (ids : list string).
Context (D : forall other, other ∈ ids -> obeys (on_st R) (Discover (H := H) (X := X) other)).
Context (P : forall other, other ∈ ids -> obeys (on_st R) (Health (H := H) (X := X) other)).

Lemma walk_check_each : obeys (on_st R) (check_each (H := H) (X := X) ids).
Proof.
  induction ids as [|id l IH]; cbn [check_each]; [apply obeys_ret, _|].
  assert (Hd := D id (list_elem_of_here _ _)). assert (Hp := P id (list_elem_of_here _ _)).
  assert (IH' : obeys (on_st R) (check_each (H := H) (X := X) l)) by (apply IH; intros o Ho; [apply D|apply P]; by right). clear D P IH. obeys_walk.
Qed.

Lemma walk_discover_each : obeys (on_st R) (discover_each (H := H) (X := X) ids).
Proof.
  induction ids as [|id l IH]; cbn [discover_each]; [apply obeys_ret, _|].
  assert (Hd := D id (list_elem_of_here _ _)).
  assert (IH' : obeys (on_st R) (discover_each (H := H) (X := X) l)) by (apply IH; intros o Ho; [apply D|apply P]; by right). clear D P IH. obeys_walk.
Qed.
End Loops.

Lemma walk_forget r : (forall r, R r (set_sessions ∅ r)) -> R r (forget_sessions r).
Proof.
  intros He. unfold forget_sessions. induction (map_to_list (rg_sessions r)) as [|x l IH]; cbn [foldr]; [apply He|].
  etransitivity; [exact IH|]. by apply (lv_note R L).
Qed.

Lemma walk_Close : (forall r, R r (set_sessions ∅ r)) -> obeys (on_st R) (Close (H := H) (X := X)).
Proof.
  intros He. unfold Close. pose proof (fun l => walk_close_each l) as Hc.
  assert (Hf : obeys (on_st R) (modify (forget_sessions (H := H) (X := X)))) by (apply obeys_modify; intros r; by apply walk_forget).
  obeys_walk.
Qed.
End Walk.
End Walks.

(** ** One server and the others, a disabled server, the calls under way *)
Section Relations.
Context {H X : Type} `{Machine H} `{PathLookup H} `{McpLibrary X}.

Abbreviation Reg A := (M (Registry H X) A).
Abbreviation State := (Registry H X).

Lemma interfere_all (R : State -> State -> Prop) (l : list interference) : PreOrder R ->
  (forall a, a ∈ l -> obeys (on_st R) (interfere (H := H) (X := X) a)) -> obeys (on_st R) (mapM (interfere (H := H) (X := X)) l).
Proof.
  intros HR. induction l as [|a l IH]; intros Ha; cbn [mapM]; [apply obeys_ret, _|].
  apply obeys_bind; [apply _|apply Ha; by left|]. intros y. apply obeys_bind; [apply _|apply IH; intros b Hb; apply Ha; by right|].
  intros ys. apply obeys_ret, _.
Qed.

Lemma wp_others_obey (R : State -> State -> Prop) allowed E r : PreOrder R -> R r (set_schedule (tail (rg_schedule r)) r) ->
  (forall a, Exists (fun l => a ∈ l) (rg_schedule r) -> obeys (on_st R) (interfere (H := H) (X := X) a)) ->
  wp E (others_if allowed) (fun _ r' => R r r') r.
Proof.
  intros HR Hs Ha. unfold others_if. wp_step. wp_step. destruct (rg_schedule r) as [|l later] eqn:Hl; [by apply wp_ret|].
  wp_step. wp_step. cbn beta iota. wp_step. eapply wp_mono; [apply obeys_wp, (interfere_all R); [done|]|].
  - intros a [Hin _]%list_elem_of_In%filter_In. apply Ha. left. by apply list_elem_of_In.
  - intros [ys|e] r' Hr'; [wp_step|]; by etransitivity.
Qed.

(** *** Nothing has happened to the session and the status of the server. *)
Definition frame (id : string) (r r' : State) : Prop :=
  rg_sessions r' !! id = rg_sessions r !! id /\ ss_Status (state_of id r') = ss_Status (state_of id r).

#[local] Instance frame_preorder id : PreOrder (frame id).
Proof. split; [done|]. intros a b c [] []. split; congruence. Qed.

Lemma frame_library {A} id (m : M X A) : obeys (on_st (frame id)) (on_library (H := H) m).
Proof.
  apply wp_obeys. intros E r. apply wp_library_same. intros x r' (Em&Es&Ess&_). split; [by rewrite Ess|]. unfold state_of. by rewrite Es.
Qed.

Lemma frame_set_flag id other enabled : obeys (on_st (frame id)) (set_flag (H := H) (X := X) other enabled).
Proof.
  unfold set_flag. obeys_walk; [by apply obeys_modify|]. unfold update_state. apply obeys_modify. intros r. split; [done|].
  rewrite state_of_insert. destruct (base.decide (other = id)) as [<-|]; done.
Qed.

Lemma frame_interfere id a : obeys (on_st (frame id)) (interfere (H := H) (X := X) a).
Proof.
  destruct a as [other name arguments|k|other enabled]; cbn [interfere]; unfold look_up, send_call; obeys_walk;
    first [by apply obeys_modify|apply frame_library|apply frame_set_flag].
Qed.

Lemma frame_leaves id : leaves (frame id).
Proof.
  split; [apply _| | | |].
  - intros r r' (Em&Es&Ess&_). split; [by rewrite Ess|]. unfold state_of. by rewrite Es.
  - done.
  - done.
  - intros allowed. apply wp_obeys. intros E r. apply (wp_others_obey (frame id)); [apply _|done|]. intros a _. apply frame_interfere.
Qed.

Lemma frame_leaves_of id other : other <> id -> leaves_of (frame id) other.
Proof.
  intros Hne. split; intros.
  - split; [done|]. by rewrite state_of_insert, decide_False.
  - unfold remove_session. destruct (rg_sessions r !! other); [|done]. split; [|done]. cbn. by rewrite lookup_delete_ne.
  - split; [|done]. cbn. by rewrite lookup_insert_ne.
Qed.

(** *** A disabled server that nobody is going to enable *)
Definition flags_on (id : string) (a : interference) : bool :=
  match a with Flags other true => String.eqb other id | _ => false end.

Definition leaves_off (id : string) (schedule : list (list interference)) : Prop :=
  Forall (Forall (fun a => flags_on id a = false)) schedule.

Definition off (id : string) (r : State) : Prop :=
  (exists m, rg_manifests r !! id = Some m /\ mf_Enabled m = false) /\ leaves_off id (rg_schedule r).

(** It stays off; and without a session it gets none, and no call finds it. *)
Definition hush (id : string) (r r' : State) : Prop := off id r -> off id r' /\
  (rg_sessions r !! id = None -> rg_sessions r' !! id = None /\
    exists ev, rg_log r' = rg_log r ++ ev /\ forall k s name, LookedUp k id s name ∉ ev).

#[local] Instance hush_preorder id : PreOrder (hush id).
Proof.
  split.
  - intros r Hr. split; [done|]. intros Hn. split; [done|]. exists []. rewrite app_nil_r. split; [done|]. intros ? ? ? Hin. by apply elem_of_nil in Hin.
  - intros a b c Hab Hbc Ha. destruct (Hab Ha) as [Hb Hab']. destruct (Hbc Hb) as [Hc Hbc']. split; [done|]. intros Hn.
    destruct (Hab' Hn) as [Hnb (e1&L1&C1)]. destruct (Hbc' Hnb) as [Hnc (e2&L2&C2)]. split; [done|].
    exists (e1 ++ e2). rewrite L2, L1, app_assoc. split; [done|]. intros k s name [?|?]%elem_of_app; [by eapply C1|by eapply C2].
Qed.

Lemma hush_quiet id (r r' : State) ev : rg_manifests r' = rg_manifests r -> rg_schedule r' = rg_schedule r ->
  (rg_sessions r !! id = None -> rg_sessions r' !! id = None) ->
  rg_log r' = rg_log r ++ ev -> Forall (fun e => of_calls e = false) ev -> hush id r r'.
Proof.
  intros Em Esc Ess El Hev [Hm Hl]. split; [unfold off; by rewrite Em, Esc|]. intros Hn. split; [by apply Ess|]. exists ev. split; [done|].
  intros k s name Hin. rewrite Forall_forall in Hev. by apply Hev in Hin.
Qed.
Arguments hush_quiet {id r r'}.

Lemma hush_same id (r r' : State) : rg_manifests r' = rg_manifests r -> rg_schedule r' = rg_schedule r ->
  rg_sessions r' = rg_sessions r -> rg_log r' = rg_log r -> hush id r r'.
Proof. intros Em Esc Ess El. apply (hush_quiet []); rewrite ?Ess, ?app_nil_r; try done. Qed.

Lemma off_schedule id (r : State) l : leaves_off id l -> off id r -> off id (set_schedule l r).
Proof. intros Hl [Hm _]. by split. Qed.

Lemma hush_schedule id l (r : State) : leaves_off id l -> hush id r (set_schedule l r).
Proof. intros Hl Ho. split; [by apply off_schedule|]. intros Hn. apply (hush_same id r r); done. Qed.

Lemma hush_library {A} id (m : M X A) : obeys (on_st (hush id)) (on_library (H := H) m).
Proof. apply wp_obeys. intros E r. apply wp_library_same. intros x r' (Em&_&Ess&_&El&_&_&Esc). by apply hush_same. Qed.

Lemma hush_note id e : (forall k s name, e <> LookedUp k id s name) -> obeys (on_st (hush id)) (modify (note (H := H) (X := X) e)).
Proof.
  intros He. apply obeys_modify. intros r Ho. split; [done|]. intros Hn. split; [done|]. exists [e]. split; [done|].
  intros k s name Hin%list_elem_of_singleton. by apply (He k s name).
Qed.

Lemma hush_calls id (f : gmap nat PendingCall -> gmap nat PendingCall) : obeys (on_st (hush id)) (modify (fun r : State => set_calls (f (rg_calls r)) r)).
Proof. apply obeys_modify. intros r. by apply hush_same. Qed.

(** No look-up finds a server without a session. *)
Lemma hush_look_up id other name arguments : obeys (on_st (hush id)) (look_up (H := H) (X := X) other name arguments).
Proof.
  apply wp_obeys. intros E r. unfold look_up. wp_step. wp_step. wp_step. apply wp_lift. destruct (may_call r other name) as [s|e] eqn:Hm; [|reflexivity].
  apply may_call_Ok in Hm as (Hs&_). wp_step. wp_step. wp_step. intros Ho. split; [exact Ho|]. cbn. intros Hn. split; [done|].
  exists [LookedUp (rg_asked r) other s name]. split; [done|]. intros k s' name' [= _ <- _ _]%list_elem_of_singleton. congruence.
Qed.

Lemma hush_send id c : obeys (on_st (hush id)) (send_call (H := H) (X := X) c).
Proof. unfold send_call. obeys_walk; [by apply hush_note|apply hush_library]. Qed.

Lemma hush_set_flag id other enabled : flags_on id (Flags other enabled) = false -> obeys (on_st (hush id)) (set_flag (H := H) (X := X) other enabled).
Proof.
  intros He. apply wp_obeys. intros E r. unfold set_flag. wp_step. wp_step. destruct (rg_manifests r !! other) as [m|] eqn:Hm.
  2: { apply wp_throw. reflexivity. }
  cbv zeta. wp_step. wp_step. cbn beta iota. apply wp_update. intros [(m'&Hm'&Hd) Hl]. split; [|intros Hn].
  - split; [|done]. cbn. destruct (base.decide (other = id)) as [->|Hne].
    + rewrite lookup_insert_eq. exists (with_enabled enabled m). split; [done|]. cbn in He. rewrite String.eqb_refl in He. by destruct enabled.
    + rewrite lookup_insert_ne by done. by exists m'.
  - split; [done|]. exists []. cbn. rewrite app_nil_r. split; [done|]. intros ? ? ? Hin. by apply elem_of_nil in Hin.
Qed.

Lemma hush_interfere id a : flags_on id a = false -> obeys (on_st (hush id)) (interfere (H := H) (X := X) a).
Proof.
  intros Ha. destruct a as [other name arguments|k|other enabled]; cbn [interfere]; obeys_walk;
    first [apply hush_look_up|apply hush_send|by apply hush_set_flag|apply (hush_calls id)].
Qed.

Lemma hush_leaves id : leaves (hush id).
Proof.
  split; [apply _| | | |].
  - intros r r' (Em&_&Ess&_&El&_&_&Esc). by apply hush_same.
  - intros e r He. apply (hush_quiet [e]); try done. by constructor.
  - intros r. by apply hush_same.
  - intros allowed. apply wp_obeys. intros E r. unfold hush. apply wp_given. intros Ho.
    eapply wp_mono; [apply (wp_others_obey (hush id)); [apply _| |]|by intros x r' Hh; apply Hh].
    + apply hush_schedule. destruct Ho as [_ Hl]. unfold leaves_off in *. destruct (rg_schedule r); [done|]. by apply Forall_cons in Hl as [_ ?].
    + intros a Hin. apply hush_interfere. destruct Ho as [_ Hl]. apply Exists_exists in Hin as (l&Hl'&Ha). unfold leaves_off in Hl.
      rewrite Forall_forall in Hl. apply Hl in Hl'. rewrite Forall_forall in Hl'. by apply Hl'.
Qed.

Lemma hush_leaves_of id other : other <> id -> leaves_of (hush id) other.
Proof.
  intros Hne. split; intros.
  - by apply hush_same.
  - unfold remove_session. destruct (rg_sessions r !! other) as [s|]; [|reflexivity]. apply (hush_quiet [Removed s]); try done; [|by constructor].
    cbn. by rewrite lookup_delete_ne.
  - apply (hush_quiet [Registered other s]); try done; [|by constructor]. cbn. by rewrite lookup_insert_ne.
Qed.

(** An operation that stops at once when the server is off. *)
Lemma hush_refused id {A} (m : Reg A) : (forall E r, off id r -> wp E m (fun _ r' => r' = r) r) -> obeys (on_st (hush id)) m.
Proof.
  intros Hm. apply wp_obeys. intros E r w Hw Hs. pose proof (Hm E r Hs w Hw) as ->. by apply hush_preorder.
Qed.

Lemma hush_Discover id other : obeys (on_st (hush id)) (Discover (H := H) (X := X) other).
Proof.
  destruct (base.decide (other = id)) as [->|Hne]; [|by apply walk_Discover; [apply hush_leaves|apply hush_leaves_of]].
  apply hush_refused. intros E r [(m&Hm&He) _]. unfold Discover. wp_step. wp_step. cbn beta iota. wp_step. wp_step.
  rewrite Hm, He. by apply wp_throw.
Qed.

Lemma hush_Health id other : obeys (on_st (hush id)) (Health (H := H) (X := X) other).
Proof.
  destruct (base.decide (other = id)) as [->|Hne]; [|by apply walk_Health; [apply hush_leaves|apply hush_leaves_of]].
  apply hush_refused. intros E r [(m&Hm&He) _]. unfold Health. wp_step. wp_step. cbn beta iota. wp_step. wp_step.
  rewrite Hm, He. by apply wp_throw.
Qed.

Lemma hush_removed id other : obeys (on_st (hush id)) (modify (remove_session (H := H) (X := X) other)).
Proof.
  apply obeys_modify. intros r. unfold remove_session. destruct (rg_sessions r !! other) as [s|]; [|reflexivity].
  apply (hush_quiet [Removed s]); try done; [|by constructor]. cbn. intros Hn. rewrite lookup_delete_None. by right.
Qed.

Lemma hush_update id other f : obeys (on_st (hush id)) (update_state (H := H) (X := X) other f).
Proof. unfold update_state. apply obeys_modify. intros r. by apply hush_same. Qed.

Lemma hush_disconnect id other : obeys (on_st (hush id)) (disconnect (H := H) (X := X) other).
Proof.
  pose proof (walk_others (hush id) (hush_leaves id)). pose proof (walk_close (hush id) (hush_leaves id)).
  unfold disconnect. obeys_walk; first [apply hush_removed|apply hush_update].
Qed.

Lemma hush_CallTool id other name arguments : obeys (on_st (hush id)) (CallTool (H := H) (X := X) other name arguments).
Proof.
  pose proof (walk_others (hush id) (hush_leaves id)). unfold CallTool. obeys_walk; [apply hush_look_up|apply hush_send].
Qed.

(** *** A call that is not under way is not sent *)
Definition numbered (r : State) : Prop := forall k c, rg_calls r !! k = Some c -> pc_number c = k.

Definition own (r r' : State) : Prop := numbered r -> numbered r' /\ (rg_asked r <= rg_asked r')%nat /\
  exists ev, rg_log r' = rg_log r ++ ev /\
    forall k, (k < rg_asked r)%nat -> rg_calls r !! k = None -> rg_calls r' !! k = None /\ unsent k ev.

#[local] Instance own_preorder : PreOrder own.
Proof.
  split.
  - intros r Hr. split_and!; [done|done|]. exists []. rewrite app_nil_r. split; [done|]. intros k _ Hn. split; [done|].
    intros ? ? ? Hin. by apply elem_of_nil in Hin.
  - intros a b c Hab Hbc Ha. destruct (Hab Ha) as (Hb&A1&e1&L1&C1). destruct (Hbc Hb) as (Hc&A2&e2&L2&C2). split_and!; [done|lia|].
    exists (e1 ++ e2). rewrite L2, L1, app_assoc. split; [done|]. intros k Hk Hn.
    destruct (C1 k Hk Hn) as [Hn1 U1]. destruct (C2 k ltac:(lia) Hn1) as [Hn2 U2]. split; [done|].
    intros id s name [?|?]%elem_of_app; [by eapply U1|by eapply U2].
Qed.

Lemma own_quiet (r r' : State) ev : rg_asked r' = rg_asked r -> rg_calls r' = rg_calls r ->
  rg_log r' = rg_log r ++ ev -> Forall (fun e => of_calls e = false) ev -> own r r'.
Proof.
  intros Ea Ec El Hev Hr. unfold numbered. rewrite Ea, Ec. split_and!; [done|lia|]. exists ev. split; [done|]. intros k _ Hn. split; [done|].
  intros id s name Hin. rewrite Forall_forall in Hev. by apply Hev in Hin.
Qed.
Arguments own_quiet {r r'}.

Lemma own_same (r r' : State) : rg_asked r' = rg_asked r -> rg_calls r' = rg_calls r -> rg_log r' = rg_log r -> own r r'.
Proof. intros Ea Ec El. apply (own_quiet []); by rewrite ?app_nil_r. Qed.

Lemma own_library {A} (m : M X A) : obeys (on_st own) (on_library (H := H) m).
Proof. apply wp_obeys. intros E r. apply wp_library_same. intros x r' (_&_&_&_&El&Ea&Ec&_). by apply own_same. Qed.

Lemma own_set_flag other enabled : obeys (on_st own) (set_flag (H := H) (X := X) other enabled).
Proof. unfold set_flag, update_state. obeys_walk; apply obeys_modify; intros r; by apply own_same. Qed.

(** What a look-up leaves: a number of its own. *)
Lemma own_look_up E other name arguments (Q : result PendingCall -> State -> Prop) r :
  (forall e, Q (Err e) r) ->
  (forall c r', own r r' -> pc_number c = rg_asked r -> rg_asked r' = S (rg_asked r) -> rg_calls r' = rg_calls r -> Q (Ok c) r') ->
  wp E (look_up other name arguments) Q r.
Proof.
  intros Herr Hok. unfold look_up. wp_step. wp_step. wp_step. apply wp_lift. destruct (may_call r other name) as [s|e]; [|done].
  wp_step. wp_step. wp_step. apply Hok; try done. intros Hr. split_and!; [done|cbn; lia|]. eexists. split; [done|]. intros k _ Hn.
  split; [done|]. intros ? ? ? Hin%list_elem_of_singleton. done.
Qed.

Lemma own_sent E c (Q : result CallToolResult -> State -> Prop) r : (forall x r', rg_asked r' = rg_asked r -> rg_calls r' = rg_calls r ->
    rg_log r' = rg_log r ++ [Called (pc_number c) (pc_ServerID c) (pc_session c) (pc_name c)] -> Q x r') ->
  wp E (send_call c) Q r.
Proof.
  intros HQ. unfold send_call. wp_step. wp_step. cbn beta iota. apply wp_library_same. intros x r' (_&_&_&_&El&Ea&Ec&_). by apply HQ.
Qed.

Lemma own_interfere a : obeys (on_st own) (interfere (H := H) (X := X) a).
Proof.
  destruct a as [other name arguments|k|other enabled]; cbn [interfere]; [| |obeys_walk; apply own_set_flag]; apply wp_obeys; intros E r.
  - wp_step. wp_step. apply own_look_up; [intros e; wp_step; reflexivity|]. intros c r' Ho Hk Ha Hc. cbn beta iota. wp_step. intros Hr.
    destruct (Ho Hr) as (Hr'&Hle&ev&El&He). split_and!; [|done|].
    + intros k c'. cbn. intros [[<- <-]|[_ Hc']]%lookup_insert_Some; [done|by apply Hr'].
    + exists ev. split; [done|]. intros k Hk' Hn. destruct (He k Hk' Hn) as [Hn' Hu]. split; [|done]. cbn. rewrite lookup_insert_ne; [done|].
      rewrite Hk. lia.
  - wp_step. wp_step. destruct (rg_calls r !! k) as [c|] eqn:Hc; [|wp_step; reflexivity]. wp_step. wp_step. cbn beta iota. wp_step. wp_step.
    apply own_sent. cbn. intros x r' Ea Ec El. cbn beta iota. wp_step. intros Hr. pose proof (Hr k c Hc) as Hk. split_and!.
    + intros k' c'. rewrite Ec. intros [_ Hc']%lookup_delete_Some. by apply Hr.
    + lia.
    + eexists. split; [exact El|]. intros k' _ Hn. rewrite Ec. split; [by rewrite lookup_delete_None; right|].
      intros id s name [= -> _ _ _]%list_elem_of_singleton. congruence.
Qed.

Lemma own_leaves : leaves own.
Proof.
  split; [apply _| | | |].
  - intros r r' (_&_&_&_&El&Ea&Ec&_). by apply own_same.
  - intros e r He. apply (own_quiet [e]); try done. by constructor.
  - intros r. by apply own_same.
  - intros allowed. apply wp_obeys. intros E r. apply (wp_others_obey own); [apply _|by apply own_same|]. intros a _. apply own_interfere.
Qed.

Lemma own_leaves_of other : leaves_of own other.
Proof.
  split; intros.
  - by apply own_same.
  - unfold remove_session. destruct (rg_sessions r !! other) as [s|]; [|reflexivity]. apply (own_quiet [Removed s]); try done. by constructor.
  - apply (own_quiet [Registered other s]); try done. by constructor.
Qed.

Lemma own_CallTool other name arguments : obeys (on_st own) (CallTool (H := H) (X := X) other name arguments).
Proof.
  apply wp_obeys. intros E r. unfold CallTool. wp_step. apply own_look_up; [intros e; reflexivity|]. intros c r1 O1 Hk Ha Hc.
  cbn beta iota. wp_step. eapply wp_mono; [apply obeys_wp, (walk_others own own_leaves)|]. intros [[]|e] r2 O2; [|by transitivity r1].
  apply own_sent. intros x r3 Ea Ec El Hr. destruct (O1 Hr) as (Hr1&A1&e1&L1&C1). destruct (O2 Hr1) as (Hr2&A2&e2&L2&C2). split_and!.
  - intros k c'. rewrite Ec. apply Hr2.
  - lia.
  - eexists. rewrite El, L2, L1, <- !app_assoc. split; [done|]. intros k Hlt Hn. destruct (C1 k Hlt Hn) as [Hn1 U1].
    destruct (C2 k ltac:(lia) Hn1) as [Hn2 U2]. rewrite Ec. split; [done|].
    intros id s name' [Hin|[Hin|Hin]%elem_of_app]%elem_of_app; [by eapply U1|by eapply U2|].
    apply list_elem_of_singleton in Hin as [= -> _ _ _]. lia.
Qed.
End Relations.

(** ** What the histories show *)
Section Theorems.
Context {H X : Type} `{Machine H} `{PathLookup H} `{McpLibrary X}.

Abbreviation Reg A := (M (Registry H X) A).
Abbreviation State := (Registry H X).

Definition closes (step : registry_step) : bool := match step with AllClosed => true | _ => false end.

Lemma kept_do live step E (r : State) : (live = true -> closes step = false) -> kept live r ->
  wp E (registry_do step) (fun _ r' => kept live r') r.
Proof.
  intros Hl K. destruct step; cbn [registry_do].
  - by apply keeps_set_flag.
  - by apply keeps_Discover.
  - wp_step. wp_step. destruct (rg_manifests r !! id) eqn:Hm; [by eapply keeps_disconnect|by apply wp_throw].
  - by apply keeps_Health.
  - by apply keeps_CheckAll.
  - by apply keeps_Start.
  - wp_step. eapply wp_mono; [by apply keeps_CallTool|]. intros [x|e] r' K'; [by apply wp_ret|done].
  - by apply keeps_interfere.
  - destruct live; [by discriminate Hl|]. destruct K as [W _]. eapply wp_mono; [by apply wp_Close|]. by split.
Qed.

Lemma kept_New live (host : H) (library : X) cfg : kept live (New host library cfg).
Proof.
  split; [split; try done|].
  - intros id. unfold New. cbn [rg_manifests rg_states].
    set (l := map (fun m => (mf_ID m, m)) (rc_Servers cfg)).
    assert (Hl : map (fun m => (mf_ID m, new_state m)) (rc_Servers cfg) = map (prod_map (fun k => k) new_state) l).
    { unfold l. by rewrite map_map. }
    rewrite Hl, <- map_rev. rewrite list_to_map_fmap, lookup_fmap.
    destruct (list_to_map (rev l) !! id) as [m|] eqn:Hm; cbn; [|done]. split; [|done].
    apply elem_of_list_to_map_2, list_elem_of_In, in_rev, in_map_iff in Hm as (m'&[= <- <-]&_). done.
  - cbn. by intros s [Hs%elem_of_nil|Hs%elem_of_nil].
  - cbn. by intros k id s name Hin%elem_of_nil.
  - apply answered_nil.
  - intros _ id Hh. exfalso. revert Hh. unfold state_of, New. cbn [rg_states].
    destruct (list_to_map _ !! id) as [s|] eqn:Hs; cbn; [|done].
    apply elem_of_list_to_map_2, list_elem_of_In, in_rev, in_map_iff in Hs as (m'&[= <- <-]&_). done.
Qed.

Lemma kept_schedule live l (r : State) : kept live r -> kept live (set_schedule l r).
Proof. intros [W C]. split; [by apply wired_schedule|exact C]. Qed.

Lemma kept_run live l (r : State) : (live = true -> Forall (fun t => closes (tn_step t) = false) l) -> kept live r -> kept live (registry_run l r).
Proof.
  revert r. induction l as [|t l IH]; intros r Hl K; [done|]. cbn [registry_run]. apply IH.
  - intros Hv. by apply Hl, Forall_cons in Hv as [_ ?].
  - apply (kept_do live (tn_step t) (tn_Env t) (set_schedule (tn_others t) r)); [intros Hv; by apply Hl, Forall_cons in Hv as [? _]| |done].
    by apply kept_schedule.
Qed.

(** C31: a call goes only to a tool its session has listed.  Whatever the
    registry is asked, in any order, whatever other goroutines look up, send
    and flag wherever the lock is free, and whatever the child processes do:
    each call is sent at most once, and after a look-up of its own, at which
    the discovery of that very session had listed the tool for that server
    and the session was in the map, entered for that server and not removed.
    It may have been closed before only by a health check that was under way:
    its ping of the session had failed, and nothing but calls came
    between. *)
Theorem calls_registered (host : H) (library : X) (cfg : RegistryConfig) (l : list registry_turn) :
  answered (rg_log (registry_run l (New host library cfg))).
Proof. apply (kept_run false l); [done|apply kept_New]. Qed.

(** The planner is shown what can be called.  Until the registry is
    closed, a tool is among [AvailableTools] exactly when its server is
    enabled and [CallTool] accepts it. *)
Theorem available_exact (host : H) (library : X) (cfg : RegistryConfig) (l : list registry_turn)
    (Hl : Forall (fun s => closes (tn_step s) = false) l) (id name : string) :
  let r := registry_run l (New host library cfg) in
  (exists c, c ∈ AvailableTools r /\ tc_ServerID c = id /\ tc_Name c = name) <->
  (exists m, rg_manifests r !! id = Some m /\ mf_Enabled m = true) /\ is_ok (may_call r id name) = true.
Proof.
  cbv zeta. destruct (kept_run true l (New host library cfg) (fun _ => Hl) (kept_New true host library cfg)) as [W C].
  set (r := registry_run l _) in *. specialize (C eq_refl). unfold AvailableTools. split.
  - intros (c&Hc&Hid&Hname). rewrite merge_sort_Permutation in Hc. apply list_elem_of_In, in_flat_map in Hc as (s&Hs&Hc).
    apply in_map_iff in Hs as ([id' s']&Hs'&Hin). cbn in Hs'. subst s'. apply list_elem_of_In, elem_of_map_to_list in Hin.
    destruct (_ || _) eqn:Hg; [done|]. apply orb_false_iff in Hg as [Hst%negb_false_iff%String.eqb_eq Hen%negb_false_iff].
    apply in_map_iff in Hc as (t&<-&Ht). cbn in Hid, Hname. pose proof (wi_filed _ r W id') as Hf. rewrite Hin in Hf.
    destruct (rg_manifests r !! id') as [m|] eqn:Hm; [|done]. destruct Hf as [Hmf Hsm]. rewrite Hsm in Hid. rewrite Hsm in Hen.
    assert (id' = id) as -> by congruence. split; [by exists m|].
    assert (Hso : state_of id r = s) by (unfold state_of; by rewrite Hin).
    destruct (C id) as [n Hn]; [by rewrite Hso|].
    assert (Hok : may_call r id name = Ok n).
    { apply may_call_Ok. rewrite Hso. repeat split; [done..|]. exists t. split; [by apply list_elem_of_In|done]. }
    by rewrite Hok.
  - intros [(m&Hm&Hen) Hok]. destruct (may_call r id name) as [n|] eqn:Hc; [|done]. apply may_call_Ok in Hc as (Hn&Hst&t&Ht&Hname).
    pose proof (wi_filed _ r W id) as Hf. rewrite Hm in Hf. destruct (rg_states r !! id) as [s|] eqn:Hs; [|done]. destruct Hf as [Hmf Hsm].
    assert (Hso : state_of id r = s) by (unfold state_of; by rewrite Hs). rewrite Hso in Hst, Ht.
    exists (capability s t). split; [|cbn; by rewrite Hsm].
    rewrite merge_sort_Permutation. apply list_elem_of_In, in_flat_map. exists s. split.
    + apply in_map_iff. exists (id, s). split; [done|]. by apply list_elem_of_In, elem_of_map_to_list.
    + rewrite Hst, Hsm, Hen. cbn. by apply in_map, list_elem_of_In.
Qed.

(** *** A disabled server *)
Definition enables (id : string) (step : registry_step) : bool :=
  match step with FlagSet other true => String.eqb other id | Acted a => flags_on id a | _ => false end.

(** Nobody enables the server, at this turn or while it runs. *)
Definition turn_leaves_off (id : string) (t : registry_turn) : Prop :=
  enables id (tn_step t) = false /\ leaves_off id (tn_others t).

Lemma hush_do id step : enables id step = false -> obeys (on_st (hush id)) (registry_do (H := H) (X := X) step).
Proof.
  intros He. pose proof (hush_preorder (H := H) (X := X) id). pose proof (hush_leaves (H := H) (X := X) id) as L.
  assert (Hj : forall errs, obeys (on_st (hush id)) (joined (H := H) (X := X) errs)) by (intros; by apply walk_joined).
  assert (Hc : forall ids, obeys (on_st (hush id)) (check_each (H := H) (X := X) ids)).
  { intros ids. apply walk_check_each; [done| |]; intros o _; [apply hush_Discover|apply hush_Health]. }
  assert (Hd : forall ids, obeys (on_st (hush id)) (discover_each (H := H) (X := X) ids)).
  { intros ids. apply walk_discover_each; [done| |]; intros o _; [apply hush_Discover|apply hush_Health]. }
  destruct step; cbn [registry_do].
  - by apply hush_set_flag.
  - apply hush_Discover.
  - obeys_walk. apply hush_disconnect.
  - apply hush_Health.
  - unfold CheckAll. obeys_walk.
  - unfold Start. obeys_walk.
  - obeys_walk. apply hush_CallTool.
  - by apply hush_interfere.
  - apply walk_Close; [done|]. intros r. by apply (hush_quiet id r _ []); rewrite ?app_nil_r.
Qed.

Lemma own_do step : obeys (on_st own) (registry_do (H := H) (X := X) step).
Proof.
  pose proof (own_preorder (H := H) (X := X)). pose proof (own_leaves (H := H) (X := X)) as L.
  assert (Hj : forall errs, obeys (on_st own) (joined (H := H) (X := X) errs)) by (intros; by apply walk_joined).
  assert (D : forall o, obeys (on_st own) (Discover (H := H) (X := X) o)) by (intros; apply walk_Discover; [done|apply own_leaves_of]).
  assert (P : forall o, obeys (on_st own) (Health (H := H) (X := X) o)) by (intros; apply walk_Health; [done|apply own_leaves_of]).
  assert (Hc : forall ids, obeys (on_st own) (check_each (H := H) (X := X) ids)) by (intros; by apply walk_check_each).
  assert (Hd : forall ids, obeys (on_st own) (discover_each (H := H) (X := X) ids)) by (intros; by apply walk_discover_each).
  destruct step; cbn [registry_do].
  - apply own_set_flag.
  - apply D.
  - obeys_walk. apply walk_disconnect; [done|apply own_leaves_of].
  - apply P.
  - unfold CheckAll. obeys_walk.
  - unfold Start. obeys_walk.
  - obeys_walk. apply own_CallTool.
  - apply own_interfere.
  - apply walk_Close; [done|]. intros r. by apply own_same.
Qed.

Lemma hush_run id l (r : State) : Forall (turn_leaves_off id) l -> hush id r (registry_run l r).
Proof.
  revert r. induction l as [|t l IH]; intros r Hl; cbn [registry_run]; [apply hush_preorder|]. apply Forall_cons in Hl as [[He Ho] Hl].
  pose proof (hush_preorder (H := H) (X := X) id). transitivity (set_schedule (tn_others t) r); [by apply hush_schedule|].
  etransitivity; [|by apply IH]. exact (hush_do id (tn_step t) He (tn_Env t) (init_world (set_schedule (tn_others t) r))).
Qed.

Lemma own_run l (r : State) : own r (registry_run l r).
Proof.
  pose proof (own_preorder (H := H) (X := X)). revert r. induction l as [|t l IH]; intros r; cbn [registry_run]; [done|].
  transitivity (set_schedule (tn_others t) r); [by apply own_same|]. etransitivity; [|by apply IH].
  exact (own_do (tn_step t) (tn_Env t) (init_world (set_schedule (tn_others t) r))).
Qed.

(** [SetEnabled] with [false] leaves the server off and without a session. *)
Lemma wp_disabled E id m (r : State) : kept false r -> rg_manifests r !! id = Some m -> leaves_off id (rg_schedule r) ->
  wp E (SetEnabled id false) (fun _ r' => kept false r' /\ off id r' /\ rg_sessions r' !! id = None) r.
Proof.
  intros K Hm Hl. pose proof (hush_preorder (H := H) (X := X) id). pose proof (hush_leaves (H := H) (X := X) id) as L.
  unfold SetEnabled. wp_step. eapply wp_mono; [apply wp_both; [by apply keeps_set_flag|]|].
  { instantiate (1 := fun x r' => is_ok x = true /\ off id r' /\ rg_manifests r' !! id = Some (with_enabled false m)).
    unfold set_flag. wp_step. wp_step. rewrite Hm. cbv zeta. wp_step. wp_step. cbn beta iota. apply wp_update. split_and!; [done| |].
    - split; [|exact Hl]. exists (with_enabled false m). cbn. by rewrite lookup_insert_eq.
    - cbn. by rewrite lookup_insert_eq. }
  intros [[]|e] r1 (K1&Hok&Ho1&Hm1); [|done]. clear dependent r. wp_step.
  eapply wp_mono; [apply wp_both; [|apply obeys_wp, (walk_others (hush id)), L]|].
  { instantiate (1 := fun x r' => x = Ok tt /\ kept false r'). by apply (wp_steady_others _ _ (steady_kept false)). }
  intros x r2 [[-> K2] Hh2]. destruct (Hh2 Ho1) as [Ho2 _]. pose proof Ho2 as [(m2&Hm2&_) _].
  eapply wp_mono; [apply wp_both; [by eapply keeps_disconnect|]|].
  { instantiate (1 := fun _ r' => off id r' /\ rg_sessions r' !! id = None).
    unfold disconnect. wp_step. wp_step. wp_step. wp_step. wp_step. wp_step. cbn beta iota. apply wp_bind, wp_update. cbn beta iota.
    match goal with |- wp _ _ _ ?r => set (r3 := r) end.
    assert (Ho3 : off id r3) by (unfold r3, remove_session, off in *; by destruct (rg_sessions r2 !! id)).
    assert (Hn3 : rg_sessions r3 !! id = None).
    { unfold r3, remove_session. cbn. destruct (rg_sessions r2 !! id) eqn:Hs; cbn; [apply lookup_delete_eq|done]. }
    wp_step. eapply wp_mono; [apply obeys_wp, (walk_others (hush id)), L|]. intros x r4 Hh4. destruct (Hh4 Ho3) as [Ho4 [Hn4 _]%(fun f => f Hn3)].
    destruct x as [[]|e]; [|done]. destruct (rg_sessions r2 !! id) as [s|]; [|by wp_step]. wp_step.
    eapply wp_mono; [apply obeys_wp, (walk_close (hush id)), L|]. intros y r5 Hh5. destruct (Hh5 Ho4) as [Ho5 [Hn5 _]%(fun f => f Hn4)].
    by destruct y; [wp_step|]. }
  intros y r3 [K3 [Ho3 Hn3]]. done.
Qed.

(** C32: a server that was disabled stays silent.  Once [SetEnabled] with
    [false] has returned, whether or not the session could be closed, no call
    finds a session of the server, whatever else the registry is asked -
    checks, discoveries, calls - in whatever interleaving, until somebody
    enables it again.  The only calls that are still sent had been looked up
    before and were under way when it returned, and the session they go to is
    closed; when none was under way, no tool of the server is called. *)
Theorem disabled_stays_silent (host : H) (library : X) (cfg : RegistryConfig) (before after : list registry_turn) (E : Env)
    (schedule : list (list interference)) (id : string) (m : ServerManifest) :
  let r := registry_run before (New host library cfg) in
  rg_manifests r !! id = Some m -> leaves_off id schedule -> Forall (turn_leaves_off id) after ->
  let r1 := among (SetEnabled id false) E schedule r in
  exists ev, rg_log (registry_run after r1) = rg_log r1 ++ ev /\
    (forall k s name, LookedUp k id s name ∉ ev) /\
    (forall k s name, Called k id s name ∈ ev ->
       is_Some (rg_calls r1 !! k) /\ LookedUp k id s name ∈ rg_log r1 /\ Closed s ∈ rg_log r1) /\
    (rg_calls r1 = ∅ -> forall k s name, Called k id s name ∉ ev).
Proof.
  cbv zeta. intros Hm Hs Hafter. set (r := registry_run before _) in *.
  assert (K : kept false (set_schedule schedule r)) by (apply kept_schedule, (kept_run false before); [done|apply kept_New]).
  pose proof (wp_disabled E id m _ K Hm Hs (init_world (set_schedule schedule r)) eq_refl) as (K1&Ho1&Hn1).
  change (st (SetEnabled id false E (init_world (set_schedule schedule r))).2) with (among (SetEnabled id false) E schedule r) in *.
  set (r1 := among _ E schedule r) in *. clearbody r1. clear dependent r.
  destruct (hush_run id after r1 Hafter Ho1) as [_ (_&ev&El&Hl)%(fun f => f Hn1)].
  assert (K2 : kept false (registry_run after r1)) by by apply (kept_run false after).
  destruct (own_run after r1) as (_&_&ev'&El'&Hown); [intros k c Hc; by apply (wi_calls _ _ (proj1 K1) k c Hc)|].
  assert (ev' = ev) as -> by (rewrite El in El'; by apply app_inv_head in El').
  assert (Hsent : forall k s name, Called k id s name ∈ ev ->
    is_Some (rg_calls r1 !! k) /\ LookedUp k id s name ∈ rg_log r1 /\ Closed s ∈ rg_log r1).
  { intros k s name Hin. assert (Hin' := Hin). apply list_elem_of_split in Hin' as (l1&l2&Hev).
    destruct (wi_answered _ _ (proj1 K2) (rg_log r1 ++ l1) k id s name l2) as [Hlk%looked_up_in _]; [by rewrite El, Hev, app_assoc|].
    apply elem_of_app in Hlk as [Hlk|Hlk]; [|exfalso; apply (Hl k s name); rewrite Hev; set_solver].
    destruct (wi_looked _ _ (proj1 K1) _ _ _ _ Hlk) as [Hk Hor]. split_and!; [|done|].
    - destruct (rg_calls r1 !! k) eqn:Hc; [by eexists|]. destruct (Hown k Hk Hc) as [_ Hu]. by apply Hu in Hin.
    - rewrite Hn1 in Hor. by destruct Hor as [?|[?|?]]. }
  exists ev. split_and!; [done|done|done|]. intros He k s name [[c Hc] _]%Hsent. by rewrite He in Hc.
Qed.

(** *** The health cycle *)
Definition healthy_now (id : string) (r : State) : Prop :=
  ss_Status (state_of id r) = StatusHealthy /\ is_Some (rg_sessions r !! id).

Lemma healthy_frame id (r r' : State) : frame id r r' -> healthy_now id r -> healthy_now id r'.
Proof. intros [Ess Est]. unfold healthy_now. by rewrite Est, Ess. Qed.

Lemma wp_refused E id {A} (m : Reg A) e (r : State) :
  wp E (m ;;; throw (A := unit) e) (fun x r' => x = Ok tt -> healthy_now id r') r.
Proof. apply wp_bind, wp_any. intros [x|e'] r1; [by apply wp_throw|done]. Qed.

Lemma wp_past {A B} E (m : Reg A) (k : A -> Reg B) (Q : result B -> State -> Prop) (r : State) :
  (forall e r', Q (Err e) r') -> (forall a r', wp E (k a) Q r') -> wp E (bind m k) Q r.
Proof. intros He Hk. apply wp_bind, wp_any. intros [a|e] r'; [apply Hk|apply He]. Qed.

Lemma wp_framed {B} E id (m : Reg unit) (k : unit -> Reg B) (Q : result B -> State -> Prop) (r : State) : obeys (on_st (frame id)) m ->
  (forall e r', Q (Err e) r') -> (forall r', frame id r r' -> wp E (k tt) Q r') -> wp E (bind m k) Q r.
Proof. intros Hm He Hk. apply wp_bind. eapply wp_mono; [apply obeys_wp, Hm|]. intros [[]|e] r' Hf; [by apply Hk|apply He]. Qed.

Lemma wp_registered_healthy E id (r : State) f : (forall s, ss_Status (f s) = StatusHealthy) -> is_Some (rg_sessions r !! id) ->
  wp E (update_state id f) (fun x r' => x = Ok tt -> healthy_now id r') r.
Proof. intros Hf Hs. apply wp_update. intros _. split; [by rewrite state_of_insert, decide_True|done]. Qed.

Lemma wp_finish_healthy E id s started checks healthy (r : State) :
  wp E (finish_discovery id s started checks healthy) (fun x r' => x = Ok tt -> healthy_now id r') r.
Proof.
  unfold finish_discovery. cbv zeta. wp_step. wp_step.
  destruct (InitializeResult (rg_library r) s) as [[[[name version]|] protocol]|]; [|apply wp_refused..].
  destruct (_ || _); [apply wp_refused|]. apply wp_past; [done|]. intros tools r1. apply wp_past; [done|]. intros _ r2.
  destruct tools as [tools|e]; [|apply wp_refused].
  wp_step. wp_step. wp_step. wp_step. apply wp_bind, wp_since. intros d1. apply wp_bind, wp_since. intros d2.
  apply wp_registered_healthy; [done|]. cbn. rewrite lookup_insert_eq. by eexists.
Qed.

Lemma wp_Discover_healthy E id (r : State) : wp E (Discover id) (fun x r' => x = Ok tt -> healthy_now id r') r.
Proof.
  unfold Discover. wp_step. wp_step. cbn beta iota. wp_step. wp_step. destruct (rg_manifests r !! id) as [m|]; [|by apply wp_throw].
  destruct (negb _); [by apply wp_throw|]. do 6 (apply wp_past; [done|]; intros _ ?). apply wp_past; [done|]. intros t ?.
  apply wp_past; [done|]. intros [checks healthy] ?.
  apply wp_past; [done|]. intros _ ?.
  destruct (dependencyFailure checks); [apply wp_refused|]. wp_step. wp_step. cbv zeta. apply wp_past; [done|]. intros _ ?.
  apply wp_past; [done|]. intros connected ?. apply wp_past; [done|]. intros _ ?. destruct connected; [apply wp_finish_healthy|apply wp_refused].
Qed.

Lemma wp_Health_healthy E id (r : State) : wp E (Health id) (fun x r' => x = Ok tt -> healthy_now id r') r.
Proof.
  pose proof (frame_preorder (H := H) (X := X) id) as Hpre. pose proof (frame_leaves (H := H) (X := X) id) as L.
  unfold Health. wp_step. wp_step. cbn beta iota. wp_step. wp_step. destruct (rg_manifests r !! id) as [m|]; [|by apply wp_throw].
  destruct (negb _); [by apply wp_throw|].
  apply (wp_framed E id); [by apply walk_others|done|]. intros r1 F1. wp_step. wp_step. wp_step.
  eapply wp_mono; [apply obeys_wp, (walk_host _ L)|]. intros [[checks healthy]|e] r2 F2; [|done].
  apply (wp_framed E id); [by apply walk_others|done|]. intros r3 F3. destruct (dependencyFailure checks); [apply wp_refused|].
  destruct (rg_sessions r !! id) as [s|] eqn:Hn; [|apply wp_refused]. wp_step. wp_step.
  eapply wp_mono; [apply obeys_wp, (walk_library _ L)|]. intros x r4 F4. cbn beta iota.
  apply (wp_framed E id); [by apply walk_others|done|]. intros r5 F5. destruct x as [[]|e].
  - wp_step. wp_step. apply wp_bind, wp_since. intros d. apply wp_registered_healthy; [done|].
    assert (F : frame id r r5) by (do 4 (etransitivity; [eassumption|]); done). destruct F as [-> _]. rewrite Hn. by eexists.
  - apply wp_past; [done|]. intros _ r6.
    assert (Hend : forall r, wp E (close_session s ;;; others ;;;
        modify (fun r => if base.decide (rg_sessions r !! id = Some s) then remove_session id r else r) ;;; others ;;;
        recordHealthFailure id (clock E n) checks e ;;; throw (A := unit) e) (fun x r' => x = Ok tt -> healthy_now id r') r).
    { intros r0. do 4 (apply wp_past; [done|]; intros _ ?). apply wp_refused. }
    wp_step. wp_step. apply wp_ctx_check; [apply Hend|]. intros no. destruct no; try apply Hend. by apply wp_throw.
Qed.

Lemma frame_check_each id ids : id ∉ ids -> obeys (on_st (frame id)) (check_each (H := H) (X := X) ids).
Proof.
  intros Hn. pose proof (frame_leaves (H := H) (X := X) id) as L.
  apply walk_check_each; [done| |]; intros o Ho; [apply walk_Discover|apply walk_Health]; try done; apply frame_leaves_of; by intros ->.
Qed.

Lemma wp_check_each_healthy E ids (r : State) : NoDup ids ->
  wp E (check_each ids) (fun x r' => x = Ok [] -> forall id, id ∈ ids -> healthy_now id r') r.
Proof.
  intros Hd. revert r. induction Hd as [|id ids Hn Hd IH]; intros r; cbn [check_each].
  { apply wp_ret. by intros _ id Hin%elem_of_nil. }
  wp_step. wp_step. apply wp_ctx_check; [|intros no; by apply wp_ret]. cbn beta iota.
  apply wp_past; [done|]. intros _ r1. wp_step. wp_step. cbn beta iota. apply wp_past; [done|]. intros _ r2. wp_step. wp_step.
  assert (Hc : wp E (match rg_sessions r1 !! id with None => Discover id | Some _ => Health id end) (fun x r' => x = Ok tt -> healthy_now id r') r2).
  { destruct (rg_sessions r1 !! id); [apply wp_Health_healthy|apply wp_Discover_healthy]. }
  eapply wp_mono; [exact Hc|]. intros x r3 Hx. cbn beta iota. wp_step.
  eapply wp_mono; [apply wp_both; [apply IH|apply obeys_wp, frame_check_each, Hn]|]. intros [errs|e] r4 [Hrest Hf]; [|done].
  apply wp_ret. destruct x as [[]|e]; [|done]. intros [= ->] id' Hin. apply elem_of_cons in Hin as [->|Hin]; [|by apply Hrest].
  eapply healthy_frame; [exact Hf|by apply Hx].
Qed.

Lemma join_none errs : errors_join_list errs = None -> errs = [].
Proof. destruct errs as [|e errs]; [done|]. cbn. by destruct (errors_join_list errs). Qed.

Lemma enabled_ids_spec (r : State) : NoDup (enabled_ids r) /\
  forall id, id ∈ enabled_ids r <-> exists m, rg_manifests r !! id = Some m /\ mf_Enabled m = true.
Proof.
  unfold enabled_ids. split.
  - rewrite merge_sort_Permutation. pose proof (NoDup_fst_map_to_list (rg_manifests r)) as Hd.
    induction (map_to_list (rg_manifests r)) as [|[id m] l IH]; cbn in *; [constructor|].
    apply NoDup_cons in Hd as [Hn Hd]. destruct (mf_Enabled m); cbn; [|by apply IH]. apply NoDup_cons. split; [|by apply IH].
    intros Hin. apply Hn. apply list_elem_of_In, in_map_iff in Hin as ([id' m']&Heq&Hin). cbn in Heq. subst id'.
    apply filter_In in Hin as [Hin _]. apply list_elem_of_fmap. exists (id, m'). split; [done|by apply list_elem_of_In].
  - intros id. rewrite merge_sort_Permutation, list_elem_of_In, in_map_iff. split.
    + intros ([id' m]&Heq&Hin). cbn in Heq. subst id'. apply filter_In in Hin as [Hin He]. exists m. split; [|done].
      by apply elem_of_map_to_list, list_elem_of_In.
    + intros (m&Hm&He). exists (id, m). split; [done|]. apply filter_In. split; [|done].
      by apply list_elem_of_In, elem_of_map_to_list.
Qed.

(** A health cycle without an error leaves every enabled server healthy.
    When [CheckAll] returns nil, each server that was enabled is [HEALTHY] and
    has an open session, whether it was pinged or discovered again, and
    whatever the others did meanwhile. *)
Theorem clean_cycle_heals (E : Env) (perServerTimeout : Z) (r : State) :
  wp E (CheckAll perServerTimeout) (fun x r' => x = Ok tt ->
    forall id m, rg_manifests r !! id = Some m -> mf_Enabled m = true -> healthy_now id r') r.
Proof.
  unfold CheckAll. destruct (perServerTimeout <=? 0); [by apply wp_throw|]. wp_step. wp_step. wp_step.
  destruct (enabled_ids_spec r) as [Hd Hin]. eapply wp_mono; [by apply wp_check_each_healthy|]. intros [errs|e] r1 Hr; [|done].
  unfold joined. destruct (errors_join_list errs) eqn:He; [by apply wp_throw|]. apply wp_ret. intros _ id m Hm Hen.
  apply join_none in He as ->. apply Hr; [done|]. apply Hin. by exists m.
Qed.
End Theorems.

(** ** The registry as the agent sees it
    [main] gives it to the orchestrator as [ToolCaller] and
    [CapabilitySource], beside the planner. *)
Section AgentSide.
Context {H X P : Type} `{Machine H} `{PathLookup H} `{McpLibrary X} (decide : DecisionRequest -> Z -> M P Decision_).

Record AgentOutside := MkAgentOutside {
  ao_registry : Registry H X;
  ao_planner : P
}.

#[export] Instance registry_outside : Outside AgentOutside := {|
  out_Decide request remaining :=
    zoom ao_planner (fun v s => MkAgentOutside (ao_registry s) v) (decide request remaining);
  out_AvailableTools s := AvailableTools (ao_registry s);
  out_CallTool serverID name arguments :=
    zoom ao_registry (fun v s => MkAgentOutside v (ao_planner s)) (CallTool serverID name arguments)
|}.
End AgentSide.

(** ** A server that is discovered, called, restarted and disabled *)
Module Lab.
#[local] Instance lab_machine : Machine unit := {|
  ReadFile := fun _ => throw (ESys ENOENT);
  ReadDir := fun _ => throw (ESys ENOENT);
  Readlink := fun _ => throw (ESys ENOENT);
  EvalSymlinks := fun p => ret p;
  Lstat := fun _ => ret (MkFileInfo 3 100 420 None);
  Stat := fun p => if String.eqb p "/missing" then throw (ESys ENOENT) else ret (MkFileInfo 3 100 420 None);
  RunCommand := fun _ _ => throw (ESys ENOENT);
  SendSignal := fun _ _ => throw (ESys ESRCH)
|}.
#[local] Instance lab_lookup : PathLookup unit := {| LookPath := fun name => ret ("/usr/bin/" +:+ name); FilepathAbs := fun p => ret p |}.

Definition lab_tools : list McpTool := [
  MkMcpTool "system.get_memory" "" "reads the memory" (JObj []) JNull JNull;
  MkMcpTool "system.get_cpu" "" "reads the processor" (JObj []) JNull JNull].

(** The first session does not survive the first ping. *)
#[local] Instance lab_library : McpLibrary unit := {|
  Connect _ _ := ret tt;
  InitializeResult _ _ := Some (MkInitialized (Some ("system", "1.0")) "2025-06-18");
  SessionTools _ := ret lab_tools;
  Ping session := if (session =? 0)%nat then throw (ESys EIO) else ret tt;
  CallSession _ _ _ := ret (MkCallToolResult false [] None);
  CloseSession _ := throw (ESys EIO)
|}.

Definition manifest (id dependency : string) : ServerManifest :=
  MkServerManifest id id "" "" "" "stdio" "/opt/mcp" [] true "" "" [] [dependency] ∅.
Definition cfg : RegistryConfig := MkRegistryConfig [manifest "system" "systemctl"; manifest "disk" "/missing"].

Definition alone (t : Z) (step : registry_step) : registry_turn := MkTurn (calm t "") [] step.

Definition usage : list registry_turn := [
  alone 5 Started;
  alone 6 (ToolCalled "system" "system.get_cpu" ∅);
  alone 7 (ToolCalled "system" "system.reboot" ∅);
  alone 8 (ToolCalled "disk" "disk.usage" ∅);
  alone 9 (CycleRun 1);
  alone 10 (ToolCalled "system" "system.get_cpu" ∅);
  alone 11 (CycleRun 1);
  alone 12 (ToolCalled "system" "system.get_memory" ∅)].
Abbreviation used := (registry_run usage (New tt tt cfg)).

Example registry_used :
  rg_log used = [Listed "system" 0 ["system.get_memory"; "system.get_cpu"]; Registered "system" 0;
                 LookedUp 0 "system" 0 "system.get_cpu"; Called 0 "system" 0 "system.get_cpu"; PingFailed 0; Closed 0; Removed 0;
                 Listed "system" 1 ["system.get_memory"; "system.get_cpu"]; Registered "system" 1;
                 LookedUp 1 "system" 1 "system.get_memory"; Called 1 "system" 1 "system.get_memory"] /\
  map (fun s => (mf_ID (ss_Manifest s), ss_Status s, length (ss_HealthHistory s))) (States used)
    = [("disk", StatusUnhealthy, 3%nat); ("system", StatusHealthy, 3%nat)] /\
  map tc_Name (AvailableTools used) = ["system.get_cpu"; "system.get_memory"].
Proof. vm_compute. repeat split; reflexivity. Qed.

(** The window in [Health]: its ping of session 0 has failed and the session
    is closed, but it is still in the map and its server [HEALTHY]; a call
    then finds it and is sent to it.  A call that found it before the check is
    sent when it has left the map. *)
Definition while_health : list registry_turn := [
  alone 5 Started;
  alone 6 (Acted (LooksUp "system" "system.get_memory" ∅));
  MkTurn (calm 7 "") [[]; []; []; [LooksUp "system" "system.get_cpu" ∅; Sends 1]; [LooksUp "system" "system.get_cpu" ∅; Sends 0]]
    (HealthChecked "system")].

Example called_in_the_window :
  rg_log (registry_run while_health (New tt tt cfg)) =
    [Listed "system" 0 ["system.get_memory"; "system.get_cpu"]; Registered "system" 0; LookedUp 0 "system" 0 "system.get_memory";
     PingFailed 0; Closed 0; LookedUp 1 "system" 0 "system.get_cpu"; Called 1 "system" 0 "system.get_cpu";
     Removed 0; Called 0 "system" 0 "system.get_memory"].
Proof. vm_compute. reflexivity. Qed.

Lemma available_exact_witness :
  (exists c, c ∈ AvailableTools used /\ tc_ServerID c = "system" /\ tc_Name c = "system.get_cpu") <->
  (exists m, rg_manifests used !! "system" = Some m /\ mf_Enabled m = true) /\ is_ok (may_call used "system" "system.get_cpu") = true.
Proof. apply (available_exact tt tt cfg usage). repeat constructor. Defined.

(** A call is under way when the server is disabled: it is sent later, on the
    closed session. *)
Definition under_way : list registry_turn := usage ++ [alone 13 (Acted (LooksUp "system" "system.get_cpu" ∅))].
Definition off_now : Registry unit unit :=
  among (SetEnabled "system" false) (calm 14 "") [[Flags "disk" true]] (registry_run under_way (New tt tt cfg)).
Definition later : list registry_turn := usage ++ [alone 15 (Acted (Sends 2))].

Example sent_after : rg_log (registry_run later off_now) = rg_log off_now ++ [Called 2 "system" 1 "system.get_cpu"].
Proof. vm_compute. reflexivity. Qed.

Lemma disabled_stays_silent_witness : exists ev,
  rg_log (registry_run later off_now) = rg_log off_now ++ ev /\
  (forall k s name, LookedUp k "system" s name ∉ ev) /\
  (forall k s name, Called k "system" s name ∈ ev ->
     is_Some (rg_calls off_now !! k) /\ LookedUp k "system" s name ∈ rg_log off_now /\ Closed s ∈ rg_log off_now) /\
  (rg_calls off_now = ∅ -> forall k s name, Called k "system" s name ∉ ev).
Proof.
  apply (disabled_stays_silent tt tt cfg under_way later (calm 14 "") [[Flags "disk" true]] "system" (manifest "system" "systemctl"));
    [vm_compute; reflexivity|repeat constructor..].
Defined.
End Lab.
