(* ===== verification/Decode.v ===== *)
(** * [encoding/json]: reading into typed destinations

    The evidence a tool server returns is an untyped value; the workflows
    encode it again and decode it into structs ([decodeStructured] of
    [internal/agent/port_workflow.go]).  A decoder takes a value and what the
    destination holds, and fails on a value of the wrong type or out of range.
    A field is set by every key of its name up to case, in the order of the
    keys; [null] leaves a scalar as it is.  A [float64] field is kept as the
    literal it is encoded to. *)

From S2P Require Import Prelude GoStrings GoText Json Planner Platform Agent.
Open Scope Z_scope.

Definition decoder (A : Type) : Type := json -> A -> option A.

Definition dec_string : decoder string := fun j prev =>
  match j with JStr s => Some s | JNull => Some prev | _ => None end.
Definition dec_bool : decoder bool := fun j prev =>
  match j with JBool b => Some b | JNull => Some prev | _ => None end.
Definition ok_ {A} (r : result A) : option A := match r with Ok a => Some a | Err _ => None end.
Definition dec_int : decoder Z := fun j prev =>
  match j with JNum lit => ok_ (Atoi lit) | JNull => Some prev | _ => None end.
Definition dec_uint64 : decoder Z := fun j prev =>
  match j with JNum lit => ok_ (ParseUint lit) | JNull => Some prev | _ => None end.
Definition dec_float : decoder string := fun j prev =>
  match j with
  | JNum lit => match ParseFloat lit with Some _ => Some lit | None => None end
  | JNull => Some prev
  | _ => None
  end.

(** A slice that may be nil: [None] is nil, which is encoded as [null]. *)
Definition dec_slice {A} (d : decoder A) (zero : A) : decoder (option (list A)) := fun j _ =>
  match j with
  | JArr l => option_map Some (all_some (map (fun x => d x zero) l))
  | JNull => Some None
  | _ => None
  end.

Definition slice_json {A} (f : A -> json) (l : option (list A)) : json :=
  match l with None => JNull | Some l => JArr (map f l) end.

(** The name of a field, up to case: beyond ASCII only the long s and the
    Kelvin sign fold to a letter. *)
Fixpoint fold_name (s : string) : string :=
  match s with
  | "" => ""
  | String c s' =>
    match s' with
    | String d t =>
      if Ascii.eqb c (chr 197) && Ascii.eqb d (chr 191) then String "s" (fold_name t)
      else match t with
           | String e u =>
             if Ascii.eqb c (chr 226) && Ascii.eqb d (chr 132) && Ascii.eqb e (chr 170) then String "k" (fold_name u)
             else String (lower_ascii c) (fold_name s')
           | "" => String (lower_ascii c) (fold_name s')
           end
    | "" => String (lower_ascii c) ""
    end
  end.

Fixpoint dec_field {A} (name : string) (d : decoder A) (fields : list (string * json)) (prev : A) : option A :=
  match fields with
  | [] => Some prev
  | (k, v) :: fields =>
    if String.eqb (fold_name k) name
    then match d v prev with Some a => dec_field name d fields a | None => None end
    else dec_field name d fields prev
  end.

Definition dec_struct {A} (d : list (string * json) -> A -> option A) : decoder A := fun j prev =>
  match j with JObj fields => d fields prev | JNull => Some prev | _ => None end.

Notation "'let+' x := m 'in' k" := (match m with Some x => k | None => None end)
  (at level 10, x binder, m at level 100, k at level 200,
   format "'[v' 'let+'  x  :=  m  'in' '/' k ']'") : go_scope.

(** ** The structs of the evidence *)
Definition zero_service : ServiceStatus := MkServiceStatus "" "" "" "" "" 0 0 0 "".

Definition dec_service : decoder ServiceStatus := dec_struct (fun l p =>
  let+ name := dec_field "name" dec_string l (ss_Name p) in
  let+ description := dec_field "description" dec_string l (ss_Description p) in
  let+ load := dec_field "load_state" dec_string l (ss_LoadState p) in
  let+ active := dec_field "active_state" dec_string l (ss_ActiveState p) in
  let+ sub := dec_field "sub_state" dec_string l (ss_SubState p) in
  let+ pid := dec_field "main_pid" dec_int l (ss_MainPID p) in
  let+ status := dec_field "exec_main_status" dec_int l (ss_ExecMainStatus p) in
  let+ restarts := dec_field "restart_count" dec_uint64 l (ss_RestartCount p) in
  let+ fragment := dec_field "fragment_path" dec_string l (ss_FragmentPath p) in
  Some (MkServiceStatus name description load active sub pid status restarts fragment)).

Definition zero_process : ProcessInfo := MkProcessInfo 0 0 "" "" 0 "" "" 0 0 0.

Definition dec_process : decoder ProcessInfo := dec_struct (fun l p =>
  let+ pid := dec_field "pid" dec_int l (pi_PID p) in
  let+ ppid := dec_field "ppid" dec_int l (pi_PPID p) in
  let+ name := dec_field "name" dec_string l (pi_Name p) in
  let+ state := dec_field "state" dec_string l (pi_State p) in
  let+ uid := dec_field "uid" dec_int l (pi_UID p) in
  let+ command := dec_field "command" dec_string l (pi_Command p) in
  let+ executable := dec_field "executable" dec_string l (pi_Executable p) in
  let+ start := dec_field "start_ticks" dec_uint64 l (pi_StartTicks p) in
  let+ cpu := dec_field "cpu_ticks" dec_uint64 l (pi_CPUTicks p) in
  let+ rss := dec_field "rss_bytes" dec_uint64 l (pi_RSSBytes p) in
  Some (MkProcessInfo pid ppid name state uid command executable start cpu rss)).

(** [internal/rca/rca.go] *)
Definition D1 : string := "D1".
Definition D2 : string := "D2".

Record ConfidenceComponents := MkConfidenceComponents {
  cc_SignalMatch : string;
  cc_LogPatternMatch : string;
  cc_GraphConsistency : string;
  cc_CaseSimilarity : string
}.

Record CandidateCause := MkCandidateCause {
  cu_Cause : string;
  cu_Score : string;
  cu_EvidenceRefs : option (list string)
}.

Record RCA := MkRCA {
  rca_DiagnosisLevel : string;
  rca_RootCause : string;
  rca_Confidence : string;
  rca_ConfidenceComponents : ConfidenceComponents;
  rca_CandidateCauses : option (list CandidateCause);
  rca_Culprit : string;
  rca_EvidenceRefs : option (list string);
  rca_MissingEvidence : option (list string);
  rca_Remediation : option (list string)
}.

Definition zero_components : ConfidenceComponents := MkConfidenceComponents "0" "0" "0" "0".
Definition zero_cause : CandidateCause := MkCandidateCause "" "0" None.
Definition zero_rca : RCA := MkRCA "" "" "0" zero_components None "" None None None.
Definition dec_strings : decoder (option (list string)) := dec_slice dec_string "".

Definition dec_components : decoder ConfidenceComponents := dec_struct (fun l p =>
  let+ signal := dec_field "signal_match" dec_float l (cc_SignalMatch p) in
  let+ log := dec_field "log_pattern_match" dec_float l (cc_LogPatternMatch p) in
  let+ graph := dec_field "graph_consistency" dec_float l (cc_GraphConsistency p) in
  let+ similarity := dec_field "case_similarity" dec_float l (cc_CaseSimilarity p) in
  Some (MkConfidenceComponents signal log graph similarity)).

Definition dec_cause : decoder CandidateCause := dec_struct (fun l p =>
  let+ cause := dec_field "cause" dec_string l (cu_Cause p) in
  let+ score := dec_field "score" dec_float l (cu_Score p) in
  let+ refs := dec_field "evidence_refs" dec_strings l (cu_EvidenceRefs p) in
  Some (MkCandidateCause cause score refs)).

Definition dec_rca : decoder RCA := dec_struct (fun l p =>
  let+ level := dec_field "diagnosis_level" dec_string l (rca_DiagnosisLevel p) in
  let+ root := dec_field "root_cause" dec_string l (rca_RootCause p) in
  let+ confidence := dec_field "confidence" dec_float l (rca_Confidence p) in
  let+ components := dec_field "confidence_components" dec_components l (rca_ConfidenceComponents p) in
  let+ causes := dec_field "candidate_causes" (dec_slice dec_cause zero_cause) l (rca_CandidateCauses p) in
  let+ culprit := dec_field "culprit" dec_string l (rca_Culprit p) in
  let+ refs := dec_field "evidence_refs" dec_strings l (rca_EvidenceRefs p) in
  let+ missing := dec_field "missing_evidence" dec_strings l (rca_MissingEvidence p) in
  let+ remediation := dec_field "remediation" dec_strings l (rca_Remediation p) in
  Some (MkRCA level root confidence components causes culprit refs missing remediation)).

(** [retrieval.Result] of [internal/retrieval/retrieval.go] *)
Record Knowledge := MkKnowledge {
  kn_DocumentID : string;
  kn_Score : string;
  kn_MatchedTerms : option (list string);
  kn_Source : string;
  kn_Title : string
}.

Definition zero_knowledge : Knowledge := MkKnowledge "" "0" None "" "".

Definition dec_knowledge : decoder Knowledge := dec_struct (fun l p =>
  let+ id := dec_field "document_id" dec_string l (kn_DocumentID p) in
  let+ score := dec_field "score" dec_float l (kn_Score p) in
  let+ terms := dec_field "matched_terms" dec_strings l (kn_MatchedTerms p) in
  let+ source := dec_field "source" dec_string l (kn_Source p) in
  let+ title := dec_field "title" dec_string l (kn_Title p) in
  Some (MkKnowledge id score terms source title)).

(** [safefs.Metadata]; the time is only decoded, by [time.Time]'s own
    parser. *)
Class TimeParse := parse_time : string -> option Z.

Record Metadata := MkMetadata {
  md_Path : string;
  md_Name : string;
  md_SizeBytes : Z;
  md_Mode : string;
  md_IsDir : bool;
  md_IsRegular : bool;
  md_Modified : Z
}.

Definition zero_metadata : Metadata := MkMetadata "" "" 0 "" false false zero_time.

Definition dec_time `{TimeParse} : decoder Z := fun j prev =>
  match j with JStr s => parse_time s | JNull => Some prev | _ => None end.

Definition dec_metadata `{TimeParse} : decoder Metadata := dec_struct (fun l p =>
  let+ path := dec_field "path" dec_string l (md_Path p) in
  let+ name := dec_field "name" dec_string l (md_Name p) in
  let+ size := dec_field "size_bytes" dec_int l (md_SizeBytes p) in
  let+ mode := dec_field "mode" dec_string l (md_Mode p) in
  let+ dir := dec_field "is_dir" dec_bool l (md_IsDir p) in
  let+ regular := dec_field "is_regular" dec_bool l (md_IsRegular p) in
  let+ modified := dec_field "modified" dec_time l (md_Modified p) in
  Some (MkMetadata path name size mode dir regular modified)).

(** ** Encodings *)
Definition strings_json : option (list string) -> json := slice_json JStr.

Definition components_json (c : ConfidenceComponents) : json :=
  JObj [("signal_match", JNum (cc_SignalMatch c)); ("log_pattern_match", JNum (cc_LogPatternMatch c));
        ("graph_consistency", JNum (cc_GraphConsistency c)); ("case_similarity", JNum (cc_CaseSimilarity c))].

Definition cause_json (c : CandidateCause) : json :=
  JObj [("cause", JStr (cu_Cause c)); ("score", JNum (cu_Score c)); ("evidence_refs", strings_json (cu_EvidenceRefs c))].

Definition rca_json (r : RCA) : json :=
  JObj ([("diagnosis_level", JStr (rca_DiagnosisLevel r))]
    ++ omit (String.eqb (rca_RootCause r) "") "root_cause" (JStr (rca_RootCause r))
    ++ [("confidence", JNum (rca_Confidence r)); ("confidence_components", components_json (rca_ConfidenceComponents r));
        ("candidate_causes", slice_json cause_json (rca_CandidateCauses r))]
    ++ omit (String.eqb (rca_Culprit r) "") "culprit" (JStr (rca_Culprit r))
    ++ [("evidence_refs", strings_json (rca_EvidenceRefs r)); ("missing_evidence", strings_json (rca_MissingEvidence r));
        ("remediation", strings_json (rca_Remediation r))]).

Definition knowledge_json (k : Knowledge) : json :=
  JObj [("document_id", JStr (kn_DocumentID k)); ("score", JNum (kn_Score k)); ("matched_terms", strings_json (kn_MatchedTerms k));
        ("source", JStr (kn_Source k)); ("title", JStr (kn_Title k))].

