(* ===== verification/Safefs.v ===== *)
(** * [internal/safefs]: bounded reads below allowlisted roots

    The reader behind the file and configuration servers ([reader.go]): the
    roots it holds open, the choice of the root of a path, the opening of a
    path below it without following a link, with [openat2] or component by
    component ([secure_linux.go]), the walk over a directory, and the readings
    with their bounds.  The descriptors and their system calls are the class
    [Descriptors]. *)

From S2P Require Import Prelude GoStrings GoText GoPath Json Unicode Hash Contracts Platform Planner Handlers Store Agent Network Decode.
Open Scope Z_scope.

(** ** The system calls *)

(** What is asked beside [O_CLOEXEC|O_NOFOLLOW]; neither is [O_RDONLY]. *)
Record OpenFlags := MkOpenFlags {
  fl_PATH : bool;
  fl_DIRECTORY : bool
}.
Definition O_PATH : OpenFlags := MkOpenFlags true false.
Definition O_RDONLY : OpenFlags := MkOpenFlags false false.
Definition O_RDONLY_DIRECTORY : OpenFlags := MkOpenFlags false true.
Definition O_PATH_DIRECTORY : OpenFlags := MkOpenFlags true true.

(** An entry of a directory: its name, and whether its type is a link. *)
Record NameEntry := MkNameEntry {
  ne_Name : string;
  ne_Symlink : bool
}.

(** A descriptor; its number as text.  [unix_Openat2] is asked to resolve
    beneath the descriptor, without magic links and without symbolic links;
    [open_again] opens [/proc/self/fd/N] for reading; [fd_Read] reads at most
    so many bytes up to the end of the file. *)
Class Descriptors (H : Type) := {
  FD : Type;
  fd_text : FD -> string;
  unix_Open : string -> OpenFlags -> M H FD;
  unix_Dup : FD -> M H FD;
  unix_Openat2 : FD -> string -> OpenFlags -> M H FD;
  unix_Openat : FD -> string -> OpenFlags -> M H FD;
  open_again : FD -> M H FD;
  fd_Stat : FD -> M H FileInfo;
  fd_ReadDir : FD -> M H (list NameEntry);
  fd_Read : FD -> Z -> M H string;
  fd_Readlink : FD -> M H string;
  fd_Close : FD -> M H unit
}.

Definition is_link (info : FileInfo) : bool := negb (Z.land (fi_Mode info) ModeSymlink =? 0).

Definition name_le (a b : NameEntry) : Prop := String.le (ne_Name a) (ne_Name b).
#[export] Instance name_le_dec a b : Decision (name_le a b).
Proof. unfold name_le. apply _. Defined.

(** ** Records of [reader.go] *)
Definition DefaultHashLimit : Z := 16777216.
Definition DefaultTotalLimit : Z := 33554432.
Definition maxSnapshotDepth : Z := 64.

Record FileHash := MkFileHash {
  fh_Metadata : Metadata;
  fh_SHA256 : string;
  fh_BytesRead : Z
}.
Record SnapshotEntry := MkSnapshotEntry {
  sne_RelativePath : string;
  sne_SizeBytes : Z;
  sne_Modified : Z;
  sne_SHA256 : string
}.
Record SkippedEntry := MkSkippedEntry {
  sk_RelativePath : string;
  sk_Reason : string
}.
Record Snapshot := MkSnapshot {
  sns_Root : string;
  sns_Entries : list SnapshotEntry;
  sns_Skipped : list SkippedEntry;
  sns_HashedBytes : Z;
  sns_Truncated : bool
}.
Record DirectoryUsage := MkDirectoryUsage {
  us_Path : string;
  us_SizeBytes : Z;
  us_Files : Z;
  us_Directories : Z;
  us_Skipped : Z;
  us_Truncated : bool
}.

(** ** [securePathComponents] *)
Definition securePathComponents (relative : string) : result (list string) :=
  if String.eqb relative "" || String.eqb relative "." || IsAbs relative || negb (String.eqb (Clean relative) relative)
  then Err (EMsg "secure path must be a clean relative path")
  else
    let components := Split slash relative in
    if existsb (fun c => String.eqb c "" || String.eqb c "." || String.eqb c "..") components
    then Err (EMsg "secure path contains a forbidden component")
    else Ok components.

Section Reader.
Context {H : Type} `{Machine H} `{Descriptors H}.

Record AllowedRoot := MkAllowedRoot {
  ar_display : string;
  ar_canonical : string;
  ar_fd : FD
}.

(** [os.File]: what [Stat] calls the file is the base of its name. *)
Record File := MkFile {
  f_fd : FD;
  f_name : string
}.

Definition Close (f : File) : M H unit := fd_Close (f_fd f).
Definition quietly (m : M H unit) : M H unit := try_ m ;;; ret tt.

(** ** [secure_linux.go] *)

(** The components one by one; the directory before is closed once the next
    one was tried. *)
Fixpoint open_components (owned : option FD) (directory : FD) (components : list string) (flags : OpenFlags) : M H FD :=
  match components with
  | [] => throw (EMsg "secure path has no components")
  | component :: rest =>
    opened <- try_ (unix_Openat directory component (if nil_slice rest then flags else O_PATH_DIRECTORY)) ;;
    match owned with Some d => quietly (fd_Close d) | None => ret tt end ;;;
    match opened with
    | Err e => throw e
    | Ok fd =>
      stat <- try_ (fd_Stat fd) ;;
      match stat with
      | Err e => quietly (fd_Close fd) ;;; throw e
      | Ok info =>
        if is_link info then quietly (fd_Close fd) ;;; throw (EMsg "symlink paths are not allowed")
        else if nil_slice rest then ret fd
        else open_components (Some fd) fd rest flags
      end
    end
  end.

Definition openatNoSymlinks (rootFD : FD) (relative : string) (flags : OpenFlags) : M H FD :=
  components <- lift (securePathComponents relative) ;;
  open_components None rootFD components flags.

Definition secureOpenAt (directoryFD : FD) (relative : string) (flags : OpenFlags) : M H FD :=
  lift (securePathComponents relative) ;;;
  opened <- try_ (unix_Openat2 directoryFD relative flags) ;;
  match opened with
  | Ok fd => ret fd
  | Err e => if errors_is e ENOSYS then openatNoSymlinks directoryFD relative flags else throw e
  end.

(** The loop over the roots; no root is the zero value, without a name. *)
Fixpoint select_root (roots : list AllowedRoot) (clean : string) (selected : option (AllowedRoot * string))
  : option (AllowedRoot * string) :=
  match roots with
  | [] => selected
  | root :: roots =>
    let rel := Rel (ar_display root) clean in
    if negb (rel_stays_inside rel) then select_root roots clean selected
    else
      let better := match selected with
                    | None => true
                    | Some (s, _) => String.eqb (ar_display s) "" || (len (ar_display s) <? len (ar_display root))
                    end in
      match rel with
      | Ok rel => select_root roots clean (if better then Some (root, rel) else selected)
      | Err _ => select_root roots clean selected
      end
  end.

Definition rootFor (roots : list AllowedRoot) (path : string) : result (AllowedRoot * string) :=
  let clean := Clean (TrimSpace path) in
  if negb (IsAbs clean) then Err (EMsg "path must be absolute")
  else
    match select_root roots clean None with
    | Some (root, relative) =>
      if String.eqb (ar_display root) "" then Err (EMsg "path is outside all allowlisted roots") else Ok (root, relative)
    | None => Err (EMsg "path is outside all allowlisted roots")
    end.

Definition reopenPathFile (pathFile : File) (flags : OpenFlags) : M H File :=
  info <- fd_Stat (f_fd pathFile) ;;
  if IsDir info then
    fd <- unix_Openat (f_fd pathFile) "." flags ;; ret (MkFile fd (f_name pathFile))
  else
    fd <- open_again (f_fd pathFile) ;; ret (MkFile fd ("/proc/self/fd/" +:+ fd_text (f_fd pathFile))).

Definition openPath (roots : list AllowedRoot) (path : string) (flags : OpenFlags) : M H File :=
  found <- lift (rootFor roots path) ;;
  let '(root, relative) := found in
  if String.eqb relative "." then
    rootFD <- wrapping ("duplicate allowlisted root " +:+ ar_display root +:+ ": ") (unix_Dup (ar_fd root)) ;;
    let rootFile := MkFile rootFD (ar_canonical root) in
    if fl_PATH flags then ret rootFile
    else closing (Close rootFile) (reopenPathFile rootFile flags)
  else
    fd <- wrapping ("securely open " +:+ Clean path +:+ ": ") (secureOpenAt (ar_fd root) relative flags) ;;
    let file := MkFile fd (Clean path) in
    info <- try_ (fd_Stat fd) ;;
    match info with
    | Err e => quietly (Close file) ;;; throw e
    | Ok info =>
      if is_link info then quietly (Close file) ;;; throw (EMsg "symlink paths are not allowed")
      else ret file
    end.

(** *** The walk *)
Section Walk.
Context {V : Type}.

(** What a visitor is told: the path, the depth, and the file with its data
    unless it is a link.  It answers whether to descend and to stop. *)
Definition Visitor : Type := V -> string -> Z -> option (File * FileInfo) -> M H (V * (bool * bool)).
Variable visit : Visitor.

(** One entry: the visitor's state, and whether the loop ends. *)
Definition visit_link (relative : string) (depth : Z) (v : V) : M H (V * bool) :=
  visited <- visit v relative depth None ;; ret (fst visited, snd (snd visited)).

Definition walk_entry (walk : File -> string -> Z -> V -> M H V) (directory : File) (prefix : string) (parentDepth : Z)
    (entry : NameEntry) (v : V) : M H (V * bool) :=
  ctx_check ;;;
  let relative := PathJoin [prefix; ne_Name entry] in
  let depth := parentDepth + 1 in
  if ne_Symlink entry then visit_link relative depth v
  else
    opened <- try_ (secureOpenAt (f_fd directory) (ne_Name entry) O_PATH) ;;
    match opened with
    | Err e => if errors_is e ELOOP then visit_link relative depth v
               else throw (EWrap ("securely open " +:+ relative +:+ ": ") e)
    | Ok fd =>
      let pathFile := MkFile fd relative in
      stat <- try_ (fd_Stat fd) ;;
      match stat with
      | Err e => quietly (Close pathFile) ;;; throw e
      | Ok info =>
        if is_link info then quietly (Close pathFile) ;;; visit_link relative depth v
        else
          visited <- try_ (visit v relative depth (Some (pathFile, info))) ;;
          match visited with
          | Err e => quietly (Close pathFile) ;;; throw e
          | Ok (v, (descend, stop)) =>
            if stop : bool then quietly (Close pathFile) ;;; ret (v, true)
            else if descend && IsDir info then
              child <- try_ (reopenPathFile pathFile O_RDONLY_DIRECTORY) ;;
              match child with
              | Err e => quietly (Close pathFile) ;;; throw e
              | Ok child =>
                walked <- try_ (walk child relative depth v) ;;
                closed <- try_ (Close child) ;;
                match walked, closed with
                | Ok v, Ok _ => Close pathFile ;;; ret (v, false)
                | Ok _, Err e => quietly (Close pathFile) ;;; throw e
                | Err e, Ok _ => quietly (Close pathFile) ;;; throw e
                | Err e, Err e' => quietly (Close pathFile) ;;; throw (EJoin e e')
                end
              end
            else Close pathFile ;;; ret (v, false)
          end
      end
    end.

Fixpoint walk_entries (walk : File -> string -> Z -> V -> M H V) (directory : File) (prefix : string) (parentDepth : Z)
    (entries : list NameEntry) (v : V) : M H V :=
  match entries with
  | [] => ret v
  | entry :: entries =>
    step <- walk_entry walk directory prefix parentDepth entry v ;;
    let '(v, stop) := step in
    if stop : bool then ret v else walk_entries walk directory prefix parentDepth entries v
  end.

(** [fuel] counts the levels below; a stop ends the level it happens on. *)
Fixpoint walkDirectory (fuel : nat) (directory : File) (prefix : string) (parentDepth : Z) (v : V) : M H V :=
  match fuel with
  | O => throw (EMsg "too deep")
  | S fuel =>
    entries <- fd_ReadDir (f_fd directory) ;;
    walk_entries (walkDirectory fuel) directory prefix parentDepth (merge_sort name_le entries) v
  end.

Definition walk_fuel : nat := Z.to_nat maxSnapshotDepth.

Definition walk_with (fuel : nat) (roots : list AllowedRoot) (path : string) (v : V) : M H V :=
  root <- openPath roots path O_PATH ;;
  closing (Close root) (
    info <- fd_Stat (f_fd root) ;;
    if negb (IsDir info) then visited <- visit v "." 0 (Some (root, info)) ;; ret (fst visited)
    else
      directory <- reopenPathFile root O_RDONLY_DIRECTORY ;;
      closing (Close directory) (walkDirectory fuel directory "" 0 v)).

Definition walk : list AllowedRoot -> string -> V -> M H V := walk_with walk_fuel.
End Walk.

(** ** [reader.go] *)
Context `{UnicodeClass}.

(** One root; [None] for one that was opened before. *)
Definition open_root (root : string) (seen : list string) : M H (option AllowedRoot) :=
  lift (guard_ (String.eqb root "." || negb (IsAbs root)) (EMsg ("allowlisted root must be absolute: " +:+ Quote root))) ;;;
  lift (guard_ (String.eqb root "/") (EMsg "filesystem root cannot be allowlisted")) ;;;
  canonical <- wrapping ("resolve allowlisted root " +:+ root +:+ ": ") (EvalSymlinks root) ;;
  info <- wrapping ("stat allowlisted root " +:+ root +:+ ": ") (Stat canonical) ;;
  lift (guard_ (negb (IsDir info) && negb (IsRegular info))
          (EMsg ("allowlisted root must be a directory or regular file: " +:+ root))) ;;;
  if string_in root seen then ret None
  else
    fd <- wrapping ("open allowlisted root " +:+ root +:+ ": ") (unix_Open canonical O_PATH) ;;
    ret (Some (MkAllowedRoot root canonical fd)).

Fixpoint close_roots (cleaned : list AllowedRoot) : M H unit :=
  match cleaned with
  | [] => ret tt
  | root :: cleaned => quietly (fd_Close (ar_fd root)) ;;; close_roots cleaned
  end.

(** The roots opened so far are closed when one is refused. *)
Fixpoint open_roots (roots : list string) (cleaned : list AllowedRoot) : M H (list AllowedRoot) :=
  match roots with
  | [] => ret cleaned
  | root :: roots =>
    opened <- try_ (open_root (Clean (TrimSpace root)) (map ar_display cleaned)) ;;
    match opened with
    | Err e => close_roots cleaned ;;; throw e
    | Ok None => open_roots roots cleaned
    | Ok (Some root) => open_roots roots (cleaned ++ [root])
    end
  end.

Definition root_le (a b : AllowedRoot) : Prop := String.le (ar_display a) (ar_display b).
#[export] Instance root_le_dec a b : Decision (root_le a b).
Proof. unfold root_le. apply _. Defined.

Definition NewReader (roots : list string) : M H (list AllowedRoot) :=
  lift (guard_ (nil_slice roots) (EMsg "at least one allowlisted root is required")) ;;;
  cleaned <- open_roots roots [] ;;
  ret (merge_sort root_le cleaned).

Variable roots : list AllowedRoot.

Definition Roots : list string := map ar_display roots.

Definition metadata (path : string) (f : File) (info : FileInfo) : Metadata :=
  MkMetadata (Clean path) (Base (f_name f)) (fi_Size info) (mode_String (fi_Mode info)) (IsDir info) (IsRegular info) (fi_ModTime info).

Definition Resolve (path : string) : M H string :=
  file <- openPath roots path O_PATH ;; closing (Close file) (fd_Readlink (f_fd file)).

Definition Metadata_ (path : string) : M H Metadata :=
  ctx_check ;;;
  file <- openPath roots path O_PATH ;;
  closing (Close file) (info <- fd_Stat (f_fd file) ;; ret (metadata path file info)).

(** *** [List] *)
Definition list_visit (path : string) (limit : Z) : Visitor (V := list Metadata * bool) := fun v relative _ found =>
  let '(out, truncated) := v in
  if limit <=? Z.of_nat (length out) then ret ((out, true), (false, true))
  else
    let full := PathJoin [path; relative] in
    match found with
    | None => ret ((out ++ [MkMetadata full (Base relative) 0 (mode_String ModeSymlink) false false zero_time], truncated), (false, false))
    | Some (file, info) => ret ((out ++ [metadata full file info], truncated), (false, false))
    end.

Definition List_ (path : string) (limit : Z) : M H (list Metadata * bool) :=
  let limit := if limit <=? 0 then 100 else limit in
  lift (guard_ (500 <? limit) (EMsg "limit must not exceed 500")) ;;;
  ctx_check ;;;
  pathFile <- openPath roots path O_PATH ;;
  closing (Close pathFile) (
    info <- fd_Stat (f_fd pathFile) ;;
    lift (guard_ (negb (IsDir info)) (EMsg "path is not a directory")) ;;;
    directory <- reopenPathFile pathFile O_RDONLY_DIRECTORY ;;
    closing (Close directory) (walkDirectory (list_visit path limit) walk_fuel directory "" 0 ([], false))).

(** *** [Hash] *)
Definition hashOpenFile (file : File) (maxBytes : Z) : M H (string * FileInfo * Z) :=
  info <- fd_Stat (f_fd file) ;;
  lift (guard_ (negb (IsRegular info)) (EMsg "path is not a regular file")) ;;;
  lift (guard_ (maxBytes <? fi_Size info) (EMsg ("file exceeds max_bytes " +:+ show_Z maxBytes))) ;;;
  ctx_check ;;;
  content <- fd_Read (f_fd file) (maxBytes + 1) ;;
  lift (guard_ (maxBytes <? len content) (EMsg ("file grew beyond max_bytes " +:+ show_Z maxBytes))) ;;;
  ret (sha256_hex content, info, len content).

Definition Hash (path : string) (maxBytes : Z) : M H FileHash :=
  let maxBytes := if maxBytes <=? 0 then DefaultHashLimit else maxBytes in
  lift (guard_ (DefaultHashLimit <? maxBytes) (EMsg ("max_bytes must not exceed " +:+ show_Z DefaultHashLimit))) ;;;
  ctx_check ;;;
  file <- openPath roots path O_RDONLY ;;
  closing (Close file) (
    hashed <- hashOpenFile file maxBytes ;;
    let '(hash, info, bytesRead) := hashed in
    ret (MkFileHash (metadata path file info) hash bytesRead)).

(** *** [FindLarge] *)
Definition larger (a b : Metadata) : Prop :=
  md_SizeBytes b < md_SizeBytes a \/ md_SizeBytes a = md_SizeBytes b /\ String.le (md_Path a) (md_Path b).
#[export] Instance larger_dec a b : Decision (larger a b).
Proof. unfold larger. apply _. Defined.

Definition large_visit (path : string) (minimumBytes maxDepth : Z) : Visitor (V := list Metadata) := fun out relative depth found =>
  match found with
  | None => ret (out, (false, false))
  | Some (file, info) =>
    if maxDepth <? depth then ret (out, (false, false))
    else if IsDir info then ret (out, (depth <? maxDepth, false))
    else if IsRegular info && (minimumBytes <=? fi_Size info)
    then ret (out ++ [metadata (PathJoin [path; relative]) file info], (false, false))
    else ret (out, (false, false))
  end.

Definition FindLarge_with (fuel : nat) (path : string) (minimumBytes maxDepth limit : Z) : M H (list Metadata * bool) :=
  lift (guard_ (minimumBytes <? 0) (EMsg "minimum_bytes must not be negative")) ;;;
  let maxDepth := if maxDepth <=? 0 then 4 else maxDepth in
  lift (guard_ (16 <? maxDepth) (EMsg "max_depth must not exceed 16")) ;;;
  let limit := if limit <=? 0 then 50 else limit in
  lift (guard_ (200 <? limit) (EMsg "limit must not exceed 200")) ;;;
  found <- walk_with (large_visit path minimumBytes maxDepth) fuel roots path [] ;;
  let found := merge_sort larger found in
  ret (take (Z.to_nat limit) found, limit <? Z.of_nat (length found)).
Definition FindLarge : string -> Z -> Z -> Z -> M H (list Metadata * bool) := FindLarge_with walk_fuel.

(** *** [Usage] *)
Definition usage_visit (maxDepth maxEntries : Z) : Visitor (V := DirectoryUsage * Z) := fun v _ depth found =>
  let '(out, visited) := v in
  let '(MkDirectoryUsage path size files directories skipped truncated) := out in
  let skip := MkDirectoryUsage path size files directories (skipped + 1) truncated in
  let cut := MkDirectoryUsage path size files directories skipped true in
  match found with
  | None => if depth =? 0 then panic else ret ((skip, visited), (false, false))
  | Some (_, info) =>
    if depth =? 0 then
      if negb (IsDir info) then throw (EMsg "path is not a directory") else ret (v, (true, false))
    else if maxDepth <? depth then ret ((cut, visited), (false, false))
    else if maxEntries <=? visited then ret ((cut, visited), (false, true))
    else
      let visited := visited + 1 in
      if IsDir info then
        ret ((MkDirectoryUsage path size files (directories + 1) skipped truncated, visited), (depth <? maxDepth, false))
      else if IsRegular info then
        ret ((MkDirectoryUsage path (signed64 (size + fi_Size info)) (files + 1) directories skipped truncated, visited), (false, false))
      else ret ((skip, visited), (false, false))
  end.

Definition Usage_with (fuel : nat) (path : string) (maxDepth maxEntries : Z) : M H DirectoryUsage :=
  let maxDepth := if maxDepth <=? 0 then 4 else maxDepth in
  lift (guard_ (16 <? maxDepth) (EMsg "max_depth must not exceed 16")) ;;;
  let maxEntries := if maxEntries <=? 0 then 5000 else maxEntries in
  lift (guard_ (20000 <? maxEntries) (EMsg "max_entries must not exceed 20000")) ;;;
  out <- walk_with (usage_visit maxDepth maxEntries) fuel roots path (MkDirectoryUsage path 0 0 0 0 false, 0) ;;
  ret (fst out).
Definition Usage : string -> Z -> Z -> M H DirectoryUsage := Usage_with walk_fuel.

(** *** [Snapshot] *)
Definition with_skipped (out : Snapshot) (relative reason : string) (truncated : bool) : Snapshot :=
  MkSnapshot (sns_Root out) (sns_Entries out) (sns_Skipped out ++ [MkSkippedEntry relative reason]) (sns_HashedBytes out)
    (sns_Truncated out || truncated).

Definition snapshot_file (maxFileBytes : Z) (out : Snapshot) (relative : string) (file : File) : M H Snapshot :=
  readable <- reopenPathFile file O_RDONLY ;;
  hashed <- try_ (hashOpenFile readable maxFileBytes) ;;
  closed <- try_ (Close readable) ;;
  match hashed, closed with
  | Err e, Err e' => throw (EJoin e e')
  | Err e, Ok _ => throw e
  | Ok _, Err e => throw e
  | Ok (hash, currentInfo, bytesRead), Ok _ =>
    ret (MkSnapshot (sns_Root out) (sns_Entries out ++ [MkSnapshotEntry relative (fi_Size currentInfo) (fi_ModTime currentInfo) hash])
           (sns_Skipped out) (sns_HashedBytes out + bytesRead) (sns_Truncated out))
  end.

Definition snapshot_visit (limit maxFileBytes maxTotalBytes : Z) : Visitor (V := Snapshot) := fun out relative depth found =>
  if limit <=? Z.of_nat (length (sns_Entries out)) + Z.of_nat (length (sns_Skipped out)) then
    ret (MkSnapshot (sns_Root out) (sns_Entries out) (sns_Skipped out) (sns_HashedBytes out) true, (false, true))
  else
    match found with
    | None => ret (with_skipped out relative "symlink" false, (false, false))
    | Some (file, info) =>
      if IsDir info then
        if maxSnapshotDepth <=? depth then ret (with_skipped out relative "depth_limit" true, (false, false))
        else ret (out, (true, false))
      else if negb (IsRegular info) then ret (with_skipped out relative "not_regular" false, (false, false))
      else if maxFileBytes <? fi_Size info then ret (with_skipped out relative "file_limit" false, (false, false))
      else if maxTotalBytes <? sns_HashedBytes out + fi_Size info
      then ret (with_skipped out relative "total_limit" false, (false, false))
      else out <- snapshot_file maxFileBytes out relative file ;; ret (out, (false, false))
    end.

Definition entry_le (a b : SnapshotEntry) : Prop := String.le (sne_RelativePath a) (sne_RelativePath b).
#[export] Instance entry_le_dec a b : Decision (entry_le a b).
Proof. unfold entry_le. apply _. Defined.
Definition skipped_le (a b : SkippedEntry) : Prop := String.le (sk_RelativePath a) (sk_RelativePath b).
#[export] Instance skipped_le_dec a b : Decision (skipped_le a b).
Proof. unfold skipped_le. apply _. Defined.

(** The bounds in force. *)
Definition entry_limit (limit : Z) : Z := if limit <=? 0 then 200 else limit.
Definition file_limit (maxFileBytes : Z) : Z := if maxFileBytes <=? 0 then 4194304 else maxFileBytes.
Definition total_limit (maxTotalBytes : Z) : Z := if maxTotalBytes <=? 0 then DefaultTotalLimit else maxTotalBytes.

Definition Snapshot_with (fuel : nat) (path : string) (limit maxFileBytes maxTotalBytes : Z) : M H Snapshot :=
  let limit := entry_limit limit in
  lift (guard_ (500 <? limit) (EMsg "limit must not exceed 500")) ;;;
  let maxFileBytes := file_limit maxFileBytes in
  lift (guard_ (DefaultHashLimit <? maxFileBytes) (EMsg ("max_file_bytes must not exceed " +:+ show_Z DefaultHashLimit))) ;;;
  let maxTotalBytes := total_limit maxTotalBytes in
  lift (guard_ (DefaultTotalLimit <? maxTotalBytes) (EMsg ("max_total_bytes must not exceed " +:+ show_Z DefaultTotalLimit))) ;;;
  out <- walk_with (snapshot_visit limit maxFileBytes maxTotalBytes) fuel roots path (MkSnapshot path [] [] 0 false) ;;
  ret (MkSnapshot (sns_Root out) (merge_sort entry_le (sns_Entries out)) (merge_sort skipped_le (sns_Skipped out))
         (sns_HashedBytes out) (sns_Truncated out)).
Definition Snapshot_ : string -> Z -> Z -> Z -> M H Snapshot := Snapshot_with walk_fuel.
End Reader.

(** ** The root of a path *)

(** What is left of a path below its root. *)
Definition rel_text (rest : list string) : string := match rest with [] => "." | _ => Join rest "/" end.

Lemma Rel_of_rest root path rest : IsAbs root = true -> IsAbs path = true -> path_comps path = path_comps root ++ rest ->
  Rel root path = Ok (rel_text rest).
Proof.
  intros Hr Hp Hc. unfold Rel.
  pose proof (path_comps_normal root Hr) as Nr. pose proof (path_comps_normal path Hp) as Np.
  destruct (String.eqb_spec (Clean path) (Clean root)) as [E|NE].
  { apply Clean_eq_iff in E; [|done..]. rewrite E in Hc. rewrite <- (app_nil_r (path_comps root)) in Hc at 1.
    apply app_inv_head in Hc as <-. done. }
  rewrite !IsAbs_Clean, Hr, Hp. cbn [Bool.eqb negb].
  destruct (String.eqb_spec (Clean root) ".") as [E|_].
  { pose proof (IsAbs_Clean root) as H. rewrite E, Hr in H. discriminate H. }
  rewrite !Clean_abs, !rel_elems_abs by done.
  destruct (strip_common _ _) as [b t] eqn:Es. apply strip_common_spec in Es as (l&Eb&Et&Hd).
  rewrite Eb, <- app_assoc, Et in Hc. apply app_inv_head in Hc.
  destruct b as [|x b]; [|subst t; by destruct (Hd eq_refl)].
  cbn in Hc. subst t. destruct rest; [|done]. exfalso. apply NE, Clean_eq_iff; [done..|]. by rewrite Et, Eb, app_nil_r.
Qed.

Lemma clean_comps_rel stack cs : Forall normal cs -> clean_comps false stack cs = rev stack ++ cs.
Proof.
  revert stack. induction cs as [|c cs IH]; intros stack HF; cbn; [by rewrite app_nil_r|].
  inversion HF as [|? ? (?&?&?&?) HF']; subst.
  destruct (String.eqb_spec c ""); [done|]. destruct (String.eqb_spec c "."); [done|].
  destruct (String.eqb_spec c ".."); [done|]. cbn. rewrite IH by done. cbn. by rewrite <- app_assoc.
Qed.

Lemma secure_join c cs : Forall normal (c :: cs) -> securePathComponents (Join (c :: cs) "/") = Ok (c :: cs).
Proof.
  intros HF. assert (Hs : Split slash (Join (c :: cs) "/") = c :: cs) by (apply Split_Join; [done|by apply normal_no_slash]).
  inversion HF as [|? ? (H1&H2&H3&Hn) HF']; subst.
  assert (Ha : IsAbs (Join (c :: cs) "/") = false).
  { destruct c as [|a c]; [done|]. unfold no_slash in Hn. cbn in Hn. apply andb_true_iff in Hn as [Hn _].
    destruct cs; cbn -[Ascii.eqb IsAbs]; rewrite IsAbs_cons; by apply negb_true_iff in Hn. }
  unfold securePathComponents. rewrite Ha, Hs.
  rewrite (proj2 (String.eqb_neq _ _)) by (intros E; rewrite E in Hs; cbn in Hs; congruence).
  rewrite (proj2 (String.eqb_neq (Join _ _) ".")) by (intros E; rewrite E in Hs; cbn in Hs; congruence).
  assert (Hc : Clean (Join (c :: cs) "/") = Join (c :: cs) "/").
  { unfold Clean, path_comps. rewrite Ha, Hs, clean_comps_rel by done. done. }
  rewrite Hc, String.eqb_refl. cbn [orb negb].
  assert (He : existsb (fun c => String.eqb c "" || String.eqb c "." || String.eqb c "..") (c :: cs) = false).
  { apply not_true_iff_false. intros (x&Hx&Hb)%existsb_elem. rewrite Forall_forall in HF. destruct (HF x Hx) as (N1&N2&N3&_).
    rewrite !orb_true_iff, !String.eqb_eq in Hb. tauto. }
  by rewrite He.
Qed.

(** What passes is a list of normal components: nothing empty, no dots, no
    slash. *)
Lemma secure_normal relative cs : securePathComponents relative = Ok cs -> cs <> [] /\ Forall normal cs.
Proof.
  unfold securePathComponents. destruct (_ || _); [done|]. destruct (existsb _ _) eqn:He; [done|]. intros [= <-].
  split; [apply Split_nonempty|]. pose proof (Split_no_slash slash relative) as Hn. rewrite Forall_forall in *. intros c Hc.
  assert (Hb : negb (String.eqb c "" || String.eqb c "." || String.eqb c "..") = true).
  { apply negb_true_iff, not_true_iff_false. intros Ht. rewrite <- not_true_iff_false in He. apply He, existsb_elem. by exists c. }
  rewrite negb_true_iff, !orb_false_iff, !String.eqb_neq in Hb. destruct Hb as [[? ?] ?]. split_and!; [done..|]. by apply Hn.
Qed.

Lemma Join_longer a b : Forall normal b -> b <> [] -> (String.length ("/" +:+ Join a "/") < String.length ("/" +:+ Join (a ++ b) "/"))%nat.
Proof.
  intros Hb Hn. assert (Hl : (0 < String.length (Join b "/"))%nat).
  { destruct b as [|c b]; [done|]. inversion Hb as [|? ? (H1&_) _]; subst. destruct c; [done|]. destruct b; cbn; lia. }
  destruct a as [|x a]; [cbn in *; lia|]. rewrite Join_app by done. rewrite !string_length_app. cbn. lia.
Qed.

Section Roots.
Context {H : Type} `{Descriptors H}.

(** The roots of a reader are clean and absolute. *)
Definition rooted (roots : list AllowedRoot) : Prop :=
  Forall (fun r => IsAbs (ar_display r) = true /\ Clean (ar_display r) = ar_display r) roots.

Definition covers (clean : string) (root : AllowedRoot) : Prop := path_comps (ar_display root) `prefix_of` path_comps clean.

Lemma display_text (root : AllowedRoot) : IsAbs (ar_display root) = true /\ Clean (ar_display root) = ar_display root ->
  ar_display root = "/" +:+ Join (path_comps (ar_display root)) "/".
Proof. intros [Ha Hc]. by rewrite <- Clean_abs. Qed.

(** Of two roots of a path, the one with the longer name is the deeper. *)
Lemma deeper clean (a b : AllowedRoot) : IsAbs clean = true ->
  IsAbs (ar_display a) = true /\ Clean (ar_display a) = ar_display a -> IsAbs (ar_display b) = true /\ Clean (ar_display b) = ar_display b ->
  covers clean a -> covers clean b -> len (ar_display b) <= len (ar_display a) ->
  path_comps (ar_display b) `prefix_of` path_comps (ar_display a).
Proof.
  intros Hc Ha Hb [x Hx] [y Hy] Hl. rewrite (display_text a Ha), (display_text b Hb) in Hl. unfold len in Hl.
  destruct (prefix_weak_total (path_comps (ar_display a)) (path_comps (ar_display b)) (path_comps clean)) as [[k Hk]|Hp];
    [by exists x|by exists y| |done].
  destruct k as [|c k]; [rewrite app_nil_r in Hk; by rewrite Hk|].
  exfalso. pose proof (path_comps_normal _ (proj1 Hb)) as Hn. rewrite Hk in Hn, Hl. apply Forall_app in Hn as [_ Hn].
  pose proof (Join_longer (path_comps (ar_display a)) (c :: k) Hn ltac:(done)). lia.
Qed.

(** The loop keeps the longest so far. *)
Definition selects (clean : string) (seen : list AllowedRoot) (selected : option (AllowedRoot * string)) : Prop :=
  match selected with
  | None => forall root, root ∈ seen -> ~ covers clean root
  | Some (root, rel) =>
    root ∈ seen /\ (exists rest, path_comps clean = path_comps (ar_display root) ++ rest /\ rel = rel_text rest) /\
    forall other, other ∈ seen -> covers clean other -> len (ar_display other) <= len (ar_display root)
  end.

Lemma select_root_selects clean seen roots selected : IsAbs clean = true -> rooted roots -> rooted seen ->
  selects clean seen selected -> selects clean (seen ++ roots) (select_root roots clean selected).
Proof.
  intros Hc. revert seen selected. induction roots as [|root roots IH]; intros seen selected Hr Hseen Hs; cbn [select_root].
  { by rewrite app_nil_r. }
  inversion Hr as [|? ? Hroot Hr']; subst.
  assert (Hseen' : rooted (seen ++ [root])) by (apply Forall_app; split; [done|by constructor]).
  replace (seen ++ root :: roots) with ((seen ++ [root]) ++ roots) by (by rewrite <- app_assoc).
  pose proof (rel_inside_iff (ar_display root) clean (proj1 Hroot) Hc) as Hin.
  destruct (rel_stays_inside (Rel (ar_display root) clean)) eqn:Hrel; cbn [negb].
  2: { apply IH; [done|done|]. assert (Hno : ~ covers clean root) by (intros Hcv; apply Hin in Hcv; congruence).
       destruct selected as [[s rel]|]; cbn [selects] in *.
       - destruct Hs as (H1&H2&H3). split_and!; [by apply elem_of_app; left|done|]. intros other [Ho| ->%list_elem_of_singleton]%elem_of_app Hcv; [by apply H3|done].
       - intros r [Ho| ->%list_elem_of_singleton]%elem_of_app; [by apply Hs|done]. }
  destruct (proj1 Hin eq_refl) as [rest Hrest]. rewrite (Rel_of_rest _ _ rest) by (done || apply Hroot).
  apply IH; [done|done|]. destruct selected as [[s rel]|]; cbn [selects] in *.
  - destruct Hs as (H1&(k&Hk&->)&H3).
    assert (Hse : String.eqb (ar_display s) "" = false).
    { apply String.eqb_neq. intros E. unfold rooted in Hseen. rewrite Forall_forall in Hseen. destruct (Hseen s H1) as [Ha _]. by rewrite E in Ha. }
    rewrite Hse. cbn [orb]. destruct (Z.ltb_spec (len (ar_display s)) (len (ar_display root))) as [Hlt|Hge].
    + split_and!; [apply elem_of_app; right; by apply list_elem_of_singleton|by exists rest|].
      intros other [Ho| ->%list_elem_of_singleton]%elem_of_app Hcv; [|done]. specialize (H3 other Ho Hcv). lia.
    + split_and!; [by apply elem_of_app; left|by exists k|]. intros other [Ho| ->%list_elem_of_singleton]%elem_of_app Hcv; [by apply H3|done].
  - split_and!; [apply elem_of_app; right; by apply list_elem_of_singleton|by exists rest|].
    intros other [Ho| ->%list_elem_of_singleton]%elem_of_app Hcv; [by destruct (Hs other Ho)|done].
Qed.

(** C16: a path is read below the deepest root that covers it, and refused
    exactly when none does.  [rootFor] gives a root one of whose components
    lists starts the cleaned path, below which no other such root lies, and
    the rest of the path, which the secure opening accepts as the list of its
    components, none of them empty or dots; it fails exactly for a path that
    is not absolute or that no root covers. *)
Theorem rootFor_exact (roots : list AllowedRoot) (path : string) (Hroots : rooted roots) :
  let clean := Clean (TrimSpace path) in
  match rootFor roots path with
  | Ok (root, relative) =>
    IsAbs clean = true /\ root ∈ roots /\
    (exists rest, path_comps clean = path_comps (ar_display root) ++ rest /\ relative = rel_text rest /\
       (rest <> [] -> securePathComponents relative = Ok rest)) /\
    (forall other, other ∈ roots -> covers clean other -> path_comps (ar_display other) `prefix_of` path_comps (ar_display root))
  | Err _ => IsAbs clean = false \/ forall root, root ∈ roots -> ~ covers clean root
  end.
Proof.
  cbv zeta. unfold rootFor. set (clean := Clean (TrimSpace path)).
  destruct (IsAbs clean) eqn:Ha; cbn [negb]; [|by left].
  pose proof (select_root_selects clean [] roots None Ha Hroots ltac:(constructor) ltac:(by intros ? ?%elem_of_nil)) as Hs.
  cbn [app] in Hs. destruct (select_root roots clean None) as [[root relative]|]; cbn [selects] in Hs; [|by right].
  destruct Hs as (Hin&(rest&Hrest&->)&Hmax). pose proof Hroots as Hall. unfold rooted in Hall. rewrite Forall_forall in Hall.
  pose proof (Hall root Hin) as Hroot.
  rewrite (proj2 (String.eqb_neq (ar_display root) "")) by (intros E; destruct Hroot as [Hr _]; by rewrite E in Hr).
  split_and!; [done|done| |].
  - exists rest. split_and!; [done|done|]. intros Hne. destruct rest as [|c cs]; [done|]. apply secure_join.
    pose proof (path_comps_normal clean Ha) as Hn. rewrite Hrest in Hn. by apply Forall_app in Hn as [_ ?].
  - intros other Ho Hcv. apply (deeper clean); [done|done|by apply Hall|by exists rest|done|by apply Hmax].
Qed.
End Roots.

(** ** What a run gives back

    [yields m P]: whatever the descriptors answer, [P] holds of what [m]
    returns. *)
Definition yields {S A} (m : M S A) (P : A -> Prop) : Prop := forall E w x w', m E w = (Ok x, w') -> P x.

Section Yields.
Context {S : Type}.

Lemma yields_any {A} (m : M S A) : yields m (fun _ => True).
Proof. done. Qed.

Lemma yields_mono {A} (m : M S A) (P P' : A -> Prop) : yields m P -> (forall x, P x -> P' x) -> yields m P'.
Proof. intros Hm HP E w x w' Hx. eapply HP, Hm, Hx. Qed.

Lemma yields_ret {A} (x : A) (P : A -> Prop) : P x -> yields (@ret S A x) P.
Proof. by intros HP E w y w' [= <- _]. Qed.

Lemma yields_throw {A} e (P : A -> Prop) : yields (@throw S A e) P.
Proof. intros E w y w'. unfold throw. congruence. Qed.

Lemma yields_bind {A B} (m : M S A) (k : A -> M S B) (P1 : A -> Prop) (P : B -> Prop) :
  yields m P1 -> (forall x, P1 x -> yields (k x) P) -> yields (bind m k) P.
Proof. intros Hm Hk E w y w' (x&w1&Hx&Hy)%bind_ok. by apply (Hk x (Hm _ _ _ _ Hx) _ _ _ _ Hy). Qed.

Lemma yields_then {A B} (m : M S A) (k : A -> M S B) (P : B -> Prop) : (forall x, yields (k x) P) -> yields (bind m k) P.
Proof. intros Hk. apply (yields_bind _ _ (fun _ => True)); [done|auto]. Qed.

Lemma yields_try {A} (m : M S A) (P : A -> Prop) : yields m P -> yields (try_ m) (fun r => forall x, r = Ok x -> P x).
Proof. intros Hm E w r w' Hr x ->. exact (Hm _ _ _ _ (proj1 (try_ok m E w (Ok x) w') Hr)). Qed.

Lemma yields_lift {A} (r : result A) (P : A -> Prop) : (forall x, r = Ok x -> P x) -> yields (@lift S A r) P.
Proof. intros HP E w x w' [= Hr _]. auto. Qed.

Lemma yields_wrapping {A} p (m : M S A) (P : A -> Prop) : yields m P -> yields (wrapping p m) P.
Proof. intros Hm E w x w' Hx%wrapping_ok. by apply (Hm _ _ _ _ Hx). Qed.

Lemma yields_guard {A} c e (k : M S A) (P : A -> Prop) : (c = false -> yields k P) -> yields (lift (guard_ c e) ;;; k) P.
Proof.
  intros Hk. destruct c; [intros E w x w'; unfold bind, lift; cbn; congruence|].
  apply (yields_bind _ _ (fun _ => True)); [done|]. intros _ _. by apply Hk.
Qed.

Lemma yields_closing {A} close (m : M S A) (P : A -> Prop) : yields m P -> yields (closing close m) P.
Proof.
  intros Hm. unfold closing. eapply yields_bind; [by apply yields_try|]. intros r Hr. apply yields_then. intros _. by apply yields_lift.
Qed.
End Yields.

Ltac yields_step :=
  lazymatch goal with
  | |- yields (ret _) _ => apply yields_ret
  | |- yields (throw _) _ => apply yields_throw
  | |- yields (lift (guard_ _ _) ;;; _) _ => apply yields_guard; intros ?
  | |- yields (closing _ _) _ => apply yields_closing
  | |- yields (wrapping _ _) _ => apply yields_wrapping
  | |- yields (let _ := _ in _) _ => cbv zeta
  | |- yields (match ?x with _ => _ end) _ => destruct x eqn:?
  | |- yields (bind _ _) _ => apply yields_then; intros ?
  end; cbn beta iota.
Ltac yields_go := repeat yields_step.

(** Sorting by a text. *)
Lemma sort_by_text {A} (R : A -> A -> Prop) `{!RelDecision R} (text : A -> string) l :
  (forall a b, R a b <-> String.le (text a) (text b)) -> StronglySorted R (merge_sort R l).
Proof.
  intros HR. apply StronglySorted_merge_sort.
  - intros a b c. rewrite !HR. apply transitivity.
  - intros a b. rewrite !HR. apply (stdpp.base.total String.le).
Qed.

(** *** The roots of a new reader *)
Section NewReader.
Context {H : Type} `{Machine H} `{Descriptors H} `{UnicodeClass}.

Definition well_rooted (root : AllowedRoot) : Prop :=
  IsAbs (ar_display root) = true /\ Clean (ar_display root) = ar_display root /\ ar_display root <> "/".

Lemma open_root_well text seen : yields (open_root (Clean text) seen) (fun o => forall root, o = Some root ->
  well_rooted root /\ ar_display root ∉ seen).
Proof.
  unfold open_root. apply yields_guard. intros Ha. apply yields_guard. intros Hs. do 2 (apply yields_then; intros ?).
  apply yields_guard. intros _. destruct (string_in (Clean text) seen) eqn:Hin; [by apply yields_ret|].
  apply yields_then. intros fd. apply yields_ret. intros root [= <-]. cbn. apply orb_false_iff in Ha as [_ Ha].
  apply negb_false_iff in Ha. split; [|by intros Hel%string_in_spec; rewrite Hin in Hel].
  split_and!; [done| |by apply String.eqb_neq]. apply Clean_idemp. by rewrite <- IsAbs_Clean.
Qed.

Lemma open_roots_well roots cleaned : Forall well_rooted cleaned -> NoDup (map ar_display cleaned) ->
  yields (open_roots roots cleaned) (fun rs => Forall well_rooted rs /\ NoDup (map ar_display rs)).
Proof.
  revert cleaned. induction roots as [|root roots IH]; intros cleaned Hw Hn; cbn [open_roots]; [by apply yields_ret|].
  eapply yields_bind; [apply yields_try, open_root_well|]. intros [[r|]|e] Hr; cbn beta iota.
  - destruct (Hr _ eq_refl _ eq_refl) as [Hr1 Hr2]. apply IH; [by apply Forall_app; split; [|constructor]|].
    rewrite map_app. apply NoDup_app. split_and!; [done| |apply NoDup_singleton]. by intros x Hx ->%list_elem_of_singleton.
  - by apply IH.
  - apply yields_then. intros _. apply yields_throw.
Qed.

(** A reader holds each root once, clean, absolute and not the root of the
    file system, in the order of their names. *)
Theorem NewReader_roots roots : yields (NewReader roots) (fun rs =>
  rooted rs /\ Forall well_rooted rs /\ NoDup (Roots rs) /\ StronglySorted root_le rs).
Proof.
  unfold NewReader. apply yields_guard. intros _. eapply yields_bind; [apply open_roots_well; constructor|].
  intros rs [Hw Hn]. apply yields_ret. pose proof (merge_sort_Permutation root_le rs) as Hp.
  assert (Hw' : Forall well_rooted (merge_sort root_le rs)) by (by rewrite Hp).
  split_and!; [|done| |by apply (sort_by_text _ ar_display)].
  - eapply Forall_impl; [exact Hw'|]. by intros r (?&?&_).
  - unfold Roots. by rewrite Hp.
Qed.
End NewReader.

(** *** The walk keeps what its visitor keeps *)
Section WalkKeeps.
Context {H : Type} `{Descriptors H} {V : Type}.
Variable visit : Visitor (H := H) (V := V).
Variable good : FileInfo -> Prop.
Variable I : V -> Prop.
Hypothesis stat_good : forall fd, yields (fd_Stat fd) good.
Hypothesis visit_keeps : forall v relative depth found, I v -> (forall f info, found = Some (f, info) -> good info) ->
  yields (visit v relative depth found) (fun r => I (fst r)).

Lemma visit_link_keeps relative depth v : I v -> yields (visit_link visit relative depth v) (fun r => I (fst r)).
Proof. intros Hi. unfold visit_link. eapply yields_bind; [by apply visit_keeps|]. intros r Hr. by apply yields_ret. Qed.

Lemma walk_entry_keeps walk directory prefix depth entry v :
  (forall d p n v, I v -> yields (walk d p n v) I) -> I v ->
  yields (walk_entry visit walk directory prefix depth entry v) (fun r => I (fst r)).
Proof.
  intros Hw Hi. unfold walk_entry. apply yields_then; intros _. cbv zeta.
  destruct (ne_Symlink entry); [by apply visit_link_keeps|]. apply yields_then. intros [fd|e]; cbn beta iota.
  2: { destruct (errors_is e ELOOP); [by apply visit_link_keeps|apply yields_throw]. }
  eapply yields_bind; [apply yields_try, stat_good|]. intros [info|e] Hg; cbn beta iota; [|yields_go].
  destruct (is_link info); [apply yields_then; intros _; by apply visit_link_keeps|].
  eapply yields_bind; [apply yields_try, visit_keeps; [done|]|].
  { intros f info' [= <- <-]. by apply Hg. }
  intros [[v' [descend stop]]|e] Hr; cbn beta iota; [|yields_go]. specialize (Hr _ eq_refl). cbn in Hr.
  destruct stop; [by yields_go|]. destruct (descend && IsDir info); [|by yields_go].
  apply yields_then. intros [child|e]; cbn beta iota; [|yields_go].
  eapply yields_bind; [by apply yields_try, Hw|]. intros walked Hv'. apply yields_then. intros closed.
  destruct walked as [v2|e], closed as [?|e']; [|by yields_go..]. apply yields_then. intros _. apply yields_ret. by apply Hv'.
Qed.

Lemma walk_entries_keeps walk directory prefix depth entries v :
  (forall d p n v, I v -> yields (walk d p n v) I) -> I v ->
  yields (walk_entries visit walk directory prefix depth entries v) I.
Proof.
  intros Hw. revert v. induction entries as [|entry entries IH]; intros v Hi; cbn [walk_entries]; [by apply yields_ret|].
  eapply yields_bind; [by apply walk_entry_keeps|]. intros [v' [|]] Hv; [by apply yields_ret|by apply IH].
Qed.

Lemma walkDirectory_keeps fuel directory prefix depth v : I v -> yields (walkDirectory visit fuel directory prefix depth v) I.
Proof.
  revert directory prefix depth v. induction fuel as [|fuel IH]; intros directory prefix depth v Hi; cbn [walkDirectory]; [apply yields_throw|].
  apply yields_then. intros entries. by apply walk_entries_keeps.
Qed.

Lemma walk_keeps fuel roots path v : I v -> yields (walk_with visit fuel roots path v) I.
Proof.
  intros Hi. unfold walk_with. apply yields_then. intros root. apply yields_closing.
  eapply yields_bind; [apply stat_good|]. intros info Hg. destruct (negb (IsDir info)).
  - eapply yields_bind; [apply visit_keeps; [done|]|]; [|by intros r Hr; apply yields_ret]. by intros f i [= <- <-].
  - apply yields_then. intros directory. apply yields_closing. by apply walkDirectory_keeps.
Qed.
End WalkKeeps.

(** *** The walk ends

    The visitors never descend below [maxSnapshotDepth], so that a walk is
    the same with every fuel from [walk_fuel] on: the levels a file system may
    have below are never reached. *)
Section WalkEnds.
Context {H : Type} `{Descriptors H} {V : Type}.
Variable visit : Visitor (H := H) (V := V).

Definition shallow : Prop := forall v relative depth found, yields (visit v relative depth found) (fun r =>
  fst (snd r) = true -> depth < maxSnapshotDepth).
Hypothesis visit_shallow : shallow.

Lemma bind_same {A B} (m : M H A) (k1 k2 : A -> M H B) E w :
  (forall a w', m E w = (Ok a, w') -> k1 a E w' = k2 a E w') -> bind m k1 E w = bind m k2 E w.
Proof. intros Hk. unfold bind. destruct (m E w) as [[a|e] w1]; [by apply Hk|done]. Qed.

Lemma walk_entry_same walk1 walk2 directory prefix depth entry v E w :
  (forall d p v E w, depth + 1 < maxSnapshotDepth -> walk1 d p (depth + 1) v E w = walk2 d p (depth + 1) v E w) ->
  walk_entry visit walk1 directory prefix depth entry v E w = walk_entry visit walk2 directory prefix depth entry v E w.
Proof.
  intros Hw. unfold walk_entry. apply bind_same. intros _ w1 _. cbv zeta. destruct (ne_Symlink entry); [done|].
  apply bind_same. intros [fd|e] w2 _; [|done]. apply bind_same. intros [info|e] w3 _; [|done]. destruct (is_link info); [done|].
  apply bind_same. intros [[v' [descend stop]]|e] w4 Hv; [|done]. destruct stop; [done|].
  destruct descend; [|done]. cbn [andb]. destruct (IsDir info); [|done].
  pose proof (visit_shallow _ _ _ _ _ _ _ _ (proj1 (try_ok _ _ _ (Ok _) _) Hv) eq_refl) as Hd.
  apply bind_same. intros [child|e] w5 _; [|done]. unfold bind at 1 4. unfold try_. by rewrite Hw.
Qed.

Lemma walk_entries_same walk1 walk2 directory prefix depth entries v E w :
  (forall d p v E w, depth + 1 < maxSnapshotDepth -> walk1 d p (depth + 1) v E w = walk2 d p (depth + 1) v E w) ->
  walk_entries visit walk1 directory prefix depth entries v E w = walk_entries visit walk2 directory prefix depth entries v E w.
Proof.
  intros Hw. revert v w. induction entries as [|entry entries IH]; intros v w; cbn [walk_entries]; [done|].
  unfold bind. rewrite (walk_entry_same walk1 walk2) by done. destruct (walk_entry _ walk2 _ _ _ _ _ _ _) as [[[v' [|]]|e] w1]; [done|apply IH|done].
Qed.

Lemma walkDirectory_same f1 f2 directory prefix depth v E w :
  depth < maxSnapshotDepth -> maxSnapshotDepth <= depth + Z.of_nat f1 -> maxSnapshotDepth <= depth + Z.of_nat f2 ->
  walkDirectory visit f1 directory prefix depth v E w = walkDirectory visit f2 directory prefix depth v E w.
Proof.
  revert f2 directory prefix depth v E w. induction f1 as [|f1 IH]; intros [|f2] directory prefix depth v E w Hd H1 H2; try lia.
  cbn [walkDirectory]. apply bind_same. intros entries w1 _. apply walk_entries_same.
  intros d p v' E' w' Hd'. apply IH; lia.
Qed.

Lemma walk_same fuel roots path v E w : (walk_fuel <= fuel)%nat ->
  walk_with visit fuel roots path v E w = walk visit roots path v E w.
Proof.
  intros Hf. assert (Hf' : maxSnapshotDepth <= Z.of_nat fuel) by (unfold walk_fuel in Hf; unfold maxSnapshotDepth in *; lia).
  unfold walk, walk_with. apply bind_same. intros root w1 _. unfold closing, bind at 1 4, try_ at 1 3.
  assert (Hin : forall w, (info <- fd_Stat (f_fd root) ;; if negb (IsDir info) then visited <- visit v "." 0 (Some (root, info)) ;; ret (fst visited)
      else directory <- reopenPathFile root O_RDONLY_DIRECTORY ;; closing (Close directory) (walkDirectory visit fuel directory "" 0 v)) E w =
    (info <- fd_Stat (f_fd root) ;; if negb (IsDir info) then visited <- visit v "." 0 (Some (root, info)) ;; ret (fst visited)
      else directory <- reopenPathFile root O_RDONLY_DIRECTORY ;; closing (Close directory) (walkDirectory visit walk_fuel directory "" 0 v)) E w).
  2: by rewrite Hin.
  intros w2. apply bind_same. intros info w3 _. destruct (negb (IsDir info)); [done|]. apply bind_same. intros directory w4 _.
  unfold closing, bind at 1 3, try_ at 1 3. by rewrite (walkDirectory_same fuel walk_fuel) by (unfold walk_fuel, maxSnapshotDepth in *; lia).
Qed.
End WalkEnds.

(** ** The bounds *)
Section Bounds.
Context {H : Type} `{Descriptors H}.

Lemma snapshot_shallow limit maxFileBytes maxTotalBytes : shallow (snapshot_visit limit maxFileBytes maxTotalBytes).
Proof.
  intros out relative depth found. unfold snapshot_visit.
  destruct (limit <=? _); [by apply yields_ret|]. destruct found as [[file info]|]; [|by apply yields_ret].
  destruct (IsDir info); [destruct (Z.leb_spec maxSnapshotDepth depth); by apply yields_ret|].
  do 3 (case_match; [by apply yields_ret|]). apply yields_then. intros out'. by apply yields_ret.
Qed.

Lemma usage_shallow maxDepth maxEntries : maxDepth <= 16 -> shallow (usage_visit maxDepth maxEntries).
Proof.
  intros Hm [[path size files directories skipped truncated] visited] relative depth found. unfold usage_visit, maxSnapshotDepth.
  destruct found as [[file info]|]; [|case_match; [apply yields_throw|by apply yields_ret]].
  destruct (Z.eqb_spec depth 0) as [->|]; [case_match; [apply yields_throw|by apply yields_ret]|].
  do 2 (case_match; [by apply yields_ret|]). case_match; [|case_match; by apply yields_ret].
  apply yields_ret. cbn. intros ?%Z.ltb_lt. lia.
Qed.

Lemma large_shallow path minimumBytes maxDepth : maxDepth <= 16 -> shallow (large_visit path minimumBytes maxDepth).
Proof.
  intros Hm out relative depth [[file info]|]; unfold large_visit, maxSnapshotDepth; [|by apply yields_ret].
  case_match; [by apply yields_ret|]. case_match; [|case_match; by apply yields_ret].
  apply yields_ret. cbn. intros ?%Z.ltb_lt. lia.
Qed.

Lemma guard_same {A} c e (k1 k2 : M H A) E w : (c = false -> k1 E w = k2 E w) ->
  (lift (guard_ c e) ;;; k1) E w = (lift (guard_ c e) ;;; k2) E w.
Proof. intros Hk. destruct c; [done|]. by apply Hk. Qed.

Lemma after_same {A B} (m1 m2 : M H A) (k : A -> M H B) E w : m1 E w = m2 E w -> bind m1 k E w = bind m2 k E w.
Proof. unfold bind. by intros ->. Qed.

(** The readings are the same with every fuel from [walk_fuel] on: none of
    them ever reaches the end of its fuel. *)
Theorem walks_end roots fuel E w : (walk_fuel <= fuel)%nat ->
  (forall path limit file total, Snapshot_with roots fuel path limit file total E w = Snapshot_ roots path limit file total E w) /\
  (forall path depth entries, Usage_with roots fuel path depth entries E w = Usage roots path depth entries E w) /\
  (forall path minimum depth limit, FindLarge_with roots fuel path minimum depth limit E w = FindLarge roots path minimum depth limit E w).
Proof.
  intros Hf. split_and!.
  - intros path limit file total. unfold Snapshot_, Snapshot_with. cbv zeta. do 3 (apply guard_same; intros _).
    apply after_same. by rewrite (walk_same _ (snapshot_shallow _ _ _)).
  - intros path depth entries. unfold Usage, Usage_with. cbv zeta. apply guard_same. intros Hd%Z.ltb_ge. apply guard_same. intros _.
    apply after_same. by rewrite (walk_same _ (usage_shallow _ _ Hd)).
  - intros path minimum depth limit. unfold FindLarge, FindLarge_with. cbv zeta. apply guard_same. intros _. apply guard_same. intros Hd%Z.ltb_ge.
    apply guard_same. intros _. apply after_same. by rewrite (walk_same _ (large_shallow _ _ _ Hd)).
Qed.

Definition lengths (contents : list string) : Z := foldr (fun c n => len c + n) 0 contents.

Lemma lengths_app a b : lengths (a ++ b) = lengths a + lengths b.
Proof. unfold lengths. induction a as [|c a IH]; cbn [app foldr]; [done|]. rewrite IH. lia. Qed.

Lemma lengths_perm a b : a ≡ₚ b -> lengths a = lengths b.
Proof. unfold lengths. induction 1; cbn [foldr]; lia. Qed.

(** An entry holds the hash of what was read for it. *)
Definition hash_of (maxFileBytes : Z) (e : SnapshotEntry) (content : string) : Prop :=
  sne_SHA256 e = sha256_hex content /\ len content <= maxFileBytes.

Definition accounted (maxFileBytes : Z) (out : Snapshot) : Prop :=
  exists contents, Forall2 (hash_of maxFileBytes) (sns_Entries out) contents /\ sns_HashedBytes out = lengths contents.

Definition within_bounds (limit maxFileBytes maxTotalBytes : Z) (out : Snapshot) : Prop :=
  Z.of_nat (length (sns_Entries out)) + Z.of_nat (length (sns_Skipped out)) <= limit /\
  sns_HashedBytes out <= maxTotalBytes + maxFileBytes /\ accounted maxFileBytes out.

Lemma hashOpenFile_yields file maxBytes : yields (hashOpenFile file maxBytes) (fun r => exists content,
  fst (fst r) = sha256_hex content /\ snd r = len content /\ len content <= maxBytes).
Proof.
  unfold hashOpenFile. apply yields_then. intros info. do 2 (apply yields_guard; intros _). do 2 (apply yields_then; intros ?).
  apply yields_guard. intros Hl%Z.ltb_ge. apply yields_ret. by eexists.
Qed.

Lemma snapshot_file_yields maxFileBytes out relative file : accounted maxFileBytes out ->
  yields (snapshot_file maxFileBytes out relative file) (fun out' => accounted maxFileBytes out' /\
    length (sns_Entries out') = S (length (sns_Entries out)) /\ sns_Skipped out' = sns_Skipped out /\
    sns_HashedBytes out' <= sns_HashedBytes out + maxFileBytes).
Proof.
  intros (cs&Hf&Hs). unfold snapshot_file. apply yields_then. intros readable.
  eapply yields_bind; [apply yields_try, hashOpenFile_yields|]. intros hashed Hh. apply yields_then. intros closed.
  destruct hashed as [[[hash info] n]|e], closed as [?|e']; try apply yields_throw.
  destruct (Hh _ eq_refl) as (content&Hc1&Hc2&Hc3). cbn in Hc1, Hc2. subst hash n. apply yields_ret. cbn. split_and!; [|rewrite length_app; cbn; lia|done|lia].
  exists (cs ++ [content]). cbn. split; [apply Forall2_app; [done|by repeat constructor]|]. rewrite lengths_app. unfold lengths at 2. cbn [foldr]. lia.
Qed.

Lemma snapshot_visit_keeps limit maxFileBytes maxTotalBytes out relative depth found :
  within_bounds limit maxFileBytes maxTotalBytes out -> (forall f info, found = Some (f, info) -> 0 <= fi_Size info) ->
  yields (snapshot_visit limit maxFileBytes maxTotalBytes out relative depth found) (fun r => within_bounds limit maxFileBytes maxTotalBytes (fst r)).
Proof.
  intros (Hl&Hh&Ha) Hg. unfold snapshot_visit. destruct (Z.leb_spec limit (Z.of_nat (length (sns_Entries out)) + Z.of_nat (length (sns_Skipped out)))) as [|Hlt].
  { apply yields_ret. unfold within_bounds. cbn. split_and!; [done|done|]. destruct Ha as (cs&?&?). by exists cs. }
  assert (Hskip : forall reason t, within_bounds limit maxFileBytes maxTotalBytes (with_skipped out relative reason t)).
  { intros reason t. unfold within_bounds, with_skipped. cbn. rewrite length_app. cbn. split_and!; [lia|done|].
    destruct Ha as (cs&?&?). by exists cs. }
  destruct found as [[file info]|]; [|apply yields_ret, Hskip].
  destruct (IsDir info); [case_match; [apply yields_ret, Hskip|by apply yields_ret]|].
  destruct (negb (IsRegular info)); [apply yields_ret, Hskip|].
  destruct (maxFileBytes <? fi_Size info); [apply yields_ret, Hskip|].
  destruct (Z.ltb_spec maxTotalBytes (sns_HashedBytes out + fi_Size info)) as [|Ht]; [apply yields_ret, Hskip|].
  eapply yields_bind; [by apply snapshot_file_yields|]. intros out' (Ha'&He&Hs&Hb). apply yields_ret. cbn.
  specialize (Hg _ _ eq_refl). unfold within_bounds. rewrite He, Hs. split_and!; [lia|lia|done].
Qed.

Lemma accounted_sorted maxFileBytes out : accounted maxFileBytes out ->
  accounted maxFileBytes (MkSnapshot (sns_Root out) (merge_sort entry_le (sns_Entries out)) (merge_sort skipped_le (sns_Skipped out))
    (sns_HashedBytes out) (sns_Truncated out)).
Proof.
  intros (cs&Hf&Hs). cbn.
  destruct (Permutation.Permutation_Forall2 (symmetry (merge_sort_Permutation entry_le (sns_Entries out))) Hf) as (cs'&Hp&Hf').
  exists cs'. cbn. split; [done|]. rewrite Hs. by apply lengths_perm.
Qed.

(** C35: a snapshot stays within its bounds and hashes what it says.  When
    the host reports no negative sizes, a snapshot that is returned lists at
    most as many entries as its limit, taken and skipped together, and never
    more than 500; both lists are sorted by path; each entry holds the SHA-256
    of a content of at most the bytes of a file; the bytes hashed are the sum
    of the lengths of these contents, and exceed the total bound by at most
    one file. *)
Theorem snapshot_bounds (roots : list AllowedRoot) (path : string) (limit maxFileBytes maxTotalBytes : Z) E w out w'
    (Hstat : forall fd, yields (fd_Stat fd) (fun info => 0 <= fi_Size info))
    (Hrun : Snapshot_ roots path limit maxFileBytes maxTotalBytes E w = (Ok out, w')) :
  let file := file_limit maxFileBytes in
  Z.of_nat (length (sns_Entries out)) + Z.of_nat (length (sns_Skipped out)) <= entry_limit limit <= 500 /\
  StronglySorted entry_le (sns_Entries out) /\ StronglySorted skipped_le (sns_Skipped out) /\
  (exists contents, Forall2 (hash_of file) (sns_Entries out) contents /\ sns_HashedBytes out = lengths contents) /\
  sns_HashedBytes out <= total_limit maxTotalBytes + file /\ file <= DefaultHashLimit /\ total_limit maxTotalBytes <= DefaultTotalLimit.
Proof.
  cbv zeta. revert E w out w' Hrun. change (yields (Snapshot_ roots path limit maxFileBytes maxTotalBytes) (fun out =>
    Z.of_nat (length (sns_Entries out)) + Z.of_nat (length (sns_Skipped out)) <= entry_limit limit <= 500 /\
    StronglySorted entry_le (sns_Entries out) /\ StronglySorted skipped_le (sns_Skipped out) /\ accounted (file_limit maxFileBytes) out /\
    sns_HashedBytes out <= total_limit maxTotalBytes + file_limit maxFileBytes /\ file_limit maxFileBytes <= DefaultHashLimit /\
    total_limit maxTotalBytes <= DefaultTotalLimit)).
  unfold Snapshot_, Snapshot_with. cbv zeta. apply yields_guard. intros Hl%Z.ltb_ge. apply yields_guard. intros Hf%Z.ltb_ge.
  apply yields_guard. intros Ht%Z.ltb_ge.
  assert (Hpos : 0 <= entry_limit limit /\ 0 <= file_limit maxFileBytes /\ 0 <= total_limit maxTotalBytes).
  { unfold entry_limit, file_limit, total_limit, DefaultTotalLimit. repeat case_match; lia. }
  eapply yields_bind.
  { apply (walk_keeps _ _ (within_bounds (entry_limit limit) (file_limit maxFileBytes) (total_limit maxTotalBytes)) Hstat).
    - intros v relative depth found. apply snapshot_visit_keeps.
    - unfold within_bounds. cbn. split_and!; [lia|lia|]. by exists []. }
  intros out (Hn&Hb&Ha). apply yields_ret. cbn -[merge_sort]. split_and!; [|done|..|by apply accounted_sorted|done|done|done].
  - by rewrite !merge_sort_Permutation.
  - by apply (sort_by_text _ sne_RelativePath).
  - by apply (sort_by_text _ sk_RelativePath).
Qed.
End Bounds.

(** ** A tree of files

    A host without [openat2]: a descriptor is the file it is open on.  The
    size of a file is what [stat] says of it; its content may have grown
    since. *)
Module Lab.

Inductive node := NDir (entries : list (string * node)) | NFile (size : N) (content : string) | NLink (target : string).

Definition info_of (n : node) : FileInfo :=
  match n with
  | NDir _ => MkFileInfo 4096 0 (ModeDir + 493) None
  | NFile size _ => MkFileInfo (Z.of_N size) 0 420 None
  | NLink target => MkFileInfo (len target) 0 (ModeSymlink + 511) None
  end.

Definition is_linkb (n : node) : bool := match n with NLink _ => true | _ => false end.

(** [O_NOFOLLOW] gives the link itself to [O_PATH] and refuses it otherwise. *)
Definition open_node (n : node) (flags : OpenFlags) : result node :=
  match n with
  | NDir _ => Ok n
  | NFile _ _ => if fl_DIRECTORY flags then Err (ESys ENOTDIR) else Ok n
  | NLink _ => if fl_DIRECTORY flags then Err (ESys ENOTDIR) else if fl_PATH flags then Ok n else Err (ESys ELOOP)
  end.

Definition child (n : node) (name : string) : result node :=
  match n with
  | NDir entries =>
    if String.eqb name "." then Ok n
    else match List.find (fun e => String.eqb (fst e) name) entries with Some (_, c) => Ok c | None => Err (ESys ENOENT) end
  | _ => Err (ESys ENOTDIR)
  end.

Definition entries_of (n : node) : result (list NameEntry) :=
  match n with
  | NDir entries => Ok (map (fun e => MkNameEntry (fst e) (is_linkb (snd e))) entries)
  | _ => Err (ESys ENOTDIR)
  end.

#[export] Instance tree : Descriptors unit := {|
  FD := node;
  fd_text _ := "7";
  unix_Open _ _ := throw (ESys ENOENT);
  unix_Dup n := ret n;
  unix_Openat2 _ _ _ := throw (ESys ENOSYS);
  unix_Openat n name flags := lift (let? c := child n name in open_node c flags);
  open_again n := lift (open_node n O_RDONLY);
  fd_Stat n := ret (info_of n);
  fd_ReadDir n := lift (entries_of n);
  fd_Read n max := match n with NFile _ content => ret (take_bytes (Z.to_nat max) content) | _ => throw (ESys EISDIR) end;
  fd_Readlink _ := ret "/srv/data";
  fd_Close _ := ret tt
|}.

Definition data : node := NDir [
  ("b.txt", NFile 3 "bbb"); ("link", NLink "/etc");
  ("conf", NDir [("app.yaml", NFile 2 "ok"); ("old", NLink "app.yaml"); ("sub", NDir [("x", NFile 1 "x")])])].
Definition conf : node := match child data "conf" with Ok n => n | Err _ => data end.
Definition reader : list AllowedRoot := [MkAllowedRoot "/srv" "/srv" (NDir [("data", data)]); MkAllowedRoot "/srv/data/conf" "/srv/data/conf" conf].

Definition answer {A} (m : M unit A) : result A := fst (m (calm 0 "id") (init_world tt)).

Lemma reader_rooted : rooted reader.
Proof. repeat constructor. Qed.

(** The deeper of the two roots is read. *)
Lemma rootFor_exact_witness :
  let root := MkAllowedRoot "/srv/data/conf" "/srv/data/conf" conf in
  rootFor reader " /srv/data/../data/conf/sub/x " = Ok (root, "sub/x") /\
  forall other, other ∈ reader -> covers "/srv/data/conf/sub/x" other -> path_comps (ar_display other) `prefix_of` ["srv"; "data"; "conf"].
Proof.
  cbv zeta. assert (E : rootFor reader " /srv/data/../data/conf/sub/x " = Ok (MkAllowedRoot "/srv/data/conf" "/srv/data/conf" conf, "sub/x"))
    by (vm_compute; reflexivity).
  split; [exact E|]. pose proof (rootFor_exact reader " /srv/data/../data/conf/sub/x " reader_rooted) as Hx. cbv zeta in Hx. rewrite E in Hx.
  exact (proj2 (proj2 (proj2 Hx))).
Defined.

Example prefix_is_no_root : rootFor reader "/srvx/data" = Err (EMsg "path is outside all allowlisted roots").
Proof. vm_compute. reflexivity. Qed.

Example dots_do_not_leave : rootFor reader "/srv/../etc/passwd" = Err (EMsg "path is outside all allowlisted roots").
Proof. vm_compute. reflexivity. Qed.

(** A link on the way, or at the end, is refused. *)
Example link_on_the_way : is_ok (answer (Hash reader "/srv/data/link/passwd" 0)) = false.
Proof. vm_compute. reflexivity. Qed.
Example link_at_the_end : answer (Metadata_ reader "/srv/data/link")
  = Err (EWrap "securely open /srv/data/link: " (EMsg "symlink paths are not allowed")).
Proof. vm_compute. reflexivity. Qed.

Example nested_snapshot : rbind (answer (Snapshot_ reader "/srv/data" 0 0 0)) (fun s =>
    Ok (map sne_RelativePath (sns_Entries s), map sk_RelativePath (sns_Skipped s), sns_HashedBytes s, sns_Truncated s))
  = Ok (["b.txt"; "conf/app.yaml"; "conf/sub/x"], ["conf/old"; "link"], 6, false).
Proof. vm_compute. reflexivity. Qed.

Example nested_usage : answer (Usage reader "/srv/data" 1 0) = Ok (MkDirectoryUsage "/srv/data" 3 1 1 1 false).
Proof. vm_compute. reflexivity. Qed.

(** Two files of a byte that have grown to ten: more is hashed than the total
    bound, and the second is skipped without a mark of truncation. *)
Definition growing : list AllowedRoot :=
  [MkAllowedRoot "/log" "/log" (NDir [("a", NFile 1 "aaaaaaaaaa"); ("b", NFile 1 "bbbbbbbbbb")])].

Example hashed_beyond_total : rbind (answer (Snapshot_ growing "/log" 10 10 2)) (fun s =>
    Ok (map sne_SizeBytes (sns_Entries s), map sk_Reason (sns_Skipped s), sns_HashedBytes s, sns_Truncated s))
  = Ok ([1], ["total_limit"], 10, false).
Proof. vm_compute. reflexivity. Qed.

Lemma stat_nonneg (n : node) : yields (fd_Stat n) (fun info => 0 <= fi_Size info).
Proof. apply yields_ret. destruct n; cbn; unfold len; lia. Qed.

Lemma snapshot_bounds_witness : exists out, answer (Snapshot_ growing "/log" 10 10 2) = Ok out /\
  length (sns_Entries out) = 1%nat /\ sns_HashedBytes out <= total_limit 2 + file_limit 10.
Proof.
  unfold answer. destruct (Snapshot_ growing "/log" 10 10 2 (calm 0 "id") (init_world tt)) as [[out|e] w'] eqn:Hrun.
  - exists out. split; [reflexivity|]. pose proof (snapshot_bounds growing "/log" 10 10 2 _ _ out w' stat_nonneg Hrun) as Hb.
    split; [vm_compute in Hrun; injection Hrun as <- _; reflexivity|]. cbv zeta in Hb. apply Hb.
  - vm_compute in Hrun. discriminate Hrun.
Defined.

(** A root that is a file is reported under the number of its descriptor. *)
Example file_root_name : rbind (answer (Hash [MkAllowedRoot "/etc/app.yaml" "/etc/app.yaml" (NFile 2 "ok")] "/etc/app.yaml" 0)) (fun h =>
    Ok (md_Path (fh_Metadata h), md_Name (fh_Metadata h), fh_BytesRead h)) = Ok ("/etc/app.yaml", "7", 2).
Proof. vm_compute. reflexivity. Qed.

End Lab.
