(* ===== verification/FileServers.v ===== *)
(** * [internal/mcpservers/file], [internal/mcpservers/configuration]

    The handlers of the file and configuration servers over the reader of
    [internal/safefs], with the check of a baseline and the difference of two
    snapshots.  The theorems: what the check accepts, what the difference
    holds, and that it carries the baseline over into the snapshot. *)

From S2P Require Import Prelude GoStrings GoText GoPath Json Unicode Hash Contracts Platform Handlers Rollback Store Agent Decode Safefs.
Open Scope Z_scope.

(** ** [file/server.go] *)
Record RootsOutput := MkRootsOutput { rts_Roots : list string }.
Record StatOutput := MkStatOutput { sto_Metadata : Metadata }.
Record ListOutput := MkListOutput {
  lso_Entries : list Metadata;
  lso_Truncated : bool
}.
Record HashOutput := MkHashOutput { hso_Hash : FileHash }.
Record LargeOutput := MkLargeOutput {
  lgo_Files : list Metadata;
  lgo_Truncated : bool
}.

Section FileServer.
Context {H : Type} `{Descriptors H} (reader : list AllowedRoot).

Definition list_roots : M H RootsOutput := ret (MkRootsOutput (Roots reader)).
Definition stat (path : string) : M H StatOutput := value <- Metadata_ reader path ;; ret (MkStatOutput value).
Definition list_directory (path : string) (limit : Z) : M H ListOutput :=
  listed <- List_ reader path limit ;; let '(entries, truncated) := listed in ret (MkListOutput entries truncated).
Definition sha256_ (path : string) (max_bytes : Z) : M H HashOutput :=
  value <- Hash reader path max_bytes ;; ret (MkHashOutput value).
Definition find_large (path : string) (minimum_bytes max_depth limit : Z) : M H LargeOutput :=
  found <- FindLarge reader path minimum_bytes max_depth limit ;;
  let '(files, truncated) := found in ret (MkLargeOutput files truncated).
End FileServer.

(** ** [configuration/server.go] *)
Record MetadataOutput := MkMetadataOutput { mdo_Metadata : Metadata }.
Record SnapshotOutput := MkSnapshotOutput { spo_Snapshot : Snapshot }.
Record Change := MkChange {
  ch_RelativePath : string;
  ch_BeforeSHA256 : string;
  ch_AfterSHA256 : string
}.
Record DiffOutput := MkDiffOutput {
  do_Snapshot : Snapshot;
  do_Added : list Change;
  do_Removed : list Change;
  do_Modified : list Change
}.

(** [^[a-f0-9]{64}$] *)
Definition sha256Pattern (s : string) : bool := (String.length s =? 64)%nat && all_bytes lower_hex s.

Fixpoint baseline_loop (entries : list SnapshotEntry) (seen : list string) : result unit :=
  match entries with
  | [] => Ok tt
  | entry :: entries =>
    if String.eqb (sne_RelativePath entry) "" || string_in (sne_RelativePath entry) seen
    then Err (EMsg "baseline paths must be non-empty and unique")
    else if negb (sha256Pattern (sne_SHA256 entry)) then Err (EMsg ("invalid SHA-256 for " +:+ sne_RelativePath entry))
    else baseline_loop entries (sne_RelativePath entry :: seen)
  end.

Definition validateBaseline (entries : list SnapshotEntry) : result unit :=
  if (500 <? Z.of_nat (length entries)) then Err (EMsg "baseline must not exceed 500 entries") else baseline_loop entries [].

(** The map the code fills: a later entry of a path takes its place. *)
Definition hashes (entries : list SnapshotEntry) : gmap string string :=
  foldl (fun m e => <[sne_RelativePath e := sne_SHA256 e]> m) ∅ entries.

Definition change_le (a b : Change) : Prop := String.le (ch_RelativePath a) (ch_RelativePath b).
#[export] Instance change_le_dec a b : Decision (change_le a b).
Proof. unfold change_le. apply _. Defined.

(** The cases of the two loops over the maps. *)
Definition added_of (old : gmap string string) (kv : string * string) : option Change :=
  match old !! kv.1 with None => Some (MkChange kv.1 "" kv.2) | Some _ => None end.
Definition modified_of (old : gmap string string) (kv : string * string) : option Change :=
  match old !! kv.1 with
  | None => None
  | Some previous => if negb (String.eqb previous kv.2) then Some (MkChange kv.1 previous kv.2) else None
  end.
Definition removed_of (current : gmap string string) (kv : string * string) : option Change :=
  match current !! kv.1 with Some _ => None | None => Some (MkChange kv.1 kv.2 "") end.

Definition zero_snapshot : Snapshot := MkSnapshot "" [] [] 0 false.

Definition diff (before after : list SnapshotEntry) : DiffOutput :=
  let old := hashes before in
  let current := hashes after in
  MkDiffOutput zero_snapshot
    (merge_sort change_le (omap (added_of old) (map_to_list current)))
    (merge_sort change_le (omap (removed_of current) (map_to_list old)))
    (merge_sort change_le (omap (modified_of old) (map_to_list current))).

Section ConfigurationServer.
Context {H : Type} `{Descriptors H} (reader : list AllowedRoot).

Definition config_list_roots : M H RootsOutput := ret (MkRootsOutput (Roots reader)).
Definition get_metadata (path : string) : M H MetadataOutput := value <- Metadata_ reader path ;; ret (MkMetadataOutput value).
Definition snapshot (path : string) (limit max_file_bytes max_total_bytes : Z) : M H SnapshotOutput :=
  value <- Snapshot_ reader path limit max_file_bytes max_total_bytes ;; ret (MkSnapshotOutput value).
Definition diff_snapshot (path : string) (baseline : list SnapshotEntry) (limit max_file_bytes max_total_bytes : Z) : M H DiffOutput :=
  lift (validateBaseline baseline) ;;;
  current <- Snapshot_ reader path limit max_file_bytes max_total_bytes ;;
  let out := diff baseline (sns_Entries current) in
  ret (MkDiffOutput current (do_Added out) (do_Removed out) (do_Modified out)).
End ConfigurationServer.

(** ** The check of a baseline *)
Definition baseline_ok (e : SnapshotEntry) : Prop := sne_RelativePath e <> "" /\ sha256Pattern (sne_SHA256 e) = true.

Lemma baseline_loop_exact entries seen : baseline_loop entries seen = Ok tt <->
  Forall baseline_ok entries /\ NoDup (map sne_RelativePath entries) /\ (forall e, e ∈ entries -> sne_RelativePath e ∉ seen).
Proof.
  revert seen. induction entries as [|e entries IH]; intros seen; cbn [baseline_loop map].
  { split; [|done]. intros _. split_and!; [constructor|constructor|]. by intros ? ?%elem_of_nil. }
  destruct (String.eqb_spec (sne_RelativePath e) "") as [E|Hne]; cbn [orb].
  { split; [done|]. intros (HF&_). by inversion HF as [|? ? [] ]. }
  destruct (string_in (sne_RelativePath e) seen) eqn:Hs.
  { split; [done|]. intros (_&_&Hn). apply string_in_spec in Hs. by destruct (Hn e ltac:(by left)). }
  destruct (sha256Pattern (sne_SHA256 e)) eqn:Hp; cbn [negb].
  2: { split; [done|]. intros (HF&_). inversion HF as [|? ? [_ Hp'] ]. congruence. }
  rewrite IH, Forall_cons, NoDup_cons. assert (Hs' : sne_RelativePath e ∉ seen) by (intros Hi%string_in_spec; congruence).
  split.
  - intros (HF&Hn&Hd). split_and!; [done|done| |done|].
    + intros (e'&He&Hin)%list_elem_of_fmap. apply (Hd e' Hin). rewrite <- He. by left.
    + intros e' [->|Hin]%elem_of_cons; [done|]. intros Hi. apply (Hd e' Hin). by right.
  - intros ([_ HF]&[Hnin Hn]&Hd). split_and!; [done|done|]. intros e' Hin [He|Hi]%elem_of_cons.
    + apply Hnin. rewrite <- He. by apply list_elem_of_fmap_2.
    + apply (Hd e'); [by right|done].
Qed.

(** A baseline is accepted exactly when it has at most 500 entries, each
    with a path of its own and the hexadecimal form of a SHA-256. *)
Theorem validateBaseline_exact entries : validateBaseline entries = Ok tt <->
  Z.of_nat (length entries) <= 500 /\ Forall baseline_ok entries /\ NoDup (map sne_RelativePath entries).
Proof.
  unfold validateBaseline. destruct (Z.ltb_spec 500 (Z.of_nat (length entries))); [split; [done|lia]|].
  rewrite baseline_loop_exact. split; [by intros (?&?&_)|]. intros (_&?&?). split_and!; [done..|]. by intros e _ ?%elem_of_nil.
Qed.

Lemma hashes_lookup entries : NoDup (map sne_RelativePath entries) ->
  forall path hash, hashes entries !! path = Some hash <-> exists e, e ∈ entries /\ sne_RelativePath e = path /\ sne_SHA256 e = hash.
Proof.
  unfold hashes. intros Hn path hash.
  assert (Hm : forall m : gmap string string, foldl (fun m e => <[sne_RelativePath e := sne_SHA256 e]> m) m entries !! path = Some hash <->
    (exists e, e ∈ entries /\ sne_RelativePath e = path /\ sne_SHA256 e = hash) \/ (path ∉ map sne_RelativePath entries /\ m !! path = Some hash)).
  2: { rewrite Hm, lookup_empty. naive_solver. }
  induction entries as [|e entries IH]; intros m; cbn [foldl map].
  { split; [intros Hl; right; split; [apply not_elem_of_nil|done]|]. intros [(?&?%elem_of_nil&_)|[_ ?]]; done. }
  apply NoDup_cons in Hn as [Hni Hn]. rewrite IH by done. rewrite not_elem_of_cons. destruct (decide (path = sne_RelativePath e)) as [->|Hne].
  - rewrite lookup_insert_eq. split.
    + intros [(e'&Hin&?&?)|[_ [= <-]]]; [left; exists e'; split; [by right|done]|left; exists e; split; [by left|done]].
    + intros [(e'&[->|Hin]%elem_of_cons&He&<-)|[[] _]]; [by right|left; by exists e'|done].
  - rewrite lookup_insert_ne by done. split.
    + intros [(e'&Hin&?&?)|[? ?]]; [left; exists e'; split; [by right|done]|by right].
    + intros [(e'&[->|Hin]%elem_of_cons&He&?)|[[_ ?] ?]]; [by destruct Hne|left; by exists e'|by right].
Qed.

(** ** The difference *)

(** A list of changes in the order of paths, each path once. *)
Definition listed (changes : list Change) : Prop := StronglySorted change_le changes /\ NoDup (map ch_RelativePath changes).

Lemma omap_paths (f : string * string -> option Change) (l : list (string * string)) :
  (forall kv c, f kv = Some c -> ch_RelativePath c = kv.1) -> NoDup l.*1 -> NoDup (map ch_RelativePath (omap f l)).
Proof.
  intros Hf. induction l as [|kv l IH]; cbn; [constructor|]. intros [Hn Hl]%NoDup_cons.
  destruct (f kv) as [c|] eqn:Hc; cbn; [|by apply IH]. apply NoDup_cons. split; [|by apply IH].
  rewrite (Hf _ _ Hc). intros (c'&Hp&Hin)%list_elem_of_fmap. apply list_elem_of_omap in Hin as (kv'&Hin&Hc').
  apply Hn. rewrite Hp, (Hf _ _ Hc'). by apply list_elem_of_fmap_2.
Qed.

Lemma sorted_changes (f : string * string -> option Change) (m : gmap string string) :
  (forall kv c, f kv = Some c -> ch_RelativePath c = kv.1) ->
  listed (merge_sort change_le (omap f (map_to_list m))) /\
  forall c, c ∈ merge_sort change_le (omap f (map_to_list m)) <-> exists path hash, m !! path = Some hash /\ f (path, hash) = Some c.
Proof.
  intros Hf. split; [split|].
  - by apply (sort_by_text _ ch_RelativePath).
  - rewrite merge_sort_Permutation. apply omap_paths; [done|]. apply NoDup_fst_map_to_list.
  - intros c. rewrite merge_sort_Permutation, list_elem_of_omap. split.
    + intros ([path hash]&Hin%elem_of_map_to_list&Hc). by exists path, hash.
    + intros (path&hash&Hl&Hc). exists (path, hash). split; [by apply elem_of_map_to_list|done].
Qed.

Lemma added_path old kv c : added_of old kv = Some c -> ch_RelativePath c = kv.1.
Proof. unfold added_of. case_match; [done|by intros [= <-]]. Qed.
Lemma modified_path old kv c : modified_of old kv = Some c -> ch_RelativePath c = kv.1.
Proof. unfold modified_of. case_match; [|done]. case_match; [by intros [= <-]|done]. Qed.
Lemma removed_path current kv c : removed_of current kv = Some c -> ch_RelativePath c = kv.1.
Proof. unfold removed_of. case_match; [done|by intros [= <-]]. Qed.

(** The changes applied: what was removed is deleted, what was added or
    modified gets its new hash. *)
Definition patched (out : DiffOutput) (old : gmap string string) : gmap string string :=
  foldl (fun m c => <[ch_RelativePath c := ch_AfterSHA256 c]> m)
    (foldl (fun m c => delete (ch_RelativePath c) m) old (do_Removed out)) (do_Added out ++ do_Modified out).

Lemma deletes_lookup (changes : list Change) (m : gmap string string) path :
  foldl (fun m c => delete (ch_RelativePath c) m) m changes !! path =
  if decide (path ∈ map ch_RelativePath changes) then None else m !! path.
Proof.
  revert m. induction changes as [|c changes IH]; intros m; cbn [foldl map]; [by rewrite decide_False by apply not_elem_of_nil|].
  rewrite IH. destruct (decide (path ∈ map ch_RelativePath changes)) as [Hin|Hn].
  - by rewrite decide_True by (by right).
  - destruct (decide (path = ch_RelativePath c)) as [->|Hne].
    + rewrite lookup_delete_eq, decide_True by (by left). done.
    + rewrite lookup_delete_ne, decide_False by (done || by rewrite not_elem_of_cons). done.
Qed.

Lemma inserts_lookup (changes : list Change) (m : gmap string string) path : NoDup (map ch_RelativePath changes) ->
  foldl (fun m c => <[ch_RelativePath c := ch_AfterSHA256 c]> m) m changes !! path =
  match List.find (fun c => String.eqb (ch_RelativePath c) path) changes with Some c => Some (ch_AfterSHA256 c) | None => m !! path end.
Proof.
  revert m. induction changes as [|c changes IH]; intros m Hn; cbn [foldl map find]; [done|].
  apply NoDup_cons in Hn as [Hni Hn]. rewrite IH by done. destruct (String.eqb_spec (ch_RelativePath c) path) as [<-|Hne].
  - rewrite lookup_insert_eq. destruct (List.find _ changes) as [c'|] eqn:Hf; [|done].
    apply List.find_some in Hf as [Hin%list_elem_of_In He%String.eqb_eq]. exfalso. apply Hni. rewrite <- He. by apply list_elem_of_fmap_2.
  - by rewrite lookup_insert_ne by done.
Qed.

Definition about (path : string) (out : DiffOutput) : Prop :=
  path ∈ map ch_RelativePath (do_Added out) \/ path ∈ map ch_RelativePath (do_Removed out) \/ path ∈ map ch_RelativePath (do_Modified out).

Lemma diff_added before after c : c ∈ do_Added (diff before after) <->
  exists path hash, c = MkChange path "" hash /\ hashes before !! path = None /\ hashes after !! path = Some hash.
Proof.
  cbn. rewrite (proj2 (sorted_changes _ _ (added_path (hashes before))) c). unfold added_of. cbn. split.
  - intros (path&hash&Hl&Hc). destruct (hashes before !! path) eqn:Ho; [done|]. injection Hc as <-. by exists path, hash.
  - intros (path&hash&->&Ho&Hl). exists path, hash. by rewrite Ho.
Qed.

Lemma diff_removed before after c : c ∈ do_Removed (diff before after) <->
  exists path hash, c = MkChange path hash "" /\ hashes before !! path = Some hash /\ hashes after !! path = None.
Proof.
  cbn. rewrite (proj2 (sorted_changes _ _ (removed_path (hashes after))) c). unfold removed_of. cbn. split.
  - intros (path&hash&Hl&Hc). destruct (hashes after !! path) eqn:Ho; [done|]. injection Hc as <-. by exists path, hash.
  - intros (path&hash&->&Hl&Ho). exists path, hash. by rewrite Ho.
Qed.

Lemma diff_modified before after c : c ∈ do_Modified (diff before after) <->
  exists path previous hash, c = MkChange path previous hash /\ hashes before !! path = Some previous /\ hashes after !! path = Some hash /\ previous <> hash.
Proof.
  cbn. rewrite (proj2 (sorted_changes _ _ (modified_path (hashes before))) c). unfold modified_of. cbn. split.
  - intros (path&hash&Hl&Hc). destruct (hashes before !! path) as [previous|] eqn:Ho; [|done].
    destruct (String.eqb_spec previous hash); [done|]. injection Hc as <-. by exists path, previous, hash.
  - intros (path&previous&hash&->&Ho&Hl&Hne). exists path, hash. rewrite Ho. by destruct (String.eqb_spec previous hash).
Qed.

Lemma mentions (changes : list Change) path : path ∈ map ch_RelativePath changes <-> exists c, c ∈ changes /\ ch_RelativePath c = path.
Proof. split; [intros (c&->&Hc)%list_elem_of_fmap; by exists c|intros (c&Hc&<-); by apply list_elem_of_fmap_2]. Qed.

Lemma find_path (changes : list Change) path c : NoDup (map ch_RelativePath changes) -> c ∈ changes -> ch_RelativePath c = path ->
  List.find (fun c => String.eqb (ch_RelativePath c) path) changes = Some c.
Proof.
  induction changes as [|c' changes IH]; intros Hn Hin Hp; [by apply elem_of_nil in Hin|]. cbn in *. apply NoDup_cons in Hn as [Hni Hn].
  apply elem_of_cons in Hin as [<-|Hin]; [by rewrite Hp, String.eqb_refl|]. destruct (String.eqb_spec (ch_RelativePath c') path) as [E|_]; [|by apply IH].
  exfalso. apply Hni. rewrite E, <- Hp. by apply list_elem_of_fmap_2.
Qed.

Lemma diff_disjoint before after path : path ∈ map ch_RelativePath (do_Added (diff before after)) ->
  path ∈ map ch_RelativePath (do_Modified (diff before after)) -> False.
Proof.
  intros (c&Hc&<-)%mentions (c'&Hc'&Hp)%mentions. apply diff_added in Hc as (p&h&->&Ho&_). apply diff_modified in Hc' as (p'&h1&h2&->&Ho'&_).
  cbn in Hp. subst p'. congruence.
Qed.

Lemma diff_patches before after : patched (diff before after) (hashes before) = hashes after.
Proof.
  set (out := diff before after). assert (Hn : NoDup (map ch_RelativePath (do_Added out ++ do_Modified out))).
  { rewrite map_app. apply NoDup_app. split_and!.
    - apply (proj1 (sorted_changes _ (hashes after) (added_path (hashes before)))).
    - intros p Ha Hm. by apply (diff_disjoint before after p).
    - apply (proj1 (sorted_changes _ (hashes after) (modified_path (hashes before)))). }
  apply map_eq. intros path. unfold patched. rewrite inserts_lookup, deletes_lookup by done.
  assert (Hin : forall c, c ∈ do_Added out \/ c ∈ do_Modified out -> ch_RelativePath c = path ->
    List.find (fun c => String.eqb (ch_RelativePath c) path) (do_Added out ++ do_Modified out) = Some c).
  { intros c Hc Hp. apply find_path; [done| |done]. by apply elem_of_app. }
  assert (Hout : (forall c, c ∈ do_Added out \/ c ∈ do_Modified out -> ch_RelativePath c <> path) ->
    List.find (fun c => String.eqb (ch_RelativePath c) path) (do_Added out ++ do_Modified out) = None).
  { intros Hno. destruct (List.find _ _) as [c|] eqn:Hf; [|done]. apply List.find_some in Hf as [Hc%list_elem_of_In%elem_of_app He%String.eqb_eq].
    by destruct (Hno c Hc). }
  destruct (hashes after !! path) as [hash|] eqn:Ha.
  - destruct (hashes before !! path) as [previous|] eqn:Hb.
    + destruct (decide (previous = hash)) as [->|Hne].
      * rewrite Hout.
        -- rewrite decide_False; [done|]. intros (c&Hc&Hp)%mentions. apply diff_removed in Hc as (p&h&->&_&Hx). cbn in Hp. congruence.
        -- intros c [Hc|Hc] Hp; [apply diff_added in Hc as (p&h&->&Hx&_)|apply diff_modified in Hc as (p&h1&h2&->&Hx&Hy&Hz)]; cbn in Hp; congruence.
      * rewrite (Hin (MkChange path previous hash)); [done| |done]. right. apply diff_modified. by exists path, previous, hash.
    + rewrite (Hin (MkChange path "" hash)); [done| |done]. left. apply diff_added. by exists path, hash.
  - rewrite Hout.
    + destruct (hashes before !! path) as [h|] eqn:Hb; [|by case_decide]. rewrite decide_True; [done|]. apply mentions.
      exists (MkChange path h ""). split; [|done]. apply diff_removed. by exists path, h.
    + intros c [Hc|Hc] Hp; [apply diff_added in Hc as (p&h&->&_&Hx)|apply diff_modified in Hc as (p&h1&h2&->&_&Hx&_)]; cbn in Hp; congruence.
Qed.

(** C36: the difference against a baseline is complete.  When the handler of
    [config.diff_snapshot] answers, the baseline is one [validateBaseline]
    accepts, the answer holds the snapshot that was read, each list of changes
    is sorted with each path once, a path is named exactly when its hashes in
    the baseline and in the snapshot differ or one is missing, in one list
    only, and the changes applied to the baseline give exactly the hashes of
    the snapshot. *)
Theorem diff_snapshot_complete {H : Type} `{Descriptors H} (reader : list AllowedRoot) (path : string) (baseline : list SnapshotEntry)
    (limit file total : Z) E w out w' (Hrun : diff_snapshot reader path baseline limit file total E w = (Ok out, w')) :
  validateBaseline baseline = Ok tt /\ Snapshot_ reader path limit file total E w = (Ok (do_Snapshot out), w') /\
  listed (do_Added out) /\ listed (do_Removed out) /\ listed (do_Modified out) /\
  (forall p, about p out <-> hashes baseline !! p <> hashes (sns_Entries (do_Snapshot out)) !! p) /\
  NoDup (map ch_RelativePath (do_Added out ++ do_Removed out ++ do_Modified out)) /\
  patched out (hashes baseline) = hashes (sns_Entries (do_Snapshot out)).
Proof.
  apply bind_ok in Hrun as ([]&w1&[= Hv <-]&(current&w2&Hs&[= <- <-])%bind_ok). cbn [do_Snapshot do_Added do_Removed do_Modified].
  set (after := sns_Entries current). pose proof (diff_patches baseline after) as Hp.
  pose proof (sorted_changes _ (hashes after) (added_path (hashes baseline))) as [La _].
  pose proof (sorted_changes _ (hashes baseline) (removed_path (hashes after))) as [Lr _].
  pose proof (sorted_changes _ (hashes after) (modified_path (hashes baseline))) as [Lm _].
  split_and!; [done|done|done|done|done| | |exact Hp].
  - intros p. unfold about. cbn [do_Added do_Removed do_Modified]. rewrite !mentions. split.
    + intros [(c&Hc&<-)|[(c&Hc&<-)|(c&Hc&<-)]].
      * apply diff_added in Hc as (q&h&->&Hx&Hy). cbn. by rewrite Hx, Hy.
      * apply diff_removed in Hc as (q&h&->&Hx&Hy). cbn. by rewrite Hx, Hy.
      * apply diff_modified in Hc as (q&h1&h2&->&Hx&Hy&Hne). cbn. rewrite Hx, Hy. congruence.
    + intros Hne. destruct (hashes baseline !! p) as [h|] eqn:Hb, (hashes after !! p) as [h'|] eqn:Ha; [| | |done].
      * right. right. exists (MkChange p h h'). split; [|done]. apply diff_modified. exists p, h, h'. split_and!; [done..|]. congruence.
      * right. left. exists (MkChange p h ""). split; [|done]. apply diff_removed. by exists p, h.
      * left. exists (MkChange p "" h'). split; [|done]. apply diff_added. by exists p, h'.
  - rewrite !map_app. apply NoDup_app. split_and!; [apply La| |apply NoDup_app; split_and!; [apply Lr| |apply Lm]].
    + intros p Ha [Hr|Hm]%elem_of_app; [|by apply (diff_disjoint baseline after p)].
      apply mentions in Ha as (c&Hc&<-). apply mentions in Hr as (c'&Hc'&Hq).
      apply diff_added in Hc as (q&h&->&Hx&_). apply diff_removed in Hc' as (q'&h'&->&Hy&_). cbn in Hq. congruence.
    + intros p Hr Hm. apply mentions in Hr as (c&Hc&<-). apply mentions in Hm as (c'&Hc'&Hq).
      apply diff_removed in Hc as (q&h&->&_&Hx). apply diff_modified in Hc' as (q'&h1&h2&->&_&Hy&_). cbn in Hq. congruence.
Qed.

(** ** Examples *)
Module Lab.

Definition answer {A} (m : M unit A) : result A := Safefs.Lab.answer m.
Definition entry (path content : string) : SnapshotEntry := MkSnapshotEntry path 0 0 (sha256_hex content).
Definition baseline : list SnapshotEntry := [entry "b.txt" "bbb"; entry "conf/app.yaml" "old"; entry "gone" ""].

Lemma diff_snapshot_complete_witness : exists out,
  answer (diff_snapshot Safefs.Lab.reader "/srv/data" baseline 0 0 0) = Ok out /\
  map ch_RelativePath (do_Added out) = ["conf/sub/x"] /\ map ch_RelativePath (do_Removed out) = ["gone"] /\
  map ch_RelativePath (do_Modified out) = ["conf/app.yaml"] /\
  patched out (hashes baseline) = hashes (sns_Entries (do_Snapshot out)).
Proof.
  unfold answer, Safefs.Lab.answer.
  destruct (diff_snapshot Safefs.Lab.reader "/srv/data" baseline 0 0 0 (calm 0 "id") (init_world tt)) as [[out|e] w'] eqn:Hrun.
  - exists out. pose proof (diff_snapshot_complete _ _ _ _ _ _ _ _ out w' Hrun) as Hd. split; [reflexivity|].
    vm_compute in Hrun. injection Hrun as Hout _. rewrite <- Hout at 1 2 3. do 3 (split; [reflexivity|]). apply Hd.
  - vm_compute in Hrun. discriminate Hrun.
Defined.

Example forged_hash : answer (diff_snapshot Safefs.Lab.reader "/srv/data" [MkSnapshotEntry "a" 0 0 "not-a-hash"] 0 0 0) = Err (EMsg "invalid SHA-256 for a").
Proof. vm_compute. reflexivity. Qed.

(** A file that the bounds skip is reported as removed, in an answer that is
    not marked as truncated. *)
Example skipped_reads_as_removed :
  rbind (answer (diff_snapshot Safefs.Lab.reader "/srv/data" [entry "b.txt" "bbb"] 0 2 0)) (fun out =>
    Ok (map ch_RelativePath (do_Removed out), map sk_RelativePath (sns_Skipped (do_Snapshot out)), sns_Truncated (do_Snapshot out)))
  = Ok (["b.txt"], ["b.txt"; "conf/old"; "link"], false).
Proof. vm_compute. reflexivity. Qed.

Example largest : rbind (answer (find_large Safefs.Lab.reader "/srv/data" 2 0 1)) (fun out => Ok (map md_Path (lgo_Files out), lgo_Truncated out))
  = Ok (["/srv/data/b.txt"], true).
Proof. vm_compute. reflexivity. Qed.

End Lab.
