(* ===== verification/Prepare.v ===== *)
(** * Preparing a write for approval

    [internal/agent/action_preparer.go]: from a proposal to an approval
    record and a signed envelope stored with the waiting task. *)

From S2P Require Import Prelude GoStrings GoText GoPath Json Hash Contracts Guard Approval Targets Executor Store Planner Scope Agent.
Open Scope Z_scope.

(** ** [action_preparer.go] *)
Record ActionPreparer := MkActionPreparer {
  pp_Safety : option Catalog;
  pp_Approvals : bool;
  pp_Trace : bool;
  pp_Scope : option (ActionEnvelope -> result unit);
  pp_Secret : string;
  pp_ApprovalTTL : Z;
  pp_EnvelopeTTL : Z
}.

Definition no_record : ApprovalRecord := MkApprovalRecord "" (MkBinding "" "" "" "" "" "" "" "") "" "" zero_time zero_time zero_time zero_time.

Definition proposed_payload (proposal : ActionProposal) (digest : string) : result json :=
  payload [("proposal_id", JStr (ap_ProposalID proposal)); ("tool", JStr (ap_Tool proposal)); ("effect", JStr (ap_Effect proposal));
           ("target", target_json (ap_Target proposal)); ("proposal_digest", JStr digest)].

Definition with_approval_id (e : ActionEnvelope) (id : string) : ActionEnvelope :=
  MkActionEnvelope (ae_SchemaVersion e) (ae_TraceID e) (ae_TaskID e) (ae_SessionID e) (ae_Proposal e) (ae_ProposalDigest e)
    (ae_TargetSnapshot e) (ae_Risk e) (ae_IntentDigest e) (ae_PolicyVersion e) (ae_ExpiresAt e) (ae_Nonce e) id (ae_Signature e).

Section Prepare.
Context {T H X : Type} `{TraceSink T} `{UnicodeCase} `{TimeText} (busy : nat).

Abbreviation Action A := (M (AgentState T H X) A).
Abbreviation SaveTask_ := (@SaveTask_ T H X busy).

(** [p.Approvals.Resolve(context.Background(), id, false, reason)], its
    outcome ignored. *)
Definition reject (id reason : string) : Action unit :=
  try_ (on_approvals (background (Resolve id false reason))) ;;; ret tt.

Definition requested_payload (record : ApprovalRecord) (binding : Binding) (risk : RiskResult) : result json :=
  payload [("approval_id", JStr (ar_ID record)); ("binding", binding_json binding);
           ("expires_at", JStr (time_text (ar_ExpiresAt record))); ("risk", risk_json risk)].

(** The task waits, with the signed envelope and the approval's id. *)
Definition store_waiting (p : ActionPreparer) (value : Task) (envelope : ActionEnvelope) (binding : Binding) (risk : RiskResult)
    (record : ApprovalRecord) : Action ((Task * ApprovalRecord) * option error) :=
  match Sign (pp_Secret p) (with_approval_id envelope (ar_ID record)) with
  | Err e => reject (ar_ID record) "ActionEnvelope signing failed" ;;; ret ((value, record), Some e)
  | Ok envelope =>
    let value := with_pending value (Some (envelope_json envelope)) (ar_ID record) in
    value <- Transition WaitingApproval value ;;
    saved <- try_ (SaveTask_ value) ;;
    match saved with
    | Err e => reject (ar_ID record) "Task persistence failed" ;;; ret ((value, record), Some e)
    | Ok _ =>
      noted <- try_ (appendTrace value ApprovalRequested (requested_payload record binding risk)) ;;
      match noted with
      | Ok _ => ret ((value, record), None)
      | Err e =>
        reject (ar_ID record) "Audit trace append failed" ;;;
        value <- Transition Failed (with_failure value (error_text e)) ;;
        try_ (background (SaveTask_ value)) ;;;
        ret ((value, record), Some e)
      end
    end
  end.

(** The part after the guards have spoken. *)
Definition request_approval (p : ActionPreparer) (value : Task) (proposal : ActionProposal) (snapshot : TargetSnapshot)
    (proposalDigest : string) (safety : PipelineResult) : Action ((Task * ApprovalRecord) * option error) :=
  let none := (value, no_record) in
  let envelopeTTL := if pp_EnvelopeTTL p <=? 0 then 10 * Minute else pp_EnvelopeTTL p in
  let approvalTTL := if pp_ApprovalTTL p <=? 0 then envelopeTTL else pp_ApprovalTTL p in
  if envelopeTTL <? approvalTTL then fail none "approval TTL must not exceed ActionEnvelope TTL"
  else
    current <- now ;;
    nonce <- new_id "nonce" ;;
    let envelope := MkActionEnvelope 1 (tk_ID value) (tk_ID value) (tk_SessionID value) proposal proposalDigest snapshot
      (pr_Risk safety) (id_IntentDigest (pr_Intent safety)) (gd_PolicyVersion (pr_Static safety)) (current + envelopeTTL) nonce
      "" "" in
    let binding := MkBinding (tk_ID value) proposalDigest (snapshot_Digest snapshot) (ae_IntentDigest envelope)
      (ae_PolicyVersion envelope) (rr_Level (ae_Risk envelope)) (ap_Tool proposal) (ae_Nonce envelope) in
    let* created := on_approvals (Create binding approvalTTL) or none in
    let '(record, saved) := created in
    let* _ := lift saved or none in
    store_waiting p value envelope binding (pr_Risk safety) record.

Definition Prepare (p : ActionPreparer) (value : Task) (proposal : ActionProposal) (snapshot : TargetSnapshot)
    : Action ((Task * ApprovalRecord) * option error) :=
  let none := (value, no_record) in
  if negb (String.eqb (ap_TaskID proposal) (tk_ID value)) || negb (String.eqb (ap_SessionID proposal) (tk_SessionID value))
  then fail none "proposal task/session correlation mismatch"
  else if negb (String.eqb (ap_Effect proposal) Write) then fail none "ActionPreparer only accepts write proposals"
  else if negb (String.eqb (CanonicalTarget (ap_Target proposal))
                  (CanonicalTarget (MkTargetRef (ts_Type snapshot) (ts_ID snapshot) "")))
  then fail none "proposal target and snapshot mismatch"
  else match pp_Safety p with
  | None => fail none "action preparation safety, approval, and trace dependencies are required"
  | Some catalog =>
    if negb (pp_Approvals p) || negb (pp_Trace p)
    then fail none "action preparation safety, approval, and trace dependencies are required"
    else
      static_id <- new_id "decision" ;;
      intent_id <- new_id "decision" ;;
      let safety := pipeline_Evaluate catalog static_id intent_id proposal in
      let* proposalDigest := lift (proposal_Digest proposal) or none in
      let* _ := appendTrace value ActionProposed (proposed_payload proposal proposalDigest) or none in
      let* _ := appendTrace value StaticGuardResult (Ok (guard_json (pr_Static safety))) or none in
      if String.eqb (gd_Outcome (pr_Static safety)) Deny
      then fail none ("static guard denied action: " +:+ gd_Reason (pr_Static safety))
      else
        let* _ := appendTrace value IntentGuardResult (Ok (intent_decision_json (pr_Intent safety))) or none in
        if String.eqb (id_Outcome (pr_Intent safety)) Deny
        then fail none ("intent guard denied action: " +:+ id_Reason (pr_Intent safety))
        else
          let* _ := appendTrace value RiskEvaluated (Ok (risk_json (pr_Risk safety))) or none in
          if negb (String.eqb (gd_Outcome (pr_Final safety)) RequireApproval)
          then fail none ("write action must require approval, got " +:+ gd_Outcome (pr_Final safety))
          else
            let scopeEnvelope := MkActionEnvelope 1 (tk_ID value) (tk_ID value) (tk_SessionID value) proposal proposalDigest
              snapshot (pr_Risk safety) (id_IntentDigest (pr_Intent safety)) (gd_PolicyVersion (pr_Static safety)) zero_time
              "" "" "" in
            let* _ := lift (match pp_Scope p with
                            | Some authorize => wrap_err "target scope denied before approval: " (authorize scopeEnvelope)
                            | None => Ok tt
                            end) or none in
            request_approval p value proposal snapshot proposalDigest safety
  end.
End Prepare.
#[global] Arguments Prepare : simpl never.
#[global] Arguments request_approval : simpl never.
#[global] Arguments store_waiting : simpl never.

(** ** What a prepared action is *)
Lemma Precheck_ids `{UnicodeCase} c s1 s2 p :
  gd_Outcome (Precheck c s1 p) = gd_Outcome (Precheck c s2 p) /\ gd_PolicyVersion (Precheck c s1 p) = VersionID (Some c).
Proof. unfold Precheck. cbv zeta. repeat case_match; done. Qed.

Lemma intent_ids `{UnicodeCase} v i1 i2 p :
  id_Outcome (intent_Evaluate v i1 p) = id_Outcome (intent_Evaluate v i2 p) /\
  id_IntentDigest (intent_Evaluate v i1 p) = id_IntentDigest (intent_Evaluate v i2 p).
Proof. unfold intent_Evaluate. cbv zeta. repeat case_match; done. Qed.

(** Evaluating the pipeline again gives the same answer, up to the ids of
    the decisions. *)
Lemma pipeline_ids `{UnicodeCase} c s1 i1 s2 i2 p :
  let a := pipeline_Evaluate c s1 i1 p in
  let b := pipeline_Evaluate c s2 i2 p in
  gd_Outcome (pr_Static a) = gd_Outcome (pr_Static b) /\ id_Outcome (pr_Intent a) = id_Outcome (pr_Intent b) /\
  gd_Outcome (pr_Final a) = gd_Outcome (pr_Final b) /\ id_IntentDigest (pr_Intent a) = id_IntentDigest (pr_Intent b) /\
  pr_Risk a = pr_Risk b /\ gd_PolicyVersion (pr_Static a) = VersionID (Some c).
Proof.
  destruct (Precheck_ids c s1 s2 p) as [Eo Ev]. destruct (intent_ids (VersionID (Some c)) i1 i2 p) as [Ei Ed].
  cbv zeta. unfold pipeline_Evaluate. cbv zeta. rewrite Eo.
  destruct (String.eqb (gd_Outcome (Precheck c s2 p)) Deny); [by cbn [pr_Static pr_Intent pr_Risk pr_Final]; rewrite Eo, Ev|]. rewrite Ei.
  destruct (String.eqb (id_Outcome (intent_Evaluate _ i2 p)) Deny); [by cbn [pr_Static pr_Intent pr_Risk pr_Final]; rewrite Eo, Ei, Ed, Ev|].
  cbn [pr_Static pr_Intent pr_Risk pr_Final]. rewrite Eo, Ei, Ed, Ev.
  destruct (String.eqb _ L3); [done|]. by destruct (_ && _).
Qed.

Lemma Sign_verifies `{TimeText} secret e e' : Sign secret e = Ok e' -> VerifySignature secret e' = Ok tt.
Proof.
  intros Hs. unfold Sign in Hs. destruct (_ <? _)%nat eqn:El; [done|]. injection Hs as <-.
  unfold VerifySignature. rewrite El. cbn [ae_Signature with_signature]. rewrite hex_decode_encode.
  unfold SigningBytes. change (with_signature (with_signature e ?x) "") with (with_signature e "").
  by rewrite String.eqb_refl.
Qed.

Section Parts.
Context {T H X : Type} `{TraceSink T}.

Definition set_trace (tr : T) (s : AgentState T H X) : AgentState T H X :=
  MkAgentState (as_store s) tr (as_approvals s) (as_host s) (as_outside s) (as_calls s).

Lemma wp_attempt {S A B} E (value : B) (m : M S A) k Q s :
  wp E m (fun r s' => match r with Ok a => wp E (k a) Q s' | Err e => Q (Ok (value, Some e)) s' end) s ->
  wp E (attempt value m k) Q s.
Proof. intros Hm. unfold attempt. wp_step. wp_step. eapply wp_mono; [exact Hm|]. intros [a|e] s' HQ; [done|by wp_step]. Qed.

Lemma wp_try_any {S A B} E (m : M S A) (k : result A -> M S B) Q s :
  (forall r s', wp E (k r) Q s') -> wp E (bind (try_ m) k) Q s.
Proof. intros Hk. wp_step. wp_step. apply wp_any. intros r s'. apply Hk. Qed.

Lemma wp_appendTrace E t typ data (Q : result unit -> AgentState T H X -> Prop) s :
  (forall r tr, Q r (set_trace tr s)) -> wp E (appendTrace t typ data) Q s.
Proof.
  intros HQ. unfold appendTrace. wp_step. apply wp_zoom, wp_any. intros [n|e] tr; [wp_step|]; apply HQ.
Qed.

(** What a successful save has done. *)
Lemma wp_SaveTask_ E busy v (Q : result unit -> AgentState T H X -> Prop) s : honest E ->
  (forall st', has tasks (tk_ID v) v st' ->
     Q (Ok tt) (MkAgentState st' (as_trace s) (as_approvals s) (as_host s) (as_outside s) (as_calls s))) ->
  (forall e st', Q (Err e) (MkAgentState st' (as_trace s) (as_approvals s) (as_host s) (as_outside s) (as_calls s))) ->
  wp E (SaveTask_ busy v) Q s.
Proof.
  intros Hh H1 H2. unfold SaveTask_. apply wp_zoom. eapply wp_mono; [by apply SaveTask_effect|].
  intros [[]|e] st' He; [|apply H2]. apply H1. inversion He; subst; apply has_task.
Qed.
End Parts.

Lemma wp_Create E b ttl (Q : result (ApprovalRecord * result unit) -> ApprovalDir -> Prop) d :
  (forall rec d', ar_Status rec = Pending -> ar_Binding rec = b -> d' = <[ar_ID rec := Some rec]> d -> Q (Ok (rec, Ok tt)) d') ->
  (forall rec e d', Q (Ok (rec, Err e)) d') -> (forall e, Q (Err e) d) -> wp E (Create b ttl) Q d.
Proof.
  intros H1 H2 H3. unfold Create. wp_step. wp_step; [|apply H3]. apply wp_guard; [done|intros _]. cbv zeta.
  do 4 wp_step. cbv zeta. wp_step. wp_step. unfold save. apply wp_atomic_write.
  - intros [[]|e]; wp_step; [by apply H1|apply H2].
  - intros e. wp_step. apply H2.
Qed.

Section Bound.
Context {T H X : Type} `{TraceSink T} `{UnicodeCase} `{TimeText}.

(** What the executor needs of the envelope that waits with the task. *)
Record ready (p : ActionPreparer) (catalog : Catalog) (proposal : ActionProposal) (snapshot : TargetSnapshot)
    (value' : Task) (record : ApprovalRecord) (env : ActionEnvelope) : Prop := {
  rd_pending : tk_PendingAction value' = Some (envelope_json env) /\ tk_PendingApprovalID value' = ar_ID record /\
               tk_State value' = WaitingApproval;
  rd_action : ae_Proposal env = proposal /\ ae_TargetSnapshot env = snapshot;
  rd_approval : ar_Status record = Pending /\ ar_Binding record = envelope_binding env /\ ae_ApprovalID env = ar_ID record;
  rd_accepted : forall t maxTTL, t < ae_ExpiresAt env ->
                  ae_ExpiresAt env <= t + (if maxTTL <=? 0 then 15 * Minute else maxTTL) ->
                  check_envelope (pp_Secret p) (cat_Version catalog) maxTTL t env = Ok tt;
  rd_safe : forall sid iid, check_safety (pipeline_Evaluate catalog sid iid proposal) env = Ok tt /\
              gd_Outcome (pr_Final (pipeline_Evaluate catalog sid iid proposal)) = RequireApproval
}.

(** What [Prepare] has checked when it comes to ask for approval. *)
Record checked (catalog : Catalog) (value : Task) (proposal : ActionProposal) (snapshot : TargetSnapshot)
    (digest : string) (safety : PipelineResult) : Prop := {
  ck_ids : ap_TaskID proposal = tk_ID value /\ ap_SessionID proposal = tk_SessionID value;
  ck_target : CanonicalTarget (ap_Target proposal) = CanonicalTarget (MkTargetRef (ts_Type snapshot) (ts_ID snapshot) "");
  ck_digest : proposal_Digest proposal = Ok digest;
  ck_safety : exists sid iid, safety = pipeline_Evaluate catalog sid iid proposal;
  ck_static : gd_Outcome (pr_Static safety) <> Deny;
  ck_intent : id_Outcome (pr_Intent safety) <> Deny;
  ck_final : gd_Outcome (pr_Final safety) = RequireApproval
}.

Lemma eqb_negb a b : negb (String.eqb a b) = false <-> a = b.
Proof. by rewrite negb_false_iff, String.eqb_eq. Qed.

Lemma envelope_accepted p catalog value proposal snapshot digest safety expires nonce id env :
  checked catalog value proposal snapshot digest safety -> tk_ID value <> "" -> tk_SessionID value <> "" -> nonce <> "" ->
  Sign (pp_Secret p) (with_approval_id (MkActionEnvelope 1 (tk_ID value) (tk_ID value) (tk_SessionID value) proposal digest snapshot
      (pr_Risk safety) (id_IntentDigest (pr_Intent safety)) (gd_PolicyVersion (pr_Static safety)) expires nonce "" "") id) = Ok env ->
  (exists sig, env = MkActionEnvelope 1 (tk_ID value) (tk_ID value) (tk_SessionID value) proposal digest snapshot
      (pr_Risk safety) (id_IntentDigest (pr_Intent safety)) (gd_PolicyVersion (pr_Static safety)) expires nonce id sig) /\
  (forall t maxTTL, t < expires -> expires <= t + (if maxTTL <=? 0 then 15 * Minute else maxTTL) ->
     check_envelope (pp_Secret p) (cat_Version catalog) maxTTL t env = Ok tt) /\
  (forall sid iid, check_safety (pipeline_Evaluate catalog sid iid proposal) env = Ok tt /\
     gd_Outcome (pr_Final (pipeline_Evaluate catalog sid iid proposal)) = RequireApproval).
Proof.
  intros [[C1 C1'] C2 C3 (s1&i1&C4) C5 C6 C7] Ht Hs Hn Hsig. pose proof (Sign_verifies _ _ _ Hsig) as Hv.
  assert (Hsh : exists sig, env = MkActionEnvelope 1 (tk_ID value) (tk_ID value) (tk_SessionID value) proposal digest snapshot
      (pr_Risk safety) (id_IntentDigest (pr_Intent safety)) (gd_PolicyVersion (pr_Static safety)) expires nonce id sig).
  { unfold Sign in Hsig. destruct (_ <? _)%nat; [done|]. injection Hsig as <-. by eexists. }
  split; [done|]. destruct Hsh as [sig ->]. pose proof (pipeline_ids catalog s1 i1) as Hids. split.
  - intros t maxTTL Hl Hu. unfold check_envelope.
    cbn [ae_SchemaVersion ae_TraceID ae_TaskID ae_SessionID ae_Proposal ae_ProposalDigest ae_TargetSnapshot ae_PolicyVersion
         ae_ExpiresAt ae_Nonce]. unfold empty. apply String.eqb_neq in Ht, Hs, Hn. rewrite Ht, Hs, Hn.
    rewrite Hv. cbn [rbind]. rewrite C3. cbn [rbind]. rewrite C1, C1', C2, !String.eqb_refl.
    destruct (Z.leb_spec expires t); [lia|]. destruct (Z.ltb_spec (t + (if maxTTL <=? 0 then 15 * Minute else maxTTL)) expires); [lia|].
    unfold proposal_Digest in C3. destruct (String.eqb (ap_Tool proposal) "") eqn:Et; [done|].
    destruct (Hids s1 i1 proposal) as (_&_&_&_&_&Ev). rewrite C4, Ev. cbn [VersionID]. by rewrite !String.eqb_refl.
  - intros sid iid. destruct (Hids sid iid proposal) as (E1&E2&E3&E4&E5&_). rewrite <- C4 in *.
    rewrite <- E3. split; [|done]. unfold check_safety. cbn [ae_IntentDigest ae_Risk]. rewrite <- E1, <- E2, <- E3, <- E4, <- E5, C7.
    apply String.eqb_neq in C5, C6. rewrite C5, C6, String.eqb_refl. cbn [orb negb]. by rewrite bool_decide_eq_true_2.
Qed.

(** What a rejection does does not matter here: it is on the error paths. *)
Lemma wp_reject {B} E id reason (k : unit -> M (AgentState T H X) B) Q s :
  (forall s', wp E (k tt) Q s') -> wp E (bind (reject id reason) k) Q s.
Proof. intros Hk. wp_step. apply wp_try_any. intros r s'. wp_step. apply Hk. Qed.

Lemma wp_request_approval E busy p catalog value proposal snapshot digest safety (s : AgentState T H X) :
  honest E -> tk_ID value <> "" -> tk_SessionID value <> "" ->
  checked catalog value proposal snapshot digest safety ->
  wp E (request_approval busy p value proposal snapshot digest safety) (fun r s' => forall value' record,
    r = Ok ((value', record), None) ->
    has tasks (tk_ID value) value' (as_store s') /\ as_approvals s' !! ar_ID record = Some (Some record) /\
    exists env, ready p catalog proposal snapshot value' record env) s.
Proof.
  intros Hh Ht Hs Hck. unfold request_approval. cbv zeta. destruct (_ <? _) eqn:Ettl; [by apply wp_ret|].
  wp_step. wp_step. wp_step. wp_step. apply wp_attempt, wp_zoom, wp_Create; [|by intros; wp_go|done].
  intros record d' Hpend Hbind ->. apply wp_attempt. wp_step. unfold store_waiting.
  destruct (Sign _ _) as [env|e] eqn:Esig.
  2:{ apply wp_reject. intros s'. by wp_step. }
  wp_step. unfold Transition. wp_step. wp_step. wp_step. wp_step. wp_step. apply wp_SaveTask_; [done| |].
  2:{ intros e st'. apply wp_reject. intros s'. by wp_step. }
  intros st' Hhas. wp_step. wp_step. apply wp_appendTrace. intros [[]|e] tr.
  2:{ apply wp_reject. intros s'. unfold Transition. do 4 wp_step. apply wp_try_any. intros r' s''. by wp_step. }
  wp_step. intros value' record' [= <- <-]. cbn [as_store as_approvals set_trace]. split; [exact Hhas|].
  split; [apply lookup_insert_eq|]. exists env.
  pose proof (fun Hn => envelope_accepted _ _ _ _ _ _ _ _ _ _ _ Hck Ht Hs Hn Esig) as Ha.
  destruct Ha as ((sig&->)&Hacc&Hsafe); [done|].
  split; [done|done| |exact Hacc|exact Hsafe]. split; [done|]. split; [|done]. rewrite Hbind. reflexivity.
Qed.

(** C9: an action that waits for approval is exactly the one the executor
    will check.  When [Prepare] reports success, the stored task waits with the
    signed envelope of this proposal and target, a pending approval record is
    stored whose binding is the one the executor computes from the envelope,
    and the executor's checks of the envelope and of the safety pipeline accept
    it at every time of its validity. *)
Theorem prepared_action_bound (p : ActionPreparer) (catalog : Catalog) (busy : nat) (E : Env) (value : Task)
    (proposal : ActionProposal) (snapshot : TargetSnapshot) (s : AgentState T H X) :
  honest E -> pp_Safety p = Some catalog -> tk_ID value <> "" -> tk_SessionID value <> "" ->
  wp E (Prepare busy p value proposal snapshot) (fun r s' => forall value' record, r = Ok ((value', record), None) ->
    has tasks (tk_ID value) value' (as_store s') /\ as_approvals s' !! ar_ID record = Some (Some record) /\
    exists env, ready p catalog proposal snapshot value' record env) s.
Proof.
  intros Hh Hp Ht Hs. unfold Prepare. cbv zeta.
  destruct (negb (String.eqb (ap_TaskID proposal) _) || _) eqn:Eid; [by apply wp_ret|].
  apply orb_false_iff in Eid as [Eid1%eqb_negb Eid2%eqb_negb].
  destruct (negb (String.eqb (ap_Effect proposal) Write)); [by apply wp_ret|].
  destruct (negb (String.eqb (CanonicalTarget _) _)) eqn:Etg; [by apply wp_ret|]. apply eqb_negb in Etg.
  rewrite Hp. destruct (_ || _); [by apply wp_ret|].
  wp_step. wp_step. wp_step. wp_step. cbv zeta.
  match goal with |- context [pipeline_Evaluate catalog ?a ?b proposal] => set (safety := pipeline_Evaluate catalog a b proposal) end.
  apply wp_attempt. wp_step. destruct (proposal_Digest proposal) as [digest|e] eqn:Ed; [|done].
  apply wp_attempt, wp_appendTrace. intros [[]|e] tr1; [|done].
  apply wp_attempt, wp_appendTrace. intros [[]|e] tr2; [|done].
  destruct (String.eqb_spec (gd_Outcome (pr_Static safety)) Deny); [by apply wp_ret|].
  apply wp_attempt, wp_appendTrace. intros [[]|e] tr3; [|done].
  destruct (String.eqb_spec (id_Outcome (pr_Intent safety)) Deny); [by apply wp_ret|].
  apply wp_attempt, wp_appendTrace. intros [[]|e] tr4; [|done].
  destruct (negb (String.eqb (gd_Outcome (pr_Final safety)) RequireApproval)) eqn:Ef; [by apply wp_ret|]. apply eqb_negb in Ef.
  apply wp_attempt. wp_step. destruct (pp_Scope p) as [authorize|]; [destruct (wrap_err _ _) as [[]|]; [|done]|].
  all: apply wp_request_approval; [done|done|done|]; split; try done; by do 2 eexists.
Qed.
End Bound.

(** *** A restart prepared
    The audit log counts its events; the store holds the task's session. *)
Definition counting_sink : TraceSink nat := fun _ _ _ _ => modify S ;;; n <- get_st ;; ret (Z.of_nat n).

Definition gated_catalog : Catalog :=
  MkCatalog 1 "sha256:gated"
    {[ "service.restart" := MkToolPolicy "service.restart" Write L1 true false ["service"] "lab-restart" ]}.

Definition lab_preparer : ActionPreparer :=
  MkActionPreparer (Some gated_catalog) true true (Some (Authorize (H := lab_case) Executor.lab_scope)) sample_secret 0 0.

Definition lab_agent : AgentState nat nat nat := MkAgentState lab_store 0%nat ∅ 0%nat 0%nat [].

Definition prepare_lab :=
  Prepare (H := nat) (X := nat) (H0 := counting_sink) (H1 := lab_case) (H2 := plain_time) 2 lab_preparer lab_task lab_proposal
    lab_snapshot (calm 5 "00ff") (init_world lab_agent).

Definition outcome_of {A B} (r : result (A * option error)) (f : A -> B) : option B :=
  match r with Ok (a, None) => Some (f a) | _ => None end.

Example lab_prepared :
  outcome_of prepare_lab.1 (fun p => (tk_State p.1, ar_Status p.2, ar_ExpiresAt p.2))
    = Some (WaitingApproval, Pending, 5 + 10 * Minute) /\ as_trace (st prepare_lab.2) = 5%nat.
Proof. vm_compute. split; reflexivity. Qed.

Lemma prepared_action_bound_witness :
  wp (calm 5 "00ff")
    (Prepare (H := nat) (X := nat) (H0 := counting_sink) (H1 := lab_case) (H2 := plain_time) 2 lab_preparer lab_task lab_proposal lab_snapshot)
    (fun r s' => forall value' record, r = Ok ((value', record), None) ->
       has tasks "task_1" value' (as_store s') /\ as_approvals s' !! ar_ID record = Some (Some record) /\
       exists env, ready (H1 := lab_case) (H2 := plain_time) lab_preparer gated_catalog lab_proposal lab_snapshot value' record env) lab_agent.
Proof.
  apply (prepared_action_bound (H0 := counting_sink) (H1 := lab_case) (H2 := plain_time) lab_preparer gated_catalog 2 (calm 5 "00ff")
           lab_task lab_proposal lab_snapshot lab_agent); [apply calm_honest'|reflexivity|discriminate|discriminate].
Defined.
