(* ===== verification/Managed.v ===== *)
(** * [internal/agent/managed_action.go]: writes the planner may ask for

    A managed action is prepared only when the operator's words allow it and
    name its target, and when evidence read earlier in the task shows that
    target.  The regular expressions over the operator's words are the
    parameter [ManagedPatterns]. *)

From S2P Require Import Prelude GoStrings GoText GoPath Json Hash Contracts Guard Approval Executor Store Planner Scope Agent Prepare.
Open Scope Z_scope.

Definition managedServiceNoArgsSchema : string :=
  print (JObj [("type", JStr "object"); ("properties", JObj []); ("additionalProperties", JBool false)]).
Definition managedProcessSchema : string :=
  print (JObj [("type", JStr "object");
    ("properties", JObj [("pid", JObj [("type", JStr "integer"); ("minimum", JInt 2); ("maximum", JInt 4194304)])]);
    ("required", JArr [JStr "pid"]); ("additionalProperties", JBool false)]).

(** The patterns [managedServiceNegative] to [managedProcessTargetEN]: what
    matches, or the first group of every match. *)
Class ManagedPatterns := {
  service_negative : string -> bool;
  service_read_only : string -> bool;
  service_chinese : string -> list string;
  service_english : string -> list string;
  process_negative : string -> bool;
  process_read_only : string -> bool;
  process_chinese : string -> bool;
  process_english : string -> bool;
  process_target_cn : string -> list string;
  process_target_en : string -> list string
}.

(** [MutationTargetSnapshotter] *)
Record Snapshotter (H : Type) := MkSnapshotter {
  sn_process : string -> Z -> M H TargetSnapshot;
  sn_service : string -> string -> M H TargetSnapshot
}.
Arguments MkSnapshotter {H}.
Arguments sn_process {H}.
Arguments sn_service {H}.

Definition service_capability : ManagedActionCapability :=
  MkManagedActionCapability "service.restart"
    "Request approval to restart one allowlisted systemd service. The operator request and MCP evidence must name the same exact unit (the operator may omit .service). target.type must be service, target.id must be that unit, and arguments must be empty."
    "service" managedServiceNoArgsSchema true false "" true
    "fixed SafeOps service.restart handler; unit comes from revalidated target snapshot; no shell or model command string".
Definition process_capability : ManagedActionCapability :=
  MkManagedActionCapability "process.terminate"
    "Request approval to send fixed SIGTERM to one allowlisted process. The operator request must name the same PID as the MCP evidence. target.type must be process, target.id must be pid:<pid>:start:<start_ticks>, and arguments.pid must match target.id."
    "process" managedProcessSchema true false "" true
    "fixed SafeOps process.terminate handler; PID/start/executable snapshot is revalidated; no shell, SIGKILL, or model command string".

Definition managedActionCapabilities (actions targets : bool) : list ManagedActionCapability :=
  if negb actions || negb targets then [] else [service_capability; process_capability].

Definition managedActionByName (capabilities : list ManagedActionCapability) (name : string) : option ManagedActionCapability :=
  List.find (fun c => String.eqb (ma_Name c) name) capabilities.

(** ** The target of a process *)
Fixpoint span_digits (s : string) : string * string :=
  match s with
  | String c r => if in_range 48 57 (code c) then let '(a, b) := span_digits r in (String c a, b) else ("", s)
  | "" => ("", "")
  end.

(** [processTargetPattern]: the two groups. *)
Definition processTargetPattern (s : string) : option (string * string) :=
  match strip_prefix "pid:" s with
  | None => None
  | Some r =>
    let '(pid, r) := span_digits r in
    match pid, strip_prefix ":start:" r with
    | String c _, Some r =>
      let '(start, r) := span_digits r in
      if negb (Ascii.eqb c "0") && (String.length pid <=? 10)%nat
         && (1 <=? String.length start)%nat && (String.length start <=? 20)%nat && String.eqb r ""
      then Some (pid, start) else None
    | _, _ => None
    end
  end.

Definition parseManagedProcessTarget (targetID : string) : result (Z * Z) :=
  match processTargetPattern (TrimSpace targetID) with
  | None => Err (EMsg "process target id must be pid:<pid>:start:<start_ticks>")
  | Some (p, s) =>
    match digits p with
    | Some pid =>
      if (2147483647 <? pid) || (pid <=? 1) then Err (EMsg "process target pid is invalid")
      else match ParseUint s with
           | Ok startTicks => if startTicks =? 0 then Err (EMsg "process target start_ticks is invalid") else Ok (pid, startTicks)
           | Err _ => Err (EMsg "process target start_ticks is invalid")
           end
    | None => Err (EMsg "process target pid is invalid")
    end
  end.

(** [float64(n)] *)
Definition float_of (n : Z) : float64 := default (MkFloat 0 0) (round_ratio n 1).

(** The value of an integral float. *)
Definition int_of (f : float64) : Z := if 0 <=? f_exp f then f_mant f * 2 ^ f_exp f else f_mant f / 2 ^ (- f_exp f).

Definition integerArgument (arguments : gmap string json) (name : string) : result Z :=
  match arguments !! name with
  | None => Err (EMsg (name +:+ " is required"))
  | Some value =>
    match numeric (Some value) with
    | None => Err (EMsg (name +:+ " must be an integer"))
    | Some number =>
      fail_if float_lt (MkFloat 1 63) number || float_lt number (MkFloat (-1) 63) with EMsg (name +:+ " is outside int range") ;;
      fail_if negb (is_integer number) || float_eq number (MkFloat 1 63) with EMsg (name +:+ " must be an integer") ;;
      Ok (int_of number)
    end
  end.

(** ** Evidence *)
Definition serviceEvidenceTool (tool : string) : bool :=
  string_in tool ["service.get_status"; "service.list_failed"; "service.get_restart_count"; "diagnostic.port_conflict";
    "diagnostic.build_snapshot"].

Definition processEvidenceTool (tool : string) : bool :=
  string_in tool ["process.list_top"; "process.search"; "process.get_details"; "process.get_resource_usage";
    "process.find_by_port"; "network.check_port"; "diagnostic.port_conflict"; "diagnostic.high_cpu"; "diagnostic.build_snapshot"].

Fixpoint walkStructured (found : list (string * json) -> bool) (value : json) : bool :=
  match value with
  | JObj fields => found fields || existsb (fun kv => walkStructured found kv.2) fields
  | JArr l => existsb (walkStructured found) l
  | _ => false
  end.

Section Managed.
Context {T H X : Type} `{TraceSink T} `{UnicodeCase} `{TimeText} `{Regexp} `{Sprinter} `{ManagedPatterns}.

Definition lowered (s : string) : string := ToLower (TrimSpace s).

Definition structuredServiceIdentity (value : json) (names : list string) : bool :=
  let wanted := List.filter (fun n => negb (String.eqb n "")) (map lowered names) in
  walkStructured (fun object =>
    existsb (fun k => match key k object with Some (JStr name) => string_in (lowered name) wanted | _ => false end)
      ["name"; "unit"; "service_name"]) value.

Definition structuredProcessIdentity (value : json) (pid startTicks : Z) : bool :=
  walkStructured (fun object =>
    match numeric (key "pid" object), numeric (key "start_ticks" object) with
    | Some observedPID, Some observedStart => float_eq observedPID (float_of pid) && float_eq observedStart (float_of startTicks)
    | _, _ => false
    end) value.

Definition managedActionEvidenceSupports (value : Task) (target : TargetRef) (snapshot : TargetSnapshot) : bool :=
  if empty_ (tk_EvidenceRefs value) || empty_ (rc_Observations (tk_Runtime value)) then false
  else existsb (fun o =>
    if String.eqb (TrimSpace (ro_EvidenceRef o)) "" then false
    else if String.eqb (tr_Type target) "service" then
      serviceEvidenceTool (ro_Tool o) && structuredServiceIdentity (ro_Result o) [tr_ID target; ts_ServiceName snapshot]
    else if String.eqb (tr_Type target) "process" then
      processEvidenceTool (ro_Tool o) && structuredProcessIdentity (ro_Result o) (ts_PID snapshot) (ts_StartTicks snapshot)
    else false) (rc_Observations (tk_Runtime value)).

(** ** The operator's words *)
Definition managedActionRequestTargets (request tool : string) (target : TargetRef) (snapshot : TargetSnapshot) : bool :=
  let request := lowered request in
  if String.eqb tool "service.restart" then
    let names := List.filter (fun n => negb (String.eqb n "")) (map lowered [tr_ID target; ts_ServiceName snapshot]) in
    let aliases := names ++ map (fun n => TrimSuffix n ".service") names in
    existsb (fun m => string_in (TrimSpace m) aliases) (service_chinese request ++ service_english request)
  else if String.eqb tool "process.terminate" then
    existsb (fun m => match Atoi m with Ok pid => pid =? ts_PID snapshot | Err _ => false end)
      (process_target_cn request ++ process_target_en request)
  else false.

Definition managedActionIntentAllows (request tool : string) : bool :=
  let request := lowered request in
  if contains_one request ["不要执行"; "不要操作"; "禁止执行"; "只检查"; "仅检查"; "只查看"; "仅查看"; "只读"; "只建议"; "仅建议";
       "do not execute"; "don't execute"; "do not act"; "read only"; "read-only"; "only inspect"; "only check"; "advice only"]
  then false
  else if String.eqb tool "service.restart" then
    if service_negative request || service_read_only request then false
    else negb (empty_ (service_chinese request)) || negb (empty_ (service_english request))
  else if String.eqb tool "process.terminate" then
    if process_negative request || process_read_only request then false
    else process_chinese request || process_english request
  else false.

(** ** Asking for the action *)
Definition snapshotManagedActionTarget (targets : Snapshotter H) (tool : string) (target : TargetRef)
    (arguments : gmap string json) : M (AgentState T H X) TargetSnapshot :=
  if String.eqb tool "service.restart" then
    lift (guard_ (String.eqb (tr_ID target) "") (EMsg "service action target is required")) ;;;
    on_machine (sn_service targets (tr_ID target) (tr_ID target))
  else if String.eqb tool "process.terminate" then
    named <- lift (parseManagedProcessTarget (tr_ID target)) ;;
    argumentPID <- lift (integerArgument arguments "pid") ;;
    lift (guard_ (negb (argumentPID =? fst named)) (EMsg "process.terminate pid argument does not match target id")) ;;;
    snapshot <- on_machine (sn_process targets (tr_ID target) (fst named)) ;;
    lift (guard_ (negb (ts_StartTicks snapshot =? snd named))
            (EMsg "TARGET_CHANGED: process start time no longer matches MCP evidence")) ;;;
    ret snapshot
  else throw (EMsg ("unsupported managed action " +:+ tool)).

Definition managed_proposal (id : string) (value : Task) (capability : ManagedActionCapability) (arguments : gmap string json)
    (target : TargetRef) (description : string) : ActionProposal :=
  MkActionProposal id (tk_ID value) (tk_SessionID value) (ma_Name capability) Write arguments target 1
    (ma_Reversible capability) (ma_RollbackStrategy capability) true ""
    (MkIntentContext (tk_OriginalRequest value) (tk_Objective value) [target] description [target] []).

Definition managed_target (target : TargetRef) : TargetRef :=
  MkTargetRef (lowered (tr_Type target)) (TrimSpace (tr_ID target)) (TrimSpace (tr_Criticality target)).

(** The part that writes: plan the step, then prepare it. *)
Definition plan_managed_action (busy : nat) (actions : ActionPreparer) (value : Task) (capability : ManagedActionCapability)
    (arguments : gmap string json) (target : TargetRef) (snapshot : TargetSnapshot) (summary : string)
    : M (AgentState T H X) Returned :=
  let description := if String.eqb (TrimSpace summary) "" then "申请受管写动作" else TrimSpace summary in
  let stepID := step_id (tk_Plan value) in
  let plan := tk_Plan value ++ [MkStep stepID description (ma_Name capability) "WAITING_APPROVAL"] in
  let value := with_plan value plan (Z.of_nat (length plan) - 1) (tk_CompletedSteps value) in
  let* _ := SaveTask_ busy value or value in
  let* _ := appendTrace value PlanCreated (payload [("strategy", JStr "managed_action_request"); ("step_id", JStr stepID);
              ("tool", JStr (ma_Name capability)); ("target", target_json target);
              ("completion_criteria", JStr "human-approved action executes against the same revalidated target snapshot")]) or value in
  proposal_id <- new_id "proposal" ;;
  waiting <- Prepare busy actions value (managed_proposal proposal_id value capability arguments target description) snapshot ;;
  ret (waiting.1.1, waiting.2).

Definition prepareGeneralManagedAction (busy : nat) (actions : option ActionPreparer) (targets : option (Snapshotter H))
    (value : Task) (decision : Decision_) (capabilities : list ManagedActionCapability) : M (AgentState T H X) Returned :=
  match actions, targets with
  | Some actions, Some targets =>
    match managedActionByName capabilities (TrimSpace (de_Tool decision)) with
    | None => fail value ("planner selected unavailable managed action " +:+ de_Tool decision)
    | Some capability =>
      let arguments := de_Arguments decision in
      let* _ := lift (wrap_err "managed action arguments failed schema: "
                        (validateToolArguments (ma_InputSchema capability) arguments)) or value in
      let target := managed_target (de_Target decision) in
      if negb (String.eqb (tr_Type target) (ma_TargetType capability))
      then fail value ("managed action " +:+ ma_Name capability +:+ " requires target type " +:+ ma_TargetType capability)
      else if negb (managedActionIntentAllows (tk_OriginalRequest value) (ma_Name capability))
      then fail value ("operator request does not explicitly authorize managed action " +:+ ma_Name capability)
      else
        let* snapshot := snapshotManagedActionTarget targets (ma_Name capability) target arguments or value in
        if negb (managedActionRequestTargets (tk_OriginalRequest value) (ma_Name capability) target snapshot)
        then fail value "operator request does not identify the exact managed action target"
        else if negb (managedActionEvidenceSupports value target snapshot)
        then fail value "managed action target is not supported by prior MCP evidence"
        else plan_managed_action busy actions value capability arguments target snapshot (de_DecisionSummary decision)
    end
  | _, _ => fail value "managed write actions are not configured"
  end.
End Managed.
#[global] Arguments plan_managed_action : simpl never.

(** ** What stands behind a managed action *)
Section Grounds.
Context {T H X : Type} `{TraceSink T} `{UnicodeCase} `{TimeText} `{Regexp} `{Sprinter} `{ManagedPatterns}.

(** An observation of the task that shows the target. *)
Definition shows (target : TargetRef) (snapshot : TargetSnapshot) (o : RuntimeObservation) : Prop :=
  TrimSpace (ro_EvidenceRef o) <> "" /\
  ((tr_Type target = "service" /\ serviceEvidenceTool (ro_Tool o) = true /\
    structuredServiceIdentity (ro_Result o) [tr_ID target; ts_ServiceName snapshot] = true) \/
   (tr_Type target = "process" /\ processEvidenceTool (ro_Tool o) = true /\
    structuredProcessIdentity (ro_Result o) (ts_PID snapshot) (ts_StartTicks snapshot) = true)).

Lemma evidence_shows value target snapshot : managedActionEvidenceSupports value target snapshot = true ->
  tk_EvidenceRefs value <> [] /\ exists o, o ∈ rc_Observations (tk_Runtime value) /\ shows target snapshot o.
Proof.
  unfold managedActionEvidenceSupports. destruct (empty_ (tk_EvidenceRefs value)) eqn:Ee; [done|]. cbn [orb].
  destruct (empty_ (rc_Observations _)); [done|]. intros (o&Hin&Ho)%existsb_elem.
  split; [by intros E; rewrite E in Ee|]. exists o. split; [done|].
  destruct (String.eqb_spec (TrimSpace (ro_EvidenceRef o)) ""); [done|]. split; [done|].
  destruct (String.eqb_spec (tr_Type target) "service"); [apply andb_true_iff in Ho as [??]; by left|].
  destruct (String.eqb_spec (tr_Type target) "process"); [apply andb_true_iff in Ho as [??]; by right|done].
Qed.

Record grounded (value : Task) (decision : Decision_) (capability : ManagedActionCapability) (target : TargetRef)
    (snapshot : TargetSnapshot) : Prop := {
  gr_tool : ma_Name capability = TrimSpace (de_Tool decision) /\ target = managed_target (de_Target decision) /\
            tr_Type target = ma_TargetType capability;
  gr_arguments : validateToolArguments (ma_InputSchema capability) (de_Arguments decision) = Ok tt;
  gr_words : managedActionIntentAllows (tk_OriginalRequest value) (ma_Name capability) = true /\
             managedActionRequestTargets (tk_OriginalRequest value) (ma_Name capability) target snapshot = true;
  gr_evidence : tk_EvidenceRefs value <> [] /\ exists o, o ∈ rc_Observations (tk_Runtime value) /\ shows target snapshot o;
  gr_process : ma_Name capability = "process.terminate" -> exists pid,
    parseManagedProcessTarget (tr_ID target) = Ok (pid, ts_StartTicks snapshot) /\
    integerArgument (de_Arguments decision) "pid" = Ok pid
}.

(** Nothing durable has changed. *)
Definition untouched (s s' : AgentState T H X) : Prop :=
  as_store s' = as_store s /\ as_approvals s' = as_approvals s /\ as_trace s' = as_trace s.

Lemma wp_snapshot E targets tool target arguments (Q : result TargetSnapshot -> AgentState T H X -> Prop) s :
  (forall snapshot s', untouched s s' ->
     (tool = "process.terminate" -> exists pid, parseManagedProcessTarget (tr_ID target) = Ok (pid, ts_StartTicks snapshot) /\
        integerArgument arguments "pid" = Ok pid) -> Q (Ok snapshot) s') ->
  (forall e s', untouched s s' -> Q (Err e) s') -> wp E (snapshotManagedActionTarget targets tool target arguments) Q s.
Proof.
  intros H1' H2'. unfold snapshotManagedActionTarget.
  assert (U : untouched s s) by done.
  destruct (String.eqb_spec tool "service.restart") as [->|_].
  - apply wp_guard; [auto|intros _]. apply wp_zoom, wp_any. intros [sn|e] h; [apply H1'; done|by apply H2'].
  - destruct (String.eqb_spec tool "process.terminate") as [->|_]; [|wp_step; auto].
    wp_step. wp_step. destruct (parseManagedProcessTarget _) as [[pid start]|] eqn:Ep; [|auto]. cbn [fst snd].
    wp_step. wp_step. destruct (integerArgument _ _) as [arg|] eqn:Ea; [|auto].
    apply wp_guard; [auto|]. intros ->%negb_false_iff%Z.eqb_eq.
    wp_step. apply wp_zoom, wp_any. intros [sn|e] h; [|by apply H2'].
    apply wp_guard; [intros _; by apply H2'|]. intros <-%negb_false_iff%Z.eqb_eq. wp_step.
    apply H1'; [done|]. intros _. by exists pid.
Qed.

(** C14: the planner alone cannot get a write prepared.  If asking for a
    managed action succeeds, or writes anything to the task store, the
    approvals or the audit log, then the operator's request allows the action
    and names its exact target, an earlier observation of the task shows that
    target, the arguments fit the schema, and the identity of a process is the
    one the machine reports now. *)
Theorem managed_action_grounded (busy : nat) (actions : option ActionPreparer) (targets : option (Snapshotter H))
    (E : Env) (value : Task) (decision : Decision_) (capabilities : list ManagedActionCapability) (s : AgentState T H X) :
  wp E (prepareGeneralManagedAction busy actions targets value decision capabilities) (fun r s' =>
    (exists value', r = Ok (value', None)) \/ ~ untouched s s' ->
    exists capability snapshot, capability ∈ capabilities /\
      grounded value decision capability (managed_target (de_Target decision)) snapshot) s.
Proof.
  assert (Hno : forall e (v : Task) s', untouched s s' ->
    (exists value', (Ok (v, Some e) : result Returned) = Ok (value', None)) \/ ~ untouched s s' ->
    exists capability snapshot, capability ∈ capabilities /\
      grounded value decision capability (managed_target (de_Target decision)) snapshot).
  { intros e v s' Hu [(v'&[=])|Hn]. by destruct Hn. }
  unfold prepareGeneralManagedAction. destruct actions as [actions|]; [|apply wp_ret; by apply Hno].
  destruct targets as [targets|]; [|apply wp_ret; by apply Hno].
  destruct (managedActionByName _ _) as [capability|] eqn:Ec; [|apply wp_ret; by apply Hno].
  apply List.find_some in Ec as [Hin%list_elem_of_In Hname%String.eqb_eq]. cbv zeta.
  apply wp_attempt. wp_step. destruct (validateToolArguments _ _) as [[]|e] eqn:Ev; cbn [wrap_err]; [|by apply Hno].
  destruct (negb (String.eqb (tr_Type _) _)) eqn:Et; [apply wp_ret; by apply Hno|]. apply eqb_negb in Et.
  destruct (negb (managedActionIntentAllows _ _)) eqn:Ei; [apply wp_ret; by apply Hno|]. apply negb_false_iff in Ei.
  apply wp_attempt, wp_snapshot; [|intros e s' Hu; by apply Hno]. intros snapshot s' Hu Hp.
  destruct (negb (managedActionRequestTargets _ _ _ _)) eqn:Er; [apply wp_ret; by apply Hno|]. apply negb_false_iff in Er.
  destruct (negb (managedActionEvidenceSupports _ _ _)) eqn:Ee; [apply wp_ret; by apply Hno|]. apply negb_false_iff in Ee.
  apply wp_any. intros r s'' _. exists capability, snapshot. split; [done|].
  split; [done|done|done|by apply evidence_shows|done].
Qed.
End Grounds.

(** ** Evaluated *)
Example process_targets :
  parseManagedProcessTarget " pid:42:start:100 " = Ok (42, 100) /\
  is_ok (parseManagedProcessTarget "pid:1:start:100") = false /\ is_ok (parseManagedProcessTarget "pid:042:start:1") = false /\
  is_ok (parseManagedProcessTarget "pid:42:start:0") = false /\ is_ok (parseManagedProcessTarget "pid:3000000000:start:1") = false /\
  integerArgument {[ "pid" := JNum "42.0" ]} "pid" = Ok 42 /\ is_ok (integerArgument {[ "pid" := JNum "42.5" ]} "pid") = false.
Proof. vm_compute. repeat split; reflexivity. Qed.

Definition no_regexp : Regexp := fun _ => None.
Definition no_sprint : Sprinter := fun _ => "".

Example process_arguments :
  validateToolArguments (H := no_regexp) (H0 := no_sprint) managedProcessSchema {[ "pid" := JInt 42 ]} = Ok tt /\
  is_ok (validateToolArguments (H := no_regexp) (H0 := no_sprint) managedProcessSchema {[ "pid" := JInt 1 ]}) = false /\
  is_ok (validateToolArguments (H := no_regexp) (H0 := no_sprint) managedProcessSchema ∅) = false /\
  is_ok (validateToolArguments (H := no_regexp) (H0 := no_sprint) managedProcessSchema {[ "pid" := JInt 42; "sig" := JInt 9 ]}) = false /\
  is_ok (validateToolArguments (H := no_regexp) (H0 := no_sprint) managedServiceNoArgsSchema ∅) = true.
Proof. vm_compute. repeat split; reflexivity. Qed.
