(* ===== verification/General.v ===== *)
(** * [internal/agent/general.go]: the bounded investigation

    The loop that asks the planner for a decision and carries it out: a tool
    call behind the read scope, the schema and the guards, a request for a
    managed action, a new plan, or the final answer.  Progress messages to the
    caller ([emitEvent]) are not modelled. *)

From S2P Require Import Prelude GoStrings GoText GoPath Json Hash Contracts Guard Approval Executor Store Planner Scope Agent Prepare Managed.
Open Scope Z_scope.

Definition generalFinalizationReserve : Z := Minute.

Definition has_evidence (value : Task) : bool :=
  negb (empty_ (rc_Observations (tk_Runtime value))) && negb (empty_ (tk_EvidenceRefs value)).

Definition shouldFinalizeGeneral (value : Task) (t : Z) : bool :=
  has_evidence value && negb (t <? rc_DeadlineAt (tk_Runtime value) - generalFinalizationReserve).

Definition beginGeneralDecision (c : RuntimeCheckpoint) (t : Z) (finalOnly : bool) : RuntimeCheckpoint * result unit :=
  let c := initializeRuntime c t in
  if negb (t <? rc_DeadlineAt c) then (c, Err deadline_error)
  else if rc_MaxIterations c <=? rc_Iterations c then
    (c, if finalOnly then Ok tt else Err (limit_error "iteration" (rc_MaxIterations c)))
  else (with_counters c (rc_Iterations c + 1) (rc_ToolCalls c) (rc_Replans c), Ok tt).

Definition generalDecisionDeadline (value : Task) (finalOnly : bool) : Z :=
  if finalOnly || negb (has_evidence value) then rc_DeadlineAt (tk_Runtime value)
  else rc_DeadlineAt (tk_Runtime value) - generalFinalizationReserve.

Definition replan_decision : Decision_ :=
  MkDecision DecisionReplan
    "模型在缺少 MCP 证据时尝试完成或申请受管动作；必须根据用户目标重新规划并选择相关的已发现只读 MCP 工具"
    "" "" ∅ (MkTargetRef "" "" "") "" "".

Definition replanWithoutEvidence (decision : Decision_) (value : Task) : Decision_ * bool :=
  if (negb (String.eqb (de_Kind decision) DecisionFinal) && negb (String.eqb (de_Kind decision) DecisionActionRequest))
     || has_evidence value
  then (decision, false) else (replan_decision, true).

Definition plannerObservations (values : list RuntimeObservation) : list Observation :=
  map (fun v => MkObservation (ro_Tool v) (ro_Arguments v) (ro_Result v) (ro_EvidenceRef v)) values.

Definition add_resource (selected : list string) (item : json) : list string :=
  match item with
  | JObj entry =>
    let path := match key "path" entry with Some (JStr p) => p | _ => "" end in
    if negb (String.eqb path "") && negb (string_in path selected) && (length selected <? 100)%nat
    then selected ++ [path] else selected
  | _ => selected
  end.

Definition captureSelectedResources (value : Task) (tool : string) (structured : json) : Task :=
  if negb (String.eqb tool "file.find_large") then value
  else match structured with
       | JObj object =>
         match key "files" object with
         | Some (JArr items) =>
           with_evidence value (tk_Findings value) (foldl add_resource (tk_SelectedResources value) items) (tk_EvidenceRefs value)
         | _ => value
         end
       | _ => value
       end.

(** [value.Plan[len(value.Plan)-1].State = state] *)
Definition set_last_state (plan : list Step) (state : string) : list Step :=
  match rev plan with
  | [] => []
  | s :: before => rev before ++ [MkStep (sp_ID s) (sp_Description s) (sp_Tool s) state]
  end.

(** [FileTargetSnapshotter] of [file_action.go] *)
Record FileSnapshotter (H : Type) := MkFileSnapshotter {
  sn_file : string -> string -> M H TargetSnapshot;
  sn_new_file : string -> string -> M H TargetSnapshot
}.
Arguments MkFileSnapshotter {H}.
Arguments sn_file {H}.
Arguments sn_new_file {H}.

(** [Orchestrator] of [orchestrator.go].  An interface that is only compared
    with nil is a boolean; the timeout of a tool call is part of what the
    outside answers. *)
Record Orchestrator (H : Type) := MkOrchestrator {
  o_Registry : bool;
  o_Capabilities : bool;
  o_Planner : bool;
  o_Actions : option ActionPreparer;
  o_FileTargets : option (FileSnapshotter H);
  o_ActionTargets : option (Snapshotter H);
  o_Safety : option Catalog;
  o_Trace : bool;
  o_WorkerID : string;
  o_LeaseTTL : Z
}.
Arguments MkOrchestrator {H}.
Arguments o_Registry {H}.
Arguments o_Capabilities {H}.
Arguments o_Planner {H}.
Arguments o_Actions {H}.
Arguments o_FileTargets {H}.
Arguments o_ActionTargets {H}.
Arguments o_Safety {H}.
Arguments o_Trace {H}.
Arguments o_WorkerID {H}.
Arguments o_LeaseTTL {H}.

Definition configured {A} (x : option A) : bool := match x with Some _ => true | None => false end.

(** What stays the same during one run. *)
Record Investigation := MkInvestigation {
  iv_capabilities : list ToolCapability;
  iv_managed : list ManagedActionCapability;
  iv_context : option SessionContext;
  iv_scope : option generalReadScope
}.

Definition capability_key (server tool : string) : string := server +:+ String (chr 0) tool.

Definition available (iv : Investigation) (server tool : string) : option ToolCapability :=
  (list_to_map (rev (map (fun c => (capability_key (tc_ServerID c) (tc_Name c), c)) (iv_capabilities iv)))
     : gmap string ToolCapability) !! capability_key server tool.

(** One turn of the loop goes on, or ends the run. *)
Inductive turn := Again (value : Task) | Done (r : Returned).

Definition attempt_turn {S A} (value : Task) (m : M S A) (k : A -> M S turn) : M S turn :=
  r <- try_ m ;;
  match r with Ok a => k a | Err e => ret (Done (value, Some e)) end.

Notation "'turn*' x := m 'or' value 'in' k" := (attempt_turn value m (fun x => k))
  (at level 10, x binder, m at level 100, value at level 9, k at level 200,
   format "'[v' 'turn*'  x  :=  m  'or'  value  'in' '/' k ']'") : go_scope.

Definition stop {S} (value : Task) (msg : string) : M S turn := ret (Done (value, Some (EMsg msg))).

Definition finish {S} (m : M S Returned) : M S turn := r <- m ;; ret (Done r).

(** [local_read_scope] in the payloads. *)
Definition scope_json (s : generalReadScope) : json :=
  JMap (list_to_map [("resource_type", JStr (gs_ResourceType s)); ("authorized_paths", JArr (map JStr (gs_AuthorizedPaths s)));
                     ("excluded_paths", JArr (map JStr (gs_ExcludedPaths s))); ("source", JStr (gs_Source s))]).

Definition scope_field (scope : option generalReadScope) : list (string * json) :=
  match scope with Some s => [("local_read_scope", scope_json s)] | None => [] end.

Section General.
Context {T H X : Type} `{TraceSink T} `{Outside X} `{UnicodeCase} `{TimeText} `{Regexp} `{Sprinter} `{ManagedPatterns}
  `{PlannerPatterns} (busy : nat) (o : Orchestrator H).

Abbreviation Action A := (M (AgentState T H X) A).
Abbreviation save v := (@SaveTask_ T H X busy v).

(** *** The ends of a run *)
Definition answered (answer : string) (value : Task) (message_id : string) (t1 t2 : Z) (s : Session) : result Session :=
  Ok (MkSession (sn_ID s) (sn_Name s) (sn_Archived s)
        (sn_Messages s ++ [MkMessage message_id "assistant" answer (tk_ID value) t1])
        "已完成受限 MCP 多步骤只读调查" (sn_PinnedContext s)
        (if empty_ (tk_SelectedResources value) then sn_SelectedResources s else tk_SelectedResources value)
        (sn_CreatedAt s) t2).

(** The id and the times are drawn before the update, not inside its
    callback. *)
Definition completeGeneral (value : Task) (answer : string) : Action Returned :=
  let answer := TrimSpace answer in
  value <- Transition Completed value ;;
  let* _ := save value or value in
  message_id <- new_id "msg" ;;
  t1 <- now ;;
  t2 <- now ;;
  let* _ := on_store (UpdateSession busy (tk_SessionID value) (answered answer value message_id t1 t2)) or value in
  let* _ := appendTrace value TaskCompleted (payload [("completion_criteria_met", JBool true);
              ("evidence_count", JInt (Z.of_nat (length (tk_EvidenceRefs value))))]) or value in
  let* _ := appendTrace value Final (payload [("answer", JStr answer); ("evidence_refs", strings (tk_EvidenceRefs value))]) or value in
  ret (value, None).

(** *** Observations *)
Definition tool_record (decision : Decision_) (more : list (string * json)) : result json :=
  payload ([("server", JStr (de_ServerID decision)); ("tool", JStr (de_Tool decision))] ++ more).

Definition failure_observation (decision : Decision_) (message : string) : json :=
  JMap (list_to_map [("status", JStr "error"); ("server", JStr (de_ServerID decision)); ("tool", JStr (de_Tool decision));
    ("error", JStr message); ("recoverable", JBool true);
    ("next_action", JStr "choose another relevant read-only MCP tool or explain this source limitation if enough evidence exists")]).

(** The task after an observation: in the checkpoint, the plan, the evidence
    and the findings. *)
Definition observed (value : Task) (decision : Decision_) (arguments result : json) (ref state : string)
    (completed : list string) (finding : string) : Task * Prelude.result unit :=
  let '(runtime, stopped) := recordObservation (tk_Runtime value)
      (MkRuntimeObservation (de_ServerID decision) (de_Tool decision) arguments result ref "") in
  let value := with_runtime value runtime in
  let value := with_plan value (set_last_state (tk_Plan value) state) (tk_CurrentStep value) completed in
  (with_evidence value (tk_Findings value ++ [finding]) (tk_SelectedResources value) (tk_EvidenceRefs value ++ [ref]), stopped).

Definition recordGeneralToolFailure (value : Task) (decision : Decision_) (arguments : json) (stepID message : string)
    : Action Returned :=
  let message := boundedToolError message in
  let observationJSON := boundedObservation (failure_observation decision message) in
  let* sequence := on_trace (trace_append (tk_ID value) (tk_SessionID value) ToolResult
                      (tool_record decision [("structured_output", observationJSON); ("tool_error", JBool true)])) or value in
  let ref := evidence_ref value sequence in
  let finding := de_Tool decision +:+ " 调用失败，已记录为可恢复证据（" +:+ shortDigest observationJSON +:+ "）：" +:+ message in
  let '(value, stopped) := observed value decision arguments observationJSON ref "FAILED" (tk_CompletedSteps value) finding in
  let* _ := save value or value in
  let* _ := appendTrace value FindingsUpdated (payload [("finding", JStr finding); ("evidence_ref", JStr ref);
              ("recoverable_tool_error", JBool true); ("step_id", JStr stepID)]) or value in
  ret (value, match stopped with Ok _ => None | Err e => Some e end).

(** A failed call is an observation; the run goes on unless it is the third
    of its kind. *)
Definition tool_failed (value : Task) (decision : Decision_) (arguments : json) (stepID message : string) : Action turn :=
  let! (value, failed) := recordGeneralToolFailure value decision arguments stepID message in
  ret (match failed with None => Again value | Some e => Done (value, Some e) end).

Definition tool_succeeded (value : Task) (decision : Decision_) (arguments : json) (stepID : string) (structured : json) : Action turn :=
  let value := captureSelectedResources value (de_Tool decision) structured in
  let observationJSON := boundedObservation structured in
  turn* sequence := on_trace (trace_append (tk_ID value) (tk_SessionID value) ToolResult
                      (tool_record decision [("structured_output", observationJSON)])) or value in
  let ref := evidence_ref value sequence in
  let finding := de_Tool decision +:+ " 返回结构化证据（" +:+ shortDigest observationJSON +:+ "）" in
  let '(value, stopped) := observed value decision arguments observationJSON ref "COMPLETED"
                             (tk_CompletedSteps value ++ [stepID]) finding in
  turn* _ := save value or value in
  turn* _ := appendTrace value FindingsUpdated (payload [("finding", JStr finding); ("evidence_ref", JStr ref)]) or value in
  ret (match stopped with Ok _ => Again value | Err e => Done (value, Some e) end).

(** *** A tool call *)
Definition read_proposal (id : string) (value : Task) (decision : Decision_) : ActionProposal :=
  let target := MkTargetRef "host" "local" "" in
  MkActionProposal id (tk_ID value) (tk_SessionID value) (de_Tool decision) Read (de_Arguments decision) target 1 false "" false ""
    (MkIntentContext (tk_OriginalRequest value) (tk_Objective value) [target] (de_DecisionSummary decision) [target] []).

(** Out to the server, noted before it goes. *)
Definition call_tool (decision : Decision_) : Action CallToolResult :=
  modify (note_call (MkToolCall (de_ServerID decision) (de_Tool decision) (de_Arguments decision))) ;;;
  on_outside (out_CallTool (de_ServerID decision) (de_Tool decision) (de_Arguments decision)).

Definition run_tool (value : Task) (decision : Decision_) (stepID : string) : Action turn :=
  let arguments := JMap (de_Arguments decision) in
  turn* _ := appendTrace value ToolCall (tool_record decision [("arguments", arguments)]) or value in
  called <- try_ (call_tool decision) ;;
  match called with
  | Err e => tool_failed value decision arguments stepID (error_text e)
  | Ok result =>
    if ct_IsError result then tool_failed value decision arguments stepID (textResult result)
    else match ct_StructuredContent result with
         | None => tool_failed value decision arguments stepID "tool returned no structured content"
         | Some structured => tool_succeeded value decision arguments stepID structured
         end
  end.

(** The guards before the call. *)
Definition guarded_call (value : Task) (decision : Decision_) (stepID : string) : Action turn :=
  proposal_id <- new_id "proposal" ;;
  let proposal := read_proposal proposal_id value decision in
  turn* digest := lift (proposal_Digest proposal) or value in
  turn* _ := appendTrace value ActionProposed (proposed_payload proposal digest) or value in
  match o_Safety o with
  | None => stop value "safety pipeline is not configured"
  | Some catalog =>
    static_id <- new_id "decision" ;;
    intent_id <- new_id "decision" ;;
    let safety := pipeline_Evaluate catalog static_id intent_id proposal in
    turn* _ := appendTrace value StaticGuardResult (Ok (guard_json (pr_Static safety))) or value in
    if String.eqb (gd_Outcome (pr_Static safety)) Deny
    then stop value ("static guard denied " +:+ de_Tool decision +:+ ": " +:+ gd_Reason (pr_Static safety))
    else
      turn* _ := appendTrace value IntentGuardResult (Ok (intent_decision_json (pr_Intent safety))) or value in
      if String.eqb (id_Outcome (pr_Intent safety)) Deny
      then stop value ("intent guard denied " +:+ de_Tool decision +:+ ": " +:+ id_Reason (pr_Intent safety))
      else
        turn* _ := appendTrace value RiskEvaluated (Ok (risk_json (pr_Risk safety))) or value in
        if negb (String.eqb (gd_Outcome (pr_Final safety)) Allow) || negb (String.eqb (rr_Level (pr_Risk safety)) L0)
        then stop value ("general runtime only allows L0 reads; " +:+ de_Tool decision +:+ " resolved to "
                         +:+ gd_Outcome (pr_Final safety) +:+ "/" +:+ rr_Level (pr_Risk safety))
        else run_tool value decision stepID
  end.

(** A decision outside the read scope is refused, recorded, and planned
    again. *)
Definition refuse_out_of_scope (value : Task) (scope : generalReadScope) (violation : readScopeViolation) : Action turn :=
  let runtime := appendRuntimeGuardFeedback (tk_Runtime value) (Some scope) violation in
  let '(runtime, replanned) := recordReplan runtime in
  let value := with_runtime value runtime in
  value <- Transition Replanning value ;;
  turn* _ := save value or value in
  turn* _ := appendTrace value IntentGuardResult (payload [("outcome", JStr Deny); ("reason_code", JStr (vi_Code violation));
      ("reason", JStr (vi_Summary violation)); ("selected_tool", JStr (vi_Tool violation));
      ("attempted_path", JStr (vi_AttemptedPath violation)); ("authorized_paths", JArr (map JStr (gs_AuthorizedPaths scope)));
      ("excluded_paths", JArr (map JStr (gs_ExcludedPaths scope))); ("scope_source", JStr (gs_Source scope));
      ("replan_count", JInt (rc_Replans (tk_Runtime value)))]) or value in
  turn* _ := lift replanned or value in
  turn* _ := appendTrace value PlanCreated (payload [("strategy", JStr "request-scope replan"); ("reason_code", JStr (vi_Code violation));
      ("authorized_paths", JArr (map JStr (gs_AuthorizedPaths scope))); ("excluded_paths", JArr (map JStr (gs_ExcludedPaths scope)));
      ("replan_count", JInt (rc_Replans (tk_Runtime value)))]) or value in
  ret (Again value).

Definition use_tool (iv : Investigation) (value : Task) (decision : Decision_) : Action turn :=
  match available iv (de_ServerID decision) (de_Tool decision) with
  | None => stop value ("planner selected unavailable tool " +:+ de_ServerID decision +:+ "/" +:+ de_Tool decision)
  | Some capability =>
    turn* _ := lift (wrap_err "tool arguments failed discovered schema: "
                       (validateToolArguments (tc_InputSchema capability) (de_Arguments decision))) or value in
    match iv_scope iv, validateGeneralReadScope (iv_scope iv) decision with
    | Some scope, Some violation => refuse_out_of_scope value scope violation
    | _, _ =>
      let '(runtime, reserved) := reserveToolCall (tk_Runtime value) in
      let value := with_runtime value runtime in
      turn* _ := lift reserved or value in
      let stepID := step_id (tk_Plan value) in
      let plan := tk_Plan value ++ [MkStep stepID (de_DecisionSummary decision) (de_Tool decision) "RUNNING"] in
      let value := with_plan value plan (Z.of_nat (length plan) - 1) (tk_CompletedSteps value) in
      turn* _ := save value or value in
      guarded_call value decision stepID
    end
  end.

(** *** A decision *)
Definition replan (value : Task) (decision : Decision_) : Action turn :=
  let '(runtime, replanned) := recordReplan (tk_Runtime value) in
  let value := with_runtime value runtime in
  turn* _ := lift replanned or value in
  value <- Transition Replanning value ;;
  turn* _ := save value or value in
  turn* _ := appendTrace value PlanCreated (payload [("strategy", JStr "replan"); ("summary", JStr (de_DecisionSummary decision));
              ("replan_count", JInt (rc_Replans (tk_Runtime value)))]) or value in
  ret (Again value).

Definition carry_out (iv : Investigation) (value : Task) (decision : Decision_) : Action turn :=
  if String.eqb (de_Kind decision) DecisionReplan then replan value decision
  else if String.eqb (de_Kind decision) DecisionFinal then
    if negb (has_evidence value) then stop value "completion gate rejected a final answer without MCP evidence"
    else finish (completeGeneral value (de_FinalAnswer decision))
  else if String.eqb (de_Kind decision) DecisionActionRequest then
    finish (prepareGeneralManagedAction busy (o_Actions o) (o_ActionTargets o) value decision (iv_managed iv))
  else if String.eqb (de_Kind decision) DecisionTool then use_tool iv value decision
  else ret (Again value).

Definition decision_record (iv : Investigation) (value : Task) (original decision : Decision_) (finalOnly replanned : bool) : result json :=
  payload ([("objective", JStr (tk_Objective value)); ("decision_kind", JStr (de_Kind decision));
      ("decision_summary", JStr (de_DecisionSummary decision)); ("selected_server", JStr (de_ServerID decision));
      ("selected_tool", JStr (de_Tool decision)); ("target", target_json (de_Target decision));
      ("expected_observation", JStr (de_ExpectedObservation decision)); ("final_only", JBool finalOnly)]
    ++ scope_field (iv_scope iv)
    ++ (if replanned then [("local_guardrail", JStr "replanned_decision_without_evidence");
          ("planner_original_kind", JStr (de_Kind original)); ("planner_original_summary", JStr (de_DecisionSummary original))]
        else [])).

Definition decide (iv : Investigation) (value : Task) (finalOnly : bool) : Action Decision_ :=
  on_outside (out_Decide
    (MkDecisionRequest (tk_Objective value) (tk_OriginalRequest value) finalOnly (iv_context iv)
       (if finalOnly then [] else iv_capabilities iv) (if finalOnly then [] else iv_managed iv)
       (plannerReadScope (iv_scope iv)) (plannerGuardFeedback (rc_GuardFeedback (tk_Runtime value)))
       (plannerObservations (rc_Observations (tk_Runtime value)))
       (rc_Iterations (tk_Runtime value)) (rc_ToolCalls (tk_Runtime value)))
    (generalDecisionDeadline value finalOnly)).

(** The planner is asked again, for the end only, when the time for it has
    come and it did not answer or did not end. *)
Definition late (value : Task) (t : Z) (decided : result Decision_) : bool :=
  shouldFinalizeGeneral value t &&
  match decided with
  | Err e => errors_is e EDEADLINE
  | Ok decision => negb (String.eqb (de_Kind decision) DecisionFinal)
  end.

Definition ask (iv : Investigation) (value : Task) (finalOnly : bool) : Action (result Decision_ * bool) :=
  decided <- try_ (decide iv value finalOnly) ;;
  if finalOnly then ret (decided, true)
  else
    t <- now ;;
    if late value t decided then decided <- try_ (decide iv value true) ;; ret (decided, true)
    else ret (decided, false).

Definition iteration (iv : Investigation) (value : Task) : Action turn :=
  current <- now ;;
  let value := with_runtime value (initializeRuntime (tk_Runtime value) current) in
  let finalOnly := shouldFinalizeGeneral value current in
  let '(runtime, begun) := beginGeneralDecision (tk_Runtime value) current finalOnly in
  let value := with_runtime value runtime in
  turn* _ := lift begun or value in
  if negb finalOnly && empty_ (iv_capabilities iv) then stop value "no healthy MCP tools are available"
  else
    value <- Transition Investigating value ;;
    turn* _ := save value or value in
    let! (decided, finalOnly) := ask iv value finalOnly in
    turn* original := lift decided or value in
    if finalOnly && negb (String.eqb (de_Kind original) DecisionFinal)
    then stop value ("planner returned " +:+ de_Kind original +:+ " while evidence-backed finalization was required")
    else
      let '(decision, replanned) := replanWithoutEvidence original value in
      turn* _ := appendTrace value DecisionRecorded (decision_record iv value original decision finalOnly replanned) or value in
      carry_out iv value decision.

Fixpoint investigate (fuel : nat) (iv : Investigation) (value : Task) : Action (option Returned) :=
  match fuel with
  | 0%nat => ret None
  | S fuel =>
    next <- iteration iv value ;;
    match next with
    | Again value => investigate fuel iv value
    | Done r => ret (Some r)
    end
  end.

(** *** The whole run *)
Definition plan_record (iv : Investigation) (value : Task) : result json :=
  payload ([("strategy", JStr "bounded ReAct / Plan-Execute"); ("max_iterations", JInt (rc_MaxIterations (tk_Runtime value)));
      ("max_tool_calls", JInt (rc_MaxToolCalls (tk_Runtime value))); ("deadline_at", JStr (time_text (rc_DeadlineAt (tk_Runtime value))));
      ("completion_criteria", JStr "at least one MCP evidence reference and a structured final decision")]
    ++ (match iv_context iv with
        | Some c => [("session_context", JMap (list_to_map [("source", JStr "durable_session");
              ("recent_message_count", JInt (Z.of_nat (length (sc_RecentMessages c))));
              ("selected_resource_count", JInt (Z.of_nat (length (sc_SelectedResources c))));
              ("summary_present", JBool (negb (String.eqb (sc_Summary c) "")))]))]
        | None => []
        end)
    ++ scope_field (iv_scope iv)).

(** A task without an intent is new. *)
Definition begin_general (iv : Investigation) (value : Task) : Action Returned :=
  if negb (String.eqb (tk_IntentType value) "") then ret (value, None)
  else
    value <- Transition Planning (with_intent value "general_bounded_operation") ;;
    t <- now ;;
    let value := with_runtime value (initializeRuntime (tk_Runtime value) t) in
    let* _ := save value or value in
    let* _ := appendTrace value IntentParsed (payload [("intent_type", JStr (tk_IntentType value));
                ("provider", JStr "openai-compatible");
                ("effect_scope", JStr "discovered read MCP tools plus approval-bound fixed managed actions")]) or value in
    let* _ := appendTrace value PlanCreated (plan_record iv value) or value in
    ret (value, None).

Definition runGeneral (fuel : nat) (value : Task) : Action (option Returned) :=
  if negb (o_Capabilities o) then ret (Some (value, Some (EMsg "general runtime capability source is not configured")))
  else
    s <- get_st ;;
    let capabilities := out_AvailableTools (as_outside s) in
    let managed := managedActionCapabilities (configured (o_Actions o)) (configured (o_ActionTargets o)) in
    loaded <- try_ (on_store (GetSession (tk_SessionID value))) ;;
    match loaded with
    | Err e => ret (Some (value, Some e))
    | Ok durableSession =>
      let iv := MkInvestigation capabilities managed (buildPlannerSessionContext durableSession (tk_ID value))
                  (deriveGeneralReadScope (tk_OriginalRequest value) (sn_SelectedResources durableSession)) in
      let! (value, failed) := begin_general iv value in
      match failed with
      | Some e => ret (Some (value, Some e))
      | None => investigate fuel iv value
      end
    end.
End General.
#[global] Arguments investigate : simpl never.

(** *** The rules of [stays] for the parts of the agent *)
Section Stays.
Context {S : Type} (E : Env) (R : S -> S -> Prop) `{!PreOrder R}.

Lemma stays_attempt {A B} (value : B) (m : M S A) k (P1 : A -> Prop) (P : B * option error -> Prop) :
  stays E R m P1 -> (forall e, P (value, Some e)) -> (forall x, P1 x -> stays E R (k x) P) -> stays E R (attempt value m k) P.
Proof.
  intros Hm He Hk. apply (stays_bind _ _ _ _ _ _ (stays_try _ _ _ _ Hm)). intros [x|e] Hx; [by apply Hk, Hx|]. by apply stays_ret.
Qed.

Lemma stays_turn {A} (value : Task) (m : M S A) k (P1 : A -> Prop) (P : turn -> Prop) :
  stays E R m P1 -> (forall e, P (Done (value, Some e))) -> (forall x, P1 x -> stays E R (k x) P) ->
  stays E R (attempt_turn value m k) P.
Proof.
  intros Hm He Hk. apply (stays_bind _ _ _ _ _ _ (stays_try _ _ _ _ Hm)). intros [x|e] Hx; [by apply Hk, Hx|]. by apply stays_ret.
Qed.

(** The task in a new state. *)
Definition moved (v : Task) (state : string) (v' : Task) : Prop :=
  exists t, v' = task_with v state (tk_WorkerLease v) (tk_Checkpoint v + 1) t.

Lemma stays_transition state v : stays E R (Transition state v) (moved v state).
Proof. apply (stays_bind _ _ _ _ (fun _ => True)); [by apply stays_now|]. intros t _. apply stays_ret; [done|]. by exists t. Qed.
End Stays.

(** The walk through a program under [stays]: [leaf] is for its effects.  What
    a part returns is remembered where a lemma says so. *)
Ltac stays_leaf leaf :=
  lazymatch goal with
  | |- stays ?E ?R (ret _) _ => by apply (stays_ret E R _ (fun _ => True))
  | |- stays ?E ?R (Transition _ _) _ => apply (stays_transition E R)
  | |- stays ?E ?R now _ => by apply (stays_now E R (fun _ => True))
  | |- stays ?E ?R (new_id _) _ => by apply (stays_new_id E R _ (fun _ => True))
  | |- stays ?E ?R get_st _ => by apply (stays_get E R (fun _ => True))
  | |- stays ?E ?R ctx_check _ => apply (stays_ctx_check E R)
  | |- stays ?E ?R (lift ?r) _ => by apply (stays_lift E R r (fun x => r = Ok x))
  | |- stays ?E ?R (try_ _) _ => eapply (stays_try E R); stays_leaf leaf
  | |- stays ?E ?R (wrapping _ _) _ => apply (stays_wrapping E R); stays_leaf leaf
  | |- _ => leaf
  end.

Ltac keep_result :=
  let Hr := fresh "Hr" in intros ? Hr;
  lazymatch type of Hr with
  | (fun _ => True) _ => clear Hr
  | (fun _ => forall _, _ -> (fun _ => True) _) _ => clear Hr
  | _ => cbv beta in Hr
  end.

Ltac stays_step leaf :=
  lazymatch goal with
  | |- stays ?E ?R (ret _) _ => apply (stays_ret E R)
  | |- stays ?E ?R (Agent.fail _ _) _ => apply (stays_ret E R)
  | |- stays ?E ?R Platform.panic _ => apply (stays_throw E R)
  | |- stays ?E ?R (throw _) _ => apply (stays_throw E R)
  | |- stays ?E ?R (General.stop _ _) _ => apply (stays_ret E R)
  | |- stays _ _ (finish _) _ => unfold finish
  | |- stays ?E ?R (attempt_turn _ _ _) _ => eapply (stays_turn E R); [stays_leaf leaf|intros ?|keep_result]
  | |- stays ?E ?R (attempt _ _ _) _ => eapply (stays_attempt E R); [stays_leaf leaf|intros ?|keep_result]
  | |- stays ?E ?R (bind (Transition _ _) _) _ => eapply (stays_bind E R); [apply (stays_transition E R)|intros ? [? ->]]
  | |- stays ?E ?R (bind _ _) _ => eapply (stays_bind E R); [stays_leaf leaf|keep_result]
  | |- stays _ _ (match ?x with _ => _ end) _ => destruct x eqn:?
  end.

(** ** What a run does *)
Section Specs.
Context {T H X : Type} `{TraceSink T} `{Outside X} `{UnicodeCase} `{TimeText} `{Regexp} `{Sprinter} `{ManagedPatterns}
  `{PlannerPatterns} (busy : nat) (o : Orchestrator H) {E : Env}.

Abbreviation Action A := (M (AgentState T H X) A).
Abbreviation Calls := (list ToolCall_).

(** Parts that make no tool call. *)
Definition keeps {A} (m : Action A) : Prop := obeys (on_st (fun s s' => as_calls s' = as_calls s)) m.

#[local] Instance same_calls_preorder : PreOrder (fun s s' : AgentState T H X => as_calls s' = as_calls s).
Proof. split; [done|]. intros a b c -> ->. done. Qed.

Lemma keeps_on_store {A} (m : M Store A) : keeps (on_store m).
Proof. apply wp_obeys. intros E' s. by apply wp_zoom, wp_any. Qed.
Lemma keeps_on_trace {A} (m : M T A) : keeps (on_trace m).
Proof. apply wp_obeys. intros E' s. by apply wp_zoom, wp_any. Qed.
Lemma keeps_on_approvals {A} (m : M ApprovalDir A) : keeps (on_approvals m).
Proof. apply wp_obeys. intros E' s. by apply wp_zoom, wp_any. Qed.
Lemma keeps_on_machine {A} (m : M H A) : keeps (on_machine m).
Proof. apply wp_obeys. intros E' s. by apply wp_zoom, wp_any. Qed.
Lemma keeps_on_outside {A} (m : M X A) : keeps (on_outside m).
Proof. apply wp_obeys. intros E' s. by apply wp_zoom, wp_any. Qed.
Lemma keeps_lift {A} (r : result A) : keeps (lift r).
Proof. apply obeys_lift, _. Qed.
Lemma keeps_throw {A} e : keeps (@throw _ A e).
Proof. apply obeys_throw, _. Qed.
Lemma keeps_ret {A} (a : A) : keeps (ret a).
Proof. apply obeys_ret, _. Qed.
Lemma keeps_bind {A B} (m : Action A) (k : A -> Action B) : keeps m -> (forall a, keeps (k a)) -> keeps (bind m k).
Proof. apply obeys_bind, _. Qed.
Lemma keeps_background {A} (m : Action A) : keeps m -> keeps (background m).
Proof. intros Hm E' w. apply Hm. Qed.
Lemma keeps_save v : keeps (SaveTask_ busy v).
Proof. apply keeps_on_store. Qed.
Lemma keeps_append t typ data : keeps (appendTrace t typ data).
Proof. apply keeps_bind; [apply keeps_on_trace|intros _; apply keeps_ret]. Qed.

Lemma keeps_snapshot targets tool target arguments : keeps (snapshotManagedActionTarget targets tool target arguments).
Proof.
  unfold snapshotManagedActionTarget. destruct (String.eqb tool _).
  { apply keeps_bind; [apply keeps_lift|intros _; apply keeps_on_machine]. }
  destruct (String.eqb tool _); [|apply keeps_throw].
  apply keeps_bind; [apply keeps_lift|intros named]. apply keeps_bind; [apply keeps_lift|intros pid].
  apply keeps_bind; [apply keeps_lift|intros _]. apply keeps_bind; [apply keeps_on_machine|intros sn].
  apply keeps_bind; [apply keeps_lift|intros _; apply keeps_ret].
Qed.

(** [spec m Q]: [m] returns a value; [Q] holds of it and of the calls made. *)
Definition spec {A} (m : Action A) (Q : A -> Calls -> Prop) : Prop :=
  forall s, wp E m (fun r s' => exists a new, r = Ok a /\ as_calls s' = as_calls s ++ new /\ Q a new) s.

Lemma spec_mono {A} (m : Action A) (Q Q' : A -> Calls -> Prop) : spec m Q -> (forall a new, Q a new -> Q' a new) -> spec m Q'.
Proof. intros Hm HQ s. eapply wp_mono; [apply Hm|]. intros r s' (a&new&?&?&?). exists a, new. auto. Qed.

Lemma spec_ret {A} (a : A) (Q : A -> Calls -> Prop) : Q a [] -> spec (ret a) Q.
Proof. intros HQ s. apply wp_ret. exists a, []. by rewrite app_nil_r. Qed.

Lemma spec_bind {A B} (m : Action A) (k : A -> Action B) (Q1 : A -> Calls -> Prop) (Q : B -> Calls -> Prop) :
  spec m Q1 -> (forall a new, Q1 a new -> spec (k a) (fun b new' => Q b (new ++ new'))) -> spec (bind m k) Q.
Proof.
  intros Hm Hk s. apply wp_bind. eapply wp_mono; [apply Hm|]. intros r s1 (a&new&->&E1&H1').
  eapply wp_mono; [by apply Hk|]. intros r2 s2 (b&new'&->&E2&H2'). exists b, (new ++ new').
  split; [done|]. split; [|done]. by rewrite E2, E1, app_assoc.
Qed.

(** A part that cannot fail and makes no call. *)
Lemma spec_silent {A B} (m : Action A) (k : A -> Action B) (Q : B -> Calls -> Prop) :
  spec m (fun _ new => new = []) -> (forall a, spec (k a) Q) -> spec (bind m k) Q.
Proof. intros Hm Hk. eapply spec_bind; [exact Hm|]. by intros a ? ->. Qed.

Lemma spec_now {B} (k : Z -> Action B) Q : (forall t, spec (k t) Q) -> spec (bind now k) Q.
Proof. apply spec_silent. intros s. apply wp_now. intros n. eexists _, []. by rewrite app_nil_r. Qed.

Lemma spec_new_id {B} p (k : string -> Action B) Q : (forall i, spec (k i) Q) -> spec (bind (new_id p) k) Q.
Proof. apply spec_silent. intros s. apply wp_new_id. intros n. eexists _, []. by rewrite app_nil_r. Qed.

Lemma spec_transition {B} state v (k : Task -> Action B) Q :
  (forall t, spec (k (task_with v state (tk_WorkerLease v) (tk_Checkpoint v + 1) t)) Q) -> spec (bind (Transition state v) k) Q.
Proof.
  intros Hk. eapply (spec_bind _ _ (fun v' new => new = [] /\ exists t, v' = task_with v state (tk_WorkerLease v) (tk_Checkpoint v + 1) t)).
  - unfold Transition. apply spec_now. intros t. apply spec_ret. eauto.
  - intros v' new [-> [t ->]]. apply Hk.
Qed.

Lemma spec_try {A B} (m : Action A) (k : result A -> Action B) Q : keeps m -> (forall r, spec (k r) Q) -> spec (bind (try_ m) k) Q.
Proof.
  intros Hm. apply spec_silent. intros s. apply wp_try. eapply wp_of_obeys; [exact Hm|]. intros r s' E1.
  exists r, []. by rewrite app_nil_r.
Qed.

Lemma spec_attempt {A B} (value : B) (m : Action A) k Q :
  keeps m -> (forall e, Q (value, Some e) []) -> (forall a, spec (k a) Q) -> spec (attempt value m k) Q.
Proof. intros Hm He Hk. apply spec_try; [done|]. intros [a|e]; [done|]. by apply spec_ret. Qed.

Lemma spec_turn {A} (value : Task) (m : Action A) k Q :
  keeps m -> (forall e, Q (Done (value, Some e)) []) -> (forall a, spec (k a) Q) -> spec (attempt_turn value m k) Q.
Proof. intros Hm He Hk. apply spec_try; [done|]. intros [a|e]; [done|]. by apply spec_ret. Qed.

Lemma keeps_reject_part id reason : keeps (on_approvals (background (Resolve id false reason))).
Proof. apply keeps_on_approvals. Qed.

Lemma spec_reject {B} id reason (k : unit -> Action B) Q : (forall u, spec (k u) Q) -> spec (bind (reject id reason) k) Q.
Proof.
  apply spec_silent. unfold reject. apply spec_try; [apply keeps_reject_part|]. intros r. by apply spec_ret.
Qed.

End Specs.

Create HintDb keeps.
#[export] Hint Resolve keeps_save keeps_append keeps_lift keeps_on_trace keeps_on_store keeps_on_approvals keeps_on_outside
  keeps_on_machine keeps_snapshot keeps_background : keeps.

Ltac spec_step :=
  lazymatch goal with
  | |- spec (ret _) _ => apply spec_ret
  | |- spec (fail _ _) _ => apply spec_ret
  | |- spec (stop _ _) _ => apply spec_ret
  | |- spec (attempt _ _ _) _ => apply spec_attempt; [by eauto with keeps|intros ?|intros ?]
  | |- spec (attempt_turn _ _ _) _ => apply spec_turn; [by eauto with keeps|intros ?|intros ?]
  | |- spec (bind now _) _ => apply spec_now; intros ?
  | |- spec (bind (new_id _) _) _ => apply spec_new_id; intros ?
  | |- spec (bind (Transition _ _) _) _ => apply spec_transition; intros ?
  | |- spec (bind (try_ _) _) _ => apply spec_try; [by eauto with keeps|intros ?]
  | |- spec (bind (reject _ _) _) _ => apply spec_reject; intros ?
  | |- spec (match ?x with _ => _ end) _ => destruct x eqn:?
  end; cbv zeta.

(** An exit with an error asks for nothing. *)
Ltac spec_walk := repeat (spec_step; try (by split)).

Section Runs.
Context {T H X : Type} `{TraceSink T} `{Outside X} `{UnicodeCase} `{TimeText} `{Regexp} `{Sprinter} `{ManagedPatterns}
  `{PlannerPatterns} (busy : nat) (o : Orchestrator H) (E : Env).

Abbreviation Action A := (M (AgentState T H X) A).
Abbreviation Calls := (list ToolCall_).
Abbreviation spec m Q := (@General.spec T H X E _ m Q).

Lemma spec_request_approval p value proposal snapshot digest safety :
  spec (request_approval busy p value proposal snapshot digest safety)
    (fun r new => new = [] /\ (r.2 = None -> tk_State r.1.1 = WaitingApproval)).
Proof. unfold request_approval, store_waiting. cbv zeta. spec_walk. Qed.

Lemma spec_Prepare p value proposal snapshot :
  spec (Prepare busy p value proposal snapshot) (fun r new => new = [] /\ (r.2 = None -> tk_State r.1.1 = WaitingApproval)).
Proof. unfold Prepare. cbv zeta. spec_walk; apply spec_request_approval. Qed.

Lemma spec_managed value decision capabilities :
  spec (prepareGeneralManagedAction busy (o_Actions o) (o_ActionTargets o) value decision capabilities)
    (fun r new => new = [] /\ (r.2 = None -> tk_State r.1 = WaitingApproval)).
Proof.
  unfold prepareGeneralManagedAction. spec_walk. unfold plan_managed_action. cbv zeta. spec_walk.
  eapply spec_bind; [apply spec_Prepare|]. intros r new [-> Hr]. by apply spec_ret.
Qed.

Lemma spec_complete value answer :
  spec (completeGeneral busy value answer) (fun r new => new = [] /\
    (r.2 = None -> tk_State r.1 = Completed /\ has_evidence r.1 = has_evidence value)).
Proof. unfold completeGeneral. cbv zeta. spec_walk. Qed.

(** *** The budget *)
Definition limit (n standard : Z) : Z := if n =? 0 then standard else n.
Definition turns_left (v : Task) : nat :=
  Z.to_nat (limit (rc_MaxIterations (tk_Runtime v)) MaxIterations - rc_Iterations (tk_Runtime v)).
Definition calls_left (v : Task) : nat :=
  Z.to_nat (limit (rc_MaxToolCalls (tk_Runtime v)) MaxToolCalls - rc_ToolCalls (tk_Runtime v)).

Definition same_task (v v' : Task) : Prop :=
  tk_ID v' = tk_ID v /\ tk_SessionID v' = tk_SessionID v /\ tk_Objective v' = tk_Objective v
  /\ tk_OriginalRequest v' = tk_OriginalRequest v.

#[local] Instance same_task_preorder : PreOrder same_task.
Proof. split; [by repeat split|]. intros a b c (?&?&?&?) (?&?&?&?). unfold same_task. intuition congruence. Qed.

(** Going on costs the calls made. *)
Definition steady (v v' : Task) (new : Calls) : Prop :=
  same_task v v' /\ turns_left v' = turns_left v /\ (length new + calls_left v' <= calls_left v)%nat.

Definition finished (v : Task) : Prop :=
  (tk_State v = Completed /\ has_evidence v = true) \/ tk_State v = WaitingApproval.

(** Every call out passed the discovery, the schema, the read scope and the
    guards, which saw it as a read for this task's request. *)
Definition call_of (d : Decision_) : ToolCall_ := MkToolCall (de_ServerID d) (de_Tool d) (de_Arguments d).

Definition cleared (v : Task) (d : Decision_) : Prop :=
  exists catalog i j k, o_Safety o = Some catalog /\
    let safety := pipeline_Evaluate catalog i j (read_proposal k v d) in
    gd_Outcome (pr_Final safety) = Allow /\ rr_Level (pr_Risk safety) = L0.

Definition permitted (iv : Investigation) (v : Task) (c : ToolCall_) : Prop :=
  exists d capability, c = call_of d /\ cleared v d /\ de_Kind d = DecisionTool /\
    available iv (de_ServerID d) (de_Tool d) = Some capability /\
    validateToolArguments (tc_InputSchema capability) (de_Arguments d) = Ok tt /\
    validateGeneralReadScope (iv_scope iv) d = None.

Lemma permitted_same iv v v' c : same_task v v' -> permitted iv v' c -> permitted iv v c.
Proof.
  intros (E1&E2&E3&E4) (d&cap&->&(catalog&i&j&k&Hs&Hc)&?). exists d, cap. split; [done|]. split; [|done].
  exists catalog, i, j, k. split; [done|]. unfold read_proposal in *. by rewrite E1, E2, E3, E4 in Hc.
Qed.

(** What a turn leaves. *)
Definition accounted (iv : Investigation) (v : Task) (t : turn) (new : Calls) : Prop :=
  Forall (permitted iv v) new /\ (length new <= calls_left v)%nat /\
  match t with
  | Again v' => steady v v' new
  | Done r => r.2 = None -> finished r.1
  end.

Lemma accounted_error iv v v' e : accounted iv v (Done (v', Some e)) [].
Proof. split; [constructor|]. split; [simpl; lia|done]. Qed.
#[local] Hint Resolve accounted_error : keeps.

(** An observation costs nothing. *)
Lemma observed_steady value decision arguments result ref state completed finding value' stopped :
  observed value decision arguments result ref state completed finding = (value', stopped) -> steady value value' [].
Proof.
  unfold observed. destruct (recordObservation _ _) as [c r] eqn:Hc. unfold recordObservation in Hc. cbv zeta in Hc.
  apply (f_equal fst) in Hc. cbn [fst] in Hc. subst c. intros Hv. apply (f_equal fst) in Hv. cbn [fst] in Hv. subst value'.
  by repeat split.
Qed.

Lemma capture_steady value tool structured : steady value (captureSelectedResources value tool structured) [].
Proof. unfold captureSelectedResources. repeat case_match; by repeat split. Qed.

Lemma steady_trans v v' v'' : steady v v' [] -> steady v' v'' [] -> steady v v'' [].
Proof. intros (A&B&C) (A'&B'&C'). split; [by etrans|]. simpl in *. split; [congruence|lia]. Qed.

Definition quiet_turn (v : Task) (t : turn) (new : Calls) : Prop :=
  new = [] /\ match t with Again v' => steady v v' [] | Done r => r.2 <> None end.

Lemma spec_tool_failed value decision arguments stepID message :
  spec (tool_failed busy value decision arguments stepID message) (quiet_turn value).
Proof.
  unfold tool_failed.
  eapply (spec_bind _ _ (fun r new => new = [] /\ (r.2 = None -> steady value r.1 []))).
  - unfold recordGeneralToolFailure. cbv zeta. spec_step; [by split|].
    destruct (observed _ _ _ _ _ _ _ _) as [v' stopped] eqn:Ho. spec_walk.
    split; [done|]. intros _. by eapply observed_steady.
  - intros [v' failed] new [-> Hv]. simpl in Hv. destruct failed; apply spec_ret; split; [done|done|done|auto].
Qed.

Lemma spec_tool_succeeded value decision arguments stepID structured :
  spec (tool_succeeded busy value decision arguments stepID structured) (quiet_turn value).
Proof.
  unfold tool_succeeded. cbv zeta. spec_step; [by split|].
  destruct (observed _ _ _ _ _ _ _ _) as [v' stopped] eqn:Ho. spec_walk. split; [done|].
  destruct stopped; [|done]. eapply steady_trans; [apply capture_steady|]. by eapply observed_steady.
Qed.

Lemma spec_call_tool decision : spec (try_ (call_tool decision)) (fun _ new => new = [call_of decision]).
Proof.
  intros s. apply wp_try. unfold call_tool. apply wp_bind, wp_modify.
  eapply wp_of_obeys; [apply keeps_on_outside|]. intros r s' E1. exists r, [call_of decision]. done.
Qed.

Lemma spec_run_tool value decision stepID :
  spec (run_tool busy value decision stepID) (fun t new => new ⊆+ [call_of decision] /\
    match t with Again v' => steady value v' [] | Done r => r.2 <> None end).
Proof.
  unfold run_tool. cbv zeta. spec_step; [by split; [apply submseteq_nil_l|]|].
  eapply spec_bind; [apply spec_call_tool|]. intros r new ->.
  assert (Hq : forall m : Action turn, spec m (quiet_turn value) ->
    spec m (fun t new' => [call_of decision] ++ new' ⊆+ [call_of decision] /\
      match t with Again v' => steady value v' [] | Done r => r.2 <> None end)).
  { intros m Hm. eapply spec_mono; [exact Hm|]. intros t ? [-> Ht]. by rewrite app_nil_r. }
  repeat case_match; apply Hq; first [apply spec_tool_failed|apply spec_tool_succeeded].
Qed.

Lemma spec_guarded_call value decision stepID :
  spec (guarded_call busy o value decision stepID) (fun t new => new ⊆+ [call_of decision] /\
    (new <> [] -> cleared value decision) /\ match t with Again v' => steady value v' [] | Done r => r.2 <> None end).
Proof.
  unfold guarded_call. cbv zeta.
  repeat (spec_step; try (by split; [apply submseteq_nil_l|])).
  eapply spec_mono; [apply spec_run_tool|]. intros t new [Hn Ht]. split; [done|]. split; [|done]. intros _.
  eexists _, _, _, _. split; [eassumption|]. cbv zeta.
  match goal with Hb : _ || _ = false |- _ => apply orb_false_iff in Hb as [H1' H2'] end. apply negb_false_iff, String.eqb_eq in H1', H2'. eauto.
Qed.


Lemma accounted_again iv v v' : steady v v' [] -> accounted iv v (Again v') [].
Proof. intros Hs. split; [constructor|]. split; [simpl; lia|done]. Qed.

Lemma spec_refuse iv value scope violation :
  spec (refuse_out_of_scope busy value scope violation) (accounted iv value).
Proof.
  unfold refuse_out_of_scope, recordReplan, appendRuntimeGuardFeedback. cbv zeta. spec_walk; eauto with keeps.
  apply accounted_again. by repeat split.
Qed.

Lemma spec_replan iv value decision : spec (replan busy value decision) (accounted iv value).
Proof.
  unfold replan, recordReplan. cbv zeta. spec_walk; eauto with keeps. apply accounted_again. by repeat split.
Qed.

(** A call reserved and made, or only reserved. *)
Lemma reserved_call iv value v1 d capability t new :
  available iv (de_ServerID d) (de_Tool d) = Some capability ->
  validateToolArguments (tc_InputSchema capability) (de_Arguments d) = Ok tt ->
  validateGeneralReadScope (iv_scope iv) d = None -> de_Kind d = DecisionTool ->
  same_task value v1 -> turns_left v1 = turns_left value -> (S (calls_left v1) <= calls_left value)%nat ->
  new ⊆+ [call_of d] -> (new <> [] -> cleared v1 d) ->
  match t with Again v' => steady v1 v' [] | Done r => r.2 <> None end ->
  accounted iv value t new.
Proof.
  intros Ha Hv Hs Hk Hsame Ht Hc Hn Hcl Hturn.
  assert (Hl : (length new <= 1)%nat) by apply (submseteq_length _ _ Hn).
  assert (Hnew : Forall (fun c => c = call_of d) new).
  { apply Forall_forall. intros c Hin. eapply elem_of_submseteq in Hin; [|exact Hn]. by apply list_elem_of_singleton in Hin. }
  split; [|split; [lia|]].
  - destruct new as [|c new]; [constructor|]. eapply Forall_impl; [exact Hnew|]. intros c' ->.
    apply (permitted_same iv value v1); [done|]. exists d, capability. split_and!; auto.
  - destruct t as [v'|[v' failed]]; [|intros ?; done]. destruct Hturn as (A&B&C). split; [by etrans|].
    simpl in C. split; [congruence|lia].
Qed.

Lemma spec_turn_lift {A} (value : Task) (r : result A) k Q :
  (forall e, Q (Done (value, Some e)) []) -> (forall a, r = Ok a -> spec (k a) Q) -> spec (attempt_turn value (lift r) k) Q.
Proof.
  intros He Hk s. unfold attempt_turn. apply wp_bind, wp_try, wp_lift. destruct r as [a|e]; [by apply Hk|].
  by apply spec_ret.
Qed.

Lemma spec_use_tool iv value decision :
  de_Kind decision = DecisionTool -> spec (use_tool busy o iv value decision) (accounted iv value).
Proof.
  intros Hk. unfold use_tool. destruct (available iv _ _) as [capability|] eqn:Ha; [|apply spec_ret, accounted_error].
  apply spec_turn_lift; [intros; apply accounted_error|]. intros [] Hv.
  assert (Hv' : validateToolArguments (tc_InputSchema capability) (de_Arguments decision) = Ok tt).
  { revert Hv. by destruct (validateToolArguments _ _) as [[]|]. }
  enough (Hgo : validateGeneralReadScope (iv_scope iv) decision = None ->
    spec (let '(runtime, reserved) := reserveToolCall (tk_Runtime value) in
      let value := with_runtime value runtime in
      turn* _ := lift reserved or value in
      let stepID := step_id (tk_Plan value) in
      let plan := tk_Plan value ++ [MkStep stepID (de_DecisionSummary decision) (de_Tool decision) "RUNNING"] in
      let value := with_plan value plan (Z.of_nat (length plan) - 1) (tk_CompletedSteps value) in
      turn* _ := SaveTask_ busy value or value in
      guarded_call busy o value decision stepID) (accounted iv value)).
  { destruct (iv_scope iv) as [scope|]; [|by apply Hgo].
    destruct (validateGeneralReadScope (Some scope) decision); [apply spec_refuse|by apply Hgo]. }
  intros Hs. unfold reserveToolCall. destruct (_ <=? _) eqn:Hb; cbv zeta.
  { apply spec_turn_lift; [intros; apply accounted_error|done]. }
  spec_step; [apply accounted_error|]. spec_step; [apply accounted_error|].
  eapply spec_mono; [apply spec_guarded_call|]. intros t new (Hn&Hc&Ht).
  refine (reserved_call _ _ _ _ _ _ _ Ha Hv' Hs Hk _ _ _ Hn Hc Ht); [by repeat split|done|].
  apply Z.leb_gt in Hb. unfold calls_left. cbn [with_plan with_runtime with_counters tk_Runtime rc_MaxToolCalls rc_ToolCalls].
  unfold limit, MaxToolCalls. destruct (_ =? 0) eqn:E0; lia.
Qed.

Lemma accounted_finish iv value (m : Action Returned) :
  spec m (fun r new => new = [] /\ (r.2 = None -> finished r.1)) -> spec (finish m) (accounted iv value).
Proof.
  intros Hm. eapply spec_bind; [exact Hm|]. intros r new [-> Hr]. apply spec_ret. split; [constructor|].
  split; [simpl; lia|done].
Qed.

Lemma spec_carry_out iv value decision : spec (carry_out busy o iv value decision) (accounted iv value).
Proof.
  unfold carry_out. destruct (String.eqb _ DecisionReplan); [apply spec_replan|].
  destruct (String.eqb _ DecisionFinal).
  { destruct (has_evidence value) eqn:He; [|apply spec_ret, accounted_error]. apply accounted_finish.
    eapply spec_mono; [apply spec_complete|]. intros r new [-> Hr]. split; [done|]. intros Hn. left.
    destruct (Hr Hn) as [? Hev]. split; [done|congruence]. }
  destruct (String.eqb _ DecisionActionRequest).
  { apply accounted_finish. eapply spec_mono; [apply spec_managed|]. intros r new [-> Hr]. split; [done|]. right. auto. }
  destruct (String.eqb _ DecisionTool) eqn:Hk; [apply spec_use_tool; by apply String.eqb_eq|].
  apply spec_ret, accounted_again. by repeat split.
Qed.

(** A final decision on evidence ends the run. *)
Definition over (t : turn) : Prop := match t with Again _ => False | Done _ => True end.

Lemma spec_carry_out_final iv value decision :
  de_Kind decision = DecisionFinal -> spec (carry_out busy o iv value decision) (fun t _ => over t).
Proof.
  intros Hk. unfold carry_out. rewrite Hk. change (String.eqb DecisionFinal DecisionReplan) with false.
  change (String.eqb DecisionFinal DecisionFinal) with true. cbv iota. destruct (negb _); [by apply spec_ret|].
  eapply spec_bind; [apply spec_complete|]. intros r new _. by apply spec_ret.
Qed.


Lemma spec_both {A} (m : Action A) (Q Q' : A -> Calls -> Prop) : spec m Q -> spec m Q' -> spec m (fun a new => Q a new /\ Q' a new).
Proof.
  intros H1' H2' s w Hw. destruct (H1' s w Hw) as (a&new&E1&C1&?), (H2' s w Hw) as (a'&new'&E2&C2&?).
  rewrite E1 in E2. injection E2 as <-. rewrite C1 in C2. apply app_inv_head in C2 as <-. by exists a, new.
Qed.

Lemma spec_ask iv value finalOnly :
  (finalOnly = true -> has_evidence value = true) ->
  spec (ask iv value finalOnly) (fun r new => new = [] /\ (finalOnly = true -> r.2 = true) /\ (r.2 = true -> has_evidence value = true)).
Proof.
  intros Hf. unfold ask, decide. spec_step. destruct finalOnly; [by apply spec_ret; auto|]. spec_step.
  destruct (late value _ _) eqn:Hl; spec_walk. split; [done|]. split; [done|]. intros _. unfold late, shouldFinalizeGeneral in Hl.
  by destruct (has_evidence value).
Qed.

(** What the loop does with the planner's answer. *)
Lemma spec_answer iv value decided finalOnly :
  (finalOnly = true -> has_evidence value = true) ->
  spec (turn* original := lift decided or value in
    if finalOnly && negb (String.eqb (de_Kind original) DecisionFinal)
    then stop value ("planner returned " +:+ de_Kind original +:+ " while evidence-backed finalization was required")
    else
      let '(decision, replanned) := replanWithoutEvidence original value in
      turn* _ := appendTrace value DecisionRecorded (decision_record iv value original decision finalOnly replanned) or value in
      carry_out busy o iv value decision) (fun t new => accounted iv value t new /\ (finalOnly = true -> over t)).
Proof.
  intros Hf. apply spec_turn_lift; [intros; split; [apply accounted_error|done]|]. intros original _.
  destruct (finalOnly && _) eqn:Hk; [apply spec_ret; split; [apply accounted_error|done]|].
  destruct (replanWithoutEvidence original value) as [decision replanned] eqn:Hr.
  spec_step; [split; [apply accounted_error|done]|].
  destruct finalOnly; [|eapply spec_mono; [apply spec_carry_out|]; done].
  apply negb_false_iff, String.eqb_eq in Hk. unfold replanWithoutEvidence in Hr. rewrite (Hf eq_refl), orb_true_r in Hr.
  injection Hr as <- _. eapply spec_mono; [apply spec_both; [apply spec_carry_out|by apply spec_carry_out_final]|]. naive_solver.
Qed.

(** *** One turn *)
Definition stepped (iv : Investigation) (v : Task) (t : turn) (new : Calls) : Prop :=
  Forall (permitted iv v) new /\ (length new <= calls_left v)%nat /\
  match t with
  | Again v' => same_task v v' /\ (turns_left v' < turns_left v)%nat /\ (length new + calls_left v' <= calls_left v)%nat
  | Done r => r.2 = None -> finished r.1
  end.

Lemma stepped_error iv v v' e : stepped iv v (Done (v', Some e)) [].
Proof. split; [constructor|]. split; [simpl; lia|done]. Qed.

(** A turn begun costs one decision, unless it can only end the run. *)
Lemma stepped_from iv v v1 t new :
  same_task v v1 -> calls_left v1 = calls_left v -> accounted iv v1 t new ->
  ((turns_left v1 < turns_left v)%nat \/ over t) -> stepped iv v t new.
Proof.
  intros Hs Hc (Hp&Hl&Ht) Ho. split; [eapply Forall_impl; [exact Hp|]; intros c; by apply permitted_same|]. split; [by rewrite <- Hc|].
  destruct t as [v'|r]; [|done]. destruct Ht as (A&B&C). destruct Ho as [Ho|[]]. split; [by etrans|]. split; [lia|]. by rewrite <- Hc.
Qed.

Lemma limit_limit n d : 0 < d -> limit (limit n d) d = limit n d.
Proof. unfold limit. intros Hd. destruct (n =? 0) eqn:E0; [by destruct (d =? 0)|by rewrite E0]. Qed.

Lemma initialize_limits c t :
  limit (rc_MaxIterations (initializeRuntime c t)) MaxIterations = rc_MaxIterations (initializeRuntime c t) /\
  rc_MaxIterations (initializeRuntime c t) = limit (rc_MaxIterations c) MaxIterations /\
  limit (rc_MaxToolCalls (initializeRuntime c t)) MaxToolCalls = limit (rc_MaxToolCalls c) MaxToolCalls.
Proof. split; [|split; [done|]]; by apply limit_limit. Qed.

Lemma begin_counts v t finalOnly c :
  beginGeneralDecision (initializeRuntime (tk_Runtime v) t) t finalOnly = (c, Ok tt) ->
  calls_left (with_runtime v c) = calls_left v /\ ((turns_left (with_runtime v c) < turns_left v)%nat \/ finalOnly = true)
  /\ rc_Observations c = rc_Observations (tk_Runtime v).
Proof.
  unfold beginGeneralDecision. set (c1 := initializeRuntime (tk_Runtime v) t). cbv zeta.
  destruct (initialize_limits (tk_Runtime v) t) as (_&I1&C1), (initialize_limits c1 t) as (I3&I2&C2). fold c1 in I1, C1.
  rewrite I1 in I2. unfold MaxIterations in I2. rewrite limit_limit in I2 by lia. rewrite C1 in C2.
  set (c2 := initializeRuntime c1 t) in *. unfold calls_left, turns_left.
  destruct (negb _); [done|]. destruct (rc_MaxIterations c2 <=? rc_Iterations c2) eqn:Hi.
  - destruct finalOnly; intros Heq; [|done]. injection Heq as <-. cbn [with_runtime tk_Runtime]. rewrite C2. auto.
  - intros Heq. injection Heq as <-. cbn [with_runtime tk_Runtime with_counters rc_MaxIterations rc_MaxToolCalls rc_Iterations rc_ToolCalls].
    rewrite C2, I3, I2. split; [done|]. split; [left|done]. change (rc_Iterations c2) with (rc_Iterations (tk_Runtime v)) in *.
    unfold MaxIterations. lia.
Qed.

Lemma spec_iteration iv v : spec (iteration busy o iv v) (stepped iv v).
Proof.
  unfold iteration. spec_step. cbn [with_runtime tk_Runtime].
  destruct (beginGeneralDecision _ _ _) as [c begun] eqn:Hb.
  apply spec_turn_lift; [intros; apply stepped_error|]. intros [] ->. apply begin_counts in Hb as (Hcalls&Hturns&Hobs).
  set (finalOnly := shouldFinalizeGeneral _ _) in *.
  destruct (negb finalOnly && _); [apply spec_ret, stepped_error|].
  spec_step. spec_step; [apply stepped_error|]. cbv zeta.
  match goal with |- spec (bind (ask _ ?w _) _) _ => set (v1 := w) end.
  eapply spec_bind; [apply spec_ask|].
  { intros Hf. apply andb_true_iff in Hf as [Hf _]. revert Hf. unfold has_evidence, v1.
    cbn [with_runtime task_with tk_Runtime tk_EvidenceRefs]. by rewrite Hobs. }
  intros [decided fo] new (->&Hfo&He). cbn [snd] in Hfo, He. cbv beta iota.
  eapply spec_mono; [by apply spec_answer|]. intros next new [Hacc Hover]. simpl.
  apply (stepped_from iv v v1); [by repeat split|exact Hcalls|exact Hacc|].
  destruct Hturns as [Ht|Ht]; [left; exact Ht|right; auto].
Qed.

Definition run_outcome (iv : Investigation) (v : Task) (r : option Returned) (new : Calls) : Prop :=
  exists v' failed, r = Some (v', failed) /\ Forall (permitted iv v) new /\ (length new <= calls_left v)%nat
    /\ (failed = None -> finished v').

Lemma spec_investigate iv fuel v : (turns_left v < fuel)%nat -> spec (investigate busy o fuel iv v) (run_outcome iv v).
Proof.
  revert v. induction fuel as [|fuel IH]; intros v Hf; [lia|]. cbn [investigate].
  eapply spec_bind; [apply spec_iteration|]. intros [v'|[v' failed]] new (Hp&Hl&Ht).
  - destruct Ht as (Hs&Hlt&Hc). eapply spec_mono; [apply IH; lia|]. intros r new' (v''&failed&->&Hp'&Hl'&Hd).
    exists v'', failed. split; [done|]. split_and!; [|rewrite length_app; lia|done].
    apply Forall_app. split; [done|]. eapply Forall_impl; [exact Hp'|]. intros c. by apply permitted_same.
  - apply spec_ret. exists v', failed. rewrite app_nil_r. by split_and!.
Qed.

Lemma initialized_budget v w t :
  tk_Runtime w = initializeRuntime (tk_Runtime v) t -> turns_left w = turns_left v /\ calls_left w = calls_left v.
Proof.
  intros Hw. destruct (initialize_limits (tk_Runtime v) t) as (I1&I2&I3). unfold turns_left, calls_left.
  rewrite Hw, I3, I1, I2. done.
Qed.

Lemma spec_begin iv v :
  spec (begin_general busy iv v) (fun r new => new = [] /\ same_task v r.1 /\ turns_left r.1 = turns_left v /\ calls_left r.1 = calls_left v).
Proof.
  unfold begin_general. spec_walk.
  all: split; [done|]; split; [by repeat split|]; cbn [fst].
  all: by eapply initialized_budget.
Qed.

(** What the run of [v] over a session works with. *)
Definition investigation (v : Task) (s : AgentState T H X) (durable : Session) : Investigation :=
  MkInvestigation (out_AvailableTools (as_outside s))
    (managedActionCapabilities (configured (o_Actions o)) (configured (o_ActionTargets o)))
    (buildPlannerSessionContext durable (tk_ID v))
    (deriveGeneralReadScope (tk_OriginalRequest v) (sn_SelectedResources durable)).

(** The run ends with a result; the calls it made are within the task's
    budget and each was permitted; and it reports success only for a task
    completed on evidence or waiting for an approval. *)
Definition bounded_run (v : Task) (s : AgentState T H X) (r : result (option Returned)) (s' : AgentState T H X) : Prop :=
  exists result new, r = Ok (Some result) /\ as_calls s' = as_calls s ++ new
    /\ (length new <= calls_left v)%nat
    /\ (new <> [] -> exists durable, has sessions (tk_SessionID v) durable (as_store s) /\ Forall (permitted (investigation v s durable) v) new)
    /\ (result.2 = None -> finished result.1).

Lemma bounded_error v v' s s' e : as_calls s' = as_calls s -> bounded_run v s (Ok (Some (v', Some e))) s'.
Proof. intros Hs. exists (v', Some e), []. rewrite app_nil_r. split_and!; try done. simpl. lia. Qed.

(** C8: A run of the general investigation always ends, for every behaviour of
    the planner, the tool servers and the environment: as many turns as the
    checkpoint has iterations left, and one more, are enough to get a result.
    It makes no more tool calls than the budget has left, each one of a
    discovered tool, with arguments its schema accepts, inside the read scope
    derived from the operator's request and the session on disk, and cleared
    by the safety pipeline as an L0 read; and it returns without an error only
    when the task is completed with evidence or waits for an approval. *)
Theorem general_run_bounded fuel v s :
  (turns_left v < fuel)%nat -> wp E (runGeneral busy o fuel v) (bounded_run v s) s.
Proof.
  intros Hf. unfold runGeneral. destruct (negb _); [by apply wp_ret, bounded_error|].
  apply wp_bind, wp_get. cbv zeta. apply wp_bind, wp_try, wp_zoom, wp_get_record.
  2: { intros e. by apply wp_ret, bounded_error. }
  intros durable Hd. fold (investigation v s durable). cbv iota.
  apply wp_bind. eapply wp_mono; [apply spec_begin|]. intros r s1 ([v1 failed]&new&->&E1&->&Hs&Ht&Hc). cbn [fst] in *.
  rewrite app_nil_r in E1. cbn [as_calls] in E1. destruct failed as [e|]; [by apply wp_ret, bounded_error|].
  eapply wp_mono; [apply spec_investigate; lia|]. intros r s2 (result&new&->&E2&v2&failed&->&Hp&Hl&Hfin).
  exists (v2, failed), new. rewrite E2, E1. split_and!; [done|done|lia| |done].
  intros _. exists durable. split; [done|]. eapply Forall_impl; [exact Hp|]. intros c. by apply permitted_same.
Qed.

End Runs.

(** ** A run evaluated
    The planner reads its decisions from a script; one server has one tool. *)
Definition scripted : Outside (list Decision_) := {|
  out_Decide _ _ := script <- get_st ;;
    match script with [] => throw (ESys EDEADLINE) | d :: rest => put_st rest ;;; ret d end;
  out_AvailableTools _ := [MkToolCapability "file" "file.stat" "" (print (JObj [("type", JStr "object")]))];
  out_CallTool _ _ _ := ret (MkCallToolResult false [] (Some (JObj [("size", JInt 4096)])))
|}.

Definition no_managed : ManagedPatterns := {|
  service_negative _ := false; service_read_only _ := false; service_chinese _ := []; service_english _ := [];
  process_negative _ := false; process_read_only _ := false; process_chinese _ := false; process_english _ := false;
  process_target_cn _ := []; process_target_en _ := []
|}.

Definition lab_reader : Orchestrator nat :=
  MkOrchestrator true true true None None None
    (Some (MkCatalog 1 "sha256:reads" {[ "file.stat" := MkToolPolicy "file.stat" Read L0 false false ["host"] "read-file" ]})) true "" 0.

Definition lab_request : Task :=
  MkTask "task_1" "session_1" "size of the log" "inspect /srv/app" "CREATED" "" [] 0 [] [] [] [] None "" "" ∅
    (MkRuntimeCheckpoint 0 0 0 0 "" 0 0 zero_time zero_time [] []) (MkWorkerLease "" "" 0 zero_time) 0 "" 0 0.

Definition lab_final : Decision_ := MkDecision DecisionFinal "" "" "" ∅ (MkTargetRef "" "" "") "" "4096 bytes".
Definition planned_by (script : list Decision_) : AgentState nat nat (list Decision_) :=
  MkAgentState (MkStore (st_sessions lab_store) {[ "task_1" := Some lab_request ]} ∅) 0%nat ∅ 0%nat script [].

Definition run_lab_general (fuel : nat) :=
  runGeneral (T := nat) (H := nat) (X := list Decision_) (H0 := counting_sink) (H1 := scripted) (H2 := lab_case) (H3 := plain_time)
    (H4 := no_regexp) (H5 := no_sprint) (H6 := no_managed) (H7 := mask_patterns) 2 lab_reader fuel lab_request.

(** What a script leads to: the final state, or the error, and the calls. *)
Definition told (script : list Decision_) : option (string * string * list string) :=
  match run_lab_general 13 (calm 5 "00ff") (init_world (planned_by script)) with
  | (Ok (Some (v, failed)), w) =>
    Some (tk_State v, match failed with None => "" | Some e => error_text e end, map tl_Tool (as_calls (st w)))
  | _ => None
  end.

Example scripts_told :
  told [lab_final; lab_decision "file.stat" "/srv/app/log"; lab_final] = Some (Completed, "", ["file.stat"]) /\
  told [lab_decision "file.stat" "/etc/passwd"; lab_decision "file.stat" "/srv/app/log"; lab_final]
    = Some (Completed, "", ["file.stat"]) /\
  told (repeat (lab_decision "file.stat" "/srv/app/log") 9)
    = Some (Investigating, "agent stopped after three identical tool observations", ["file.stat"; "file.stat"; "file.stat"]) /\
  told [lab_decision "file.remove" "/srv/app/log"]
    = Some (Investigating, "planner selected unavailable tool file/file.remove", []).
Proof. vm_compute. repeat split; reflexivity. Qed.

Lemma general_run_bounded_witness :
  wp (calm 5 "00ff") (run_lab_general 13)
    (bounded_run (H1 := scripted) (H2 := lab_case) (H4 := no_regexp) (H5 := no_sprint) (H7 := mask_patterns) lab_reader lab_request
       (planned_by [lab_decision "file.stat" "/srv/app/log"; lab_final]))
    (planned_by [lab_decision "file.stat" "/srv/app/log"; lab_final]).
Proof.
  apply (general_run_bounded (H0 := counting_sink) (H1 := scripted) (H2 := lab_case) (H3 := plain_time) (H4 := no_regexp)
    (H5 := no_sprint) (H6 := no_managed) (H7 := mask_patterns) 2 lab_reader (calm 5 "00ff") 13 lab_request).
  vm_compute. repeat constructor.
Defined.
