(* ===== verification/Workflows.v ===== *)
(** * The fixed workflows of the lab

    [internal/agent/port_workflow.go], [cpu_workflow.go] and
    [disk_workflow.go]: each reads its evidence through guarded tool calls,
    asks for one write bound to that evidence, and when the write was approved
    and executed goes on ([ContinueAfterAction]) until fresh readings confirm
    the recovery.  A step of a stored plan that is not there, or a dependency
    that is not configured, is the panic it is in Go.  The HTTP check of the
    recovered service is the interface [HealthVerifier]. *)

From S2P Require Import Prelude GoStrings GoText GoPath Json Hash Contracts Guard Approval Platform Targets Executor Store Planner Scope Agent Decode Prepare Managed General.
Open Scope Z_scope.

Definition TaskCreated : string := "TASK_CREATED".
Definition KnowledgeRetrieved : string := "KNOWLEDGE_RETRIEVED".
Definition RCAResult : string := "RCA_RESULT".

Record HealthEvidence := MkHealthEvidence {
  he_URL : string;
  he_StatusCode : Z;
  he_BodySHA256 : string
}.

Class HealthVerifier (X : Type) := out_Verify : string -> M X HealthEvidence.

Definition health_json (h : HealthEvidence) : json :=
  JObj [("url", JStr (he_URL h)); ("status_code", JInt (he_StatusCode h)); ("body_sha256", JStr (he_BodySHA256 h))].

(** ** Plans *)
Definition step_json (s : Step) : json :=
  JObj ([("step_id", JStr (sp_ID s)); ("description", JStr (sp_Description s))]
    ++ omit (String.eqb (sp_Tool s) "") "tool" (JStr (sp_Tool s)) ++ [("state", JStr (sp_State s))]).

Definition pending_step (id description tool : string) : Step := MkStep id description tool "PENDING".

(** [value.Plan[i].State = state] *)
Definition step_state (plan : list Step) (i : nat) (state : string) : list Step :=
  alter (fun s => MkStep (sp_ID s) (sp_Description s) (sp_Tool s) state) i plan.

Definition step_at (value : Task) (i : nat) : Step := default (MkStep "" "" "" "") (tk_Plan value !! i).
Definition has_step (value : Task) (i : nat) : bool := (i <? length (tk_Plan value))%nat.

(** [value.CurrentStep = i; value.Plan[i].State = state] *)
Definition at_step (value : Task) (i : nat) (state : string) : Task :=
  with_plan value (step_state (tk_Plan value) i state) (Z.of_nat i) (tk_CompletedSteps value).

(** The step is done, and listed as done once. *)
Definition step_done (value : Task) (i : nat) : Task :=
  let id := sp_ID (step_at value i) in
  with_plan value (step_state (tk_Plan value) i "COMPLETED") (tk_CurrentStep value)
    (if string_in id (tk_CompletedSteps value) then tk_CompletedSteps value else tk_CompletedSteps value ++ [id]).

Definition with_workflow (t : Task) (data : gmap string json) : Task :=
  MkTask (tk_ID t) (tk_SessionID t) (tk_Objective t) (tk_OriginalRequest t) (tk_State t) (tk_IntentType t) (tk_Plan t)
    (tk_CurrentStep t) (tk_CompletedSteps t) (tk_Findings t) (tk_SelectedResources t) (tk_EvidenceRefs t)
    (tk_PendingAction t) (tk_PendingApprovalID t) (tk_VerificationGoal t) data (tk_Runtime t)
    (tk_WorkerLease t) (tk_Checkpoint t) (tk_FailureReason t) (tk_CreatedAt t) (tk_UpdatedAt t).

Definition add_finding (value : Task) (finding : string) : Task :=
  with_evidence value (tk_Findings value ++ [finding]) (tk_SelectedResources value) (tk_EvidenceRefs value).
Definition add_ref (value : Task) (ref : string) : Task :=
  with_evidence value (tk_Findings value) (tk_SelectedResources value) (tk_EvidenceRefs value ++ [ref]).

(** ** Evidence *)
Definition decodeStructured {A} (value : json) (d : decoder A) (zero : A) : result A :=
  match d (as_any value) zero with
  | Some a => Ok a
  | None => Err (EMsg "json: cannot unmarshal")
  end.

(** A field of an anonymous struct. *)
Definition dec_only {A} (name : string) (d : decoder A) : decoder A := dec_struct (fun l p => dec_field name d l p).

Definition service_evidence (output : json) : result ServiceStatus :=
  decodeStructured output (dec_only "service" dec_service) zero_service.
Definition port_evidence (output : json) : result bool := decodeStructured output (dec_only "occupied" dec_bool) false.
Definition process_evidence (output : json) : result (list ProcessInfo) :=
  let? l := decodeStructured output (dec_only "processes" (dec_slice dec_process zero_process)) None in Ok (default [] l).
Definition usage_evidence (output : json) : result string := decodeStructured output (dec_only "usage_percent" dec_float) "0".
Definition rca_evidence (output : json) : result RCA := decodeStructured output (dec_only "rca" dec_rca) zero_rca.
Definition file_evidence `{TimeParse} (output : json) : result (list Metadata) :=
  let? l := decodeStructured output (dec_only "files" (dec_slice dec_metadata zero_metadata)) None in Ok (default [] l).

(** The diagnosis of a port conflict, with the knowledge it rests on. *)
Definition diagnosis_evidence (output : json) : result (RCA * list Knowledge) :=
  let? d := decodeStructured output (dec_struct (fun l p =>
    let+ rca := dec_field "diagnosis" (dec_only "rca" dec_rca) l (fst p) in
    let+ knowledge := dec_field "knowledge" (dec_slice dec_knowledge zero_knowledge) l (snd p) in
    Some (rca, knowledge))) (zero_rca, None) in
  Ok (fst d, default [] (snd d)).

Definition knowledgeRefs (values : list Knowledge) : list string :=
  map (fun v => "knowledge://" +:+ kn_DocumentID v) (List.filter (fun v => negb (String.eqb (kn_DocumentID v) "")) values).

(** ** Names of the lab *)
Definition demoServiceUnit : string := "safeops-demo-web.service".
Definition demoPort : Z := 18081.
Definition demoHolderExecutable : string := "/opt/safeops/bin/safeops-port-holder".
Definition demoHealthURL : string := "http://127.0.0.1:18081/healthz".
Definition demoCPUUnit : string := "safeops-cpu-hog.service".
Definition demoCPUExecutable : string := "/opt/safeops/bin/safeops-cpu-hog".
Definition demoLabRoot : string := "/var/lib/safeops/lab".
Definition demoGrowthPath : string := "/var/lib/safeops/lab/growth.log".
Definition demoLogWriterExecutable : string := "/opt/safeops/bin/safeops-log-writer".

(** The only process of an executable. *)
Definition matching (executable : string) (values : list ProcessInfo) : list ProcessInfo :=
  List.filter (fun v => String.eqb (pi_Executable v) executable) values.

Definition uniqueDemoHolder (values : list ProcessInfo) : result ProcessInfo :=
  match matching demoHolderExecutable values with
  | [p] => Ok p
  | l => Err (EMsg ("expected exactly one allowlisted Demo port holder, got " +:+ show_Z (Z.of_nat (length l))))
  end.

Definition uniqueControlledProcess (values : list ProcessInfo) (executable : string) : result ProcessInfo :=
  match matching executable values with
  | [p] => Ok p
  | l => Err (EMsg ("expected exactly one controlled process " +:+ executable +:+ ", got " +:+ show_Z (Z.of_nat (length l))))
  end.

Definition exactGrowthFile (values : list Metadata) : result Metadata :=
  match List.find (fun v => String.eqb (md_Path v) demoGrowthPath && md_IsRegular v) values with
  | Some v => Ok v
  | None => Err (EMsg "fixed growth.log was not found above the controlled large-file threshold")
  end.

Definition process_id (p : ProcessInfo) : string := "pid:" +:+ show_Z (pi_PID p) +:+ ":start:" +:+ show_Z (pi_StartTicks p).

(** ** Numbers of the answers *)

(** [f + g] rounded to the nearest; [None] past the largest finite number. *)
Definition float_add (f g : float64) : option float64 :=
  let e := Z.min (f_exp f) (f_exp g) in
  let n := f_mant f * 2 ^ (f_exp f - e) + f_mant g * 2 ^ (f_exp g - e) in
  match if 0 <=? e then round_ratio (Z.abs n * 2 ^ e) 1 else round_ratio (Z.abs n) (2 ^ (- e)) with
  | Some r => Some (if n <? 0 then MkFloat (- f_mant r) (f_exp r) else r)
  | None => None
  end.

Definition float_val (lit : string) : float64 := default (MkFloat 0 0) (ParseFloat lit).

(** [%.<n>f] of [m * 2^e]: the exact value rounded to [n] decimals, ties to
    even; [neg] is its sign. *)
Definition format_fixed (n : Z) (neg : bool) (m e : Z) : string :=
  let scaled := if 0 <=? e then m * 10 ^ n * 2 ^ e else nearest (m * 10 ^ n) (2 ^ (- e)) in
  let digits := show_Z (scaled mod 10 ^ n) in
  (if neg then "-" else "") +:+ show_Z (scaled / 10 ^ n) +:+ "."
    +:+ string_of_list_ascii (repeat "0"%char (Z.to_nat n - String.length digits)) +:+ digits.

Definition format1 (lit : string) : string :=
  let f := float_val lit in format_fixed 1 (HasPrefix lit "-") (Z.abs (f_mant f)) (f_exp f).

(** [after+0.5 < baseline] *)
Definition metric_recovered (after baseline : string) : bool :=
  match float_add (float_val after) (MkFloat 1 (-1)) with
  | Some f => float_lt f (float_val baseline)
  | None => false
  end.

Example metrics :
  format1 "12.25" = "12.2" /\ format1 "99.96" = "100.0" /\ format1 "-0.04" = "-0.0" /\ format1 "7" = "7.0" /\
  metric_recovered "11.7" "12.25" = true /\ metric_recovered "11.75" "12.25" = false.
Proof. vm_compute. repeat split; reflexivity. Qed.

(** ** Proposals *)
Definition host_local : TargetRef := MkTargetRef "host" "local" "".

Definition read_step_proposal (id : string) (value : Task) (tool : string) (arguments : gmap string json) (description : string)
    : ActionProposal :=
  MkActionProposal id (tk_ID value) (tk_SessionID value) tool Read arguments host_local 1 false "" false ""
    (MkIntentContext (tk_OriginalRequest value) (tk_Objective value) [host_local] description [host_local] []).

(** Terminating a process because of what it is related to. *)
Definition terminate_proposal (id : string) (value : Task) (pid : Z) (target related : TargetRef) (relation description : string)
    : ActionProposal :=
  MkActionProposal id (tk_ID value) (tk_SessionID value) "process.terminate" Write {[ "pid" := JInt pid ]} target 1 false "" true ""
    (MkIntentContext (tk_OriginalRequest value) (tk_Objective value) [related] description [target]
       [MkTargetAuthorization target related relation (tk_EvidenceRefs value)]).

Definition direct_proposal (id : string) (value : Task) (tool : string) (arguments : gmap string json) (target : TargetRef)
    (reversible : bool) (rollback description : string) : ActionProposal :=
  MkActionProposal id (tk_ID value) (tk_SessionID value) tool Write arguments target 1 reversible rollback true ""
    (MkIntentContext (tk_OriginalRequest value) (tk_Objective value) [target] description [target] []).

(** A read of a workflow. *)
Record ReadStep := MkReadStep { rd_server : string; rd_tool : string; rd_arguments : gmap string json }.

Section Workflow.
Context {T H X : Type} `{TraceSink T} `{Outside X} `{HealthVerifier X} `{UnicodeCase} `{TimeText} `{TimeParse} (busy : nat)
  (o : Orchestrator H).

Abbreviation Action A := (M (AgentState T H X) A).
Abbreviation save v := (@SaveTask_ T H X busy v).
Abbreviation event v typ fields := (@appendTrace T H X _ v typ (payload fields)).

Definition call_registered (r : ReadStep) : Action CallToolResult :=
  if o_Registry o then
    modify (note_call (MkToolCall (rd_server r) (rd_tool r) (rd_arguments r))) ;;;
    on_outside (out_CallTool (rd_server r) (rd_tool r) (rd_arguments r))
  else panic.

(** The answer of the server becomes evidence of the task. *)
Definition record_read (value : Task) (i : nat) (r : ReadStep) (structured : json) : Action ((Task * json) * option error) :=
  let bounded := boundedObservation structured in
  let* sequence := on_trace (trace_append (tk_ID value) (tk_SessionID value) ToolResult
    (payload [("server", JStr (rd_server r)); ("tool", JStr (rd_tool r)); ("structured_output", bounded)])) or (value, JNull) in
  let ref := evidence_ref value sequence in
  let finding := rd_tool r +:+ " 返回结构化证据（" +:+ shortDigest bounded +:+ "）" in
  let value := add_finding (add_ref (step_done value i) ref) finding in
  let* _ := save value or (value, JNull) in
  let* _ := event value FindingsUpdated [("finding", JStr finding); ("evidence_ref", JStr ref)] or (value, JNull) in
  ret ((value, structured), None).

Definition callWorkflowReadStep (value : Task) (index : Z) (r : ReadStep) : Action ((Task * json) * option error) :=
  if (index <? 0) || (Z.of_nat (length (tk_Plan value)) <=? index)
  then fail (value, JNull) "port workflow step index is invalid"
  else
    let i := Z.to_nat index in
    let value := at_step value i "RUNNING" in
    let none := (value, JNull) in
    let description := sp_Description (step_at value i) in
    let* _ := save value or none in
    proposal_id <- new_id "proposal" ;;
    let proposal := read_step_proposal proposal_id value (rd_tool r) (rd_arguments r) description in
    let* digest := lift (proposal_Digest proposal) or none in
    let* _ := event value DecisionRecorded [("objective", JStr (tk_Objective value)); ("current_step", JStr description);
                ("selected_tool", JStr (rd_tool r)); ("expected_observation", JStr "bounded structured Lab evidence")] or none in
    let* _ := appendTrace value ActionProposed (proposed_payload proposal digest) or none in
    match o_Safety o with
    | None => panic
    | Some catalog =>
      static_id <- new_id "decision" ;;
      intent_id <- new_id "decision" ;;
      let safety := pipeline_Evaluate catalog static_id intent_id proposal in
      let* _ := appendTrace value StaticGuardResult (Ok (guard_json (pr_Static safety))) or none in
      let* _ := appendTrace value IntentGuardResult (Ok (intent_decision_json (pr_Intent safety))) or none in
      let* _ := appendTrace value RiskEvaluated (Ok (risk_json (pr_Risk safety))) or none in
      if negb (String.eqb (gd_Outcome (pr_Final safety)) Allow) || negb (String.eqb (rr_Level (pr_Risk safety)) L0)
      then fail none ("read step " +:+ rd_tool r +:+ " was not allowed: " +:+ gd_Outcome (pr_Final safety) +:+ "/"
                      +:+ rr_Level (pr_Risk safety))
      else
        let* _ := event value ToolCall [("server", JStr (rd_server r)); ("tool", JStr (rd_tool r));
                    ("arguments", JMap (rd_arguments r))] or none in
        let* result := call_registered r or none in
        if ct_IsError result then fail none ("tool " +:+ rd_tool r +:+ ": " +:+ textResult result)
        else match ct_StructuredContent result with
             | None => fail none ("tool " +:+ rd_tool r +:+ " returned no structured content")
             | Some structured => record_read value i r structured
             end
    end.

(** The reads of a workflow, one after the other. *)
Fixpoint read_steps (value : Task) (index : Z) (reads : list ReadStep) : Action ((Task * list json) * option error) :=
  match reads with
  | [] => ret ((value, []), None)
  | r :: reads =>
    let! ((value, output), failed) := callWorkflowReadStep value index r in
    match failed with
    | Some e => ret ((value, []), Some e)
    | None =>
      let! ((value, outputs), failed) := read_steps value (index + 1) reads in
      ret ((value, output :: outputs), failed)
    end
  end.

(** A workflow starts: its plan is saved and announced. *)
Definition begin_workflow (value : Task) (facts : list (string * json)) (criteria : string) : Action Returned :=
  value <- Transition Planning value ;;
  let* _ := save value or value in
  let* _ := event value IntentParsed ([("intent_type", JStr (tk_IntentType value))] ++ facts) or value in
  let* _ := event value PlanCreated [("steps", slice step_json (tk_Plan value)); ("completion_criteria", JStr criteria)] or value in
  ret (value, None).

(** The write is asked for. *)
Definition ask_approval (value : Task) (proposal : ActionProposal) (snapshot : TargetSnapshot) : Action Returned :=
  match o_Actions o with
  | None => panic
  | Some actions =>
    waiting <- Prepare busy actions value proposal snapshot ;;
    ret (waiting.1.1, waiting.2)
  end.

(** The recovery is confirmed: the task and its session end. *)
Definition recovered (value : Task) (answer summary : string) (resources : option (list string)) (facts : list (string * json))
    : Action Returned :=
  value <- Transition Completed value ;;
  let* _ := save value or value in
  message_id <- new_id "msg" ;;
  t1 <- now ;;
  t2 <- now ;;
  let* _ := on_store (UpdateSession busy (tk_SessionID value) (fun s =>
    Ok (MkSession (sn_ID s) (sn_Name s) (sn_Archived s)
          (sn_Messages s ++ [MkMessage message_id "assistant" answer (tk_ID value) t1]) summary (sn_PinnedContext s)
          (default (sn_SelectedResources s) resources) (sn_CreatedAt s) t2))) or value in
  let* _ := event value TaskCompleted ([("completion_criteria_met", JBool true)] ++ facts) or value in
  let* _ := event value Final [("answer", JStr answer); ("evidence_refs", strings (tk_EvidenceRefs value))] or value in
  ret (value, None).

(** ** [port_workflow.go] *)
Definition port_plan : list Step := [
  pending_step "port_status" "读取 Demo Web 服务状态" "service.get_status";
  pending_step "port_journal" "读取 Demo Web 服务日志" "journal.query_unit";
  pending_step "port_socket" "检查 Demo 端口占用" "network.check_port";
  pending_step "port_owner" "定位 Demo 端口占用进程" "process.find_by_port";
  pending_step "port_rca" "关联多源证据并生成 RCA" "diagnostic.port_conflict";
  pending_step "port_terminate" "终止证据绑定的受控端口占用进程" "process.terminate";
  pending_step "port_restart" "重启 allowlist Demo Web 服务" "service.restart";
  pending_step "port_verify_service" "验证 Demo Web 服务 active" "service.get_status";
  pending_step "port_verify_socket" "验证 Demo 端口重新监听" "network.check_port";
  pending_step "port_verify_http" "验证 loopback HTTP healthz" "http.verify_health"].

Definition read_service : ReadStep := MkReadStep "service" "service.get_status" {[ "unit" := JStr demoServiceUnit ]}.
Definition read_port : ReadStep :=
  MkReadStep "network" "network.check_port" {[ "port" := JInt demoPort; "protocol" := JStr "tcp" ]}.

Definition port_reads : list ReadStep := [
  read_service;
  MkReadStep "journal" "journal.query_unit" {[ "unit" := JStr demoServiceUnit; "lines" := JInt 200 ]};
  read_port;
  MkReadStep "process" "process.find_by_port" {[ "port" := JInt demoPort ]};
  MkReadStep "diagnostic" "diagnostic.port_conflict" {[ "unit" := JStr demoServiceUnit; "port" := JInt demoPort ]}].

(** The evidence of a port conflict. *)
Record PortEvidence := MkPortEvidence {
  pe_service : ServiceStatus;
  pe_occupied : bool;
  pe_processes : list ProcessInfo;
  pe_rca : RCA;
  pe_knowledge : list Knowledge
}.

Definition decode_port (outputs : list json) : result PortEvidence :=
  let output n := nth n outputs JNull in
  let? service := wrap_err "decode service evidence: " (service_evidence (output 0%nat)) in
  let? occupied := wrap_err "decode port evidence: " (port_evidence (output 2%nat)) in
  let? processes := wrap_err "decode process evidence: " (process_evidence (output 3%nat)) in
  let? diagnosis := wrap_err "decode RCA evidence: " (diagnosis_evidence (output 4%nat)) in
  Ok (MkPortEvidence service occupied processes (fst diagnosis) (snd diagnosis)).

(** The evidence justifies terminating exactly one process. *)
Definition port_owner (e : PortEvidence) : result ProcessInfo :=
  fail_if String.eqb (ss_ActiveState (pe_service e)) "active"
  with EMsg "Demo service is already active; destructive recovery is not justified" ;;
  fail_if negb (pe_occupied e) || negb (String.eqb (rca_DiagnosisLevel (pe_rca e)) D1) || String.eqb (rca_RootCause (pe_rca e)) ""
  with EMsg "complete D1 port-conflict evidence is required before proposing process termination" ;;
  uniqueDemoHolder (pe_processes e).

(** The process is still the one of the evidence. *)
Definition same_process (snapshot : TargetSnapshot) (owner : ProcessInfo) (executable : string) : bool :=
  (ts_StartTicks snapshot =? pi_StartTicks owner) && String.eqb (ts_Executable snapshot) executable.

Definition port_diagnosed (value : Task) (e : PortEvidence) : Action Returned :=
  let* _ := (if empty_ (pe_knowledge e) then ret tt
             else event value KnowledgeRetrieved [("results", JArr (map knowledge_json (pe_knowledge e)));
                    ("retrieved_document_refs", JArr (map JStr (knowledgeRefs (pe_knowledge e))))]) or value in
  let* _ := appendTrace value RCAResult (Ok (rca_json (pe_rca e))) or value in
  ret (value, None).

Definition process_ref (snapshot : TargetSnapshot) : TargetRef := MkTargetRef "process" (ts_ID snapshot) "".
Definition service_ref : TargetRef := MkTargetRef "service" demoServiceUnit "".

Definition request_port_termination (value : Task) (e : PortEvidence) (owner : ProcessInfo)
    (snapshot : TargetSnapshot) : Action Returned :=
  let value := at_step value 5 "WAITING_APPROVAL" in
  let* _ := save value or value in
  let* _ := event value DecisionRecorded [("objective", JStr (tk_Objective value));
    ("selected_hypothesis", JStr (rca_RootCause (pe_rca e))); ("evidence_used", strings (tk_EvidenceRefs value));
    ("selected_tool", JStr "process.terminate"); ("target", target_json (process_ref snapshot));
    ("expected_observation", JStr "exact PID/start/executable disappears after fixed SIGTERM")] or value in
  proposal_id <- new_id "proposal" ;;
  ask_approval value
    (terminate_proposal proposal_id value (pi_PID owner) (process_ref snapshot) service_ref "PROCESS_OCCUPIES_REQUIRED_PORT"
       (sp_Description (step_at value 5))) snapshot.

Definition port_located (targets : Snapshotter H) (value : Task) (e : PortEvidence) : Action Returned :=
  let* owner := lift (port_owner e) or value in
  let* snapshot := on_machine (sn_process targets (process_id owner) (pi_PID owner)) or value in
  if negb (same_process snapshot owner demoHolderExecutable)
  then fail value "TARGET_CHANGED: port owner snapshot no longer matches the controlled holder evidence"
  else request_port_termination value e owner snapshot.

Definition runPortRecovery (value : Task) : Action Returned :=
  match o_Actions o, o_ActionTargets o with
  | Some _, Some targets =>
    if negb (o_Registry o) || negb (configured (o_Safety o)) || negb (o_Trace o)
    then fail value "port recovery read, safety, and trace dependencies are required"
    else
      let value := with_plan (with_intent value "port_conflict_recovery") port_plan (tk_CurrentStep value) (tk_CompletedSteps value) in
      let! (value, failed) := begin_workflow value [("unit", JStr demoServiceUnit); ("port", JInt demoPort);
          ("scope", JStr "fixed controlled Lab")]
        "service active, port listening, loopback health HTTP 200; each write separately approved and verified" in
      match failed with
      | Some e => ret (value, Some e)
      | None =>
        let! ((value, outputs), failed) := read_steps value 0 port_reads in
        match failed with
        | Some e => ret (value, Some e)
        | None =>
          let* evidence := lift (decode_port outputs) or value in
          let! (value, failed) := port_diagnosed value evidence in
          match failed with
          | Some e => ret (value, Some e)
          | None => port_located targets value evidence
          end
        end
      end
  | _, _ => fail value "port recovery requires approval-bound action preparation and target snapshots"
  end.

Definition preparePortServiceRestart (value : Task) : Action Returned :=
  match o_ActionTargets o with
  | None => panic
  | Some targets =>
    let* snapshot := on_machine (sn_service targets demoServiceUnit demoServiceUnit) or value in
    if negb (has_step value 6) then panic
    else
      let target := MkTargetRef "service" (ts_ID snapshot) "" in
      value <- Transition Planning (at_step value 6 "WAITING_APPROVAL") ;;
      let description := sp_Description (step_at value 6) in
      let* _ := save value or value in
      let* _ := event value DecisionRecorded [("objective", JStr (tk_Objective value)); ("current_step", JStr description);
        ("evidence_used", strings (tk_EvidenceRefs value)); ("selected_tool", JStr "service.restart"); ("target", target_json target);
        ("expected_observation", JStr "fixed systemctl restart succeeds and systemctl show reports active")] or value in
      proposal_id <- new_id "proposal" ;;
      ask_approval value
        (direct_proposal proposal_id value "service.restart" {[ "unit" := JStr demoServiceUnit ]} target false "" description) snapshot
  end.

Definition bool_text (b : bool) : string := if b then "true" else "false".

Definition port_answer : string :=
  "已确认 Web 服务因端口被受控 Lab 进程占用而启动失败。两个写动作分别通过本地护栏、人工审批和目标重验证：占用进程已用固定 SIGTERM 终止，Demo Web 服务已重启；服务状态、端口监听和 loopback HTTP healthz 均验证通过。".

(** The readings after the restart, and the answer of the service. *)
Definition port_verified (value : Task) (service : ServiceStatus) (occupied : bool) : Action Returned :=
  if negb (String.eqb (ss_ActiveState service) "active") || negb occupied
  then fail value ("post-recovery verification failed: active=" +:+ ss_ActiveState service +:+ " port_occupied=" +:+ bool_text occupied)
  else
    let* health := wrapping "verify Demo HTTP health: " (on_outside (out_Verify demoHealthURL)) or value in
    let* sequence := on_trace (trace_append (tk_ID value) (tk_SessionID value) VerificationResult
      (payload [("verified", JBool true); ("source", JStr "fixed_loopback_http"); ("evidence", health_json health)])) or value in
    if negb (has_step value 9) then panic
    else
      let value := step_done (with_plan value (tk_Plan value) 9 (tk_CompletedSteps value)) 9 in
      let value := add_finding (add_ref value (evidence_ref value sequence))
        "Demo Web 服务 active、端口重新监听且 loopback healthz 返回 HTTP 200" in
      recovered value port_answer "端口冲突已完成多源诊断、逐动作审批、恢复和三重验证" None
        [("service_active", JBool true); ("port_listening", JBool true); ("http_status", JInt (he_StatusCode health))].

Definition verifyPortRecovery (value : Task) : Action Returned :=
  value <- Transition Verifying value ;;
  let* _ := save value or value in
  let! ((value, serviceOutput), failed) := callWorkflowReadStep value 7 read_service in
  match failed with
  | Some e => ret (value, Some e)
  | None =>
    let! ((value, portOutput), failed) := callWorkflowReadStep value 8 read_port in
    match failed with
    | Some e => ret (value, Some e)
    | None =>
      let* service := lift (service_evidence serviceOutput) or value in
      let* occupied := lift (port_evidence portOutput) or value in
      port_verified value service occupied
    end
  end.

(** ** [cpu_workflow.go] *)
Definition cpu_plan : list Step := [
  pending_step "cpu_baseline" "采样处置前 CPU 使用率" "system.get_cpu_metrics";
  pending_step "cpu_process" "定位受控 CPU 压力进程" "process.search";
  pending_step "cpu_journal" "读取受控 CPU unit 日志" "journal.query_unit";
  pending_step "cpu_rca" "关联负载与进程资源生成 RCA" "diagnostic.high_cpu";
  pending_step "cpu_terminate" "终止证据绑定的受控 CPU 进程" "process.terminate";
  pending_step "cpu_verify_metric" "重新采样 CPU 使用率" "system.get_cpu_metrics";
  pending_step "cpu_verify_process" "验证受控 CPU 进程已消失" "process.search"].

Definition read_cpu : ReadStep := MkReadStep "system" "system.get_cpu_metrics" ∅.
Definition search_processes (query : string) : ReadStep :=
  MkReadStep "process" "process.search" {[ "query" := JStr query; "limit" := JInt 20 ]}.

Definition cpu_reads : list ReadStep := [
  read_cpu;
  search_processes "safeops-cpu-hog";
  MkReadStep "journal" "journal.query_unit" {[ "unit" := JStr demoCPUUnit; "lines" := JInt 100 ]};
  MkReadStep "diagnostic" "diagnostic.high_cpu" {[ "limit" := JInt 20 ]}].

Record CPUEvidence := MkCPUEvidence {
  ce_usage : string;
  ce_processes : list ProcessInfo;
  ce_rca : RCA
}.

Definition decode_cpu (outputs : list json) : result CPUEvidence :=
  let output n := nth n outputs JNull in
  let? usage := usage_evidence (output 0%nat) in
  let? processes := process_evidence (output 1%nat) in
  let? rca := rca_evidence (output 3%nat) in
  fail_if negb (float_lt (MkFloat 0 0) (float_val usage))
  with EMsg "CPU baseline is unavailable; recovery action is not justified" ;;
  Ok (MkCPUEvidence usage processes rca).

Definition request_cpu_termination (value : Task) (e : CPUEvidence) (owner : ProcessInfo) (snapshot : TargetSnapshot)
    : Action Returned :=
  let value := at_step value 4 "WAITING_APPROVAL" in
  let* _ := save value or value in
  let* _ := event value DecisionRecorded [("objective", JStr (tk_Objective value));
    ("selected_hypothesis", slice_json cause_json (rca_CandidateCauses (ce_rca e))); ("evidence_used", strings (tk_EvidenceRefs value));
    ("selected_tool", JStr "process.terminate"); ("target", target_json (process_ref snapshot));
    ("expected_observation", JStr "exact CPU hog PID/start/executable disappears and aggregate CPU is resampled")] or value in
  proposal_id <- new_id "proposal" ;;
  ask_approval value
    (terminate_proposal proposal_id value (pi_PID owner) (process_ref snapshot) host_local "PROCESS_CONSUMES_CPU"
       (sp_Description (step_at value 4))) snapshot.

Definition cpu_located (targets : Snapshotter H) (value : Task) (e : CPUEvidence) : Action Returned :=
  let* _ := appendTrace value RCAResult (Ok (rca_json (ce_rca e))) or value in
  let* owner := lift (uniqueControlledProcess (ce_processes e) demoCPUExecutable) or value in
  let value := with_workflow value (<["cpu_baseline_percent" := JNum (ce_usage e)]> (tk_WorkflowData value)) in
  let* snapshot := on_machine (sn_process targets (process_id owner) (pi_PID owner)) or value in
  if negb (same_process snapshot owner demoCPUExecutable)
  then fail value "TARGET_CHANGED: CPU hog snapshot no longer matches investigation evidence"
  else request_cpu_termination value e owner snapshot.

Definition runCPURecovery (value : Task) : Action Returned :=
  match o_Actions o, o_ActionTargets o with
  | Some _, Some targets =>
    if negb (o_Registry o) || negb (configured (o_Safety o)) || negb (o_Trace o)
    then fail value "CPU recovery requires MCP, safety, approval, trace, and target snapshot dependencies"
    else
      let value := with_plan (with_intent value "cpu_hog_recovery") cpu_plan (tk_CurrentStep value) (tk_CompletedSteps value) in
      let! (value, failed) := begin_workflow (with_workflow value ∅) [("unit", JStr demoCPUUnit);
          ("executable", JStr demoCPUExecutable); ("scope", JStr "fixed controlled Lab")]
        "exact CPU hog process absent and fresh aggregate CPU sample lower than the persisted baseline" in
      match failed with
      | Some e => ret (value, Some e)
      | None =>
        let! ((value, outputs), failed) := read_steps value 0 cpu_reads in
        match failed with
        | Some e => ret (value, Some e)
        | None =>
          let* evidence := lift (decode_cpu outputs) or value in
          cpu_located targets value evidence
        end
      end
  | _, _ => fail value "CPU recovery requires MCP, safety, approval, trace, and target snapshot dependencies"
  end.

(** The baseline kept with the task. *)
Definition stored_baseline (value : Task) : result string :=
  match tk_WorkflowData value !! "cpu_baseline_percent" with
  | Some raw => match dec_float raw "0" with Some lit => Ok lit | None => Err (EMsg "durable CPU baseline is missing") end
  | None => Err (EMsg "durable CPU baseline is missing")
  end.

Definition runs (executable : string) (processes : list ProcessInfo) : bool :=
  existsb (fun p => String.eqb (pi_Executable p) executable) processes.

Definition cpu_answer (baseline after : string) : string :=
  "已通过指标、进程、日志和 RCA 证据确认受控 CPU 压力进程。该精确 PID 经 L2 人工审批、目标重验证和固定 SIGTERM 后已消失；新的 CPU 采样从 "
  +:+ format1 baseline +:+ "% 降至 " +:+ format1 after +:+ "%，恢复条件已满足。".

Definition cpu_verified (value : Task) (after baseline : string) (processes : list ProcessInfo) : Action Returned :=
  if runs demoCPUExecutable processes then fail value "CPU hog process is still present after executor verification"
  else
    let ok := metric_recovered after baseline in
    let* sequence := on_trace (trace_append (tk_ID value) (tk_SessionID value) VerificationResult
      (payload [("verified", JBool ok); ("process_absent", JBool true); ("baseline_usage_percent", JNum baseline);
                ("after_usage_percent", JNum after); ("minimum_drop_percent", JNum "0.5")])) or value in
    let value := add_ref value (evidence_ref value sequence) in
    if negb ok
    then fail value ("CPU recovery completion gate failed: baseline=" +:+ format1 baseline +:+ "% after=" +:+ format1 after +:+ "%")
    else
      let value := add_finding value ("受控 CPU 进程已消失，aggregate CPU 从 " +:+ format1 baseline +:+ "% 降至 " +:+ format1 after +:+ "%") in
      recovered value (cpu_answer baseline after) "受控 CPU 压力已完成多源诊断、审批处置和指标恢复验证" None
        [("process_absent", JBool true); ("metric_recovered", JBool true)].

Definition verifyCPURecovery (value : Task) : Action Returned :=
  value <- Transition Verifying value ;;
  let* _ := save value or value in
  let! ((value, metricOutput), failed) := callWorkflowReadStep value 5 read_cpu in
  match failed with
  | Some e => ret (value, Some e)
  | None =>
    let! ((value, processOutput), failed) := callWorkflowReadStep value 6 (search_processes "safeops-cpu-hog") in
    match failed with
    | Some e => ret (value, Some e)
    | None =>
      let* after := lift (usage_evidence metricOutput) or value in
      let* processes := lift (process_evidence processOutput) or value in
      let* baseline := lift (stored_baseline value) or value in
      cpu_verified value after baseline processes
    end
  end.

(** ** [disk_workflow.go] *)
Definition disk_plan : list Step := [
  pending_step "disk_pressure" "读取 Lab 所在文件系统容量证据" "diagnostic.disk_pressure";
  pending_step "disk_large" "定位 Lab 内异常增长文件" "file.find_large";
  pending_step "disk_writer" "定位命令行绑定 growth.log 的受控写入进程" "process.search";
  pending_step "disk_stop_writer" "终止证据绑定的受控日志写入进程" "process.terminate";
  pending_step "disk_quarantine" "把 growth.log 原子隔离到可恢复清单" "file.quarantine";
  pending_step "disk_verify_writer" "验证受控写入进程已消失" "process.search";
  pending_step "disk_verify_active" "验证活动 Lab 目录不再包含 growth.log" "file.find_large";
  pending_step "disk_verify_fs" "重新读取文件系统容量并声明隔离语义" "system.get_disk_usage"].

Definition find_large : ReadStep :=
  MkReadStep "file" "file.find_large"
    {[ "path" := JStr demoLabRoot; "minimum_bytes" := JInt 1048576; "max_depth" := JInt 2; "limit" := JInt 20 ]}.
Definition read_disk : ReadStep := MkReadStep "system" "system.get_disk_usage" {[ "path" := JStr demoLabRoot ]}.

Definition disk_reads : list ReadStep := [
  MkReadStep "diagnostic" "diagnostic.disk_pressure" {[ "path" := JStr demoLabRoot; "warning_ratio" := JNum "0.5" ]};
  find_large;
  search_processes "safeops-log-writer"].

(** The file that grew and the process that writes it. *)
Definition decode_disk (outputs : list json) : result (Metadata * ProcessInfo) :=
  let output n := nth n outputs JNull in
  let? files := file_evidence (output 1%nat) in
  let? processes := process_evidence (output 2%nat) in
  let? file := exactGrowthFile files in
  let? writer := uniqueControlledProcess processes demoLogWriterExecutable in
  fail_if negb (Contains (pi_Command writer) demoGrowthPath)
  with EMsg "log writer command evidence is not bound to the fixed growth.log path" ;;
  Ok (file, writer).

(** [append([]string(nil), values...)] *)
Definition copied {A} (values : list A) : option (list A) := if empty_ values then None else Some values.

(** The score of the fixed components is 0.4 + 0.2, rounded to three
    places. *)
Definition disk_diagnosis (value : Task) (writer : ProcessInfo) : RCA :=
  MkRCA D2 "" "0.6" (MkConfidenceComponents "1" "0" "1" "0")
    (Some [MkCandidateCause "受控 safeops-log-writer 命令行绑定 growth.log，且该文件达到大型文件阈值" "0.6" (copied (tk_EvidenceRefs value))])
    (process_id writer) (copied (tk_EvidenceRefs value))
    (Some ["物理文件系统空间只能在永久清理或跨文件系统迁移后释放"])
    (Some ["先终止受控写入进程"; "把文件隔离到可恢复清单"; "不要宣称同文件系统隔离释放了物理空间"]).

Definition growth_ref : TargetRef := MkTargetRef "file" demoGrowthPath "".

Definition request_disk_termination (value : Task) (diagnosis : RCA) (writer : ProcessInfo) (snapshot : TargetSnapshot)
    : Action Returned :=
  let value := at_step value 3 "WAITING_APPROVAL" in
  let* _ := save value or value in
  let* _ := event value DecisionRecorded [("objective", JStr (tk_Objective value));
    ("selected_hypothesis", slice_json cause_json (rca_CandidateCauses diagnosis)); ("evidence_used", strings (tk_EvidenceRefs value));
    ("selected_tool", JStr "process.terminate"); ("target", target_json (process_ref snapshot));
    ("expected_observation", JStr "exact writer process disappears before file isolation")] or value in
  proposal_id <- new_id "proposal" ;;
  ask_approval value
    (terminate_proposal proposal_id value (pi_PID writer) (process_ref snapshot) growth_ref "PROCESS_WRITES_FILE"
       (sp_Description (step_at value 3))) snapshot.

Definition with_resources (value : Task) (resources : list string) : Task :=
  with_evidence value (tk_Findings value) resources (tk_EvidenceRefs value).

Definition disk_located (targets : Snapshotter H) (value : Task) (file : Metadata) (writer : ProcessInfo) : Action Returned :=
  let diagnosis := disk_diagnosis value writer in
  let* _ := appendTrace value RCAResult (Ok (rca_json diagnosis)) or value in
  let value := with_workflow value (<["growth_size_bytes" := JInt (md_SizeBytes file)]> (tk_WorkflowData value)) in
  let value := with_resources value [demoGrowthPath] in
  let* snapshot := on_machine (sn_process targets (process_id writer) (pi_PID writer)) or value in
  if negb (same_process snapshot writer demoLogWriterExecutable)
  then fail value "TARGET_CHANGED: log writer snapshot no longer matches investigation evidence"
  else request_disk_termination value diagnosis writer snapshot.

Definition runDiskRecovery (value : Task) : Action Returned :=
  let unconfigured := fail value "disk recovery requires MCP, safety, approvals, process/file snapshots, and trace" in
  match o_Actions o, o_ActionTargets o with
  | Some _, Some targets =>
    if negb (configured (o_FileTargets o)) || negb (o_Registry o) || negb (configured (o_Safety o)) || negb (o_Trace o)
    then unconfigured
    else
      let value := with_plan (with_intent value "disk_log_recovery") disk_plan (tk_CurrentStep value) (tk_CompletedSteps value) in
      let! (value, failed) := begin_workflow (with_workflow value ∅) [("lab_root", JStr demoLabRoot);
          ("growth_path", JStr demoGrowthPath); ("scope", JStr "fixed controlled Lab")]
        "writer absent, growth.log absent from active Lab root, quarantine manifest retained; no claim of physical filesystem reclamation" in
      match failed with
      | Some e => ret (value, Some e)
      | None =>
        let! ((value, outputs), failed) := read_steps value 0 disk_reads in
        match failed with
        | Some e => ret (value, Some e)
        | None =>
          let* located := lift (decode_disk outputs) or value in
          disk_located targets value (fst located) (snd located)
        end
      end
  | _, _ => unconfigured
  end.

(** The second write binds the file as it is once its writer has stopped.
    Assigning to the data of a task that has none panics: it is read back as a
    nil map. *)
Definition prepareDiskQuarantine (value : Task) : Action Returned :=
  match o_FileTargets o with
  | None => panic
  | Some targets =>
    let* snapshot := on_machine (sn_file targets demoGrowthPath demoGrowthPath) or value in
    if ts_Size snapshot <=? 0 then fail value "fresh growth.log snapshot has no quarantinable bytes"
    else if bool_decide (tk_WorkflowData value = ∅) || negb (has_step value 4) then panic
    else
      let value := with_workflow value (<["growth_size_bytes" := JInt (ts_Size snapshot)]> (tk_WorkflowData value)) in
      let value := add_finding value ("writer 停止后重新采集 growth.log 快照：" +:+ show_Z (ts_Size snapshot)
                                      +:+ " 字节；第二次审批将只绑定该新快照") in
      let target := MkTargetRef "file" (ts_ID snapshot) "" in
      value <- Transition Planning (at_step value 4 "WAITING_APPROVAL") ;;
      let description := sp_Description (step_at value 4) in
      let* _ := save value or value in
      let* _ := event value DecisionRecorded [("objective", JStr (tk_Objective value)); ("current_step", JStr description);
        ("evidence_used", strings (tk_EvidenceRefs value)); ("selected_tool", JStr "file.quarantine"); ("target", target_json target);
        ("fresh_snapshot_size", JInt (ts_Size snapshot)); ("rollback_strategy", JStr "restore exact quarantine manifest")] or value in
      proposal_id <- new_id "proposal" ;;
      ask_approval value
        (direct_proposal proposal_id value "file.quarantine" ∅ target true "restore exact quarantine manifest" description) snapshot
  end.

Definition growth_size (value : Task) : result Z :=
  match tk_WorkflowData value !! "growth_size_bytes" with
  | Some raw =>
    match dec_int raw 0 with
    | Some size => fail_if size <=? 0 with EMsg "durable growth.log size evidence is missing" ;; Ok size
    | None => Err (EMsg "durable growth.log size evidence is missing")
    end
  | None => Err (EMsg "durable growth.log size evidence is missing")
  end.

Definition evidence_item (result : Result) (name : string) : string :=
  match rs_Verification result with Some v => default "" (vf_Evidence v !! name) | None => "" end.

Definition disk_answer (size : Z) : string :=
  "已确认受控日志写入进程与 " +:+ demoGrowthPath +:+ " 的异常增长相关。进程经 L2 审批和固定 SIGTERM 停止，文件经独立 L1 审批隔离；活动 Lab 路径已减少 "
  +:+ show_Z size +:+ " 字节，并已验证写入进程和原路径均不存在。隔离对象仍占用同一文件系统空间，以保留可恢复性；系统没有伪称物理空间已经释放。".

(** The readings after the quarantine, and its manifest. *)
Definition disk_checked (value : Task) (processes : list ProcessInfo) (files : list Metadata) (result : Result)
    : Prelude.result (Z * (string * string)) :=
  fail_if runs demoLogWriterExecutable processes with EMsg "controlled log writer is still running" ;;
  fail_if existsb (fun f => String.eqb (md_Path f) demoGrowthPath) files
  with EMsg "growth.log is still present in the active Lab root" ;;
  let? size := growth_size value in
  let id := evidence_item result "quarantine_id" in
  let path := evidence_item result "quarantined_path" in
  fail_if String.eqb id "" || String.eqb path "" with EMsg "verified quarantine manifest evidence is missing" ;;
  Ok (size, (id, path)).

Definition disk_verified (value : Task) (size : Z) (id path : string) (diskOutput : json) : Action Returned :=
  let* sequence := on_trace (trace_append (tk_ID value) (tk_SessionID value) VerificationResult
    (payload [("verified", JBool true); ("writer_absent", JBool true); ("active_lab_path_absent", JBool true);
              ("active_lab_bytes_relocated", JInt size); ("quarantine_id", JStr id); ("quarantine_path", JStr path);
              ("physical_filesystem_space_reclaimed", JBool false); ("fresh_disk_observation", as_any diskOutput)])) or value in
  let value := add_finding (add_ref value (evidence_ref value sequence))
    ("写入进程已停止，growth.log 的 " +:+ show_Z size +:+ " 字节已移出活动 Lab 路径并保留可恢复隔离清单；未声称释放物理文件系统空间") in
  recovered value (disk_answer size) "受控日志增长已完成证据关联、逐动作审批和可恢复隔离验证" (Some [demoGrowthPath])
    [("writer_absent", JBool true); ("active_lab_path_absent", JBool true); ("rollback_available", JBool true);
     ("physical_space_claimed", JBool false)].

Definition verifyDiskRecovery (value : Task) (result : Result) : Action Returned :=
  value <- Transition Verifying value ;;
  let* _ := save value or value in
  let! ((value, processOutput), failed) := callWorkflowReadStep value 5 (search_processes "safeops-log-writer") in
  match failed with
  | Some e => ret (value, Some e)
  | None =>
    let! ((value, fileOutput), failed) := callWorkflowReadStep value 6 find_large in
    match failed with
    | Some e => ret (value, Some e)
    | None =>
      let! ((value, diskOutput), failed) := callWorkflowReadStep value 7 read_disk in
      match failed with
      | Some e => ret (value, Some e)
      | None =>
        let* processes := lift (process_evidence processOutput) or value in
        let* files := lift (file_evidence fileOutput) or value in
        let* checked := lift (disk_checked value processes files result) or value in
        disk_verified value (fst checked) (fst (snd checked)) (snd (snd checked)) diskOutput
      end
    end
  end.

(** ** What goes on after an approved action *)
Definition handled (m : Action Returned) : Action ((Task * bool) * option error) :=
  r <- m ;; ret ((fst r, true), snd r).

Definition unexpected (value : Task) (workflow tool : string) : Action ((Task * bool) * option error) :=
  fail (value, true) ("unexpected " +:+ workflow +:+ " workflow action " +:+ tool).

Definition ContinueAfterAction (value : Task) (envelope : ActionEnvelope) (result : Result) : Action ((Task * bool) * option error) :=
  let tool := ap_Tool (ae_Proposal envelope) in
  let intent := tk_IntentType value in
  if String.eqb intent "port_conflict_recovery" then
    if String.eqb tool "process.terminate" then handled (preparePortServiceRestart value)
    else if String.eqb tool "service.restart" then handled (verifyPortRecovery value)
    else unexpected value "port" tool
  else if String.eqb intent "cpu_hog_recovery" then
    if negb (String.eqb tool "process.terminate") then unexpected value "CPU" tool
    else handled (verifyCPURecovery value)
  else if String.eqb intent "disk_log_recovery" then
    if String.eqb tool "process.terminate" then handled (prepareDiskQuarantine value)
    else if String.eqb tool "file.quarantine" then handled (verifyDiskRecovery value result)
    else unexpected value "disk" tool
  else ret ((value, false), None).
End Workflow.
