(* ===== verification/Evidence.v ===== *)
(** * What the fixed workflows act on

    A fixed workflow asks for a write, and declares a recovery done, only on
    evidence.  [justified Ask Done] relates the states of the agent between
    which an approval was touched only if [Ask] and a task completed only if
    [Done]; with [stays] every part of the workflows is shown to keep to it.
    The answers of the tool servers, the snapshots of processes and the health
    check enter through [Sources]: whatever is known of each of them. *)

From S2P Require Import Prelude GoStrings GoText Json Hash Contracts Guard Approval Platform Targets Executor Trace Store Planner Scope Agent Decode Prepare Managed General Workflows.
Open Scope Z_scope.

(** What is known of the answers of a tool, of a snapshot taken of a process
    and of the answer of a health check. *)
Record Sources {H X : Type} `{Outside X} `{HealthVerifier X} (o : Orchestrator H) := MkSources {
  answered : ReadStep -> json -> Prop;
  healthy : string -> HealthEvidence -> Prop;
  seen : string -> Z -> TargetSnapshot -> Prop;
  answers_known E r x : wp E (out_CallTool (rd_server r) (rd_tool r) (rd_arguments r)) (fun out _ =>
    forall c j, out = Ok c -> ct_StructuredContent c = Some j -> answered r j) x;
  health_known E url x : wp E (out_Verify url) (fun out _ => forall h, out = Ok h -> healthy url h) x;
  snapshots_known E targets id pid h : o_ActionTargets o = Some targets ->
    wp E (sn_process targets id pid) (fun out _ => forall s, out = Ok s -> seen id pid s) h
}.
#[global] Arguments answered {_ _ _ _ _} _ _ _.
#[global] Arguments healthy {_ _ _ _ _} _ _ _.
#[global] Arguments seen {_ _ _ _ _} _ _ _ _.

(** ** Approvals and completed tasks *)
Section Justified.
Context {T H X : Type} `{TraceSink T} `{Outside X} `{UnicodeCase} `{TimeText} (busy : nat) (o : Orchestrator H) (Ask Done : Prop).

Abbreviation Action A := (M (AgentState T H X) A).

Definition completed (a : AgentState T H X) (id : string) : Prop := exists v, has tasks id v (as_store a) /\ tk_State v = Completed.

Definition justified (a a' : AgentState T H X) : Prop :=
  (Ask \/ as_approvals a' = as_approvals a) /\ (Done \/ forall id, completed a' id -> completed a id).

#[export] Instance justified_preorder : PreOrder justified.
Proof.
  split; [by split; right|]. intros a b c [Hp Ht] [Hp' Ht']. split.
  - destruct Hp as [Hp|Hp]; [by left|]. destruct Hp' as [Hp'|Hp']; [by left|right; congruence].
  - destruct Ht as [Ht|Ht]; [by left|]. destruct Ht' as [Ht'|Ht']; [by left|right; auto].
Qed.

Context (E : Env).
Abbreviation within m P := (stays E justified m P).

Lemma justified_same (a a' : AgentState T H X) : as_approvals a' = as_approvals a -> st_tasks (as_store a') = st_tasks (as_store a) -> justified a a'.
Proof. intros Hp Ht. split; right; [done|]. intros id (v&Hv&Hc). exists v. split; [|done]. unfold has in *. cbn in *. by rewrite <- Ht. Qed.

Lemma within_machine {A} (m : M H A) : within (on_machine m) (fun _ => True).
Proof. intros a. apply wp_zoom, wp_any. intros r h. split; [by apply justified_same|done]. Qed.
Lemma within_outside {A} (m : M X A) : within (on_outside m) (fun _ => True).
Proof. intros a. apply wp_zoom, wp_any. intros r x. split; [by apply justified_same|done]. Qed.
Lemma within_trace {A} (m : M T A) : within (on_trace m) (fun _ => True).
Proof. intros a. apply wp_zoom, wp_any. intros r t. split; [by apply justified_same|done]. Qed.
Lemma within_note c : within (modify (note_call c)) (fun _ => True).
Proof. intros a. apply wp_modify. split; [by apply justified_same|done]. Qed.
Lemma within_session id f : within (on_store (UpdateSession busy id f)) (fun _ => True).
Proof. intros a. apply wp_zoom. eapply wp_mono; [apply UpdateSession_tasks|]. intros r st' [Ht _]. split; [by apply justified_same|done]. Qed.

Lemma within_append v typ data : within (appendTrace v typ data) (fun _ => True).
Proof. eapply (stays_bind E justified); [apply within_trace|]. intros _ _. by apply (stays_ret E justified). Qed.

Lemma justified_save (a : AgentState T H X) v : Done \/ tk_State v <> Completed ->
  justified a (MkAgentState (put tasks (tk_ID v) v (as_store a)) (as_trace a) (as_approvals a) (as_host a) (as_outside a) (as_calls a)).
Proof.
  intros Hv. split; [by right|]. destruct Hv as [Hv|Hv]; [by left|right]. intros id (w&Hw&Hc). unfold has in Hw. cbn in Hw.
  apply lookup_insert_Some in Hw as [[_ [= <-]]|[_ Hw]]; [done|]. by exists w.
Qed.

Lemma within_save b v : Done \/ tk_State v <> Completed -> within (SaveTask_ b v) (fun _ => True).
Proof.
  intros Hv a. apply wp_zoom. eapply wp_mono; [apply SaveTask_changes|]. intros r st' [_ Hst]. split; [|done].
  destruct Hst as [-> | ->]; [by apply justified_same|by apply justified_save].
Qed.

(** With [Ask] the approvals are free. *)
Lemma within_approvals {A} (m : M ApprovalDir A) : Ask -> within (on_approvals m) (fun _ => True).
Proof.
  intros Ha a. apply wp_zoom, wp_any. intros r d. split; [|done]. split; [by left|right]. intros id (v&Hv&Hc). by exists v.
Qed.
End Justified.

Create HintDb within discriminated.
#[export] Hint Resolve within_machine within_outside within_trace within_note within_session within_append within_approvals : within.

Ltac within_leaf :=
  stays_leaf ltac:(idtac; lazymatch goal with
  | |- stays _ _ (SaveTask_ _ _) _ =>
    apply within_save; first [left; assumption | right; first [assumption|discriminate|cbn in *; congruence]]
  | |- stays _ _ (background _) _ => apply stays_background; within_leaf
  | |- _ => eauto with within
  end).
Ltac within_step := stays_step ltac:(idtac; within_leaf).
Ltac within_walk := cbv zeta; repeat (within_step; cbv zeta; try done); try solve [eauto with within].

(** ** The parts of a workflow *)
Section Parts.
Context {T H X : Type} `{TraceSink T} `{Outside X} `{HealthVerifier X} `{UnicodeCase} `{TimeText} `{TimeParse} (busy : nat)
  (o : Orchestrator H) (Ask Done : Prop) (E : Env) (known : Sources o).

Abbreviation Action A := (M (AgentState T H X) A).
Abbreviation just := (@justified T H X Ask Done).
Abbreviation within m P := (stays E just m P).

Lemma within_reject id reason : Ask -> within (reject id reason) (fun _ => True).
Proof. intros Ha. unfold reject. within_walk. Qed.
#[local] Hint Resolve within_reject : within.

Lemma within_Prepare p value proposal snapshot : Ask -> within (Prepare busy p value proposal snapshot) (fun _ => True).
Proof. intros Ha. unfold Prepare, request_approval, store_waiting. within_walk. Qed.
#[local] Hint Resolve within_Prepare : within.

Lemma within_ask value proposal snapshot : Ask -> within (ask_approval busy o value proposal snapshot) (fun _ => True).
Proof. intros Ha. unfold ask_approval. within_walk. Qed.
#[local] Hint Resolve within_ask : within.

(** *** Reads *)
Lemma within_registered r : within (call_registered o r) (fun c => forall j, ct_StructuredContent c = Some j -> answered known r j).
Proof.
  unfold call_registered. destruct (o_Registry o); [|apply (stays_throw E just)].
  eapply (stays_bind E just); [apply within_note|]. intros _ _ a. apply wp_zoom.
  eapply wp_mono; [apply (answers_known o known)|]. intros out x Ho. split; [by apply justified_same|].
  intros c -> j Hj. by eapply Ho.
Qed.

#[local] Hint Resolve within_registered : within.

(** What a read leaves of a task. *)
Definition kept (v v' : Task) : Prop := tk_State v' = tk_State v /\ tk_WorkflowData v' = tk_WorkflowData v.

Definition read_result (v : Task) (r : ReadStep) (out : (Task * json) * option error) : Prop :=
  kept v out.1.1 /\ (out.2 = None -> answered known r out.1.2).

Lemma within_read value index r : tk_State value <> Completed -> within (callWorkflowReadStep busy o value index r) (read_result value r).
Proof.
  intros Hv. unfold callWorkflowReadStep, record_read. within_walk. split; [done|]. intros _. cbn. eauto.
Qed.

Lemma within_then_read {B} value index r (k : (Task * json) * option error -> Action B) (P : B -> Prop) : tk_State value <> Completed ->
  (forall v output e, kept value v -> within (k ((v, output), Some e)) P) ->
  (forall v output, kept value v -> answered known r output -> within (k ((v, output), None)) P) ->
  within (bind (callWorkflowReadStep busy o value index r) k) P.
Proof.
  intros Hv He Hk. eapply (stays_bind E just); [by apply within_read|]. intros [[v output] [e|]] [Hs Ha]; [by apply He|].
  apply Hk; [exact Hs|by apply Ha].
Qed.

Lemma within_reads value index reads : tk_State value <> Completed ->
  within (read_steps busy o value index reads) (fun out =>
    kept value out.1.1 /\ (out.2 = None -> Forall2 (answered known) reads out.1.2)).
Proof.
  revert value index. induction reads as [|r reads IH]; intros value index Hv; cbn [read_steps].
  { apply (stays_ret E just). by split; [|constructor]. }
  apply within_then_read; [done| |].
  - intros v output e Hs. by apply (stays_ret E just).
  - intros v output Hs Ha. eapply (stays_bind E just); [apply IH; by rewrite (proj1 Hs)|].
    intros [[v' outputs] failed] [[Hs1 Hs2] Ho]. apply (stays_ret E just). cbn in *. destruct Hs. split; [split; congruence|].
    intros Hf. constructor; auto.
Qed.

Lemma within_begin value facts criteria :
  within (begin_workflow busy value facts criteria) (fun r => tk_State r.1 <> Completed /\ tk_WorkflowData r.1 = tk_WorkflowData value).
Proof. unfold begin_workflow. within_walk. Qed.

(** A workflow: it begins, reads, and acts on the evidence. *)
Lemma within_workflow value facts criteria reads (k : Task -> list json -> Action Returned) :
  (forall v outputs, tk_State v <> Completed -> tk_WorkflowData v = tk_WorkflowData value -> Forall2 (answered known) reads outputs ->
     within (k v outputs) (fun _ => True)) ->
  within (let! (value, failed) := begin_workflow busy value facts criteria in
          match failed with
          | Some e => ret (value, Some e)
          | None =>
            let! ((value, outputs), failed) := read_steps busy o value 0 reads in
            match failed with
            | Some e => ret (value, Some e)
            | None => k value outputs
            end
          end) (fun _ => True).
Proof.
  intros Hk. eapply (stays_bind E just); [apply within_begin|]. intros [v [e|]] [Hs Hw]; [by apply (stays_ret E just)|]. cbn in Hs, Hw.
  eapply (stays_bind E just); [by apply within_reads|]. intros [[v' outputs] [e|]] [[Hs' Hw'] Ho]; [by apply (stays_ret E just)|].
  cbn in *. apply Hk; [congruence|congruence|by apply Ho].
Qed.

(** The recovery is declared only where [Done] holds. *)
Lemma within_recovered value answer summary resources facts : Done ->
  within (recovered busy value answer summary resources facts) (fun _ => True).
Proof. intros Hd. unfold recovered. within_walk. Qed.
End Parts.

(** ** The evidence of the three recoveries *)
Section Evidence.
Context {T H X : Type} `{TraceSink T} `{Outside X} `{HealthVerifier X} `{UnicodeCase} `{TimeText} `{TimeParse} (busy : nat)
  (o : Orchestrator H) (known : Sources o).

Abbreviation Action A := (M (AgentState T H X) A).

(** A process that the evidence names is the one a snapshot shows. *)
Definition located (owner : ProcessInfo) (executable : string) : Prop :=
  exists snapshot, seen known (process_id owner) (pi_PID owner) snapshot /\
    ts_StartTicks snapshot = pi_StartTicks owner /\ ts_Executable snapshot = executable.

(** The service is down, its port is held, the diagnosis says why, and one
    process can be the holder. *)
Definition port_conflict : Prop := exists outputs e owner,
  Forall2 (answered known) port_reads outputs /\ decode_port outputs = Ok e /\
  ss_ActiveState (pe_service e) <> "active" /\ pe_occupied e = true /\
  rca_DiagnosisLevel (pe_rca e) = D1 /\ rca_RootCause (pe_rca e) <> "" /\
  matching demoHolderExecutable (pe_processes e) = [owner] /\ located owner demoHolderExecutable.

(** The processor is busy, and one process can be the cause. *)
Definition cpu_pressure : Prop := exists outputs e owner,
  Forall2 (answered known) cpu_reads outputs /\ decode_cpu outputs = Ok e /\
  float_lt (MkFloat 0 0) (float_val (ce_usage e)) = true /\
  matching demoCPUExecutable (ce_processes e) = [owner] /\ located owner demoCPUExecutable.

(** The file has grown, and one process, whose command names it, writes it. *)
Definition disk_growth : Prop := exists outputs file writer,
  Forall2 (answered known) disk_reads outputs /\ decode_disk outputs = Ok (file, writer) /\
  md_Path file = demoGrowthPath /\ md_IsRegular file = true /\
  Contains (pi_Command writer) demoGrowthPath = true /\ located writer demoLogWriterExecutable.

(** The service is active, listens and answers. *)
Definition port_recovery : Prop := exists s p service health,
  answered known read_service s /\ service_evidence s = Ok service /\ ss_ActiveState service = "active" /\
  answered known read_port p /\ port_evidence p = Ok true /\
  healthy known demoHealthURL health.

(** The process is gone and the load is below the one stored before. *)
Definition cpu_recovery (value : Task) : Prop := exists m p after processes baseline,
  answered known read_cpu m /\ usage_evidence m = Ok after /\
  answered known (search_processes "safeops-cpu-hog") p /\ process_evidence p = Ok processes /\
  runs demoCPUExecutable processes = false /\
  stored_baseline value = Ok baseline /\ metric_recovered after baseline = true.

(** The writer and the file are gone, and the executor has put a file into
    quarantine. *)
Definition disk_recovery (value : Task) (result : Result) : Prop := exists p f processes files size,
  answered known (search_processes "safeops-log-writer") p /\ process_evidence p = Ok processes /\
  runs demoLogWriterExecutable processes = false /\
  answered known find_large f /\ file_evidence f = Ok files /\
  Forall (fun file => md_Path file <> demoGrowthPath) files /\
  growth_size value = Ok size /\ 0 < size /\
  evidence_item result "quarantine_id" <> "" /\ evidence_item result "quarantined_path" <> "".

Context (E : Env).

(** *** Asking *)
Section Asking.
Context (Done : Prop).
Abbreviation just Ask := (@justified T H X Ask Done).
Abbreviation within Ask m P := (stays E (just Ask) m P).

#[local] Hint Resolve within_ask : within.

(** Where the evidence is there, the request may follow. *)
Lemma within_snapshot Ask targets id pid : o_ActionTargets o = Some targets ->
  within Ask (on_machine (sn_process targets id pid)) (fun s => seen known id pid s).
Proof.
  intros Ht a. apply wp_zoom. eapply wp_mono; [by apply (snapshots_known o known)|]. intros r h Hs. split; [by apply justified_same|done].
Qed.

Lemma located_same owner executable s : seen known (process_id owner) (pi_PID owner) s ->
  negb (same_process s owner executable) = false -> located owner executable.
Proof.
  intros Hs Hp. apply negb_false_iff, andb_true_iff in Hp as [Ht%Z.eqb_eq He%String.eqb_eq]. by exists s.
Qed.

Lemma within_located Ask targets owner executable value message (k : TargetSnapshot -> Action Returned) : o_ActionTargets o = Some targets ->
  (located owner executable -> forall s, within Ask (k s) (fun _ => True)) ->
  within Ask (let* snapshot := on_machine (sn_process targets (process_id owner) (pi_PID owner)) or value in
              if negb (same_process snapshot owner executable) then fail value message else k snapshot) (fun _ => True).
Proof.
  intros Ht Hk. eapply (stays_attempt E (just Ask)); [by apply within_snapshot|done|]. intros s Hs.
  destruct (negb _) eqn:Hp; [by apply (stays_ret E (just Ask))|]. apply Hk. by eapply located_same.
Qed.

Lemma uniqueDemoHolder_one l p : uniqueDemoHolder l = Ok p -> matching demoHolderExecutable l = [p].
Proof. unfold uniqueDemoHolder. destruct (matching _ _) as [|q [|]]; [done| |done]. by intros [= ->]. Qed.

Lemma uniqueControlledProcess_one l executable p : uniqueControlledProcess l executable = Ok p -> matching executable l = [p].
Proof. unfold uniqueControlledProcess. destruct (matching _ _) as [|q [|]]; [done| |done]. by intros [= ->]. Qed.

Lemma port_owner_spec e p : port_owner e = Ok p ->
  ss_ActiveState (pe_service e) <> "active" /\ pe_occupied e = true /\ rca_DiagnosisLevel (pe_rca e) = D1 /\
  rca_RootCause (pe_rca e) <> "" /\ matching demoHolderExecutable (pe_processes e) = [p].
Proof.
  unfold port_owner. destruct (String.eqb (ss_ActiveState _) _) eqn:Ha; [done|]. destruct (_ || _) eqn:Hc; [done|].
  intros Hu%uniqueDemoHolder_one. apply orb_false_iff in Hc as [[Ho%negb_false_iff Hl%negb_false_iff%String.eqb_eq]%orb_false_iff Hr%String.eqb_neq].
  apply String.eqb_neq in Ha. by split_and!.
Qed.

Lemma within_port_request value :
  within port_conflict (runPortRecovery busy o value) (fun _ => True).
Proof.
  unfold runPortRecovery. destruct (o_Actions o); [|by apply (stays_ret E (just _))].
  destruct (o_ActionTargets o) as [targets|] eqn:Ht; [|by apply (stays_ret E (just _))].
  destruct (_ || _); [by apply (stays_ret E (just _))|]. cbv zeta. apply (within_workflow _ _ _ _ _ known). intros v outputs Hs Hw Ho.
  eapply (stays_attempt E (just _)); [apply (stays_lift E (just _) _ (fun e => decode_port outputs = Ok e)); done|done|]. intros e He.
  eapply (stays_bind E (just _) _ _ (fun r => tk_State r.1 <> Completed)).
  { unfold port_diagnosed. destruct (empty_ _); within_walk. }
  intros [v' [err|]] Hs'; [by apply (stays_ret E (just _))|]. cbn in Hs'. unfold port_located.
  eapply (stays_attempt E (just _)); [apply (stays_lift E (just _) _ (fun p => port_owner e = Ok p)); done|done|]. intros owner Hp.
  apply within_located; [done|]. intros Hl s. apply port_owner_spec in Hp as (H1'&H2'&H3'&H4'&H5').
  assert (Hask : port_conflict) by (exists outputs, e, owner; by split_and!).
  unfold request_port_termination. within_walk.
Qed.

Lemma within_cpu_request value :
  within cpu_pressure (runCPURecovery busy o value) (fun _ => True).
Proof.
  unfold runCPURecovery. destruct (o_Actions o); [|by apply (stays_ret E (just _))].
  destruct (o_ActionTargets o) as [targets|] eqn:Ht; [|by apply (stays_ret E (just _))].
  destruct (_ || _); [by apply (stays_ret E (just _))|]. cbv zeta. apply (within_workflow _ _ _ _ _ known). intros v outputs Hs Hw Ho.
  eapply (stays_attempt E (just _)); [apply (stays_lift E (just _) _ (fun e => decode_cpu outputs = Ok e)); done|done|]. intros e He.
  unfold cpu_located. eapply (stays_attempt E (just _)); [apply within_append|done|]. intros _ _.
  eapply (stays_attempt E (just _)); [apply (stays_lift E (just _) _ (fun p => uniqueControlledProcess (ce_processes e) demoCPUExecutable = Ok p)); done|done|].
  intros owner Hp%uniqueControlledProcess_one. cbv zeta. apply within_located; [done|]. intros Hl s.
  assert (Hask : cpu_pressure).
  { exists outputs, e, owner. split_and!; [done|exact He| |exact Hp|exact Hl]. cbv beta in He. revert He. unfold decode_cpu.
    intros (usage&_&(processes&_&(rca&_&Hf)%rbind_ok)%rbind_ok)%rbind_ok. revert Hf.
    destruct (float_lt (MkFloat 0 0) (float_val usage)) eqn:Hf; cbn [negb]; [|done]. by intros [= <-]. }
  unfold request_cpu_termination. within_walk.
Qed.

Lemma decode_disk_spec outputs file writer : decode_disk outputs = Ok (file, writer) ->
  md_Path file = demoGrowthPath /\ md_IsRegular file = true /\ Contains (pi_Command writer) demoGrowthPath = true.
Proof.
  unfold decode_disk. intros (files&_&(processes&_&(f&Hf&(w&_&Hw)%rbind_ok)%rbind_ok)%rbind_ok)%rbind_ok.
  revert Hw. destruct (Contains _ _) eqn:Hc; cbn [negb]; [|done]. intros [= <- <-]. revert Hf. unfold exactGrowthFile.
  destruct (List.find _ files) as [g|] eqn:Hf; [|done]. intros [= <-].
  apply List.find_some in Hf as [_ [Hp%String.eqb_eq Hr]%andb_true_iff]. done.
Qed.

Lemma within_disk_request value :
  within disk_growth (runDiskRecovery busy o value) (fun _ => True).
Proof.
  unfold runDiskRecovery. cbv zeta. destruct (o_Actions o); [|by apply (stays_ret E (just _))].
  destruct (o_ActionTargets o) as [targets|] eqn:Ht; [|by apply (stays_ret E (just _))].
  destruct (_ || _); [by apply (stays_ret E (just _))|]. apply (within_workflow _ _ _ _ _ known). intros v outputs Hs Hw Ho.
  eapply (stays_attempt E (just _)); [apply (stays_lift E (just _) _ (fun e => decode_disk outputs = Ok e)); done|done|].
  intros [file writer] He. unfold disk_located. cbv zeta.
  eapply (stays_attempt E (just _)); [apply within_append|done|]. intros _ _. apply within_located; [done|]. intros Hl s.
  pose proof (decode_disk_spec _ _ _ He) as (H1'&H2'&H3').
  assert (Hask : disk_growth) by (exists outputs, file, writer; by split_and!).
  unfold request_disk_termination. within_walk.
Qed.
End Asking.

(** *** Confirming *)
Section Confirming.
Context (Ask : Prop).
Abbreviation just Done := (@justified T H X Ask Done).
Abbreviation within Done m P := (stays E (just Done) m P).

#[local] Hint Resolve within_ask within_recovered : within.

Lemma within_restart Done value : Ask -> within Done (preparePortServiceRestart busy o value) (fun _ => True).
Proof. intros Ha. unfold preparePortServiceRestart. within_walk. Qed.

Lemma within_quarantine Done value : Ask -> within Done (prepareDiskQuarantine busy o value) (fun _ => True).
Proof. intros Ha. unfold prepareDiskQuarantine. within_walk. Qed.

Lemma within_transition Done value state : within Done (Transition state value)
  (fun v => tk_State v = state /\ tk_WorkflowData v = tk_WorkflowData value).
Proof. eapply (stays_mono E (just Done)); [apply (stays_transition E (just Done))|]. by intros v [t ->]. Qed.

(** A verification begins: the task is saved as [VERIFYING]. *)
Lemma within_verifying Done value (k : Task -> Action Returned) :
  (forall v, tk_State v <> Completed -> tk_WorkflowData v = tk_WorkflowData value -> within Done (k v) (fun _ => True)) ->
  within Done (value <- Transition Verifying value ;; let* _ := SaveTask_ busy value or value in k value) (fun _ => True).
Proof.
  intros Hk. eapply (stays_bind E (just Done)); [apply within_transition|]. intros v [Hs Hw].
  assert (Hv : tk_State v <> Completed) by by rewrite Hs.
  eapply (stays_attempt E (just Done)); [apply within_save; by right|done|]. intros _ _. by apply Hk.
Qed.

Lemma within_port_verify value : within port_recovery (verifyPortRecovery busy o value) (fun _ => True).
Proof.
  unfold verifyPortRecovery. apply within_verifying. intros v Hv _.
  apply (within_then_read _ _ _ _ _ known); [done|intros; by apply (stays_ret E (just _))|]. intros v1 so [Hv1 _] Hso. cbv beta iota.
  apply (within_then_read _ _ _ _ _ known); [by rewrite Hv1|intros; by apply (stays_ret E (just _))|]. intros v2 po [Hv2 _] Hpo. cbv beta iota.
  eapply (stays_attempt E (just _)); [apply (stays_lift E (just _) _ (fun x => service_evidence so = Ok x)); done|done|]. intros service Hse.
  eapply (stays_attempt E (just _)); [apply (stays_lift E (just _) _ (fun x => port_evidence po = Ok x)); done|done|]. intros occupied Hoc.
  unfold port_verified. destruct (_ || _) eqn:Hg; [by apply (stays_ret E (just _))|].
  apply orb_false_iff in Hg as [Ha%negb_false_iff%String.eqb_eq Hb%negb_false_iff]. subst occupied.
  eapply (stays_attempt E (just _)) with (P1 := healthy known demoHealthURL); [|done|].
  { apply (stays_wrapping E (just _)). intros a. apply wp_zoom. eapply wp_mono; [apply (health_known o known)|].
    intros r x Hh. split; [by apply justified_same|done]. }
  intros health Hh. assert (Hdone : port_recovery) by (exists so, po, service, health; by split_and!). within_walk.
Qed.

Lemma stored_baseline_kept v v' : tk_WorkflowData v' = tk_WorkflowData v -> stored_baseline v' = stored_baseline v.
Proof. unfold stored_baseline. by intros ->. Qed.
Lemma growth_size_kept v v' : tk_WorkflowData v' = tk_WorkflowData v -> growth_size v' = growth_size v.
Proof. unfold growth_size. by intros ->. Qed.

Lemma within_cpu_verify value : within (cpu_recovery value) (verifyCPURecovery busy o value) (fun _ => True).
Proof.
  unfold verifyCPURecovery. apply within_verifying. intros v Hv Hw.
  apply (within_then_read _ _ _ _ _ known); [done|intros; by apply (stays_ret E (just _))|]. intros v1 mo [Hv1 Hw1] Hmo. cbv beta iota.
  apply (within_then_read _ _ _ _ _ known); [by rewrite Hv1|intros; by apply (stays_ret E (just _))|]. intros v2 po [Hv2 Hw2] Hpo. cbv beta iota.
  eapply (stays_attempt E (just _)); [apply (stays_lift E (just _) _ (fun x => usage_evidence mo = Ok x)); done|done|]. intros after Hm.
  eapply (stays_attempt E (just _)); [apply (stays_lift E (just _) _ (fun x => process_evidence po = Ok x)); done|done|]. intros processes Hp.
  eapply (stays_attempt E (just _)); [apply (stays_lift E (just _) _ (fun x => stored_baseline v2 = Ok x)); done|done|]. intros baseline Hb.
  unfold cpu_verified. destruct (runs _ _) eqn:Hr; [by apply (stays_ret E (just _))|]. cbv zeta.
  eapply (stays_attempt E (just _)); [apply within_trace|done|]. intros n _.
  destruct (metric_recovered _ _) eqn:Hok; cbn [negb]; [|by apply (stays_ret E (just _))].
  apply within_recovered. exists mo, po, after, processes, baseline. split_and!; try done.
  rewrite <- (stored_baseline_kept _ v2); [done|congruence].
Qed.

Lemma disk_checked_spec value processes files result size id path : disk_checked value processes files result = Ok (size, (id, path)) ->
  runs demoLogWriterExecutable processes = false /\ Forall (fun file => md_Path file <> demoGrowthPath) files /\
  growth_size value = Ok size /\ 0 < size /\
  evidence_item result "quarantine_id" <> "" /\ evidence_item result "quarantined_path" <> "".
Proof.
  unfold disk_checked. destruct (runs _ _); [done|]. destruct (existsb _ _) eqn:Hx; [done|]. intros (n&Hg&Hc)%rbind_ok. revert Hc.
  destruct (_ || _) eqn:He; [done|]. intros [= <- <- <-]. apply orb_false_iff in He as [H1'%String.eqb_neq H2'%String.eqb_neq].
  split_and!; try done.
  - apply List.Forall_forall. intros f Hf Hp. assert (existsb (fun f => String.eqb (md_Path f) demoGrowthPath) files = true); [|congruence].
    apply List.existsb_exists. exists f. split; [done|by apply String.eqb_eq].
  - revert Hg. unfold growth_size. destruct (_ !! _); [|done]. destruct (dec_int _ _) as [m|]; [|done].
    destruct (Z.leb_spec m 0); [done|]. by intros [= <-].
Qed.

Lemma within_disk_verify value result : within (disk_recovery value result) (verifyDiskRecovery busy o value result) (fun _ => True).
Proof.
  unfold verifyDiskRecovery. apply within_verifying. intros v Hv Hw.
  apply (within_then_read _ _ _ _ _ known); [done|intros; by apply (stays_ret E (just _))|]. intros v1 po [Hv1 Hw1] Hpo. cbv beta iota.
  apply (within_then_read _ _ _ _ _ known); [by rewrite Hv1|intros; by apply (stays_ret E (just _))|]. intros v2 fo [Hv2 Hw2] Hfo. cbv beta iota.
  apply (within_then_read _ _ _ _ _ known); [by rewrite Hv2, Hv1|intros; by apply (stays_ret E (just _))|]. intros v3 do_ [Hv3 Hw3] _. cbv beta iota.
  eapply (stays_attempt E (just _)); [apply (stays_lift E (just _) _ (fun x => process_evidence po = Ok x)); done|done|]. intros processes Hp.
  eapply (stays_attempt E (just _)); [apply (stays_lift E (just _) _ (fun x => file_evidence fo = Ok x)); done|done|]. intros files Hf.
  eapply (stays_attempt E (just _)); [apply (stays_lift E (just _) _ (fun x => disk_checked v3 processes files result = Ok x)); done|done|].
  intros [size [id path]] Hc. unfold disk_verified. cbv zeta. cbn [fst snd].
  eapply (stays_attempt E (just _)); [apply within_trace|done|]. intros n _.
  apply within_recovered. apply disk_checked_spec in Hc as (H1'&H2'&H3'&H4'&H5'&H6').
  exists po, fo, processes, files, size. split_and!; try done. rewrite <- (growth_size_kept _ v3); [done|congruence].
Qed.
End Confirming.

(** C5: a recovery asks only on evidence.  A run of one of the fixed
    workflows completes no task, and it touches the approvals only when the
    tool servers have answered its reads with the whole evidence for the
    write - the service down, its port held and diagnosed; the processor busy;
    the log grown and its writer bound to it - and this evidence names exactly
    one process, which a fresh snapshot shows to be the same still. *)
Theorem recoveries_ask_on_evidence value a :
  wp E (runPortRecovery busy o value) (fun _ a' => justified port_conflict False a a') a /\
  wp E (runCPURecovery busy o value) (fun _ a' => justified cpu_pressure False a a') a /\
  wp E (runDiskRecovery busy o value) (fun _ a' => justified disk_growth False a a') a.
Proof.
  split_and!; (eapply wp_mono; [first [apply within_port_request|apply within_cpu_request|apply within_disk_request]|by intros r a' [Hj _]]).
Qed.

(** The next write that a workflow asks for by itself. *)
Definition second_write (value : Task) (envelope : ActionEnvelope) : Prop :=
  ap_Tool (ae_Proposal envelope) = "process.terminate" /\
  (tk_IntentType value = "port_conflict_recovery" \/ tk_IntentType value = "disk_log_recovery").

(** The recovery that the last write of a workflow was for is confirmed. *)
Definition confirmed (value : Task) (envelope : ActionEnvelope) (result : Result) : Prop :=
  (tk_IntentType value = "port_conflict_recovery" /\ ap_Tool (ae_Proposal envelope) = "service.restart" /\ port_recovery) \/
  (tk_IntentType value = "cpu_hog_recovery" /\ ap_Tool (ae_Proposal envelope) = "process.terminate" /\ cpu_recovery value) \/
  (tk_IntentType value = "disk_log_recovery" /\ ap_Tool (ae_Proposal envelope) = "file.quarantine" /\ disk_recovery value result).

Lemma justified_weaken (Ask Ask' Done Done' : Prop) (a a' : AgentState T H X) : (Ask -> Ask') -> (Done -> Done') ->
  justified Ask Done a a' -> justified Ask' Done' a a'.
Proof. intros Ha Hd [Hp Ht]. split; [destruct Hp; auto|destruct Ht; auto]. Qed.

(** C6: a recovery is declared only on evidence.  What goes on after an
    executed write completes a task only when the tool servers have answered
    fresh reads that confirm the recovery - the service active, its port held
    and the health check answered; the process gone and the load below the
    stored baseline; the writer and the file gone and the quarantine on record
    - and it touches the approvals only to ask for the second write of the
    port and disk workflows. *)
Theorem recoveries_complete_on_evidence value envelope result a :
  wp E (ContinueAfterAction busy o value envelope result)
    (fun _ a' => justified (second_write value envelope) (confirmed value envelope result) a a') a.
Proof.
  assert (Hh : forall (Ask Done : Prop) (m : Action Returned) a, (Ask -> second_write value envelope) -> (Done -> confirmed value envelope result) ->
    stays E (justified Ask Done) m (fun _ => True) ->
    wp E (handled m) (fun _ a' => justified (second_write value envelope) (confirmed value envelope result) a a') a).
  { intros Ask Done m a0 Ha Hd Hm. unfold handled. wp_step. eapply wp_mono; [apply Hm|]. intros r a' [Hj _].
    destruct r; [wp_step|]; by eapply justified_weaken. }
  assert (Hr : forall r : (Task * bool) * option error,
    wp E (ret r) (fun _ a' => justified (second_write value envelope) (confirmed value envelope result) a a') a) by (intros r; wp_step; reflexivity).
  unfold ContinueAfterAction, unexpected. cbv zeta.
  destruct (String.eqb_spec (tk_IntentType value) "port_conflict_recovery") as [Hi|_].
  { destruct (String.eqb_spec (ap_Tool (ae_Proposal envelope)) "process.terminate") as [Ht|_].
    { eapply (Hh True False); [by intros _; split; [|left]|done|by apply within_restart]. }
    destruct (String.eqb_spec (ap_Tool (ae_Proposal envelope)) "service.restart") as [Ht|_]; [|apply Hr].
    eapply (Hh False port_recovery); [done|by left|apply within_port_verify]. }
  destruct (String.eqb_spec (tk_IntentType value) "cpu_hog_recovery") as [Hi|_].
  { destruct (String.eqb_spec (ap_Tool (ae_Proposal envelope)) "process.terminate") as [Ht|_]; [|apply Hr].
    eapply (Hh False (cpu_recovery value)); [done|by right; left|apply within_cpu_verify]. }
  destruct (String.eqb_spec (tk_IntentType value) "disk_log_recovery") as [Hi|_]; [|apply Hr].
  destruct (String.eqb_spec (ap_Tool (ae_Proposal envelope)) "process.terminate") as [Ht|_].
  { eapply (Hh True False); [by intros _; split; [|right]|done|by apply within_quarantine]. }
  destruct (String.eqb_spec (ap_Tool (ae_Proposal envelope)) "file.quarantine") as [Ht|_]; [|apply Hr].
  eapply (Hh False (disk_recovery value result)); [done|by right; right|apply within_disk_verify].
Qed.
End Evidence.

(** ** The demo service, from the conflict to its recovery *)
Module Lab.
#[local] Existing Instances counting_sink lab_case plain_time.
#[local] Instance lab_parse : TimeParse := parse_Z.

Definition reading (tool : string) : string * ToolPolicy := (tool, MkToolPolicy tool Contracts.Read L0 false false ["host"] "read").
Definition catalog : Catalog := MkCatalog 1 "sha256:lab" (list_to_map
  (map reading ["service.get_status"; "journal.query_unit"; "network.check_port"; "process.find_by_port"; "diagnostic.port_conflict"]
   ++ [("process.terminate", MkToolPolicy "process.terminate" Contracts.Write L2 true false ["process"] "terminate");
       ("service.restart", MkToolPolicy "service.restart" Contracts.Write L1 true false ["service"] "restart")])).

Definition scope : FixedScope := MkFixedScope {[ demoServiceUnit := true ]} [] ["/opt/safeops/bin"].
Definition preparer : ActionPreparer := MkActionPreparer (Some catalog) true true (Some (Authorize scope)) sample_secret 0 0.

Definition targets : Snapshotter nat := {|
  sn_process id pid := ret (MkTargetSnapshot "process" id "" false "" 0 0 0 0 0 pid 777 "" demoHolderExecutable 1000 "" "" 0);
  sn_service id name := ret (MkTargetSnapshot "service" id "" false "" 0 0 0 0 0 0 0 "" "" 0 name "failed" 0)
|}.

Definition orchestrator : Orchestrator nat := MkOrchestrator true true false (Some preparer) None (Some targets) (Some catalog) true "" 0.


(** Servers that always answer the same. *)
Section Canned.
Context (canned : string -> json).

#[local] Instance canned_outside : Outside nat := {|
  out_Decide _ _ := throw (ESys EDEADLINE);
  out_AvailableTools _ := [];
  out_CallTool _ tool _ := ret (MkCallToolResult false [] (Some (canned tool)))
|}.
#[local] Instance canned_health : HealthVerifier nat := fun url => ret (MkHealthEvidence url 200 "").

Definition known_answers : Sources orchestrator.
Proof.
  refine {|
    answered := fun r j => j = canned (rd_tool r);
    healthy := fun url h => h = MkHealthEvidence url 200 "";
    seen := fun id pid s => s = MkTargetSnapshot "process" id "" false "" 0 0 0 0 0 pid 777 "" demoHolderExecutable 1000 "" "" 0
  |}.
  - intros E r x. apply wp_ret. by intros c j [= <-] [= <-].
  - intros E url x. apply wp_ret. by intros h [= <-].
  - intros E targets' id pid h [= <-]. apply wp_ret. by intros s [= <-].
Defined.

Definition port_run (value : Task) : result Returned * World (AgentState nat nat nat) :=
  runPortRecovery 2 orchestrator value (calm 5 "01") (init_world (MkAgentState lab_store 0%nat ∅ 0%nat 0%nat [])).

Definition continued (value : Task) (envelope : ActionEnvelope) (result : Result) (store : Store) :=
  ContinueAfterAction 2 orchestrator value envelope result (calm 7 "03")
    (init_world (MkAgentState (T := nat) (H := nat) (X := nat) store 0%nat ∅ 0%nat 0%nat [])).
End Canned.

Definition conflict (tool : string) : json :=
  if String.eqb tool "service.get_status" then JObj [("service", JObj [("active_state", JStr "failed")])]
  else if String.eqb tool "network.check_port" then JObj [("occupied", JBool true)]
  else if String.eqb tool "process.find_by_port" then
    JObj [("processes", JArr [JObj [("pid", JInt 4242); ("start_ticks", JInt 777); ("executable", JStr demoHolderExecutable)]])]
  else if String.eqb tool "diagnostic.port_conflict" then
    JObj [("diagnosis", JObj [("rca", JObj [("diagnosis_level", JStr D1); ("root_cause", JStr "the port is held")])]); ("knowledge", JArr [])]
  else JObj [].

Definition healed (tool : string) : json :=
  if String.eqb tool "service.get_status" then JObj [("service", JObj [("active_state", JStr "active")])]
  else if String.eqb tool "network.check_port" then JObj [("occupied", JBool true)]
  else JObj [].

Definition executing : Task := with_plan (with_intent lab_task "port_conflict_recovery") port_plan 6 [].
Definition restarted : ActionEnvelope :=
  MkActionEnvelope 1 "task_1" "task_1" "session_1"
    (direct_proposal "proposal_1" executing "service.restart" ∅ service_ref false "" "") "" (MkTargetSnapshot "" "" "" false "" 0 0 0 0 0 0 0 "" "" 0 "" "" 0)
    (MkRiskResult "" 0 [] "") "" "" 0 "" "" "".
Definition succeeded : Result := MkResult "service.restart" "lab" "SUCCEEDED" "" "" true None 0 0.

Example asks_and_completes :
  map fst (map_to_list (as_approvals (st (port_run conflict lab_task).2))) = ["approval_01"] /\
  option_map (option_map tk_State) (st_tasks (as_store (st (continued healed executing restarted succeeded lab_store).2)) !! "task_1")
    = Some (Some Completed).
Proof. vm_compute. split; reflexivity. Qed.

(** The approval is there, so the evidence was. *)
Lemma recoveries_ask_on_evidence_witness : port_conflict orchestrator (known_answers conflict).
Proof.
  pose proof (proj1 (recoveries_ask_on_evidence 2 orchestrator (known_answers conflict) (calm 5 "01") lab_task
    (MkAgentState lab_store 0%nat ∅ 0%nat 0%nat [])) (init_world (MkAgentState lab_store 0%nat ∅ 0%nat 0%nat [])) eq_refl) as [[Hp|Hp] _];
    [exact Hp|].
  exfalso. vm_compute in Hp. discriminate Hp.
Defined.

(** The task is complete, so the recovery was confirmed. *)
Lemma recoveries_complete_on_evidence_witness : confirmed orchestrator (known_answers healed) executing restarted succeeded.
Proof.
  pose proof (recoveries_complete_on_evidence 2 orchestrator (known_answers healed) (calm 7 "03") executing restarted succeeded
    (MkAgentState lab_store 0%nat ∅ 0%nat 0%nat []) (init_world (MkAgentState lab_store 0%nat ∅ 0%nat 0%nat [])) eq_refl) as [_ [Hd|Hd]];
    [exact Hd|].
  exfalso. destruct (Hd "task_1") as (v&Hv&_); [eexists; split; vm_compute; reflexivity|]. vm_compute in Hv. discriminate Hv.
Defined.
End Lab.
