(* ===== verification/Diagnosis.v ===== *)
(** * The diagnosis of a port conflict

    The graph of evidence ([internal/evidence/graph.go]), the root-cause
    record and its confidence ([internal/rca/rca.go]) and the diagnosis
    ([internal/rca/port_conflict.go]); the tools that give it to the agent are
    in ToolServers.  The theorem says what a diagnosis claims, reference by
    reference; its score is a finite number. *)

From S2P Require Import Prelude GoStrings GoText GoPath Json Hash Contracts Platform Planner Store Agent Network Decode Workflows.
Open Scope Z_scope.

(** ** [graph.go] *)
Definition NodeType : Type := string.
Definition Host : NodeType := "Host".
Definition Service : NodeType := "Service".
Definition Process : NodeType := "Process".
Definition Port : NodeType := "Port".
Definition LogEvent : NodeType := "LogEvent".

Record Node := MkNode {
  nd_ID : string;
  nd_Type : NodeType;
  nd_Label : string;
  nd_Attributes : gmap string json;
  nd_EvidenceRefs : list string
}.

Record Edge := MkEdge {
  ed_From : string;
  ed_To : string;
  ed_Relation : string;
  ed_EvidenceRefs : list string
}.

Record Graph := MkGraph {
  gr_nodes : gmap string Node;
  gr_edges : gmap string Edge
}.

Definition NewGraph : Graph := MkGraph ∅ ∅.

Definition Upsert (node : Node) (g : Graph) : result Graph :=
  let? _ := guard_ (String.eqb (nd_ID node) "" || String.eqb (nd_Type node) "") (EMsg "evidence node requires id and type") in
  let? _ := guard_ (match gr_nodes g !! nd_ID node with
                    | Some existing => negb (String.eqb (nd_Type existing) (nd_Type node))
                    | None => false
                    end) (EMsg "evidence node type cannot change") in
  Ok (MkGraph (<[nd_ID node := node]> (gr_nodes g)) (gr_edges g)).

Definition nul : string := String (chr 0) "".
Definition edge_key (edge : Edge) : string := ed_From edge +:+ nul +:+ ed_Relation edge +:+ nul +:+ ed_To edge.

Definition present {A} (k : string) (m : gmap string A) : bool := match m !! k with Some _ => true | None => false end.

Definition Link (edge : Edge) (g : Graph) : result Graph :=
  let? _ := guard_ (String.eqb (ed_From edge) "" || String.eqb (ed_To edge) "" || String.eqb (ed_Relation edge) "")
              (EMsg "evidence edge is incomplete") in
  let? _ := guard_ (negb (present (ed_From edge) (gr_nodes g))) (EMsg "edge source node missing") in
  let? _ := guard_ (negb (present (ed_To edge) (gr_nodes g))) (EMsg "edge target node missing") in
  Ok (MkGraph (gr_nodes g) (<[edge_key edge := edge]> (gr_edges g))).

(** [_ = graph.Upsert(node)] *)
Definition attempt_ (op : Graph -> result Graph) (g : Graph) : Graph :=
  match op g with Ok g' => g' | Err _ => g end.

Record Snapshot := MkSnapshot {
  sp_Nodes : list Node;
  sp_Edges : list Edge
}.

Definition node_le (a b : Node) : Prop := String.le (nd_ID a) (nd_ID b).
#[export] Instance node_le_dec a b : Decision (node_le a b).
Proof. unfold node_le. apply _. Defined.
Definition edge_le (a b : Edge) : Prop :=
  ed_From a = ed_From b /\ String.le (ed_Relation a) (ed_Relation b) \/ ed_From a <> ed_From b /\ String.le (ed_From a) (ed_From b).
#[export] Instance edge_le_dec a b : Decision (edge_le a b).
Proof. unfold edge_le. apply _. Defined.

(** The order in which a [range] visits the edges of a map.  It shows: edges
    with the same source and relation are not ordered by the sort. *)
Class EdgeRange := edge_range : list Edge -> list Edge.
Class EdgeRangeOk `{EdgeRange} := edge_range_permutes : forall l, Permutation (edge_range l) l.

Definition GraphSnapshot `{EdgeRange} (g : Graph) : Snapshot :=
  MkSnapshot (merge_sort node_le (map snd (map_to_list (gr_nodes g))))
    (merge_sort edge_le (edge_range (map snd (map_to_list (gr_edges g))))).

(** ** [rca.go] *)
Definition D3 : string := "D3".

(** The text of a number as [encoding/json] prints it. *)
Class FloatPrint := float_text : float64 -> string.
Definition one_float : float64 := MkFloat 1 0.
Definition literal (lit : string) : float64 := default zero_float (ParseFloat lit).
Definition rounded (r : option float64) : float64 := default zero_float r.

Definition clamp (v : float64) : float64 :=
  if float_lt v zero_float then zero_float else if float_lt one_float v then one_float else v.

(** [math.Round(v*1000) / 1000] *)
Definition round (v : float64) : float64 :=
  rounded (fdiv (rounded (float_of_Z (fround (rounded (fmul v (literal "1000")))))) (literal "1000")).

Definition weigh (component weight : string) : float64 := rounded (fmul (clamp (literal component)) (literal weight)).

Definition score_value (c : ConfidenceComponents) : float64 :=
  round (rounded (fadd (rounded (fadd (rounded (fadd (weigh (cc_SignalMatch c) "0.4") (weigh (cc_LogPatternMatch c) "0.3")))
                                     (weigh (cc_GraphConsistency c) "0.2")))
                       (weigh (cc_CaseSimilarity c) "0.1"))).

Definition Score `{FloatPrint} (c : ConfidenceComponents) : string := float_text (score_value c).

(** ** [port_conflict.go] *)
Record PortConflictInput := MkPortConflictInput {
  pci_Service : ServiceStatus;
  pci_Port : Z;
  pci_Logs : list JournalEvent;
  pci_Sockets : list SocketInfo;
  pci_Processes : list ProcessInfo;
  pci_CaseSimilarity : string
}.

Record PortConflictOutput := MkPortConflictOutput {
  pco_RCA : RCA;
  pco_Graph : Snapshot
}.

(** [unique] *)
Fixpoint unique_from (seen values : list string) : list string :=
  match values with
  | [] => []
  | value :: values => if string_in value seen then unique_from seen values else value :: unique_from (value :: seen) values
  end.
Definition unique (values : list string) : list string := unique_from [] values.

Definition flag_value (b : bool) : string := if b then "1" else "0".

Section Diagnosis.
Context `{UnicodeCase} `{FloatPrint} `{EdgeRange}.

(** The words of the journal that name the conflict. *)
Definition conflict_log (event : JournalEvent) : bool :=
  let message := ToLower (je_Message event) in
  Contains message "eaddrinuse" || Contains message "address already in use".

(** The loop over the logs: the graph and the references. *)
Fixpoint diagnose_logs (serviceID : string) (index : Z) (logs : list JournalEvent) (graph : Graph) (refs : list string)
  : Graph * list string :=
  match logs with
  | [] => (graph, refs)
  | event :: logs =>
    if conflict_log event then
      let id := "log:" +:+ show_Z index in
      let ref := "journal:" +:+ show_Z index in
      let graph := attempt_ (Upsert (MkNode id LogEvent (je_Message event) ∅ [ref])) graph in
      let graph := attempt_ (Link (MkEdge serviceID id "SERVICE_EMITS_LOG" [ref])) graph in
      diagnose_logs serviceID (index + 1) logs graph (refs ++ [ref])
    else diagnose_logs serviceID (index + 1) logs graph refs
  end.

Definition culprit_of (process : ProcessInfo) : string :=
  "pid:" +:+ show_Z (pi_PID process) +:+ ":start:" +:+ show_Z (pi_StartTicks process).

Definition holds_port (port : Z) (socket : SocketInfo) : bool := (so_LocalPort socket =? port) && so_Listening socket.

(** The first process as the owner of the port. *)
Definition diagnose_owner (portID : string) (processes : list ProcessInfo) (graph : Graph) (refs : list string)
  : string * Graph * list string :=
  match processes with
  | [] => ("", graph, refs)
  | process :: _ =>
    let culprit := culprit_of process in
    let attributes := {[ "pid" := JInt (pi_PID process); "start_ticks" := JInt (pi_StartTicks process); "uid" := JInt (pi_UID process) ]} in
    let graph := attempt_ (Upsert (MkNode culprit Process (pi_Name process) attributes ["process-port-owner"])) graph in
    let graph := attempt_ (Link (MkEdge culprit portID "PROCESS_LISTENS_PORT" ["process-port-owner"; "network-port"])) graph in
    (culprit, graph, refs ++ ["process-port-owner"])
  end.

Definition root_cause (port : Z) (service : string) : string :=
  "端口 " +:+ show_Z port +:+ " 已被其他进程占用，导致 " +:+ service +:+ " 启动时出现 EADDRINUSE".
Definition likely_cause (port : Z) : string := "端口 " +:+ show_Z port +:+ " 冲突是主要候选原因，但证据链尚不完整".
Definition remediation : list string :=
  ["确认端口占用进程是否属于授权 Lab 目标"; "通过 Guard、审批和目标重验证后处置占用进程"; "重启目标服务并验证端口与 HTTP"].
Definition no_pattern : string := "EADDRINUSE 日志模式".
Definition no_listener : string := "当前端口监听证据".
Definition no_owner : string := "端口占用进程身份".

(** The result at its three levels. *)
Definition port_result (port : Z) (service : string) (occupied hasPattern : bool) (culprit : string) (components : ConfidenceComponents)
    (refs : list string) : RCA :=
  let confidence := Score components in
  if occupied && hasPattern && negb (String.eqb culprit "") then
    MkRCA D1 (root_cause port service) confidence components (Some [MkCandidateCause (root_cause port service) confidence (Some refs)])
      culprit (Some refs) None (Some remediation)
  else if occupied || hasPattern then
    let missing := (if negb occupied then [no_listener] else []) ++ (if negb hasPattern then [no_pattern] else [])
                   ++ (if String.eqb culprit "" then [no_owner] else []) in
    MkRCA D2 "" confidence components (Some [MkCandidateCause (likely_cause port) confidence (Some refs)])
      "" (Some refs) (match missing with [] => None | _ => Some missing end) (Some remediation)
  else
    MkRCA D3 "" confidence components (Some [MkCandidateCause "服务启动失败原因未知" confidence (Some refs)])
      "" (Some refs) (Some [no_pattern; no_listener; no_owner]) (Some remediation).

Definition DiagnosePortConflict (i : PortConflictInput) : PortConflictOutput :=
  let service := pci_Service i in
  let serviceID := "service:" +:+ ss_Name service in
  let portID := "port:" +:+ show_Z (pci_Port i) in
  let graph := attempt_ (Upsert (MkNode serviceID Service (ss_Name service)
                 {[ "active_state" := JStr (ss_ActiveState service); "main_pid" := JInt (ss_MainPID service) ]} ["service-status"])) NewGraph in
  let graph := attempt_ (Upsert (MkNode portID Port (show_Z (pci_Port i)) ∅ ["network-port"])) graph in
  let '(graph, refs) := diagnose_logs serviceID 0 (pci_Logs i) graph ["service-status"] in
  let hasPattern := existsb conflict_log (pci_Logs i) in
  let occupied := existsb (holds_port (pci_Port i)) (pci_Sockets i) in
  let refs := if occupied then refs ++ ["network-port"] else refs in
  let '(culprit, graph, refs) := diagnose_owner portID (pci_Processes i) graph refs in
  let components := MkConfidenceComponents (flag_value occupied) (flag_value hasPattern)
                      (flag_value (occupied && negb (String.eqb culprit ""))) (pci_CaseSimilarity i) in
  MkPortConflictOutput (port_result (pci_Port i) (ss_Name service) occupied hasPattern culprit components (unique refs))
    (GraphSnapshot graph).
End Diagnosis.

(** ** The graph stays well formed *)

(** Nodes under their identifier, edges between nodes that are there. *)
Record well_formed (g : Graph) : Prop := {
  wf_node k n : gr_nodes g !! k = Some n -> nd_ID n = k /\ k <> "" /\ nd_Type n <> "";
  wf_edge k e : gr_edges g !! k = Some e ->
    edge_key e = k /\ ed_Relation e <> "" /\ is_Some (gr_nodes g !! ed_From e) /\ is_Some (gr_nodes g !! ed_To e)
}.

(** What a change of the graph keeps: nodes stay, with their types. *)
Definition grows (g g' : Graph) : Prop :=
  forall k n, gr_nodes g !! k = Some n -> exists n', gr_nodes g' !! k = Some n' /\ nd_Type n' = nd_Type n.

Lemma present_some {A} k (m : gmap string A) : present k m = true <-> is_Some (m !! k).
Proof. unfold present. destruct (m !! k); split; [by eexists|done|done|by intros [? ?]]. Qed.

Lemma guarded c e (u : unit) : guard_ c e = Ok u -> c = false.
Proof. by destruct c. Qed.

Lemma Upsert_ok node g g' : well_formed g -> Upsert node g = Ok g' ->
  well_formed g' /\ grows g g' /\ gr_nodes g' !! nd_ID node = Some node.
Proof.
  intros [Hn He] (u&Hg%guarded&(v&Ht%guarded&[= <-])%rbind_ok)%rbind_ok. cbn.
  apply orb_false_iff in Hg as [Hid%String.eqb_neq Hty%String.eqb_neq].
  assert (Hgrow : grows g (MkGraph (<[nd_ID node := node]> (gr_nodes g)) (gr_edges g))).
  { intros k n Hk. cbn. destruct (base.decide (nd_ID node = k)) as [<-|Hne].
    - rewrite lookup_insert_eq. exists node. split; [done|]. rewrite Hk in Ht. by apply negb_false_iff, String.eqb_eq in Ht.
    - rewrite lookup_insert_ne by done. by exists n. }
  split_and!; [|done|by rewrite lookup_insert_eq]. split; cbn.
  - intros k n [[<- <-]|[Hne Hk]]%lookup_insert_Some; [done|by apply Hn].
  - intros k e Hk. destruct (He k e Hk) as (Hkey&Hrel&[f Hf]&[t Ht']). destruct (Hgrow _ _ Hf) as (f'&Hf'&_), (Hgrow _ _ Ht') as (t'&Htt&_).
    split_and!; [done|done|by exists f'|by exists t'].
Qed.

Lemma Link_ok edge g g' : well_formed g -> Link edge g = Ok g' -> well_formed g' /\ grows g g'.
Proof.
  intros [Hn He] (u&Hg%guarded&(v&Hf%guarded&(w&Ht%guarded&[= <-])%rbind_ok)%rbind_ok)%rbind_ok. cbn.
  apply negb_false_iff, present_some in Hf, Ht. apply orb_false_iff in Hg as [_ Hrel%String.eqb_neq].
  split; [|by intros k n Hk; exists n]. split; cbn; [done|].
  intros k e [[<- <-]|[Hne Hk]]%lookup_insert_Some; [by split_and!|by apply He].
Qed.

Lemma attempt_ok (op : Graph -> result Graph) g : well_formed g -> (forall g', op g = Ok g' -> well_formed g' /\ grows g g') ->
  well_formed (attempt_ op g) /\ grows g (attempt_ op g).
Proof. intros Hg Hop. unfold attempt_. destruct (op g) eqn:Ho; [by apply Hop|]. split; [done|]. intros k n Hk. by exists n. Qed.

Lemma upsert_ok node g : well_formed g -> well_formed (attempt_ (Upsert node) g).
Proof. intros Hg. by apply attempt_ok; [done|]; intros g' (?&?&?)%Upsert_ok. Qed.
Lemma link_ok edge g : well_formed g -> well_formed (attempt_ (Link edge) g).
Proof. intros Hg. by apply attempt_ok; [done|]; intros g' (?&?)%Link_ok. Qed.

Section Facts.
Context `{UnicodeCase} `{FloatPrint} `{EdgeRange} `{!EdgeRangeOk}.

Lemma logs_ok serviceID index logs g refs : well_formed g -> well_formed (diagnose_logs serviceID index logs g refs).1.
Proof.
  revert index g refs. induction logs as [|event logs IH]; intros index g refs Hg; cbn; [done|].
  destruct (conflict_log event); [|by apply IH]. by apply IH, link_ok, upsert_ok.
Qed.

Lemma owner_ok portID processes g refs : well_formed g -> well_formed (diagnose_owner portID processes g refs).1.2.
Proof. intros Hg. destruct processes; [done|]. by apply link_ok, upsert_ok. Qed.

Lemma snapshot_edges g e : e ∈ sp_Edges (GraphSnapshot g) <-> exists k, gr_edges g !! k = Some e.
Proof.
  cbn. rewrite merge_sort_Permutation, edge_range_permutes. split.
  - intros ([k e']&->&Hin)%list_elem_of_fmap. exists k. by apply elem_of_map_to_list in Hin.
  - intros [k Hk]. apply list_elem_of_fmap. exists (k, e). split; [done|by apply elem_of_map_to_list].
Qed.

Lemma snapshot_nodes g n : n ∈ sp_Nodes (GraphSnapshot g) <-> exists k, gr_nodes g !! k = Some n.
Proof.
  cbn. rewrite merge_sort_Permutation. split.
  - intros ([k e']&->&Hin)%list_elem_of_fmap. exists k. by apply elem_of_map_to_list in Hin.
  - intros [k Hk]. apply list_elem_of_fmap. exists (k, n). split; [done|by apply elem_of_map_to_list].
Qed.

Lemma diagnosed_graph i : exists g, well_formed g /\ pco_Graph (DiagnosePortConflict i) = GraphSnapshot g.
Proof.
  unfold DiagnosePortConflict.
  set (g0 := attempt_ (Upsert (MkNode ("port:" +:+ _) _ _ _ _)) _). assert (Hg0 : well_formed g0) by (by apply upsert_ok, upsert_ok).
  clearbody g0. pose proof (logs_ok ("service:" +:+ ss_Name (pci_Service i)) 0 (pci_Logs i) g0 ["service-status"] Hg0) as Hl.
  destruct (diagnose_logs _ _ _ _ _) as [g1 refs]. cbn [fst] in Hl.
  pose proof (owner_ok ("port:" +:+ show_Z (pci_Port i)) (pci_Processes i) g1
    (if existsb (holds_port (pci_Port i)) (pci_Sockets i) then refs ++ ["network-port"] else refs) Hl) as Ho.
  destruct (diagnose_owner _ _ _ _) as [[culprit g2] refs']. exists g2. done.
Qed.

(** *** The references *)

Fixpoint log_refs (index : Z) (logs : list JournalEvent) : list string :=
  match logs with
  | [] => []
  | event :: logs => (if conflict_log event then ["journal:" +:+ show_Z index] else []) ++ log_refs (index + 1) logs
  end.

Lemma logs_refs serviceID index logs g refs : (diagnose_logs serviceID index logs g refs).2 = refs ++ log_refs index logs.
Proof.
  revert index g refs. induction logs as [|event logs IH]; intros index g refs; cbn; [by rewrite app_nil_r|].
  destruct (conflict_log event); rewrite IH; [by rewrite <- app_assoc|done].
Qed.

Lemma elem_of_log_refs ref index logs :
  ref ∈ log_refs index logs <->
  exists n event, logs !! n = Some event /\ conflict_log event = true /\ ref = "journal:" +:+ show_Z (index + Z.of_nat n).
Proof.
  revert index. induction logs as [|event logs IH]; intros index; cbn; [split; [by intros ?%elem_of_nil|by intros (n&?&?&?)]|].
  rewrite elem_of_app, IH. split.
  - intros [Hin|(n&e&Hn&He&->)].
    + destruct (conflict_log event) eqn:Hc; [|by apply elem_of_nil in Hin]. apply list_elem_of_singleton in Hin as ->.
      exists 0%nat, event. by rewrite Z.add_0_r.
    + exists (S n), e. split_and!; [done|done|]. by replace (index + Z.of_nat (S n)) with (index + 1 + Z.of_nat n) by lia.
  - intros ([|n]&e&Hn&He&->); [left|right].
    + cbn in Hn. injection Hn as ->. rewrite He, Z.add_0_r. by apply list_elem_of_singleton.
    + exists n, e. split_and!; [done|done|]. by replace (index + Z.of_nat (S n)) with (index + 1 + Z.of_nat n) by lia.
Qed.

Lemma elem_of_unique_from seen values x : x ∈ unique_from seen values <-> x ∈ values /\ x ∉ seen.
Proof.
  revert seen. induction values as [|v values IH]; intros seen; cbn [unique_from]; [set_solver|].
  destruct (string_in v seen) eqn:Hv; [apply string_in_spec in Hv|apply not_true_iff_false in Hv; rewrite string_in_spec in Hv];
    rewrite ?elem_of_cons, IH, ?elem_of_cons; [|destruct (base.decide (x = v)) as [->|]]; set_solver.
Qed.

Lemma NoDup_unique_from seen values : NoDup (unique_from seen values).
Proof.
  revert seen. induction values as [|v values IH]; intros seen; cbn [unique_from]; [constructor|].
  destruct (string_in v seen); [done|]. constructor; [|done]. rewrite elem_of_unique_from. set_solver.
Qed.

(** *** What the diagnosis says *)
Definition listened (i : PortConflictInput) : Prop := exists s, s ∈ pci_Sockets i /\ holds_port (pci_Port i) s = true.
Definition logged (i : PortConflictInput) : Prop := exists event, event ∈ pci_Logs i /\ conflict_log event = true.

(** What a reference stands for. *)
Inductive supported (i : PortConflictInput) : string -> Prop :=
  | SupportedService : supported i "service-status"
  | SupportedLog n event : pci_Logs i !! n = Some event -> conflict_log event = true -> supported i ("journal:" +:+ show_Z (Z.of_nat n))
  | SupportedSocket : listened i -> supported i "network-port"
  | SupportedProcess : pci_Processes i <> [] -> supported i "process-port-owner".

Definition gathered (i : PortConflictInput) : list string :=
  ["service-status"] ++ log_refs 0 (pci_Logs i)
  ++ (if existsb (holds_port (pci_Port i)) (pci_Sockets i) then ["network-port"] else [])
  ++ match pci_Processes i with [] => [] | _ => ["process-port-owner"] end.

Definition first_culprit (i : PortConflictInput) : string :=
  match pci_Processes i with [] => "" | process :: _ => culprit_of process end.

Lemma culprit_given p : culprit_of p <> "".
Proof. done. Qed.

Lemma culprit_first i : String.eqb (first_culprit i) "" = match pci_Processes i with [] => true | _ => false end.
Proof. unfold first_culprit. destruct (pci_Processes i); [done|]. by apply String.eqb_neq. Qed.

Definition diagnosed_components (i : PortConflictInput) : ConfidenceComponents :=
  let occupied := existsb (holds_port (pci_Port i)) (pci_Sockets i) in
  MkConfidenceComponents (flag_value occupied) (flag_value (existsb conflict_log (pci_Logs i)))
    (flag_value (occupied && negb (String.eqb (first_culprit i) ""))) (pci_CaseSimilarity i).

Lemma diagnosed i :
  pco_RCA (DiagnosePortConflict i)
  = port_result (pci_Port i) (ss_Name (pci_Service i)) (existsb (holds_port (pci_Port i)) (pci_Sockets i))
      (existsb conflict_log (pci_Logs i)) (first_culprit i) (diagnosed_components i) (unique (gathered i)).
Proof.
  unfold DiagnosePortConflict, gathered, first_culprit, diagnosed_components, first_culprit.
  set (g0 := attempt_ (Upsert (MkNode ("port:" +:+ _) _ _ _ _)) _). clearbody g0.
  pose proof (logs_refs ("service:" +:+ ss_Name (pci_Service i)) 0 (pci_Logs i) g0 ["service-status"]) as Hl.
  destruct (diagnose_logs _ _ _ _ _) as [g1 refs]. cbn [snd] in Hl. subst refs.
  assert (Ha : forall l : list string, (if existsb (holds_port (pci_Port i)) (pci_Sockets i) then l ++ ["network-port"] else l)
                                       = l ++ (if existsb (holds_port (pci_Port i)) (pci_Sockets i) then ["network-port"] else []))
    by (intros l; destruct (existsb _ _); [done|by rewrite app_nil_r]).
  rewrite Ha. destruct (pci_Processes i); cbn [diagnose_owner pco_RCA]; by rewrite <- !app_assoc, ?app_nil_r.
Qed.

Lemma elem_of_gathered i ref : ref ∈ gathered i <-> supported i ref.
Proof.
  unfold gathered. rewrite !elem_of_app, elem_of_log_refs. split.
  - intros [->%list_elem_of_singleton|[(n&event&Hn&Hc&->)|[Hs|Hp]]].
    + constructor.
    + by apply (SupportedLog i n event).
    + destruct (existsb _ _) eqn:Hs'; [|by apply elem_of_nil in Hs]. apply list_elem_of_singleton in Hs as ->.
      constructor. by apply existsb_elem.
    + destruct (pci_Processes i) eqn:Hq; [by apply elem_of_nil in Hp|]. apply list_elem_of_singleton in Hp as ->. constructor. congruence.
  - destruct 1 as [|n event Hn Hc|Hs|Hp].
    + left. by apply list_elem_of_singleton.
    + right; left. by exists n, event.
    + right; right; left. apply existsb_elem in Hs as ->. by apply list_elem_of_singleton.
    + right; right; right. destruct (pci_Processes i); [done|]. by apply list_elem_of_singleton.
Qed.
(** What is still missing: the order of the list is the code's. *)
Definition still_missing (i : PortConflictInput) (m : string) : Prop :=
  m = no_listener /\ ~ listened i \/ m = no_pattern /\ ~ logged i \/ m = no_owner /\ pci_Processes i = [].

Lemma listened_spec i : existsb (holds_port (pci_Port i)) (pci_Sockets i) = true <-> listened i.
Proof. apply existsb_elem. Qed.
Lemma logged_spec i : existsb conflict_log (pci_Logs i) = true <-> logged i.
Proof. apply existsb_elem. Qed.

Lemma level_exact port service occupied pattern culprit components refs :
  let r := port_result port service occupied pattern culprit components refs in
  let full := occupied && pattern && negb (String.eqb culprit "") in
  rca_DiagnosisLevel r = (if full then D1 else if occupied || pattern then D2 else D3) /\
  rca_RootCause r = (if full then root_cause port service else "") /\
  rca_Culprit r = (if full then culprit else "") /\
  rca_EvidenceRefs r = Some refs /\
  Forall (fun c => cu_EvidenceRefs c = Some refs) (default [] (rca_CandidateCauses r)) /\
  (occupied || pattern = true -> default [] (rca_MissingEvidence r)
     = (if negb occupied then [no_listener] else []) ++ (if negb pattern then [no_pattern] else [])
       ++ (if String.eqb culprit "" then [no_owner] else [])).
Proof.
  unfold port_result. destruct occupied, pattern, (String.eqb culprit ""); cbn; split_and!; repeat constructor; done.
Qed.

Lemma level_d1 i : rca_DiagnosisLevel (pco_RCA (DiagnosePortConflict i)) = D1 <-> listened i /\ logged i /\ pci_Processes i <> [].
Proof.
  rewrite diagnosed, (proj1 (level_exact _ _ _ _ _ _ _)), <- listened_spec, <- logged_spec, culprit_first.
  destruct (existsb (holds_port _) _), (existsb conflict_log _), (pci_Processes i); cbn; naive_solver.
Qed.

Lemma d1_root_cause i : rca_DiagnosisLevel (pco_RCA (DiagnosePortConflict i)) = D1 -> rca_RootCause (pco_RCA (DiagnosePortConflict i)) <> "".
Proof.
  rewrite diagnosed. edestruct level_exact as (->&->&_).
  destruct (_ && _ && _); [done|]. by destruct (_ || _).
Qed.

Lemma edges_closed i e : e ∈ sp_Edges (pco_Graph (DiagnosePortConflict i)) ->
  exists a b, a ∈ sp_Nodes (pco_Graph (DiagnosePortConflict i)) /\ b ∈ sp_Nodes (pco_Graph (DiagnosePortConflict i)) /\
    nd_ID a = ed_From e /\ nd_ID b = ed_To e.
Proof.
  destruct (diagnosed_graph i) as (g&Hg&->). intros [k Hk]%snapshot_edges.
  destruct (wf_edge _ Hg _ _ Hk) as (_&_&[a Ha]&[b Hb]). exists a, b.
  split_and!; [apply snapshot_nodes; by eexists|apply snapshot_nodes; by eexists|by apply (wf_node _ Hg)|by apply (wf_node _ Hg)].
Qed.

(** C40: the diagnosis of a port conflict says what its input shows, and no
    more.  It is D1 exactly when a listening socket has the port, a line of
    the journal names the conflict and a process holds the port, and D3
    exactly when there is neither socket nor line; only D1 names a root cause
    and a culprit, the process found.  The references, listed once each, are
    exactly those the input supports, every candidate cites them, and short of
    D3 the missing evidence is exactly what is missing.  No edge of the graph
    leaves it. *)
Theorem diagnosis_exact (i : PortConflictInput) :
  let r := pco_RCA (DiagnosePortConflict i) in
  (rca_DiagnosisLevel r = D1 <-> listened i /\ logged i /\ pci_Processes i <> []) /\
  (rca_DiagnosisLevel r = D3 <-> ~ listened i /\ ~ logged i) /\
  (rca_DiagnosisLevel r = D1 -> rca_RootCause r <> "" /\ rca_Culprit r = first_culprit i) /\
  (rca_DiagnosisLevel r <> D1 -> rca_RootCause r = "" /\ rca_Culprit r = "") /\
  (exists refs, rca_EvidenceRefs r = Some refs /\ NoDup refs /\ (forall ref, ref ∈ refs <-> supported i ref) /\
     Forall (fun c => cu_EvidenceRefs c = Some refs) (default [] (rca_CandidateCauses r))) /\
  (rca_DiagnosisLevel r <> D3 -> forall m, m ∈ default [] (rca_MissingEvidence r) <-> still_missing i m) /\
  (forall e, e ∈ sp_Edges (pco_Graph (DiagnosePortConflict i)) ->
     exists a b, a ∈ sp_Nodes (pco_Graph (DiagnosePortConflict i)) /\ b ∈ sp_Nodes (pco_Graph (DiagnosePortConflict i)) /\
       nd_ID a = ed_From e /\ nd_ID b = ed_To e).
Proof.
  cbv zeta. rewrite (diagnosed i).
  destruct (level_exact (pci_Port i) (ss_Name (pci_Service i)) (existsb (holds_port (pci_Port i)) (pci_Sockets i))
    (existsb conflict_log (pci_Logs i)) (first_culprit i) (diagnosed_components i) (unique (gathered i))) as (Hl&Hr&Hc&He&Hf&Hm).
  rewrite Hl, Hr, Hc. unfold still_missing. rewrite <- listened_spec, <- logged_spec. rewrite culprit_first in *.
  split_and!; [..|by apply edges_closed].
  5: { exists (unique (gathered i)). split_and!; [done|apply NoDup_unique_from| |done].
       intros ref. rewrite <- elem_of_gathered. unfold unique. rewrite elem_of_unique_from. set_solver. }
  5: { intros Hne m. rewrite Hm, <- listened_spec, <- logged_spec; [|by destruct (existsb _ _), (existsb _ _)]. rewrite !elem_of_app. generalize no_listener no_pattern no_owner.
       intros a b c. destruct (existsb (holds_port _) _), (existsb conflict_log _), (pci_Processes i); cbn [negb];
         rewrite ?list_elem_of_singleton, ?elem_of_nil; try solve [intuition congruence]. }
  all: destruct (existsb (holds_port _) _), (existsb conflict_log _), (pci_Processes i); cbn; split_and?; try done; naive_solver.
Qed.
End Facts.

(** ** Scores are finite *)

(** A number that [float64] has, but for the sign of zero. *)
Definition finite (f : float64) : Prop := Z.abs (f_mant f) <= 2 ^ 53 /\ (971 <= f_exp f -> Z.abs (f_mant f) * 2 ^ f_exp f < 2 ^ 1024).

Lemma nearest_le p q n : 0 < q -> 0 <= p < n * q -> 0 <= nearest p q <= n.
Proof.
  intros Hq Hp. unfold nearest. assert (0 <= p / q < n) by (split; [apply Z.div_pos; lia|apply Z.div_lt_upper_bound; lia]).
  destruct (_ <? _); [lia|]. destruct (_ <? _); [lia|]. destruct (Z.even _); lia.
Qed.

(** [p / q < 2^(l+1)], and below [2^l] when it is. *)
Lemma ratio_below p q : 0 < p -> 0 < q ->
  let l := Z.log2 p - Z.log2 q in
  p * 2 ^ Z.max 0 (- (l + 1)) < q * 2 ^ Z.max 0 (l + 1).
Proof.
  intros Hp Hq. cbv zeta. pose proof (Z.log2_spec p Hp) as [_ Hp2]. pose proof (Z.log2_spec q Hq) as [Hq1 _].
  pose proof (Z.log2_nonneg p). pose proof (Z.log2_nonneg q).
  destruct (Z.le_ge_cases 0 (Z.log2 p - Z.log2 q + 1)) as [Hl|Hl].
  - rewrite (Z.max_l 0) by lia. rewrite (Z.max_r 0) by lia. rewrite Z.mul_1_r.
    apply Z.lt_le_trans with (2 ^ Z.succ (Z.log2 p)); [done|].
    replace (Z.succ (Z.log2 p)) with (Z.log2 q + (Z.log2 p - Z.log2 q + 1)) by lia. rewrite Z.pow_add_r by lia.
    by apply Z.mul_le_mono_nonneg_r; [apply Z.pow_nonneg|].
  - rewrite (Z.max_r 0) by lia. rewrite (Z.max_l 0) by lia. rewrite Z.mul_1_r.
    apply Z.lt_le_trans with (2 ^ Z.log2 q); [|done].
    replace (Z.log2 q) with (Z.succ (Z.log2 p) + - (Z.log2 p - Z.log2 q + 1)) at 2 by lia. rewrite Z.pow_add_r by lia.
    by apply Z.mul_lt_mono_pos_r; [apply Z.pow_pos_nonneg; lia|].
Qed.

Lemma shift_lt p q a b a' b' : 0 < p -> 0 <= a -> 0 <= b -> 0 <= a' -> 0 <= b' -> a' - b' <= a - b ->
  p * 2 ^ a < q * 2 ^ b -> p * 2 ^ a' < q * 2 ^ b'.
Proof.
  intros Hp Ha Hb Ha' Hb' Hd Hlt. assert (H2 : 0 < 2 ^ b) by (by apply Z.pow_pos_nonneg). assert (H2' : 0 < 2 ^ b') by (by apply Z.pow_pos_nonneg).
  apply (Z.mul_lt_mono_pos_r (2 ^ b)); [done|]. apply Z.le_lt_trans with (p * 2 ^ a * 2 ^ b').
  - rewrite <- !Z.mul_assoc, <- !Z.pow_add_r by done. apply Z.mul_le_mono_nonneg_l; [lia|]. apply Z.pow_le_mono_r; lia.
  - replace (q * 2 ^ b' * 2 ^ b) with (q * 2 ^ b * 2 ^ b') by ring. by apply Z.mul_lt_mono_pos_r.
Qed.

Lemma round_ratio_finite p q f : 0 <= p -> 0 < q -> round_ratio p q = Some f -> finite f /\ 0 <= f_mant f.
Proof.
  intros Hp Hq. unfold round_ratio. destruct (p =? 0) eqn:Hz; [intros [= <-]; unfold finite; cbn; lia|]. apply Z.eqb_neq in Hz.
  assert (Hp0 : 0 < p) by lia. pose proof (ratio_below p q Hp0 Hq) as Hl. cbv zeta in Hl |- *.
  set (l := Z.log2 p - Z.log2 q) in *.
  set (below := if l <? 0 then _ else _).
  set (e := Z.max ((if below then l - 1 else l) - 52) (-1074)).
  assert (He : exists k, k <= e + 53 /\ p * 2 ^ Z.max 0 (- k) < q * 2 ^ Z.max 0 k).
  { destruct below eqn:Hb; [exists l|exists (l + 1); split; [subst e; lia|done]]. split; [subst e; lia|].
    unfold below in Hb. destruct (Z.ltb_spec l 0) as [Hneg|Hpos]; apply Z.ltb_lt in Hb.
    - rewrite (Z.max_r 0 (- l)), (Z.max_l 0 l) by lia. by rewrite Z.mul_1_r.
    - rewrite (Z.max_l 0 (- l)), (Z.max_r 0 l) by lia. by rewrite Z.mul_1_r. }
  clearbody e. clear Hl below. destruct He as (k&Hk&Hb).
  set (m := if e <? 0 then _ else _).
  assert (Hm : 0 <= m <= 2 ^ 53).
  { unfold m. destruct (Z.ltb_spec e 0) as [He|He]; apply nearest_le.
    - done.
    - split; [apply Z.mul_nonneg_nonneg; [done|by apply Z.pow_nonneg]|]. rewrite (Z.mul_comm (2 ^ 53)).
      eapply (shift_lt p q); [done|..|exact Hb]; lia.
    - apply Z.mul_pos_pos; [done|by apply Z.pow_pos_nonneg].
    - split; [done|]. replace (2 ^ 53 * (q * 2 ^ e)) with (q * 2 ^ (e + 53)) by (rewrite Z.pow_add_r by lia; lia).
      rewrite <- (Z.mul_1_r p). change 1 with (2 ^ 0) at 1. eapply (shift_lt p q); [done|..|exact Hb]; lia. }
  clearbody m. destruct ((971 <=? e) && (2 ^ 1024 <=? m * 2 ^ e)) eqn:Ho; [done|]. intros [= <-]. unfold finite. cbn [f_mant f_exp].
  rewrite Z.abs_eq by lia. split; [|lia]. split; [lia|]. intros He. rewrite (proj2 (Z.leb_le _ _) He) in Ho. cbn [andb] in Ho. by apply Z.leb_gt in Ho.
Qed.

Lemma finite_neg m e : finite (MkFloat m e) -> finite (MkFloat (- m) e).
Proof. unfold finite. cbn [f_mant f_exp]. by rewrite Z.abs_opp. Qed.

Lemma float_scale_finite p q e : 0 < q -> finite (rounded (float_scale p q e)).
Proof.
  intros Hq. unfold rounded, float_scale. set (r := if 0 <=? e then _ else _).
  assert (Hr : forall f, r = Some f -> finite f).
  { intros f Hf. unfold r in Hf. destruct (Z.leb_spec 0 e) as [He|He]; eapply round_ratio_finite in Hf as [Hf _]; try done.
    - apply Z.mul_nonneg_nonneg; [lia|by apply Z.pow_nonneg].
    - lia.
    - apply Z.mul_pos_pos; [done|apply Z.pow_pos_nonneg; lia]. }
  destruct r as [[m x]|]; cbn [option_map default]; [|by cbv]. destruct (p <? 0); [by apply finite_neg, Hr|by apply Hr].
Qed.

(** What is printed for a finite number is read as a finite number. *)
Class FloatPrintOk `{FloatPrint} := float_text_reads : forall f, finite f -> is_Some (ParseFloat (float_text f)).

Lemma score_finite c : finite (score_value c).
Proof. unfold score_value, round, fdiv. apply float_scale_finite. by vm_compute. Qed.

(** ** Example *)
Module Lab.
#[local] Instance ascii_only : UnicodeCase := fun r => r.
#[local] Instance in_order : EdgeRange := fun l => l.

(** Three decimals of the numbers from 0 to 1. *)
Definition thousandth_text (n : Z) : string :=
  let pad k s := string_of_list_ascii (repeat "0"%char (k - String.length s)) +:+ s in
  if n =? 0 then "0"
  else if n =? 1000 then "1"
  else "0." +:+ (if n mod 100 =? 0 then show_Z (n / 100) else if n mod 10 =? 0 then pad 2%nat (show_Z (n / 10)) else pad 3%nat (show_Z n)).
#[local] Instance thousandths : FloatPrint := fun f =>
  let n := fround (rounded (fmul f (literal "1000"))) in
  if (0 <=? n) && (n <=? 1000) then thousandth_text n else "0".

Lemma thousandths_read n : 0 <= n <= 1000 -> is_Some (ParseFloat (thousandth_text n)).
Proof.
  intros Hn. assert (Hall : forallb (fun k => is_ok (from_option Ok (Err (EMsg "")) (ParseFloat (thousandth_text (Z.of_nat k))))) (seq 0 1001) = true)
    by by vm_compute.
  rewrite forallb_forall in Hall. specialize (Hall (Z.to_nat n)). rewrite Z2Nat.id in Hall by lia.
  destruct (ParseFloat (thousandth_text n)); [by eexists|]. discriminate Hall. apply in_seq. lia.
Qed.
#[local] Instance thousandths_ok : FloatPrintOk.
Proof.
  intros f _. unfold float_text, thousandths. set (n := fround _). destruct (_ && _) eqn:Hn; [|exists zero_float; vm_compute; reflexivity].
  apply thousandths_read. apply andb_true_iff in Hn as [?%Z.leb_le ?%Z.leb_le]. lia.
Qed.
#[local] Instance in_order_ok : EdgeRangeOk.
Proof. intros l. apply Permutation_refl. Qed.

Definition web : ServiceStatus := MkServiceStatus "demo.service" "" "loaded" "failed" "failed" 0 1 3 "".
Definition refused : JournalEvent := MkJournalEvent 0 "demo.service" 7 3 "bind: Address already in use" "" "" false.
Definition started : JournalEvent := MkJournalEvent 0 "demo.service" 7 6 "starting" "" "" false.
Definition tcp_socket : SocketInfo := MkSocketInfo "tcp" "0.0.0.0" 18081 "0.0.0.0" 0 "LISTEN" "42" true.
Definition udp_socket : SocketInfo := MkSocketInfo "udp" "0.0.0.0" 18081 "0.0.0.0" 0 "UNCONN" "43" true.
Definition holder : ProcessInfo := MkProcessInfo 77 1 "holder" "S" 1000 "holder" "/opt/safeops/bin/safeops-port-holder" 500 0 0.
Definition full : PortConflictInput := MkPortConflictInput web 18081 [started; refused; refused] [tcp_socket] [holder] "0".

Example diagnosed_fully :
  let r := pco_RCA (DiagnosePortConflict full) in
  rca_DiagnosisLevel r = D1 /\ rca_Culprit r = "pid:77:start:500" /\ rca_Confidence r = "0.9" /\
  rca_EvidenceRefs r = Some ["service-status"; "journal:1"; "journal:2"; "network-port"; "process-port-owner"] /\
  map ed_Relation (sp_Edges (pco_Graph (DiagnosePortConflict full))) = ["PROCESS_LISTENS_PORT"; "SERVICE_EMITS_LOG"; "SERVICE_EMITS_LOG"].
Proof. vm_compute. auto. Qed.

(** A UDP socket counts as the occupant of the port of a TCP service. *)
Example udp_occupies :
  rca_DiagnosisLevel (pco_RCA (DiagnosePortConflict (MkPortConflictInput web 18081 [refused] [udp_socket] [holder] "0"))) = D1.
Proof. vm_compute. reflexivity. Qed.

(** At D3 the owner is listed as missing though it is cited. *)
Example missing_and_cited :
  let r := pco_RCA (DiagnosePortConflict (MkPortConflictInput web 18081 [started] [] [holder] "0")) in
  rca_DiagnosisLevel r = D3 /\ "process-port-owner" ∈ default [] (rca_EvidenceRefs r) /\ no_owner ∈ default [] (rca_MissingEvidence r).
Proof. vm_compute. split_and!; [done|repeat constructor|repeat constructor]. Qed.

Lemma diagnosis_exact_witness : rca_DiagnosisLevel (pco_RCA (DiagnosePortConflict full)) = D1.
Proof.
  apply (diagnosis_exact full). split_and!; [|exists refused|done].
  - exists tcp_socket. split; [apply list_elem_of_singleton; done|by vm_compute].
  - split; [|by vm_compute]. cbn. rewrite !elem_of_cons. auto.
Defined.
End Lab.
