(* ===== verification/FileAction.v ===== *)
(** * Writes the operator asks for by name

    [internal/agent/file_action.go] and [internal/context/resolver.go]: the
    kind of file action a request names, the file it means (a path of its own,
    or an ordinal into the resources the session selected), and its
    preparation for approval.  A range over a Go map visits its entries in an
    order of the run's own: [order] is that order. *)

From S2P Require Import Prelude GoStrings GoText Regex GoPath Json Hash Contracts Guard Approval Platform Targets Executor Store Planner Scope Agent Decode Prepare Managed General Workflows.
Open Scope Z_scope.

(** ** [internal/context/resolver.go] *)
Definition arabicOrdinal : re :=
  cats [lit "第"; blanks; Group 1 (repeat_ 1 3 (Chr digit_rune)); blanks; opt (any_of ["个"; "项"; "条"; "份"])].

Definition ordinals : list (string * Z) := [
  ("第一个", 0); ("第一项", 0); ("首个", 0); ("第二个", 1); ("第二项", 1); ("第三个", 2); ("第三项", 2);
  ("第四个", 3); ("第四项", 3); ("第五个", 4); ("第五项", 4)].

Definition hasCurrentResourcePronoun (value : string) : bool := contains_one value ["这个"; "该文件"; "该项"; "该资源"; "它"].

(** [value, _ := strconv.Atoi(match)] on at most three digits. *)
Definition atoi_or_0 (s : string) : Z := match Atoi s with Ok n => n | Err _ => 0 end.

(** The entries of the map in the order they are visited; the first that the
    request contains decides. *)
Definition spelled_ordinal (order : list (string * Z)) (normalized : string) : Z :=
  match List.find (fun kv => Contains normalized (fst kv)) order with Some kv => snd kv | None => -1 end.

Definition resource_index (order : list (string * Z)) (normalized : string) (count : Z) : Z :=
  let index := match FindStringSubmatch normalized arabicOrdinal 1 with
               | Some digits => atoi_or_0 digits - 1
               | None => spelled_ordinal order normalized
               end in
  let index := if Contains normalized "最后一个" || Contains normalized "最后一项" then count - 1 else index in
  if (index =? -1) && (count =? 1) && hasCurrentResourcePronoun normalized then 0 else index.

Definition ResolveResource (order : list (string * Z)) (reference : string) (resources : list string) : result (string * Z) :=
  let count := Z.of_nat (length resources) in
  fail_if count =? 0 with EMsg "session has no selected resources" ;;
  let index := resource_index order (TrimSpace reference) count in
  fail_if index <? 0 with EMsg "resource reference is ambiguous; use an explicit ordinal" ;;
  fail_if count <=? index with EMsg "resource ordinal is outside the selected list" ;;
  Ok (nth (Z.to_nat index) resources "", index).

(** ** [internal/agent/file_action.go] *)
Definition detectFileAction `{UnicodeCase} (request : string) : string :=
  let normalized := ToLower (TrimSpace request) in
  if contains_one normalized ["恢复"; "restore"] && contains_one normalized ["文件"; "第"; "这个"; "它"] then "restore"
  else if contains_one normalized ["隔离"; "quarantine"] then "quarantine"
  else if contains_one normalized ["新建"; "创建"; "create"] then "create"
  else if contains_one normalized ["删除"; "delete"; "remove"] then "delete"
  else "".

Definition absolute_path_pattern : re :=
  Cat (lit "/") (plus (Chr (none_of (space_runes +:+ String (chr 34) "" +:+ "'，。；;")))).

Definition firstAbsolutePath (request : string) : string :=
  TrimRight (FindString request absolute_path_pattern) ".,，。；;：:".

Definition name_rune : N -> bool := fold_case (either letter_rune digit_rune).
Definition file_rune : N -> bool := either name_rune (one_of "._-").
Definition outside_rune (n : N) : bool := negb (either name_rune (one_of "_./-") n).

Definition plain_filename_pattern : re :=
  cats [Alt Bol (Chr outside_rune);
       Group 1 (cats [Chr name_rune; repeat_ 0 127 (Chr file_rune); lit "."; Chr name_rune; repeat_ 0 16 (Chr file_rune)]);
       Alt Eol (Chr outside_rune)].

Definition firstPlainFilename (request : string) : string :=
  match FindStringSubmatch request plain_filename_pattern 1 with Some name => Base name | None => "" end.

Definition filePathFromRequest (request : string) : string :=
  let path := firstAbsolutePath request in
  if String.eqb path "" then ""
  else if String.eqb (Ext (Base path)) "" then
    let filename := firstPlainFilename request in
    if negb (String.eqb filename "") then PathJoin [path; filename] else path
  else path.

(** [strings.Trim] with the runes of [cutset]. *)
Definition Trim (s cutset : string) : string :=
  concat_chunks (drop_while (fun c => string_in c (rune_chunks cutset)) (rune_chunks (TrimRight s cutset))).

Definition content_cutset : string := " " +:+ String (chr 9) (String (chr 13) (String (chr 10) (String (chr 34) "'“”‘’，。；;：:在到至"))).

(** [now.Local().Format("2006-01-02")] *)
Class LocalDate := local_date : Z -> string.

(** The text after a marker; the offset is the one of the marker in the
    request in lower case, and past the end of the request it panics
    ([None]). *)
Definition content_after (request : string) (index : nat) (marker : string) : option string :=
  match slice_bytes request (index + String.length marker) (String.length request) with
  | None => None
  | Some rest =>
    let content := TrimSpace rest in
    let path := firstAbsolutePath content in
    let content := if negb (String.eqb path "") then match Index content path with Some i => take_bytes i content | None => content end
                   else content in
    Some (Trim content content_cutset)
  end.

Definition content_markers : list string := ["内容是"; "内容为"; "写入"; "填写"; "填入"; "content:"].

Definition parseCreateFileContent `{UnicodeCase} `{LocalDate} (request : string) (t : Z) : option string :=
  if Contains request "今天日期" || Contains request "今日日期" || Contains (ToLower request) "today" then Some (local_date t)
  else match first_some (fun marker => option_map (fun i => (marker, i)) (Index (ToLower request) (ToLower marker))) content_markers with
       | Some (marker, index) => content_after request index marker
       | None => Some ""
       end.

(** A file action in the making. *)
Record FileAction := MkFileAction {
  fa_Tool : string;
  fa_Path : string;
  fa_Index : Z;
  fa_Source : string;
  fa_Arguments : gmap string json;
  fa_Rollback : string;
  fa_Description : string
}.

Definition resolveFileActionTarget (order : list (string * Z)) (request : string) (resources : list string)
    : result (string * Z * string) :=
  let path := filePathFromRequest request in
  if negb (String.eqb path "") then Ok (path, -1, "request.path")
  else
    let? found := ResolveResource order request resources in
    Ok (fst found, snd found, "session.selected_resources").

Definition restore_action (order : list (string * Z)) (request : string) (s : Session) : result FileAction :=
  let? found := ResolveResource order request (sn_SelectedResources s) in
  let '(resource, index) := found in
  let pinned name := default "" (sn_PinnedContext s !! (name +:+ resource)) in
  fail_if String.eqb (pinned "quarantine_id:") "" || String.eqb (pinned "quarantine_path:") ""
  with EMsg "selected resource has no committed quarantine context" ;;
  Ok (MkFileAction "file.restore_quarantine" (pinned "quarantine_path:") index "session.selected_resources"
        {[ "quarantine_id" := JStr (pinned "quarantine_id:") ]} "re-quarantine restored file"
        ("恢复第 " +:+ show_Z (index + 1) +:+ " 个已选择 Lab 文件")).

Definition remove_action (order : list (string * Z)) (kind request : string) (s : Session) : result FileAction :=
  let? found := resolveFileActionTarget order request (sn_SelectedResources s) in
  let '(path, index, source) := found in
  let rollback := "restore file from quarantine manifest" in
  let ordinal := "第 " +:+ show_Z (index + 1) +:+ " 个已选择 Lab 文件" in
  Ok (if String.eqb kind "delete" then
        MkFileAction "file.delete" path index source ∅ rollback
          (if 0 <=? index then "删除" +:+ ordinal +:+ "（可恢复隔离）" else "删除 allowlist Lab 文件（可恢复隔离）")
      else
        MkFileAction "file.quarantine" path index source ∅ rollback
          (if 0 <=? index then "隔离" +:+ ordinal else "隔离已选择 Lab 文件")).

Section FileActions.
Context {T H X : Type} `{TraceSink T} `{UnicodeCase} `{TimeText} `{LocalDate} (busy : nat) (o : Orchestrator H)
  (order : list (string * Z)).

Abbreviation Action A := (M (AgentState T H X) A).
Abbreviation event v typ fields := (@appendTrace T H X _ v typ (payload fields)).

Definition create_action (request : string) : Action FileAction :=
  t <- now ;;
  let path := filePathFromRequest request in
  if String.eqb path "" then throw (EMsg "file.create requires an absolute allowlisted target path in the request")
  else match parseCreateFileContent request t with
       | None => panic
       | Some content =>
         ret (MkFileAction "file.create" path (-1) "request.path" {[ "content" := JStr content ]}
                "delete created file through reversible quarantine" "新建 allowlist Lab 文件")
       end.

(** What the request asks for, and the snapshot of its target. *)
Definition resolve_action (targets : FileSnapshotter H) (kind request : string) (s : Session) : Action (FileAction * TargetSnapshot) :=
  action <- (if String.eqb kind "create" then create_action request
             else if String.eqb kind "restore" then lift (restore_action order request s)
             else if String.eqb kind "delete" || String.eqb kind "quarantine" then lift (remove_action order kind request s)
             else throw (EMsg ("unsupported file action kind " +:+ quote kind))) ;;
  snapshot <- on_machine ((if String.eqb kind "create" then sn_new_file targets else sn_file targets) (fa_Path action) (fa_Path action)) ;;
  ret (action, snapshot).

Definition request_file_action (value : Task) (action : FileAction) (snapshot : TargetSnapshot) : Action Returned :=
  let* _ := event value IntentParsed [("intent_type", JStr (tk_IntentType value)); ("resolved_resource", JStr (fa_Path action));
    ("ordinal_index", JInt (fa_Index action)); ("source", JStr (fa_Source action))] or value in
  let target := MkTargetRef "file" (ts_ID snapshot) "" in
  let plan := [MkStep "step_file_action" (fa_Description action) (fa_Tool action) "WAITING_APPROVAL"] in
  let value := with_plan value plan 0 (tk_CompletedSteps value) in
  let* _ := SaveTask_ busy value or value in
  let* _ := event value PlanCreated [("steps", slice step_json plan);
    ("completion_criteria", JStr "approved action executes against the same file snapshot and verification succeeds")] or value in
  let* _ := event value DecisionRecorded [("objective", JStr (tk_Objective value)); ("decision_summary", JStr (fa_Description action));
    ("selected_tool", JStr (fa_Tool action)); ("target", target_json target); ("rollback_strategy", JStr (fa_Rollback action))] or value in
  proposal_id <- new_id "proposal" ;;
  ask_approval busy o value
    (direct_proposal proposal_id value (fa_Tool action) (fa_Arguments action) target true (fa_Rollback action) (fa_Description action))
    snapshot.

Definition runFileAction (value : Task) (kind request : string) : Action Returned :=
  match o_Actions o, o_FileTargets o with
  | Some _, Some targets =>
    let* s := on_store (GetSession (tk_SessionID value)) or value in
    let value := with_intent (with_resources value (sn_SelectedResources s)) ("file_" +:+ kind) in
    value <- Transition Planning value ;;
    let* _ := SaveTask_ busy value or value in
    let* resolved := resolve_action targets kind request s or value in
    request_file_action value (fst resolved) (snd resolved)
  | _, _ => fail value "file action workflow is not configured; read-only investigation remains available"
  end.
End FileActions.

(** ** Which resource a reference means *)

(** A spelled ordinal of the request. *)
Definition spelled (normalized : string) (i : Z) : Prop := exists text, (text, i) ∈ ordinals /\ Contains normalized text = true.

(** The resource that the request means, of [count]. *)
Inductive means (normalized : string) (count : Z) : Z -> Prop :=
  | MeansLast : Contains normalized "最后一个" || Contains normalized "最后一项" = true -> means normalized count (count - 1)
  | MeansNumber digits : Contains normalized "最后一个" || Contains normalized "最后一项" = false ->
      FindStringSubmatch normalized arabicOrdinal 1 = Some digits -> means normalized count (atoi_or_0 digits - 1)
  | MeansSpelled i : Contains normalized "最后一个" || Contains normalized "最后一项" = false ->
      FindStringSubmatch normalized arabicOrdinal 1 = None -> spelled normalized i -> means normalized count i
  | MeansOnly : count = 1 -> hasCurrentResourcePronoun normalized = true -> means normalized count 0.

Lemma spelled_ordinal_spec order normalized : order ≡ₚ ordinals ->
  (spelled_ordinal order normalized = -1 /\ forall i, ~ spelled normalized i) \/ spelled normalized (spelled_ordinal order normalized).
Proof.
  intros Hp. unfold spelled_ordinal. destruct (List.find _ order) as [[text i]|] eqn:Hf.
  - right. apply List.find_some in Hf as [Hin Hc]. exists text. split; [|done]. rewrite <- Hp. by apply list_elem_of_In.
  - left. split; [done|]. intros i (text&Hin&Hc). rewrite <- Hp in Hin. apply list_elem_of_In in Hin.
    pose proof (List.find_none _ _ Hf _ Hin) as Hn. cbn in Hn. congruence.
Qed.

Lemma spelled_ordinal_order order normalized : order ≡ₚ ordinals ->
  (forall i j, spelled normalized i -> spelled normalized j -> i = j) ->
  spelled_ordinal order normalized = spelled_ordinal ordinals normalized.
Proof.
  intros Hp Hu. destruct (spelled_ordinal_spec order normalized Hp) as [[-> Hn]|Hs], (spelled_ordinal_spec ordinals normalized) as [[-> Hn']|Hs'];
    try done; [by destruct (Hn _ Hs')|by destruct (Hn' _ Hs)|by apply Hu].
Qed.

Lemma resource_index_means order normalized count : order ≡ₚ ordinals -> 0 <= resource_index order normalized count ->
  means normalized count (resource_index order normalized count).
Proof.
  intros Hp. unfold resource_index. cbv zeta.
  destruct (_ && hasCurrentResourcePronoun normalized) eqn:Ha.
  { apply andb_true_iff in Ha as [[_ Hc%Z.eqb_eq]%andb_true_iff Hr]. intros _. by apply MeansOnly. }
  clear Ha. destruct (_ || _) eqn:Hl; [intros _; by apply MeansLast|].
  destruct (FindStringSubmatch _ _ _) as [digits|] eqn:Hd; [intros _; by apply MeansNumber|]. intros Hi.
  destruct (spelled_ordinal_spec order normalized Hp) as [[He _]|Hs]; [rewrite He in Hi; lia|by apply MeansSpelled].
Qed.

(** A reference to a selected resource is resolved inside the list, and
    to what the operator wrote.  A resource that is returned is the one at the
    position returned, and this is the last when the request says so, else the
    number it gives in digits, else one that it spells out; or it is the only
    resource, which the request points at.  The order in which Go visits the
    table of spelled ordinals does not matter, as long as the request spells
    at most one of them. *)
Theorem resolve_resource_exact order reference resources : order ≡ₚ ordinals ->
  (forall resource i, ResolveResource order reference resources = Ok (resource, i) ->
     0 <= i /\ resources !! Z.to_nat i = Some resource /\ means (TrimSpace reference) (Z.of_nat (length resources)) i) /\
  ((forall i j, spelled (TrimSpace reference) i -> spelled (TrimSpace reference) j -> i = j) ->
     ResolveResource order reference resources = ResolveResource ordinals reference resources).
Proof.
  intros Hp. split.
  - intros resource i. unfold ResolveResource. cbv zeta. destruct (_ =? 0); [done|].
    destruct (Z.ltb_spec (resource_index order (TrimSpace reference) (Z.of_nat (length resources))) 0) as [|H0]; [done|].
    destruct (Z.leb_spec (Z.of_nat (length resources)) (resource_index order (TrimSpace reference) (Z.of_nat (length resources)))) as [|Hl]; [done|].
    intros [= <- <-]. split_and!; [done| |by apply resource_index_means].
    destruct (lookup_lt_is_Some_2 resources (Z.to_nat (resource_index order (TrimSpace reference) (Z.of_nat (length resources))))) as [x Hx]; [lia|].
    rewrite Hx. f_equal. symmetry. by apply nth_lookup_Some.
  - intros Hu. unfold ResolveResource, resource_index. by rewrite (spelled_ordinal_order order).
Qed.

Lemma resolve_resource_exact_witness :
  0 <= 1 /\ ["/a"; "/b"; "/c"] !! 1%nat = Some "/b" /\
  ResolveResource (rev ordinals) "隔离第二个" ["/a"; "/b"; "/c"] = ResolveResource ordinals "隔离第二个" ["/a"; "/b"; "/c"].
Proof.
  assert (Hp : rev ordinals ≡ₚ ordinals) by (symmetry; apply Permutation_rev).
  pose proof (resolve_resource_exact (rev ordinals) "隔离第二个" ["/a"; "/b"; "/c"] Hp) as [Hr Ho].
  destruct (Hr "/b" 1) as (H1&H2&_); [vm_compute; reflexivity|]. split; [exact H1|]. split; [exact H2|]. apply Ho.
  assert (Hone : forall i, spelled (TrimSpace "隔离第二个") i -> i = 1).
  { intros i (text&Hin&Hc). unfold ordinals in Hin. rewrite !elem_of_cons in Hin.
    repeat destruct Hin as [[= -> ->]|Hin]; try done; try (vm_compute in Hc; discriminate Hc). by apply elem_of_nil in Hin. }
  intros i j Hi Hj. by rewrite (Hone i Hi), (Hone j Hj).
Defined.

(** A request that spells two ordinals means one or the other file, as the run
    has it. *)
Example ordinal_depends_on_run :
  ResolveResource ordinals "隔离第一个和第三个" ["/a"; "/b"; "/c"] = Ok ("/a", 0) /\
  ResolveResource (rev ordinals) "隔离第一个和第三个" ["/a"; "/b"; "/c"] = Ok ("/c", 2).
Proof. vm_compute. split; reflexivity. Qed.

(** ** Requests read *)
Example requests_read :
  detectFileAction (H := scope_case) "请隔离第 2 个文件" = "quarantine" /\
  detectFileAction (H := scope_case) "Restore it: 它" = "restore" /\
  filePathFromRequest "新建 report.txt 到 /var/lib/safeops/lab，内容是 hello" = "/var/lib/safeops/lab/report.txt" /\
  parseCreateFileContent (H := scope_case) (H0 := fun _ => "2026-01-01") "新建 /var/lib/safeops/lab/a.txt，内容是“ok”。" 0 = Some "ok" /\
  ResolveResource ordinals "隔离第 2 个" ["/a"; "/b"; "/c"] = Ok ("/b", 1) /\
  ResolveResource ordinals "恢复最后一个" ["/a"; "/b"; "/c"] = Ok ("/c", 2) /\
  ResolveResource ordinals "隔离它" ["/a"] = Ok ("/a", 0) /\
  ResolveResource ordinals "隔离第9个" ["/a"] = Err (EMsg "resource ordinal is outside the selected list").
Proof. vm_compute. repeat split; reflexivity. Qed.
