(* ===== verification/Orchestrate.v ===== *)
(** * [internal/agent/orchestrator.go]: one run of the agent

    [Prepare] makes a task durable, [Run] claims it, chooses its workflow and
    releases it, and [RecoverIncomplete] runs again what a lost worker left.
    The deferred functions of [Run] are the end of [Run] here; they run also
    when the body panics.  The contexts of the release and of a recovered run
    have deadlines of their own: the environment answers for them too. *)

From S2P Require Import Prelude GoStrings GoText GoPath Json Hash Contracts Guard Approval Platform Targets Executor Trace Store Planner Scope Agent Decode Prepare Managed General Workflows FileAction.
Open Scope Z_scope.

Definition New : string := "NEW".
Definition Received : string := "RECEIVED".

(** [trace.Writer.Read] *)
Class TraceReader (T : Type) := trace_read : string -> M T (list Event).

(** ** Words of a request *)
Record metricIntent := MkMetricIntent { mi_CPU : bool; mi_Memory : bool }.

Definition parseMetricIntent `{UnicodeCase} (request : string) : result metricIntent :=
  let normalized := ToLower (TrimSpace request) in
  let cpu := contains_one normalized ["cpu"; "处理器"] in
  let memory := contains_one normalized ["内存"; "memory"] in
  fail_if negb cpu && negb memory with EMsg "当前已实现的纵切片仅支持 CPU/内存只读查询" ;;
  Ok (MkMetricIntent cpu memory).

Definition ClassifyMetricIntent `{UnicodeCase} (request : string) : result (list string) :=
  let? intent := parseMetricIntent request in
  Ok ((if mi_CPU intent then ["cpu"] else []) ++ (if mi_Memory intent then ["memory"] else [])).

Definition isDefaultSessionName (name : string) : bool := string_in (TrimSpace name) [""; "新会话"; "新对话"; "系统感知会话"].

Definition sessionTitleFromRequest (request : string) : string :=
  let title := Join (Fields (TrimSpace request)) " " in
  let title := if (36 <? length (runes title))%nat then encode_runes (take 36 (runes title)) else title in
  if String.eqb title "" then "新会话" else title.

Definition detectPortRecovery `{UnicodeCase} (request : string) : bool :=
  let normalized := ToLower (TrimSpace request) in
  contains_one normalized ["web"; "网页"] && contains_one normalized ["启动失败"; "起不来"; "failed to start"]
  && contains_one normalized ["恢复"; "修复"; "recover"].

(** [strings.ReplaceAll(s, p, "")]; [skip] bytes are still of a [p]. *)
Fixpoint remove_all (p s : string) (skip : nat) : string :=
  match s with
  | "" => ""
  | String c s' =>
    match skip with
    | S skip => remove_all p s' skip
    | 0%nat => if HasPrefix s p then remove_all p s' (String.length p - 1) else String c (remove_all p s' 0)
    end
  end.

Definition detectCPURecovery `{UnicodeCase} (request : string) : bool :=
  let normalized := ToLower (TrimSpace request) in
  let actionText := remove_all "处理器" normalized 0 in
  contains_one normalized ["cpu"; "处理器"] && contains_one normalized ["高"; "占用"; "忙"]
  && contains_one actionText ["处理"; "恢复"; "结束"; "修复"].

Definition detectDiskRecovery `{UnicodeCase} (request : string) : bool :=
  let normalized := ToLower (TrimSpace request) in
  contains_one normalized ["磁盘"; "日志"; "disk"] && contains_one normalized ["增长"; "变大"; "占用"; "满"]
  && contains_one normalized ["处理"; "隔离"; "恢复"; "修复"].

Definition fixedLabReadScopeCompatible `{UnicodeCase} (request : string) (allowedPaths : list string) : bool :=
  let '(authorized, excluded) := requestPathScopes request in
  forallb (fun path => string_in path (normalizedUniquePaths allowedPaths)) authorized
  && forallb (fun path => negb (pathWithinScope demoLabRoot path || pathWithinScope path demoLabRoot)) excluded.

(** ** Readings of the metrics *)
Definition number (v : option json) : string := match v with Some (JNum lit) => lit | _ => "0" end.

Definition percent (v : option json) : string := format1 (number v) +:+ "%".

(** A size over 2^30 in GiB with two decimals, else in MiB with one. *)
Definition bytesText (lit : string) : string :=
  let v := float_val lit in
  if negb (float_lt v (MkFloat 1 30))
  then format_fixed 2 (HasPrefix lit "-") (Z.abs (f_mant v)) (f_exp v - 30) +:+ " GiB"
  else format_fixed 1 (HasPrefix lit "-") (Z.abs (f_mant v)) (f_exp v - 20) +:+ " MiB".

Abbreviation Object := (list (string * json)).

(** [memory, _ := out["memory"].(map[string]any)] *)
Definition memory_of (out : Object) : Object := match key "memory" out with Some (JObj m) => m | _ => [] end.

Definition cpu_tool : string := "system.get_cpu_metrics".
Definition memory_tool : string := "system.get_memory_metrics".

Definition summarizeFinding (tool : string) (out : Object) : string :=
  if String.eqb tool cpu_tool then "CPU 使用率 " +:+ percent (key "usage_percent" out)
  else if String.eqb tool memory_tool then
    "内存使用率 " +:+ percent (key "usage_percent" out) +:+ "（已用 " +:+ bytesText (number (key "used_bytes" (memory_of out)))
    +:+ " / 总计 " +:+ bytesText (number (key "total_bytes" (memory_of out))) +:+ "）"
  else tool +:+ " 返回结构化证据".

Definition formatAnswer (outputs : gmap string Object) : string :=
  Join (["已通过真实 MCP 工具读取当前 Linux 状态："]
    ++ match outputs !! cpu_tool with
       | Some out => ["- CPU：采样窗口内使用率约 " +:+ percent (key "usage_percent" out) +:+ "。"]
       | None => []
       end
    ++ match outputs !! memory_tool with
       | Some out =>
         let m := memory_of out in
         ["- 内存：使用率约 " +:+ percent (key "usage_percent" out) +:+ "，已用 " +:+ bytesText (number (key "used_bytes" m))
          +:+ "，总计 " +:+ bytesText (number (key "total_bytes" m)) +:+ "，可用 " +:+ bytesText (number (key "available_bytes" m)) +:+ "。"]
       | None => []
       end) (String newline "").

Section Orchestrate.
Context {T H X : Type} `{TraceSink T} `{TraceReader T} `{Outside X} `{HealthVerifier X} `{UnicodeCase} `{TimeText} `{TimeParse}
  `{LocalDate} `{Regexp} `{Sprinter} `{ManagedPatterns} `{PlannerPatterns} (busy : nat) (o : Orchestrator H)
  (order : list (string * Z)).

Abbreviation Action A := (M (AgentState T H X) A).
Abbreviation save v := (@SaveTask_ T H X busy v).
Abbreviation event v typ fields := (@appendTrace T H X _ v typ (payload fields)).

Definition terminalTask (state : string) : bool := String.eqb state Completed || String.eqb state Failed || String.eqb state Cancelled.
Definition leaseTTL : Z := if o_LeaseTTL o <=? 0 then 3 * Minute else o_LeaseTTL o.

(** ** The first lines of a task's log *)
Definition ensureInitialTrace (value : Task) : Action unit :=
  if negb (o_Trace o) then throw (EMsg "trace writer is required")
  else
    read <- try_ (on_trace (trace_read (tk_ID value))) ;;
    events <- (match read with
               | Ok events => ret events
               | Err e => if errors_is e ENOENT then ret [] else throw e
               end) ;;
    heads <- (match events with
              | [] => event value Received [("request", JStr (tk_OriginalRequest value))] ;;; ret [(Received, tk_SessionID value)]
              | _ => ret (map (fun e => (ev_Type e, ev_SessionID e)) events)
              end) ;;
    match heads with
    | [] => ret tt
    | first :: rest =>
      if negb (String.eqb (fst first) Received) || negb (String.eqb (snd first) (tk_SessionID value))
      then throw (EMsg "task trace does not start with the expected RECEIVED event")
      else match rest with
           | [] => event value TaskCreated [("state", JStr (tk_State value))]
           | second :: _ =>
             if negb (String.eqb (fst second) TaskCreated) || negb (String.eqb (snd second) (tk_SessionID value))
             then throw (EMsg "task trace does not contain the expected TASK_CREATED prefix")
             else ret tt
           end
    end.

(** ** A task is made durable *)
Definition new_task (taskID sessionID request : string) (t : Z) : Task :=
  MkTask taskID sessionID request request New "" [] 0 [] [] [] [] None "" "" ∅
    (MkRuntimeCheckpoint 0 0 0 0 "" 0 0 zero_time zero_time [] []) (MkWorkerLease "" "" 0 zero_time) 0 "" t t.

Definition received (taskID request message_id : string) (t : Z) (s : Session) : result Session :=
  Ok (MkSession (sn_ID s)
        (if empty_ (sn_Messages s) && isDefaultSessionName (sn_Name s) then sessionTitleFromRequest request else sn_Name s)
        (sn_Archived s) (sn_Messages s ++ [MkMessage message_id "user" request taskID t]) (sn_Summary s) (sn_PinnedContext s)
        (sn_SelectedResources s) (sn_CreatedAt s) t).

Definition Prepare_ (taskID sessionID request : string) : Action Returned :=
  t <- now ;;
  let value := new_task taskID sessionID request t in
  message_id <- new_id "msg" ;;
  let* _ := on_store (PrepareTask busy value (received taskID request message_id t)) or value in
  let* _ := ensureInitialTrace value or value in
  ret (value, None).

(** ** The metrics of the host *)
Definition metric_steps (intent : metricIntent) : list Step :=
  (if mi_CPU intent then [pending_step "step_cpu" "通过 MCP 读取真实 CPU 指标" cpu_tool] else [])
  ++ (if mi_Memory intent then [pending_step "step_memory" "通过 MCP 读取真实内存指标" memory_tool] else []).

(** What a reading is once it has arrived. *)
Definition record_metric (value : Task) (index : nat) (structured : Object) : Action Returned :=
  let tool := sp_Tool (step_at value index) in
  let* sequence := on_trace (trace_append (tk_ID value) (tk_SessionID value) ToolResult
    (payload [("tool", JStr tool); ("structured_output", as_any (JObj structured))])) or value in
  let finding := summarizeFinding tool structured in
  let ref := evidence_ref value sequence in
  let value := with_plan value (step_state (tk_Plan value) index "COMPLETED") (tk_CurrentStep value)
                 (tk_CompletedSteps value ++ [sp_ID (step_at value index)]) in
  value <- Transition Investigating (add_ref (add_finding value finding) ref) ;;
  let* _ := save value or value in
  let* _ := event value FindingsUpdated [("finding", JStr finding); ("evidence_ref", JStr ref)] or value in
  ret (value, None).

(** The call, once the guards have allowed it. *)
Definition call_metric (value : Task) (tool : string) : Action CallToolResult :=
  event value ToolCall [("server", JStr "system"); ("tool", JStr tool); ("arguments", JMap ∅)] ;;;
  call_registered o (MkReadStep "system" tool ∅).

Definition metric_step (value : Task) (index : nat) : Action ((Task * Object) * option error) :=
  value <- Transition Investigating (at_step value index "RUNNING") ;;
  let none := (value, []) in
  let tool := sp_Tool (step_at value index) in
  let description := sp_Description (step_at value index) in
  let* _ := save value or none in
  let* _ := event value DecisionRecorded [("objective", JStr (tk_Objective value)); ("current_step", JStr description);
    ("decision_summary", JStr "选择只读系统感知工具收集完成条件所需证据"); ("selected_tool", JStr tool);
    ("expected_observation", JStr "结构化 Linux 实时指标")] or none in
  match o_Safety o with
  | None => fail none "safety pipeline is not configured"
  | Some catalog =>
    proposal_id <- new_id "proposal" ;;
    let proposal := read_step_proposal proposal_id value tool ∅ description in
    let* digest := lift (proposal_Digest proposal) or none in
    let* _ := appendTrace value ActionProposed (proposed_payload proposal digest) or none in
    static_id <- new_id "decision" ;;
    intent_id <- new_id "decision" ;;
    let safety := pipeline_Evaluate catalog static_id intent_id proposal in
    let* _ := appendTrace value StaticGuardResult (Ok (guard_json (pr_Static safety))) or none in
    if String.eqb (gd_Outcome (pr_Static safety)) Deny
    then fail none ("static guard denied " +:+ tool +:+ ": " +:+ gd_Reason (pr_Static safety))
    else
      let* _ := appendTrace value IntentGuardResult (Ok (intent_decision_json (pr_Intent safety))) or none in
      if String.eqb (id_Outcome (pr_Intent safety)) Deny
      then fail none ("intent guard denied " +:+ tool +:+ ": " +:+ id_Reason (pr_Intent safety))
      else
        let* _ := appendTrace value RiskEvaluated (Ok (risk_json (pr_Risk safety))) or none in
        if negb (String.eqb (gd_Outcome (pr_Final safety)) Allow)
        then fail none ("safety pipeline did not allow read tool " +:+ tool +:+ ": " +:+ gd_Reason (pr_Final safety))
        else
          let* result := call_metric value tool or none in
          if ct_IsError result then fail none ("tool " +:+ tool +:+ ": " +:+ textResult result)
          else match ct_StructuredContent result with
               | Some (JObj structured) =>
                 let! (value, failed) := record_metric value index structured in
                 ret ((value, structured), failed)
               | _ => fail none ("tool " +:+ tool +:+ " returned no structured object")
               end
  end.

(** The steps from [index] on, [n] of them. *)
Fixpoint metric_loop (n index : nat) (value : Task) (outputs : gmap string Object) : Action ((Task * gmap string Object) * option error) :=
  match n with
  | 0%nat => ret ((value, outputs), None)
  | S n =>
    if (MaxIterations <=? Z.of_nat index) || (MaxToolCalls <=? Z.of_nat index)
    then fail (value, outputs) "agent execution limit reached"
    else
      let! ((value', structured), failed) := metric_step value index in
      match failed with
      | Some e => ret ((value', outputs), Some e)
      | None => metric_loop n (S index) value' (<[sp_Tool (step_at value index) := structured]> outputs)
      end
  end.

Definition complete_metrics (value : Task) (outputs : gmap string Object) : Action Returned :=
  if negb (length (tk_CompletedSteps value) =? length (tk_Plan value))%nat then fail value "completion criteria not met"
  else
    let answer := formatAnswer outputs in
    value <- Transition Completed value ;;
    let* _ := save value or value in
    message_id <- new_id "msg" ;;
    t1 <- now ;;
    t2 <- now ;;
    let* _ := on_store (UpdateSession busy (tk_SessionID value) (fun s =>
      Ok (MkSession (sn_ID s) (sn_Name s) (sn_Archived s)
            (sn_Messages s ++ [MkMessage message_id "assistant" answer (tk_ID value) t1]) "已完成系统 CPU/内存只读感知"
            (sn_PinnedContext s) (sn_SelectedResources s) (sn_CreatedAt s) t2))) or value in
    let* _ := event value TaskCompleted [("completion_criteria_met", JBool true)] or value in
    let* _ := event value Final [("answer", JStr answer)] or value in
    ret (value, None).

Definition run_metrics (value : Task) (intent : metricIntent) : Action Returned :=
  value <- Transition Planning (with_intent value "system_metrics_read") ;;
  let* _ := event value IntentParsed [("intent_type", JStr (tk_IntentType value)); ("cpu", JBool (mi_CPU intent));
              ("memory", JBool (mi_Memory intent))] or value in
  value <- Transition Investigating
    (with_plan value (tk_Plan value ++ metric_steps intent) (tk_CurrentStep value) (tk_CompletedSteps value)) ;;
  let* _ := save value or value in
  let* _ := event value PlanCreated [("steps", slice step_json (tk_Plan value));
              ("completion_criteria", JStr "所有请求的指标均获得新的 MCP 证据")] or value in
  let! ((value, outputs), failed) := metric_loop (length (tk_Plan value)) 0 value ∅ in
  match failed with
  | Some e => ret (value, Some e)
  | None => complete_metrics value outputs
  end.

(** ** The workflow of a request *)

(** As many turns as the checkpoint has left, and one more: a result is
    certain ([General.general_run_bounded]). *)
Definition run_general (value : Task) : Action Returned :=
  r <- runGeneral busy o (S (turns_left value)) value ;;
  match r with Some r => ret r | None => panic end.

Definition in_flight (value : Task) : bool :=
  (String.eqb (tk_State value) Executing || String.eqb (tk_State value) Verifying)
  && match tk_PendingAction value with Some _ => true | None => false end.

Definition choose_workflow (value : Task) (request : string) : Action Returned :=
  if in_flight value
  then fail value "in-flight privileged action requires manual reconciliation after worker loss; automatic re-execution is forbidden"
  else if detectPortRecovery request && fixedLabReadScopeCompatible request [demoLabRoot] then runPortRecovery busy o value
  else if detectCPURecovery request && fixedLabReadScopeCompatible request [demoLabRoot] then runCPURecovery busy o value
  else if detectDiskRecovery request && fixedLabReadScopeCompatible request [demoLabRoot; demoGrowthPath] then runDiskRecovery busy o value
  else if negb (String.eqb (detectFileAction request) "") then runFileAction busy o order value (detectFileAction request) request
  else match parseMetricIntent request with
       | Ok intent => run_metrics value intent
       | Err e => if negb (o_Planner o) then ret (value, Some e) else run_general value
       end.

(** ** A run *)

(** The deferred function that records a failure. *)
Definition record_failure (value : Task) (e : error) : Action Returned :=
  value <- Transition Failed (with_failure value (error_text e)) ;;
  try_ (background (save value)) ;;;
  try_ (background (event value TaskFailed [("error", JStr (error_text e))])) ;;;
  ret (value, Some e).

(** The deferred function that releases the claim. *)
Definition release (taskID token : string) (fence : Z) (r : Returned) : Action Returned :=
  released <- try_ (on_store (ReleaseTask busy taskID token fence)) ;;
  match released with
  | Ok value => ret (value, snd r)
  | Err e => ret (fst r, Some (match snd r with None => EWrap "release task worker lease: " e | Some e' => e' end))
  end.

Definition claimed_run (taskID : string) (value : Task) (request token : string) : Action Returned :=
  outcome <- try_ (choose_workflow value request) ;;
  let fence := wl_Fence (tk_WorkerLease value) in
  match outcome with
  | Err e => release taskID token fence (value, None) ;;; throw e
  | Ok (value', failed) =>
    r <- (match failed with None => ret (value', None) | Some e => record_failure value' e end) ;;
    release taskID token fence r
  end.

Definition find_or_prepare (taskID sessionID request : string) : Action Returned :=
  found <- try_ (on_store (GetTask taskID)) ;;
  match found with
  | Ok value => ret (value, None)
  | Err e =>
    if errors_is_sentinel e "not found" then Prepare_ taskID sessionID request
    else ret (zero_task, Some e)
  end.

Definition Run (taskID sessionID request : string) : Action Returned :=
  let! (value, failed) := find_or_prepare taskID sessionID request in
  match failed with
  | Some e => ret (zero_task, Some e)
  | None =>
    if negb (String.eqb (tk_SessionID value) sessionID) || negb (String.eqb (tk_OriginalRequest value) request)
    then fail value "prepared task does not match request"
    else
      let* _ := ensureInitialTrace value or value in
      if terminalTask (tk_State value) || String.eqb (tk_State value) WaitingApproval then ret (value, None)
      else
        token <- new_id "lease" ;;
        let workerID := if String.eqb (TrimSpace (o_WorkerID o)) "" then "safeops-worker" else TrimSpace (o_WorkerID o) in
        let* value := on_store (ClaimTask busy taskID workerID token leaseTTL) or value in
        claimed_run taskID value request token
  end.

(** ** After a crash *)

(** The wait for the lease of another worker; it ends when the context
    does. *)
Definition await_lease (value : Task) : Action unit :=
  if negb (String.eqb (wl_Token (tk_WorkerLease value)) "") then
    t <- now ;;
    if t <? wl_ExpiresAt (tk_WorkerLease value) then ctx_check else ret tt
  else ret tt.

Fixpoint recover_tasks (values : list Task) (failures : list error) : Action (list error) :=
  match values with
  | [] => ret failures
  | value :: values =>
    if terminalTask (tk_State value) || String.eqb (tk_State value) WaitingApproval then recover_tasks values failures
    else
      waited <- try_ (await_lease value) ;;
      match waited with
      | Err e => ret (failures ++ [e])
      | Ok _ =>
        let! (_, failed) := Run (tk_ID value) (tk_SessionID value) (tk_OriginalRequest value) in
        recover_tasks values
          (failures ++ match failed with Some e => [EWrap ("recover task " +:+ tk_ID value +:+ ": ") e] | None => [] end)
      end
  end.

Definition RecoverIncomplete : Action (list error) :=
  listed <- try_ (on_store ListTasks) ;;
  match listed with
  | Err e => ret [e]
  | Ok values => recover_tasks values []
  end.
End Orchestrate.
