(* ===== verification/Resume.v ===== *)
(** * [internal/agent/approval_resume.go]: a decided approval takes effect

    The task that waits for an approval is cancelled when the approval was
    rejected or ran out; when it was granted, the stored envelope goes to the
    executor and the task ends with what the executor verified.  The executor
    and what continues a workflow after its action are the interfaces
    [ActionExecutor] and [ActionContinuation] of the code.  The model also
    keeps the list of the envelopes that went to the executor.  Decoding the
    stored envelope ([encoding/json] with unknown fields refused) is the class
    [EnvelopeDecoder]; times drawn inside an update's callback are drawn
    before it. *)

From S2P Require Import Prelude GoStrings GoText GoPath Json Hash Contracts Guard Approval Nonce Targets Executor Handlers Store Planner Scope Agent Prepare.
Open Scope Z_scope.

Class EnvelopeDecoder := decode_envelope : json -> result ActionEnvelope.

Record ResumeState (T H X Y : Type) := MkResumeState {
  rm_agent : AgentState T H X;
  rm_executor : Y;
  rm_executed : list ActionEnvelope
}.
Arguments MkResumeState {T H X Y}.
Arguments rm_agent {T H X Y}.
Arguments rm_executor {T H X Y}.
Arguments rm_executed {T H X Y}.

Record ApprovalResumer (T H X Y : Type) := MkApprovalResumer {
  ar_Executor : option (ActionEnvelope -> M Y Result);
  ar_Trace : bool;
  ar_Continuation : option (Task -> ActionEnvelope -> Result -> M (AgentState T H X) ((Task * bool) * option error))
}.
Arguments MkApprovalResumer {T H X Y}.
Arguments ar_Executor {T H X Y}.
Arguments ar_Trace {T H X Y}.
Arguments ar_Continuation {T H X Y}.

Definition verification_json (v : Verification) : json :=
  JObj [("verified", JBool (vf_Verified v)); ("checks", strings (vf_Checks v)); ("evidence", JMap (JStr <$> vf_Evidence v))].

Definition result_json `{TimeText} (r : Result) : json :=
  JObj ([("tool", JStr (rs_Tool r)); ("mode", JStr (rs_Mode r)); ("status", JStr (rs_Status r)); ("message", JStr (rs_Message r))]
    ++ omit (String.eqb (rs_ActionID r) "") "action_id" (JStr (rs_ActionID r))
    ++ [("changed", JBool (rs_Changed r))]
    ++ match rs_Verification r with Some v => [("verification", verification_json v)] | None => [] end
    ++ [("started_at", JStr (time_text (rs_StartedAt r))); ("finished_at", JStr (time_text (rs_FinishedAt r)))]).

Definition DryRun : string := "DRY_RUN".

(** The task at its current step when the action is verified. *)
Definition step_completed (value : Task) : Task :=
  let index := Z.to_nat (tk_CurrentStep value) in
  match if 0 <=? tk_CurrentStep value then tk_Plan value !! index else None with
  | None => value
  | Some s =>
    let completed := if negb (String.eqb (sp_ID s) "") && negb (string_in (sp_ID s) (tk_CompletedSteps value))
                     then tk_CompletedSteps value ++ [sp_ID s] else tk_CompletedSteps value in
    with_plan value (<[index := MkStep (sp_ID s) (sp_Description s) (sp_Tool s) "COMPLETED"]> (tk_Plan value))
      (tk_CurrentStep value) completed
  end.

Definition evidence_of (result : Result) (name : string) : string :=
  match rs_Verification result with Some v => default "" (vf_Evidence v !! name) | None => "" end.

(** The session after a file action. *)
Definition file_context (tool path : string) (result : Result) (t : Z) (s : Session) : Prelude.result Session :=
  let original := evidence_of result "original_path" in
  let quarantined := evidence_of result "quarantined_path" in
  let quarantineID := evidence_of result "quarantine_id" in
  let created := evidence_of result "path" in
  let updated pinned selected :=
    Ok (MkSession (sn_ID s) (sn_Name s) (sn_Archived s) (sn_Messages s) (sn_Summary s) pinned selected (sn_CreatedAt s) t) in
  if String.eqb tool "file.create" then
    fail_if String.eqb created "" || negb (String.eqb created path)
    with EMsg "verified create evidence does not match the approved target" ;;
    updated (sn_PinnedContext s) (if string_in created (sn_SelectedResources s) then sn_SelectedResources s
                                  else sn_SelectedResources s ++ [created])
  else if String.eqb tool "file.quarantine" || String.eqb tool "file.delete" then
    fail_if String.eqb original "" || String.eqb quarantined "" || String.eqb quarantineID "" || negb (String.eqb original path)
    with EMsg "verified quarantine evidence does not match the approved target" ;;
    updated (<["quarantine_path:" +:+ original := quarantined]> (<["quarantine_id:" +:+ original := quarantineID]> (sn_PinnedContext s)))
      (sn_SelectedResources s)
  else if String.eqb tool "file.restore_quarantine" then
    fail_if String.eqb original "" || String.eqb quarantined "" || String.eqb quarantineID "" || negb (String.eqb quarantined path)
    with EMsg "verified restore evidence does not match the approved target" ;;
    updated (delete ("quarantine_path:" +:+ original) (delete ("quarantine_id:" +:+ original) (sn_PinnedContext s)))
      (sn_SelectedResources s)
  else updated (sn_PinnedContext s) (sn_SelectedResources s).

Definition context_tools : list string := ["file.create"; "file.quarantine"; "file.delete"; "file.restore_quarantine"].

Section Resume.
Context {T H X Y : Type} `{TraceSink T} `{TimeText} `{EnvelopeDecoder} (busy : nat) (r : ApprovalResumer T H X Y).

Abbreviation Action A := (M (ResumeState T H X Y) A).

Definition on_agent {A} : M (AgentState T H X) A -> Action A :=
  zoom rm_agent (fun v s => MkResumeState v (rm_executor s) (rm_executed s)).
Definition on_executor {A} : M Y A -> Action A :=
  zoom rm_executor (fun v s => MkResumeState (rm_agent s) v (rm_executed s)).
Definition note_executed (e : ActionEnvelope) (s : ResumeState T H X Y) : ResumeState T H X Y :=
  MkResumeState (rm_agent s) (rm_executor s) (rm_executed s ++ [e]).

Definition save (value : Task) : Action unit := on_agent (SaveTask_ busy value).
Definition append (value : Task) (typ : string) (data : Prelude.result json) : Action unit := on_agent (appendTrace value typ data).

(** Out to the executor, noted before it goes. *)
Definition execute (run : ActionEnvelope -> M Y Result) (envelope : ActionEnvelope) : Action Result :=
  modify (note_executed envelope) ;;; on_executor (run envelope).

Definition failExecution (value : Task) (cause : error) : Action Returned :=
  value <- Transition Failed (with_failure value (error_text cause)) ;;
  saved <- try_ (save value) ;;
  match saved with
  | Err e => ret (value, Some (EJoin cause e))
  | Ok _ =>
    try_ (append value Execution (payload [("phase", JStr "FINISHED"); ("status", JStr "FAILED"); ("error", JStr (error_text cause))])) ;;;
    try_ (append value TaskFailed (payload [("error", JStr (error_text cause))])) ;;;
    ret (value, Some cause)
  end.

Definition completeSession (value : Task) (answer : string) : Action unit :=
  message_id <- new_id "msg" ;;
  t1 <- now ;;
  t2 <- now ;;
  on_agent (on_store (UpdateSession busy (tk_SessionID value) (fun s =>
    Ok (MkSession (sn_ID s) (sn_Name s) (sn_Archived s)
          (sn_Messages s ++ [MkMessage message_id "assistant" answer (tk_ID value) t1]) (sn_Summary s) (sn_PinnedContext s)
          (sn_SelectedResources s) (sn_CreatedAt s) t2)))) ;;; ret tt.

Definition persistActionContext (value : Task) (envelope : ActionEnvelope) (result : Result) : Action unit :=
  if negb (String.eqb (rs_Mode result) LabSandbox) || negb (string_in (ap_Tool (ae_Proposal envelope)) context_tools)
  then ret tt
  else
    t <- now ;;
    on_agent (on_store (UpdateSession busy (tk_SessionID value)
      (file_context (ap_Tool (ae_Proposal envelope)) (ts_CanonicalPath (ae_TargetSnapshot envelope)) result t))) ;;; ret tt.

Definition finding_of (result : Result) : string :=
  if String.eqb (rs_Mode result) LabSandbox
  then "审批后 Lab 操作 " +:+ rs_Tool result +:+ " 已执行并验证（action_id=" +:+ rs_ActionID result +:+ "）"
  else "审批后 dry-run 执行边界校验通过；未修改系统".
Definition answer_of (result : Result) : string :=
  if String.eqb (rs_Mode result) LabSandbox
  then "审批已自动恢复任务；最小权限执行器完成并验证了 Lab 操作 " +:+ rs_Tool result +:+ "（action_id=" +:+ rs_ActionID result +:+ "）。"
  else "审批已自动恢复任务；最小权限执行器完成 dry-run 校验，未执行任何系统写操作。".

(** The end of a task whose action was verified. *)
Definition conclude (value : Task) (result : Result) : Action Returned :=
  completed <- try_ (completeSession value (answer_of result)) ;;
  match completed with
  | Err e => failExecution value (EWrap "persist post-action session context: " e)
  | Ok _ =>
    value <- Transition Completed value ;;
    let* _ := save value or value in
    let* _ := append value TaskCompleted (payload [("completion_criteria_met", JBool true);
                ("dry_run", JBool (String.eqb (rs_Mode result) DryRun)); ("execution_mode", JStr (rs_Mode result))]) or value in
    let* _ := append value Final (payload [("answer", JStr (answer_of result))]) or value in
    ret (value, None)
  end.

(** The workflow goes on, where it has more to do. *)
Definition continue_after (value : Task) (envelope : ActionEnvelope) (result : Result) : Action Returned :=
  match ar_Continuation r with
  | None => conclude value result
  | Some continuation =>
    outcome <- on_agent (continuation value envelope result) ;;
    let '(next, handled, failed) := outcome in
    match failed with
    | Some e => failExecution next (EWrap "continue approved workflow: " e)
    | None => if handled : bool then ret (next, None) else conclude value result
    end
  end.

Definition after_verification (value : Task) (envelope : ActionEnvelope) (result : Result) (sequence : Z) : Action Returned :=
  let value := step_completed (with_pending value None "") in
  let value := with_evidence value (tk_Findings value ++ [finding_of result]) (tk_SelectedResources value)
                 (tk_EvidenceRefs value ++ [evidence_ref value sequence]) in
  persisted <- try_ (persistActionContext value envelope result) ;;
  match persisted with
  | Err e => failExecution value (EWrap "persist post-action session context: " e)
  | Ok _ => continue_after value envelope result
  end.

Definition is_restore (envelope : ActionEnvelope) : bool := String.eqb (ap_Tool (ae_Proposal envelope)) "file.restore_quarantine".

(** [if tool == "file.restore_quarantine"] append to the trace. *)
Definition append_restore (envelope : ActionEnvelope) (value : Task) (data : Prelude.result json) : Action unit :=
  if is_restore envelope then append value Rollback data else ret tt.

Definition after_execution (value : Task) (envelope : ActionEnvelope) (result : Result) : Action Returned :=
  let* sequence := on_agent (on_trace (trace_append (tk_ID value) (tk_SessionID value) Execution
                     (payload [("phase", JStr "FINISHED"); ("result", result_json result)]))) or value in
  let* _ := append_restore envelope value (payload [("phase", JStr "FINISHED"); ("status", JStr (rs_Status result));
              ("action_id", JStr (rs_ActionID result));
              ("verification", match rs_Verification result with Some v => verification_json v | None => JNull end)]) or value in
  value <- Transition Verifying value ;;
  let* _ := save value or value in
  match rs_Verification result with
  | Some verification =>
    if negb (vf_Verified verification)
    then failExecution value (EMsg "real execution result has no registered verification strategy")
    else
      let* _ := append value VerificationResult (payload [("verified", JBool true);
                  ("dry_run", JBool (String.eqb (rs_Mode result) DryRun)); ("result_status", JStr (rs_Status result));
                  ("checks", strings (vf_Checks verification)); ("evidence", JMap (JStr <$> vf_Evidence verification))]) or value in
      after_verification value envelope result sequence
  | None => failExecution value (EMsg "real execution result has no registered verification strategy")
  end.

Definition decode_pending (value : Task) : Prelude.result ActionEnvelope :=
  wrap_err "decode pending ActionEnvelope: "
    (match tk_PendingAction value with Some j => decode_envelope j | None => Err (EMsg "EOF") end).

Definition started_payload (record : ApprovalRecord) (envelope : ActionEnvelope) (more : list (string * json)) : Prelude.result json :=
  payload ([("phase", JStr "STARTED"); ("approval_id", JStr (ar_ID record)); ("tool", JStr (ap_Tool (ae_Proposal envelope)));
            ("target", target_json (ap_Target (ae_Proposal envelope)))] ++ more).

Definition executeApproved (value : Task) (record : ApprovalRecord) : Action Returned :=
  match ar_Executor r with
  | None => fail value "approval resumer executor is not configured"
  | Some run =>
    match decode_pending value with
    | Err e => failExecution value e
    | Ok envelope =>
      if negb (String.eqb (ae_TaskID envelope) (tk_ID value)) || negb (String.eqb (ae_SessionID envelope) (tk_SessionID value))
         || negb (String.eqb (ae_ApprovalID envelope) (ar_ID record))
      then failExecution value (EMsg "pending ActionEnvelope correlation mismatch")
      else
        value <- Transition Executing value ;;
        let* _ := save value or value in
        let* _ := append value Execution (started_payload record envelope
                    [("proposal_id", JStr (ap_ProposalID (ae_Proposal envelope)))]) or value in
        let* _ := append_restore envelope value (started_payload record envelope []) or value in
        executed <- try_ (execute run envelope) ;;
        match executed with
        | Err e => failExecution value e
        | Ok result => after_execution value envelope result
        end
    end
  end.

Definition terminal (state : string) : bool :=
  String.eqb state Completed || String.eqb state Cancelled || String.eqb state Failed.

Definition cancel_task (value : Task) (record : ApprovalRecord) : Action Returned :=
  let reason := "approval " +:+ ar_Status record in
  value <- Transition Cancelled (with_failure (with_pending value None "") reason) ;;
  let* _ := save value or value in
  let* _ := append value TaskCancelled (payload [("reason", JStr reason); ("approval_id", JStr (ar_ID record))]) or value in
  ret (value, None).

Definition Resume (record : ApprovalRecord) : Action Returned :=
  let* value := on_agent (on_store (GetTask (bd_TaskID (ar_Binding record)))) or zero_task in
  if negb (String.eqb (tk_PendingApprovalID value) (ar_ID record)) then fail value "task pending approval binding mismatch"
  else if negb (String.eqb (tk_State value) WaitingApproval) then
    if terminal (tk_State value) then ret (value, None)
    else fail value ("task is " +:+ tk_State value +:+ ", not WAITING_APPROVAL")
  else if negb (ar_Trace r) then fail value "approval resumer trace is not configured"
  else
    let* _ := append value ApprovalResolved (payload [("phase", JStr "RESULT"); ("approval_id", JStr (ar_ID record));
                ("status", JStr (ar_Status record)); ("reason", JStr (ar_Reason record)); ("binding", binding_json (ar_Binding record))]) or value in
    if String.eqb (ar_Status record) Rejected || String.eqb (ar_Status record) Expired then cancel_task value record
    else if String.eqb (ar_Status record) Approved then
      let* _ := append value TaskResumed (payload [("approval_id", JStr (ar_ID record)); ("checkpoint", JInt (tk_Checkpoint value));
                  ("pending_tool", JStr (bd_Tool (ar_Binding record)))]) or value in
      executeApproved value record
    else fail value ("approval status " +:+ ar_Status record +:+ " cannot resume a task").
End Resume.

(** ** An approval is carried out at most once *)
Definition waits (st : Store) (id approval : string) : Prop :=
  exists v, has tasks id v st /\ tk_State v = WaitingApproval /\ tk_PendingApprovalID v = approval.

(** The tasks are in the files of their names, each approval one waits for
    has its record, and no journal makes a task wait. *)
Record sound {T H X} (a : AgentState T H X) : Prop := {
  so_named : forall id v, has tasks id v (as_store a) -> tk_ID v = id;
  so_recorded : forall id approval, waits (as_store a) id approval -> is_Some (as_approvals a !! approval);
  so_journals : forall name r, has state name r (as_store a) -> tk_State (tp_Task r) <> WaitingApproval
}.

(** The approval ids an environment draws. *)
Definition drawn (E : Env) (approval : string) : Prop := exists n, approval = "approval" +:+ "_" +:+ rand E n.

(** What an implementation of [ActionContinuation] may do: the approvals
    tasks newly wait for are requested now, under ids of [new]. *)
Record goes_on {T H X} (new : string -> Prop) (a a' : AgentState T H X) : Prop := {
  go_sound : sound a -> sound a';
  go_records : forall approval, is_Some (as_approvals a !! approval) -> is_Some (as_approvals a' !! approval);
  go_new : forall id approval, waits (as_store a') id approval ->
    waits (as_store a) id approval \/ new approval
}.

#[export] Instance goes_on_preorder {T H X} new : PreOrder (@goes_on T H X new).
Proof.
  split; [by split; auto|]. intros a b c [S1 R1 N1] [S2 R2 N2]. split; [auto|auto|]. intros id ap Hw.
  destruct (N2 id ap Hw) as [Hb|Hn]; [by apply N1|by right].
Qed.

(** Saving a task that does not wait for an approval. *)
Lemma waits_put st v id approval : tk_State v <> WaitingApproval -> waits (put tasks (tk_ID v) v st) id approval -> waits st id approval.
Proof.
  intros Hv (w&Hw&Hs&Hp). unfold has in Hw. cbn in Hw. apply lookup_insert_Some in Hw as [[_ [= <-]]|[_ Hw]]; [done|].
  by exists w.
Qed.

Lemma goes_on_put {T H X} new (a : AgentState T H X) v : tk_State v <> WaitingApproval ->
  goes_on new a (MkAgentState (put tasks (tk_ID v) v (as_store a)) (as_trace a) (as_approvals a) (as_host a) (as_outside a) (as_calls a)).
Proof.
  intros Hv. split; cbn [as_store as_approvals]; [|done|intros id ap Hw; left; by eapply waits_put].
  intros [Hn Hr Hj]. split; cbn [as_store as_approvals]; [| |exact Hj].
  - intros id w Hw. unfold has in Hw. cbn in Hw. apply lookup_insert_Some in Hw as [[<- [= <-]]|[_ Hw]]; [done|by apply Hn].
  - intros id ap Hw. eapply Hr, waits_put; [exact Hv|exact Hw].
Qed.

Lemma goes_on_same {T H X} new (a a' : AgentState T H X) :
  st_tasks (as_store a') = st_tasks (as_store a) -> st_state (as_store a') = st_state (as_store a) ->
  as_approvals a' = as_approvals a -> goes_on new a a'.
Proof.
  intros Hst Hj Hap.
  assert (Hw : forall id ap, waits (as_store a') id ap <-> waits (as_store a) id ap).
  { intros id ap. unfold waits, has. cbn. by rewrite Hst. }
  split; rewrite ?Hap; [|done|intros id ap Hi; left; by apply Hw].
  intros [Hn Hr Hjs]. split; rewrite ?Hap; [|intros id ap Hi; eapply Hr, Hw, Hi|].
  2: { intros name r. unfold has. cbn. rewrite Hj. apply Hjs. }
  intros id v Hv. apply (Hn id v). unfold has in *. cbn in *. by rewrite <- Hst.
Qed.

Section Once.
Context {T H X Y : Type} `{TraceSink T} `{TimeText} `{EnvelopeDecoder} (busy : nat) (r : ApprovalResumer T H X Y).

Section One.
Context (E : Env).

(** [ar_Continuation] keeps to [goes_on]. *)
Context (Hcontinuation : forall k value envelope result, ar_Continuation r = Some k ->
  forall a, wp E (k value envelope result) (fun _ a' => goes_on (drawn E) a a') a).

Abbreviation Action A := (M (ResumeState T H X Y) A).

(** Parts that execute nothing. *)
Definition moves (s s' : ResumeState T H X Y) : Prop :=
  goes_on (drawn E) (rm_agent s) (rm_agent s') /\ rm_executed s' = rm_executed s.

#[local] Instance moves_preorder : PreOrder moves.
Proof. split; [by split|]. intros a b c [H1' E1] [H2' E2]. split; [by etrans|congruence]. Qed.

Definition part {A} (m : Action A) : Prop := forall s, wp E m (fun _ s' => moves s s') s.

Lemma part_agent {A} (m : M (AgentState T H X) A) : (forall a, wp E m (fun _ a' => goes_on (drawn E) a a') a) -> part (on_agent m).
Proof. intros Hm s. apply wp_zoom. eapply wp_mono; [apply Hm|]. by split. Qed.

Lemma part_save v : tk_State v <> WaitingApproval -> part (save busy v).
Proof.
  intros Hv. apply part_agent. intros a. apply wp_zoom. eapply wp_mono; [apply SaveTask_changes|].
  intros res st [_ [->| ->]]; [by apply goes_on_same|by apply goes_on_put].
Qed.

Lemma part_trace {A} (m : M T A) : part (on_agent (on_trace m)).
Proof. apply part_agent. intros a. apply wp_zoom, wp_any. intros _ tr. by apply goes_on_same. Qed.

Lemma part_append v typ data : part (append v typ data).
Proof. apply part_agent. intros a. unfold appendTrace. wp_step. apply wp_zoom, wp_any. intros [n|e] tr; [wp_step|]; by apply goes_on_same. Qed.

Lemma part_session id f : part (on_agent (on_store (UpdateSession busy id f))).
Proof. apply part_agent. intros a. apply wp_zoom. eapply wp_mono; [apply UpdateSession_tasks|]. intros res st [Hst Hj]. by apply goes_on_same. Qed.

Lemma part_ret {A} (a : A) : part (ret a).
Proof. intros s. apply wp_ret. reflexivity. Qed.
Lemma part_bind {A B} (m : Action A) (k : A -> Action B) : part m -> (forall a, part (k a)) -> part (bind m k).
Proof.
  intros Hm Hk s. apply wp_bind. eapply wp_mono; [apply Hm|]. intros [a|e] s1 H1'; [|done].
  eapply wp_mono; [apply Hk|]. intros res s2 H2'. by etrans.
Qed.
Lemma part_try {A B} (m : Action A) (k : Prelude.result A -> Action B) : part m -> (forall a, part (k a)) -> part (bind (try_ m) k).
Proof. intros Hm. apply part_bind. intros s. apply wp_try, Hm. Qed.
Lemma part_attempt {A B} (value : B) (m : Action A) k : part m -> (forall a, part (k a)) -> part (attempt value m k).
Proof. intros Hm Hk. apply part_try; [done|]. intros [a|e]; [done|apply part_ret]. Qed.
Lemma part_now {B} (k : Z -> Action B) : (forall t, part (k t)) -> part (bind now k).
Proof. apply part_bind. intros s. apply wp_now. intros n. reflexivity. Qed.
Lemma part_new_id {B} p (k : string -> Action B) : (forall i, part (k i)) -> part (bind (new_id p) k).
Proof. apply part_bind. intros s. apply wp_new_id. intros n. reflexivity. Qed.
Lemma part_transition {B} state v (k : Task -> Action B) :
  (forall t, part (k (task_with v state (tk_WorkerLease v) (tk_Checkpoint v + 1) t))) -> part (bind (Transition state v) k).
Proof. intros Hk s. wp_step. unfold Transition. wp_step. wp_step. wp_step. apply Hk. Qed.

Create HintDb part.
#[local] Hint Resolve part_append part_trace part_session part_ret : part.

Ltac part_step :=
  lazymatch goal with
  | |- part (ret _) => apply part_ret
  | |- part (fail _ _) => apply part_ret
  | |- part (attempt _ _ _) => apply part_attempt; [|intros ?]
  | |- part (bind now _) => apply part_now; intros ?
  | |- part (bind (new_id _) _) => apply part_new_id; intros ?
  | |- part (bind (Transition _ _) _) => apply part_transition; intros ?
  | |- part (bind (try_ _) _) => apply part_try; [|intros ?]
  | |- part (save _ _) => apply part_save; discriminate
  | |- part (bind _ _) => apply part_bind; [|intros ?]
  | |- part (match ?x with _ => _ end) => destruct x
  | |- part _ => by eauto with part
  end.
Ltac part_walk := cbv zeta; repeat (part_step; cbv zeta).

Lemma part_failed v cause : part (failExecution busy v cause).
Proof. unfold failExecution. part_walk. Qed.
#[local] Hint Resolve part_failed : part.

Lemma part_complete v answer : part (completeSession busy v answer).
Proof. unfold completeSession. part_walk. Qed.
Lemma part_persist v envelope result : part (persistActionContext busy v envelope result).
Proof. unfold persistActionContext. part_walk. Qed.
Lemma part_append_restore envelope v data : part (append_restore envelope v data).
Proof. unfold append_restore. part_walk. Qed.
#[local] Hint Resolve part_complete part_persist part_append_restore : part.

Lemma part_conclude v result : part (conclude busy v result).
Proof. unfold conclude. part_walk. Qed.
#[local] Hint Resolve part_conclude : part.

Lemma part_continue v envelope result : part (continue_after busy r v envelope result).
Proof.
  unfold continue_after. destruct (ar_Continuation r) as [k|] eqn:Hk; [|auto with part].
  apply part_bind; [|intros [[next handled] failed]; part_walk].
  apply part_agent. intros a. by apply Hcontinuation.
Qed.
#[local] Hint Resolve part_continue : part.

Lemma part_after_verification v envelope result n : part (after_verification busy r v envelope result n).
Proof. unfold after_verification. part_walk. Qed.
#[local] Hint Resolve part_after_verification : part.

Lemma part_after v envelope result : part (after_execution busy r v envelope result).
Proof. unfold after_execution. part_walk. Qed.
#[local] Hint Resolve part_after : part.

Lemma part_cancel v record : part (cancel_task busy v record).
Proof. unfold cancel_task. part_walk. Qed.
#[local] Hint Resolve part_cancel : part.

(** *** One resumption *)
Definition pending (record : ApprovalRecord) (s : ResumeState T H X Y) (v : Task) (e : ActionEnvelope) : Prop :=
  has tasks (bd_TaskID (ar_Binding record)) v (as_store (rm_agent s)) /\ tk_State v = WaitingApproval /\
  tk_PendingApprovalID v = ar_ID record /\ ar_Status record = Approved /\ decode_pending v = Ok e /\
  ae_TaskID e = tk_ID v /\ ae_SessionID e = tk_SessionID v /\ ae_ApprovalID e = ar_ID record.

(** It executes nothing, or the envelope of the task that waits for the
    approval, after the task was stored as no longer waiting. *)
Definition resumed (record : ApprovalRecord) (s s' : ResumeState T H X Y) : Prop :=
  moves s s' \/
  exists v e s1, pending record s v e /\ moves s s1 /\ (forall approval, ~ waits (as_store (rm_agent s1)) (tk_ID v) approval) /\
    goes_on (drawn E) (rm_agent s1) (rm_agent s') /\ rm_executed s' = rm_executed s ++ [e].

Lemma wp_part {A} (m : Action A) (Q : Prelude.result A -> ResumeState T H X Y -> Prop) s :
  part m -> (forall res s', moves s s' -> Q res s') -> wp E m Q s.
Proof. intros Hm HQ. eapply wp_mono; [apply Hm|done]. Qed.

Lemma wp_part_attempt {A B} (value : B) (m : Action A) k (Q : Prelude.result (B * option error) -> ResumeState T H X Y -> Prop) s :
  part m -> (forall e s', moves s s' -> Q (Ok (value, Some e)) s') ->
  (forall a s', moves s s' -> wp E (k a) Q s') -> wp E (attempt value m k) Q s.
Proof.
  intros Hm He Hk. unfold attempt. apply wp_bind, wp_try. apply wp_part; [done|]. intros [a|e] s' Hs; [by apply Hk|].
  apply wp_ret. by apply He.
Qed.

Lemma wp_save_executing v s (Q : Prelude.result unit -> ResumeState T H X Y -> Prop) : tk_State v <> WaitingApproval ->
  (forall s', moves s s' -> (forall approval, ~ waits (as_store (rm_agent s')) (tk_ID v) approval) -> Q (Ok tt) s') ->
  (forall e s', moves s s' -> Q (Err e) s') -> wp E (save busy v) Q s.
Proof.
  intros Hv Hok Herr. unfold save, on_agent. apply wp_zoom. unfold SaveTask_. apply wp_zoom.
  eapply wp_mono; [apply SaveTask_changes|]. intros [[]|e] st [Hput Hst].
  - rewrite (Hput eq_refl). apply Hok; [by split; [apply goes_on_put|]|]. intros ap (w&Hw&Hs&_). unfold has in Hw. cbn in Hw.
    rewrite lookup_insert_eq in Hw. by injection Hw as <-.
  - apply Herr. split; [|done]. destruct Hst as [-> | ->]; [by apply goes_on_same|by apply goes_on_put].
Qed.

Lemma wp_executeApproved v record s s0 : moves s s0 ->
  has tasks (bd_TaskID (ar_Binding record)) v (as_store (rm_agent s)) -> tk_State v = WaitingApproval ->
  tk_PendingApprovalID v = ar_ID record -> ar_Status record = Approved ->
  wp E (executeApproved busy r v record) (fun _ s' => resumed record s s') s0.
Proof.
  intros Hm0 Hv Hs Hp Hst. unfold executeApproved. destruct (ar_Executor r) as [run|]; [|by apply wp_ret; left].
  destruct (decode_pending v) as [e|err] eqn:Hd; [|apply wp_part; [apply part_failed|left; by etrans]].
  destruct (_ || _) eqn:Hids; [apply wp_part; [apply part_failed|left; by etrans]|].
  apply orb_false_iff in Hids as [[Ht Hse]%orb_false_iff Ha]. apply negb_false_iff, String.eqb_eq in Ht, Hse, Ha.
  unfold Transition. do 4 wp_step. apply wp_attempt. apply wp_save_executing; [done| |intros; left; by etrans].
  intros s1 Hm1' Hw1. assert (Hm1 : moves s s1) by by etrans. clear Hm1'. apply wp_part_attempt; [apply part_append|intros; left; by etrans|]. intros _ s2 Hm2.
  apply wp_part_attempt; [apply part_append_restore|intros; left; by (etrans; [|etrans])|]. intros _ s3 Hm3.
  assert (Hm : moves s1 s3) by by etrans.
  wp_step. wp_step. unfold execute. wp_step. wp_step. apply wp_zoom, wp_any. intros res y.
  assert (Hgo : forall s', moves (MkResumeState (rm_agent s3) y (rm_executed s3 ++ [e])) s' -> resumed record s s').
  { intros s' [Hg He]. right. exists v, e, s1. split; [by split_and!|]. split; [done|]. split; [done|]. cbn in Hg, He.
    split; [etrans; [apply Hm|exact Hg]|]. by rewrite He, (proj2 Hm), (proj2 Hm1). }
  destruct res as [result|err]; apply wp_part; [apply part_after|auto|apply part_failed|auto].
Qed.

Lemma wp_Resume record s : wp E (Resume busy r record) (fun _ s' => resumed record s s') s.
Proof.
  unfold Resume. unfold attempt at 1. apply wp_bind, wp_try, wp_zoom, wp_zoom, wp_get_record.
  2: { intros e. apply wp_ret. left. split; [by apply goes_on_same|done]. }
  intros v Hv. set (s0 := MkResumeState _ _ _). assert (Hm0 : moves s s0) by (split; [by apply goes_on_same|done]).
  assert (Hquiet : forall s', moves s0 s' -> resumed record s s') by (intros s' Hm; left; by etrans).
  destruct (negb (String.eqb (tk_PendingApprovalID v) _)) eqn:Hp; [by apply wp_ret, Hquiet|].
  destruct (negb (String.eqb (tk_State v) _)) eqn:Hs; [destruct (terminal _); by apply wp_ret, Hquiet|].
  apply negb_false_iff, String.eqb_eq in Hp, Hs.
  destruct (negb _); [by apply wp_ret, Hquiet|].
  apply wp_part_attempt; [apply part_append|intros; by apply Hquiet|]. intros _ s1 Hm1.
  destruct (_ || _); [apply wp_part; [apply part_cancel|intros; apply Hquiet; by etrans]|].
  destruct (String.eqb (ar_Status record) Approved) eqn:Hst; [|by apply wp_ret, Hquiet].
  apply String.eqb_eq in Hst.
  apply wp_part_attempt; [apply part_append|intros; apply Hquiet; by etrans|]. intros _ s2 Hm2.
  eapply wp_executeApproved; [by (etrans; [|etrans])|done..].
Qed.

End One.

(** *** Any number of resumptions *)
Context (Hcontinuation : forall E k value envelope result, ar_Continuation r = Some k ->
  forall a, wp E (k value envelope result) (fun _ a' => goes_on (drawn E) a a') a).

Definition key_of (e : ActionEnvelope) : string * string := (ae_TaskID e, ae_ApprovalID e).

(** Each in an environment of its own: failures and crashes anywhere. *)
Fixpoint resume_all (l : list (Env * ApprovalRecord)) (s : ResumeState T H X Y) : ResumeState T H X Y :=
  match l with
  | [] => s
  | (E, record) :: l => resume_all l (st (Resume busy r record E (init_world s)).2)
  end.

(** The ids drawn in a step are not those of existing records. *)
Definition fresh_step (E : Env) (s : ResumeState T H X Y) : Prop :=
  fresh_for E (fun id => is_Some (as_approvals (rm_agent s) !! id)).

Definition fresh_steps (l : list (Env * ApprovalRecord)) (s : ResumeState T H X Y) : Prop :=
  forall l1 E record l2, l = l1 ++ (E, record) :: l2 -> fresh_step E (resume_all l1 s).

Record spent (s : ResumeState T H X Y) : Prop := {
  sp_sound : sound (rm_agent s);
  sp_once : NoDup (map key_of (rm_executed s));
  sp_done : forall e, e ∈ rm_executed s -> ~ waits (as_store (rm_agent s)) (ae_TaskID e) (ae_ApprovalID e)
              /\ is_Some (as_approvals (rm_agent s) !! ae_ApprovalID e)
}.

Lemma goes_on_waits E (a a' : AgentState T H X) id approval : goes_on (drawn E) a a' -> ~ drawn E approval ->
  ~ waits (as_store a) id approval -> ~ waits (as_store a') id approval.
Proof. intros [_ _ N] Hd Hw Hw'. by destruct (N id approval Hw'). Qed.

Lemma fresh_known E s approval : fresh_step E s -> is_Some (as_approvals (rm_agent s) !! approval) -> ~ drawn E approval.
Proof. intros Hf Hr [n ->]. by apply (Hf n). Qed.

Lemma spent_moves E s s' : fresh_step E s -> moves E s s' -> spent s -> spent s'.
Proof.
  intros Hf [Hg He] [S1 S2 S3]. split; rewrite ?He; [by apply Hg|done|]. intros e Hin. destruct (S3 e Hin) as [Hw Hr].
  split; [|by apply Hg]. eapply goes_on_waits; [exact Hg|by eapply fresh_known|done].
Qed.

Lemma spent_resumed E record s s' : fresh_step E s -> resumed E record s s' -> spent s -> spent s'.
Proof.
  intros Hf [Hm|(v&e&s1&(P1&P2&P3&P4&P5&P6&P7&P8)&Hm&Hw&Hg&He)] Hs; [by eapply spent_moves|].
  pose proof (spent_moves _ _ _ Hf Hm Hs) as [S1 S2 S3]. destruct Hs as [[N0 R0 _] _ D0].
  assert (Hwait : waits (as_store (rm_agent s)) (ae_TaskID e) (ae_ApprovalID e)).
  { exists v. rewrite P6, P8. split; [|done]. by rewrite (N0 _ _ P1). }
  assert (Hrec0 : is_Some (as_approvals (rm_agent s) !! ae_ApprovalID e)) by by eapply R0.
  assert (Hrec : is_Some (as_approvals (rm_agent s1) !! ae_ApprovalID e)) by by apply Hm.
  assert (E1 : rm_executed s1 = rm_executed s) by apply Hm.
  assert (Hold : forall e', e' ∈ rm_executed s1 -> ~ drawn E (ae_ApprovalID e')).
  { intros e' Hin. rewrite E1 in Hin. eapply fresh_known; [exact Hf|]. by apply D0. }
  split; rewrite ?He; [by apply Hg| |].
  - rewrite map_app. apply NoDup_app. rewrite E1 in S2. split; [done|]. split; [|apply NoDup_singleton].
    intros k Hin Hk. apply list_elem_of_singleton in Hk as ->. apply list_elem_of_fmap in Hin as (e'&Hk'&Hin).
    unfold key_of in Hk'. injection Hk' as K1 K2. destruct (D0 e' Hin) as [Hd _]. apply Hd. by rewrite <- K1, <- K2.
  - intros e' [Hin|Hin%list_elem_of_singleton]%elem_of_app.
    + rewrite <- E1 in Hin. destruct (S3 e' Hin) as [Hd Hr]. split; [|by apply Hg].
      eapply goes_on_waits; [exact Hg|by apply Hold|done].
    + subst e'. split; [|by apply Hg]. eapply goes_on_waits; [exact Hg|by eapply fresh_known|]. rewrite P6. apply Hw.
Qed.

Lemma resume_all_app l1 l2 s : resume_all (l1 ++ l2) s = resume_all l2 (resume_all l1 s).
Proof. revert s. induction l1 as [|[E record] l1 IH]; intros s; [done|]. apply IH. Qed.

(** Whatever approvals are resumed, in any order, again and again, with any
    failures and crashes in between, each approval of a task sends at most one
    envelope to the executor; and each envelope sent is the one decoded from
    what its task had stored while it waited for that approval, of which the
    record says it was granted.  (A workflow that goes on asks for new
    approvals, under ids no record has.) *)
Theorem approval_executes_once (l : list (Env * ApprovalRecord)) (s : ResumeState T H X Y) :
  sound (rm_agent s) -> rm_executed s = [] -> fresh_steps l s ->
  NoDup (map key_of (rm_executed (resume_all l s))) /\
  forall e, e ∈ rm_executed (resume_all l s) -> exists l1 E record l2 v,
    l = l1 ++ (E, record) :: l2 /\ pending record (resume_all l1 s) v e.
Proof.
  intros Hs He Hfresh.
  enough (Hall : spent (resume_all l s) /\ forall e, e ∈ rm_executed (resume_all l s) -> exists l1 E record l2 v,
    l = l1 ++ (E, record) :: l2 /\ pending record (resume_all l1 s) v e) by (split; [apply Hall|apply Hall]).
  induction l as [|[E record] l IH] using rev_ind.
  { cbn [resume_all]. split; [split; [done|rewrite He; constructor|]|]; rewrite He; intros e Hin; by apply elem_of_nil in Hin. }
  destruct IH as [IH1 IH2].
  { intros l1 E' record' l2 ->. eapply (Hfresh l1 E' record' (l2 ++ [(E, record)])). by rewrite <- app_assoc. }
  assert (Hf : fresh_step E (resume_all l s)) by by apply (Hfresh l E record []).
  rewrite resume_all_app. cbn [resume_all].
  pose proof (wp_Resume E (Hcontinuation E) record (resume_all l s) (init_world (resume_all l s)) eq_refl) as Hr.
  cbv beta in Hr. split; [exact (spent_resumed _ _ _ _ Hf Hr IH1)|]. intros e Hin.
  assert (Hold : e ∈ rm_executed (resume_all l s) -> exists l1 E' record' l2 v,
    l ++ [(E, record)] = l1 ++ (E', record') :: l2 /\ pending record' (resume_all l1 s) v e).
  { intros Hin'. destruct (IH2 e Hin') as (l1&E'&record'&l2&v&->&Hp). exists l1, E', record', (l2 ++ [(E, record)]), v.
    split; [by rewrite <- app_assoc|done]. }
  destruct Hr as [[_ Hm]|(v&e'&s1&Hp&_&_&_&Hx)]; [rewrite Hm in Hin; auto|]. rewrite Hx in Hin.
  apply elem_of_app in Hin as [Hin|Hin%list_elem_of_singleton]; [auto|]. subst e'. by exists l, E, record, [], v.
Qed.

End Once.

(** ** What success means *)
Section Outcome.
Context {T H X Y : Type} `{TraceSink T} `{TimeText} `{EnvelopeDecoder} (busy : nat) (r : ApprovalResumer T H X Y).

Abbreviation Action A := (M (ResumeState T H X Y) A).

Definition same_store (s s' : ResumeState T H X Y) : Prop := as_store (rm_agent s') = as_store (rm_agent s).

#[local] Instance same_store_preorder : PreOrder same_store.
Proof. split; [done|]. intros a b c H1' H2'. unfold same_store in *. congruence. Qed.

Lemma wp_append E v typ data (Q : Prelude.result unit -> ResumeState T H X Y -> Prop) s :
  (forall res s', same_store s s' -> Q res s') -> wp E (append v typ data) Q s.
Proof.
  intros HQ. unfold append, on_agent, appendTrace, on_trace. apply wp_zoom. wp_step. apply wp_zoom, wp_any.
  intros [n|e] tr; [wp_step|]; by apply HQ.
Qed.

Definition stored (state : string) (v : Task) (s : ResumeState T H X Y) : Prop :=
  tk_State v = state /\ has tasks (tk_ID v) v (as_store (rm_agent s)).

Lemma wp_save_stored E v s (Q : Prelude.result unit -> ResumeState T H X Y -> Prop) :
  (forall s', stored (tk_State v) v s' -> Q (Ok tt) s') -> (forall e s', Q (Err e) s') -> wp E (save busy v) Q s.
Proof.
  intros Hok Herr. unfold save, on_agent. apply wp_zoom. unfold SaveTask_. apply wp_zoom.
  eapply wp_mono; [apply SaveTask_changes|]. intros [[]|e] st [Hput _]; [|apply Herr]. apply Hok. split; [done|].
  cbn. rewrite (Hput eq_refl). apply has_task.
Qed.

Definition on_success (P : Task -> ResumeState T H X Y -> Prop) (res : Prelude.result Returned) (s' : ResumeState T H X Y) : Prop :=
  forall v', res = Ok (v', None) -> P v' s'.

Lemma wp_failed E v cause P s : wp E (failExecution busy v cause) (on_success P) s.
Proof.
  unfold failExecution, Transition. do 4 wp_step. wp_step. wp_step. apply wp_any. intros [[]|e] s'; [|by apply wp_ret].
  apply wp_try_any. intros _ s1. apply wp_try_any. intros _ s2. by apply wp_ret.
Qed.

Lemma wp_saved_events E v P s (events : list (string * Prelude.result json)) :
  (forall s', stored (tk_State v) v s' -> P v s') ->
  wp E (let* _ := save busy v or v in
        foldr (fun ev k => let* _ := append v ev.1 ev.2 or v in k) (ret (v, None)) events) (on_success P) s.
Proof.
  intros HP. apply wp_attempt, wp_save_stored; [|done]. intros s' Hs'. clear s. revert s' Hs'.
  induction events as [|[typ data] events IH]; intros s Hs.
  - apply wp_ret. intros v' Hv. injection Hv as <-. by apply HP.
  - cbn [foldr fst snd]. apply wp_attempt, wp_append. intros [[]|e] s' Hsame; [|done]. apply IH.
    destruct Hs as [Ht Hh]. split; [done|]. by rewrite Hsame.
Qed.

Lemma wp_attempt_any {A} E (v : Task) (m : Action A) k P s :
  (forall a s', wp E (k a) (on_success P) s') -> wp E (attempt v m k) (on_success P) s.
Proof. intros Hk. apply wp_attempt, wp_any. intros [a|e] s'; [apply Hk|done]. Qed.

Lemma wp_conclude E v result P s :
  (forall v' s', stored Completed v' s' -> P v' s') -> wp E (conclude busy v result) (on_success P) s.
Proof.
  intros HP. unfold conclude. apply wp_try_any. intros [[]|e] s1; [|apply wp_failed]. unfold Transition. do 4 wp_step.
  apply (wp_saved_events E _ _ _ [(TaskCompleted, _); (Final, _)]). apply HP.
Qed.

Lemma wp_cancel E v record P s :
  (forall v' s', stored Cancelled v' s' -> P v' s') -> wp E (cancel_task busy v record) (on_success P) s.
Proof.
  intros HP. unfold cancel_task, Transition. cbv zeta. do 4 wp_step.
  apply (wp_saved_events E _ _ _ [(TaskCancelled, _)]). apply HP.
Qed.

(** The executor verified what it did, and the task is stored as completed or
    was handed to the workflow that goes on. *)
Definition verified (result : Result) : Prop := exists vf, rs_Verification result = Some vf /\ vf_Verified vf = true.
Definition handed_on (v' : Task) (envelope : ActionEnvelope) (result : Result) : Prop :=
  exists k v E w, ar_Continuation r = Some k /\ (k v envelope result E w).1 = Ok ((v', true), None).

Lemma wp_continue E v envelope result P s :
  (forall v' s', stored Completed v' s' \/ handed_on v' envelope result -> P v' s') ->
  wp E (continue_after busy r v envelope result) (on_success P) s.
Proof.
  intros HP. unfold continue_after. destruct (ar_Continuation r) as [k|] eqn:Hk; [|apply wp_conclude; auto].
  wp_step. unfold on_agent. apply wp_zoom. intros w Hw.
  destruct (k v envelope result E w).1 as [[[next handled] failed]|e] eqn:Hout; [|intros v' Hv; discriminate].
  destruct failed as [e|]; [apply wp_failed|]. destruct handled; [|apply wp_conclude; auto]. apply wp_ret.
  intros v' Hv. injection Hv as <-. apply HP. right. by exists k, v, E, w.
Qed.

Lemma wp_after E v envelope result P s :
  (forall v' s', verified result -> stored Completed v' s' \/ handed_on v' envelope result -> P v' s') ->
  wp E (after_execution busy r v envelope result) (on_success P) s.
Proof.
  intros HP. unfold after_execution. apply wp_attempt_any. intros n s1. apply wp_attempt_any. intros _ s2.
  unfold Transition. do 4 wp_step. apply wp_attempt_any. intros _ s3.
  destruct (rs_Verification result) as [vf|] eqn:Hvf; [|apply wp_failed].
  destruct (vf_Verified vf) eqn:Hver; [|apply wp_failed]. cbn [negb]. apply wp_attempt_any. intros _ s4.
  unfold after_verification. cbv zeta. apply wp_try_any. intros [[]|e] s5; [|apply wp_failed].
  apply wp_continue. intros v' s' Hv. apply HP; [by exists vf|done].
Qed.

Lemma wp_executeApproved_ok E v record P s :
  (forall v' s' run envelope result, ar_Executor r = Some run -> decode_pending v = Ok envelope ->
     (exists E w, (run envelope E w).1 = Ok result) -> verified result ->
     stored Completed v' s' \/ handed_on v' envelope result -> P v' s') ->
  wp E (executeApproved busy r v record) (on_success P) s.
Proof.
  intros HP. unfold executeApproved. destruct (ar_Executor r) as [run|] eqn:Hrun; [|by apply wp_ret].
  destruct (decode_pending v) as [envelope|err] eqn:Hd; [|apply wp_failed]. destruct (_ || _); [apply wp_failed|].
  unfold Transition. do 4 wp_step. do 3 (apply wp_attempt_any; intros ? ?). wp_step. wp_step. unfold execute. wp_step. wp_step.
  unfold on_executor. apply wp_zoom. intros w Hw. destruct (run envelope E w).1 as [result|err] eqn:Hout; [|apply wp_failed].
  apply wp_after. intros v2 s2 Hver Hend. eapply HP; eauto.
Qed.

(** C18: a resumption that reports success found the task already ended, and
    changed nothing; or the approval was refused or expired, and the task is
    stored as cancelled; or it was granted, the executor carried out the
    envelope stored with the task and verified the outcome, and the task is
    stored as completed or handed to the workflow that goes on. *)
Theorem resume_reports_outcome (E : Env) (record : ApprovalRecord) (s : ResumeState T H X Y) :
  wp E (Resume busy r record) (fun res s' => forall v', res = Ok (v', None) ->
    (terminal (tk_State v') = true /\ has tasks (bd_TaskID (ar_Binding record)) v' (as_store (rm_agent s)) /\ s' = s) \/
    ((ar_Status record = Rejected \/ ar_Status record = Expired) /\ stored Cancelled v' s') \/
    (ar_Status record = Approved /\ exists v run envelope result,
       has tasks (bd_TaskID (ar_Binding record)) v (as_store (rm_agent s)) /\ tk_State v = WaitingApproval /\
       ar_Executor r = Some run /\ decode_pending v = Ok envelope /\ (exists E w, (run envelope E w).1 = Ok result) /\
       verified result /\ (stored Completed v' s' \/ handed_on v' envelope result))) s.
Proof.
  unfold Resume. unfold attempt at 1. apply wp_bind, wp_try, wp_zoom, wp_zoom, wp_get_record; [|intros e; by apply wp_ret].
  intros v Hv. set (s0 := MkResumeState _ _ _). assert (Hs0 : s0 = s) by (by destruct s as [[] ? ?]).
  clearbody s0. subst s0.
  destruct (negb (String.eqb (tk_PendingApprovalID v) _)); [by apply wp_ret|].
  destruct (negb (String.eqb (tk_State v) _)) eqn:Hs.
  { destruct (terminal _) eqn:Ht; apply wp_ret; [|done]. intros v' Heq. injection Heq as <-. by left. }
  apply negb_false_iff, String.eqb_eq in Hs. destruct (negb _); [by apply wp_ret|].
  apply wp_attempt_any. intros _ s1. destruct (_ || _) eqn:Hrej.
  { apply wp_cancel. intros v' s' Hst. right; left. split; [|done].
    by apply orb_true_iff in Hrej as [?%String.eqb_eq|?%String.eqb_eq]; [left|right]. }
  destruct (String.eqb_spec (ar_Status record) Approved) as [Ha|]; [|by apply wp_ret].
  apply wp_attempt_any. intros _ s2. apply wp_executeApproved_ok. intros v' s' run envelope result Hrun Hd Hout Hver Hend.
  right; right. split; [done|]. by exists v, run, envelope, result.
Qed.
End Outcome.

(** ** From the request to the executor, evaluated
    The restart prepared in [Prepare] is granted, resumed and carried out by
    the executor of [Executor] under its own catalog; a second resumption
    finds the task ended. *)
Definition gated_envelope : ActionEnvelope :=
  Eval vm_compute in
    match Sign (H := plain_time) sample_secret
      (with_approval_id (MkActionEnvelope 1 "task_1" "task_1" "session_1" lab_proposal
         (match proposal_Digest lab_proposal with Ok d => d | Err _ => "" end) lab_snapshot
         (risk_Evaluate (H := lab_case) gated_catalog lab_proposal) (intentDigest (ap_Intent lab_proposal))
         "sha256:gated" (5 + 10 * Minute) "nonce_00ff" "" "") "approval_00ff") with
    | Ok e => e
    | Err _ => unsigned_envelope 0
    end.

Definition gated_record (status : string) (resolved : Z) : ApprovalRecord :=
  MkApprovalRecord "approval_00ff" (envelope_binding gated_envelope) status "" 5 (5 + 10 * Minute) resolved zero_time.

Definition waiting_task : Task :=
  task_with (with_pending lab_task (Some (envelope_json (H := plain_time) gated_envelope)) "approval_00ff") WaitingApproval
    (tk_WorkerLease lab_task) 1 5.

Definition waiting_agent (record : ApprovalRecord) : AgentState nat nat nat :=
  MkAgentState (MkStore (st_sessions lab_store) {[ "task_1" := Some waiting_task ]} ∅) 5%nat
    {[ "approval_00ff" := Some record ]} 0%nat 0%nat [].

Example prepared_waits : st_tasks (as_store (st prepare_lab.2)) = st_tasks (as_store (waiting_agent (gated_record Pending zero_time)))
  /\ as_approvals (st prepare_lab.2) = as_approvals (waiting_agent (gated_record Pending zero_time)).
Proof. vm_compute. split; reflexivity. Qed.

Example granted_record :
  (Resolve "approval_00ff" true "" (calm 6 "") (init_world {[ "approval_00ff" := Some (gated_record Pending zero_time) ]})).1
  = Ok (gated_record Approved 6, Ok tt).
Proof. vm_compute. reflexivity. Qed.

Definition gated_decoder : EnvelopeDecoder := fun j =>
  if String.eqb (print j) (print (envelope_json (H := plain_time) gated_envelope)) then Ok gated_envelope else Err (EMsg "decode").

Definition restarted (_ : ActionEnvelope) : M nat Result :=
  modify S ;;; ret (MkResult "service.restart" LabSandbox "SUCCEEDED" "" "" true (Some (MkVerification true [] ∅)) 0 0).

Definition gated_executor : Executor nat :=
  MkExecutor (MkValidator sample_secret gated_catalog true true (Some (Authorize (H := lab_case) Executor.lab_scope))
                (Some (fun _ => ret tt)) 0)
    {[ "service.restart" := restarted ]}.

Definition gated_resumer : ApprovalResumer nat nat nat (XState (gmap string (option ApprovalRecord)) nat) :=
  MkApprovalResumer (Some (Execute (H0 := approval_store) (H1 := lab_case) (H2 := plain_time) gated_executor)) true None.

(** The executor sees the directory of the granted record. *)
Definition granted_state : ResumeState nat nat nat (XState (gmap string (option ApprovalRecord)) nat) :=
  MkResumeState (waiting_agent (gated_record Approved 6))
    (MkXState {[ "approval_00ff" := Some (gated_record Approved 6) ]} (MkNonceStore None ∅) 0%nat) [].

Definition lab_resumptions : list (Env * ApprovalRecord) :=
  [(calm 7 "00aa", gated_record Approved 6); (calm 8 "00bb", gated_record Approved 6)].

Definition resume_lab :=
  resume_all (H0 := counting_sink) (H1 := plain_time) (H2 := gated_decoder) 2 gated_resumer lab_resumptions granted_state.

Example restart_carried_out :
  map ae_Nonce (rm_executed resume_lab) = ["nonce_00ff"] /\ xs_host (rm_executor resume_lab) = 1%nat /\
  option_map (option_map tk_State) (st_tasks (as_store (rm_agent resume_lab)) !! "task_1") = Some (Some Completed) /\
  option_map (option_map ar_Status) (xs_approvals (rm_executor resume_lab) !! "approval_00ff") = Some (Some Consumed).
Proof. vm_compute. repeat split; reflexivity. Qed.

Lemma granted_sound : sound (rm_agent granted_state).
Proof.
  assert (Hone : forall id v, has tasks id v (as_store (rm_agent granted_state)) -> id = "task_1" /\ v = waiting_task).
  { intros id v Hv. unfold has in Hv. cbn [kd_get tasks rm_agent granted_state waiting_agent as_store st_tasks] in Hv.
    apply lookup_singleton_Some in Hv as [<- Hv]. by injection Hv as <-. }
  split.
  - intros id v Hv. by destruct (Hone id v Hv) as [-> ->].
  - intros id approval (v&Hv&_&<-). destruct (Hone id v Hv) as [_ ->].
    exists (Some (gated_record Approved 6)). apply lookup_singleton_eq.
  - intros name r Hr. discriminate Hr.
Qed.

Lemma lab_fresh : fresh_steps (H0 := counting_sink) (H1 := plain_time) (H2 := gated_decoder) 2 gated_resumer lab_resumptions granted_state.
Proof.
  intros [|x [|y [|z l1]]] E record l2 Hl; injection Hl; clear Hl; intros; subst.
  1, 2: intros n [v Hv]; vm_compute in Hv; discriminate Hv.
  all: discriminate.
Qed.

Lemma approval_executes_once_witness :
  NoDup (map key_of (rm_executed resume_lab)) /\
  forall e, e ∈ rm_executed resume_lab -> exists l1 E record l2 v,
    lab_resumptions = l1 ++ (E, record) :: l2 /\
    pending (H2 := gated_decoder) record
      (resume_all (H0 := counting_sink) (H1 := plain_time) (H2 := gated_decoder) 2 gated_resumer l1 granted_state) v e.
Proof.
  apply (approval_executes_once (H0 := counting_sink) (H1 := plain_time) (H2 := gated_decoder) 2 gated_resumer);
    [intros E k value envelope result Hk; discriminate Hk|exact granted_sound|reflexivity|exact lab_fresh].
Defined.
