(* ===== verification/Wire.v ===== *)
(** * The socket of the executor

    [internal/executor/client.go] and [internal/executor/http.go]: an approved
    envelope goes as JSON over a unix socket to the privileged executor, which
    decodes it with unknown fields refused, runs it, and answers.  The decoder
    is [encoding/json] into [contracts.ActionEnvelope] ([dec_envelope]), which
    also reads back the envelope a task has stored.  A text is read by
    [Json.parse]: the compact texts that [encoding/json] writes, with the
    newline an [Encoder] ends them with.  The words of decoding errors are not
    modelled. *)

From S2P Require Import Prelude GoStrings GoText GoPath Json Hash Contracts Guard Approval Nonce Targets Executor Platform Planner Store Agent Decode Resume.
Open Scope Z_scope.

(** ** [encoding/json] into the structs of [contracts] *)

(** [DisallowUnknownFields] *)
Definition known (names : list string) (fields : list (string * json)) : bool :=
  forallb (fun kv => string_in (fold_name kv.1) names) fields.

Definition dec_strict {A} (names : list string) (d : list (string * json) -> A -> option A) : decoder A := fun j prev =>
  match j with
  | JObj fields => if known names fields then d fields prev else None
  | JNull => Some prev
  | _ => None
  end.

Definition dec_uint32 : decoder Z := fun j prev =>
  let+ n := dec_uint64 j prev in if 2 ^ 32 <=? n then None else Some n.

(** [map[string]any] and [map[string]string]: keys are added to the map that
    is there; [null] is the nil map. *)
Definition dec_map {A} (d : json -> option A) : decoder (gmap string A) := fun j prev =>
  match j with
  | JObj fields => foldl (fun m kv => let+ m := m in let+ v := d kv.2 in Some (<[kv.1 := v]> m)) (Some prev) fields
  | JNull => Some ∅
  | _ => None
  end.

(** A pointer to a struct. *)
Definition dec_ptr {A} (d : decoder A) (zero : A) : decoder (option A) := fun j prev =>
  match j with JNull => Some None | _ => option_map Some (d j (default zero prev)) end.

(** A slice whose nil value the model does not tell from an empty one. *)
Definition dec_list {A} (d : decoder A) (zero : A) : decoder (list A) := fun j prev =>
  let+ l := dec_slice d zero j (Some prev) in Some (default [] l).

Definition zero_target : TargetRef := MkTargetRef "" "" "".
Definition target_fields : list string := ["type"; "id"; "criticality"].
Definition dec_target : decoder TargetRef := dec_strict target_fields (fun l p =>
  let+ type := dec_field "type" dec_string l (tr_Type p) in
  let+ id := dec_field "id" dec_string l (tr_ID p) in
  let+ criticality := dec_field "criticality" dec_string l (tr_Criticality p) in
  Some (MkTargetRef type id criticality)).

Definition zero_authorization : TargetAuthorization := MkTargetAuthorization zero_target zero_target "" [].
Definition authorization_fields : list string := ["target"; "related_to"; "relation"; "evidence_refs"].
Definition dec_authorization : decoder TargetAuthorization := dec_strict authorization_fields (fun l p =>
  let+ target := dec_field "target" dec_target l (ta_Target p) in
  let+ related := dec_field "related_to" dec_target l (ta_RelatedTo p) in
  let+ relation := dec_field "relation" dec_string l (ta_Relation p) in
  let+ refs := dec_field "evidence_refs" (dec_list dec_string "") l (ta_EvidenceRefs p) in
  Some (MkTargetAuthorization target related relation refs)).

Definition zero_intent : IntentContext := MkIntentContext "" "" [] "" [] [].
Definition intent_fields : list string :=
  ["original_request"; "objective"; "objective_targets"; "plan_step"; "plan_targets"; "authorized_relations"].
Definition dec_intent : decoder IntentContext := dec_strict intent_fields (fun l p =>
  let+ request := dec_field "original_request" dec_string l (ic_OriginalRequest p) in
  let+ objective := dec_field "objective" dec_string l (ic_Objective p) in
  let+ objectives := dec_field "objective_targets" (dec_list dec_target zero_target) l (ic_ObjectiveTargets p) in
  let+ step := dec_field "plan_step" dec_string l (ic_PlanStep p) in
  let+ plan := dec_field "plan_targets" (dec_list dec_target zero_target) l (ic_PlanTargets p) in
  let+ relations := dec_field "authorized_relations" (dec_list dec_authorization zero_authorization) l (ic_AuthorizedRelations p) in
  Some (MkIntentContext request objective objectives step plan relations)).

Definition zero_proposal : ActionProposal :=
  MkActionProposal "" "" "" "" "" ∅ zero_target 0 false "" false "" zero_intent.
Definition proposal_fields : list string :=
  ["proposal_id"; "task_id"; "session_id"; "tool"; "effect"; "arguments"; "target"; "batch_size"; "reversible";
   "rollback_strategy"; "lab_mode"; "system_state"; "intent"].
Definition dec_arguments : decoder (gmap string json) := dec_map (fun j => Some (as_any j)).
Definition dec_proposal : decoder ActionProposal := dec_strict proposal_fields (fun l p =>
  let+ id := dec_field "proposal_id" dec_string l (ap_ProposalID p) in
  let+ task := dec_field "task_id" dec_string l (ap_TaskID p) in
  let+ session := dec_field "session_id" dec_string l (ap_SessionID p) in
  let+ tool := dec_field "tool" dec_string l (ap_Tool p) in
  let+ effect := dec_field "effect" dec_string l (ap_Effect p) in
  let+ arguments := dec_field "arguments" dec_arguments l (ap_Arguments p) in
  let+ target := dec_field "target" dec_target l (ap_Target p) in
  let+ batch := dec_field "batch_size" dec_int l (ap_BatchSize p) in
  let+ reversible := dec_field "reversible" dec_bool l (ap_Reversible p) in
  let+ rollback := dec_field "rollback_strategy" dec_string l (ap_RollbackStrategy p) in
  let+ lab := dec_field "lab_mode" dec_bool l (ap_LabMode p) in
  let+ system := dec_field "system_state" dec_string l (ap_SystemState p) in
  let+ intent := dec_field "intent" dec_intent l (ap_Intent p) in
  Some (MkActionProposal id task session tool effect arguments target batch reversible rollback lab system intent)).

Definition snapshot_fields : list string :=
  ["type"; "id"; "canonical_path"; "expect_absent"; "parent_path"; "parent_inode"; "size"; "mtime_unix_nano"; "mode";
   "inode"; "pid"; "start_ticks"; "command_digest"; "executable"; "uid"; "service_name"; "active_state"; "main_pid"].
Definition dec_snapshot : decoder TargetSnapshot := dec_strict snapshot_fields (fun l p =>
  let+ type := dec_field "type" dec_string l (ts_Type p) in
  let+ id := dec_field "id" dec_string l (ts_ID p) in
  let+ path := dec_field "canonical_path" dec_string l (ts_CanonicalPath p) in
  let+ absent := dec_field "expect_absent" dec_bool l (ts_ExpectAbsent p) in
  let+ parent := dec_field "parent_path" dec_string l (ts_ParentPath p) in
  let+ parent_inode := dec_field "parent_inode" dec_uint64 l (ts_ParentInode p) in
  let+ size := dec_field "size" dec_int l (ts_Size p) in
  let+ mtime := dec_field "mtime_unix_nano" dec_int l (ts_MTimeUnixNano p) in
  let+ mode := dec_field "mode" dec_uint32 l (ts_Mode p) in
  let+ inode := dec_field "inode" dec_uint64 l (ts_Inode p) in
  let+ pid := dec_field "pid" dec_int l (ts_PID p) in
  let+ start := dec_field "start_ticks" dec_uint64 l (ts_StartTicks p) in
  let+ command := dec_field "command_digest" dec_string l (ts_CommandDigest p) in
  let+ executable := dec_field "executable" dec_string l (ts_Executable p) in
  let+ uid := dec_field "uid" dec_int l (ts_UID p) in
  let+ service := dec_field "service_name" dec_string l (ts_ServiceName p) in
  let+ active := dec_field "active_state" dec_string l (ts_ActiveState p) in
  let+ main := dec_field "main_pid" dec_int l (ts_MainPID p) in
  Some (MkTargetSnapshot type id path absent parent parent_inode size mtime mode inode pid start command executable uid
          service active main)).

Definition risk_fields : list string := ["risk_level"; "risk_score"; "risk_factors"; "risk_reason"].
Definition dec_risk : decoder RiskResult := dec_strict risk_fields (fun l p =>
  let+ level := dec_field "risk_level" dec_string l (rr_Level p) in
  let+ score := dec_field "risk_score" dec_int l (rr_Score p) in
  let+ factors := dec_field "risk_factors" (dec_list dec_string "") l (rr_Factors p) in
  let+ reason := dec_field "risk_reason" dec_string l (rr_Reason p) in
  Some (MkRiskResult level score factors reason)).

Definition zero_envelope : ActionEnvelope :=
  MkActionEnvelope 0 "" "" "" zero_proposal "" zero_snapshot zero_risk "" "" zero_time "" "" "".
Definition envelope_fields : list string :=
  ["schema_version"; "trace_id"; "task_id"; "session_id"; "proposal"; "proposal_digest"; "target_snapshot"; "risk";
   "intent_digest"; "policy_version"; "expires_at"; "nonce"; "approval_id"; "signature"].
Definition dec_envelope `{TimeParse} : decoder ActionEnvelope := dec_strict envelope_fields (fun l p =>
  let+ version := dec_field "schema_version" dec_int l (ae_SchemaVersion p) in
  let+ trace := dec_field "trace_id" dec_string l (ae_TraceID p) in
  let+ task := dec_field "task_id" dec_string l (ae_TaskID p) in
  let+ session := dec_field "session_id" dec_string l (ae_SessionID p) in
  let+ proposal := dec_field "proposal" dec_proposal l (ae_Proposal p) in
  let+ digest := dec_field "proposal_digest" dec_string l (ae_ProposalDigest p) in
  let+ snapshot := dec_field "target_snapshot" dec_snapshot l (ae_TargetSnapshot p) in
  let+ risk := dec_field "risk" dec_risk l (ae_Risk p) in
  let+ intent := dec_field "intent_digest" dec_string l (ae_IntentDigest p) in
  let+ policy := dec_field "policy_version" dec_string l (ae_PolicyVersion p) in
  let+ expires := dec_field "expires_at" dec_time l (ae_ExpiresAt p) in
  let+ nonce := dec_field "nonce" dec_string l (ae_Nonce p) in
  let+ approval := dec_field "approval_id" dec_string l (ae_ApprovalID p) in
  let+ signature := dec_field "signature" dec_string l (ae_Signature p) in
  Some (MkActionEnvelope version trace task session proposal digest snapshot risk intent policy expires nonce approval signature)).

(** The decoder of the envelope a task has stored. *)
#[export] Instance strict_envelope_decoder `{TimeParse} : EnvelopeDecoder := fun j =>
  match dec_envelope j zero_envelope with
  | Some e => Ok e
  | None => Err (EMsg "json: cannot unmarshal")
  end.

(** ** The answer *)
Definition zero_verification : Verification := MkVerification false [] ∅.
Definition verification_fields : list string := ["verified"; "checks"; "evidence"].
Definition dec_evidence : decoder (gmap string string) := dec_map (fun j => dec_string j "").
Definition dec_verification : decoder Verification := dec_strict verification_fields (fun l p =>
  let+ verified := dec_field "verified" dec_bool l (vf_Verified p) in
  let+ checks := dec_field "checks" (dec_list dec_string "") l (vf_Checks p) in
  let+ evidence := dec_field "evidence" dec_evidence l (vf_Evidence p) in
  Some (MkVerification verified checks evidence)).

Definition zero_result : Result := MkResult "" "" "" "" "" false None zero_time zero_time.
Definition result_fields : list string :=
  ["tool"; "mode"; "status"; "message"; "action_id"; "changed"; "verification"; "started_at"; "finished_at"].
Definition dec_result `{TimeParse} : decoder Result := dec_strict result_fields (fun l p =>
  let+ tool := dec_field "tool" dec_string l (rs_Tool p) in
  let+ mode := dec_field "mode" dec_string l (rs_Mode p) in
  let+ status := dec_field "status" dec_string l (rs_Status p) in
  let+ message := dec_field "message" dec_string l (rs_Message p) in
  let+ action := dec_field "action_id" dec_string l (rs_ActionID p) in
  let+ changed := dec_field "changed" dec_bool l (rs_Changed p) in
  let+ verification := dec_field "verification" (dec_ptr dec_verification zero_verification) l (rs_Verification p) in
  let+ started := dec_field "started_at" dec_time l (rs_StartedAt p) in
  let+ finished := dec_field "finished_at" dec_time l (rs_FinishedAt p) in
  Some (MkResult tool mode status message action changed verification started finished)).

(** ** The two ends *)

(** [Decoder.Decode]: the first value of the text, and the text after it.  The
    words of the library's errors are not modelled. *)
Definition decode_one {A} (d : decoder A) (zero : A) (text : string) : result (A * string) :=
  match parse_first text with
  | Some (j, rest) => match d j zero with Some a => Ok (a, rest) | None => Err (EMsg "json: cannot unmarshal") end
  | None => Err (EMsg "json: cannot unmarshal")
  end.

Definition MaxBody : Z := 1048576.

Section Ends.
Context {Y : Type} `{TimeText} `{TimeParse} (run : ActionEnvelope -> M Y Result).

(** [http.StatusOK] and the others *)
Definition StatusOK : Z := 200.
Definition StatusBadRequest : Z := 400.
Definition StatusForbidden : Z := 403.

Definition answer (status : Z) (value : json) : Z * string := (status, print value +:+ String newline "").
Definition error_answer (status : Z) (message : string) : Z * string := answer status (JObj [("error", JStr message)]).

(** [HTTPHandler.execute]; a body over the limit is cut there, and reading on
    fails. *)
Definition http_execute (body : string) : M Y (Z * string) :=
  match decode_one dec_envelope zero_envelope (take_bytes (Z.to_nat MaxBody) body) with
  | Err e => ret (error_answer StatusBadRequest (error_text e))
  | Ok (envelope, rest) =>
    if negb (String.eqb (skip_space rest) "") || (MaxBody <? len body)
    then ret (error_answer StatusBadRequest "body must contain one ActionEnvelope")
    else
      executed <- try_ (run envelope) ;;
      ret (match executed with
           | Err e => error_answer StatusForbidden (error_text e)
           | Ok result => answer StatusOK (result_json result)
           end)
  end.

(** The call of the socket: connecting and sending may fail, and so may
    reading the answer, when the executor has run. *)
Definition exchange (body : string) : M Y (Z * string) :=
  wrapping "call privileged executor on unix socket: " probe ;;;
  response <- http_execute body ;;
  probe ;;;
  ret response.

Definition decode_failure (body : string) : option string :=
  match parse body with
  | Some j =>
    match dec_struct (fun l p => dec_field "error" dec_string l p) j "" with
    | Some message => if String.eqb message "" then None else Some message
    | None => None
    end
  | None => None
  end.

Definition decode_result (body : string) : result Result :=
  let? decoded := decode_one dec_result zero_result body in Ok (fst decoded).

(** What the client makes of the answer. *)
Definition read_answer (response : Z * string) : result Result :=
  let '(status, body) := response in
  fail_if MaxBody <? len body with EMsg "executor response exceeds 1 MiB" ;;
  if negb (status =? StatusOK) then
    Err (EMsg (match decode_failure body with
               | Some message => "executor denied envelope: " +:+ message
               | None => "executor returned HTTP " +:+ show_Z status
               end))
  else decode_result body.

(** [UnixClient.Execute] *)
Definition UnixClient_Execute (envelope : ActionEnvelope) : M Y Result :=
  response <- exchange (print (envelope_json envelope)) ;;
  lift (read_answer response).
End Ends.

(** ** What is printed is read back *)
Class TimeRoundtrip `{TimeText} `{TimeParse} := time_roundtrip : forall t, parse_time (time_text t) = Some t.

Section Fields.
Context {A : Type} (name : string) (d : decoder A).

Lemma field_skip k v l prev y : String.eqb (fold_name k) name = false ->
  dec_field name d l prev = y -> dec_field name d (field k v ++ l) prev = y.
Proof. intros Hk Hl. cbn. by rewrite Hk. Qed.

Lemma omit_skip c k v l prev y : String.eqb (fold_name k) name = false ->
  dec_field name d l prev = y -> dec_field name d (omit c k v ++ l) prev = y.
Proof. intros Hk Hl. destruct c; [done|]. cbn. by rewrite Hk. Qed.

Lemma field_here k v l prev x y : String.eqb (fold_name k) name = true -> d v prev = Some x ->
  dec_field name d l x = y -> dec_field name d (field k v ++ l) prev = y.
Proof. intros Hk Hv Hl. cbn. by rewrite Hk, Hv. Qed.

Lemma cons_skip k v l prev y : String.eqb (fold_name k) name = false ->
  dec_field name d l prev = y -> dec_field name d ((k, v) :: l) prev = y.
Proof. apply field_skip. Qed.

Lemma cons_here k v l prev x y : String.eqb (fold_name k) name = true -> d v prev = Some x ->
  dec_field name d l x = y -> dec_field name d ((k, v) :: l) prev = y.
Proof. apply field_here. Qed.

(** What is left out is what is there. *)
Lemma omit_here c k v l prev x y : String.eqb (fold_name k) name = true -> (c = false -> d v prev = Some x) -> (c = true -> prev = x) ->
  dec_field name d l x = y -> dec_field name d (omit c k v ++ l) prev = y.
Proof. intros Hk H2 H1 Hl. destruct c; [by rewrite H1|]. cbn. by rewrite Hk, H2. Qed.
End Fields.

Lemma known_field names k v l : string_in (fold_name k) names = true -> known names l = true -> known names (field k v ++ l) = true.
Proof. intros Hk Hl. cbn. by rewrite Hk. Qed.
Lemma known_cons names k v l : string_in (fold_name k) names = true -> known names l = true -> known names ((k, v) :: l) = true.
Proof. apply known_field. Qed.
Lemma known_omit names c k v l : string_in (fold_name k) names = true -> known names l = true -> known names (omit c k v ++ l) = true.
Proof. intros Hk Hl. destruct c; [done|]. cbn. by rewrite Hk. Qed.

Lemma strict_ok {A} names (d : list (string * json) -> A -> option A) fields prev y :
  known names fields = true -> d fields prev = Some y -> dec_strict names d (JObj fields) prev = Some y.
Proof. intros Hk Hd. cbn. by rewrite Hk. Qed.

Lemma let_ok {A B} (m : option A) (k : A -> option B) x y : m = Some x -> k x = y -> match m with Some x => k x | None => None end = y.
Proof. by intros -> ->. Qed.

(** *** Values *)

(** Machine integers. *)
Definition int_ok (z : Z) : Prop := - max_int64 - 1 <= z <= max_int64.
Definition uint_ok (z : Z) : Prop := 0 <= z <= max_uint64.

Lemma dec_int_show z prev : int_ok z -> dec_int (JInt z) prev = Some z.
Proof. intros Hz. unfold dec_int, JInt. by rewrite Atoi_show_Z. Qed.
Lemma dec_uint64_show z prev : uint_ok z -> dec_uint64 (JInt z) prev = Some z.
Proof. intros Hz. unfold dec_uint64, JInt. by rewrite ParseUint_show. Qed.
Lemma dec_uint32_show z prev : 0 <= z < 2 ^ 32 -> dec_uint32 (JInt z) prev = Some z.
Proof. intros Hz. unfold dec_uint32. rewrite dec_uint64_show by (unfold uint_ok, max_uint64; lia). by rewrite (proj2 (Z.leb_gt _ _)) by lia. Qed.

Lemma all_some_map {A B} (f : A -> option B) (g : A -> B) l : Forall (fun x => f x = Some (g x)) l -> all_some (map f l) = Some (map g l).
Proof. induction 1 as [|x l Hx _ IH]; [done|]. cbn. by rewrite Hx, IH. Qed.

Lemma dec_list_slice {A} (d : decoder A) (f : A -> json) zero l prev : Forall (fun x => d (f x) zero = Some x) l ->
  dec_list d zero (slice f l) prev = Some l.
Proof.
  intros Hl. unfold dec_list, dec_slice. destruct l as [|x l]; [done|]. cbn [slice]. rewrite map_map.
  rewrite (all_some_map _ (fun x => x)) by done. cbn. by rewrite map_id.
Qed.

Lemma dec_strings_slice l prev : dec_list dec_string "" (slice JStr l) prev = Some l.
Proof. apply dec_list_slice. by apply Forall_forall. Qed.

(** The keys of a map are printed once each. *)
Lemma dec_fields_map {A B} (d : json -> option A) (f : B -> json) (g : B -> A) (l : list (string * B)) (m : gmap string A) :
  Forall (fun kv => d (f kv.2) = Some (g kv.2)) l ->
  foldl (fun m kv => let+ m := m in let+ v := d kv.2 in Some (<[kv.1 := v]> m)) (Some m) (map (fun kv => (kv.1, f kv.2)) l)
  = Some (foldl (fun m kv => <[kv.1 := g kv.2]> m) m l).
Proof.
  intros Hl. revert m. induction Hl as [|[k v] l Hv _ IH]; intros m; [done|]. cbn in *. rewrite Hv. apply IH.
Qed.

Lemma foldl_insert_map {A} (l : list (string * A)) (m : gmap string A) : NoDup l.*1 ->
  foldl (fun m kv => <[kv.1 := kv.2]> m) m l = list_to_map l ∪ m.
Proof.
  revert m. induction l as [|[k v] l IH]; intros m Hl; cbn; [by rewrite (left_id_L ∅ (∪))|].
  apply NoDup_cons in Hl as [Hk Hl]. rewrite IH by done. rewrite <- insert_union_l.
  apply map_eq. intros i. rewrite lookup_union.
  destruct (base.decide (k = i)) as [<-|Hne]; [|by rewrite !lookup_insert_ne, lookup_union].
  rewrite !lookup_insert_eq. by rewrite (not_elem_of_list_to_map_1 (M := gmap string)).
Qed.

Lemma dec_map_JMap {A} (d : json -> option A) (f : A -> json) (m : gmap string A) :
  map_Forall (fun _ v => d (f v) = Some v) m -> dec_map d (JMap (f <$> m)) ∅ = Some m.
Proof.
  intros Hm. unfold JMap, dec_map. set (l := merge_sort key_le (map_to_list (f <$> m))).
  assert (Hp : l ≡ₚ map (fun kv => (kv.1, f kv.2)) (map_to_list m)).
  { unfold l. rewrite merge_sort_Permutation, map_to_list_fmap. reflexivity. }
  clearbody l. apply Permutation_map_inv in Hp as (l'&->&Hp).
  rewrite (dec_fields_map d f (fun v => v)).
  2: { apply Forall_forall. intros [k v] Hin. rewrite <- Hp in Hin. apply elem_of_map_to_list in Hin. by apply (Hm k). }
  f_equal. assert (Hnd : NoDup l'.*1) by (rewrite <- Hp; apply NoDup_fst_map_to_list).
  rewrite foldl_insert_map by done. rewrite (right_id_L ∅ (∪)). apply map_to_list_inj. by rewrite map_to_list_to_map.
Qed.

Lemma omitted_list {A} (l : list A) : nil_slice l = true -> [] = l.
Proof. by destruct l. Qed.
Lemma omitted_bool b : negb b = true -> false = b.
Proof. by destruct b. Qed.

Create HintDb wire.
#[export] Hint Resolve dec_strings_slice dec_int_show dec_uint64_show dec_uint32_show dec_list_slice omitted_list omitted_bool : wire.

Ltac dec_leaf :=
  first [ reflexivity | (intros _; reflexivity) | by intros ->%String.eqb_eq | by intros ->%Z.eqb_eq | solve [intros; eauto with wire] ].
Ltac dec_fields :=
  unfold omit_str, omit_int;
  repeat first
    [ apply cons_skip; [reflexivity|] | eapply cons_here; [reflexivity|solve [dec_leaf]|]
    | apply field_skip; [reflexivity|] | apply omit_skip; [reflexivity|]
    | eapply field_here; [reflexivity|solve [dec_leaf]|]
    | eapply omit_here; [reflexivity|solve [dec_leaf]|solve [dec_leaf]|] ]; reflexivity.
Ltac known_fields :=
  unfold omit_str, omit_int; repeat first [apply known_cons; [reflexivity|] | apply known_field; [reflexivity|] | apply known_omit; [reflexivity|]]; reflexivity.
Ltac dec_struct_ok := apply strict_ok; [known_fields|]; cbv beta; repeat (eapply let_ok; [dec_fields|]; cbv beta).

Lemma target_roundtrip t : dec_target (target_json t) zero_target = Some t.
Proof. dec_struct_ok. by destruct t. Qed.
#[export] Hint Resolve target_roundtrip : wire.

Lemma Forall_all {A} (P : A -> Prop) l : (forall x, P x) -> Forall P l.
Proof. intros HP. by apply Forall_forall. Qed.

Lemma authorization_roundtrip a : dec_authorization (authorization_json a) zero_authorization = Some a.
Proof. dec_struct_ok. by destruct a. Qed.

Lemma targets_roundtrip l prev : dec_list dec_target zero_target (slice target_json l) prev = Some l.
Proof. apply dec_list_slice, Forall_all, target_roundtrip. Qed.
Lemma authorizations_roundtrip l prev : dec_list dec_authorization zero_authorization (slice authorization_json l) prev = Some l.
Proof. apply dec_list_slice, Forall_all, authorization_roundtrip. Qed.
#[export] Hint Resolve targets_roundtrip authorizations_roundtrip : wire.

Lemma intent_roundtrip i : dec_intent (intent_json i) zero_intent = Some i.
Proof. dec_struct_ok. by destruct i. Qed.
#[export] Hint Resolve intent_roundtrip : wire.

(** Arguments as [encoding/json] holds them. *)
Definition arguments_ok (m : gmap string json) : Prop := map_Forall (fun _ v => as_any v = v) m.

Lemma arguments_roundtrip m : arguments_ok m -> dec_arguments (JMap m) ∅ = Some m.
Proof.
  intros Hm. unfold dec_arguments. rewrite <- (map_fmap_id m) at 1. apply dec_map_JMap.
  intros k v Hv. f_equal. exact (Hm k v Hv).
Qed.

Record proposal_ok (p : ActionProposal) : Prop := {
  po_batch : int_ok (ap_BatchSize p);
  po_arguments : arguments_ok (ap_Arguments p)
}.

Lemma proposal_roundtrip p : proposal_ok p -> dec_proposal (proposal_json p) zero_proposal = Some p.
Proof.
  intros [Hb Ha%arguments_roundtrip]. dec_struct_ok. by destruct p.
Qed.

Record snapshot_ok (s : TargetSnapshot) : Prop := {
  so_ints : int_ok (ts_Size s) /\ int_ok (ts_MTimeUnixNano s) /\ int_ok (ts_PID s) /\ int_ok (ts_UID s) /\ int_ok (ts_MainPID s);
  so_uints : uint_ok (ts_ParentInode s) /\ uint_ok (ts_Inode s) /\ uint_ok (ts_StartTicks s);
  so_mode : 0 <= ts_Mode s < 2 ^ 32
}.

Lemma snapshot_roundtrip s : snapshot_ok s -> dec_snapshot (snapshot_json s) zero_snapshot = Some s.
Proof.
  intros [(?&?&?&?&?) (?&?&?) ?]. dec_struct_ok. by destruct s.
Qed.

Lemma risk_roundtrip r : int_ok (rr_Score r) -> dec_risk (risk_json r) zero_risk = Some r.
Proof. intros Hs. dec_struct_ok. by destruct r. Qed.
#[export] Hint Resolve proposal_roundtrip snapshot_roundtrip risk_roundtrip : wire.

Record envelope_ok (e : ActionEnvelope) : Prop := {
  eo_version : int_ok (ae_SchemaVersion e);
  eo_proposal : proposal_ok (ae_Proposal e);
  eo_snapshot : snapshot_ok (ae_TargetSnapshot e);
  eo_risk : int_ok (rr_Score (ae_Risk e))
}.

Section Roundtrip.
Context `{TimeRoundtrip}.

Lemma dec_time_text t prev : dec_time (JStr (time_text t)) prev = Some t.
Proof. apply time_roundtrip. Qed.
#[local] Hint Resolve dec_time_text : wire.

Lemma envelope_roundtrip e : envelope_ok e -> dec_envelope (envelope_json e) zero_envelope = Some e.
Proof. intros [? ? ? ?]. dec_struct_ok. by destruct e. Qed.

Lemma evidence_roundtrip m : dec_evidence (JMap (JStr <$> m)) ∅ = Some m.
Proof. by apply dec_map_JMap. Qed.
#[local] Hint Resolve evidence_roundtrip : wire.

Lemma verification_roundtrip v : dec_verification (verification_json v) zero_verification = Some v.
Proof. unfold verification_json, strings. dec_struct_ok. by destruct v. Qed.

Lemma dec_ptr_verification v prev : default zero_verification prev = zero_verification ->
  dec_ptr dec_verification zero_verification (verification_json v) prev = Some (Some v).
Proof. intros Hp. cbn -[dec_verification]. fold (verification_json v). by rewrite Hp, verification_roundtrip. Qed.
#[local] Hint Resolve dec_ptr_verification : wire.

Lemma result_roundtrip r : dec_result (result_json r) zero_result = Some r.
Proof.
  unfold result_json. destruct (rs_Verification r) as [v|] eqn:Hv; cbn [app].
  - dec_struct_ok. destruct r. cbn in Hv. by subst.
  - dec_struct_ok. destruct r. cbn in Hv. by subst.
Qed.
End Roundtrip.

(** ** Across the socket *)
Lemma decode_printed {A} (d : decoder A) zero j a rest : wf_json j = true -> delimited rest = true -> d j zero = Some a ->
  decode_one d zero (print j +:+ rest) = Ok (a, rest).
Proof. intros Hj Hr Hd. unfold decode_one. by rewrite parse_first_print, Hd. Qed.

Lemma parse_line j : wf_json j = true -> parse (print j +:+ String newline "") = Some j.
Proof. intros Hj. unfold parse. by rewrite parse_first_print. Qed.

Section Delivered.
Context {Y : Type} `{TimeRoundtrip} (run : ActionEnvelope -> M Y Result).

(** A text that is the envelope. *)
Definition carries (e : ActionEnvelope) : Prop := envelope_ok e /\ wf_json (envelope_json e) = true.

(** What the executor has done with the envelope it was handed, and what it
    says about it. *)
Definition executed_answer (out : Prelude.result Result) : Z * string :=
  match out with
  | Err e => error_answer StatusForbidden (error_text e)
  | Ok result => answer StatusOK (result_json result)
  end.

Lemma take_bytes_short n s : (String.length s <= n)%nat -> take_bytes n s = s.
Proof. revert n. induction s as [|c s IH]; intros [|n] Hn; cbn in *; [done|done|lia|]. by rewrite IH by lia. Qed.

(** The executor is handed [e] itself, or nothing when the text is too long. *)
Lemma http_execute_long body : MaxBody < len body ->
  exists message, http_execute run body = ret (error_answer StatusBadRequest message).
Proof.
  intros Hl. unfold http_execute. destruct (decode_one _ _ _) as [[envelope rest]|err]; [|by eexists].
  rewrite (proj2 (Z.ltb_lt _ _) Hl), orb_true_r. by eexists.
Qed.

Lemma http_execute_envelope e : carries e -> len (print (envelope_json e)) <= MaxBody ->
  http_execute run (print (envelope_json e)) = (executed <- try_ (run e) ;; ret (executed_answer executed)).
Proof.
  intros [He Hw] Hl. unfold http_execute. rewrite take_bytes_short by (unfold len in Hl; lia).
  rewrite <- (string_app_nil_r (print (envelope_json e))) at 1. rewrite (decode_printed _ _ _ e) by first [done|by apply envelope_roundtrip].
  by rewrite (proj2 (Z.ltb_ge _ _)) by lia.
Qed.

Lemma decode_answer r : wf_json (result_json r) = true -> decode_result (snd (answer StatusOK (result_json r))) = Ok r.
Proof.
  intros Hw. unfold decode_result, answer. cbn [snd].
  rewrite (decode_printed _ _ _ r) by first [done|by apply result_roundtrip]. done.
Qed.
(** *** The exchange *)
Lemma probe_still {S} E (w : World S) : st (probe E w).2 = st w.
Proof. unfold probe, sys. by destruct (faults _ _). Qed.

Lemma exchange_run e E w : carries e ->
  let out := exchange run (print (envelope_json e)) E w in
  (st out.2 = st w /\ (is_ok out.1 = false \/ exists message, out.1 = Ok (error_answer StatusBadRequest message))) \/
  exists w1, st w1 = st w /\ st out.2 = st (run e E w1).2 /\
    (is_ok out.1 = false \/ out.1 = Ok (executed_answer (run e E w1).1)).
Proof.
  intros Hc. cbv zeta. unfold exchange, wrapping, bind. pose proof (probe_still E w) as Hs.
  destruct (probe E w) as [[[]|err] w1]; cbn in Hs; [|left; by split; [|left]].
  destruct (Z.lt_ge_cases MaxBody (len (print (envelope_json e)))) as [Hl|Hl].
  - left. destruct (http_execute_long _ Hl) as [message ->]. clear Hl. unfold ret. pose proof (probe_still E w1) as Hs1.
    destruct (probe E w1) as [[[]|err] w2]; cbn in *; (split; [congruence|eauto]).
  - right. exists w1. rewrite http_execute_envelope by done. clear Hl. unfold bind, try_. destruct (run e E w1) as [out w2]. unfold ret. cbn.
    pose proof (probe_still E w2) as Hs2. destruct (probe E w2) as [[[]|err] w3]; cbn in *; (split_and!; [done|done|auto]).
Qed.

Lemma read_refused message : is_ok (read_answer (error_answer StatusBadRequest message)) = false.
Proof. unfold read_answer, error_answer, answer. cbv zeta. by destruct (_ <? _). Qed.

Lemma read_denied message : valid_utf8 message = true -> message <> "" ->
  read_answer (error_answer StatusForbidden message) =
    Err (EMsg (if MaxBody <? len (snd (error_answer StatusForbidden message)) then "executor response exceeds 1 MiB"
               else "executor denied envelope: " +:+ message)).
Proof.
  intros Hu Hm. unfold read_answer, error_answer, answer. cbn [snd]. destruct (_ <? _); [done|]. cbn [negb Z.eqb StatusForbidden StatusOK].
  change (403 =? 200) with false. cbn [negb]. unfold decode_failure. rewrite parse_line by (cbn; by rewrite Hu).
  replace (dec_struct _ _ _) with (Some message) by reflexivity. cbv iota. by rewrite (proj2 (String.eqb_neq _ _) Hm).
Qed.

Lemma read_executed r : wf_json (result_json r) = true ->
  read_answer (answer StatusOK (result_json r)) =
    if MaxBody <? len (snd (answer StatusOK (result_json r))) then Err (EMsg "executor response exceeds 1 MiB") else Ok r.
Proof.
  intros Hw. unfold read_answer. pose proof (decode_answer r Hw) as Hd. unfold answer in *. cbn [snd] in *.
  destruct (_ <? _); [done|exact Hd].
Qed.

(** C10: the socket hands the executor the envelope that was signed, once, and
    hands back what the executor says.  Whatever fails in between, a call of
    the client either leaves the executor as it was and fails, or the executor
    has carried out exactly this envelope, once; and a result the client
    returns is the executor's.  (When the answer is lost the client fails
    although the executor has acted.) *)
Theorem wire_delivers_once (e : ActionEnvelope) (E : Env) (w : World Y) (He : carries e) :
  let out := UnixClient_Execute run e E w in
  (is_ok out.1 = false /\ st out.2 = st w) \/
  exists w1, st w1 = st w /\ st out.2 = st (run e E w1).2 /\
    forall r, out.1 = Ok r -> exists r', (run e E w1).1 = Ok r' /\ (wf_json (result_json r') = true -> r = r').
Proof.
  cbv zeta. pose proof (exchange_run e E w He) as Hx. cbv zeta in Hx. unfold UnixClient_Execute, bind, lift.
  destruct (exchange run _ E w) as [[response|err] w'] eqn:Ex; cbn [fst snd] in *.
  - destruct Hx as [[Hs [Hf|[message [= ->]]]]|(w1&Hs1&Hs&[Hf|[= ->]])]; [done|left; by rewrite read_refused|done|].
    right. exists w1. split_and!; [done|done|]. intros r Hr. destruct (run e E w1) as [[r'|err] w2]; cbn [executed_answer fst] in *.
    + exists r'. split; [done|]. intros Hw. rewrite read_executed in Hr by done. destruct (_ <? _); [done|congruence].
    + unfold read_answer, error_answer, answer in Hr. destruct (_ <? _); [done|]. discriminate Hr.
  - destruct Hx as [[Hs _]|(w1&Hs1&Hs&_)]; [by left|]. right. exists w1. by split_and!.
Qed.

(** C12: when nothing in between fails and the texts keep to the limit, the
    client is the executor: it returns the executor's result, or the words
    with which the executor denied the envelope. *)
Theorem wire_transparent (e : ActionEnvelope) (E : Env) (w : World Y) (He : carries e) (Hq : quiet E)
    (Hlen : len (print (envelope_json e)) <= MaxBody) :
  let out := UnixClient_Execute run e E w in
  exists w1, st w1 = st w /\ ticks w1 = ticks w /\ draws w1 = draws w /\ st out.2 = st (run e E w1).2 /\
    match (run e E w1).1 with
    | Ok r => wf_json (result_json r) = true -> len (snd (answer StatusOK (result_json r))) <= MaxBody -> out.1 = Ok r
    | Err err => valid_utf8 (error_text err) = true -> error_text err <> "" ->
        len (snd (error_answer StatusForbidden (error_text err))) <= MaxBody ->
        out.1 = Err (EMsg ("executor denied envelope: " +:+ error_text err))
    end.
Proof.
  cbv zeta. destruct (probe_quiet E w Hq) as (w1&E1&Hs1&Ht1&Hd1). exists w1. do 3 (split; [done|]).
  unfold UnixClient_Execute, exchange, wrapping, bind. rewrite E1. rewrite http_execute_envelope by done. unfold bind, try_. destruct (run e E w1) as [out w2]. unfold ret. cbn [fst snd].
  destruct (probe_quiet E w2 Hq) as (w3&E3&Hs3&_&_). rewrite E3. unfold lift. cbn [fst snd]. split; [done|].
  destruct out as [r|err]; unfold executed_answer.
  - intros Hw Hl. rewrite read_executed by done. by rewrite (proj2 (Z.ltb_ge _ _)) by lia.
  - intros Hu Hm Hl. rewrite read_denied by done. by rewrite (proj2 (Z.ltb_ge _ _)) by lia.
Qed.
End Delivered.

(** ** Evaluated
    The restart of [Resume], over the socket. *)
Definition plain_parse : TimeParse := parse_Z.

Lemma plain_roundtrip : TimeRoundtrip (H := plain_time) (H0 := plain_parse).
Proof. exact parse_show_Z. Qed.

Definition remote := UnixClient_Execute (H := plain_time) (H0 := plain_parse)
  (Execute (H0 := approval_store) (H1 := lab_case) (H2 := plain_time) gated_executor).

Definition remote_state : XState (gmap string (option ApprovalRecord)) nat := rm_executor granted_state.

Definition remote_run := remote gated_envelope (calm 7 "00aa") (init_world remote_state).

Example remote_restart : option_map rs_Status (ok_ remote_run.1) = Some "SUCCEEDED"
  /\ xs_host (st remote_run.2) = 1%nat.
Proof. vm_compute. repeat split; reflexivity. Qed.

Lemma gated_carried : carries (H := plain_time) gated_envelope.
Proof.
  split; [|vm_compute; reflexivity]. split; [|split| |].
  all: try (vm_compute; split; discriminate).
  - intros k v Hv. vm_compute in Hv. destruct k; discriminate Hv.
  - split; vm_compute; repeat split; discriminate.
Qed.

Definition broken_socket : Env := MkEnv (fun _ => 7) (fun n => if Nat.eqb n 0 then Some EIO else None) (fun _ => "00aa") (fun _ => None) (fun _ => 0%nat).

Lemma wire_delivers_once_witness :
  let out := remote gated_envelope broken_socket (init_world remote_state) in
  (is_ok out.1 = false /\ st out.2 = remote_state) \/
  exists w1, st w1 = remote_state /\
    st out.2 = st (Execute (H0 := approval_store) (H1 := lab_case) (H2 := plain_time) gated_executor gated_envelope broken_socket w1).2 /\
    forall r, out.1 = Ok r -> exists r',
      (Execute (H0 := approval_store) (H1 := lab_case) (H2 := plain_time) gated_executor gated_envelope broken_socket w1).1 = Ok r' /\
      (wf_json (result_json (H := plain_time) r') = true -> r = r').
Proof.
  apply (wire_delivers_once (H := plain_time) (H0 := plain_parse) (H1 := plain_roundtrip)). exact gated_carried.
Defined.

Lemma wire_transparent_witness :
  let run := Execute (H0 := approval_store) (H1 := lab_case) (H2 := plain_time) gated_executor in
  let out := remote gated_envelope (calm 7 "00aa") (init_world remote_state) in
  exists w1, st w1 = remote_state /\ ticks w1 = 0%nat /\ draws w1 = 0%nat /\ st out.2 = st (run gated_envelope (calm 7 "00aa") w1).2 /\
    match (run gated_envelope (calm 7 "00aa") w1).1 with
    | Ok r => wf_json (result_json (H := plain_time) r) = true ->
        len (snd (answer StatusOK (result_json (H := plain_time) r))) <= MaxBody -> out.1 = Ok r
    | Err err => valid_utf8 (error_text err) = true -> error_text err <> "" ->
        len (snd (error_answer StatusForbidden (error_text err))) <= MaxBody ->
        out.1 = Err (EMsg ("executor denied envelope: " +:+ error_text err))
    end.
Proof.
  apply (wire_transparent (H := plain_time) (H0 := plain_parse) (H1 := plain_roundtrip)
           (Execute (H0 := approval_store) (H1 := lab_case) (H2 := plain_time) gated_executor) gated_envelope (calm 7 "00aa")
           (init_world remote_state)); [exact gated_carried|done|vm_compute; discriminate].
Defined.
