(* ===== verification/ToolServers.v ===== *)
(** * [internal/mcpservers]: the read-only tools over the readers

    The handlers of the process, service, journal, network, system and
    diagnostic servers: what they refuse, what they read in which order, what
    they return, and the JSON the agent decodes from it.  The library that
    serves them, with its check of the input types, is outside the model; the
    error of a handler takes the place of its output.  The theorem composes
    the servers with the port workflow: what the agent reads in the answers is
    what the servers read on the host, and the agent proposes to terminate a
    process exactly when the host shows the conflict. *)

From S2P Require Import Prelude GoStrings GoText GoPath Json Unicode Hash Contracts Platform Planner Store Agent Network Decode Workflows Evidence Diagnosis Resume Wire.
Open Scope Z_scope.

(** ** The servers *)

(** *** [process/server.go] *)
Record ProcessesOutput := MkProcessesOutput {
  po_Processes : list ProcessInfo;
  po_Count : Z;
  po_Partial : bool;
  po_Note : string
}.
Record ResourceOutput := MkResourceOutput {
  ro_PID : Z;
  ro_StartTicks : Z;
  ro_CPUTicks : Z;
  ro_RSSBytes : Z;
  ro_State : string
}.

Definition processes_output (note : string) (values : list ProcessInfo) : ProcessesOutput :=
  MkProcessesOutput values (Z.of_nat (length values)) true note.

Definition validLimit (value : Z) : result Z :=
  if value =? 0 then Ok 20
  else if (value <? 1) || (100 <? value) then Err (EMsg "limit must be between 1 and 100")
  else Ok value.

Definition valid_port (port : Z) : result unit :=
  guard_ ((port <? 1) || (65535 <? port)) (EMsg "port must be between 1 and 65535").

Section ProcessServer.
Context {H : Type} `{Machine H} `{UnicodeCase} (procRoot : string) (pageSize : Z).

Definition list_top (limit : Z) (sort_by : string) : M H ProcessesOutput :=
  limit <- lift (validLimit limit) ;;
  let sortBy := if String.eqb sort_by "" then "cpu" else sort_by in
  lift (guard_ (negb (string_in sortBy ["cpu"; "memory"; "pid"])) (EMsg "sort_by must be cpu, memory, or pid")) ;;;
  values <- Processes procRoot pageSize "" limit sortBy ;;
  ret (processes_output "无权限或采集期间退出的进程可能不在结果中" values).

Definition search_processes (query : string) (limit : Z) : M H ProcessesOutput :=
  lift (guard_ (String.eqb (TrimSpace query) "") (EMsg "query is required")) ;;;
  limit <- lift (validLimit limit) ;;
  values <- Processes procRoot pageSize query limit "pid" ;;
  ret (processes_output "命令参数已截断并对常见密钥字段脱敏" values).

Definition get_details (pid : Z) : M H ProcessInfo :=
  lift (guard_ (pid <=? 0) (EMsg "pid must be positive")) ;;; Platform.Process procRoot pageSize pid.

Definition get_resource_usage (pid : Z) : M H ResourceOutput :=
  value <- get_details pid ;;
  ret (MkResourceOutput (pi_PID value) (pi_StartTicks value) (pi_CPUTicks value) (pi_RSSBytes value) (pi_State value)).

Definition find_by_port (port : Z) : M H ProcessesOutput :=
  lift (valid_port port) ;;;
  values <- ProcessesByPort procRoot pageSize port ;;
  ret (processes_output "非 root 用户可能无法读取其他用户的 FD，owner 结果可能不完整" values).
End ProcessServer.

(** *** [service/server.go] *)
Record ServicesOutput := MkServicesOutput {
  se_Services : list ServiceStatus;
  se_Count : Z
}.
Record RestartOutput := MkRestartOutput {
  re_Unit : string;
  re_RestartCount : Z;
  re_MainPID : Z;
  re_ActiveState : string
}.

Section ServiceServer.
Context {H : Type} `{Machine H} (systemctl : string).

Definition unit_given (unit_ : string) : result unit := guard_ (String.eqb unit_ "") (EMsg "unit is required").

Definition get_status (unit_ : string) : M H ServiceStatus := lift (unit_given unit_) ;;; Platform.Service systemctl unit_.

Definition list_failed : M H ServicesOutput :=
  values <- FailedServices systemctl ;; ret (MkServicesOutput values (Z.of_nat (length values))).

Definition get_dependencies (unit_ : string) : M H (string * list string * list string * list string * list string) :=
  lift (unit_given unit_) ;;; ServiceDependencies systemctl unit_.

Definition get_restart_count (unit_ : string) : M H RestartOutput :=
  value <- get_status unit_ ;;
  ret (MkRestartOutput (ss_Name value) (ss_RestartCount value) (ss_MainPID value) (ss_ActiveState value)).
End ServiceServer.

(** *** [journal/server.go] *)
Record EventsOutput := MkEventsOutput {
  ev_Events : list JournalEvent;
  ev_Count : Z;
  ev_Partial : bool;
  ev_Note : string
}.

Section JournalServer.
Context {H : Type} `{Machine H} `{UnicodeCase} `{Sprinter} (journalctl : string).

Definition priority (value : option Z) : Z := default (-1) value.
Definition events_output (events : list JournalEvent) : EventsOutput :=
  MkEventsOutput events (Z.of_nat (length events)) true "日志受用户权限、500 条上限、截断和脱敏约束".

Definition get_recent (lines : Z) (maximum : option Z) : M H EventsOutput :=
  events <- Journal journalctl "" lines (priority maximum) ;; ret (events_output events).

Definition query_unit (unit_ : string) (lines : Z) (maximum : option Z) : M H EventsOutput :=
  lift (unit_given unit_) ;;;
  events <- Journal journalctl unit_ lines (priority maximum) ;; ret (events_output events).

(** The literal text asked for; without one, the common signals of errors. *)
Definition error_event (needle : string) (event : JournalEvent) : bool :=
  let message := ToLower (je_Message event) in
  (negb (String.eqb needle "") && Contains message needle)
  || (String.eqb needle ""
      && ((je_Priority event <=? 3) || Contains message "error" || Contains message "fail" || Contains message "panic")).

Definition search_errors (query unit_ : string) (lines : Z) : M H EventsOutput :=
  events <- Journal journalctl unit_ lines (-1) ;;
  ret (events_output (List.filter (error_event (ToLower (TrimSpace query))) events)).

Definition get_priority_events (lines : Z) (maximum : option Z) : M H EventsOutput :=
  events <- Journal journalctl "" lines (default 3 maximum) ;; ret (events_output events).
End JournalServer.

(** *** [network/server.go] *)
Record SocketsOutput := MkSocketsOutput {
  sk_Sockets : list SocketInfo;
  sk_Count : Z;
  sk_Truncated : bool
}.
Record InterfaceStat := MkInterfaceStat {
  is_Name : string;
  is_Index : Z;
  is_RXBytes : Z;
  is_TXBytes : Z
}.
Record PortOutput := MkPortOutput {
  pt_Port : Z;
  pt_Occupied : bool;
  pt_Sockets : list SocketInfo;
  pt_Processes : list ProcessInfo;
  pt_OwnerPartial : bool
}.

Section NetworkServer.
Context {H : Type} `{Machine H} `{HostCalls H} `{UnicodeCase} (procRoot : string) (pageSize : Z).

(** [limit] *)
Definition row_limit (value : Z) : result Z :=
  if value =? 0 then Ok 200
  else if (value <? 1) || (1000 <? value) then Err (EMsg "limit must be between 1 and 1000")
  else Ok value.

Definition list_sockets (listeningOnly : bool) (limit : Z) : M H SocketsOutput :=
  limit <- lift (row_limit limit) ;;
  values <- Sockets procRoot listeningOnly limit ;;
  ret (MkSocketsOutput values (Z.of_nat (length values)) (Z.of_nat (length values) =? limit)).
Definition list_listeners : Z -> M H SocketsOutput := list_sockets true.
Definition list_connections : Z -> M H SocketsOutput := list_sockets false.

Definition port_matches (port : Z) (protocol : string) (socket : SocketInfo) : bool :=
  (so_LocalPort socket =? port) && (String.eqb protocol "" || HasPrefix (so_Protocol socket) protocol).

(** What [check_port] says of the sockets and the owners it read. *)
Definition port_output (port : Z) (protocol : string) (all : list SocketInfo) (owners : list ProcessInfo) : PortOutput :=
  let matches := List.filter (port_matches port protocol) all in
  MkPortOutput port (negb (nil_slice matches)) matches owners true.

Definition check_port (port : Z) (protocol : string) : M H PortOutput :=
  lift (valid_port port) ;;;
  let protocol := ToLower protocol in
  lift (guard_ (negb (string_in protocol [""; "tcp"; "udp"])) (EMsg "protocol must be tcp or udp")) ;;;
  all <- Sockets procRoot false 5000 ;;
  owners <- ProcessesByPort procRoot pageSize port ;;
  ret (port_output port protocol all owners).

Definition get_interfaces : M H (list InterfaceInfo * Z) :=
  values <- Interfaces procRoot ;; ret (values, Z.of_nat (length values)).

Definition interface_stat (value : InterfaceInfo) : InterfaceStat :=
  MkInterfaceStat (if_Name value) (if_Index value) (if_RXBytes value) (if_TXBytes value).
Definition get_interface_stats : M H (list InterfaceStat) :=
  values <- Interfaces procRoot ;; ret (map interface_stat values).
End NetworkServer.

(** *** [system/server.go] *)
Record CPUOutput := MkCPUOutput {
  cp_CPU : CPUStat * Z;
  cp_UsagePercent : float64;
  cp_SampleWindowMS : Z
}.
Record OverviewOutput := MkOverviewOutput {
  ow_CPU : CPUStat * Z;
  ow_Memory : MemoryStat * Z;
  ow_Load : LoadAverage;
  ow_RootDisk : DiskUsage;
  ow_Kernel : KernelInfo;
  ow_UptimeSeconds : float64
}.

(** [100 * float64(part) / float64(whole)] *)
Definition percentage (part whole : Z) : float64 :=
  rounded (fdiv (rounded (fmul (literal "100") (rounded (float_of_Z part)))) (rounded (float_of_Z whole))).

(** The usage between two samples of the counters. *)
Definition cpu_usage (first second : CPUStat) : float64 :=
  if (cpu_Total first <? cpu_Total second) && (cpu_Busy first <=? cpu_Busy second)
  then percentage (cpu_Busy second - cpu_Busy first) (cpu_Total second - cpu_Total first)
  else zero_float.

Definition memory_usage (v : MemoryStat) : float64 :=
  if 0 <? mem_TotalBytes v then percentage (mem_UsedBytes v) (mem_TotalBytes v) else zero_float.

(** [time.Duration.Seconds] *)
Definition Seconds (d : Z) : float64 :=
  rounded (fadd (rounded (float_of_Z (Z.quot d Second)))
                (rounded (fdiv (rounded (float_of_Z (Z.rem d Second))) (rounded (float_of_Z Second))))).

(** [time.Duration.Round] to seconds, away from zero at the half, and
    saturating. *)
Definition round_second (d : Z) : Z :=
  let r := Z.abs (Z.rem d Second) in
  if r + r <? Second then d - Z.sgn d * r
  else if d <? 0 then (if - max_int64 - 1 <=? d - (Second - r) then d - (Second - r) else - max_int64 - 1)
  else (if d + (Second - r) <=? max_int64 then d + (Second - r) else max_int64).

(** [time.Duration.String] of a whole number of seconds. *)
Definition duration_text (d : Z) : string :=
  let u := Z.abs d / Second in
  let s := show_Z (u mod 60) +:+ "s" in
  let m := show_Z (u / 60 mod 60) +:+ "m" +:+ s in
  (if d <? 0 then "-" else "")
  +:+ (if u <? 60 then s else if u / 60 <? 60 then m else show_Z (u / 60 / 60) +:+ "h" +:+ m).

Section SystemServer.
Context {H : Type} `{Machine H} `{HostCalls H} `{FloatText} `{UnicodeClass} (procRoot etcRoot : string).

(** The sample window: the request is done meanwhile, or not. *)
Definition sample_window : Z := 200.

Definition get_cpu_metrics : M H CPUOutput :=
  first <- CPU procRoot ;;
  ctx_check ;;;
  second <- CPU procRoot ;;
  ret (MkCPUOutput second (cpu_usage (fst first) (fst second)) sample_window).

Definition get_memory_metrics : M H (MemoryStat * Z * float64) :=
  v <- Memory procRoot ;; ret (v, memory_usage (fst v)).

Definition get_load_average : M H LoadAverage := Load procRoot.

Definition get_disk_usage (path : string) : M H DiskUsage :=
  let path := if String.eqb path "" then "/" else path in
  lift (guard_ (negb (IsAbs path)) (EMsg "path must be absolute")) ;;;
  Disk path.

Definition get_mounts : M H (list Mount) :=
  v <- Mounts procRoot ;;
  match snd v with Some e => throw e | None => ret (fst v) end.

Definition get_kernel_info : M H KernelInfo := Kernel etcRoot.

Definition get_uptime : M H (float64 * string) :=
  v <- Uptime procRoot ;; ret (Seconds v, duration_text (round_second v)).

Definition get_overview : M H OverviewOutput :=
  cpu <- wrapping "cpu: " (CPU procRoot) ;;
  memory <- wrapping "memory: " (Memory procRoot) ;;
  load <- wrapping "load: " (Load procRoot) ;;
  disk <- wrapping "disk: " (Disk "/") ;;
  kernel <- wrapping "kernel: " (Kernel etcRoot) ;;
  uptime <- wrapping "uptime: " (Uptime procRoot) ;;
  ret (MkOverviewOutput cpu memory load disk kernel (Seconds uptime)).
End SystemServer.

(** *** [diagnostic/server.go] *)
Record DiagnosticPortOutput := MkDiagnosticPortOutput {
  dg_Diagnosis : PortConflictOutput;
  dg_Knowledge : option (list Knowledge);
  dg_Service : ServiceStatus;
  dg_Logs : list JournalEvent;
  dg_Sockets : list SocketInfo;
  dg_Processes : list ProcessInfo
}.
Record HighCPUOutput := MkHighCPUOutput {
  hc_Load : LoadAverage;
  hc_Processes : list ProcessInfo;
  hc_RCA : RCA
}.
Record DiskOutput := MkDiskOutput {
  dk_Disk : DiskUsage;
  dk_Warning : bool;
  dk_RCA : RCA
}.
Record SnapshotOutput := MkSnapshotOutput {
  sh_Kernel : KernelInfo;
  sh_Load : LoadAverage;
  sh_Memory : MemoryStat * Z;
  sh_Disk : DiskUsage;
  sh_Service : option ServiceStatus;
  sh_PortSockets : list SocketInfo;
  sh_PortProcesses : list ProcessInfo
}.

(** [math.Exp] *)
Class MathExp := math_Exp : float64 -> float64.

Section Findings.
Context `{FloatPrint} `{EdgeRange} `{UnicodeCase} `{MathExp}.

(** [math.Round((1-math.Exp(-score))*1000) / 1000] of the best document. *)
Definition similarity (knowledge : option (list Knowledge)) : string :=
  match default [] knowledge with
  | [] => "0"
  | best :: _ => float_text (round (rounded (fadd one_float (fneg (math_Exp (fneg (literal (kn_Score best))))))))
  end.

Definition of_port (port : Z) (all : list SocketInfo) : list SocketInfo := List.filter (fun s => so_LocalPort s =? port) all.

(** What [port_conflict] makes of what it read. *)
Definition port_diagnosis (port : Z) (service : ServiceStatus) (logs : list JournalEvent) (all : list SocketInfo)
    (processes : list ProcessInfo) (knowledge : option (list Knowledge)) : DiagnosticPortOutput :=
  let sockets := of_port port all in
  MkDiagnosticPortOutput
    (DiagnosePortConflict (MkPortConflictInput service port logs sockets processes (similarity knowledge)))
    knowledge service logs sockets processes.

Definition high_cpu_rca (processes : list ProcessInfo) : RCA :=
  let components := MkConfidenceComponents "0.5" "0" "0.5" "0" in
  let refs := ["/proc/loadavg"; "/proc/<pid>/stat"] in
  let cause := "累计 CPU ticks 较高的进程是候选对象，尚不能仅凭累计值确认根因" in
  MkRCA D2 "" (Score components) components
    (match processes with [] => None | _ => Some [MkCandidateCause cause (Score components) (Some refs)] end)
    (match processes with [] => "" | process :: _ => culprit_of process end)
    (Some refs) (Some ["进程采样窗口 CPU 百分比"; "相关服务日志"]) (Some ["继续采集进程采样窗口和关联服务日志"]).

Definition disk_pressure_rca (path : string) (warning : bool) : RCA :=
  let components := MkConfidenceComponents (flag_value warning) "0" "0" "0" in
  let refs := ["statfs:" +:+ path] in
  let cause := "文件系统容量压力已确认，但异常增长来源尚未确认" in
  MkRCA (if warning then D2 else D3) "" (Score components) components
    (if warning then Some [MkCandidateCause cause (Score components) (Some refs)] else None)
    "" (Some refs) (Some ["大型文件列表"; "文件写入进程"; "日志增长模式"])
    (Some ["在 SafeOps Lab allowlist 内继续定位大型文件和写入进程"]).
End Findings.

Section DiagnosticServer.
Context {H : Type} `{Machine H} `{HostCalls H} `{FloatText} `{FloatPrint} `{EdgeRange} `{UnicodeCase} `{Sprinter} `{MathExp}.
Variables (procRoot etcRoot systemctl journalctl : string) (pageSize : Z).

(** The retriever, when there is one: the documents may be the nil slice. *)
Variable retriever : option (string -> Z -> M H (option (list Knowledge))).

Definition query_text (unit_ : string) (port : Z) (logs : list JournalEvent) : string :=
  Join (unit_ :: ("port " +:+ show_Z port +:+ " 端口冲突") :: map je_Message logs) " ".

Definition retrieve (unit_ : string) (port : Z) (logs : list JournalEvent) : M H (option (list Knowledge)) :=
  match retriever with
  | None => ret None
  | Some search => wrapping "retrieve diagnostic knowledge: " (search (query_text unit_ port logs) 3)
  end.

Definition port_conflict (unit_ : string) (port : Z) : M H DiagnosticPortOutput :=
  lift (guard_ (String.eqb unit_ "" || (port <? 1) || (65535 <? port)) (EMsg "valid unit and port are required")) ;;;
  service <- Platform.Service systemctl unit_ ;;
  logs <- Journal journalctl unit_ 200 (-1) ;;
  all <- Sockets procRoot false 5000 ;;
  processes <- ProcessesByPort procRoot pageSize port ;;
  knowledge <- retrieve unit_ port logs ;;
  ret (port_diagnosis port service logs all processes knowledge).

Definition high_cpu (limit : Z) : M H HighCPUOutput :=
  let limit := if limit =? 0 then 10 else limit in
  lift (guard_ ((limit <? 1) || (50 <? limit)) (EMsg "limit must be between 1 and 50")) ;;;
  load <- Load procRoot ;;
  processes <- Processes procRoot pageSize "" limit "cpu" ;;
  ret (MkHighCPUOutput load processes (high_cpu_rca processes)).

Definition disk_pressure (path : string) (warning_ratio : float64) : M H DiskOutput :=
  let path := if String.eqb path "" then "/" else path in
  lift (guard_ (negb (IsAbs path)) (EMsg "path must be absolute")) ;;;
  let threshold := if f_mant warning_ratio =? 0 then literal "0.85" else warning_ratio in
  lift (guard_ (float_lt threshold (literal "0.5") || float_lt one_float threshold)
          (EMsg "warning_ratio must be between 0.5 and 1.0")) ;;;
  disk <- Disk path ;;
  let warning := negb (float_lt (du_UsedRatio disk) threshold) in
  ret (MkDiskOutput disk warning (disk_pressure_rca path warning)).

(** The optional parts of the snapshot. *)
Definition snapshot_service (unit_ : string) : M H (option ServiceStatus) :=
  if String.eqb unit_ "" then ret None else service <- Platform.Service systemctl unit_ ;; ret (Some service).
Definition snapshot_port (port : Z) : M H (list SocketInfo * list ProcessInfo) :=
  if port =? 0 then ret ([], [])
  else
    lift (valid_port port) ;;;
    all <- Sockets procRoot false 5000 ;;
    processes <- ProcessesByPort procRoot pageSize port ;;
    ret (of_port port all, processes).

Context `{UnicodeClass}.
Definition build_snapshot (unit_ : string) (port : Z) (path : string) : M H SnapshotOutput :=
  kernel <- Kernel etcRoot ;;
  load <- Load procRoot ;;
  memory <- Memory procRoot ;;
  disk <- Disk (if String.eqb path "" then "/" else path) ;;
  service <- snapshot_service unit_ ;;
  found <- snapshot_port port ;;
  ret (MkSnapshotOutput kernel load memory disk service (fst found) (snd found)).
End DiagnosticServer.

(** ** The answers as JSON *)

(** An empty slice is nil or not, as its reader left it. *)
Definition list_json {A} (nil : bool) (f : A -> json) (l : list A) : json :=
  match l with [] => if nil then JNull else JArr [] | _ => JArr (map f l) end.

Definition service_json (s : ServiceStatus) : json :=
  JObj ([("name", JStr (ss_Name s)); ("description", JStr (ss_Description s)); ("load_state", JStr (ss_LoadState s));
         ("active_state", JStr (ss_ActiveState s)); ("sub_state", JStr (ss_SubState s)); ("main_pid", JInt (ss_MainPID s));
         ("exec_main_status", JInt (ss_ExecMainStatus s)); ("restart_count", JInt (ss_RestartCount s))]
        ++ omit (String.eqb (ss_FragmentPath s) "") "fragment_path" (JStr (ss_FragmentPath s))).

Definition process_json (p : ProcessInfo) : json :=
  JObj ([("pid", JInt (pi_PID p)); ("ppid", JInt (pi_PPID p)); ("name", JStr (pi_Name p)); ("state", JStr (pi_State p));
         ("uid", JInt (pi_UID p)); ("command", JStr (pi_Command p))]
        ++ omit (String.eqb (pi_Executable p) "") "executable" (JStr (pi_Executable p))
        ++ [("start_ticks", JInt (pi_StartTicks p)); ("cpu_ticks", JInt (pi_CPUTicks p)); ("rss_bytes", JInt (pi_RSSBytes p))]).

Definition socket_json (s : SocketInfo) : json :=
  JObj [("protocol", JStr (so_Protocol s)); ("local_address", JStr (so_LocalAddress s)); ("local_port", JInt (so_LocalPort s));
        ("remote_address", JStr (so_RemoteAddress s)); ("remote_port", JInt (so_RemotePort s)); ("state", JStr (so_State s));
        ("inode", JStr (so_Inode s)); ("listening", JBool (so_Listening s))].

Definition event_json `{TimeText} (e : JournalEvent) : json :=
  JObj ([("timestamp", JStr (time_text (je_Timestamp e)))]
        ++ omit (String.eqb (je_Unit e) "") "unit" (JStr (je_Unit e)) ++ omit (je_PID e =? 0) "pid" (JInt (je_PID e))
        ++ [("priority", JInt (je_Priority e)); ("message", JStr (je_Message e))]
        ++ omit (String.eqb (je_BootID e) "") "boot_id" (JStr (je_BootID e)) ++ omit (String.eqb (je_Cursor e) "") "cursor" (JStr (je_Cursor e))
        ++ [("redacted", JBool (je_Redacted e))]).

Definition node_json (n : Node) : json :=
  JObj ([("id", JStr (nd_ID n)); ("type", JStr (nd_Type n)); ("label", JStr (nd_Label n))]
        ++ omit (nil_slice (map_to_list (nd_Attributes n))) "attributes" (JMap (nd_Attributes n))
        ++ omit (nil_slice (nd_EvidenceRefs n)) "evidence_refs" (slice JStr (nd_EvidenceRefs n))).
Definition edge_json (e : Edge) : json :=
  JObj ([("from", JStr (ed_From e)); ("to", JStr (ed_To e)); ("relation", JStr (ed_Relation e))]
        ++ omit (nil_slice (ed_EvidenceRefs e)) "evidence_refs" (slice JStr (ed_EvidenceRefs e))).
Definition snapshot_json (s : Snapshot) : json :=
  JObj [("nodes", list_json false node_json (sp_Nodes s)); ("edges", list_json false edge_json (sp_Edges s))].
Definition diagnosis_json (o : PortConflictOutput) : json :=
  JObj [("rca", rca_json (pco_RCA o)); ("evidence_graph", snapshot_json (pco_Graph o))].

Section Answers.
Context `{TimeText} `{FloatPrint} (nil : bool).

Definition status_answer (s : ServiceStatus) : json := JObj [("service", service_json s)].

Definition events_answer (o : EventsOutput) : json :=
  JObj ([("events", list_json nil event_json (ev_Events o)); ("count", JInt (ev_Count o)); ("partial", JBool (ev_Partial o))]
        ++ omit (String.eqb (ev_Note o) "") "note" (JStr (ev_Note o))).

Definition port_answer (o : PortOutput) : json :=
  JObj [("port", JInt (pt_Port o)); ("occupied", JBool (pt_Occupied o)); ("sockets", list_json true socket_json (pt_Sockets o));
        ("processes", list_json nil process_json (pt_Processes o)); ("owner_partial", JBool (pt_OwnerPartial o))].

Definition processes_answer (o : ProcessesOutput) : json :=
  JObj ([("processes", list_json nil process_json (po_Processes o)); ("count", JInt (po_Count o)); ("partial", JBool (po_Partial o))]
        ++ omit (String.eqb (po_Note o) "") "note" (JStr (po_Note o))).

Definition diagnostic_answer (o : DiagnosticPortOutput) : json :=
  JObj [("diagnosis", diagnosis_json (dg_Diagnosis o)); ("knowledge", slice_json knowledge_json (dg_Knowledge o));
        ("service", service_json (dg_Service o)); ("logs", list_json nil event_json (dg_Logs o));
        ("sockets", list_json true socket_json (dg_Sockets o)); ("processes", list_json nil process_json (dg_Processes o))].
End Answers.

(** ** What is answered is what the agent decodes *)

(** The keys of an untyped value come back sorted; a struct is decoded from
    its fields in any order. *)
Definition keys (fields : list (string * json)) : list string := map (fun kv => fold_name kv.1) fields.
Definition fields_any (fields : list (string * json)) : list (string * json) := map (fun kv => (kv.1, as_any kv.2)) fields.

Fixpoint apart (l : list string) : bool := match l with [] => true | x :: l => negb (string_in x l) && apart l end.
Lemma apart_ok l : apart l = true -> NoDup l.
Proof.
  induction l as [|x l IH]; cbn; [by constructor|]. intros [Hx%negb_true_iff Hl]%andb_true_iff. constructor; [|by apply IH].
  by rewrite <- string_in_spec, Hx.
Qed.

Lemma keys_any fields : keys (fields_any fields) = keys fields.
Proof. unfold keys, fields_any. by rewrite map_map. Qed.

Lemma dec_field_perm {A} name (d : decoder A) l l' prev : NoDup (keys l) -> l ≡ₚ l' -> dec_field name d l prev = dec_field name d l' prev.
Proof.
  intros Hn Hp. revert prev Hn. induction Hp as [|[k v] l l' _ IH|[k v] [k' v'] l|l l' l'' Hp IH Hp' IH']; intros prev Hn; [done|..].
  - apply NoDup_cons in Hn as [_ Hn]. cbn. destruct (String.eqb _ _); [|by apply IH]. destruct (d v prev); [by apply IH|done].
  - cbn in *. apply NoDup_cons in Hn as [Hin _]. rewrite not_elem_of_cons in Hin. destruct Hin as [Hne _].
    destruct (String.eqb (fold_name k) name) eqn:Hk, (String.eqb (fold_name k') name) eqn:Hk'; try done.
    apply String.eqb_eq in Hk, Hk'. congruence.
  - rewrite IH by done. apply IH'. unfold keys. by rewrite <- Hp.
Qed.

Lemma as_any_obj fields : NoDup (keys fields) -> exists l, as_any (JObj fields) = JObj l /\ fields_any fields ≡ₚ l.
Proof.
  intros Hn. eexists. split; [reflexivity|]. rewrite merge_sort_Permutation, map_to_list_to_map.
  - by rewrite <- (Permutation_rev (map _ fields)).
  - rewrite <- (Permutation_rev (map _ fields)). rewrite <- keys_any in Hn. unfold keys, fields_any in Hn. rewrite map_map in Hn.
    rewrite <- list_fmap_compose. by apply (NoDup_fmap_1 fold_name); rewrite <- list_fmap_compose.
Qed.

Lemma read_struct {A} (d : list (string * json) -> A -> option A) fields prev x :
  NoDup (keys fields) -> (forall l l', NoDup (keys l) -> l ≡ₚ l' -> d l prev = d l' prev) ->
  d (fields_any fields ++ []) prev = Some x -> dec_struct d (as_any (JObj fields)) prev = Some x.
Proof.
  rewrite app_nil_r.
  intros Hn Hs Hd. destruct (as_any_obj fields Hn) as (l&->&Hp). cbn. rewrite <- (Hs (fields_any fields)); [done| |done].
  by rewrite keys_any.
Qed.

Lemma any_app l l' : fields_any (l ++ l') = fields_any l ++ fields_any l'.
Proof. apply map_app. Qed.
Lemma any_omit c k v : fields_any (omit c k v) = omit c k (as_any v).
Proof. by destruct c. Qed.
Lemma any_cons k v l : fields_any ((k, v) :: l) = (k, as_any v) :: fields_any l.
Proof. done. Qed.
Lemma any_nil : fields_any [] = [].
Proof. done. Qed.
Lemma any_int z : as_any (JInt z) = JInt z.
Proof. done. Qed.
Lemma any_str s : as_any (JStr s) = JStr s.
Proof. done. Qed.
Lemma any_num lit : as_any (JNum lit) = JNum lit.
Proof. done. Qed.

(** The keys are told apart whatever is left out; the decoder asks for fields
    only; and the fields are there. *)
Ltac told_apart :=
  repeat match goal with |- context [omit ?c _ _] => lazymatch c with true => fail | false => fail | _ => destruct c end end; unfold keys; cbn [map fst app omit];
  apply apart_ok; vm_compute; reflexivity.
Ltac asks_fields :=
  let l := fresh in let l' := fresh in let Hn := fresh in let Hp := fresh in
  intros l l' Hn Hp;
  repeat match goal with
         | |- context [dec_field ?n ?d l ?p] => rewrite (dec_field_perm n d l l' p Hn Hp); destruct (dec_field n d l' p); [|reflexivity]
         end;
  reflexivity.
Ltac read_fields :=
  rewrite ?any_app, ?any_omit, ?any_cons, ?any_nil, ?any_int, ?any_str, ?any_num, <- ?app_assoc; cbn [app];
  repeat (eapply let_ok; [dec_fields|]; cbv beta).
Ltac read_struct_ok := apply read_struct; [told_apart|asks_fields|read_fields].

(** The numbers of a host that a [float64] carries: an untyped number is
    one on its way. *)
Definition carried (z : Z) : Prop := - 2 ^ 53 <= z <= 2 ^ 53.
Definition carried_nat (z : Z) : Prop := 0 <= z <= 2 ^ 53.
Lemma carried_int z : carried z -> int_ok z.
Proof. unfold carried, int_ok, max_int64. lia. Qed.
Lemma carried_uint z : carried_nat z -> uint_ok z.
Proof. unfold carried_nat, uint_ok, max_uint64. lia. Qed.
#[export] Hint Resolve carried_int carried_uint : wire.

Record service_carried (s : ServiceStatus) : Prop := {
  sc_pid : carried (ss_MainPID s);
  sc_status : carried (ss_ExecMainStatus s);
  sc_restarts : carried_nat (ss_RestartCount s)
}.
Record process_carried (p : ProcessInfo) : Prop := {
  pc_pid : carried (pi_PID p);
  pc_ppid : carried (pi_PPID p);
  pc_uid : carried (pi_UID p);
  pc_start : carried_nat (pi_StartTicks p);
  pc_cpu : carried_nat (pi_CPUTicks p);
  pc_rss : carried_nat (pi_RSSBytes p)
}.

Lemma read_service s : service_carried s -> dec_service (as_any (service_json s)) zero_service = Some s.
Proof. intros []. read_struct_ok. by destruct s. Qed.
Lemma read_process p : process_carried p -> dec_process (as_any (process_json p)) zero_process = Some p.
Proof. intros []. read_struct_ok. by destruct p. Qed.

(** *** Numbers with a point, slices, and the root-cause record *)
Definition readable (lit : string) : Prop := is_Some (ParseFloat lit).

Lemma read_float lit prev : readable lit -> dec_float (JNum lit) prev = Some lit.
Proof. intros [f Hf]. cbn. by rewrite Hf. Qed.
Lemma read_slice {A} (d : decoder A) zero (f : A -> json) l prev : Forall (fun x => d (as_any (f x)) zero = Some x) l ->
  dec_slice d zero (as_any (slice_json f (Some l))) prev = Some (Some l).
Proof.
  intros Hl. cbn. rewrite !map_map. rewrite (all_some_map (fun x => d (as_any (f x)) zero) (fun x => x)) by done. cbn. by rewrite map_id.
Qed.
Lemma read_strings l prev : dec_strings (as_any (strings_json l)) prev = Some l.
Proof.
  destruct l as [l|]; [|done]. apply (read_slice dec_string "" JStr). by apply Forall_forall.
Qed.
Lemma read_list {A} (d : decoder A) zero (f : A -> json) nil l prev : Forall (fun x => d (as_any (f x)) zero = Some x) l ->
  exists r, dec_slice d zero (as_any (list_json nil f l)) prev = Some r /\ default [] r = l.
Proof.
  intros Hl. destruct l as [|x l]; [destruct nil; by eexists|]. exists (Some (x :: l)). split; [|done].
  exact (read_slice d zero f (x :: l) prev Hl).
Qed.
#[export] Hint Resolve read_float read_strings : wire.

Definition components_readable (c : ConfidenceComponents) : Prop :=
  readable (cc_SignalMatch c) /\ readable (cc_LogPatternMatch c) /\ readable (cc_GraphConsistency c) /\ readable (cc_CaseSimilarity c).

Record rca_readable (r : RCA) : Prop := {
  rr_confidence : readable (rca_Confidence r);
  rr_components : components_readable (rca_ConfidenceComponents r);
  rr_causes : exists l, rca_CandidateCauses r = Some l /\ Forall (fun c => readable (cu_Score c)) l
}.

Lemma read_components c prev : components_readable c -> dec_components (as_any (components_json c)) prev = Some c.
Proof. intros (?&?&?&?). read_struct_ok. by destruct c. Qed.
Lemma read_cause c : readable (cu_Score c) -> dec_cause (as_any (cause_json c)) zero_cause = Some c.
Proof. intros ?. read_struct_ok. by destruct c. Qed.
Lemma read_causes l prev : Forall (fun c => readable (cu_Score c)) l ->
  dec_slice dec_cause zero_cause (as_any (slice_json cause_json (Some l))) prev = Some (Some l).
Proof. intros Hl. apply read_slice. eapply Forall_impl; [exact Hl|]. apply read_cause. Qed.
#[export] Hint Resolve read_components read_causes : wire.

Lemma read_rca r : rca_readable r -> dec_rca (as_any (rca_json r)) zero_rca = Some r.
Proof. intros [? ? (l&Hl&?)]. unfold rca_json. rewrite Hl. read_struct_ok. rewrite <- Hl. by destruct r. Qed.

Lemma read_knowledge k : readable (kn_Score k) -> dec_knowledge (as_any (knowledge_json k)) zero_knowledge = Some k.
Proof. intros ?. read_struct_ok. by destruct k. Qed.

(** *** The evidence of the workflows *)
Lemma decoded_struct {A} (d : list (string * json) -> A -> option A) fields zero x :
  NoDup (keys fields) -> (forall l l', NoDup (keys l) -> l ≡ₚ l' -> d l zero = d l' zero) -> d (fields_any fields ++ []) zero = Some x ->
  decodeStructured (JObj fields) (dec_struct d) zero = Ok x.
Proof. intros. unfold decodeStructured. by erewrite read_struct. Qed.
Ltac decoded := apply decoded_struct; [told_apart|asks_fields|].

Lemma service_answered s : service_carried s -> service_evidence (status_answer s) = Ok s.
Proof. intros Hs. decoded. eapply cons_here; [done|by apply read_service|done]. Qed.

Lemma port_answered nil o : port_evidence (port_answer nil o) = Ok (pt_Occupied o).
Proof. decoded. rewrite ?any_cons. dec_fields. Qed.

Lemma processes_answered nil o : Forall process_carried (po_Processes o) -> process_evidence (processes_answer nil o) = Ok (po_Processes o).
Proof.
  intros Hp. destruct (read_list dec_process zero_process process_json nil (po_Processes o) None) as (r&Hr&Ho).
  { eapply Forall_impl; [exact Hp|]. apply read_process. }
  apply rbind_ok. exists r. split; [|by rewrite Ho]. decoded. rewrite any_app, any_omit, ?any_cons, <- app_assoc. cbn [app].
  eapply cons_here; [done|exact Hr|]. dec_fields.
Qed.

Section Diagnosed.
Context `{TimeText} `{UnicodeCase} `{FloatPrint} `{!FloatPrintOk} `{EdgeRange} `{MathExp}.

Lemma flag_readable b : readable (flag_value b).
Proof. destruct b; eexists; vm_compute; reflexivity. Qed.

Lemma score_readable c : readable (Score c).
Proof. apply float_text_reads, score_finite. Qed.

Lemma diagnosis_readable i : readable (pci_CaseSimilarity i) -> rca_readable (pco_RCA (DiagnosePortConflict i)).
Proof.
  intros Hs. rewrite diagnosed. unfold port_result, diagnosed_components.
  destruct (_ && _ && _); [|destruct (_ || _)];
    split; cbn [rca_Confidence rca_ConfidenceComponents rca_CandidateCauses]; try apply score_readable;
    try (split_and!; [apply flag_readable..|done]); eexists; (split; [done|]); repeat constructor; apply score_readable.
Qed.

Lemma similarity_readable knowledge : readable (similarity knowledge).
Proof.
  unfold similarity. destruct (default [] knowledge); [eexists; vm_compute; reflexivity|].
  apply float_text_reads. unfold round. apply float_scale_finite. by vm_compute.
Qed.

(** What the reading of a port and the level of a diagnosis stand for. *)
Lemma occupied_spec owners all : pt_Occupied (port_output demoPort "tcp" all owners) = true <->
  exists s, s ∈ all /\ so_LocalPort s = demoPort /\ HasPrefix (so_Protocol s) "tcp" = true.
Proof.
  cbn [pt_Occupied port_output]. split.
  - destruct (List.filter _ all) as [|s l] eqn:Hf; [done|]. intros _. exists s.
    assert (Hs : In s (List.filter (port_matches demoPort "tcp") all)) by (rewrite Hf; by left).
    apply filter_In in Hs as [Hs Hm]. split; [by apply list_elem_of_In|]. unfold port_matches in Hm. cbn in Hm.
    apply andb_true_iff in Hm as [?%Z.eqb_eq ?]. done.
  - intros (s&Hs&Hp&Ht). assert (Hin : In s (List.filter (port_matches demoPort "tcp") all)).
    { apply filter_In. split; [by apply list_elem_of_In|]. unfold port_matches. by rewrite Hp, Z.eqb_refl, Ht. }
    by destruct (List.filter _ _).
Qed.

Lemma d1_spec service logs all processes knowledge :
  rca_DiagnosisLevel (pco_RCA (dg_Diagnosis (port_diagnosis demoPort service logs all processes knowledge))) = D1 <->
  (exists s, s ∈ all /\ so_LocalPort s = demoPort /\ so_Listening s = true) /\
  (exists event, event ∈ logs /\ conflict_log event = true) /\ processes <> [].
Proof.
  unfold port_diagnosis. cbn [dg_Diagnosis]. rewrite level_d1. unfold listened, logged. cbn [pci_Sockets pci_Port pci_Logs pci_Processes].
  assert (Hs : (exists s, s ∈ of_port demoPort all /\ holds_port demoPort s = true) <->
               (exists s, s ∈ all /\ so_LocalPort s = demoPort /\ so_Listening s = true)); [|by rewrite Hs].
  unfold of_port, holds_port. split; intros (s&Hin&Hs); exists s; revert Hin Hs; rewrite !list_elem_of_In, ?filter_In, ?andb_true_iff, ?Z.eqb_eq; tauto.
Qed.

Definition scores_readable (knowledge : option (list Knowledge)) : Prop := Forall (fun k => readable (kn_Score k)) (default [] knowledge).

Lemma diagnosis_answered nil o : rca_readable (pco_RCA (dg_Diagnosis o)) -> scores_readable (dg_Knowledge o) ->
  diagnosis_evidence (diagnostic_answer nil o) = Ok (pco_RCA (dg_Diagnosis o), default [] (dg_Knowledge o)).
Proof.
  intros Hr Hk. apply rbind_ok. exists (pco_RCA (dg_Diagnosis o), dg_Knowledge o). split; [|done]. decoded. rewrite ?any_cons. cbn [app].
  eapply let_ok; [eapply cons_here; [done| |dec_fields]|].
  { apply read_struct; [told_apart|asks_fields|]. rewrite ?any_cons. eapply cons_here; [done|by apply read_rca|dec_fields]. }
  cbv beta. eapply let_ok; [apply cons_skip; [done|]; eapply cons_here; [done| |dec_fields]|done].
  destruct (dg_Knowledge o) as [l|]; [|done]. apply read_slice. eapply Forall_impl; [exact Hk|]. apply read_knowledge.
Qed.

(** C34: the port workflow asks to terminate a process exactly when the host
    shows the conflict.  Whatever the servers read of the host, the agent
    decodes it from their answers, and [port_owner] names a process exactly
    when: the service is not active, [network.check_port] saw a TCP socket of
    the port, the diagnosis saw a listening socket of the port, a line of the
    service's journal that names the conflict and a process of the port, and
    among the processes [process.find_by_port] found, that process is the only
    one that runs the holder's executable. *)
Theorem recovery_asked_exactly (nil : bool) (note : string) (service service' : ServiceStatus) (events : EventsOutput)
    (all all' : list SocketInfo) (owners holders processes : list ProcessInfo) (logs : list JournalEvent)
    (knowledge : option (list Knowledge)) (p : ProcessInfo)
    (Hservice : service_carried service) (Hholders : Forall process_carried holders) (Hknowledge : scores_readable knowledge) :
  (exists e, decode_port [status_answer service; events_answer nil events; port_answer nil (port_output demoPort "tcp" all owners);
                          processes_answer nil (processes_output note holders);
                          diagnostic_answer nil (port_diagnosis demoPort service' logs all' processes knowledge)] = Ok e /\
     port_owner e = Ok p) <->
  ss_ActiveState service <> "active" /\
  (exists s, s ∈ all /\ so_LocalPort s = demoPort /\ HasPrefix (so_Protocol s) "tcp" = true) /\
  (exists s, s ∈ all' /\ so_LocalPort s = demoPort /\ so_Listening s = true) /\
  (exists event, event ∈ logs /\ conflict_log event = true) /\ processes <> [] /\
  matching demoHolderExecutable holders = [p].
Proof.
  set (d := port_diagnosis demoPort service' logs all' processes knowledge).
  assert (Hd : diagnosis_evidence (diagnostic_answer nil d) = Ok (pco_RCA (dg_Diagnosis d), default [] knowledge)).
  { apply diagnosis_answered; [|done]. apply diagnosis_readable, similarity_readable. }
  unfold decode_port. cbn [nth]. rewrite service_answered, port_answered, processes_answered, Hd by done. cbn [wrap_err rbind fst snd].
  pose proof (occupied_spec owners all) as Hocc. pose proof (d1_spec service' logs all' processes knowledge) as Hd1.
  fold d in Hd1. split.
  - intros (e&[= <-]&(Ha&Ho&Hl&_&Hp)%port_owner_spec). cbn in Ha, Hl, Hp. tauto.
  - intros (Ha&Ho&Hs&Hg&Hn&Hp). eexists. split; [done|]. unfold port_owner. cbn [pe_service pe_occupied pe_processes pe_rca].
    assert (Hl : rca_DiagnosisLevel (pco_RCA (dg_Diagnosis d)) = D1) by tauto.
    rewrite (proj2 (String.eqb_neq _ _) Ha), (proj2 Hocc Ho), Hl.
    assert (Hr : String.eqb (rca_RootCause (pco_RCA (dg_Diagnosis d))) "" = false) by exact (proj2 (String.eqb_neq _ _) (d1_root_cause _ Hl)).
    rewrite Hr. cbn. unfold uniqueDemoHolder. by rewrite Hp.
Qed.
End Diagnosed.

(** ** Example *)
Module Lab.
#[local] Existing Instance Diagnosis.Lab.ascii_only.
#[local] Existing Instance Diagnosis.Lab.in_order.
#[local] Existing Instance Diagnosis.Lab.thousandths.
#[local] Existing Instance Diagnosis.Lab.thousandths_ok.
#[local] Instance no_time : TimeText := fun t => show_Z t.
(** The first terms of the series. *)
#[local] Instance series : MathExp := fun x => rounded (fadd one_float x).
Import Diagnosis.Lab.

Definition waiting : SocketInfo := MkSocketInfo "tcp" "127.0.0.1" 18081 "127.0.0.1" 50000 "TIME_WAIT" "0" false.

(** A connection of the past counts as the listener: the verification of the
    port accepts it. *)
Example time_wait_occupies : pt_Occupied (port_output demoPort "tcp" [waiting] []) = true /\ so_Listening waiting = false.
Proof. done. Qed.

Example durations :
  (duration_text (round_second 59499999999), duration_text (round_second 3661500000000), duration_text (round_second 0))
  = ("59s", "1h1m2s", "0s").
Proof. vm_compute. reflexivity. Qed.

Example usage : cpu_usage (MkCPUStat [] 1000 400) (MkCPUStat [] 1400 500) = MkFloat 7036874417766400 (-48).
Proof. vm_compute. reflexivity. Qed.

Lemma recovery_asked_exactly_witness :
  exists e, decode_port [status_answer web; events_answer false (events_output [refused]);
                         port_answer false (port_output demoPort "tcp" [tcp_socket] [holder]);
                         processes_answer false (processes_output "note" [holder]);
                         diagnostic_answer false (port_diagnosis demoPort web [started; refused] [tcp_socket; waiting] [holder] None)] = Ok e /\
    port_owner e = Ok holder.
Proof.
  apply (recovery_asked_exactly false "note" web web (events_output [refused]) [tcp_socket] [tcp_socket; waiting] [holder] [holder] [holder]
           [started; refused] None holder).
  - split; vm_compute; split; congruence.
  - repeat constructor; vm_compute; congruence.
  - constructor.
  - split_and!; [done| | | |done|vm_compute; reflexivity].
    + exists tcp_socket. split_and!; [by apply list_elem_of_singleton|done|done].
    + exists tcp_socket. split_and!; [by apply elem_of_cons; left|done|done].
    + exists refused. split; [|by vm_compute]. rewrite !elem_of_cons. auto.
Defined.
End Lab.
