(* ===== verification/Retrieval.v ===== *)
(** * [internal/retrieval]: the ranking of knowledge documents

    The index of the documents and the search with the BM25 weights
    ([bm25.go]), in the arithmetic of [float64] with the logarithm as a
    parameter.  The theorems: what the index holds, and what a search gives:
    its order, its bound, and that it names exactly the terms a document
    shares with the query.  [LoadDirectory] is outside the model. *)

From S2P Require Import Prelude GoStrings GoText GoPath Json Unicode Hash Contracts Platform Planner Handlers Store Agent Network Decode Diagnosis ToolServers.
Open Scope Z_scope.

(** The tables of Han characters and decimal digits, the natural logarithm,
    and the order in which a map is ranged over. *)
Class UnicodeHan := {
  uni_han : N -> bool;
  uni_digit : N -> bool
}.
Class MathLog := math_Log : float64 -> float64.
Class MapOrder := map_order : list string -> list string.

(** ** Records of [retrieval.go] and [bm25.go] *)
Record KnowledgeDocument := MkKnowledgeDocument {
  kd_DocumentID : string;
  kd_DocumentType : string;
  kd_Title : string;
  kd_Content : string;
  kd_Tags : list string;
  kd_Service : string;
  kd_ErrorPatterns : list string;
  kd_Source : string;
  kd_Version : string
}.
Record Result := MkResult {
  rt_DocumentID : string;
  rt_Score : float64;
  rt_MatchedTerms : list string;
  rt_Source : string;
  rt_Title : string
}.
Record indexedDocument := MkIndexedDocument {
  ix_doc : KnowledgeDocument;
  ix_tokens : list string;
  ix_freq : gmap string Z
}.
Record BM25 := MkBM25 {
  bm_documents : list indexedDocument;
  bm_df : gmap string Z;
  bm_avgLength : float64;
  bm_k1 : float64;
  bm_b : float64
}.

Definition is_han `{UnicodeHan} (r : N) : bool := (128 <=? r)%N && uni_han r.
Definition is_digit_rune `{UnicodeHan} (r : N) : bool := if (r <? 128)%N then in_range 48 57 r else uni_digit r.

(** ** [tokenize]: words of letters and digits, and each Han character by
    itself and with the one before it. *)
Section Tokenize.
Context `{UnicodeCase} `{UnicodeClass} `{UnicodeHan}.

Definition flush (out : list string) (word : list N) : list string :=
  if nil_slice word then out else out ++ [ToLower (encode_runes word)].

Fixpoint tokenize_loop (rs : list N) (out : list string) (word : list N) (previousHan : N) : list string :=
  match rs with
  | [] => flush out word
  | r :: rs =>
    if is_han r then
      let out := flush out word ++ [encode_rune r] in
      tokenize_loop rs (if (previousHan =? 0)%N then out else out ++ [encode_runes [previousHan; r]]) [] r
    else if is_letter r || is_digit_rune r || (r =? 95)%N || (r =? 45)%N then
      tokenize_loop rs out (word ++ [lower_rune r]) 0%N
    else tokenize_loop rs (flush out word) [] 0%N
  end.
Definition tokenize (value : string) : list string := tokenize_loop (runes value) [] [] 0%N.

(** ** [NewBM25] *)
Definition count (m : gmap string Z) (token : string) : Z := default 0 (m !! token).
Definition frequencies (tokens : list string) : gmap string Z := foldl (fun m token => <[token := count m token + 1]> m) ∅ tokens.

(** Each token of a document once. *)
Definition add_document_frequencies (df freq : gmap string Z) : gmap string Z :=
  foldl (fun m token => <[token := count m token + 1]> m) df (map_to_list freq).*1.

Definition document_text (doc : KnowledgeDocument) : string :=
  kd_Title doc +:+ " " +:+ kd_Content doc +:+ " " +:+ Join (kd_Tags doc) " " +:+ " " +:+ kd_Service doc +:+ " " +:+ Join (kd_ErrorPatterns doc) " ".

Fixpoint index_loop (documents : list KnowledgeDocument) (seenIDs : list string) (indexed : list indexedDocument) (df : gmap string Z) (total : Z)
  : result (list indexedDocument * gmap string Z * Z) :=
  match documents with
  | [] => Ok (indexed, df, total)
  | doc :: documents =>
    if String.eqb (kd_DocumentID doc) "" || String.eqb (kd_Title doc) "" || String.eqb (kd_Source doc) ""
    then Err (EMsg "knowledge document requires id, title, and source")
    else if string_in (kd_DocumentID doc) seenIDs then Err (EMsg "duplicate knowledge document id")
    else
      let tokens := tokenize (document_text doc) in
      let freq := frequencies tokens in
      index_loop documents (kd_DocumentID doc :: seenIDs) (indexed ++ [MkIndexedDocument doc tokens freq]) (add_document_frequencies df freq)
        (total + Z.of_nat (length tokens))
  end.

Definition float_int (n : Z) : float64 := rounded (float_of_Z n).

Definition NewBM25 (documents : list KnowledgeDocument) : result BM25 :=
  if nil_slice documents then Err (EMsg "knowledge corpus is empty")
  else
    let? index := index_loop documents [] [] ∅ 0 in
    let '(indexed, df, total) := index in
    Ok (MkBM25 indexed df (rounded (fdiv (float_int total) (float_int (Z.of_nat (length indexed))))) (MkFloat 3 (-1)) (MkFloat 3 (-2))).

(** ** [Search] *)
Context `{MathLog} `{MapOrder}.

Definition one : float64 := MkFloat 1 0.
Definition half : float64 := MkFloat 1 (-1).
Definition plus_ (a b : float64) : float64 := rounded (fadd a b).
Definition minus_ (a b : float64) : float64 := rounded (fadd a (fneg b)).
Definition times_ (a b : float64) : float64 := rounded (fmul a b).
Definition over (a b : float64) : float64 := rounded (fdiv a b).

Definition idf (n df : float64) : float64 := math_Log (plus_ one (over (plus_ (minus_ n df) half) (plus_ df half))).

Definition weight (index : BM25) (length_ tf idf_ : float64) : float64 :=
  over (times_ idf_ (times_ tf (plus_ (bm_k1 index) one)))
    (plus_ tf (times_ (bm_k1 index) (plus_ (minus_ one (bm_b index)) (over (times_ (bm_b index) length_) (bm_avgLength index))))).

Fixpoint score_loop (index : BM25) (document : indexedDocument) (tokens : list string) (score : float64) (matched : list string)
  : float64 * list string :=
  match tokens with
  | [] => (score, matched)
  | token :: tokens =>
    let tf := count (ix_freq document) token in
    if tf =? 0 then score_loop index document tokens score matched
    else
      let idf_ := idf (float_int (Z.of_nat (length (bm_documents index)))) (float_int (count (bm_df index) token)) in
      score_loop index document tokens
        (plus_ score (weight index (float_int (Z.of_nat (length (ix_tokens document)))) (float_int tf) idf_)) (matched ++ [token])
  end.

(** [math.Round(score*1000) / 1000] *)
Definition thousandths (score : float64) : float64 := over (float_int (fround (times_ score (float_int 1000)))) (float_int 1000).

Definition scored (index : BM25) (tokens : list string) (document : indexedDocument) : option Result :=
  let '(score, matched) := score_loop index document tokens zero_float [] in
  if float_lt zero_float score then
    let doc := ix_doc document in
    Some (MkResult (kd_DocumentID doc) (thousandths score) (merge_sort String.le matched) (kd_Source doc) (kd_Title doc))
  else None.

Definition ranks_before (a b : Result) : Prop :=
  float_lt (rt_Score b) (rt_Score a) = true \/ float_eq (rt_Score a) (rt_Score b) = true /\ String.le (rt_DocumentID a) (rt_DocumentID b).
#[export] Instance ranks_before_dec a b : Decision (ranks_before a b).
Proof. unfold ranks_before. apply _. Defined.

Definition query_tokens (query : string) : list string := map_order (map_to_list (frequencies (tokenize query))).*1.

Context {St : Type}.

Fixpoint search_loop (index : BM25) (query : string) (documents : list indexedDocument) (out : list Result) : M St (list Result) :=
  match documents with
  | [] => ret out
  | document :: documents =>
    ctx_check ;;;
    search_loop index query documents (out ++ match scored index (query_tokens query) document with Some r => [r] | None => [] end)
  end.

Definition search_limit (limit : Z) : Z :=
  let limit := if limit <=? 0 then 5 else limit in if 50 <? limit then 50 else limit.

Definition Search (index : BM25) (query : string) (limit : Z) : M St (list Result) :=
  ctx_check ;;;
  out <- search_loop index query (bm_documents index) [] ;;
  let out := merge_sort ranks_before out in
  ret (take (Z.to_nat (search_limit limit)) out).

(** As the diagnostic server holds it: no results are the nil slice. *)
Context `{FloatPrint}.
Definition as_knowledge (r : Result) : Knowledge :=
  MkKnowledge (rt_DocumentID r) (float_text (rt_Score r)) (Some (rt_MatchedTerms r)) (rt_Source r) (rt_Title r).
Definition retriever_of (index : BM25) (query : string) (limit : Z) : M St (option (list Knowledge)) :=
  out <- Search index query limit ;; ret (if nil_slice out then None else Some (map as_knowledge out)).
End Tokenize.

Lemma StronglySorted_firstn {A} (R : A -> A -> Prop) n l : StronglySorted R l -> StronglySorted R (take n l).
Proof.
  intros Hs. revert n. induction Hs as [|a l Hs IH Hf]; intros [|n]; cbn; [constructor..|]. constructor; [apply IH|by apply Forall_take].
Qed.

(** ** The order of results *)
Definition at_exp (e : Z) (f : float64) : Z := f_mant f * 2 ^ (f_exp f - e).

Lemma float_lt_at e f g : e <= f_exp f -> e <= f_exp g -> float_lt f g = (at_exp e f <? at_exp e g).
Proof.
  intros Hf Hg. unfold float_lt, at_exp. set (m := Z.min (f_exp f) (f_exp g)).
  assert (Hm : forall x, m <= x -> 2 ^ (x - e) = 2 ^ (x - m) * 2 ^ (m - e)) by (intros x Hx; rewrite <- Z.pow_add_r by lia; f_equal; lia).
  rewrite (Hm (f_exp f)), (Hm (f_exp g)) by lia. rewrite !Z.mul_assoc. assert (Hp : 0 < 2 ^ (m - e)) by (apply Z.pow_pos_nonneg; lia).
  apply eq_iff_eq_true. rewrite !Z.ltb_lt. split; intros Hlt; [by apply Z.mul_lt_mono_pos_r|by apply Z.mul_lt_mono_pos_r in Hlt].
Qed.

Lemma ranks_at e a b : e <= f_exp (rt_Score a) -> e <= f_exp (rt_Score b) ->
  (ranks_before a b <-> at_exp e (rt_Score b) < at_exp e (rt_Score a) \/
     at_exp e (rt_Score a) = at_exp e (rt_Score b) /\ String.le (rt_DocumentID a) (rt_DocumentID b)).
Proof.
  intros Ha Hb. unfold ranks_before, float_eq. rewrite !(float_lt_at e) by done.
  rewrite andb_true_iff, !negb_true_iff, !Z.ltb_ge, Z.ltb_lt. intuition lia.
Qed.

Lemma ranks_transitive : Transitive ranks_before.
Proof.
  intros a b c. set (e := Z.min (f_exp (rt_Score a)) (Z.min (f_exp (rt_Score b)) (f_exp (rt_Score c)))).
  rewrite !(ranks_at e) by lia. intros [?|[? ?]] [?|[? ?]]; [left; lia..|right; split; [lia|by etrans]].
Qed.

Lemma ranks_total : Total ranks_before.
Proof.
  intros a b. set (e := Z.min (f_exp (rt_Score a)) (f_exp (rt_Score b))). rewrite !(ranks_at e) by lia.
  destruct (stdpp.base.total String.le (rt_DocumentID a) (rt_DocumentID b));
    destruct (Z.lt_total (at_exp e (rt_Score a)) (at_exp e (rt_Score b))) as [?|[?|?]]; auto 6.
Qed.

(** ** The index *)
Section Indexed.
Context `{UnicodeCase} `{UnicodeClass} `{UnicodeHan}.

Lemma frequencies_from tokens m token :
  count (foldl (fun m token => <[token := count m token + 1]> m) m tokens) token =
  count m token + Z.of_nat (count_occ string_dec tokens token).
Proof.
  revert m. induction tokens as [|t tokens IH]; intros m; cbn [foldl count_occ]; [lia|]. rewrite IH. unfold count at 1.
  destruct (string_dec t token) as [->|Hne]; [rewrite lookup_insert_eq; cbn [from_option id]; unfold id; lia|by rewrite lookup_insert_ne].
Qed.

Lemma frequencies_count tokens token : count (frequencies tokens) token = Z.of_nat (count_occ string_dec tokens token).
Proof. unfold frequencies. rewrite frequencies_from. unfold count. by rewrite lookup_empty. Qed.

Lemma frequencies_some tokens token : is_Some (frequencies tokens !! token) <-> token ∈ tokens.
Proof.
  unfold frequencies. assert (Hm : forall m : gmap string Z, is_Some (foldl (fun m token => <[token := count m token + 1]> m) m tokens !! token) <->
    is_Some (m !! token) \/ token ∈ tokens).
  { induction tokens as [|t tokens IH]; intros m; cbn [foldl]; [rewrite elem_of_nil; tauto|]. rewrite IH, elem_of_cons.
    destruct (decide (token = t)) as [->|Hne]; [rewrite lookup_insert_eq; split; [by right; left|left; by eexists]|].
    rewrite lookup_insert_ne by done. tauto. }
  rewrite Hm, lookup_empty. split; [by intros [[]%is_Some_None|?]|by right].
Qed.

Lemma unique_tokens tokens : NoDup (map_to_list (frequencies tokens)).*1 /\ forall t, t ∈ (map_to_list (frequencies tokens)).*1 <-> t ∈ tokens.
Proof.
  split; [apply NoDup_fst_map_to_list|]. intros t. rewrite <- (frequencies_some tokens). split.
  - intros ([t' n]&->&Hin%elem_of_map_to_list)%list_elem_of_fmap. by exists n.
  - intros [n Hn]. apply list_elem_of_fmap. exists (t, n). split; [done|by apply elem_of_map_to_list].
Qed.

Lemma count_occ_pos tokens token : (0 < count_occ string_dec tokens token)%nat <-> token ∈ tokens.
Proof. rewrite list_elem_of_In. split; apply count_occ_In. Qed.

(** The documents of an index, as [NewBM25] makes them. *)
Definition indexed_as (doc : KnowledgeDocument) (d : indexedDocument) : Prop :=
  ix_doc d = doc /\ ix_tokens d = tokenize (document_text doc) /\ ix_freq d = frequencies (tokenize (document_text doc)).

Definition has_token (token : string) (d : indexedDocument) : bool := bool_decide (token ∈ ix_tokens d).

Lemma add_frequencies_count tokens df token :
  count (add_document_frequencies df (frequencies tokens)) token = count df token + (if bool_decide (token ∈ tokens) then 1 else 0).
Proof.
  unfold add_document_frequencies. rewrite frequencies_from. destruct (unique_tokens tokens) as [Hn Hin]. f_equal.
  case_bool_decide as Ht.
  - rewrite (proj1 (NoDup_count_occ' string_dec _) (proj1 (NoDup_ListNoDup _) Hn)); [done|]. by apply list_elem_of_In, Hin.
  - rewrite (proj1 (count_occ_not_In string_dec _ _)); [done|]. intros Hx. by apply Ht, Hin, list_elem_of_In.
Qed.

Lemma index_loop_exact documents seenIDs indexed df total r : index_loop documents seenIDs indexed df total = Ok r ->
  exists added, r.1.1 = indexed ++ added /\ Forall2 indexed_as documents added /\
    (forall t, count r.1.2 t = count df t + Z.of_nat (length (List.filter (has_token t) added))) /\
    r.2 = total + foldr (fun d n => Z.of_nat (length (ix_tokens d)) + n) 0 added /\
    NoDup (map kd_DocumentID documents) /\ Forall (fun doc => kd_DocumentID doc ∉ seenIDs) documents.
Proof.
  revert seenIDs indexed df total. induction documents as [|doc documents IH]; intros seenIDs indexed df total; cbn [index_loop].
  { intros [= <-]. exists []. rewrite app_nil_r. split_and!; [done|constructor|intros; cbn; lia|cbn; lia|constructor|done]. }
  destruct (_ || _); [done|]. destruct (string_in (kd_DocumentID doc) seenIDs) eqn:Hs; [done|].
  intros Hr. apply IH in Hr as (added&E1&HF&Hdf&Ht&Hn&Hseen).
  exists (MkIndexedDocument doc (tokenize (document_text doc)) (frequencies (tokenize (document_text doc))) :: added). split_and!.
  - by rewrite E1, <- app_assoc.
  - constructor; [done|done].
  - intros t. rewrite Hdf, add_frequencies_count. cbn [List.filter]. unfold has_token at 2. cbn [ix_tokens].
    destruct (bool_decide _); cbn [length]; lia.
  - rewrite Ht. cbn [foldr ix_tokens]. lia.
  - cbn [map]. apply NoDup_cons. split; [|done]. intros (d&Hd&Hin)%list_elem_of_fmap. rewrite Forall_forall in Hseen.
    apply (Hseen d Hin). rewrite <- Hd. by left.
  - constructor; [intros Hin%string_in_spec; congruence|]. eapply Forall_impl; [exact Hseen|]. intros d Hd Hin. apply Hd. by right.
Qed.

(** An index holds each document with its tokens and how often each occurs,
    the ids are distinct, and a token's document frequency is the number of
    documents that have it. *)
Theorem NewBM25_exact documents index : NewBM25 documents = Ok index ->
  Forall2 indexed_as documents (bm_documents index) /\ NoDup (map kd_DocumentID documents) /\
  forall t, count (bm_df index) t = Z.of_nat (length (List.filter (has_token t) (bm_documents index))).
Proof.
  unfold NewBM25. destruct (nil_slice documents); [done|]. destruct (index_loop documents [] [] ∅ 0) as [[[indexed df] total]|e] eqn:Hr; [|done].
  intros [= <-]. apply index_loop_exact in Hr as (added&E1&HF&Hdf&_&Hn&_). cbn [fst snd app] in E1, Hdf. subst indexed. split_and!; [done|done|].
  intros t. rewrite Hdf. unfold count at 1. by rewrite lookup_empty.
Qed.

(** ** The search *)
Context `{MathLog} `{MapOrder}.

Lemma score_matched index document tokens score matched :
  (score_loop index document tokens score matched).2 = matched ++ List.filter (fun t => negb (count (ix_freq document) t =? 0)) tokens.
Proof.
  revert score matched. induction tokens as [|t tokens IH]; intros score matched; cbn [score_loop List.filter]; [by rewrite app_nil_r|].
  destruct (count (ix_freq document) t =? 0); cbn [negb]; rewrite IH; [done|by rewrite <- app_assoc].
Qed.

Lemma score_unmatched index document tokens : (score_loop index document tokens zero_float []).2 = [] ->
  (score_loop index document tokens zero_float []).1 = zero_float.
Proof.
  rewrite score_matched. cbn [app]. induction tokens as [|t tokens IH]; [done|]. cbn [score_loop List.filter].
  destruct (count (ix_freq document) t =? 0); cbn [negb]; [exact IH|done].
Qed.

(** What a result says of its document. *)
Definition result_of (query : string) (doc : KnowledgeDocument) (r : Result) : Prop :=
  rt_DocumentID r = kd_DocumentID doc /\ rt_Source r = kd_Source doc /\ rt_Title r = kd_Title doc /\ rt_MatchedTerms r <> [] /\
  NoDup (rt_MatchedTerms r) /\ StronglySorted String.le (rt_MatchedTerms r) /\
  forall t, t ∈ rt_MatchedTerms r <-> t ∈ tokenize query /\ t ∈ tokenize (document_text doc).

Lemma scored_result (Horder : forall l, map_order l ≡ₚ l) index query doc d r : indexed_as doc d ->
  scored index (query_tokens query) d = Some r -> result_of query doc r.
Proof.
  intros (Hd&Ht&Hf). unfold scored. pose proof (score_matched index d (query_tokens query) zero_float []) as Hm.
  pose proof (score_unmatched index d (query_tokens query)) as Hz.
  destruct (score_loop index d (query_tokens query) zero_float []) as [score matched]. cbn [fst snd app] in Hm, Hz.
  destruct (float_lt zero_float score) eqn:Hlt; [|done]. intros [= <-].
  destruct (unique_tokens (tokenize query)) as [Hn Hin].
  assert (Hn' : NoDup (query_tokens query)) by (unfold query_tokens; by rewrite Horder).
  assert (Hq : forall t, t ∈ query_tokens query <-> t ∈ tokenize query) by (intros t; unfold query_tokens; by rewrite Horder).
  unfold result_of. cbn [rt_DocumentID rt_Source rt_Title rt_MatchedTerms]. rewrite Hd. split_and!; [done..| | | |].
  - intros E. assert (Hempty : matched = []) by (apply Permutation_nil; rewrite <- (merge_sort_Permutation String.le matched), E; done).
    rewrite (Hz Hempty) in Hlt. discriminate Hlt.
  - rewrite merge_sort_Permutation, Hm. apply NoDup_ListNoDup, List.NoDup_filter. by apply NoDup_ListNoDup.
  - apply StronglySorted_merge_sort; apply _.
  - intros t. rewrite merge_sort_Permutation, Hm, list_elem_of_In, List.filter_In, <- list_elem_of_In, Hq, Hf, frequencies_count, negb_true_iff, Z.eqb_neq.
    rewrite <- (count_occ_pos (tokenize (document_text doc))). split; intros [? ?]; (split; [done|lia]).
Qed.

Context {St : Type}.

Lemma search_loop_exact index query documents out E w r w' : search_loop (St := St) index query documents out E w = (Ok r, w') ->
  r = out ++ omap (scored index (query_tokens query)) documents.
Proof.
  revert out w. induction documents as [|d documents IH]; intros out w; cbn [search_loop].
  { intros [= <- _]. by rewrite app_nil_r. }
  intros (?&w1&_&Hr)%bind_ok. apply IH in Hr as ->. rewrite <- app_assoc. f_equal. cbn. by destruct (scored _ _ d).
Qed.

(** A search over an index of [NewBM25] gives the best results: at most as
    many as asked for and never more than 50, by falling score and then by id,
    each document once, each with exactly the terms it shares with the query,
    at least one. *)
Theorem search_exact (Horder : forall l, map_order l ≡ₚ l) documents index query limit E w out w' :
  NewBM25 documents = Ok index -> Search (St := St) index query limit E w = (Ok out, w') ->
  Z.of_nat (length out) <= search_limit limit <= 50 /\ StronglySorted ranks_before out /\ NoDup (map rt_DocumentID out) /\
  Forall (fun r => exists doc, doc ∈ documents /\ result_of query doc r) out /\
  out = take (Z.to_nat (search_limit limit)) (merge_sort ranks_before (omap (scored index (query_tokens query)) (bm_documents index))).
Proof.
  intros Hi Hs. destruct (NewBM25_exact _ _ Hi) as (HF&Hn&_). unfold Search in Hs.
  apply bind_ok in Hs as (?&w1&_&Hs). apply bind_ok in Hs as (all&w2&Hall&[= <- _]). apply search_loop_exact in Hall as ->. cbn [app].
  set (results := omap _ _). pose proof (merge_sort_Permutation ranks_before results) as Hp.
  assert (Hl : 0 <= search_limit limit <= 50).
  { unfold search_limit. cbv zeta. destruct (Z.leb_spec limit 0); [done|]. destruct (Z.ltb_spec 50 limit); lia. }
  assert (Hof : Forall (fun r => exists doc, doc ∈ documents /\ result_of query doc r) results /\ NoDup (map rt_DocumentID results)).
  { unfold results. clear Hp results Hi. revert HF Hn. generalize (bm_documents index) as ds. induction documents as [|doc documents IH]; intros ds HF Hn.
    - inversion HF; subst. split; constructor.
    - inversion HF as [|? d ? ds' Hd HF']; subst. cbn [map] in Hn. apply NoDup_cons in Hn as [Hni Hn]. destruct (IH _ HF' Hn) as [IH1 IH2].
      assert (IH1' : Forall (fun r => exists doc0, doc0 ∈ doc :: documents /\ result_of query doc0 r) (omap (scored index (query_tokens query)) ds'))
        by (eapply Forall_impl; [exact IH1|]; intros r (d0&Hd0&Hr); exists d0; split; [by right|done]).
      cbn. destruct (scored index (query_tokens query) d) as [r|] eqn:Hr; [|done]. pose proof (scored_result Horder _ _ _ _ _ Hd Hr) as Hres.
      split; [constructor; [exists doc; split; [by left|done]|done]|]. cbn [map]. apply NoDup_cons. split; [|done].
      intros (r'&Hid&Hin)%list_elem_of_fmap. rewrite Forall_forall in IH1. destruct (IH1 r' Hin) as (d0&Hd0&(Hid0&_)).
      apply Hni. destruct Hres as [Hid1 _]. rewrite <- Hid1, Hid, Hid0. by apply list_elem_of_fmap_2. }
  destruct Hof as [Hof Hnd]. split_and!; [rewrite length_take; lia|lia| | | |done].
  - apply StronglySorted_firstn, StronglySorted_merge_sort; [apply ranks_transitive|apply ranks_total].
  - rewrite <- Hp in Hnd.
    rewrite <- (firstn_skipn (Z.to_nat (search_limit limit)) (merge_sort ranks_before results)), map_app in Hnd. by apply NoDup_app in Hnd as (?&_).
  - apply Forall_take. by rewrite Hp.
Qed.
End Indexed.

(** ** An example *)
Module Lab.
#[local] Instance no_case : UnicodeCase := fun r => r.
#[local] Instance no_class : UnicodeClass := {| uni_letter _ := false; uni_number _ := false; uni_print _ := false |}.
#[local] Instance some_han : UnicodeHan := {| uni_han r := in_range 19968 40959 r; uni_digit _ := false |}.
#[local] Instance flat_log : MathLog := fun f => f.
#[local] Instance in_order : MapOrder := fun l => l.

Example tokens_of : tokenize "Web 端口冲突 EADDR-IN_use!" = ["web"; "端"; "口"; "端口"; "冲"; "口冲"; "突"; "冲突"; "eaddr-in_use"].
Proof. vm_compute. reflexivity. Qed.

Definition document (id title content : string) : KnowledgeDocument := MkKnowledgeDocument id "case" title content [] "" [] "lab" "1".
Definition corpus : list KnowledgeDocument :=
  [document "memory" "OOM" "killed process"; document "port" "EADDRINUSE 端口" "address already in use"; document "disk" "ENOSPC" "no space left"].

Example found_terms : rbind (NewBM25 corpus) (fun index =>
    rbind (fst (Search (St := unit) index "Web 端口 eaddrinuse process" 0 (calm 0 "id") (init_world tt))) (fun out =>
      Ok (map (fun r => (rt_DocumentID r, rt_MatchedTerms r)) out)))
  = Ok [("port", ["eaddrinuse"; "口"; "端"; "端口"]); ("memory", ["process"])].
Proof. vm_compute. reflexivity. Qed.

Example duplicate_refused : NewBM25 [document "a" "t" ""; document "a" "t" ""] = Err (EMsg "duplicate knowledge document id").
Proof. vm_compute. reflexivity. Qed.
End Lab.
