(* ===== verification/Perception.v ===== *)
(** * [internal/perception]: observations of the host

    The collection of observations from several sources under a budget
    ([observation.go]), the collectors over the readers of [internal/platform]
    and [internal/safefs] ([observation.go], [collectors.go]), and the
    adapters that put a batch into the form of Prometheus and OpenTelemetry
    ([adapters.go]).  The theorems: a batch is within its budget, valid and
    sorted, keeps what healthy sources gave whatever the others did, and what
    the adapters make is bounded and well named. *)

From S2P Require Import Prelude GoStrings GoText GoPath Json Unicode Hash Contracts Platform Planner Handlers Store Agent Network Decode Diagnosis ToolServers Retrieval Safefs.
Open Scope Z_scope.

(** ** [observation.go] *)

(** The values the collectors give, of the code's [any]: whole numbers of any
    width, fractions, texts and lists of texts. *)
Inductive observed := OInt (n : Z) | OFloat (f : float64) | OText (s : string) | OTexts (l : list string).

Record Observation := MkObservation {
  ob_ObservationID : string;
  ob_Source : string;
  ob_SourceType : string;
  ob_Timestamp : Z;
  ob_Host : string;
  ob_ResourceType : string;
  ob_ResourceID : string;
  ob_MetricName : string;
  ob_Value : observed;
  ob_Unit : string;
  ob_Severity : string;
  ob_Labels : gmap string string;
  ob_RawReference : string
}.

(** What a collector gives, with its error beside it. *)
Definition collectResult : Type := list Observation * option error.

Record Collector (H : Type) := MkCollector {
  co_Name : string;
  co_Collect : M H collectResult
}.
#[global] Arguments MkCollector {H}.
#[global] Arguments co_Name {H}.
#[global] Arguments co_Collect {H}.

Record CollectorIssue := MkCollectorIssue {
  ci_Collector : string;
  ci_Error : string;
  ci_Timeout : bool
}.
Record CollectionBatch := MkCollectionBatch {
  cb_StartedAt : Z;
  cb_CompletedAt : Z;
  cb_Observations : list Observation;
  cb_Issues : list CollectorIssue;
  cb_Truncated : bool;
  cb_IssuesTruncated : bool;
  cb_CollectorsRun : Z;
  cb_CollectorsFailed : Z
}.
Record CollectionLimits := MkCollectionLimits {
  cl_PerCollectorTimeout : Z;
  cl_MaxObservations : Z;
  cl_MaxIssues : Z
}.

(** [l.normalized()]: a default for what is not positive, and a cap. *)
Definition capped (value default_ cap : Z) : Z :=
  let value := if value <=? 0 then default_ else value in if cap <? value then cap else value.
Definition normalized (l : CollectionLimits) : CollectionLimits :=
  MkCollectionLimits (capped (cl_PerCollectorTimeout l) (5 * Second) (30 * Second))
    (capped (cl_MaxObservations l) 2000 10000) (capped (cl_MaxIssues l) 64 256).

Definition appendIssue (limits : CollectionLimits) (issue : CollectorIssue) (b : CollectionBatch) : CollectionBatch :=
  if cl_MaxIssues limits <=? Z.of_nat (length (cb_Issues b)) then
    MkCollectionBatch (cb_StartedAt b) (cb_CompletedAt b) (cb_Observations b) (cb_Issues b) (cb_Truncated b) true
      (cb_CollectorsRun b) (cb_CollectorsFailed b)
  else
    MkCollectionBatch (cb_StartedAt b) (cb_CompletedAt b) (cb_Observations b) (cb_Issues b ++ [issue]) (cb_Truncated b)
      (cb_IssuesTruncated b) (cb_CollectorsRun b) (cb_CollectorsFailed b).

Definition failed (b : CollectionBatch) : CollectionBatch :=
  MkCollectionBatch (cb_StartedAt b) (cb_CompletedAt b) (cb_Observations b) (cb_Issues b) (cb_Truncated b) (cb_IssuesTruncated b)
    (cb_CollectorsRun b) (cb_CollectorsFailed b + 1).
Definition started (b : CollectionBatch) : CollectionBatch :=
  MkCollectionBatch (cb_StartedAt b) (cb_CompletedAt b) (cb_Observations b) (cb_Issues b) (cb_Truncated b) (cb_IssuesTruncated b)
    (cb_CollectorsRun b + 1) (cb_CollectorsFailed b).
Definition truncated (b : CollectionBatch) : CollectionBatch :=
  MkCollectionBatch (cb_StartedAt b) (cb_CompletedAt b) (cb_Observations b) (cb_Issues b) true (cb_IssuesTruncated b)
    (cb_CollectorsRun b) (cb_CollectorsFailed b).
Definition observed_too (value : Observation) (b : CollectionBatch) : CollectionBatch :=
  MkCollectionBatch (cb_StartedAt b) (cb_CompletedAt b) (cb_Observations b ++ [value]) (cb_Issues b) (cb_Truncated b)
    (cb_IssuesTruncated b) (cb_CollectorsRun b) (cb_CollectorsFailed b).

Definition required (value : Observation) : list string :=
  [ob_ObservationID value; ob_Source value; ob_SourceType value; ob_Host value; ob_ResourceType value; ob_ResourceID value;
   ob_MetricName value; ob_Unit value; ob_Severity value; ob_RawReference value].

Definition validateObservation `{UnicodeClass} (value : Observation) : result unit :=
  guard_ (existsb (fun s => String.eqb (TrimSpace s) "") (required value) || (ob_Timestamp value =? zero_time))
    (EMsg ("collector " +:+ Quote (ob_Source value) +:+ " returned an observation with missing required fields")).

(** The values of a collector, up to the budget. *)
Fixpoint accept `{UnicodeClass} (limits : CollectionLimits) (name : string) (values : list Observation) (b : CollectionBatch) : CollectionBatch :=
  match values with
  | [] => b
  | value :: values =>
    if cl_MaxObservations limits <=? Z.of_nat (length (cb_Observations b)) then truncated b
    else
      match validateObservation value with
      | Err e => accept limits name values (appendIssue limits (MkCollectorIssue name (error_text e) false) b)
      | Ok _ => accept limits name values (observed_too value b)
      end
  end.

(** By time, then by id. *)
Definition observed_before (a b : Observation) : Prop :=
  ob_Timestamp a < ob_Timestamp b \/ ob_Timestamp a = ob_Timestamp b /\ String.le (ob_ObservationID a) (ob_ObservationID b).
#[export] Instance observed_before_dec a b : Decision (observed_before a b).
Proof. unfold observed_before. apply _. Defined.

Section Collect.
Context {H : Type} `{UnicodeClass}.

(** A collector under its deadline: what it gives counts unless its context
    is done first. *)
Definition run_collector (collector : Collector H) : M H collectResult :=
  result <- co_Collect collector ;;
  live <- try_ ctx_check ;;
  ret (match live with Ok _ => result | Err e => ([], Some e) end).

Definition settle (limits : CollectionLimits) (name : string) (collected : collectResult) (b : CollectionBatch) : CollectionBatch :=
  let b := accept limits name (fst collected) b in
  match snd collected with
  | None => b
  | Some e => appendIssue limits (MkCollectorIssue name (error_text e) (errors_is e EDEADLINE)) (failed b)
  end.

(** [None] is a nil collector. *)
Fixpoint collect_loop (limits : CollectionLimits) (collectors : list (option (Collector H))) (b : CollectionBatch) : M H CollectionBatch :=
  match collectors with
  | [] => ret b
  | None :: collectors =>
    collect_loop limits collectors (failed (appendIssue limits (MkCollectorIssue "unknown" "nil collector" false) b))
  | Some collector :: collectors =>
    live <- try_ ctx_check ;;
    match live with
    | Err e => ret (failed (appendIssue limits (MkCollectorIssue (co_Name collector) (error_text e) false) b))
    | Ok _ =>
      collected <- run_collector collector ;;
      collect_loop limits collectors (settle limits (co_Name collector) collected (started b))
    end
  end.

Definition CollectAll (collectors : list (option (Collector H))) (limits : CollectionLimits) : M H CollectionBatch :=
  let limits := normalized limits in
  startedAt <- now ;;
  b <- collect_loop limits collectors (MkCollectionBatch startedAt zero_time [] [] false false 0 0) ;;
  completedAt <- now ;;
  ret (MkCollectionBatch (cb_StartedAt b) completedAt (merge_sort observed_before (cb_Observations b)) (cb_Issues b) (cb_Truncated b)
         (cb_IssuesTruncated b) (cb_CollectorsRun b) (cb_CollectorsFailed b)).
End Collect.

(** ** Observations *)

Definition labels_of (l : list (string * string)) : gmap string string := foldl (fun m kv => <[fst kv := snd kv]> m) ∅ l.
Definition FormatBool (b : bool) : string := if b then "true" else "false".
Definition fge (a b : float64) : bool :=
  let e := Z.min (f_exp a) (f_exp b) in f_mant b * 2 ^ (f_exp b - e) <=? f_mant a * 2 ^ (f_exp a - e).

(** [uniqueBounded] *)
Fixpoint unique_loop (values : list string) (limit : Z) (out : list string) : list string :=
  match values with
  | [] => out
  | value :: values =>
    let value := TrimSpace value in
    if String.eqb value "" || string_in value out then unique_loop values limit out
    else
      let out := out ++ [value] in
      if limit <=? Z.of_nat (length out) then out else unique_loop values limit out
  end.
Definition uniqueBounded (values : list string) (limit : Z) : list string := unique_loop values limit [].

(** A bound that falls back to its default outside [1, most]. *)
Definition bound_or (value most fallback : Z) : Z := if (value <=? 0) || (most <? value) then fallback else value.

Section Collectors.
Context {H : Type} `{Machine H} `{HostCalls H} `{FloatText} `{UnicodeClass} `{UnicodeCase} `{Sprinter} `{TimeText} `{MapOrder}.

Definition hostName : M H string :=
  host <- try_ os_Hostname ;;
  ret (match host with Ok host => if String.eqb (TrimSpace host) "" then "unknown" else host | Err _ => "unknown" end).

Definition observation (source sourceType resourceType resourceID metric : string) (value : observed) (unit_ severity rawReference : string)
    (labels : gmap string string) (timestamp : Z) : M H Observation :=
  timestamp <- (if timestamp =? zero_time then now else ret timestamp) ;;
  let identity := Join [source; sourceType; resourceType; resourceID; metric; time_text timestamp] (String (chr 0) "") in
  host <- hostName ;;
  ret (MkObservation (hex_encode (take_bytes 16 (sha256 identity))) source sourceType timestamp host resourceType resourceID metric value unit_
         severity labels rawReference).

(** One part of a collection: its observations, or its issue. *)
Definition gathered : Type := list Observation * list error.
Definition part {A} (what : string) (m : M H A) (build : A -> M H (list Observation)) : M H gathered :=
  read <- try_ m ;;
  match read with
  | Err e => ret ([], [EWrap what e])
  | Ok a => out <- build a ;; ret (out, [])
  end.

Definition both (a b : M H gathered) : M H gathered :=
  x <- a ;; y <- b ;; ret (fst x ++ fst y, snd x ++ snd y).
Definition all_of (l : list (M H gathered)) : M H gathered := foldr both (ret ([], [])) l.
Definition collected_ (g : gathered) : collectResult := (fst g, errors_join_list (snd g)).

(** The reader of mounts gives what it read beside an error. *)
Definition mounts_read (procRoot : string) : M H (list Mount * option error) :=
  read <- try_ (Mounts procRoot) ;;
  ret (match read with Ok mounts => mounts | Err e => ([], Some e) end).

(** *** [ProcfsCollector] *)
Record ProcfsCollector := MkProcfsCollector {
  pc_Platform : option string;
  pc_ProcessLimit : Z
}.

Definition procfs_process (now_ : Z) (process : ProcessInfo) : M H (list Observation) :=
  let resourceID := "pid:" +:+ show_Z (pi_PID process) +:+ ":start:" +:+ show_Z (pi_StartTicks process) in
  let labels := labels_of [("name", pi_Name process); ("state", pi_State process); ("uid", show_Z (pi_UID process))] in
  let ref := "/proc/" +:+ show_Z (pi_PID process) +:+ "/stat" in
  mapM (fun '(metric, value, unit_) => observation "procfs" "linux_procfs" "process" resourceID metric value unit_ "info" ref labels now_)
    [("process_cpu_ticks", OInt (pi_CPUTicks process), "ticks"); ("process_rss_bytes", OInt (pi_RSSBytes process), "bytes")].

Definition ProcfsCollect (pageSize : Z) (c : ProcfsCollector) : M H collectResult :=
  match pc_Platform c with
  | None => ret ([], Some (EMsg "procfs platform is required"))
  | Some procRoot =>
    now_ <- now ;;
    host <- hostName ;;
    let makeHost := mapM (fun '(metric, value, unit_, ref) => observation "procfs" "linux_procfs" "host" host metric value unit_ "info" ref ∅ now_) in
    g <- all_of [
      part "cpu: " (CPU procRoot) (fun cpu => makeHost
        [("cpu_busy_ticks", OInt (cpu_Busy (fst cpu)), "ticks", "/proc/stat"); ("cpu_total_ticks", OInt (cpu_Total (fst cpu)), "ticks", "/proc/stat")]);
      part "memory: " (Memory procRoot) (fun mem => makeHost
        [("memory_used_bytes", OInt (mem_UsedBytes (fst mem)), "bytes", "/proc/meminfo");
         ("memory_available_bytes", OInt (mem_AvailableBytes (fst mem)), "bytes", "/proc/meminfo");
         ("swap_used_bytes", OInt (wrap64 (mem_SwapTotalBytes (fst mem) - mem_SwapFreeBytes (fst mem))), "bytes", "/proc/meminfo")]);
      part "load: " (Load procRoot) (fun load => makeHost
        [("load_1", OFloat (la_One load), "ratio", "/proc/loadavg"); ("load_5", OFloat (la_Five load), "ratio", "/proc/loadavg");
         ("load_15", OFloat (la_Fifteen load), "ratio", "/proc/loadavg");
         ("processes_running", OInt (la_RunningProcesses load), "count", "/proc/loadavg")]);
      part "processes: " (Processes procRoot pageSize "" (bound_or (pc_ProcessLimit c) 100 25) "cpu") (fun processes =>
        out <- mapM (procfs_process now_) processes ;; ret (concat out))] ;;
    ret (collected_ g)
  end.

(** *** [DiskCollector] *)
Definition diskSeverity (ratio : float64) : string :=
  if fge ratio (rounded (round_ratio 95 100)) then "critical"
  else if fge ratio (rounded (round_ratio 85 100)) then "warning" else "info".

Context `{Descriptors H}.

Record DiskCollector := MkDiskCollector {
  dc_Platform : option string;
  dc_Reader : option (list AllowedRoot);
  dc_Paths : list string;
  dc_MaxMounts : Z;
  dc_MaxDepth : Z;
  dc_MaxEntries : Z;
  dc_LargeFileMin : Z;
  dc_LargeFileLimit : Z
}.

(** The mounts kept, with the issue of the list; an unreadable tail of the
    table still gives targets. *)
Definition disk_mounts (maxMounts : Z) (read : list Mount * option error) (now_ : Z) : M H (list Mount * gathered) :=
  let '(mounts, failed) := read in
  match failed with
  | Some e => ret (mounts, ([], [EWrap "mounts: " e]))
  | None =>
    let cut := maxMounts <? Z.of_nat (length mounts) in
    let mounts := if cut then take (Z.to_nat maxMounts) mounts else mounts in
    out <- mapM (fun mount => observation "disk" "linux_filesystem" "mount" (mo_Target mount) "filesystem_mount" (OText (mo_Filesystem mount)) "state"
        "info" "/proc/self/mounts"
        (labels_of [("source", mo_Source mount); ("filesystem", mo_Filesystem mount); ("options", mo_Options mount)]) now_) mounts ;;
    ret (mounts, (out, if cut then [EMsg ("mount list truncated at " +:+ show_Z maxMounts +:+ " entries")] else []))
  end.

Definition disk_target (now_ : Z) (target : string) : M H gathered :=
  part ("disk " +:+ target +:+ ": ") (Disk target) (fun usage =>
    mapM (fun '(metric, value, unit_) => observation "disk" "linux_statfs" "filesystem" (du_Path usage) metric value unit_
        (diskSeverity (du_UsedRatio usage)) ("statfs:" +:+ du_Path usage) ∅ now_)
      [("filesystem_total_bytes", OInt (du_TotalBytes usage), "bytes"); ("filesystem_used_bytes", OInt (du_UsedBytes usage), "bytes");
       ("filesystem_used_ratio", OFloat (du_UsedRatio usage), "ratio")]).

Definition disk_root (now_ : Z) (reader : list AllowedRoot) (depth entries minimum largeLimit : Z) (root : string) : M H gathered :=
  both
    (part ("directory usage " +:+ root +:+ ": ") (Usage reader root depth entries) (fun usage =>
       let labels := labels_of [("truncated", FormatBool (us_Truncated usage)); ("skipped", show_Z (us_Skipped usage))] in
       mapM (fun '(metric, value, unit_) => observation "disk" "safefs_metadata" "directory" root metric value unit_ "info"
           ("safefs:usage:" +:+ root) labels now_)
         [("directory_size_bytes", OInt (us_SizeBytes usage), "bytes"); ("directory_file_count", OInt (us_Files usage), "count")]))
    (part ("large files " +:+ root +:+ ": ") (FindLarge reader root minimum depth largeLimit) (fun found =>
       mapM (fun file => observation "disk" "safefs_metadata" "file" (md_Path file) "large_file_size_bytes" (OInt (md_SizeBytes file)) "bytes" "warning"
           ("safefs:metadata:" +:+ md_Path file) (labels_of [("scan_truncated", FormatBool (snd found))]) now_) (fst found))).

Definition DiskCollect (c : DiskCollector) : M H collectResult :=
  match dc_Platform c with
  | None => ret ([], Some (EMsg "disk platform is required"))
  | Some procRoot =>
    now_ <- now ;;
    let maxMounts := bound_or (dc_MaxMounts c) 128 64 in
    read <- mounts_read procRoot ;;
    kept <- disk_mounts maxMounts read now_ ;;
    let '(mounts, first) := kept in
    let targets := uniqueBounded (if nil_slice (dc_Paths c) then map mo_Target mounts else dc_Paths c) maxMounts in
    second <- all_of (map (disk_target now_) targets) ;;
    third <- match dc_Reader c with
             | None => ret ([], [])
             | Some reader =>
               let paths := if nil_slice (dc_Paths c) then Roots reader else dc_Paths c in
               let minimum := if dc_LargeFileMin c <=? 0 then 10485760 else dc_LargeFileMin c in
               all_of (map (disk_root now_ reader (bound_or (dc_MaxDepth c) 16 4) (bound_or (dc_MaxEntries c) 20000 5000) minimum
                              (bound_or (dc_LargeFileLimit c) 200 20)) (uniqueBounded paths 32))
             end ;;
    ret (collected_ (fst first ++ fst second ++ fst third, snd first ++ snd second ++ snd third))
  end.

(** *** [NetworkCollector] *)
Record NetworkCollector := MkNetworkCollector {
  nc_Platform : option string;
  nc_SocketLimit : Z
}.

Definition network_socket (now_ : Z) (socket : SocketInfo) : M H (list Observation) :=
  let resourceID := so_Protocol socket +:+ ":" +:+ so_LocalAddress socket +:+ ":" +:+ show_Z (so_LocalPort socket) +:+ ":" +:+ so_Inode socket in
  let labels := labels_of [("protocol", so_Protocol socket); ("local_address", so_LocalAddress socket); ("remote_address", so_RemoteAddress socket);
                           ("remote_port", show_Z (so_RemotePort socket)); ("state", so_State socket); ("inode", so_Inode socket)] in
  let ref := "/proc/net/" +:+ TrimSuffix (so_Protocol socket) "6" in
  first <- observation "network" "linux_proc_net" "socket" resourceID "connection_state" (OText (so_State socket)) "state" "info" ref labels now_ ;;
  if so_Listening socket then
    second <- observation "network" "linux_proc_net" "port" (so_Protocol socket +:+ ":" +:+ show_Z (so_LocalPort socket)) "listening_port"
                (OInt (so_LocalPort socket)) "port" "info" ref labels now_ ;;
    ret [first; second]
  else ret [first].

Definition network_interface (now_ : Z) (value : InterfaceInfo) : M H (list Observation) :=
  let labels := labels_of [("addresses", Join (if_Addresses value) ","); ("flags", Join (if_Flags value) ","); ("mtu", show_Z (if_MTU value))] in
  mapM (fun '(metric, n) => observation "network" "linux_interface" "interface" (if_Name value) metric (OInt n) "bytes" "info" "/proc/net/dev" labels now_)
    [("network_receive_bytes", if_RXBytes value); ("network_transmit_bytes", if_TXBytes value)].

Definition NetworkCollect (c : NetworkCollector) : M H collectResult :=
  match nc_Platform c with
  | None => ret ([], Some (EMsg "network platform is required"))
  | Some procRoot =>
    now_ <- now ;;
    g <- both
      (part "sockets: " (Sockets procRoot false (bound_or (nc_SocketLimit c) 1000 200)) (fun sockets =>
         out <- mapM (network_socket now_) sockets ;; ret (concat out)))
      (part "interfaces: " (Interfaces procRoot) (fun interfaces =>
         out <- mapM (network_interface now_) interfaces ;; ret (concat out))) ;;
    ret (collected_ g)
  end.

(** *** [SystemdCollector] *)
Record SystemdCollector := MkSystemdCollector {
  sc_Platform : option string;
  sc_Units : list string;
  sc_MaxUnits : Z
}.

Definition unit_severity (failedNames : list string) (status : ServiceStatus) : string :=
  if String.eqb (ss_ActiveState status) "failed" || string_in (ss_Name status) failedNames then "critical"
  else if negb (String.eqb (ss_ActiveState status) "active") then "warning" else "info".

(** The relations come in the order a map of the four is ranged over. *)
Definition relation_units (requires wants after before : list string) (relation : string) : list string :=
  if String.eqb relation "requires" then requires
  else if String.eqb relation "wants" then wants
  else if String.eqb relation "after" then after else before.

Definition systemd_unit (systemctl : string) (failedNames : list string) (now_ : Z) (unit_ : string) : M H gathered :=
  read <- try_ (Platform.Service systemctl unit_) ;;
  match read with
  | Err e => ret ([], [EWrap ("service " +:+ unit_ +:+ ": ") e])
  | Ok status =>
    let name := ss_Name status in
    let severity := unit_severity failedNames status in
    let labels := labels_of [("load_state", ss_LoadState status); ("active_state", ss_ActiveState status); ("sub_state", ss_SubState status);
                             ("description", ss_Description status)] in
    out <- mapM (fun '(metric, value, unit_) => observation "systemd" "systemd_dbus_cli" "service" name metric value unit_ severity
        ("systemctl:show:" +:+ name) labels now_)
      [("service_state", OText (ss_ActiveState status +:+ "/" +:+ ss_SubState status), "state"); ("service_main_pid", OInt (ss_MainPID status), "pid");
       ("service_restart_count", OInt (ss_RestartCount status), "count")] ;;
    g <- part ("dependencies " +:+ name +:+ ": ") (ServiceDependencies systemctl name) (fun '(_, requires, wants, after, before) =>
      mapM (fun relation => observation "systemd" "systemd_dbus_cli" "service" name ("service_dependency_" +:+ relation)
          (OTexts (relation_units requires wants after before relation)) "units" "info" ("systemctl:show:" +:+ name) ∅ now_)
        (map_order ["requires"; "wants"; "after"; "before"])) ;;
    ret (out ++ fst g, snd g)
  end.

Definition SystemdCollect (c : SystemdCollector) : M H collectResult :=
  match sc_Platform c with
  | None => ret ([], Some (EMsg "systemd platform is required"))
  | Some systemctl =>
    now_ <- now ;;
    read <- try_ (FailedServices systemctl) ;;
    let '(failed, issues) := match read with Ok failed => (failed, []) | Err e => ([], [EWrap "failed services: " e]) end in
    let failedNames := map ss_Name failed in
    g <- all_of (map (systemd_unit systemctl failedNames now_) (uniqueBounded (sc_Units c ++ failedNames) (bound_or (sc_MaxUnits c) 100 32))) ;;
    ret (collected_ (fst g, issues ++ snd g))
  end.

(** *** [JournalCollector] *)
Record JournalQuery := MkJournalQuery {
  jq_Unit : string;
  jq_Lines : Z;
  jq_Priority : Z
}.
Record JournalCollector := MkJournalCollector {
  jc_Platform : option string;
  jc_Queries : list JournalQuery
}.

Definition journalSeverity (priority : Z) : string := if priority <=? 2 then "critical" else if priority <=? 4 then "warning" else "info".

Definition journal_observation (indexed : nat * JournalEvent) : M H Observation :=
  let '(index, event) := indexed in
  let resourceID := if String.eqb (je_Cursor event) "" then je_Unit event +:+ ":" +:+ show_Z (je_PID event) +:+ ":" +:+ show_Z (Z.of_nat index)
                    else je_Cursor event in
  observation "journal" "systemd_journal" "log_event" resourceID "journal_message" (OText (je_Message event)) "text"
    (journalSeverity (je_Priority event)) ("journal:" +:+ je_Cursor event)
    (labels_of [("unit", je_Unit event); ("pid", show_Z (je_PID event)); ("priority", show_Z (je_Priority event)); ("boot_id", je_BootID event);
                ("redacted", FormatBool (je_Redacted event))]) (je_Timestamp event).

Definition JournalCollect (c : JournalCollector) : M H collectResult :=
  match jc_Platform c with
  | None => ret ([], Some (EMsg "journal platform is required"))
  | Some journalctl =>
    let queries := if nil_slice (jc_Queries c) then [MkJournalQuery "" 100 3] else jc_Queries c in
    if (16 <? length queries)%nat then ret ([], Some (EMsg "journal queries must not exceed 16"))
    else
      g <- all_of (map (fun query => part ("journal unit " +:+ Quote (jq_Unit query) +:+ ": ")
             (Journal journalctl (jq_Unit query) (jq_Lines query) (jq_Priority query))
             (fun events => mapM journal_observation (imap pair events))) queries) ;;
      ret (collected_ g)
  end.

(** *** [SystemConfigCollector] *)
Record SystemConfigCollector := MkSystemConfigCollector {
  sy_Platform : option (string * string);
  sy_SelectedSysctls : list string;
  sy_MaxMounts : Z
}.

Definition kernel_value (kernel : KernelInfo) (metric : string) : string :=
  if String.eqb metric "os_name" then ki_OSName kernel
  else if String.eqb metric "os_version" then ki_OSVersion kernel
  else if String.eqb metric "kernel_release" then ki_Kernel kernel else ki_Architecture kernel.

Definition config_mounts (maxMounts : Z) (now_ : Z) (read : list Mount * option error) : M H gathered :=
  let '(mounts, failed) := read in
  match failed with
  | Some e => ret ([], [EWrap "mounts: " e])
  | None =>
    let cut := maxMounts <? Z.of_nat (length mounts) in
    out <- mapM (fun mount => observation "system_config" "linux_system_config" "mount" (mo_Target mount) "mount_filesystem"
        (OText (mo_Filesystem mount)) "text" "info" "/proc/self/mounts"
        (labels_of [("source", mo_Source mount); ("options", mo_Options mount)]) now_)
      (if cut then take (Z.to_nat maxMounts) mounts else mounts) ;;
    ret (out, if cut then [EMsg ("system config mount list truncated at " +:+ show_Z maxMounts)] else [])
  end.

Definition config_sysctls (now_ : Z) (read : list SysctlSetting * option error) : M H gathered :=
  match snd read with
  | Some e => ret ([], [EWrap "selected sysctls: " e])
  | None =>
    out <- mapM (fun setting => observation "system_config" "linux_sysctl" "sysctl" (sy_Key setting) "sysctl_value" (OText (sy_Value setting)) "text"
        "info" ("/proc/sys/" +:+ replace_byte "." "/" (sy_Key setting)) ∅ now_) (fst read) ;;
    ret (out, [])
  end.

Definition SystemConfigCollect (c : SystemConfigCollector) : M H collectResult :=
  match sy_Platform c with
  | None => ret ([], Some (EMsg "system config platform is required"))
  | Some (procRoot, etcRoot) =>
    now_ <- now ;;
    host <- hostName ;;
    let keys := if nil_slice (sy_SelectedSysctls c) then ["kernel.pid_max"; "kernel.threads-max"; "net.core.somaxconn"; "vm.swappiness"]
                else sy_SelectedSysctls c in
    g <- all_of [
      part "kernel: " (Kernel etcRoot) (fun kernel =>
        let resourceID := if String.eqb (ki_Hostname kernel) "" then host else ki_Hostname kernel in
        mapM (fun metric => observation "system_config" "linux_system_config" "host" resourceID metric (OText (kernel_value kernel metric)) "text" "info"
            "/etc/os-release+/proc/sys/kernel/osrelease" ∅ now_)
          (map_order ["os_name"; "os_version"; "kernel_release"; "architecture"]));
      part "uptime: " (Uptime procRoot) (fun uptime =>
        one <- observation "system_config" "linux_system_config" "host" host "uptime_seconds" (OFloat (Seconds uptime)) "seconds" "info" "/proc/uptime" ∅ now_ ;;
        ret [one]);
      (read <- mounts_read procRoot ;; config_mounts (bound_or (sy_MaxMounts c) 128 64) now_ read);
      (read <- Sysctls procRoot keys ;; config_sysctls now_ read)] ;;
    ret (collected_ g)
  end.

(** *** [ConfigChangeCollector] *)
Record ConfigFingerprint := MkConfigFingerprint {
  cf_Modified : Z;
  cf_SizeBytes : Z;
  cf_SHA256 : string
}.
Record ConfigChangeCollector := MkConfigChangeCollector {
  cc_Reader : option (list AllowedRoot);
  cc_Paths : list string;
  cc_Baseline : gmap string ConfigFingerprint;
  cc_Limit : Z;
  cc_MaxFileBytes : Z;
  cc_MaxTotalBytes : Z
}.

Definition changeSeverity (state : string) : string := if String.eqb state "unchanged" then "info" else "warning".
Definition underAnyPath (path : string) (roots : list string) : bool := existsb (fun root => rel_stays_inside (Rel root path)) roots.

Definition change_state (baseline : gmap string ConfigFingerprint) (path : string) (entry : SnapshotEntry) : string :=
  match baseline !! path with
  | None => "added"
  | Some before =>
    if negb (String.eqb (cf_SHA256 before) (sne_SHA256 entry)) || negb (cf_SizeBytes before =? sne_SizeBytes entry)
       || negb (cf_Modified before =? sne_Modified entry)
    then "modified" else "unchanged"
  end.

(** [float64(entry.Modified.UnixNano())/float64(time.Second)] *)
Definition unix_seconds (t : Z) : float64 := rounded (fdiv (rounded (float_of_Z (signed64 t))) (rounded (float_of_Z Second))).

Definition config_entry (baseline : gmap string ConfigFingerprint) (snapshot_truncated : bool) (root : string) (now_ : Z) (entry : SnapshotEntry)
  : M H (list Observation) :=
  let path := PathJoin [root; sne_RelativePath entry] in
  let state := change_state baseline path entry in
  let labels := labels_of [("change", state); ("snapshot_truncated", FormatBool snapshot_truncated)] in
  mapM (fun '(metric, value, unit_) => observation "config_change" "safefs_config_snapshot" "config_file" path metric value unit_
      (changeSeverity state) ("safefs:snapshot:" +:+ path) labels now_)
    [("config_mtime_unix_seconds", OFloat (unix_seconds (sne_Modified entry)), "seconds"); ("config_size_bytes", OInt (sne_SizeBytes entry), "bytes");
     ("config_sha256", OText (sne_SHA256 entry), "sha256")].

(** The roots one after the other, with the paths seen. *)
Fixpoint config_roots (c : ConfigChangeCollector) (reader : list AllowedRoot) (now_ : Z) (paths : list string) (seen : list string) (g : gathered)
  : M H (list string * gathered) :=
  match paths with
  | [] => ret (seen, g)
  | root :: paths =>
    read <- try_ (Snapshot_ reader root (cc_Limit c) (cc_MaxFileBytes c) (cc_MaxTotalBytes c)) ;;
    match read with
    | Err e => config_roots c reader now_ paths seen (fst g, snd g ++ [EWrap ("config snapshot " +:+ root +:+ ": ") e])
    | Ok snapshot =>
      out <- mapM (config_entry (cc_Baseline c) (sns_Truncated snapshot) root now_) (sns_Entries snapshot) ;;
      let issues := if nil_slice (sns_Skipped snapshot) then []
                    else [EMsg ("config snapshot " +:+ root +:+ " skipped " +:+ show_Z (Z.of_nat (length (sns_Skipped snapshot)))
                                +:+ " entries without reading their contents")] in
      config_roots c reader now_ paths (seen ++ map (fun e => PathJoin [root; sne_RelativePath e]) (sns_Entries snapshot))
        (fst g ++ concat out, snd g ++ issues)
    end
  end.

Definition ConfigChangeCollect (c : ConfigChangeCollector) : M H collectResult :=
  match cc_Reader c with
  | None => ret ([], Some (EMsg "config change allowlisted reader is required"))
  | Some reader =>
    let paths := uniqueBounded (if nil_slice (cc_Paths c) then Roots reader else cc_Paths c) 32 in
    now_ <- now ;;
    found <- config_roots c reader now_ paths [] ([], []) ;;
    let '(seen, g) := found in
    let baselinePaths := merge_sort String.le (map_to_list (cc_Baseline c)).*1 in
    gone <- mapM (fun path => observation "config_change" "safefs_config_snapshot" "config_file" path "config_change_state" (OText "removed") "state"
        "warning" ("safefs:snapshot:" +:+ path) ∅ now_)
      (List.filter (fun path => negb (string_in path seen || negb (underAnyPath path paths))) baselinePaths) ;;
    ret (collected_ (fst g ++ gone, snd g))
  end.
End Collectors.

(** ** [adapters.go] *)
Record PrometheusAdapterConfig := MkPrometheusAdapterConfig {
  pa_Namespace : string;
  pa_ConstantLabels : gmap string string;
  pa_IncludeSeverity : bool;
  pa_MaxSamples : Z
}.
Record PrometheusSample := MkPrometheusSample {
  ps_Name : string;
  ps_Value : float64;
  ps_Timestamp : Z;
  ps_Labels : gmap string string
}.
Record PrometheusPayload := MkPrometheusPayload {
  pp_Samples : list PrometheusSample;
  pp_SkippedNonNumeric : Z;
  pp_Truncated : bool
}.

Definition name_start (r : N) : bool := (r =? 95)%N || (r =? 58)%N || in_range 97 122 r || in_range 65 90 r.
Definition name_rest (r : N) : bool := name_start r || in_range 48 57 r.

(** [^[a-zA-Z_:][a-zA-Z0-9_:]*$] *)
Definition prometheusNamePattern (s : string) : bool :=
  match s with "" => false | String c s => name_start (code c) && all_bytes (fun c => name_rest (code c)) s end.

Definition sanitizeMetricName `{UnicodeCase} (value : string) : string :=
  match runes (TrimSpace value) with
  | [] => "unknown"
  | r :: rs => encode_runes ((if name_start r then r else 95%N) :: map (fun r => if name_rest r then r else 95%N) rs)
  end.
Definition sanitizeLabelName `{UnicodeCase} (value : string) : string :=
  let value := sanitizeMetricName value in
  if HasPrefix value "__" then "safeops_" +:+ trim_byte_left "_" value else value.

Definition boundedLabel (value : string) : string := if 512 <? len value then take_bytes 512 value +:+ "…" else value.

(** Adding labels in the order of a map, until there are enough. *)
Fixpoint add_labels (name : string -> string) (limit : Z) (values : gmap string string) (keys : list string) (out : gmap string string) : gmap string string :=
  match keys with
  | [] => out
  | key :: keys =>
    if limit <=? Z.of_nat (base.size out) then out
    else add_labels name limit values keys (<[name key := boundedLabel (default "" (values !! key))]> out)
  end.

Section Adapters.
Context {H : Type} `{MapOrder} `{UnicodeCase}.

Definition ranged (values : gmap string string) : list string := map_order (map_to_list values).*1.
Definition copyLabels (values : gmap string string) (limit : Z) : gmap string string :=
  add_labels sanitizeLabelName limit values (ranged values) ∅.

Definition numericValue (value : observed) : option float64 :=
  match value with OInt n => float_of_Z n | OFloat f => Some f | OText _ | OTexts _ => None end.

Definition set_labels (l : list (string * string)) (m : gmap string string) : gmap string string := foldl (fun m kv => <[fst kv := snd kv]> m) m l.

Definition prometheus_labels (config : PrometheusAdapterConfig) (value : Observation) : gmap string string :=
  let labels := add_labels sanitizeLabelName 64 (ob_Labels value) (ranged (ob_Labels value)) (copyLabels (pa_ConstantLabels config) 64) in
  let labels := set_labels [("host", boundedLabel (ob_Host value)); ("resource_type", boundedLabel (ob_ResourceType value));
                            ("resource_id", boundedLabel (ob_ResourceID value)); ("source", boundedLabel (ob_Source value));
                            ("unit", boundedLabel (ob_Unit value))] labels in
  if pa_IncludeSeverity config then <["severity" := boundedLabel (ob_Severity value)]> labels else labels.

Fixpoint prometheus_loop (config : PrometheusAdapterConfig) (namespace : string) (max : Z) (values : list Observation) (payload : PrometheusPayload)
  : M H PrometheusPayload :=
  match values with
  | [] => ret payload
  | value :: values =>
    ctx_check ;;;
    match numericValue (ob_Value value) with
    | None =>
      prometheus_loop config namespace max values
        (MkPrometheusPayload (pp_Samples payload) (pp_SkippedNonNumeric payload + 1) (pp_Truncated payload))
    | Some number =>
      if max <=? Z.of_nat (length (pp_Samples payload)) then ret (MkPrometheusPayload (pp_Samples payload) (pp_SkippedNonNumeric payload) true)
      else
        prometheus_loop config namespace max values
          (MkPrometheusPayload (pp_Samples payload ++ [MkPrometheusSample (namespace +:+ "_" +:+ sanitizeMetricName (ob_MetricName value)) number
                                                         (ob_Timestamp value) (prometheus_labels config value)])
             (pp_SkippedNonNumeric payload) (pp_Truncated payload))
    end
  end.

Definition PrometheusAdapt (config : PrometheusAdapterConfig) (batch : CollectionBatch) : M H PrometheusPayload :=
  let namespace := if String.eqb (TrimSpace (pa_Namespace config)) "" then "safeops" else TrimSpace (pa_Namespace config) in
  lift (guard_ (negb (prometheusNamePattern namespace)) (EMsg "prometheus namespace must match [a-zA-Z_:][a-zA-Z0-9_:]*")) ;;;
  let max := if pa_MaxSamples config <=? 0 then 5000 else pa_MaxSamples config in
  lift (guard_ (10000 <? max) (EMsg "prometheus max_samples must not exceed 10000")) ;;;
  prometheus_loop config namespace max (cb_Observations batch) (MkPrometheusPayload [] 0 false).

Record OpenTelemetryAdapterConfig := MkOpenTelemetryAdapterConfig {
  oa_ServiceName : string;
  oa_ResourceAttributes : gmap string string;
  oa_MaxDataPoints : Z
}.
Record OpenTelemetryMetric := MkOpenTelemetryMetric {
  om_Name : string;
  om_Value : float64;
  om_Unit : string;
  om_Timestamp : Z;
  om_Attributes : gmap string string
}.
Record OpenTelemetryLog := MkOpenTelemetryLog {
  ol_Body : string;
  ol_Severity : string;
  ol_Timestamp : Z;
  ol_Attributes : gmap string string
}.
Record OpenTelemetryPayload := MkOpenTelemetryPayload {
  op_ServiceName : string;
  op_Metrics : list OpenTelemetryMetric;
  op_Logs : list OpenTelemetryLog;
  op_Truncated : bool
}.

(** [fmt.Sprint] of what is not numeric; a number is never printed. *)
Definition sprint_observed (value : observed) : string :=
  match value with OText s => s | OTexts l => "[" +:+ Join l " " +:+ "]" | OInt n => show_Z n | OFloat _ => "" end.
Definition bounded_body (body : string) : string := if 4096 <? len body then take_bytes 4096 body +:+ "…" else body.

Definition telemetry_attributes (config : OpenTelemetryAdapterConfig) (value : Observation) : gmap string string :=
  set_labels [("safeops.observation_id", ob_ObservationID value); ("safeops.source", ob_Source value); ("host.name", boundedLabel (ob_Host value));
              ("safeops.resource.type", ob_ResourceType value); ("safeops.resource.id", boundedLabel (ob_ResourceID value))]
    (add_labels (fun key => key) 64 (ob_Labels value) (ranged (ob_Labels value)) (copyLabels (oa_ResourceAttributes config) 64)).

Fixpoint telemetry_loop (config : OpenTelemetryAdapterConfig) (max : Z) (values : list Observation) (payload : OpenTelemetryPayload)
  : M H OpenTelemetryPayload :=
  match values with
  | [] => ret payload
  | value :: values =>
    ctx_check ;;;
    let '(MkOpenTelemetryPayload service metrics logs truncated) := payload in
    if max <=? Z.of_nat (length metrics) + Z.of_nat (length logs) then ret (MkOpenTelemetryPayload service metrics logs true)
    else
      let attributes := telemetry_attributes config value in
      match numericValue (ob_Value value) with
      | Some number =>
        telemetry_loop config max values
          (MkOpenTelemetryPayload service
             (metrics ++ [MkOpenTelemetryMetric ("safeops." +:+ replace_byte "_" "." (sanitizeMetricName (ob_MetricName value))) number (ob_Unit value)
                            (ob_Timestamp value) attributes]) logs truncated)
      | None =>
        telemetry_loop config max values
          (MkOpenTelemetryPayload service metrics
             (logs ++ [MkOpenTelemetryLog (bounded_body (sprint_observed (ob_Value value))) (ob_Severity value) (ob_Timestamp value)
                         (set_labels [("safeops.metric.name", ob_MetricName value); ("safeops.unit", ob_Unit value)] attributes)]) truncated)
      end
  end.

Definition OpenTelemetryAdapt (config : OpenTelemetryAdapterConfig) (batch : CollectionBatch) : M H OpenTelemetryPayload :=
  let service := if String.eqb (TrimSpace (oa_ServiceName config)) "" then "safeops-agent" else TrimSpace (oa_ServiceName config) in
  lift (guard_ (128 <? len service) (EMsg "opentelemetry service_name must not exceed 128 bytes")) ;;;
  let max := if oa_MaxDataPoints config <=? 0 then 5000 else oa_MaxDataPoints config in
  lift (guard_ (10000 <? max) (EMsg "opentelemetry max_data_points must not exceed 10000")) ;;;
  telemetry_loop config max (cb_Observations batch) (MkOpenTelemetryPayload service [] [] false).
End Adapters.

(** ** A batch *)
Section Batch.
Context {H : Type} `{UnicodeClass}.

Definition valid (value : Observation) : bool := is_ok (validateObservation value).
Definition budget (limits : CollectionLimits) : nat := Z.to_nat (cl_MaxObservations limits).

(** The world after the context was looked at. *)
Definition polled {S} (w : World S) : World S := MkWorld (st w) (ticks w) (sysno w) (draws w) (1 + polls w).

(** What the collectors came to, one after the other from a world; the flag
    says whether the context of the collection ended first.  Each look at a
    context is one of its own: [heard_late] discards the answer of the
    collector whose own deadline has passed when it has run, and no other. *)
Inductive heard (E : Env) : list (option (Collector H)) -> World H -> list (option collectResult) -> bool -> Prop :=
  | heard_all w : heard E [] w [] false
  | heard_ended c collectors w no : cancel E (polls w) = Some no -> heard E (Some c :: collectors) w [] true
  | heard_nil collectors w outcomes ended :
      heard E collectors w outcomes ended -> heard E (None :: collectors) w (None :: outcomes) ended
  | heard_in_time c collectors w r w2 outcomes ended :
      cancel E (polls w) = None -> co_Collect c E (polled w) = (Ok r, w2) -> cancel E (polls w2) = None ->
      heard E collectors (polled w2) outcomes ended -> heard E (Some c :: collectors) w (Some r :: outcomes) ended
  | heard_late c collectors w r w2 no outcomes ended :
      cancel E (polls w) = None -> co_Collect c E (polled w) = (Ok r, w2) -> cancel E (polls w2) = Some no ->
      heard E collectors (polled w2) outcomes ended ->
      heard E (Some c :: collectors) w (Some ([], Some (ESys no)) :: outcomes) ended.

Definition values_of (outcomes : list (option collectResult)) : list Observation :=
  List.filter valid (concat (map (fun o => match o with Some r => fst r | None => [] end) outcomes)).
Definition runs (outcomes : list (option collectResult)) : Z :=
  foldr (fun o n => match o with Some _ => n + 1 | None => n end) 0 outcomes.
Definition failures (outcomes : list (option collectResult)) : Z :=
  foldr (fun o n => match o with Some (_, None) => n | _ => n + 1 end) 0 outcomes.

Lemma issue_keeps limits issue b :
  let b' := appendIssue limits issue b in
  cb_Observations b' = cb_Observations b /\ cb_Truncated b' = cb_Truncated b /\ cb_CollectorsRun b' = cb_CollectorsRun b /\
  cb_CollectorsFailed b' = cb_CollectorsFailed b /\
  (Z.of_nat (length (cb_Issues b)) <= cl_MaxIssues limits -> Z.of_nat (length (cb_Issues b')) <= cl_MaxIssues limits).
Proof.
  cbv zeta. unfold appendIssue. destruct (Z.leb_spec (cl_MaxIssues limits) (Z.of_nat (length (cb_Issues b)))); cbn; [done|].
  split_and!; [done..|]. intros _. rewrite length_app. cbn. lia.
Qed.

Definition issues_bounded (limits : CollectionLimits) (b : CollectionBatch) : Prop := Z.of_nat (length (cb_Issues b)) <= cl_MaxIssues limits.

Lemma accept_exact limits name values b : (length (cb_Observations b) <= budget limits)%nat ->
  let b' := accept limits name values b in
  cb_Observations b' = take (budget limits) (cb_Observations b ++ List.filter valid values) /\
  (cb_Truncated b' = false -> cb_Truncated b = false /\ (length (cb_Observations b ++ List.filter valid values) <= budget limits)%nat) /\
  cb_CollectorsRun b' = cb_CollectorsRun b /\ cb_CollectorsFailed b' = cb_CollectorsFailed b /\
  (issues_bounded limits b -> issues_bounded limits b').
Proof.
  cbv zeta. revert b. induction values as [|value values IH]; intros b Hl; cbn [accept List.filter].
  { rewrite app_nil_r, firstn_all2 by lia. done. }
  destruct (Z.leb_spec (cl_MaxObservations limits) (Z.of_nat (length (cb_Observations b)))) as [Hfull|Hroom]; cbn [cb_Observations cb_Truncated truncated].
  { assert (Hb : budget limits = length (cb_Observations b)) by (unfold budget in *; lia). rewrite Hb, take_app_length. done. }
  assert (Hv : valid value = is_ok (validateObservation value)) by done.
  destruct (validateObservation value) as [[]|e]; cbn [is_ok] in Hv; rewrite Hv.
  - assert (Hl' : (length (cb_Observations (observed_too value b)) <= budget limits)%nat).
    { cbn. rewrite length_app. cbn. unfold budget. lia. }
    specialize (IH (observed_too value b) Hl'). cbn in IH. rewrite <- !app_assoc in IH. exact IH.
  - destruct (issue_keeps limits (MkCollectorIssue name (error_text e) false) b) as (Ho&Ht&Hr&Hf&Hi).
    specialize (IH (appendIssue limits (MkCollectorIssue name (error_text e) false) b)). rewrite Ho, Ht, Hr, Hf in IH.
    destruct (IH Hl) as (H1&H2&H3&H4&H5). split_and!; [done..|]. intros Hb. by apply H5, Hi.
Qed.

Lemma settle_exact limits name collected b : (length (cb_Observations b) <= budget limits)%nat ->
  let b' := settle limits name collected b in
  cb_Observations b' = take (budget limits) (cb_Observations b ++ List.filter valid (fst collected)) /\
  (cb_Truncated b' = false -> cb_Truncated b = false /\ (length (cb_Observations b ++ List.filter valid (fst collected)) <= budget limits)%nat) /\
  cb_CollectorsRun b' = cb_CollectorsRun b /\
  cb_CollectorsFailed b' = cb_CollectorsFailed b + match snd collected with None => 0 | Some _ => 1 end /\
  (issues_bounded limits b -> issues_bounded limits b').
Proof.
  cbv zeta. intros Hl. unfold settle. destruct (accept_exact limits name (fst collected) b Hl) as (H1&H2&H3&H4&H5).
  destruct (snd collected) as [e|]; [|split_and!; [done..|lia|done]].
  destruct (issue_keeps limits (MkCollectorIssue name (error_text e) (errors_is e EDEADLINE)) (failed (accept limits name (fst collected) b)))
    as (Ho&Ht&Hr&Hf&Hi).
  rewrite Ho, Ht, Hr, Hf. split_and!; [done|done|done|cbn; lia|]. intros Hb. apply Hi, H5, Hb.
Qed.

Lemma take_take_app {A} n (l k : list A) : take n (take n l ++ k) = take n (l ++ k).
Proof.
  destruct (decide (n <= length l)%nat) as [Hn|Hn].
  - rewrite !take_app_le by (done || (rewrite length_take; lia)). by rewrite take_idemp.
  - by rewrite (firstn_all2 l) by lia.
Qed.

(** A collector that returns is heard in time or late. *)
Lemma run_collector_heard c collectors E w r w2 : cancel E (polls w) = None -> run_collector c E (polled w) = (Ok r, w2) ->
  forall outcomes ended, heard E collectors w2 outcomes ended -> heard E (Some c :: collectors) w (Some r :: outcomes) ended.
Proof.
  intros Hc Hr outcomes ended Hh. unfold run_collector in Hr. apply bind_ok in Hr as (a&w3&Ha&Hr). apply bind_ok in Hr as (live&w4&Hlive&[= <- <-]).
  unfold try_, ctx_check in Hlive. destruct (cancel E (polls w3)) as [no|] eqn:Hc3; injection Hlive as <- <-.
  - by eapply heard_late.
  - by eapply heard_in_time.
Qed.

Lemma collect_loop_exact limits collectors b E w b' w' : (length (cb_Observations b) <= budget limits)%nat -> issues_bounded limits b ->
  collect_loop limits collectors b E w = (Ok b', w') ->
  exists outcomes ended, heard E collectors w outcomes ended /\
    cb_Observations b' = take (budget limits) (cb_Observations b ++ values_of outcomes) /\
    (cb_Truncated b' = false -> cb_Truncated b = false /\ (length (cb_Observations b ++ values_of outcomes) <= budget limits)%nat) /\
    cb_CollectorsRun b' = cb_CollectorsRun b + runs outcomes /\
    cb_CollectorsFailed b' = cb_CollectorsFailed b + failures outcomes + (if ended : bool then 1 else 0) /\
    issues_bounded limits b'.
Proof.
  revert b w. induction collectors as [|[collector|] collectors IH]; intros b w Hl Hi; cbn [collect_loop].
  - intros [= <- <-]. exists [], false. cbn. rewrite app_nil_r, firstn_all2 by lia. split_and!; [constructor|done|done|lia|lia|done].
  - intros (live&w1&Hlive&Hr)%bind_ok. unfold try_, ctx_check in Hlive. destruct (cancel E (polls w)) as [no|] eqn:Hc; injection Hlive as <- <-.
    { cbv beta iota in Hr. set (issue := MkCollectorIssue _ _ _) in Hr. clearbody issue. injection Hr as <- <-.
      destruct (issue_keeps limits issue b) as (Ho&Ht&Hrun&Hf&Hi').
      exists [], true. unfold values_of. cbn [map concat List.filter failed cb_Observations cb_Truncated cb_CollectorsRun cb_CollectorsFailed].
      rewrite Ho, Ht, Hrun, Hf, app_nil_r, firstn_all2 by lia. split_and!; [by econstructor|done|done|cbn; lia|cbn; lia|by apply Hi']. }
    apply bind_ok in Hr as (collected&w2&Hcol&Hr).
    destruct (settle_exact limits (co_Name collector) collected (started b) Hl) as (H1&H2&H3&H4&H5).
    assert (Hl' : (length (cb_Observations (settle limits (co_Name collector) collected (started b))) <= budget limits)%nat)
      by (rewrite H1, length_take; lia).
    destruct (IH _ _ Hl' (H5 Hi) Hr) as (outcomes&ended&F&O&T&R&C&I). exists (Some collected :: outcomes), ended.
    split_and!; [by eapply run_collector_heard| | | | |done].
    + rewrite O, H1, take_take_app, <- app_assoc. unfold values_of. cbn [map concat]. by rewrite List.filter_app.
    + intros Ht. destruct (T Ht) as [Ht1 Ht2]. destruct (H2 Ht1) as [Ht3 Ht4]. split; [done|].
      rewrite H1, firstn_all2, <- app_assoc in Ht2 by done. unfold values_of. cbn [map concat]. by rewrite List.filter_app.
    + rewrite R, H3. cbn [started cb_CollectorsRun]. unfold runs. cbn [foldr]. lia.
    + rewrite C, H4. cbn [started cb_CollectorsFailed]. destruct collected as [vs [e|]]; unfold failures; cbn [snd foldr]; lia.
  - intros Hr. destruct (issue_keeps limits (MkCollectorIssue "unknown" "nil collector" false) b) as (Ho&Ht&Hrun&Hf&Hi').
    set (b1 := failed _) in Hr. assert (E1 : cb_Observations b1 = cb_Observations b) by exact Ho.
    assert (Hl1 : (length (cb_Observations b1) <= budget limits)%nat) by (by rewrite E1).
    destruct (IH b1 w Hl1 (Hi' Hi) Hr) as (outcomes&ended&F&O&T&R&C&I). exists (None :: outcomes), ended.
    split_and!; [by constructor|by rewrite O, E1| | | |done].
    + intros Hx. destruct (T Hx) as [T1 T2]. rewrite E1 in T2. split; [|done]. rewrite <- Ht. exact T1.
    + rewrite R. change (cb_CollectorsRun b1) with (cb_CollectorsRun (appendIssue limits (MkCollectorIssue "unknown" "nil collector" false) b)). by rewrite Hrun.
    + unfold b1 in C. cbn [failed cb_CollectorsFailed] in C. rewrite Hf in C. unfold failures in *. cbn [foldr]. lia.
Qed.

Lemma accept_started limits name values b : cb_StartedAt (accept limits name values b) = cb_StartedAt b.
Proof.
  revert b. induction values as [|v values IH]; intros b; cbn [accept]; [done|]. destruct (_ <=? _); [done|].
  destruct (validateObservation v); rewrite IH; [done|]. unfold appendIssue. by destruct (_ <=? _).
Qed.

Lemma collect_loop_started limits (collectors : list (option (Collector H))) b E w b' w' : collect_loop limits collectors b E w = (Ok b', w') -> cb_StartedAt b' = cb_StartedAt b.
Proof.
  assert (Hi : forall issue b, cb_StartedAt (appendIssue limits issue b) = cb_StartedAt b)
    by (intros issue b0; unfold appendIssue; by destruct (_ <=? _)).
  revert b w. induction collectors as [|[collector|] collectors IH]; intros b w; cbn [collect_loop]; [by intros [= <- <-]| |].
  - intros (live&w1&_&Hr)%bind_ok. destruct live; [|injection Hr as <- _; apply Hi]. apply bind_ok in Hr as (collected&w2&_&Hr).
    apply IH in Hr as ->. unfold settle. destruct (snd collected); rewrite ?Hi; [unfold failed; cbn [cb_StartedAt]|]; by rewrite accept_started.
  - intros Hr%IH. rewrite Hr. apply Hi.
Qed.

Lemma capped_range value default_ cap : 0 < default_ <= cap -> 0 < capped value default_ cap <= cap.
Proof.
  intros Hd. unfold capped. cbv zeta. destruct (Z.leb_spec value 0); [destruct (Z.ltb_spec cap default_)|destruct (Z.ltb_spec cap value)]; lia.
Qed.

(** C37: a batch holds what the sources gave.  Of every run of the
    collection: the collectors run one after the other until the context of
    the collection has ended before one of them; each contributes its answer,
    with its error if it has one, unless its own deadline has passed when it
    has run - then nothing but that error, and the ones after it are heard all
    the same.  The batch is the valid ones of these observations in the order
    of time and id, cut to the budget, and all of them when it is not marked
    as truncated; it holds at most 10000 observations, all valid, and 256
    issues; and it counts the collectors that ran and those that failed. *)
Theorem collect_all_exact (collectors : list (option (Collector H))) (limits : CollectionLimits) E w b w'
    (Hrun : CollectAll collectors limits E w = (Ok b, w')) :
  let max := Z.to_nat (cl_MaxObservations (normalized limits)) in
  exists outcomes ended w1, now E w = (Ok (cb_StartedAt b), w1) /\ heard E collectors w1 outcomes ended /\
    (exists kept, cb_Observations b = merge_sort observed_before kept /\ kept = take max (values_of outcomes) /\
       (cb_Truncated b = false -> kept = values_of outcomes)) /\
    (length (cb_Observations b) <= max)%nat /\ cl_MaxObservations (normalized limits) <= 10000 /\ Forall (fun o => valid o = true) (cb_Observations b) /\
    StronglySorted observed_before (cb_Observations b) /\ Z.of_nat (length (cb_Issues b)) <= 256 /\
    cb_CollectorsRun b = runs outcomes /\
    cb_CollectorsFailed b = failures outcomes + (if ended : bool then 1 else 0).
Proof.
  cbv zeta. unfold CollectAll in Hrun. cbv zeta in Hrun. apply bind_ok in Hrun as (t0&w1&Hnow&Hrun).
  apply bind_ok in Hrun as (b1&w2&Hloop&Hrun). apply bind_ok in Hrun as (t1&w3&_&[= <- <-]). cbn [cb_Observations cb_Truncated cb_Issues cb_CollectorsRun cb_CollectorsFailed].
  assert (Hi : cl_MaxIssues (normalized limits) <= 256 /\ 0 < cl_MaxIssues (normalized limits)) by (pose proof (capped_range (cl_MaxIssues limits) 64 256 ltac:(lia)); change (cl_MaxIssues (normalized limits)) with (capped (cl_MaxIssues limits) 64 256); lia).
  assert (Hm : 0 < cl_MaxObservations (normalized limits) <= 10000) by (apply capped_range; lia).
  set (b0 := MkCollectionBatch t0 zero_time [] [] false false 0 0) in Hloop.
  assert (Hl0 : (length (cb_Observations b0) <= budget (normalized limits))%nat) by apply Nat.le_0_l.
  assert (Hi0 : issues_bounded (normalized limits) b0) by (unfold issues_bounded; cbn [b0 cb_Issues length]; lia).
  destruct (collect_loop_exact (normalized limits) collectors b0 E w1 b1 w2 Hl0 Hi0 Hloop) as (outcomes&ended&F&O&T&R&C&I).
  assert (Hs : cb_StartedAt b1 = t0) by by rewrite (collect_loop_started _ _ _ _ _ _ _ Hloop).
  cbn [b0 cb_Observations cb_Truncated cb_CollectorsRun cb_CollectorsFailed app] in O, R, C, T. rewrite !Z.add_0_l in *.
  unfold budget in *.
  exists outcomes, ended, w1. pose proof (merge_sort_Permutation observed_before (cb_Observations b1)) as Hp.
  cbn [cb_StartedAt]. rewrite Hs. split_and!; [done|done| | |lia| | |unfold issues_bounded in I; lia|done|lia].
  - exists (take (Z.to_nat (cl_MaxObservations (normalized limits))) (values_of outcomes)). rewrite <- O at 1. split_and!; [done|done|].
    intros Ht. apply firstn_all2. exact (proj2 (T Ht)).
  - rewrite Hp, O, length_take. lia.
  - rewrite Hp, O. apply Forall_take, Forall_forall. intros o Ho%list_elem_of_In. by apply List.filter_In in Ho as [_ Ho].
  - apply StronglySorted_merge_sort.
    + intros x y z [?|[? ?]] [?|[? ?]]; [left; lia|left; lia|left; lia|right; split; [lia|by etrans]].
    + intros x y. unfold observed_before. destruct (Z.lt_total (ob_Timestamp x) (ob_Timestamp y)) as [?|[He|?]]; [by left; left| |by right; left].
      destruct (stdpp.base.total String.le (ob_ObservationID x) (ob_ObservationID y)); [left|right]; right; done.
Qed.
End Batch.

(** ** What the adapters make *)
Section Adapted.
Context {H : Type} `{MapOrder} `{UnicodeCase}.

Lemma name_rest_small r : name_rest r = true -> (r < 128)%N.
Proof.
  unfold name_rest, name_start, in_range. rewrite !orb_true_iff, !andb_true_iff, !N.eqb_eq, !N.leb_le. lia.
Qed.

Lemma encode_small r : (r < 128)%N -> encode_rune r = String (chr r) "".
Proof.
  intros Hr. unfold encode_rune, in_range. destruct (N.leb_spec 55296 r); [lia|]. destruct (N.ltb_spec 1114111 r); [lia|].
  cbn [andb orb]. by destruct (N.ltb_spec r 128); [|lia].
Qed.

Definition cleaned (r : N) : N := if name_rest r then r else 95%N.

Lemma cleaned_rest r : name_rest (cleaned r) = true.
Proof. unfold cleaned. by destruct (name_rest r) eqn:E. Qed.

Lemma encode_cleaned rs : all_bytes (fun c => name_rest (code c)) (encode_runes (map cleaned rs)) = true.
Proof.
  induction rs as [|r rs IH]; [done|]. cbn [map encode_runes]. pose proof (cleaned_rest r) as Hr. pose proof (name_rest_small _ Hr).
  rewrite encode_small by done. cbn. rewrite code_chr by lia. by rewrite Hr.
Qed.

Lemma sanitized_name value : prometheusNamePattern (sanitizeMetricName value) = true.
Proof.
  unfold sanitizeMetricName. destruct (runes (TrimSpace value)) as [|r rs]; [done|].
  cbn [encode_runes]. set (r0 := if name_start r then r else 95%N).
  assert (Hr : name_start r0 = true) by (unfold r0; by destruct (name_start r) eqn:E).
  assert (Hs : (r0 < 128)%N) by (apply name_rest_small; unfold name_rest; by rewrite Hr).
  rewrite encode_small by done. cbn. rewrite code_chr by lia. rewrite Hr. apply encode_cleaned.
Qed.

Lemma pattern_app a b : prometheusNamePattern a = true -> all_bytes (fun c => name_rest (code c)) b = true -> prometheusNamePattern (a +:+ b) = true.
Proof.
  destruct a as [|c a]; [done|]. cbn. intros [Hc Ha]%andb_true_iff Hb. rewrite Hc. cbn. by rewrite all_bytes_app, Ha, Hb.
Qed.

Lemma pattern_rest a : prometheusNamePattern a = true -> all_bytes (fun c => name_rest (code c)) a = true.
Proof.
  destruct a as [|c a]; [done|]. cbn. intros [Hc Ha]%andb_true_iff. unfold name_rest at 1. by rewrite Hc, Ha.
Qed.

Lemma trimmed_rest c s : all_bytes (fun c => name_rest (code c)) s = true -> all_bytes (fun c => name_rest (code c)) (trim_byte_left c s) = true.
Proof. induction s as [|d s IH]; [done|]. cbn. intros [Hd Hs]%andb_true_iff. destruct (Ascii.eqb c d); [by apply IH|]. cbn. by rewrite Hd, Hs. Qed.

Lemma sanitized_label value : prometheusNamePattern (sanitizeLabelName value) = true /\ HasPrefix (sanitizeLabelName value) "__" = false.
Proof.
  unfold sanitizeLabelName. pose proof (sanitized_name value) as Hn. destruct (HasPrefix (sanitizeMetricName value) "__") eqn:Hp; [|done].
  split; [|done]. apply (pattern_app "safeops_"); [done|]. by apply trimmed_rest, pattern_rest.
Qed.

(** The labels of a payload: named as Prometheus wants them, bounded. *)
Definition label_ok (key value : string) : Prop :=
  prometheusNamePattern key = true /\ HasPrefix key "__" = false /\ len value <= 515.

Lemma len_app a b : len (a +:+ b) = len a + len b.
Proof. unfold len. rewrite string_length_app. lia. Qed.

Lemma len_take n s : len (take_bytes n s) <= Z.of_nat n.
Proof. unfold len. revert n. induction s as [|c s IH]; intros [|n]; cbn; try lia. specialize (IH n). lia. Qed.

Lemma bounded_label value : len (boundedLabel value) <= 515.
Proof.
  unfold boundedLabel. destruct (Z.ltb_spec 512 (len value)); [|lia]. rewrite len_app.
  pose proof (len_take 512 value) as Hl. change (len "…") with 3. change (Z.of_nat 512) with 512 in Hl. lia.
Qed.

Definition labels_ok (n : nat) (m : gmap string string) : Prop := (base.size m <= n)%nat /\ map_Forall label_ok m.

Lemma insert_ok n key value m : labels_ok n m -> label_ok key value -> labels_ok (S n) (<[key := value]> m).
Proof.
  intros [Hs Hf] Hl. split; [|by apply map_Forall_insert_2].
  destruct (m !! key) eqn:Hk; [rewrite map_size_insert_Some by (by eexists)|rewrite map_size_insert_None by done]; lia.
Qed.

Lemma add_labels_ok n values keys out : labels_ok n out -> labels_ok n (add_labels sanitizeLabelName (Z.of_nat n) values keys out).
Proof.
  revert out. induction keys as [|key keys IH]; intros out Ho; cbn [add_labels]; [done|].
  destruct (Z.leb_spec (Z.of_nat n) (Z.of_nat (base.size out))) as [|Hlt]; [done|]. apply IH.
  assert (Ho' : labels_ok (pred n) out) by (split; [lia|apply Ho]). replace n with (S (pred n)) by lia.
  apply insert_ok; [done|]. destruct (sanitized_label key). split_and!; [done|done|apply bounded_label].
Qed.

Lemma set_labels_ok n l m : labels_ok n m -> Forall (fun kv => label_ok (fst kv) (snd kv)) l -> labels_ok (n + length l) (set_labels l m).
Proof.
  revert n m. induction l as [|[k v] l IH]; intros n m Hm Hl; cbn [set_labels foldl length]; [by rewrite Nat.add_0_r|].
  inversion Hl; subst. rewrite Nat.add_succ_r, <- Nat.add_succ_l. apply IH; [by apply insert_ok|done].
Qed.

Lemma prometheus_labels_ok config value : labels_ok 70 (prometheus_labels config value).
Proof.
  unfold prometheus_labels, copyLabels. cbv zeta. change 64 with (Z.of_nat 64).
  assert (Ha : labels_ok 64 (add_labels sanitizeLabelName (Z.of_nat 64) (pa_ConstantLabels config) (ranged (pa_ConstantLabels config)) ∅))
    by (apply add_labels_ok; split; [rewrite map_size_empty; lia|apply map_Forall_empty]).
  apply (add_labels_ok 64 (ob_Labels value) (ranged (ob_Labels value))) in Ha.
  match type of Ha with labels_ok 64 ?m => assert (Hb : labels_ok (64 + 5) (set_labels [("host", boundedLabel (ob_Host value));
    ("resource_type", boundedLabel (ob_ResourceType value)); ("resource_id", boundedLabel (ob_ResourceID value));
    ("source", boundedLabel (ob_Source value)); ("unit", boundedLabel (ob_Unit value))] m)) end.
  { apply set_labels_ok; [done|]. repeat (apply Forall_cons; split; [split_and!; [done|done|apply bounded_label]|]). done. }
  destruct (pa_IncludeSeverity config); [|destruct Hb; split; [lia|done]].
  apply (insert_ok 69); [done|]. split_and!; [done|done|apply bounded_label].
Qed.

Definition sample_ok (sample : PrometheusSample) : Prop := prometheusNamePattern (ps_Name sample) = true /\ labels_ok 70 (ps_Labels sample).

Lemma prometheus_loop_ok config namespace max values payload : prometheusNamePattern namespace = true ->
  Z.of_nat (length (pp_Samples payload)) <= max -> Forall sample_ok (pp_Samples payload) ->
  yields (prometheus_loop (H := H) config namespace max values payload) (fun p => Z.of_nat (length (pp_Samples p)) <= max /\ Forall sample_ok (pp_Samples p)).
Proof.
  intros Hn. revert payload. induction values as [|value values IH]; intros payload Hl Hf; cbn [prometheus_loop]; [by apply yields_ret|].
  apply yields_then. intros _. destruct (numericValue (ob_Value value)) as [number|]; [|by apply IH].
  destruct (Z.leb_spec max (Z.of_nat (length (pp_Samples payload)))); [by apply yields_ret|]. apply IH; cbn.
  - rewrite length_app. cbn. lia.
  - apply Forall_app. split; [done|]. apply Forall_singleton. split; [|apply prometheus_labels_ok]. apply pattern_app; [done|].
    cbn. apply pattern_rest, sanitized_name.
Qed.

(** A payload for Prometheus holds at most 10000 samples; every name is one
    Prometheus accepts; a sample has at most 70 labels, none of them in the
    reserved name space, each of at most 512 bytes and the sign that it was
    cut. *)
Theorem prometheus_payload config batch : yields (PrometheusAdapt (H := H) config batch) (fun p =>
  Z.of_nat (length (pp_Samples p)) <= 10000 /\ Forall sample_ok (pp_Samples p)).
Proof.
  unfold PrometheusAdapt. cbv zeta. apply yields_guard. intros Hn%negb_false_iff. apply yields_guard. intros Hm%Z.ltb_ge.
  eapply yields_mono; [apply (prometheus_loop_ok _ _ _ _ _ Hn); [|constructor]|].
  - cbn. destruct (Z.leb_spec (pa_MaxSamples config) 0); lia.
  - intros p [Hl Hf]. split; [lia|done].
Qed.

Lemma telemetry_loop_counts config max values payload : Z.of_nat (length (op_Metrics payload)) + Z.of_nat (length (op_Logs payload)) <= max ->
  yields (telemetry_loop (H := H) config max values payload) (fun p =>
    Z.of_nat (length (op_Metrics p)) + Z.of_nat (length (op_Logs p)) <= max /\ op_ServiceName p = op_ServiceName payload /\
    (op_Truncated p = false ->
     (length (op_Metrics p) + length (op_Logs p) = length (op_Metrics payload) + length (op_Logs payload) + length values)%nat)).
Proof.
  revert payload. induction values as [|value values IH]; intros [service metrics logs truncated_] Hl; cbn [telemetry_loop].
  { apply yields_ret. split_and!; [done|done|]. cbn. lia. }
  apply yields_then. intros _. cbn [op_Metrics op_Logs] in Hl.
  destruct (Z.leb_spec max (Z.of_nat (length metrics) + Z.of_nat (length logs))); [by apply yields_ret|].
  destruct (numericValue (ob_Value value)) as [number|]; (eapply yields_mono; [apply IH|]); cbn [op_Metrics op_Logs]; rewrite ?length_app; cbn [length];
    try lia; intros p (Ha&Hb&Hc); split_and!; try done; intros Ht; rewrite (Hc Ht), ?length_app; cbn [length]; lia.
Qed.

(** A payload for OpenTelemetry has at most 10000 points, metrics and logs
    together, and one of each observation unless it is marked as truncated. *)
Theorem telemetry_payload config batch : yields (OpenTelemetryAdapt (H := H) config batch) (fun p =>
  Z.of_nat (length (op_Metrics p)) + Z.of_nat (length (op_Logs p)) <= 10000 /\ len (op_ServiceName p) <= 128 /\
  (op_Truncated p = false -> (length (op_Metrics p) + length (op_Logs p) = length (cb_Observations batch))%nat)).
Proof.
  unfold OpenTelemetryAdapt. cbv zeta. apply yields_guard. intros Hs%Z.ltb_ge. apply yields_guard. intros Hm%Z.ltb_ge.
  eapply yields_mono; [apply telemetry_loop_counts|].
  - cbn. destruct (Z.leb_spec (oa_MaxDataPoints config) 0); lia.
  - cbn [op_Metrics op_Logs op_ServiceName]. intros p (Ha&Hb&Hc). split_and!; [lia|by rewrite Hb|]. intros Ht. by rewrite (Hc Ht).
Qed.
End Adapted.

(** ** Examples *)
Module Lab.

#[local] Instance plain_class : UnicodeClass := {| uni_letter _ := false; uni_number _ := false; uni_print _ := false |}.

Definition sample (id : string) (t : Z) : Observation :=
  MkObservation id "lab" "fixed" t "host" "file" "/tmp/x" "size" (OInt 1) "bytes" "info" ∅ "lab:x".
Definition fixed (name : string) (values : list Observation) (failed : option error) : Collector unit := MkCollector name (ret (values, failed)).

(** Four sources: one that works, a missing one, one whose deadline passes,
    and one that fails beside what it read, an observation without an id
    among it, and is heard all the same. *)
Definition sources : list (option (Collector unit)) :=
  [Some (fixed "good" [sample "b" 20; sample "a" 20] None); None; Some (fixed "slow" [sample "d" 1] None);
   Some (fixed "torn" [sample "c" 10; sample "" 5] (Some (EMsg "half read")))].
Definition late : Env := MkEnv (fun _ => 100) (fun _ => None) (fun _ => "id") (fun n => if Nat.eqb n 3 then Some EDEADLINE else None) (fun _ => 0%nat).

Lemma collect_all_exact_witness : exists b,
  fst (CollectAll sources (MkCollectionLimits 0 0 0) late (init_world tt)) = Ok b /\
  map ob_ObservationID (cb_Observations b) = ["c"; "a"; "b"] /\ map ci_Timeout (cb_Issues b) = [false; true; false; false] /\
  cb_CollectorsRun b = 3 /\ cb_CollectorsFailed b = 3 /\ StronglySorted observed_before (cb_Observations b).
Proof.
  destruct (CollectAll sources (MkCollectionLimits 0 0 0) late (init_world tt)) as [[b|e] w'] eqn:Hrun.
  - exists b. destruct (collect_all_exact sources _ _ _ b w' Hrun) as (outcomes&ended&w1&_&_&_&_&_&_&Hs&_). split; [reflexivity|].
    vm_compute in Hrun. injection Hrun as Hb _. rewrite <- Hb at 1 2 3 4. do 4 (split; [reflexivity|]). exact Hs.
  - vm_compute in Hrun. discriminate Hrun.
Defined.

(** A budget of two. *)
Example truncated_batch : rbind (fst (CollectAll sources (MkCollectionLimits 0 2 0) late (init_world tt))) (fun b =>
    Ok (map ob_ObservationID (cb_Observations b), cb_Truncated b)) = Ok (["a"; "b"], true).
Proof. vm_compute. reflexivity. Qed.

#[local] Instance lab_host : HostCalls unit := {|
  net_Interfaces := ret [];
  sys_Statfs _ := ret (100, 10, 1);
  sys_Uname := ret "6.1";
  os_Hostname := ret "lab";
  GOOS := "linux";
  GOARCH := "amd64"
|}.
#[local] Existing Instance Safefs.Lab.tree.
#[local] Instance lab_time : TimeText := show_Z.

(** The states a configuration collector reports, one of each path. *)
Definition changes (c : ConfigChangeCollector) : result (list (string * string) * bool) :=
  rbind (Safefs.Lab.answer (ConfigChangeCollect c)) (fun r =>
    Ok (omap (fun o => if String.eqb (ob_MetricName o) "config_sha256" then Some (ob_ResourceID o, default "" (ob_Labels o !! "change"))
                       else match ob_Value o with
                            | OText s => if String.eqb (ob_MetricName o) "config_change_state" then Some (ob_ResourceID o, s) else None
                            | _ => None
                            end) (fst r), match snd r with Some _ => true | None => false end)).
Definition base : gmap string ConfigFingerprint :=
  <["/srv/data/b.txt" := MkConfigFingerprint 0 3 (sha256_hex "bbb")]> (<["/srv/data/conf/app.yaml" := MkConfigFingerprint 0 2 (sha256_hex "no")]>
    {[ "/srv/data/gone" := MkConfigFingerprint 0 1 "" ]}).

Example config_states : changes (MkConfigChangeCollector (Some Safefs.Lab.reader) ["/srv/data"] base 0 0 0)
  = Ok ([("/srv/data/b.txt", "unchanged"); ("/srv/data/conf/app.yaml", "modified"); ("/srv/data/conf/sub/x", "added"); ("/srv/data/gone", "removed")], true).
Proof. vm_compute. reflexivity. Qed.

(** A file too large to hash, and every file below a root whose snapshot
    fails, is reported as removed. *)
Example skipped_is_removed : changes (MkConfigChangeCollector (Some Safefs.Lab.reader) ["/srv/data"] base 0 2 0)
  = Ok ([("/srv/data/conf/app.yaml", "modified"); ("/srv/data/conf/sub/x", "added"); ("/srv/data/b.txt", "removed"); ("/srv/data/gone", "removed")], true).
Proof. vm_compute. reflexivity. Qed.
Example unreadable_is_removed : changes (MkConfigChangeCollector (Some Safefs.Lab.reader) ["/srv/data"] base 501 0 0)
  = Ok ([("/srv/data/b.txt", "removed"); ("/srv/data/conf/app.yaml", "removed"); ("/srv/data/gone", "removed")], true).
Proof. vm_compute. reflexivity. Qed.

Example severities : map diskSeverity (map (fun p => rounded (round_ratio p 100)) [84; 85; 94; 95]) = ["info"; "warning"; "warning"; "critical"].
Proof. vm_compute. reflexivity. Qed.

End Lab.
