(* ===== verification/AuditTrail.v ===== *)
(** * The audit log under the agent

    [Agent] and its workflows write to the log through [TraceSink].  Here the
    writer of [Trace], over the directory of all tasks, is that sink, with
    what it promises its clients: complete lines stay, and an append that
    succeeds has put its line on disk ([AuditLog]).  On top of it: no tool
    call and no privileged action goes out before its line is on disk. *)

From S2P Require Import Prelude GoStrings GoText GoPath Json Hash Contracts Guard Approval Platform Executor Handlers Store Trace Planner Scope Agent Prepare Managed General Resume.
Open Scope Z_scope.

(** ** Texts that only grow *)
#[export] Instance starts_preorder : PreOrder starts.
Proof.
  split; [intros a; exists ""; by rewrite string_app_nil_r|].
  intros a b c [t ->] [u ->]. exists (t +:+ u). by rewrite string_app_assoc.
Qed.

Definition contains (line text : string) : Prop := exists before after, text = before +:+ line +:+ String newline "" +:+ after.

Lemma contains_starts line a b : starts a b -> contains line a -> contains line b.
Proof.
  intros [t ->] (x&y&->). exists x, (y +:+ t). by rewrite !string_app_assoc.
Qed.

(** ** The interface *)
Class AuditLog (T : Type) `{TraceSink T} := {
  audit_text : T -> string -> string;
  audit_line : string -> string -> string -> json -> string -> Prop;
  audit_append : forall E taskID sessionID typ data t,
    wp E (trace_append taskID sessionID typ data) (fun r t' =>
      (forall id, starts (audit_text t id) (audit_text t' id)) /\
      (is_ok r = true -> exists j line, data = Ok j /\ audit_line taskID sessionID typ j line /\ contains line (audit_text t' taskID))) t
}.

(** ** The writer *)

(** The text up to the last newline: what recovery keeps. *)
Definition complete (data : string) : string := take_bytes (last_line_start data) data.

Lemma last_line_start_cons c s :
  last_line_start (String c s) =
    (if (last_line_start s =? 0)%nat then if Ascii.eqb c newline then 1 else 0 else S (last_line_start s))%nat.
Proof. unfold last_line_start. cbn [LastIndexByte]. destruct (LastIndexByte s newline); [done|]. by destruct (Ascii.eqb c newline). Qed.

Lemma last_line_start_le s : (last_line_start s <= String.length s)%nat.
Proof.
  induction s as [|c s IH]; [done|]. rewrite last_line_start_cons. cbn [String.length].
  destruct (_ =? 0)%nat; [destruct (Ascii.eqb _ _)|]; lia.
Qed.

Lemma last_line_start_app s t : (last_line_start s <= last_line_start (s +:+ t))%nat.
Proof.
  induction s as [|c s IH]; [apply Nat.le_0_l|]. change (String c s +:+ t) with (String c (s +:+ t)). rewrite !last_line_start_cons.
  destruct (Nat.eqb_spec (last_line_start s) 0), (Nat.eqb_spec (last_line_start (s +:+ t)) 0), (Ascii.eqb c newline); lia.
Qed.

Lemma take_bytes_app_le n s t : (n <= String.length s)%nat -> take_bytes n (s +:+ t) = take_bytes n s.
Proof.
  revert n. induction s as [|c s IH]; intros n Hn; [cbn in Hn; by replace n with 0%nat by lia|].
  destruct n as [|n]; [done|]. cbn in *. by rewrite IH by lia.
Qed.

Lemma take_bytes_starts n m s : (n <= m)%nat -> starts (take_bytes n s) (take_bytes m s).
Proof.
  revert m s. induction n as [|n IH]; intros m s Hm; [by exists (take_bytes m s)|].
  destruct m as [|m]; [lia|]. destruct s as [|c s]; [by exists ""|]. destruct (IH m s) as [t Et]; [lia|].
  exists t. cbn. by rewrite Et at 1.
Qed.

Lemma complete_app s t : starts (complete s) (complete (s +:+ t)).
Proof.
  unfold complete. rewrite <- (take_bytes_app_le _ s t) by apply last_line_start_le. apply take_bytes_starts, last_line_start_app.
Qed.

Lemma complete_line s : complete (s +:+ String newline "") = s +:+ String newline "".
Proof.
  unfold complete, last_line_start. rewrite LastIndexByte_app by done.
  apply take_bytes_ge. rewrite string_length_app. cbn. lia.
Qed.

Lemma last_line_start_complete s : last_line_start (complete s) = last_line_start s.
Proof.
  unfold complete. induction s as [|c s IH]; [done|]. rewrite last_line_start_cons.
  destruct (Nat.eqb_spec (last_line_start s) 0) as [E0|E0].
  - destruct (Ascii.eqb_spec c newline) as [->|]; [|done]. cbn [take_bytes]. by rewrite last_line_start_cons.
  - cbn [take_bytes]. rewrite last_line_start_cons, IH. by destruct (Nat.eqb_spec (last_line_start s) 0).
Qed.

Lemma complete_complete s : complete (complete s) = complete s.
Proof.
  unfold complete at 1. rewrite last_line_start_complete. unfold complete.
  enough (E : forall n, take_bytes n (take_bytes n s) = take_bytes n s) by apply E.
  induction s as [|c s IH]; intros [|n]; cbn; try done. by rewrite IH.
Qed.

Definition text_of (f : TaskFiles) : string := default "" (tf_data f).
Definition grows (f f' : TaskFiles) : Prop := starts (complete (text_of f)) (complete (text_of f')).

#[export] Instance grows_preorder : PreOrder grows.
Proof. split; [intros f; unfold grows; reflexivity|]. intros a b c Hab Hbc. unfold grows in *. by etrans. Qed.

Lemma grows_same f f' : tf_data f' = tf_data f -> grows f f'.
Proof. unfold grows, text_of. intros ->. reflexivity. Qed.

Lemma grows_append f t : grows f (set_data (text_of f +:+ t) f).
Proof. unfold grows, text_of. cbn. apply complete_app. Qed.

Lemma grows_truncate f data : tf_data f = Some data -> grows f (MkTaskFiles (take_bytes (last_line_start data) <$> tf_data f) (tf_head f)).
Proof. unfold grows, text_of. cbn. intros ->. cbn. fold (complete data). by rewrite complete_complete. Qed.

Abbreviation TraceDir := (gmap string TaskFiles).

Section Writing.
Context `{EventDecoder} `{UnicodeCase} `{SecretPatterns} `{TimeText}.

Lemma wp_head_read E (Q : result head -> TaskFiles -> Prop) f : (forall r, Q r f) -> wp E readHead Q f.
Proof.
  intros HQ. unfold readHead. wp_step. wp_step. apply wp_sys.
  - intros no. cbv beta iota. destruct (errors_is _ _); [|by apply wp_throw]. wp_step. wp_step. apply wp_sys.
    + intros no'. cbv beta iota. destruct (errors_is _ _); [by apply wp_ret|by apply wp_throw].
    + destruct (tf_data f); cbv beta iota; [destruct (0 <? _)%nat|]; [by apply wp_throw|by apply wp_ret|by apply wp_ret].
  - destruct (tf_head f) as [[h|]|]; cbv beta iota; [by apply wp_ret|by apply wp_throw|].
    change (errors_is (ESys ENOENT) ENOENT) with true. cbv iota. wp_step. wp_step. apply wp_sys.
    + intros no'. cbv beta iota. destruct (errors_is _ _); [by apply wp_ret|by apply wp_throw].
    + destruct (tf_data f); cbv beta iota; [destruct (0 <? _)%nat|]; [by apply wp_throw|by apply wp_ret|by apply wp_ret].
Qed.

Lemma wp_head_file E h (Q : result unit -> TaskFiles -> Prop) f : (forall r f', tf_data f' = tf_data f -> Q r f') -> wp E (atomicJSON h) Q f.
Proof. intros HQ. unfold atomicJSON. apply wp_atomic_write; intros; by apply HQ. Qed.

Lemma wp_recover E taskID (Q : result head -> TaskFiles -> Prop) f : (forall r f', grows f f' -> Q r f') -> wp E (recoverLocked taskID) Q f.
Proof.
  intros HQ. unfold recoverLocked. wp_step. apply wp_head_read. intros [h|e]; [|by apply HQ].
  wp_step. wp_step. unfold readData. apply wp_sys.
  - intros no. cbv beta iota. destruct (errors_is _ _); [|by apply wp_throw, HQ]. wp_step. wp_step.
    destruct (guard_ _ _) as [[]|]; [by apply wp_ret, HQ|by apply HQ].
  - destruct (tf_data f) as [data|] eqn:Hd; cbv beta iota zeta.
    2: { change (errors_is (ESys ENOENT) ENOENT) with true. cbv iota. wp_step. wp_step.
         destruct (guard_ _ _) as [[]|]; [by apply wp_ret, HQ|by apply HQ]. }
    wp_step. wp_step. destruct (parseEvents _ _) as [events|]; [|by apply HQ]. wp_step. wp_step.
    destruct (check_prefix _ _) as [[]|]; [|by apply HQ]. apply wp_bind.
    apply (wp_mono _ _ (fun _ f1 => grows f f1)).
    { destruct (_ && _); [|by apply wp_ret]. unfold truncateAndSync. wp_step. wp_step; [|done]. wp_step. apply wp_sys; [done|].
      assert (G : grows f (MkTaskFiles (take_bytes (last_line_start data) <$> tf_data f) (tf_head f))) by by apply grows_truncate.
      by apply wp_probes. }
    intros [[]|e] f1 G; [|by apply HQ]. destruct (_ <? _); [|by apply wp_ret, HQ]. cbv zeta. wp_step.
    apply wp_head_file. intros [[]|e] f2 Hd2; [apply wp_ret, HQ|apply HQ]; (etrans; [exact G|by apply grows_same]).
Qed.

(** What an append that succeeds has written. *)
Definition wrote (taskID sessionID typ : string) (data : json) (line : string) : Prop :=
  exists e, line = event_line e /\ ev_TaskID e = taskID /\ ev_SessionID e = sessionID /\ ev_Type e = typ /\
    marshalPayload taskID (ev_Sequence e) typ (Ok data) = Ok (ev_Data e).

Lemma Append_grows E taskID sessionID typ data f :
  wp E (Append taskID sessionID typ data) (fun r f' => grows f f' /\
    (is_ok r = true -> exists j line, data = Ok j /\ wrote taskID sessionID typ j line /\ contains line (complete (text_of f')))) f.
Proof.
  assert (Hno : forall f' (e : error), grows f f' -> grows f f' /\
    (is_ok (Err e : result Event) = true -> exists j line, data = Ok j /\ wrote taskID sessionID typ j line /\ contains line (complete (text_of f')))) by done.
  unfold Append. wp_step. apply wp_ctx_check; [|by intros; apply Hno]. wp_step. wp_step.
  destruct (validID taskID) as [[]|]; [|by apply Hno]. wp_step. apply wp_recover. intros [h|e] f1 G1; [|by apply Hno].
  apply wp_bind. apply (wp_mono _ _ (fun _ f2 => grows f f2)).
  { unfold ensure_head. wp_step. wp_step. apply wp_sys.
    - intros no. cbv beta iota. destruct (errors_is _ _); [|by apply wp_throw].
      apply wp_head_file. intros r f2 Hd. etrans; [exact G1|by apply grows_same].
    - destruct (tf_head f1); cbv beta iota; [by apply wp_ret|].
      change (errors_is (ESys ENOENT) ENOENT) with true. cbv iota.
      apply wp_head_file. intros r f2 Hd. etrans; [exact G1|by apply grows_same]. }
  clear G1. intros [[]|e] f2 G2; [|by apply Hno]. wp_step. wp_step.
  destruct (marshalPayload _ _ _ _) as [payload|] eqn:Ep; [|by apply Hno].
  assert (Hj : exists j, data = Ok j) by (unfold marshalPayload in Ep; destruct data; [by eexists|done]). destruct Hj as [j ->].
  wp_step. wp_step. cbv zeta. set (e := MkEvent _ _ _ _ _ _ _ (event_hash _ _)).
  assert (Hw : wrote taskID sessionID typ j (event_line e)) by by exists e. clearbody e. clear Ep.
  wp_step. apply wp_sys; [intros; by apply Hno|].
  assert (G3 : grows f (set_data (text_of f2) f2)).
  { etrans; [exact G2|]. rewrite <- (string_app_nil_r (text_of f2)). apply grows_append. }
  fold (text_of f2). set (f3 := set_data _ f2) in *. clearbody f3. clear f2 G2. wp_step. unfold append_bytes.
  fold (text_of f3). apply wp_sys_torn; cbn [fst snd].
  { intros no k. apply Hno. etrans; [exact G3|apply grows_append]. }
  set (f4 := set_data _ f3). assert (G4 : grows f f4) by (etrans; [exact G3|apply grows_append]).
  assert (H4 : contains (event_line e) (complete (text_of f4))).
  { exists (text_of f3), "". rewrite string_app_nil_r. unfold f4, text_of at 1. cbn. unfold text_of.
    by rewrite <- string_app_assoc, complete_line. }
  clearbody f4. wp_step. apply wp_probe; [|by intros; apply Hno]. wp_step. apply wp_probe; [|by intros; apply Hno].
  wp_step. apply wp_probes; [|by intros; apply Hno]. wp_step. apply wp_head_file.
  intros [[]|err] f5 Hd5; [|apply Hno; etrans; [exact G4|by apply grows_same]].
  apply wp_ret. split; [etrans; [exact G4|by apply grows_same]|]. intros _. exists j, (event_line e). split; [done|]. split; [done|].
  unfold text_of. by rewrite Hd5.
Qed.

(** *** The directory of all tasks is a sink and keeps the promise *)

#[export] Instance trace_dir_sink : TraceSink TraceDir := fun taskID sessionID typ data =>
  e <- Trace.on_task taskID (Append taskID sessionID typ data) ;; ret (ev_Sequence e).

Definition task_text (d : TraceDir) (taskID : string) : string := complete (text_of (default (MkTaskFiles None None) (d !! taskID))).

#[export, refine] Instance trace_dir_log : AuditLog TraceDir := {| audit_text := task_text; audit_line := wrote |}.
Proof.
  intros E taskID sessionID typ data d. unfold trace_append, trace_dir_sink. wp_step. unfold Trace.on_task. apply wp_zoom.
  eapply wp_mono; [apply Append_grows|]. intros r f [G Hr].
  assert (Hgrow : forall id, starts (task_text d id) (task_text (<[taskID := f]> d) id)).
  { intros id. unfold task_text. destruct (base.decide (id = taskID)) as [->|Hne]; [by rewrite lookup_insert_eq|].
    rewrite lookup_insert_ne by done. reflexivity. }
  assert (Htext : task_text (<[taskID := f]> d) taskID = complete (text_of f)) by (unfold task_text; by rewrite lookup_insert_eq).
  destruct r as [e|err]; [apply wp_ret|]; (split; [exact Hgrow|]); intros Hok; [|done].
  rewrite Htext. by apply Hr.
Defined.
End Writing.

(** ** No tool call without its line *)

(** The record of a call: what [run_tool] appends before it calls. *)
Definition call_record (c : ToolCall_) : json :=
  JMap (list_to_map [("server", JStr (tl_Server c)); ("tool", JStr (tl_Tool c)); ("arguments", JMap (tl_Arguments c))]).

Definition tool_call (decision : Decision_) : ToolCall_ := MkToolCall (de_ServerID decision) (de_Tool decision) (de_Arguments decision).

Section Announced.
Context {T H X : Type} `{AuditLog T} (busy : nat) (ids : string -> Prop).

Abbreviation Action A := (M (AgentState T H X) A).

(** The line of a call in the log of one of the tasks. *)
Definition announced (t : T) (c : ToolCall_) : Prop :=
  exists id sessionID line, ids id /\ audit_line id sessionID ToolCall (call_record c) line /\ contains line (audit_text t id).

Definition trail (s s' : AgentState T H X) : Prop :=
  (forall i, starts (audit_text (as_trace s) i) (audit_text (as_trace s') i)) /\
  exists new, as_calls s' = as_calls s ++ new /\ Forall (announced (as_trace s')) new.

Lemma announced_starts t t' c : (forall id, starts (audit_text t id) (audit_text t' id)) -> announced t c -> announced t' c.
Proof. intros Hs (id&sid&line&Hid&Hl&Hc). exists id, sid, line. split_and!; [done..|]. eapply contains_starts; [apply Hs|done]. Qed.

#[export] Instance trail_preorder : PreOrder trail.
Proof.
  split; [intros s; split; [intros i; reflexivity|exists []; by rewrite app_nil_r]|].
  intros a b c [G1 (n1&E1&F1)] [G2 (n2&E2&F2)]. split; [intros i; etrans; [apply G1|apply G2]|]. exists (n1 ++ n2).
  rewrite E2, E1, app_assoc. split; [done|]. apply Forall_app. split; [|done].
  eapply Forall_impl; [exact F1|]. intros c'. by apply announced_starts.
Qed.

Definition trails {A} (m : Action A) : Prop := obeys (on_st trail) m.

Lemma trail_same s s' : as_trace s' = as_trace s -> as_calls s' = as_calls s -> trail s s'.
Proof. intros Ht Hc. split; [intros i; by rewrite Ht|]. exists []. by rewrite app_nil_r. Qed.

Lemma trails_store {A} (m : M Store A) : trails (on_store m).
Proof. apply wp_obeys. intros E s. apply wp_zoom, wp_any. intros _ st'. by apply trail_same. Qed.
Lemma trails_approvals {A} (m : M ApprovalDir A) : trails (on_approvals m).
Proof. apply wp_obeys. intros E s. apply wp_zoom, wp_any. intros _ st'. by apply trail_same. Qed.
Lemma trails_machine {A} (m : M H A) : trails (on_machine m).
Proof. apply wp_obeys. intros E s. apply wp_zoom, wp_any. intros _ st'. by apply trail_same. Qed.
Lemma trails_outside {A} (m : M X A) : trails (on_outside m).
Proof. apply wp_obeys. intros E s. apply wp_zoom, wp_any. intros _ st'. by apply trail_same. Qed.
Lemma trails_trace taskID sessionID typ data : trails (on_trace (trace_append taskID sessionID typ data)).
Proof.
  apply wp_obeys. intros E s. apply wp_zoom. eapply wp_mono; [apply audit_append|]. intros _ t [G _].
  split; [exact G|]. exists []. by rewrite app_nil_r.
Qed.
(** The line of a call is written; then the call goes out. *)
Lemma wp_announce E c value (Q : result unit -> AgentState T H X -> Prop) s : ids (tk_ID value) ->
  (forall s', trail s s' -> announced (as_trace s') c -> Q (Ok tt) s') -> (forall e s', trail s s' -> Q (Err e) s') ->
  wp E (appendTrace value ToolCall (Ok (call_record c))) Q s.
Proof.
  intros Hid Hok Herr. unfold appendTrace. wp_step. apply wp_zoom. eapply wp_mono; [apply audit_append|]. intros r t [G Hr].
  assert (T1 : trail s (MkAgentState (as_store s) t (as_approvals s) (as_host s) (as_outside s) (as_calls s))).
  { split; [exact G|]. exists []. by rewrite app_nil_r. }
  destruct r as [n|e]; [|by apply Herr]. wp_step. apply Hok; [done|]. destruct (Hr eq_refl) as (j&line&[= <-]&Hl&Hc).
  by exists (tk_ID value), (tk_SessionID value), line.
Qed.

Lemma trail_called c s s' : announced (as_trace s) c -> as_trace s' = as_trace s -> as_calls s' = as_calls s ++ [c] -> trail s s'.
Proof. intros Ha Ht Hc. split; [intros i; by rewrite Ht|]. exists [c]. split; [done|]. constructor; [by rewrite Ht|done]. Qed.

Lemma trails_append v typ data : trails (appendTrace v typ data).
Proof. unfold appendTrace. apply obeys_bind; [apply _|apply trails_trace|]. intros _. apply obeys_ret, _. Qed.
Lemma trails_save v : trails (SaveTask_ busy v).
Proof. apply trails_store. Qed.
Lemma trails_background {A} (m : Action A) : trails m -> trails (background m).
Proof. intros Hm E w. apply Hm. Qed.

Lemma trails_bind {A B} (m : Action A) (k : A -> Action B) : trails m -> (forall a, trails (k a)) -> trails (bind m k).
Proof. apply obeys_bind, _. Qed.
Lemma trails_try {A} (m : Action A) : trails m -> trails (try_ m).
Proof. apply obeys_try. Qed.
Lemma trails_wrapping {A} p (m : Action A) : trails m -> trails (wrapping p m).
Proof. apply obeys_wrapping. Qed.
Lemma trails_attempt {A B} (value : B) (m : Action A) k : trails m -> (forall a, trails (k a)) -> trails (attempt value m k).
Proof. intros Hm Hk. apply trails_bind; [by apply trails_try|]. intros [a|e]; [done|apply obeys_ret, _]. Qed.
Lemma trails_turn {A} (value : Task) (m : Action A) k : trails m -> (forall a, trails (k a)) -> trails (attempt_turn value m k).
Proof. intros Hm Hk. apply trails_bind; [by apply trails_try|]. intros [a|e]; [done|apply obeys_ret, _]. Qed.
Lemma trails_transition {B} state v (k : Task -> Action B) :
  (forall t, trails (k (task_with v state (tk_WorkerLease v) (tk_Checkpoint v + 1) t))) -> trails (bind (Transition state v) k).
Proof.
  intros Hk. apply wp_obeys. intros E s. wp_step. unfold Transition. wp_step. wp_step. wp_step. eapply wp_of_obeys; [apply Hk|done].
Qed.

End Announced.

(** The programs of the agent, down to their effects. *)
Ltac trail_step :=
  lazymatch goal with
  | |- trails _ (bind (Transition _ _) _) => apply trails_transition; intros ?
  | |- trails _ (bind _ _) => apply trails_bind; [|intros ?]
  | |- trails _ (attempt _ _ _) => apply trails_attempt; [|intros ?]
  | |- trails _ (attempt_turn _ _ _) => apply trails_turn; [|intros ?]
  | |- trails _ (try_ _) => apply trails_try
  | |- trails _ (finish _) => unfold finish
  | |- trails _ (reject _ _) => unfold reject
  | |- trails _ (ret _) => apply obeys_ret, _
  | |- trails _ (General.stop _ _) => apply obeys_ret, _
  | |- trails _ (Agent.fail _ _) => apply obeys_ret, _
  | |- trails _ panic => apply obeys_throw, _
  | |- trails _ (wrapping _ _) => apply trails_wrapping
  | |- trails _ (throw _) => apply obeys_throw, _
  | |- trails _ (lift _) => apply obeys_lift, _
  | |- trails _ now => apply obeys_now, _
  | |- trails _ (new_id _) => apply obeys_new_id, _
  | |- trails _ (on_store _) => apply trails_store
  | |- trails _ (on_approvals _) => apply trails_approvals
  | |- trails _ (on_machine _) => apply trails_machine
  | |- trails _ (on_outside _) => apply trails_outside
  | |- trails _ (on_trace _) => apply trails_trace
  | |- trails _ (appendTrace _ _ _) => apply trails_append
  | |- trails _ (SaveTask_ _ _) => apply trails_save
  | |- trails _ (background _) => apply trails_background
  | |- trails _ (match ?x with _ => _ end) => destruct x
  end; cbv zeta.
Ltac trail_walk := cbv zeta; repeat trail_step.

Section AnnouncedRuns.
Context {T H X : Type} `{AuditLog T} `{Outside X} `{UnicodeCase} `{TimeText} `{Regexp} `{Sprinter} `{ManagedPatterns}
  `{PlannerPatterns} (busy : nat) (o : Orchestrator H) (ids : string -> Prop).

Abbreviation Action A := (M (AgentState T H X) A).
Abbreviation trails m := (@AuditTrail.trails T H X _ _ ids _ m).
Abbreviation trail := (@AuditTrail.trail T H X _ _ ids).

Lemma trails_request p value proposal snapshot digest safety : trails (request_approval busy p value proposal snapshot digest safety).
Proof. unfold request_approval, store_waiting. trail_walk. Qed.
Lemma trails_Prepare p value proposal snapshot : trails (Prepare busy p value proposal snapshot).
Proof. unfold Prepare. trail_walk; apply trails_request. Qed.

Lemma trails_snapshot targets tool target arguments : trails (snapshotManagedActionTarget targets tool target arguments).
Proof. unfold snapshotManagedActionTarget. trail_walk. Qed.

Lemma trails_managed actions targets value decision capabilities :
  trails (prepareGeneralManagedAction busy actions targets value decision capabilities).
Proof.
  unfold prepareGeneralManagedAction, plan_managed_action. trail_walk; first [apply trails_snapshot|apply trails_Prepare].
Qed.

Lemma trails_complete value answer : trails (completeGeneral busy value answer).
Proof. unfold completeGeneral. trail_walk. Qed.

Lemma trails_failure value decision arguments stepID message : trails (tool_failed busy value decision arguments stepID message).
Proof. unfold tool_failed, recordGeneralToolFailure. trail_walk. Qed.

Lemma trails_success value decision arguments stepID structured : trails (tool_succeeded busy value decision arguments stepID structured).
Proof. unfold tool_succeeded. trail_walk. Qed.

Lemma trails_refuse value scope violation : trails (refuse_out_of_scope busy value scope violation).
Proof. unfold refuse_out_of_scope. trail_walk. Qed.

Lemma trails_replan value decision : trails (replan busy value decision).
Proof. unfold replan. trail_walk. Qed.

Lemma trails_begin iv value : trails (begin_general busy iv value).
Proof. unfold begin_general. trail_walk. Qed.

Lemma trails_run value decision stepID : ids (tk_ID value) -> trails (run_tool busy value decision stepID).
Proof.
  intros Hid. apply wp_obeys. intros E s. unfold run_tool. cbv zeta. unfold attempt_turn. apply wp_bind, wp_try.
  apply (wp_announce ids _ (tool_call decision)); [done| |intros; by apply wp_ret]. intros s1 T1 Ha.
  unfold call_tool. wp_step. wp_step. wp_step. wp_step. apply wp_zoom, wp_any. intros called x.
  set (s2 := MkAgentState _ _ _ _ _ _).
  assert (T2 : trail s s2) by (etrans; [exact T1|by eapply trail_called]).
  assert (Hrest : forall m : Action turn, trails m -> wp E m (fun _ s' => trail s s') s2).
  { intros m Hm. eapply wp_of_obeys; [exact Hm|]. intros _ s' T3. etrans; [exact T2|exact T3]. }
  repeat case_match; apply Hrest; first [apply trails_failure|apply trails_success].
Qed.

Lemma trails_guarded value decision stepID : ids (tk_ID value) -> trails (guarded_call busy o value decision stepID).
Proof. intros Hid. unfold guarded_call. trail_walk. by apply trails_run. Qed.

Lemma trails_use iv value decision : ids (tk_ID value) -> trails (use_tool busy o iv value decision).
Proof.
  intros Hid. unfold use_tool, reserveToolCall. trail_walk; first [apply trails_refuse|by apply trails_guarded].
Qed.

Lemma trails_carry_out iv value decision : ids (tk_ID value) -> trails (carry_out busy o iv value decision).
Proof.
  intros Hid. unfold carry_out.
  trail_walk; first [apply trails_replan|apply trails_complete|apply trails_managed|by apply trails_use].
Qed.

Lemma trails_ask iv value finalOnly : trails (ask iv value finalOnly).
Proof. unfold ask, General.decide. trail_walk. Qed.

Lemma trails_iteration iv value : ids (tk_ID value) -> trails (iteration busy o iv value).
Proof.
  intros Hid. unfold iteration. trail_walk; first [apply trails_ask|by apply trails_carry_out].
Qed.

Lemma trails_investigate fuel iv value E s : ids (tk_ID value) -> wp E (investigate busy o fuel iv value) (fun _ s' => trail s s') s.
Proof.
  revert value s. induction fuel as [|fuel IH]; intros value s Hid; [by apply wp_ret|]. apply wp_bind.
  eapply wp_mono; [apply wp_both; [eapply obeys_wp; by apply trails_iteration|apply spec_iteration]|].
  intros r s1 [T1 (next&new&->&_&Hstep)]. destruct next as [v'|res]; [|by apply wp_ret].
  destruct Hstep as (_&_&(Hv'&_)&_). eapply wp_mono; [apply IH; congruence|]. intros r2 s2 T2. by etrans.
Qed.

Lemma trails_general fuel v E s : ids (tk_ID v) -> wp E (runGeneral busy o fuel v) (fun _ s' => trail s s') s.
Proof.
  intros Hid. unfold runGeneral. destruct (negb _); [by apply wp_ret|]. wp_step. wp_step. cbv zeta. apply wp_bind, wp_try.
  eapply wp_of_obeys; [apply trails_store|]. intros r0 s0 T0. destruct r0 as [durable|e]; [|by apply wp_ret]. wp_step.
  eapply wp_mono; [apply wp_both; [eapply obeys_wp; apply trails_begin|apply spec_begin]|].
  intros r1 s1 [T1 ([v1 failed]&new&->&_&_&(Hv1&_)&_)]. cbn [fst] in Hv1.
  assert (T01 : trail s s1) by by etrans. destruct failed as [e|]; [by apply wp_ret|].
  eapply wp_mono; [apply trails_investigate; congruence|]. intros r2 s2 T2. by etrans.
Qed.
End AnnouncedRuns.

(** No tool call goes out before its line is on disk.  At whatever point a
    run of the investigation stops, also by a crash at any system call, every
    call it has made has a complete TOOL_CALL line with the server, the tool
    and the arguments of that call in the log of its task, and nothing that
    was completely written to any log before has been lost. *)
Theorem tool_calls_announced {T H X : Type} `{AuditLog T} `{Outside X} `{UnicodeCase} `{TimeText} `{Regexp} `{Sprinter}
    `{ManagedPatterns} `{PlannerPatterns} (busy : nat) (o : Orchestrator H) (fuel : nat) (v : Task) (E : Env)
    (s : AgentState T H X) :
  wp E (runGeneral busy o fuel v) (fun _ s' =>
    (forall id, starts (audit_text (as_trace s) id) (audit_text (as_trace s') id)) /\
    exists new, as_calls s' = as_calls s ++ new /\ Forall (announced (eq (tk_ID v)) (as_trace s')) new) s.
Proof. by apply trails_general. Qed.

(** ** No privileged action without its line *)
Section Actions.
Context {T H X Y : Type} `{AuditLog T} `{TimeText} `{EnvelopeDecoder} (busy : nat) (r : ApprovalResumer T H X Y).

(** What a workflow that goes on does to the state of the agent; it loses no
    line of a log. *)
Definition logs_grow (a a' : AgentState T H X) : Prop := forall id, starts (audit_text (as_trace a) id) (audit_text (as_trace a') id).

#[export] Instance logs_grow_preorder : PreOrder logs_grow.
Proof. split; [intros a id; reflexivity|]. intros a b c Hab Hbc id. etrans; [apply Hab|apply Hbc]. Qed.

Section Marks.
Context (R : AgentState T H X -> AgentState T H X -> Prop) `{!PreOrder R} (R_grows : forall a a', R a a' -> logs_grow a a')
  (R_quiet : forall a a', as_calls a' = as_calls a -> logs_grow a a' -> R a a').
Context (Hcontinuation : forall k value envelope result, ar_Continuation r = Some k -> obeys (on_st R) (k value envelope result)).

Abbreviation Action A := (M (ResumeState T H X Y) A).
Abbreviation log s := (as_trace (rm_agent s)).

(** The record of an action that starts. *)
Definition started (e : ActionEnvelope) : json :=
  JMap (list_to_map [("phase", JStr "STARTED"); ("approval_id", JStr (ae_ApprovalID e)); ("tool", JStr (ap_Tool (ae_Proposal e)));
    ("target", target_json (ap_Target (ae_Proposal e))); ("proposal_id", JStr (ap_ProposalID (ae_Proposal e)))]).

Definition on_record (t : T) (e : ActionEnvelope) : Prop :=
  exists line, audit_line (ae_TaskID e) (ae_SessionID e) Execution (started e) line /\ contains line (audit_text t (ae_TaskID e)).

Definition marks (s s' : ResumeState T H X Y) : Prop :=
  R (rm_agent s) (rm_agent s') /\
  exists new, rm_executed s' = rm_executed s ++ new /\ Forall (on_record (log s')) new.

#[export] Instance marks_preorder : PreOrder marks.
Proof.
  split; [intros s; split; [reflexivity|exists []; by rewrite app_nil_r]|].
  intros a b c [G1 (n1&E1&F1)] [G2 (n2&E2&F2)]. split; [by etrans|]. exists (n1 ++ n2).
  rewrite E2, E1, app_assoc. split; [done|]. apply Forall_app. split; [|done].
  eapply Forall_impl; [exact F1|]. intros e (line&Hl&Hc). exists line. split; [done|].
  eapply contains_starts; [by apply R_grows|exact Hc].
Qed.

Definition marked {A} (m : Action A) : Prop := obeys (on_st marks) m.

Lemma marked_agent {A} (m : M (AgentState T H X) A) : obeys (on_st R) m -> marked (on_agent m).
Proof.
  intros Hm. apply wp_obeys. intros E s. apply wp_zoom. eapply wp_of_obeys; [apply Hm|]. intros x a' G.
  split; [exact G|]. exists []. by rewrite app_nil_r.
Qed.

(** The agent makes no call. *)
Lemma marked_quiet {A} (m : M (AgentState T H X) A) :
  (forall E a, wp E m (fun _ a' => as_calls a' = as_calls a /\ logs_grow a a') a) -> marked (on_agent m).
Proof.
  intros Hm. apply marked_agent, wp_obeys. intros E a. eapply wp_mono; [apply Hm|]. intros x a' [Hc G]. by apply R_quiet.
Qed.

Lemma marked_store {A} (m : M Store A) : marked (on_agent (on_store m)).
Proof. apply marked_quiet. intros E a. apply wp_zoom, wp_any. intros x st'. split; [done|]. intros id. reflexivity. Qed.
Lemma marked_trace taskID sessionID typ data : marked (on_agent (on_trace (trace_append taskID sessionID typ data))).
Proof. apply marked_quiet. intros E a. apply wp_zoom. eapply wp_mono; [apply audit_append|]. by intros x t [G _]. Qed.
Lemma marked_append v typ data : marked (append v typ data).
Proof.
  apply marked_quiet. intros E a. unfold appendTrace. wp_step. apply wp_zoom. eapply wp_mono; [apply audit_append|].
  intros [n|e] t [G _]; [by wp_step|done].
Qed.
Lemma marked_bind {A B} (m : Action A) (k : A -> Action B) : marked m -> (forall a, marked (k a)) -> marked (bind m k).
Proof. apply obeys_bind, _. Qed.
Lemma marked_try {A} (m : Action A) : marked m -> marked (try_ m).
Proof. apply obeys_try. Qed.
Lemma marked_attempt {A B} (value : B) (m : Action A) k : marked m -> (forall a, marked (k a)) -> marked (attempt value m k).
Proof. intros Hm Hk. apply marked_bind; [by apply marked_try|]. intros [a|e]; [done|apply obeys_ret, _]. Qed.

Ltac mark_step :=
  lazymatch goal with
  | |- marked (bind _ _) => apply marked_bind; [|intros ?]
  | |- marked (attempt _ _ _) => apply marked_attempt; [|intros ?]
  | |- marked (try_ _) => apply marked_try
  | |- marked (Transition _ _) => unfold Transition
  | |- marked (ret _) => apply obeys_ret, _
  | |- marked (Agent.fail _ _) => apply obeys_ret, _
  | |- marked now => apply obeys_now, _
  | |- marked (new_id _) => apply obeys_new_id, _
  | |- marked (save _ _) => apply marked_store
  | |- marked (append _ _ _) => apply marked_append
  | |- marked (on_agent (on_store _)) => apply marked_store
  | |- marked (on_agent (on_trace _)) => apply marked_trace
  | |- marked (match ?x with _ => _ end) => destruct x
  end; cbv zeta.
Ltac mark_walk := cbv zeta; repeat mark_step.

Lemma marked_failed v cause : marked (failExecution busy v cause).
Proof. unfold failExecution. mark_walk. Qed.
Lemma marked_conclude v result : marked (conclude busy v result).
Proof. unfold conclude, completeSession. mark_walk; apply marked_failed. Qed.
Lemma marked_continue v envelope result : marked (continue_after busy r v envelope result).
Proof.
  unfold continue_after. destruct (ar_Continuation r) as [k|] eqn:Hk; [|apply marked_conclude].
  apply marked_bind; [|intros [[next handled] failed]; mark_walk; first [apply marked_failed|apply marked_conclude]].
  apply marked_agent. by apply Hcontinuation.
Qed.
Lemma marked_restore envelope v data : marked (append_restore envelope v data).
Proof. unfold append_restore. mark_walk. Qed.
Lemma marked_after v envelope result : marked (after_execution busy r v envelope result).
Proof.
  unfold after_execution, after_verification, append_restore, persistActionContext.
  mark_walk; first [apply marked_failed|apply marked_continue].
Qed.

Lemma marked_approved v record : marked (executeApproved busy r v record).
Proof.
  unfold executeApproved. destruct (ar_Executor r) as [run|]; [|mark_walk].
  destruct (decode_pending v) as [e|err]; [|apply marked_failed].
  destruct (_ || _) eqn:Hids; [apply marked_failed|].
  apply orb_false_iff in Hids as [[Ht Hs]%orb_false_iff Ha]. apply negb_false_iff, String.eqb_eq in Ht, Hs, Ha.
  apply wp_obeys. intros E s. unfold Transition. do 4 wp_step. apply wp_attempt. eapply wp_of_obeys; [apply marked_store|].
  intros x s1 M1. destruct x as [[]|err]; [|done]. apply wp_attempt. unfold append, on_agent. apply wp_zoom. unfold appendTrace. wp_step.
  apply wp_zoom. eapply wp_mono; [apply audit_append|]. intros x t [G Hr]. destruct x as [sequence|err].
  2: { etrans; [exact M1|]. split; [by apply R_quiet|]. exists []. by rewrite app_nil_r. }
  wp_step. destruct (Hr eq_refl) as (j&line&Hj&Hl&Hc). cbn [tk_ID tk_SessionID task_with] in *.
  set (s2 := MkResumeState _ _ _). assert (M2 : marks s s2).
  { etrans; [exact M1|]. split; [by apply R_quiet|]. exists []. by rewrite app_nil_r. }
  assert (Hrec : on_record (log s2) e).
  { exists line. rewrite Ht, Hs. split; [|exact Hc]. assert (Hst : started e = j); [|by rewrite Hst].
    unfold started. rewrite Ha. unfold started_payload, payload in Hj. cbn [app] in Hj. congruence. }
  clearbody s2. clear G Hr Hj Hl Hc. apply wp_attempt. eapply wp_of_obeys; [apply marked_restore|].
  intros x s3 M3. assert (M03 : marks s s3) by by etrans. destruct x as [[]|err]; [|done].
  assert (Hrec3 : on_record (log s3) e).
  { destruct Hrec as (l&Hl&Hc). exists l. split; [done|]. eapply contains_starts; [apply (R_grows _ _ (proj1 M3))|done]. }
  wp_step. wp_step. unfold execute. wp_step. wp_step. apply wp_zoom, wp_any. intros res y.
  assert (M4 : marks s (MkResumeState (rm_agent s3) y (rm_executed s3 ++ [e]))).
  { etrans; [exact M03|]. split; [reflexivity|]. exists [e]. split; [done|]. by constructor. }
  destruct res as [result|err]; (eapply wp_of_obeys; [first [apply marked_after|apply marked_failed]|]);
    intros x' s' M5; by etrans.
Qed.


Lemma marked_Resume record : marked (Resume busy r record).
Proof. unfold Resume, cancel_task. mark_walk; apply marked_approved. Qed.
End Marks.

(** No privileged action starts before its line is on disk.  At whatever
    point a resumption stops, every envelope it has sent to the executor has a
    complete EXECUTION line, with the phase STARTED, its approval, its proposal,
    its tool and its target, in the log of its task. *)
Theorem actions_announced (Hcontinuation : forall k value envelope result, ar_Continuation r = Some k ->
    obeys (on_st logs_grow) (k value envelope result)) (E : Env) (record : ApprovalRecord) (s : ResumeState T H X Y) :
  wp E (Resume busy r record) (fun _ s' =>
    logs_grow (rm_agent s) (rm_agent s') /\
    exists new, rm_executed s' = rm_executed s ++ new /\ Forall (on_record (as_trace (rm_agent s'))) new) s.
Proof.
  apply (obeys_wp (marks logs_grow)). by apply (marked_Resume logs_grow).
Qed.
End Actions.

(** *** The run of [General], on the log on disk *)
Definition planned_on_disk : AgentState TraceDir nat (list Decision_) :=
  MkAgentState (as_store (planned_by [])) ∅ ∅ 0%nat [lab_decision "file.stat" "/srv/app/log"; lab_final] [].

Definition run_on_disk :=
  runGeneral (T := TraceDir) (H := nat) (X := list Decision_)
    (H0 := trace_dir_sink (H := plain_decoder) (H0 := trace_case) (H1 := plain_patterns) (H2 := plain_time)) (H1 := scripted)
    (H2 := lab_case) (H3 := plain_time) (H4 := no_regexp) (H5 := no_sprint) (H6 := no_managed) (H7 := mask_patterns)
    2 lab_reader 13 lab_request (calm 5 "00ff") (init_world planned_on_disk).

Definition final_files : TaskFiles := default fresh_files (as_trace (st run_on_disk.2) !! "task_1").

Definition types_of (r : result (list Event)) : result (list string) := let? events := r in Ok (map ev_Type events).

Example run_logged_on_disk :
  types_of (Trace.Read (H := plain_decoder) "task_1" (calm 6 "") (init_world final_files)).1
  = Ok ["INTENT_PARSED"; "PLAN_CREATED"; "DECISION_RECORDED"; "ACTION_PROPOSED"; "STATIC_GUARD_RESULT"; "INTENT_GUARD_RESULT";
        "RISK_EVALUATED"; "TOOL_CALL"; "TOOL_RESULT"; "FINDINGS_UPDATED"; "DECISION_RECORDED"; "TASK_COMPLETED"; "FINAL"].
Proof. vm_compute. reflexivity. Qed.

(** *** The resumption of [Resume], on the log on disk *)
Definition disk_resumer : ApprovalResumer TraceDir nat nat (XState (gmap string (option ApprovalRecord)) nat) :=
  MkApprovalResumer (Some (Execute (H0 := approval_store) (H1 := lab_case) (H2 := plain_time) gated_executor)) true None.

Definition granted_on_disk : ResumeState TraceDir nat nat (XState (gmap string (option ApprovalRecord)) nat) :=
  MkResumeState
    (MkAgentState (as_store (rm_agent granted_state)) ∅ (as_approvals (rm_agent granted_state)) 0%nat 0%nat [])
    (rm_executor granted_state) [].

Definition resume_on_disk :=
  Resume (H0 := trace_dir_sink (H := plain_decoder) (H0 := trace_case) (H1 := plain_patterns) (H2 := plain_time))
    (H1 := plain_time) (H2 := gated_decoder) 2 disk_resumer (gated_record Approved 6).

Lemma actions_announced_witness :
  wp (calm 7 "00aa") resume_on_disk (fun _ s' =>
    logs_grow (H1 := trace_dir_log (H := plain_decoder) (H0 := trace_case) (H1 := plain_patterns) (H2 := plain_time))
      (rm_agent granted_on_disk) (rm_agent s') /\
    exists new, rm_executed s' = [] ++ new /\
      Forall (on_record (H1 := trace_dir_log (H := plain_decoder) (H0 := trace_case) (H1 := plain_patterns) (H2 := plain_time))
                (as_trace (rm_agent s'))) new) granted_on_disk.
Proof.
  apply (actions_announced (H1 := trace_dir_log (H := plain_decoder) (H0 := trace_case) (H1 := plain_patterns) (H2 := plain_time))
           (H2 := plain_time) (H3 := gated_decoder) 2 disk_resumer).
  intros k value envelope result Hk. discriminate Hk.
Defined.

Definition resumed_files : TaskFiles :=
  default fresh_files (as_trace (rm_agent (st (resume_on_disk (calm 7 "00aa") (init_world granted_on_disk)).2)) !! "task_1").

Example resumption_logged_on_disk :
  types_of (Trace.Read (H := plain_decoder) "task_1" (calm 8 "") (init_world resumed_files)).1
  = Ok ["APPROVAL_RESULT"; "TASK_RESUMED"; "EXECUTION"; "EXECUTION"; "VERIFICATION"; "TASK_COMPLETED"; "FINAL"].
Proof. vm_compute. reflexivity. Qed.
