(* ===== verification/Going.v ===== *)
(** * What a run does to tasks and approvals

    [goes E m P]: program [m] of the agent keeps to [Resume.goes_on] in the
    environment [E], and what it returns satisfies [P].  A part of the agent
    that keeps to it can go on between two resumptions: it makes no task wait
    for an approval unless it has just requested that approval.  Every
    workflow, the investigation and the store operations under them do. *)

From S2P Require Import Prelude GoStrings GoText GoPath Json Hash Contracts Guard Approval Platform Targets Nonce Executor Handlers Trace Store Planner Scope Agent Decode Prepare Managed General Workflows FileAction Orchestrate Resume.
Open Scope Z_scope.

(** The rules of [stays], for [goes_on]. *)
Abbreviation goes_mono := (stays_mono _ (@goes_on _ _ _ _)).
Abbreviation goes_ret := (stays_ret _ (@goes_on _ _ _ _)).
Abbreviation goes_throw := (stays_throw _ (@goes_on _ _ _ _)).
Abbreviation goes_lift := (stays_lift _ (@goes_on _ _ _ _)).
Abbreviation goes_bind := (stays_bind _ (@goes_on _ _ _ _)).
Abbreviation goes_try := (stays_try _ (@goes_on _ _ _ _)).
Abbreviation goes_ctx_check := (stays_ctx_check _ (@goes_on _ _ _ _)).
Abbreviation goes_attempt := (stays_attempt _ (@goes_on _ _ _ _)).
Abbreviation goes_turn := (stays_turn _ (@goes_on _ _ _ _)).
Abbreviation goes_transition := (stays_transition _ (@goes_on _ _ _ _)).

(** What is drawn in the background is what the run draws. *)
Lemma goes_background {T H X A} E (m : M (AgentState T H X) A) P :
  stays (background_env E) (@goes_on T H X (drawn (background_env E))) m P -> stays E (@goes_on T H X (drawn E)) (background m) P.
Proof. intros Hm. exact Hm. Qed.

(** ** What the parts do to tasks and approvals *)
Section Going.
Context {T H X : Type} (E : Env).

Abbreviation Action A := (M (AgentState T H X) A).
Abbreviation going := (@goes_on T H X (drawn E)).

(** [m] keeps to [goes_on], and [P] holds of what it returns. *)
Abbreviation goes m P := (stays E going m P).

(** Effects that touch neither tasks nor approvals. *)
Lemma goes_machine {A} (m : M H A) : goes (on_machine m) (fun _ => True).
Proof. intros a. apply wp_zoom, wp_any. intros r h. split; [by apply goes_on_same|done]. Qed.
Lemma goes_outside {A} (m : M X A) : goes (on_outside m) (fun _ => True).
Proof. intros a. apply wp_zoom, wp_any. intros r x. split; [by apply goes_on_same|done]. Qed.
Lemma goes_trace {A} (m : M T A) : goes (on_trace m) (fun _ => True).
Proof. intros a. apply wp_zoom, wp_any. intros r t. split; [by apply goes_on_same|done]. Qed.
Lemma goes_note c : goes (modify (note_call c)) (fun _ => True).
Proof. intros a. apply wp_modify. split; [by apply goes_on_same|done]. Qed.

Lemma goes_append `{TraceSink T} v typ data : goes (appendTrace v typ data) (fun _ => True).
Proof. eapply goes_bind; [apply goes_trace|]. intros _ _. by apply goes_ret. Qed.

Lemma goes_save busy v : tk_State v <> WaitingApproval -> goes (SaveTask_ busy v) (fun _ => True).
Proof.
  intros Hv a. apply wp_zoom. eapply wp_mono; [apply SaveTask_changes|]. intros r st' [_ Hst]. split; [|done].
  destruct Hst as [-> | ->]; [by apply goes_on_same|by apply goes_on_put].
Qed.

Lemma goes_session busy id f : goes (on_store (UpdateSession busy id f)) (fun _ => True).
Proof. intros a. apply wp_zoom. eapply wp_mono; [apply UpdateSession_tasks|]. intros r st' [Hst Hj]. split; [by apply goes_on_same|done]. Qed.

Lemma goes_read {A} (kind : Kind A) id : goes (on_store (get kind id)) (fun _ => True).
Proof.
  intros a. apply wp_zoom, wp_get_record; [intros v _|intros e]; (split; [by apply goes_on_same|done]).
Qed.

(** *** Approvals are requested before a task waits for them *)
Lemma goes_on_approvals (a : AgentState T H X) d' :
  (forall id, is_Some (as_approvals a !! id) -> is_Some (d' !! id)) ->
  going a (MkAgentState (as_store a) (as_trace a) d' (as_host a) (as_outside a) (as_calls a)).
Proof.
  intros Hd. split; [|done|intros id ap Hw; by left]. intros [Hn Hr Hj]. split; [done| |done]. intros id ap Hw. apply Hd. by eapply Hr.
Qed.

Lemma goes_reject id reason : goes (reject id reason) (fun _ => True).
Proof.
  eapply goes_bind; [apply (goes_try _ (fun _ => True))|intros _ _; by apply goes_ret].
  intros a. apply wp_zoom, wp_background. eapply wp_mono; [apply Resolve_writes|]. intros r d' Hd. split; [|done].
  apply goes_on_approvals. intros i Hi. destruct Hd as [-> | (r0&rec&_&_&_&->)]; [done|].
  destruct (base.decide (ar_ID rec = i)) as [<-|Hne]; [rewrite lookup_insert_eq; by eexists|by rewrite lookup_insert_ne].
Qed.

(** The task waits for an approval drawn now, whose record is there. *)
Lemma goes_on_wait (a : AgentState T H X) v : drawn E (tk_PendingApprovalID v) -> is_Some (as_approvals a !! tk_PendingApprovalID v) ->
  going a (MkAgentState (put tasks (tk_ID v) v (as_store a)) (as_trace a) (as_approvals a) (as_host a) (as_outside a) (as_calls a)).
Proof.
  intros Hd Hr.
  assert (Hw : forall id ap, waits (put tasks (tk_ID v) v (as_store a)) id ap -> waits (as_store a) id ap \/ ap = tk_PendingApprovalID v).
  { intros id ap (w&Hw&Hs&Hp). unfold has in Hw. cbn in Hw. apply lookup_insert_Some in Hw as [[_ [= <-]]|[_ Hw]]; [by right|].
    left. by exists w. }
  split; cbn [as_store as_approvals]; [|done|intros id ap Hi; destruct (Hw id ap Hi) as [? | ->]; [by left|by right]].
  intros [Hn Ha Hj]. split; cbn [as_store as_approvals]; [| |exact Hj].
  - intros id w Hi. unfold has in Hi. cbn in Hi. apply lookup_insert_Some in Hi as [[<- [= <-]]|[_ Hi]]; [done|by apply Hn].
  - intros id ap Hi. destruct (Hw id ap Hi) as [Hi' | ->]; [by eapply Ha|done].
Qed.

Lemma wp_save_any busy v (Q : result unit -> AgentState T H X -> Prop) (a : AgentState T H X) :
  (forall r, Q r (MkAgentState (put tasks (tk_ID v) v (as_store a)) (as_trace a) (as_approvals a) (as_host a) (as_outside a) (as_calls a))) ->
  (forall e, Q (Err e) a) -> wp E (SaveTask_ busy v) Q a.
Proof.
  intros H1 H2. unfold SaveTask_. apply wp_zoom. eapply wp_mono; [apply SaveTask_changes|]. intros [[]|e] st' [Hok Hst].
  - rewrite Hok by done. apply H1.
  - destruct Hst as [-> | ->]; [destruct a; apply H2|apply H1].
Qed.
End Going.


Lemma observed_state value decision arguments result ref state completed finding :
  tk_State (observed value decision arguments result ref state completed finding).1 = tk_State value.
Proof. unfold observed. by destruct (recordObservation _ _). Qed.

(** The walk through a program: its effects by the lemmas above, its parts by
    the hints. *)
Create HintDb goes.
#[export] Hint Resolve goes_machine goes_outside goes_trace goes_note goes_append goes_session goes_read goes_reject
  stays_transition : goes.

Ltac goes_effect :=
  lazymatch goal with
  | |- stays _ _ (SaveTask_ _ _) _ => apply goes_save; first [assumption|discriminate|congruence]
  | |- stays _ _ (background _) _ => apply goes_background; goes_leaf
  | |- _ => eauto with goes
  end
with goes_leaf := stays_leaf ltac:(idtac; goes_effect).

Ltac goes_step :=
  lazymatch goal with
  | |- stays _ _ (match observed ?v ?d ?a ?r ?ref ?st ?c ?f with _ => _ end) _ =>
    let Hs := fresh "Hs" in pose proof (observed_state v d a r ref st c f) as Hs; destruct (observed v d a r ref st c f); cbn [fst] in Hs
  | |- _ => stays_step ltac:(idtac; goes_effect)
  end.
Ltac goes_walk := cbv zeta; repeat (goes_step; cbv zeta; try done).

Section Parts.
Context {T H X : Type} `{TraceSink T} `{Outside X} `{HealthVerifier X} `{UnicodeCase} `{TimeText} `{TimeParse} (busy : nat)
  (o : Orchestrator H) (E : Env).

Abbreviation Action A := (M (AgentState T H X) A).
Abbreviation goes m P := (stays E (@goes_on T H X (drawn E)) m P).
Abbreviation going := (@goes_on T H X (drawn E)).

Lemma Create_drawn b ttl (d : ApprovalDir) :
  wp E (Create b ttl) (fun r d' => (forall id, is_Some (d !! id) -> is_Some (d' !! id)) /\
    (forall rec, r = Ok (rec, Ok tt) -> drawn E (ar_ID rec) /\ is_Some (d' !! ar_ID rec))) d.
Proof.
  assert (Hput : forall rec : ApprovalRecord, forall id, is_Some (d !! id) -> is_Some (<[ar_ID rec := Some rec]> d !! id)).
  { intros rec id Hi. destruct (base.decide (ar_ID rec = id)) as [<-|Hne]; [rewrite lookup_insert_eq; by eexists|by rewrite lookup_insert_ne]. }
  unfold Create. wp_step. wp_step; [|by split]. apply wp_guard; [by split|intros _]. cbv zeta.
  do 4 wp_step. cbv zeta. wp_step. wp_step. unfold save. apply wp_atomic_write; [intros [[]|e]|intros e]; wp_step.
  - split; [apply Hput|]. intros rec [= <-]. split; [by exists n0|]. cbn [ar_ID]. rewrite lookup_insert_eq. by eexists.
  - split; [apply Hput|done].
  - by split.
Qed.

Lemma wp_going {A} (m : Action A) (P : A -> Prop) a1 a : going a1 a -> goes m P -> wp E m (fun _ a' => going a1 a') a.
Proof. intros Ha Hm. eapply wp_mono; [apply Hm|]. intros r a' [Hg _]. by etrans. Qed.

Lemma wp_store_waiting p value envelope binding risk rec (a : AgentState T H X) :
  drawn E (ar_ID rec) -> is_Some (as_approvals a !! ar_ID rec) ->
  wp E (store_waiting busy p value envelope binding risk rec) (fun _ a' => going a a') a.
Proof.
  intros Hd Hr. unfold store_waiting. destruct (Sign _ _) as [env|e].
  2: { eapply (wp_going _ (fun _ => True)); [reflexivity|]. goes_walk. }
  unfold Transition at 1. do 6 wp_step. apply wp_save_any.
  - intros saved. set (waiting := task_with _ _ _ _ _). eapply (wp_going _ (fun _ => True)); [by apply (goes_on_wait E a waiting)|].
    goes_walk.
  - intros e. eapply (wp_going _ (fun _ => True)); [reflexivity|]. goes_walk.
Qed.

Lemma goes_request p value proposal snapshot digest safety :
  goes (request_approval busy p value proposal snapshot digest safety) (fun _ => True).
Proof.
  unfold request_approval. cbv zeta. destruct (_ <? _); [by apply goes_ret|].
  eapply goes_bind; [goes_leaf|intros t _]. eapply goes_bind; [goes_leaf|intros nonce _].
  intros a. apply wp_attempt. apply wp_zoom. eapply wp_mono; [apply Create_drawn|]. intros [[rec saved]|e] d' [Hd Hrec].
  2: { split; [by apply goes_on_approvals|done]. }
  apply wp_attempt. apply wp_lift. destruct saved as [[]|e]; [|split; [by apply goes_on_approvals|done]].
  destruct (Hrec rec eq_refl) as [Hdr Hin].
  eapply wp_mono; [apply wp_store_waiting; [exact Hdr|exact Hin]|]. intros r a' Hg. split; [|done].
  etrans; [by apply goes_on_approvals|exact Hg].
Qed.

Lemma goes_Prepare p value proposal snapshot : goes (Prepare busy p value proposal snapshot) (fun _ => True).
Proof. unfold Prepare. goes_walk. eapply goes_mono; [apply goes_request|done]. Qed.
#[local] Hint Resolve goes_Prepare : goes.

Lemma goes_ask value proposal snapshot : goes (ask_approval busy o value proposal snapshot) (fun _ => True).
Proof. unfold ask_approval. goes_walk. Qed.
#[local] Hint Resolve goes_ask : goes.

(** *** The workflows *)
Abbreviation idle v := (tk_State v <> WaitingApproval).

(** A read leaves the state of the task as it is. *)
Definition same_state (v : Task) {A} (r : (Task * A) * option error) : Prop := tk_State r.1.1 = tk_State v.

Lemma goes_registered r : goes (call_registered o r) (fun _ => True).
Proof. unfold call_registered. goes_walk. eauto with goes. Qed.
#[local] Hint Resolve goes_registered : goes.

Lemma goes_read_step value index r : idle value -> goes (callWorkflowReadStep busy o value index r) (same_state value).
Proof. intros Hv. unfold callWorkflowReadStep, record_read. goes_walk. Qed.

(** After a read, the task is in the state it was in. *)
Lemma goes_then_read {B} value index r (k : (Task * json) * option error -> Action B) (P : B -> Prop) : idle value ->
  (forall v output failed, idle v -> goes (k ((v, output), failed)) P) ->
  goes (bind (callWorkflowReadStep busy o value index r) k) P.
Proof.
  intros Hv Hk. eapply goes_bind; [by apply goes_read_step|]. intros [[v output] failed] Hs. apply Hk.
  unfold same_state in Hs. cbn in Hs. by rewrite Hs.
Qed.

Lemma goes_reads value index reads : idle value -> goes (read_steps busy o value index reads) (fun r => idle r.1.1).
Proof.
  revert value index. induction reads as [|r reads IH]; intros value index Hv; cbn [read_steps]; [by apply goes_ret|].
  apply goes_then_read; [done|]. intros v output failed Hi. destruct failed as [e|]; [by apply goes_ret|].
  eapply goes_bind; [by apply IH|]. intros [[v' outputs] failed] Hi'. by apply goes_ret.
Qed.

Lemma goes_begin value facts criteria : goes (begin_workflow busy value facts criteria) (fun r => idle r.1).
Proof. unfold begin_workflow. goes_walk. Qed.

Lemma goes_recovered value answer summary resources facts : goes (recovered busy value answer summary resources facts) (fun _ => True).
Proof. unfold recovered. goes_walk. Qed.
#[local] Hint Resolve goes_recovered goes_ask : goes.

Lemma goes_port_diagnosed value e : idle value -> goes (port_diagnosed value e) (fun r => idle r.1).
Proof. intros Hv. unfold port_diagnosed. destruct (empty_ _); goes_walk. Qed.

(** A workflow: begin, read, then act on the evidence. *)
Lemma goes_workflow value facts criteria reads (k : Task -> list json -> Action Returned) :
  (forall v outputs, idle v -> goes (k v outputs) (fun _ => True)) ->
  goes (let! (value, failed) := begin_workflow busy value facts criteria in
        match failed with
        | Some e => ret (value, Some e)
        | None =>
          let! ((value, outputs), failed) := read_steps busy o value 0 reads in
          match failed with
          | Some e => ret (value, Some e)
          | None => k value outputs
          end
        end) (fun _ => True).
Proof.
  intros Hk. eapply goes_bind; [apply goes_begin|]. intros [v [e|]] Hv; [by apply goes_ret|].
  eapply goes_bind; [by apply goes_reads|]. intros [[v' outputs] [e|]] Hv'; [by apply goes_ret|]. by apply Hk.
Qed.

Lemma goes_port_located targets value e : idle value -> goes (port_located busy o targets value e) (fun _ => True).
Proof. intros Hv. unfold port_located, request_port_termination. goes_walk; eauto with goes. Qed.

Lemma goes_port value : goes (runPortRecovery busy o value) (fun _ => True).
Proof.
  unfold runPortRecovery. destruct (o_Actions o) as [actions|]; [|by apply goes_ret].
  destruct (o_ActionTargets o) as [targets|]; [|by apply goes_ret]. destruct (_ || _); [by apply goes_ret|]. cbv zeta.
  apply goes_workflow. intros v outputs Hv. eapply goes_attempt; [goes_leaf|done|]. intros e _.
  eapply goes_bind; [by apply goes_port_diagnosed|]. intros [v' [err|]] Hv'; [by apply goes_ret|]. by apply goes_port_located.
Qed.

Lemma goes_cpu value : goes (runCPURecovery busy o value) (fun _ => True).
Proof.
  unfold runCPURecovery. destruct (o_Actions o) as [actions|]; [|by apply goes_ret].
  destruct (o_ActionTargets o) as [targets|]; [|by apply goes_ret]. destruct (_ || _); [by apply goes_ret|]. cbv zeta.
  apply goes_workflow. intros v outputs Hv. eapply goes_attempt; [goes_leaf|done|]. intros e _.
  unfold cpu_located, request_cpu_termination. goes_walk; eauto with goes.
Qed.

Lemma goes_disk value : goes (runDiskRecovery busy o value) (fun _ => True).
Proof.
  unfold runDiskRecovery. cbv zeta. destruct (o_Actions o) as [actions|]; [|by apply goes_ret].
  destruct (o_ActionTargets o) as [targets|]; [|by apply goes_ret]. destruct (_ || _); [by apply goes_ret|].
  apply goes_workflow. intros v outputs Hv. eapply goes_attempt; [goes_leaf|done|]. intros located _.
  unfold disk_located, request_disk_termination. goes_walk; eauto with goes.
Qed.

Lemma goes_port_restart value : goes (preparePortServiceRestart busy o value) (fun _ => True).
Proof. unfold preparePortServiceRestart. goes_walk; eauto with goes. Qed.

Lemma goes_quarantine value : goes (prepareDiskQuarantine busy o value) (fun _ => True).
Proof. unfold prepareDiskQuarantine. goes_walk; eauto with goes. Qed.

(** A verification starts by saving the task as verifying. *)
Lemma goes_verify value (k : Task -> Action Returned) :
  (forall v, idle v -> goes (k v) (fun _ => True)) ->
  goes (value <- Transition Verifying value ;; let* _ := SaveTask_ busy value or value in k value) (fun _ => True).
Proof.
  intros Hk. eapply goes_bind; [apply goes_transition|]. intros v [t ->].
  eapply goes_attempt; [goes_leaf|done|]. intros _ _. by apply Hk.
Qed.

Ltac goes_reads := repeat (apply goes_then_read; [done|]; intros ? ? [?|] ?; [by apply goes_ret|]).

Lemma goes_port_verify value : goes (verifyPortRecovery busy o value) (fun _ => True).
Proof.
  unfold verifyPortRecovery. apply goes_verify. intros v Hv. goes_reads. unfold port_verified. goes_walk; eauto with goes.
Qed.

Lemma goes_cpu_verify value : goes (verifyCPURecovery busy o value) (fun _ => True).
Proof.
  unfold verifyCPURecovery. apply goes_verify. intros v Hv. goes_reads. unfold cpu_verified. goes_walk; eauto with goes.
Qed.

Lemma goes_disk_verify value result : goes (verifyDiskRecovery busy o value result) (fun _ => True).
Proof.
  unfold verifyDiskRecovery. apply goes_verify. intros v Hv. goes_reads. unfold disk_verified. goes_walk; eauto with goes.
Qed.

Lemma goes_handled m : goes m (fun _ => True) -> goes (handled m) (fun _ => True).
Proof. intros Hm. eapply goes_bind; [exact Hm|]. intros r _. by apply goes_ret. Qed.

(** The workflows keep to what the resumption asks of a continuation. *)
Lemma goes_continue value envelope result : goes (ContinueAfterAction busy o value envelope result) (fun _ => True).
Proof.
  unfold ContinueAfterAction, unexpected. cbv zeta.
  destruct (String.eqb (tk_IntentType _) _).
  { destruct (String.eqb (ap_Tool _) _); [apply goes_handled, goes_port_restart|].
    destruct (String.eqb (ap_Tool _) _); [apply goes_handled, goes_port_verify|by apply goes_ret]. }
  destruct (String.eqb (tk_IntentType _) _).
  { destruct (negb _); [by apply goes_ret|apply goes_handled, goes_cpu_verify]. }
  destruct (String.eqb (tk_IntentType _) _); [|by apply goes_ret].
  destruct (String.eqb (ap_Tool _) _); [apply goes_handled, goes_quarantine|].
  destruct (String.eqb (ap_Tool _) _); [apply goes_handled, goes_disk_verify|by apply goes_ret].
Qed.
End Parts.

(** ** What the store's operations do to waiting tasks *)
Record calms (st st' : Store) : Prop := {
  cm_named : (forall id v, has tasks id v st -> tk_ID v = id) -> forall id v, has tasks id v st' -> tk_ID v = id;
  cm_waits : forall id approval, waits st' id approval -> waits st id approval;
  cm_journals : (forall name r, has state name r st -> tk_State (tp_Task r) <> WaitingApproval) ->
    forall name r, has state name r st' -> tk_State (tp_Task r) <> WaitingApproval
}.

#[export] Instance calms_preorder : PreOrder calms.
Proof. split; [by split|]. intros a b c [N1 W1 J1] [N2 W2 J2]. split; [by intros Hn; apply N2, N1|auto|by intros Hj; apply J2, J1]. Qed.

Lemma goes_on_calms {T H X} new (a : AgentState T H X) st' : calms (as_store a) st' ->
  goes_on new a (MkAgentState st' (as_trace a) (as_approvals a) (as_host a) (as_outside a) (as_calls a)).
Proof.
  intros [N W J]. split; cbn [as_store as_approvals]; [|done|intros id ap Hw; left; by apply W].
  intros [Hn Hr Hj]. split; cbn [as_store as_approvals]; [by apply N| |by apply J].
  intros id ap Hw. eapply Hr. by apply W.
Qed.

Lemma calms_task v st : tk_State v <> WaitingApproval -> calms st (put tasks (tk_ID v) v st).
Proof.
  intros Hv. split; [|intros id ap; by apply waits_put|done]. intros Hn id w Hw. unfold has in Hw. cbn in Hw.
  apply lookup_insert_Some in Hw as [[<- [= <-]]|[_ Hw]]; [done|by apply Hn].
Qed.

(** A lease taken or given back. *)
Lemma calms_lease id v lease st : has tasks id v st -> calms st (put tasks id (with_lease v lease) st).
Proof.
  intros Hv. split; [| |done].
  - intros Hn i w Hw. unfold has in Hw. cbn in Hw. apply lookup_insert_Some in Hw as [[<- [= <-]]|[_ Hw]]; [|by apply Hn].
    by apply (Hn id v).
  - intros i ap (w&Hw&Hs&Hp). unfold has in Hw. cbn in Hw. apply lookup_insert_Some in Hw as [[<- [= <-]]|[_ Hw]]; [|by exists w].
    by exists v.
Qed.

Lemma calms_session id v st : calms st (put sessions id v st).
Proof. by split. Qed.

Lemma calms_journal name r st : tk_State (tp_Task r) <> WaitingApproval -> calms st (put state name r st).
Proof.
  intros Hr. split; [done|done|]. intros Hj i w Hw. unfold has in Hw. cbn in Hw.
  apply lookup_insert_Some in Hw as [[_ [= <-]]|[_ Hw]]; [done|by apply (Hj i)].
Qed.

Lemma calms_drop id st : calms st (drop_journal id st).
Proof.
  split; [done|done|]. intros Hj i w Hw. unfold has, drop_journal in Hw. cbn in Hw.
  apply lookup_delete_Some in Hw as [_ Hw]. by apply (Hj i).
Qed.

Lemma wp_read_record {A} E (kind : Kind A) id (Q : result A -> Store -> Prop) s :
  (forall v, has kind id v s -> Q (Ok v) s) -> (forall e, Q (Err e) s) -> wp E (read_file kind id) Q s.
Proof.
  intros H1 H2. unfold read_file. wp_step. wp_step. apply wp_sys.
  - intros no. cbv beta iota. destruct (errors_is _ _); apply wp_throw, H2.
  - destruct (kd_get kind s !! id) as [[v|]|] eqn:Ek; cbn -[errors_is]; [wp_step; by apply H1|wp_step; by apply H2|].
    change (errors_is (ESys ENOENT) ENOENT) with true. by apply wp_throw.
Qed.

(** A write among others. *)
Lemma wp_save_calms {A} E (kind : Kind A) id v s0 s : calms s0 s -> calms s (put kind id v s) ->
  wp E (saveLocked kind id v) (fun _ s' => calms s0 s') s.
Proof. intros H0 H1. apply wp_saveLocked; intros; [by etrans|done]. Qed.

Lemma wp_remove_calms E id s0 s : calms s0 s -> wp E (removePreparationLocked id) (fun _ s' => calms s0 s') s.
Proof. intros H0. apply wp_remove; intros; [etrans; [exact H0|apply calms_drop]|done]. Qed.

(** The journal of a task that does not wait, carried out. *)
Lemma wp_carry_journal {A} E (k : M Store A) v (p : Session) s0 s : tk_State v <> WaitingApproval -> calms s0 s ->
  (forall s', calms s0 s' -> wp E k (fun _ s' => calms s0 s') s') ->
  wp E (saveLocked tasks (tk_ID v) v ;;; saveLocked sessions (sn_ID p) p ;;; removePreparationLocked (tk_ID v) ;;; k)
    (fun _ s' => calms s0 s') s.
Proof.
  intros Hv H0 Hk.
  wp_step. eapply wp_mono; [apply wp_save_calms; [exact H0|by apply calms_task]|]. intros [[]|e] s1 H1; [|done].
  wp_step. eapply wp_mono; [apply wp_save_calms; [exact H1|apply calms_session]|]. intros [[]|e] s2 H2; [|done].
  wp_step. eapply wp_mono; [by apply wp_remove_calms|]. intros [[]|e] s3 H3; [by apply Hk|done].
Qed.

Section Calm.
Context (busy : nat).

Lemma PrepareTask_calms E v f st : tk_State v <> WaitingApproval -> wp E (PrepareTask busy v f) (fun _ st' => calms st st') st.
Proof.
  intros Hv. unfold PrepareTask. apply wp_validate; [reflexivity|intros _]. apply wp_validate; [reflexivity|intros _].
  apply wp_exclusive; [|reflexivity]. wp_step. wp_step. apply wp_read_any. intros r. cbv beta iota. wp_step.
  apply (wp_mono _ _ (fun _ s => s = st)); [destruct r as [w|e]; [by wp_step|destruct (errors_is_sentinel _ _); by wp_step]|].
  intros [[]|e] s ->; [|reflexivity]. wp_step. apply wp_read_any. intros [old|e]; [|reflexivity]. wp_step. wp_step.
  destruct (f old) as [p|e]; [|reflexivity]. apply wp_guard; [reflexivity|intros _]. apply wp_guard; [reflexivity|intros _].
  wp_step. eapply wp_mono; [apply wp_save_calms; [reflexivity|by apply calms_journal]|]. intros [[]|e] s1 H1; [|done].
  apply wp_carry_journal; [done|done|]. intros s2 H2. by wp_step.
Qed.

Lemma ClaimTask_calms E id owner token ttl st : wp E (ClaimTask busy id owner token ttl) (fun _ st' => calms st st') st.
Proof.
  unfold ClaimTask. apply wp_validate; [reflexivity|intros _]. apply wp_guard; [reflexivity|intros _].
  apply wp_guard; [reflexivity|intros _]. apply wp_exclusive; [|reflexivity]. wp_step. apply wp_read_record; [|reflexivity].
  intros v Hv. wp_step. wp_step. apply wp_guard; [reflexivity|intros _]. wp_step.
  eapply wp_mono; [apply wp_save_calms; [reflexivity|by apply calms_lease]|]. intros [[]|e] s1 H1; [by wp_step|done].
Qed.

Lemma ReleaseTask_calms E id token fence st : wp E (ReleaseTask busy id token fence) (fun _ st' => calms st st') st.
Proof.
  unfold ReleaseTask. apply wp_validate; [reflexivity|intros _]. apply wp_exclusive; [|reflexivity].
  wp_step. apply wp_read_record; [|reflexivity]. intros v Hv. apply wp_guard; [reflexivity|intros _]. wp_step.
  eapply wp_mono; [apply wp_save_calms; [reflexivity|by apply calms_lease]|]. intros [[]|e] s1 H1; [by wp_step|done].
Qed.

Lemma recover_entry_calms E name s0 s : (forall name r, has state name r s0 -> tk_State (tp_Task r) <> WaitingApproval) ->
  calms s0 s -> wp E (recover_entry name) (fun _ s' => calms s0 s') s.
Proof.
  intros Hj H0. unfold recover_entry. destruct (negb _); [by wp_step|]. wp_step. apply wp_read_record; [|done].
  intros r Hr. assert (Hv : tk_State (tp_Task r) <> WaitingApproval) by (by eapply (cm_journals _ _ H0 Hj)).
  apply wp_guard; [done|intros _].
  wp_step. eapply wp_mono; [apply wp_save_calms; [exact H0|by apply calms_task]|]. intros [[]|e] s1 H1; [|done].
  wp_step. eapply wp_mono; [apply wp_save_calms; [exact H1|apply calms_session]|]. intros [[]|e] s2 H2; [|done].
  by apply wp_remove_calms.
Qed.

(** A restart carries out the journals; none makes a task wait. *)
Lemma NewFileStore_calms E st : (forall name r, has state name r st -> tk_State (tp_Task r) <> WaitingApproval) ->
  wp E (NewFileStore busy) (fun _ st' => calms st st') st.
Proof.
  intros Hj. unfold NewFileStore. wp_step. wp_step; [|reflexivity]. wp_step. wp_step. apply wp_exclusive; [|reflexivity].
  unfold recoverTaskPreparationsLocked. wp_step. wp_step; [reflexivity|]. wp_step. eapply wp_mono.
  - apply (wp_mapM _ _ _ (fun s' => calms st s') (fun _ => True)); [|reflexivity].
    intros name s1 _ H1. eapply wp_mono; [by apply recover_entry_calms|]. by split.
  - intros [l|e] s2 [H2 _]; [by wp_step|done].
Qed.

Lemma ListTasks_calms E st : wp E ListTasks (fun _ st' => calms st st') st.
Proof.
  unfold ListTasks, list_. wp_step. wp_step. wp_step; [|reflexivity]. wp_step. wp_step; [reflexivity|]. eapply wp_mono.
  - apply (wp_mapM _ _ _ (fun s' => s' = st) (fun _ => True)); [|done].
    intros name s1 _ ->. wp_step. wp_step; [|by split]. wp_step. wp_step; [by split|].
    destruct (kd_get tasks st !! name) as [[v|]|]; cbv beta iota; [by wp_step|by wp_step|by split].
  - intros [l|e] s2 [-> _]; [wp_step|]; reflexivity.
Qed.
End Calm.

(** *** The runs *)
Section Runs.
Context {T H X : Type} `{TraceSink T} `{TraceReader T} `{Outside X} `{HealthVerifier X} `{UnicodeCase} `{TimeText} `{TimeParse}
  `{LocalDate} `{Regexp} `{Sprinter} `{ManagedPatterns} `{PlannerPatterns} (busy : nat) (o : Orchestrator H) (E : Env).

Abbreviation Action A := (M (AgentState T H X) A).
Abbreviation goes m P := (stays E (@goes_on T H X (drawn E)) m P).
Abbreviation idle v := (tk_State v <> WaitingApproval).

#[local] Hint Resolve goes_Prepare goes_ask goes_registered : goes.

Lemma goes_snapshot targets tool target arguments : goes (snapshotManagedActionTarget targets tool target arguments) (fun _ => True).
Proof. unfold snapshotManagedActionTarget. goes_walk; eauto with goes. Qed.
#[local] Hint Resolve goes_snapshot : goes.

Lemma goes_managed actions targets value decision capabilities : idle value ->
  goes (prepareGeneralManagedAction busy actions targets value decision capabilities) (fun _ => True).
Proof. intros Hv. unfold prepareGeneralManagedAction, plan_managed_action. goes_walk. Qed.

Lemma goes_completed value answer : goes (completeGeneral busy value answer) (fun _ => True).
Proof. unfold completeGeneral. goes_walk. Qed.

Lemma goes_failure value decision arguments stepID message : idle value ->
  goes (tool_failed busy value decision arguments stepID message) (fun _ => True).
Proof.
  intros Hv. unfold tool_failed, recordGeneralToolFailure.
  eapply (goes_bind _ _ (fun _ => True)); [goes_walk|intros [v [e|]] _; by apply goes_ret].
Qed.

Lemma goes_success value decision arguments stepID structured : idle value ->
  goes (tool_succeeded busy value decision arguments stepID structured) (fun _ => True).
Proof.
  intros Hv. unfold tool_succeeded. cbv zeta.
  assert (Hs : idle (captureSelectedResources value (de_Tool decision) structured)).
  { unfold captureSelectedResources. repeat case_match; done. }
  revert Hs. generalize (captureSelectedResources value (de_Tool decision) structured). intros v Hs. goes_walk.
Qed.

Lemma goes_run value decision stepID : idle value -> goes (run_tool busy value decision stepID) (fun _ => True).
Proof.
  intros Hv. unfold run_tool. cbv zeta. eapply goes_turn; [goes_leaf|done|]. intros _ _.
  eapply (goes_bind _ _ (fun _ => True)); [eapply goes_mono; [eapply (goes_try _ (fun _ => True))|done]|intros called _].
  { unfold call_tool. goes_walk; eauto with goes. }
  repeat case_match; first [by apply goes_failure|by apply goes_success].
Qed.
#[local] Hint Resolve goes_run : goes.

Lemma goes_guarded value decision stepID : idle value -> goes (guarded_call busy o value decision stepID) (fun _ => True).
Proof. intros Hv. unfold guarded_call. goes_walk; by apply goes_run. Qed.

Lemma goes_refuse value scope violation : goes (refuse_out_of_scope busy value scope violation) (fun _ => True).
Proof. unfold refuse_out_of_scope. goes_walk. Qed.

Lemma goes_use iv value decision : idle value -> goes (use_tool busy o iv value decision) (fun _ => True).
Proof.
  intros Hv. unfold use_tool. goes_walk; first [apply goes_refuse|by apply goes_guarded].
Qed.

Lemma goes_replan value decision : goes (replan busy value decision) (fun _ => True).
Proof. unfold replan. goes_walk. Qed.

Lemma goes_carry_out iv value decision : idle value -> goes (carry_out busy o iv value decision) (fun _ => True).
Proof.
  intros Hv. unfold carry_out, finish. destruct (String.eqb _ _); [apply goes_replan|].
  destruct (String.eqb _ _).
  { destruct (negb _); [by apply goes_ret|]. eapply goes_bind; [apply goes_completed|]. intros r _. by apply goes_ret. }
  destruct (String.eqb _ _); [eapply goes_bind; [by apply goes_managed|]; intros r _; by apply goes_ret|].
  destruct (String.eqb _ _); [by apply goes_use|by apply goes_ret].
Qed.

Lemma goes_ask_planner iv value finalOnly : goes (General.ask iv value finalOnly) (fun _ => True).
Proof. unfold General.ask, General.decide. goes_walk. Qed.
#[local] Hint Resolve goes_ask_planner : goes.

Lemma goes_iteration iv value : goes (iteration busy o iv value) (fun _ => True).
Proof. unfold iteration. goes_walk; by apply goes_carry_out. Qed.

Lemma goes_investigate fuel iv value : goes (investigate busy o fuel iv value) (fun _ => True).
Proof.
  revert value. induction fuel as [|fuel IH]; intros value; [by apply goes_ret|]. cbn [investigate].
  eapply goes_bind; [apply goes_iteration|]. intros [v|r] _; [apply IH|by apply goes_ret].
Qed.

Lemma goes_begin_general iv value : goes (begin_general busy iv value) (fun _ => True).
Proof. unfold begin_general. goes_walk. Qed.
#[local] Hint Resolve goes_begin_general goes_investigate : goes.

Lemma goes_general value : goes (run_general busy o value) (fun _ => True).
Proof.
  unfold run_general. eapply (goes_bind _ _ (fun _ => True)); [|intros [r|] _; [by apply goes_ret|apply goes_throw]].
  unfold runGeneral. goes_walk; eauto with goes.
Qed.

(** *** Files and metrics *)
Lemma goes_lift_any {A} (r : result A) : goes (lift r) (fun _ => True).
Proof. by apply goes_lift. Qed.
#[local] Hint Resolve goes_lift_any : goes.

Lemma goes_create_action request : goes (create_action (T := T) (H := H) (X := X) request) (fun _ => True).
Proof. unfold create_action. goes_walk. Qed.
#[local] Hint Resolve goes_create_action : goes.

Lemma goes_resolve_action order targets kind request s :
  goes (resolve_action (T := T) (X := X) order targets kind request s) (fun _ => True).
Proof.
  unfold resolve_action. eapply (goes_bind _ _ (fun _ => True)); [|intros action _; goes_walk; eauto with goes].
  repeat case_match; eauto with goes.
Qed.
#[local] Hint Resolve goes_resolve_action : goes.

Lemma goes_file order value kind request : goes (runFileAction busy o order value kind request) (fun _ => True).
Proof. unfold runFileAction, request_file_action. goes_walk; eauto with goes. Qed.

Lemma goes_record_metric value index structured : goes (record_metric busy value index structured) (fun _ => True).
Proof. unfold record_metric. goes_walk. Qed.
#[local] Hint Resolve goes_record_metric : goes.

Lemma goes_call_metric value tool : goes (call_metric o value tool) (fun _ => True).
Proof. unfold call_metric. goes_walk; eauto with goes. Qed.
#[local] Hint Resolve goes_call_metric : goes.

Lemma goes_metric_step value index : goes (metric_step busy o value index) (fun _ => True).
Proof. unfold metric_step. goes_walk. Qed.

Lemma goes_metric_loop n index value outputs : goes (metric_loop busy o n index value outputs) (fun _ => True).
Proof.
  revert index value outputs. induction n as [|n IH]; intros index value outputs; cbn [metric_loop]; [by apply goes_ret|].
  destruct (_ || _); [by apply goes_ret|]. eapply goes_bind; [apply goes_metric_step|].
  intros [[v structured] [e|]] _; [by apply goes_ret|apply IH].
Qed.

Lemma goes_complete_metrics value outputs : goes (complete_metrics busy value outputs) (fun _ => True).
Proof. unfold complete_metrics. goes_walk. Qed.
#[local] Hint Resolve goes_metric_loop goes_complete_metrics : goes.

Lemma goes_metrics value intent : goes (run_metrics busy o value intent) (fun _ => True).
Proof. unfold run_metrics. goes_walk; eauto with goes. Qed.

Lemma goes_choose order value request : goes (choose_workflow busy o order value request) (fun _ => True).
Proof.
  unfold choose_workflow. destruct (in_flight _); [by apply goes_ret|].
  destruct (_ && _); [apply goes_port|]. destruct (_ && _); [apply goes_cpu|]. destruct (_ && _); [apply goes_disk|].
  destruct (negb _); [apply goes_file|]. destruct (parseMetricIntent _); [apply goes_metrics|].
  destruct (negb _); [by apply goes_ret|apply goes_general].
Qed.

(** *** The store of a run *)
Lemma goes_calm {A} (m : M Store A) : (forall st, wp E m (fun _ st' => calms st st') st) -> goes (on_store m) (fun _ => True).
Proof.
  intros Hm a. apply wp_zoom. eapply wp_mono; [apply Hm|]. intros r st' Hst. split; [by apply goes_on_calms|done].
Qed.

Lemma goes_claim taskID owner token ttl : goes (on_store (ClaimTask busy taskID owner token ttl)) (fun _ => True).
Proof. apply goes_calm, ClaimTask_calms. Qed.
Lemma goes_release taskID token fence : goes (on_store (ReleaseTask busy taskID token fence)) (fun _ => True).
Proof. apply goes_calm, ReleaseTask_calms. Qed.
Lemma goes_prepare v f : idle v -> goes (on_store (PrepareTask busy v f)) (fun _ => True).
Proof. intros Hv. apply goes_calm. intros st. by apply PrepareTask_calms. Qed.
#[local] Hint Resolve goes_claim goes_release goes_choose : goes.

Lemma goes_initial_trace value : goes (ensureInitialTrace (X := X) o value) (fun _ => True).
Proof.
  unfold ensureInitialTrace. destruct (negb _); [by apply goes_throw|].
  eapply goes_bind; [goes_leaf|intros read _]. eapply (goes_bind _ _ (fun _ => True)).
  { destruct read as [events|e]; [by apply goes_ret|]. destruct (errors_is _ _); [by apply goes_ret|by apply goes_throw]. }
  intros events _. eapply (goes_bind _ _ (fun _ => True)); [destruct events; goes_walk|]. intros heads _. goes_walk; eauto with goes.
Qed.
#[local] Hint Resolve goes_initial_trace : goes.

Lemma goes_make_durable taskID sessionID request : goes (Prepare_ busy o taskID sessionID request) (fun _ => True).
Proof.
  unfold Prepare_. eapply goes_bind; [goes_leaf|intros t _]. cbv zeta. eapply goes_bind; [goes_leaf|intros i _].
  eapply goes_attempt; [by apply goes_prepare|done|intros _ _]. goes_walk.
Qed.
#[local] Hint Resolve goes_make_durable : goes.

Lemma goes_run_release taskID token fence r : goes (Orchestrate.release (T := T) (H := H) (X := X) busy taskID token fence r) (fun _ => True).
Proof. unfold Orchestrate.release. goes_walk. Qed.
#[local] Hint Resolve goes_run_release : goes.

Lemma goes_record_failure value e : goes (record_failure busy value e) (fun _ => True).
Proof. unfold record_failure. goes_walk. Qed.
#[local] Hint Resolve goes_record_failure : goes.

Lemma goes_claimed order taskID value request token : goes (claimed_run busy o order taskID value request token) (fun _ => True).
Proof.
  unfold claimed_run. eapply (goes_bind _ _ (fun _ => True)).
  { eapply goes_mono; [apply goes_try, goes_choose|done]. }
  intros [[v failed]|e] _; [|eapply goes_bind; [apply goes_run_release|intros _ _; by apply goes_throw]].
  eapply (goes_bind _ _ (fun _ => True)); [destruct failed; [apply goes_record_failure|by apply goes_ret]|].
  intros r _. apply goes_run_release.
Qed.
#[local] Hint Resolve goes_claimed : goes.

Lemma goes_Run order taskID sessionID request : goes (Run busy o order taskID sessionID request) (fun _ => True).
Proof.
  unfold Run. eapply (goes_bind _ _ (fun _ => True)); [unfold find_or_prepare; goes_walk; eauto with goes|].
  intros [v [e|]] _; [by apply goes_ret|]. goes_walk; eauto with goes.
Qed.

Lemma goes_recover order values failures : goes (recover_tasks busy o order values failures) (fun _ => True).
Proof.
  revert failures. induction values as [|v values IH]; intros failures; cbn [recover_tasks]; [by apply goes_ret|].
  destruct (_ || _); [apply IH|]. eapply (goes_bind _ _ (fun _ => True)).
  { eapply goes_mono; [apply (goes_try _ (fun _ => True)); unfold await_lease; goes_walk; apply goes_ctx_check|done]. }
  intros [[]|e] _; [|by apply goes_ret]. eapply goes_bind; [apply goes_Run|]. intros [v' failed] _. apply IH.
Qed.

Lemma goes_RecoverIncomplete order : goes (RecoverIncomplete busy o order) (fun _ => True).
Proof.
  unfold RecoverIncomplete. eapply (goes_bind _ _ (fun _ => True)).
  { eapply goes_mono; [apply (goes_try _ (fun _ => True)), goes_calm; intros st; apply ListTasks_calms|done]. }
  intros [values|e] _; [apply goes_recover|by apply goes_ret].
Qed.
End Runs.
