(* ===== verification/Recovery.v ===== *)
(** * Tasks that a run takes up again

    [Run] and [RecoverIncomplete] of [internal/agent/orchestrator.go] meet
    tasks that an earlier run left behind.  A task whose privileged action was
    on its way is never run again ([in_flight_never_repeated]); a task of the
    metrics workflow that stopped after a reading can only fail
    ([metrics_complete_from_scratch]). *)

From S2P Require Import Prelude GoStrings GoText Json Hash Contracts Guard Approval Platform Targets Executor Trace Store Planner Scope Agent Decode Prepare Managed General Workflows Evidence FileAction Orchestrate Resume Going.
Open Scope Z_scope.

Lemma wp_get_has {A} E (kind : Kind A) id v (Q : result A -> Store -> Prop) s : honest E -> has kind id v s ->
  Q (Ok v) s -> (forall e, errors_is_sentinel e "not found" = false -> Q (Err e) s) -> wp E (get kind id) Q s.
Proof.
  intros Hh Hv H1 H2. unfold get. wp_step. apply wp_ctx_check; [|intros no; by apply H2]. wp_step. apply wp_lift.
  destruct (validateID id) as [[]|e] eqn:He; [|apply H2].
  - apply wp_read_file; [done| | |].
    + intros w Hw. unfold has in *. by replace w with v by congruence.
    + intros e _ Hn. unfold has in Hv. congruence.
    + intros e. apply H2.
  - unfold validateID in He. destruct (_ || _); [by injection He as <-|done].
Qed.

Section Recovery.
Context {T H X : Type} `{TraceSink T} `{TraceReader T} `{Outside X} `{HealthVerifier X} `{UnicodeCase} `{TimeText} `{TimeParse}
  `{LocalDate} `{Regexp} `{Sprinter} `{ManagedPatterns} `{PlannerPatterns} (busy : nat) (o : Orchestrator H)
  (order : list (string * Z)) (E : Env).

Abbreviation Action A := (M (AgentState T H X) A).
Abbreviation State := (AgentState T H X).

(** ** An action on its way *)

Definition waits_in_flight (pending : option json) (v : Task) : Prop := in_flight v = true /\ tk_PendingAction v = pending.

(** The task is in flight with its action, or has failed with it. *)
Definition stalled (pending : option json) (v : Task) : Prop :=
  (in_flight v = true \/ tk_State v = Failed) /\ tk_PendingAction v = pending.

(** Nothing has left the agent, and the stored task is as [K] says. *)
Definition put_aside (id : string) (K : Task -> Prop) (a a' : State) : Prop :=
  as_calls a' = as_calls a /\ as_approvals a' = as_approvals a /\ as_host a' = as_host a /\ as_outside a' = as_outside a /\
  exists v, has tasks id v (as_store a') /\ tk_ID v = id /\ K v.

Lemma put_aside_put id K (a a' : State) v : put_aside id K a a' -> tk_ID v = id -> K v ->
  put_aside id K a (MkAgentState (put tasks id v (as_store a')) (as_trace a') (as_approvals a') (as_host a') (as_outside a') (as_calls a')).
Proof.
  intros (H1'&H2'&H3'&H4'&_) Hi Hs. split_and!; try done. exists v. split; [|done]. unfold has. cbn. apply lookup_insert_eq.
Qed.

Lemma put_aside_mono id (K K' : Task -> Prop) (a a' : State) : (forall v, K v -> K' v) -> put_aside id K a a' -> put_aside id K' a a'.
Proof. intros HK (H1'&H2'&H3'&H4'&v&Hv&Hi&Hk). split_and!; try done. exists v. auto. Qed.

(** The log is all that changes. *)
Definition only_trace (a a' : State) : Prop :=
  exists tr, a' = MkAgentState (as_store a) tr (as_approvals a) (as_host a) (as_outside a) (as_calls a).

#[local] Instance only_trace_preorder : PreOrder only_trace.
Proof. split; [intros a; exists (as_trace a); by destruct a|]. intros a b c [tr ->] [tr' ->]. by exists tr'. Qed.

Lemma stays_on_trace {A} (m : M T A) : stays E only_trace (on_trace m) (fun _ => True).
Proof. intros a. apply wp_zoom, wp_any. intros r tr. split; [by exists tr|done]. Qed.

Lemma stays_event v typ data : stays E only_trace (appendTrace v typ data) (fun _ => True).
Proof. eapply (stays_bind E only_trace); [apply stays_on_trace|]. intros _ _. by apply (stays_ret E only_trace). Qed.

Lemma stays_initial v : stays E only_trace (ensureInitialTrace o v) (fun _ => True).
Proof.
  unfold ensureInitialTrace. destruct (negb _); [by apply (stays_throw E only_trace)|].
  eapply (stays_bind E only_trace); [apply (stays_try E only_trace), stays_on_trace|]. intros read _.
  eapply (stays_bind E only_trace _ _ (fun _ => True)).
  { destruct read; [by apply (stays_ret E only_trace)|]. destruct (errors_is _ _); [by apply (stays_ret E only_trace)|by apply (stays_throw E only_trace)]. }
  intros events _. eapply (stays_bind E only_trace _ _ (fun _ => True)).
  { destruct events; [|by apply (stays_ret E only_trace)].
    eapply (stays_bind E only_trace); [apply stays_event|]. intros _ _. by apply (stays_ret E only_trace). }
  intros heads _. repeat case_match; first [by apply (stays_ret E only_trace)|by apply (stays_throw E only_trace)|apply stays_event].
Qed.

(** *** Its steps *)
Section Steps.
Context (id : string) (K : Task -> Prop) (a0 : State) (Hlease : forall v l, K v -> K (with_lease v l)).
Abbreviation aside := (put_aside id K a0).

Lemma wp_aside_save b v (Q : result unit -> State -> Prop) a E' : tk_ID v = id -> K v -> aside a ->
  (forall r a', aside a' -> Q r a') -> wp E' (SaveTask_ b v) Q a.
Proof.
  intros Hi Hv Ha HQ. unfold SaveTask_. apply wp_zoom. eapply wp_mono; [apply SaveTask_changes|]. intros r st' [_ Hst]. apply HQ.
  rewrite Hi in Hst. destruct Hst as [-> | ->]; [by destruct a|by apply put_aside_put].
Qed.

Lemma wp_aside_event v typ data (Q : result unit -> State -> Prop) a E' : aside a ->
  (forall r a', aside a' -> Q r a') -> wp E' (appendTrace v typ data) Q a.
Proof. intros Ha HQ. apply wp_appendTrace. intros r tr. by apply HQ. Qed.

(** A lease is taken and given back: the task is the stored one, but for its
    lease. *)
Lemma wp_aside_claim owner token ttl (Q : result Task -> State -> Prop) a : aside a ->
  (forall v a', aside a' -> tk_ID v = id -> K v -> Q (Ok v) a') ->
  (forall e a', aside a' -> Q (Err e) a') -> wp E (on_store (ClaimTask busy id owner token ttl)) Q a.
Proof.
  intros Ha H1' H2'. apply wp_zoom. unfold ClaimTask. pose proof Ha as (_&_&_&_&v&Hv&Hi&Hs).
  assert (Hno : forall e, Q (Err e) (MkAgentState (as_store a) (as_trace a) (as_approvals a) (as_host a) (as_outside a) (as_calls a)))
    by (intros e; apply H2'; by destruct a).
  apply wp_validate; [exact Hno|intros _]. apply wp_guard; [intros _; apply Hno|intros _]. apply wp_guard; [intros _; apply Hno|intros _].
  apply wp_exclusive; [|exact Hno]. wp_step. apply wp_read_record; [|exact Hno]. intros w Hw.
  assert (w = v) as -> by (unfold has in *; congruence). wp_step. wp_step. apply wp_guard; [intros _; apply Hno|intros _].
  wp_step. apply wp_saveLocked; [|exact Hno]. intros [[]|e]; [wp_step; apply H1'|apply H2']; auto; apply put_aside_put; auto.
Qed.

Lemma wp_aside_release token fence (Q : result Task -> State -> Prop) a : aside a ->
  (forall r a', aside a' -> Q r a') -> wp E (on_store (ReleaseTask busy id token fence)) Q a.
Proof.
  intros Ha HQ. apply wp_zoom. unfold ReleaseTask. pose proof Ha as (_&_&_&_&v&Hv&Hi&Hs).
  assert (Hno : forall e, Q (Err e) (MkAgentState (as_store a) (as_trace a) (as_approvals a) (as_host a) (as_outside a) (as_calls a)))
    by (intros e; apply HQ; by destruct a).
  apply wp_validate; [exact Hno|intros _]. apply wp_exclusive; [|exact Hno]. wp_step. apply wp_read_record; [|exact Hno]. intros w Hw.
  assert (w = v) as -> by (unfold has in *; congruence). apply wp_guard; [intros _; apply Hno|intros _].
  wp_step. apply wp_saveLocked; [|exact Hno]. intros [[]|e]; [wp_step|]; apply HQ; apply put_aside_put; auto.
Qed.

End Steps.

Lemma stalled_lease pending v l : stalled pending v -> stalled pending (with_lease v l).
Proof. done. Qed.

(** A run that has failed records the failure and gives the lease back. *)
Lemma wp_aside_failed id pending a0 v e token fence a : tk_ID v = id -> tk_PendingAction v = pending ->
  put_aside id (stalled pending) a0 a ->
  wp E (r <- record_failure busy v e ;; Orchestrate.release busy id token fence r)
    (fun r a' => put_aside id (stalled pending) a0 a' /\ forall v', r <> Ok (v', None)) a.
Proof.
  intros Hi Hp Ha. unfold record_failure, Transition. do 3 wp_step.
  assert (Hf : forall t, stalled pending (task_with (with_failure v (error_text e)) Failed (tk_WorkerLease v) (tk_Checkpoint v + 1) t))
    by (intros t; split; [by right|exact Hp]).
  repeat wp_step. apply (wp_aside_save id (stalled pending) a0); [exact Hi|apply Hf|exact Ha|]. intros saved a1 H1'.
  repeat wp_step. apply (wp_aside_event id (stalled pending) a0); [exact H1'|]. intros logged a2 H2'.
  repeat wp_step. unfold Orchestrate.release. wp_step. wp_step.
  apply (wp_aside_release id (stalled pending) a0); [apply stalled_lease|exact H2'|].
  intros [released|e'] a3 H3'; repeat wp_step; by split.
Qed.

(** C7: a privileged action that was on its way is never repeated.  When a run
    takes up a task that is [EXECUTING] or [VERIFYING] with its action - the
    worker was lost - then, whatever fails, the run calls no tool, touches no
    approval, neither the machine nor the outside, and does not succeed; and
    the stored task still holds its action, in flight or failed. *)
Theorem in_flight_never_repeated taskID sessionID request v a : honest E ->
  has tasks taskID v (as_store a) -> tk_ID v = taskID -> in_flight v = true ->
  wp E (Run busy o order taskID sessionID request) (fun r a' =>
    put_aside taskID (stalled (tk_PendingAction v)) a a' /\ forall v', r <> Ok (v', None)) a.
Proof.
  intros Hh Hv Hi Hf. set (pending := tk_PendingAction v).
  assert (Ha : put_aside taskID (waits_in_flight pending) a a) by (split_and!; try done; by exists v).
  assert (Hm : forall a', put_aside taskID (waits_in_flight pending) a a' -> put_aside taskID (stalled pending) a a').
  { intros a'. apply put_aside_mono. intros w [Hw Hwp]. split; [by left|done]. }
  unfold Run, find_or_prepare. do 3 wp_step. apply wp_zoom. apply wp_get_has with (v := v); [done|done| |].
  2: { intros e He. cbn beta iota. rewrite He. wp_go. split; [apply Hm; by destruct a|done]. }
  wp_step. cbn beta iota. destruct (_ || _); [apply wp_ret; split; [apply Hm; by destruct a|done]|].
  apply wp_attempt. eapply wp_mono; [apply stays_initial|]. intros [[]|e] a1 [[tr ->] _]; [|split; [by apply Hm|done]].
  destruct (terminalTask _ || _) eqn:Ht.
  { exfalso. unfold in_flight, terminalTask in *. apply andb_true_iff in Hf as [[Hs%String.eqb_eq|Hs%String.eqb_eq]%orb_true_iff _]; by rewrite Hs in Ht. }
  do 2 wp_step. cbv zeta. apply wp_attempt.
  apply (wp_aside_claim taskID (waits_in_flight pending) a); [done|done| |].
  2: { intros e a2 H2'. split; [by apply Hm|done]. }
  intros w a2 H2' Hwi [Hw Hwp]. unfold claimed_run, choose_workflow. rewrite Hw. repeat wp_step.
  apply wp_ret. cbn beta iota. apply wp_aside_failed; [exact Hwi|exact Hwp|by apply Hm].
Qed.

(** ** The metrics workflow *)
Abbreviation spec := (@General.spec T H X E _).
Abbreviation Calls := (list ToolCall_).

#[local] Hint Resolve keeps_save keeps_append keeps_lift keeps_on_trace keeps_on_store keeps_on_outside : keeps.

(** What a plan is for, whatever the states of its steps. *)
Definition outline (plan : list Step) : list (string * string) := map (fun s => (sp_ID s, sp_Tool s)) plan.
Definition reading (step : string * string) : ToolCall_ := MkToolCall "system" (snd step) ∅.

Lemma outline_state plan i state : outline (step_state plan i state) = outline plan.
Proof.
  unfold outline, step_state. revert i. induction plan as [|s plan IH]; intros [|i]; [done..|].
  change (alter ?f (S i) (s :: plan)) with (s :: alter f i plan). cbn. by rewrite IH.
Qed.

Lemma outline_at v i : (sp_ID (step_at v i), sp_Tool (step_at v i)) = default ("", "") (outline (tk_Plan v) !! i).
Proof. unfold step_at, outline. rewrite list_lookup_fmap. by destruct (tk_Plan v !! i). Qed.

(** One reading: at most its call; with its result, the call and the step is
    done. *)
Definition read_once (v : Task) (index : nat) (r : (Task * Object) * option error) (new : Calls) : Prop :=
  (new = [] \/ new = [reading (default ("", "") (outline (tk_Plan v) !! index))]) /\
  (r.2 = None -> new = [reading (default ("", "") (outline (tk_Plan v) !! index))] /\
     outline (tk_Plan r.1.1) = outline (tk_Plan v) /\
     tk_CompletedSteps r.1.1 = tk_CompletedSteps v ++ [fst (default ("", "") (outline (tk_Plan v) !! index))]).

Lemma spec_call_metric v tool : o_Registry o = true ->
  spec (try_ (call_metric o v tool)) (fun r new => (new = [] \/ new = [MkToolCall "system" tool ∅]) /\ (is_ok r = true -> new = [MkToolCall "system" tool ∅])).
Proof.
  intros Hr s. apply wp_try. unfold call_metric. apply wp_bind. apply wp_appendTrace. intros [[]|e] tr.
  - unfold call_registered. rewrite Hr. apply wp_bind, wp_modify. eapply wp_of_obeys; [apply keeps_on_outside|].
    intros r s' E1. exists r, [MkToolCall "system" tool ∅]. rewrite E1. split_and!; [done|done|by right|done].
  - exists (Err e), []. rewrite app_nil_r. split_and!; [done|done|by left|done].
Qed.

Lemma spec_record_metric v index structured :
  spec (record_metric busy v index structured) (fun r new => new = [] /\ (r.2 = None ->
    outline (tk_Plan r.1) = outline (tk_Plan v) /\
    tk_CompletedSteps r.1 = tk_CompletedSteps v ++ [fst (default ("", "") (outline (tk_Plan v) !! index))])).
Proof.
  unfold record_metric. cbv zeta. spec_walk. split; [done|]. intros _. cbn. rewrite outline_state. split; [done|].
  by rewrite <- outline_at.
Qed.

Lemma spec_metric_step v index : o_Registry o = true -> spec (metric_step busy o v index) (read_once v index).
Proof.
  intros Hr. unfold metric_step.
  assert (Herr : forall (v' : Task) s e, read_once v index ((v', s), Some e) []) by (intros; split; [by left|done]).
  eapply spec_transition. intros t. set (v1 := task_with _ _ _ _ _). cbv zeta.
  assert (Hp : outline (tk_Plan v1) = outline (tk_Plan v)) by apply outline_state.
  assert (Hc : tk_CompletedSteps v1 = tk_CompletedSteps v) by done.
  generalize dependent v1. intros v1 Hp Hc.
  assert (Hcall : reading (default ("", "") (outline (tk_Plan v) !! index)) = MkToolCall "system" (sp_Tool (step_at v1 index)) ∅)
    by (unfold reading; by rewrite <- Hp, <- outline_at).
  repeat (spec_step; try apply Herr).
  unfold attempt. eapply spec_bind; [by apply spec_call_metric|]. rewrite <- Hcall. intros [result|e] new [Hn Ho].
  2: { apply spec_ret. rewrite app_nil_r. by split. }
  specialize (Ho eq_refl). subst new.
  assert (Hlate : forall r : (Task * Object) * option error, r.2 <> None ->
    read_once v index r ([reading (default ("", "") (outline (tk_Plan v) !! index))] ++ [])) by (intros r Hf; split; [by right|done]).
  destruct (ct_IsError result); [by apply spec_ret, Hlate|]. destruct (ct_StructuredContent result) as [[]|]; try (by apply spec_ret, Hlate).
  eapply spec_bind; [apply spec_record_metric|]. intros [v2 failed] new [-> Hrec]. apply spec_ret. destruct failed as [e|]; [by apply Hlate|].
  destruct (Hrec eq_refl) as [Hp2 Hc2]. cbn in Hp2, Hc2. split; [by right|]. intros _. cbn [fst snd]. by rewrite Hp2, Hc2, Hp, Hc.
Qed.

(** The steps from [index] on, in their order; all of them, if it succeeds. *)
Definition read_through (v : Task) (index : nat) (r : (Task * gmap string Object) * option error) (new : Calls) : Prop :=
  new `prefix_of` map reading (drop index (outline (tk_Plan v))) /\
  (r.2 = None -> new = map reading (drop index (outline (tk_Plan v))) /\
     outline (tk_Plan r.1.1) = outline (tk_Plan v) /\
     tk_CompletedSteps r.1.1 = tk_CompletedSteps v ++ map fst (drop index (outline (tk_Plan v)))).

Lemma spec_metric_loop n index v outputs : o_Registry o = true -> (index + n)%nat = length (tk_Plan v) ->
  spec (metric_loop busy o n index v outputs) (read_through v index).
Proof.
  intros Hr. revert index v outputs. induction n as [|n IH]; intros index v outputs Hn; cbn [metric_loop].
  { apply spec_ret. assert (Hd : drop index (outline (tk_Plan v)) = []) by (apply drop_ge; unfold outline; rewrite length_map; lia).
    unfold read_through. rewrite Hd. cbn. by rewrite app_nil_r. }
  destruct (_ || _); [apply spec_ret; split; [apply prefix_nil|done]|].
  destruct (lookup_lt_is_Some_2 (outline (tk_Plan v)) index) as [x Hx]; [unfold outline; rewrite length_map; lia|].
  eapply spec_bind; [by apply spec_metric_step|]. intros [[v1 structured] failed] new [Hone Hall]. rewrite Hx in Hone, Hall. cbn [default] in Hone, Hall.
  unfold read_through. rewrite (drop_S _ _ _ Hx). cbn [map].
  destruct failed as [e|].
  { apply spec_ret. rewrite app_nil_r. split; [|done]. destruct Hone as [-> | ->]; [apply prefix_nil|apply prefix_cons, prefix_nil]. }
  destruct (Hall eq_refl) as (->&Hp&Hc). cbn in Hp, Hc.
  eapply spec_mono; [apply IH; unfold outline in Hp; apply (f_equal length) in Hp; rewrite !length_map in Hp; lia|].
  intros r new [Hpre Hok]. rewrite Hp in Hpre, Hok. split; [by apply prefix_cons|]. intros Hf. destruct (Hok Hf) as (->&Hp'&Hc').
  split_and!; [done|done|]. by rewrite Hc', Hc, <- app_assoc.
Qed.

Lemma spec_complete_metrics v outputs :
  spec (complete_metrics busy v outputs) (fun r new => new = [] /\
    (r.2 = None -> length (tk_CompletedSteps v) = length (tk_Plan v) /\ tk_State r.1 = Completed /\ tk_CompletedSteps r.1 = tk_CompletedSteps v)).
Proof. unfold complete_metrics. destruct (Nat.eqb_spec (length (tk_CompletedSteps v)) (length (tk_Plan v))) as [He|]; cbn [negb]; spec_walk. Qed.

(** Each step of the plan is read at most once, in their order; a success
    comes with all of them, and with none done before. *)
Definition metrics_outcome (value : Task) (intent : metricIntent) (r : Returned) (new : Calls) : Prop :=
  let steps := outline (tk_Plan value ++ metric_steps intent) in
  new `prefix_of` map reading steps /\
  (r.2 = None -> tk_CompletedSteps value = [] /\ new = map reading steps /\
     tk_State r.1 = Completed /\ tk_CompletedSteps r.1 = map fst steps).

(** C17: the metrics of the host are read once per step of the plan, in its
    order, and never more than that; a run of this workflow ends with a
    result, and succeeds only when every step was read.  It also succeeds only
    if the task had no completed step when the run began: a run that takes up
    a task after a reading was saved reads everything again and then fails,
    since the readings of both runs are counted against one plan. *)
Theorem metrics_complete_from_scratch value intent : o_Registry o = true ->
  spec (run_metrics busy o value intent) (metrics_outcome value intent).
Proof.
  intros Hr. unfold run_metrics. cbv zeta.
  assert (Herr : forall (v : Task) (e : error), metrics_outcome value intent (v, Some e) []) by (intros v e; split; [apply prefix_nil|done]).
  do 4 (spec_step; try apply Herr). set (v := task_with _ _ _ _ _).
  assert (Hp : tk_Plan v = tk_Plan value ++ metric_steps intent) by done.
  assert (Hc : tk_CompletedSteps v = tk_CompletedSteps value) by done.
  generalize dependent v. intros v Hp Hc. spec_step; [apply Herr|].
  eapply spec_bind; [apply spec_metric_loop; [done|by rewrite Hp]|]. intros [[v1 outputs] failed] new [Hpre Hall].
  rewrite Hp in Hpre, Hall. rewrite drop_0 in Hpre, Hall.
  destruct failed as [e|]; [apply spec_ret; rewrite app_nil_r; by split|]. destruct (Hall eq_refl) as (->&Hp1&Hc1). cbn in Hp1, Hc1.
  eapply spec_mono; [apply spec_complete_metrics|]. intros r ? [-> Hdone]. rewrite app_nil_r. split; [done|]. intros Hf.
  destruct (Hdone Hf) as (Hl&Hs&Hc2).
  assert (Hnone : tk_CompletedSteps value = []).
  { apply length_zero_iff_nil. apply (f_equal length) in Hp1. unfold outline in Hp1. rewrite Hc1, Hc, !length_app, length_map in Hl.
    rewrite !length_map in Hp1. unfold outline in Hl. rewrite length_map in Hl. lia. }
  split_and!; [done|done|done|]. by rewrite Hc2, Hc1, Hc, Hnone.
Qed.
End Recovery.

(** ** Evaluated *)
Module Lab.
Import Evidence.Lab.
#[local] Existing Instances counting_sink lab_case plain_time lab_parse no_regexp no_sprint no_managed mask_patterns.
#[local] Instance counting_reader : TraceReader nat := fun _ => ret [].
#[local] Instance lab_date : LocalDate := fun _ => "2026-01-01".

Definition usage (tool : string) : json := JObj [("usage_percent", JNum "12.5")].
#[local] Instance metric_outside : Outside nat := canned_outside usage.
#[local] Instance no_health : HealthVerifier nat := canned_health.

Definition host_orchestrator : Orchestrator nat :=
  MkOrchestrator true true false None None None
    (Some (MkCatalog 1 "sha256:host" (list_to_map (map reading [cpu_tool; memory_tool])))) true "" 0.

(** A worker was lost while an action of its task was on its way. *)
Definition in_flight_task : Task :=
  task_with (with_pending lab_task (Some JNull) "approval_1") Executing (MkWorkerLease "" "" 0 zero_time) 1 0.

Definition lost : AgentState nat nat nat :=
  MkAgentState (MkStore (st_sessions lab_store) {[ "task_1" := Some in_flight_task ]} ∅) 0%nat ∅ 0%nat 0%nat [].

Lemma in_flight_never_repeated_witness :
  wp (calm 5 "01") (Run 2 orchestrator ordinals "task_1" "session_1" (tk_OriginalRequest in_flight_task))
    (fun r a' => put_aside "task_1" (stalled (Some JNull)) lost a' /\ forall v', r <> Ok (v', None)) lost.
Proof.
  apply (in_flight_never_repeated 2 orchestrator ordinals (calm 5 "01") "task_1" "session_1" (tk_OriginalRequest in_flight_task) in_flight_task lost);
    [intros n; discriminate|reflexivity|reflexivity|reflexivity].
Defined.

(** The run fails the task for a human to look at. *)
Example lost_task_failed :
  let w := (Run 2 orchestrator ordinals "task_1" "session_1" (tk_OriginalRequest in_flight_task) (calm 5 "01") (init_world lost)).2 in
  option_map (option_map (fun v => (tk_State v, tk_PendingAction v))) (st_tasks (as_store (st w)) !! "task_1") = Some (Some (Failed, Some JNull)).
Proof. vm_compute. reflexivity. Qed.

Definition metrics_of (value : Task) : result Returned * World (AgentState nat nat nat) :=
  run_metrics 2 host_orchestrator value (MkMetricIntent true true) (calm 5 "01") (init_world (MkAgentState lab_store 0%nat ∅ 0%nat 0%nat [])).

Lemma metrics_complete_from_scratch_witness :
  General.spec (E := calm 5 "01") (run_metrics (H := nat) 2 host_orchestrator lab_task (MkMetricIntent true true))
    (metrics_outcome lab_task (MkMetricIntent true true)).
Proof. apply (metrics_complete_from_scratch 2 host_orchestrator (calm 5 "01") lab_task (MkMetricIntent true true)). reflexivity. Defined.

(** Both metrics are read; a task that was interrupted after the first reading
    reads three times and fails. *)
Definition interrupted : Task := with_plan lab_task (metric_steps (MkMetricIntent true false)) 0 ["step_cpu"].

Definition outcome (run : result Returned * World (AgentState nat nat nat)) : option string * list string :=
  (match run.1 with Ok (_, Some e) => Some (error_text e) | Ok (_, None) => None | Err e => Some (error_text e) end,
   map tl_Tool (as_calls (st run.2))).

Example metrics_runs :
  outcome (metrics_of lab_task) = (None, [cpu_tool; memory_tool]) /\
  outcome (metrics_of interrupted) = (Some "completion criteria not met", [cpu_tool; cpu_tool; memory_tool]).
Proof. vm_compute. split; reflexivity. Qed.
End Lab.
