(* ===== verification/AuditRuns.v ===== *)
(** * The audit log under whole runs

    [AuditTrail] shows for the investigation and for a resumption that a call
    or an action goes out after its line is on disk.  Here the same holds of
    every workflow, of a run and of the recovery after a crash.  The log is
    also read, by [trace.Writer.Read]; that loses no line ([AuditReader]). *)

From S2P Require Import Prelude GoStrings GoText GoPath Json Hash Contracts Guard Approval Executor Handlers Store Trace Planner Scope Agent Decode Prepare Managed General Workflows FileAction Orchestrate Resume AuditTrail.
Open Scope Z_scope.

(** ** Reading the log *)
Class AuditReader (T : Type) `{AuditLog T} `{TraceReader T} :=
  audit_read : forall E taskID t, wp E (trace_read taskID) (fun _ t' => forall id, starts (audit_text t id) (audit_text t' id)) t.

Section Reading.
Context `{EventDecoder} `{UnicodeCase} `{SecretPatterns} `{TimeText}.

#[export] Instance trace_dir_reader : TraceReader TraceDir := fun taskID => Trace.on_task taskID (Trace.Read taskID).

Lemma Read_keeps E taskID f : wp E (Trace.Read taskID) (fun _ f' => f' = f) f.
Proof.
  unfold Trace.Read, readEvents. wp_step. wp_step. destruct (validID taskID) as [[]|]; [|done].
  wp_step. unfold readData. apply wp_sys; [done|]. destruct (tf_data f) as [data|]; cbv beta iota; [|done].
  apply wp_guard; [done|intros _]. by apply wp_lift.
Qed.

#[export] Instance trace_dir_audit_reader : AuditReader TraceDir.
Proof.
  intros E taskID d. unfold trace_read, trace_dir_reader, Trace.on_task. apply wp_zoom.
  eapply wp_mono; [apply Read_keeps|]. intros r f -> id. unfold audit_text, trace_dir_log, task_text.
  destruct (base.decide (id = taskID)) as [->|Hne]; [rewrite lookup_insert_eq|rewrite lookup_insert_ne by done]; reflexivity.
Qed.
End Reading.

(** ** The workflows *)
Section Workflows.
Context {T H X : Type} `{AuditReader T} `{Outside X} `{HealthVerifier X} `{UnicodeCase} `{TimeText} `{TimeParse}
  `{LocalDate} `{Regexp} `{Sprinter} `{ManagedPatterns} `{PlannerPatterns} (busy : nat) (o : Orchestrator H).

Abbreviation Action A := (M (AgentState T H X) A).
(** The line of a call is in the log of some task. *)
Abbreviation trails m := (@AuditTrail.trails T H X _ _ (fun _ => True) _ m).
Abbreviation trail := (@AuditTrail.trail T H X _ _ (fun _ => True)).

Create HintDb trails discriminated.
#[local] Hint Constants Opaque : trails.
#[local] Hint Resolve trails_Prepare trails_managed trails_complete : trails.

Ltac trail_end := first [done | eauto with trails].
Ltac trail_through := trail_walk; trail_end.

Lemma trails_ask_approval value proposal snapshot : trails (ask_approval busy o value proposal snapshot).
Proof. unfold ask_approval. trail_through. Qed.
#[local] Hint Resolve trails_ask_approval : trails.

(** A call right after its line. *)
Lemma wp_registered E r s0 s : trail s0 s -> announced (fun _ => True) (as_trace s) (MkToolCall (rd_server r) (rd_tool r) (rd_arguments r)) ->
  wp E (call_registered o r) (fun _ s' => trail s0 s') s.
Proof.
  intros T0 Ha. unfold call_registered. destruct (o_Registry o); [|by apply wp_throw]. wp_step. wp_step. apply wp_zoom, wp_any.
  intros res x. etrans; [exact T0|]. by eapply trail_called.
Qed.

Lemma trails_called {B} value r (none : B) k : (forall res, trails (k res)) ->
  trails (let* _ := appendTrace value ToolCall (payload [("server", JStr (rd_server r)); ("tool", JStr (rd_tool r));
                      ("arguments", JMap (rd_arguments r))]) or none in
          let* result := call_registered o r or none in k result).
Proof.
  intros Hk. apply wp_obeys. intros E s. apply wp_attempt.
  apply (wp_announce (fun _ => True) E (MkToolCall (rd_server r) (rd_tool r) (rd_arguments r))); [done| |done].
  intros s1 T1 Ha. apply wp_attempt. eapply wp_mono; [by apply wp_registered|]. intros [res|e] s2 T2; [|done].
  eapply wp_of_obeys; [apply Hk|]. intros x s3 T3. by etrans.
Qed.

Lemma trails_record_read value i r structured : trails (record_read busy value i r structured).
Proof. unfold record_read. trail_through. Qed.
#[local] Hint Resolve trails_record_read : trails.

Lemma trails_read_step value index r : trails (callWorkflowReadStep busy o value index r).
Proof.
  unfold callWorkflowReadStep. cbv zeta.
  repeat lazymatch goal with
  | |- AuditTrail.trails _ (attempt _ (appendTrace _ ToolCall _) _) => apply trails_called; intros ?
  | |- _ => trail_step
  end; trail_end.
Qed.
#[local] Hint Resolve trails_read_step : trails.

Lemma trails_reads value index reads : trails (read_steps busy o value index reads).
Proof.
  revert value index. induction reads as [|r reads IH]; intros value index; cbn [read_steps]; [trail_through|].
  trail_walk; [trail_end|]. apply IH.
Qed.
Lemma trails_begin_workflow value facts criteria : trails (begin_workflow busy value facts criteria).
Proof. unfold begin_workflow. trail_through. Qed.
Lemma trails_recovered value answer summary resources facts : trails (recovered busy value answer summary resources facts).
Proof. unfold recovered. trail_through. Qed.
#[local] Hint Resolve trails_reads trails_begin_workflow trails_recovered : trails.

Lemma trails_port_diagnosed value e : trails (port_diagnosed value e).
Proof. unfold port_diagnosed. trail_through. Qed.
Lemma trails_port_located targets value e : trails (port_located busy o targets value e).
Proof. unfold port_located, request_port_termination. trail_through. Qed.
#[local] Hint Resolve trails_port_diagnosed trails_port_located : trails.

Lemma trails_port value : trails (runPortRecovery busy o value).
Proof. unfold runPortRecovery. trail_through. Qed.
Lemma trails_port_restart value : trails (preparePortServiceRestart busy o value).
Proof. unfold preparePortServiceRestart. trail_through. Qed.
Lemma trails_port_verify value : trails (verifyPortRecovery busy o value).
Proof. unfold verifyPortRecovery, port_verified. trail_through. Qed.

Lemma trails_cpu value : trails (runCPURecovery busy o value).
Proof. unfold runCPURecovery, cpu_located, request_cpu_termination. trail_through. Qed.
Lemma trails_cpu_verify value : trails (verifyCPURecovery busy o value).
Proof. unfold verifyCPURecovery, cpu_verified. trail_through. Qed.

Lemma trails_disk value : trails (runDiskRecovery busy o value).
Proof. unfold runDiskRecovery, disk_located, request_disk_termination. trail_through. Qed.
Lemma trails_quarantine value : trails (prepareDiskQuarantine busy o value).
Proof. unfold prepareDiskQuarantine. trail_through. Qed.
Lemma trails_disk_verify value result : trails (verifyDiskRecovery busy o value result).
Proof. unfold verifyDiskRecovery, disk_verified. trail_through. Qed.
#[local] Hint Resolve trails_port trails_port_restart trails_port_verify trails_cpu trails_cpu_verify trails_disk
  trails_quarantine trails_disk_verify : trails.

Lemma trails_continue value envelope result : trails (ContinueAfterAction busy o value envelope result).
Proof. unfold ContinueAfterAction, handled, unexpected. trail_through. Qed.

(** ** Files, metrics and the investigation *)
Lemma trails_create request : trails (create_action (T := T) (H := H) (X := X) request).
Proof. unfold create_action. trail_through. Qed.
#[local] Hint Resolve trails_create : trails.
Lemma trails_resolve order targets kind request s : trails (resolve_action (T := T) (X := X) order targets kind request s).
Proof. unfold resolve_action. trail_through. Qed.
#[local] Hint Resolve trails_resolve : trails.
Lemma trails_file order value kind request : trails (runFileAction busy o order value kind request).
Proof. unfold runFileAction, request_file_action. trail_through. Qed.

Lemma trails_record_metric value index structured : trails (record_metric busy value index structured).
Proof. unfold record_metric. trail_through. Qed.
Lemma trails_call_metric value tool : trails (call_metric o value tool).
Proof.
  apply wp_obeys. intros E s. unfold call_metric. wp_step.
  apply (wp_announce (fun _ => True) E (MkToolCall "system" tool ∅)); [done| |done]. intros s1 T1 Ha. by apply wp_registered.
Qed.
#[local] Hint Resolve trails_record_metric trails_call_metric : trails.
Lemma trails_metric_step value index : trails (metric_step busy o value index).
Proof. unfold metric_step. trail_through. Qed.
#[local] Hint Resolve trails_metric_step : trails.
Lemma trails_metric_loop n index value outputs : trails (metric_loop busy o n index value outputs).
Proof.
  revert index value outputs. induction n as [|n IH]; intros index value outputs; cbn [metric_loop]; [trail_through|].
  trail_walk; [trail_end|]. apply IH.
Qed.
Lemma trails_complete_metrics value outputs : trails (complete_metrics busy value outputs).
Proof. unfold complete_metrics. trail_through. Qed.
#[local] Hint Resolve trails_metric_loop trails_complete_metrics : trails.
Lemma trails_metrics value intent : trails (run_metrics busy o value intent).
Proof. unfold run_metrics. trail_through. Qed.

Lemma trails_run_general value : trails (run_general busy o value).
Proof.
  unfold run_general. apply trails_bind; [|intros [r|]; trail_through]. apply wp_obeys. intros E s. by apply trails_general.
Qed.
#[local] Hint Resolve trails_file trails_metrics trails_run_general : trails.

Lemma trails_choose order value request : trails (choose_workflow busy o order value request).
Proof. unfold choose_workflow. trail_through. Qed.
#[local] Hint Resolve trails_choose : trails.

(** ** The run *)
Lemma trails_read_log taskID : trails (on_trace (H := H) (X := X) (trace_read taskID)).
Proof.
  apply wp_obeys. intros E s. apply wp_zoom. eapply wp_mono; [apply audit_read|]. intros r t G.
  split; [exact G|]. exists []. by rewrite app_nil_r.
Qed.

Lemma trails_initial value : trails (ensureInitialTrace (X := X) o value).
Proof.
  unfold ensureInitialTrace. destruct (negb _); [trail_through|].
  apply trails_bind; [apply trails_try, trails_read_log|]. intros read. trail_through.
Qed.
#[local] Hint Resolve trails_initial : trails.

Lemma trails_Prepare_ taskID sessionID request : trails (Prepare_ busy o taskID sessionID request).
Proof. unfold Prepare_. trail_through. Qed.
Lemma trails_release taskID token fence r : trails (Orchestrate.release (T := T) (H := H) (X := X) busy taskID token fence r).
Proof. unfold Orchestrate.release. trail_through. Qed.
Lemma trails_failure_recorded value e : trails (record_failure busy value e).
Proof. unfold record_failure. trail_through. Qed.
#[local] Hint Resolve trails_Prepare_ trails_release trails_failure_recorded : trails.

Lemma trails_Run order taskID sessionID request : trails (Run busy o order taskID sessionID request).
Proof. unfold Run, find_or_prepare, claimed_run. trail_through. Qed.

Lemma trails_ctx_check : trails (ctx_check (S := AgentState T H X)).
Proof. apply wp_obeys. intros E s. by apply wp_ctx_check. Qed.
#[local] Hint Resolve trails_Run trails_ctx_check : trails.

Lemma trails_recover order values failures : trails (recover_tasks busy o order values failures).
Proof.
  revert failures. induction values as [|v values IH]; intros failures; cbn [recover_tasks]; [trail_through|].
  unfold await_lease. trail_walk; first [apply IH|trail_end].
Qed.

Lemma trails_RecoverIncomplete order : trails (RecoverIncomplete busy o order).
Proof. unfold RecoverIncomplete. trail_walk; first [apply trails_recover|trail_end]. Qed.
End Workflows.
