(* ===== verification/System.v ===== *)
(** * The agent as a whole

    Submissions, runs, recoveries and restarts of the server, decisions of the
    operator and resumptions of approved tasks, one after the other, each in an
    environment of its own ([cmd/safeops-server/main.go] wires them together).
    The workflow that goes on after an approved action is the real one, so the
    conditions [Resume] and [AuditTrail] put on a continuation are met. *)

From S2P Require Import Prelude GoStrings GoText GoPath Json Hash Contracts Guard Approval Platform Targets Nonce Executor Handlers Trace Store Planner Scope Agent Decode Prepare Managed General Workflows FileAction Orchestrate Evidence Resume Wire Going AuditTrail AuditRuns.
Open Scope Z_scope.

(** What happens to the server. *)
Inductive operation :=
  | Submitted (taskID sessionID request : string)
  | Ran (order : list (string * Z)) (taskID sessionID request : string)
  | Recovered (order : list (string * Z))
  | Restarted
  | Decided (id : string) (approve : bool) (reason : string)
  | Resumed (record : ApprovalRecord).

Section System.
Context {T H X Y : Type} `{TraceSink T} `{TraceReader T} `{Outside X} `{HealthVerifier X} `{UnicodeCase} `{TimeText} `{TimeParse}
  `{LocalDate} `{Regexp} `{Sprinter} `{ManagedPatterns} `{PlannerPatterns} `{EnvelopeDecoder} (busy : nat)
  (o : Orchestrator H) (execute : option (ActionEnvelope -> M Y Result)) (traced : bool).

Abbreviation Action A := (M (ResumeState T H X Y) A).

(** [agent.ApprovalResumer{..., Continuation: orchestrator}] *)
Definition resumer : ApprovalResumer T H X Y := MkApprovalResumer execute traced (Some (ContinueAfterAction busy o)).

Definition perform (op : operation) : Action unit :=
  match op with
  | Submitted taskID sessionID request => on_agent (Prepare_ busy o taskID sessionID request) ;;; ret tt
  | Ran order taskID sessionID request => on_agent (Run busy o order taskID sessionID request) ;;; ret tt
  | Recovered order => on_agent (RecoverIncomplete busy o order) ;;; ret tt
  | Restarted => on_agent (on_store (NewFileStore busy))
  | Decided id approve reason => on_agent (on_approvals (Resolve id approve reason)) ;;; ret tt
  | Resumed record => Resume busy resumer record ;;; ret tt
  end.

Fixpoint perform_all (l : list (Env * operation)) (s : ResumeState T H X Y) : ResumeState T H X Y :=
  match l with
  | [] => s
  | (E, op) :: l => perform_all l (st (perform op E (init_world s)).2)
  end.

(** The ids drawn are those of no approval there is. *)
Definition fresh_operations (l : list (Env * operation)) (s : ResumeState T H X Y) : Prop :=
  forall l1 E op l2, l = l1 ++ (E, op) :: l2 -> fresh_step E (perform_all l1 s).

(** *** One operation *)
Lemma wp_agent_moves {A} E (m : M (AgentState T H X) A) s :
  wp E m (fun _ a' => goes_on (drawn E) (rm_agent s) a') (rm_agent s) -> wp E (on_agent m : Action A) (fun _ s' => moves E s s') s.
Proof. intros Hm. apply wp_zoom. eapply wp_mono; [exact Hm|]. by split. Qed.

Lemma wp_goes_moves {A} E (m : M (AgentState T H X) A) s : stays E (goes_on (drawn E)) m (fun _ => True) ->
  wp E (on_agent m ;;; ret tt : Action unit) (fun _ s' => moves E s s') s.
Proof.
  intros Hm. wp_step. eapply wp_mono; [apply wp_agent_moves; eapply wp_mono; [apply Hm|]; by intros r a' [Hg _]|].
  intros [x|e] s' Hs; [by wp_step|done].
Qed.

Lemma goes_resolve E id approve reason : stays E (goes_on (drawn E)) (on_approvals (T := T) (H := H) (X := X) (Resolve id approve reason)) (fun _ => True).
Proof.
  intros a. apply wp_zoom. eapply wp_mono; [apply Resolve_writes|]. intros r d' Hd. split; [|done].
  apply goes_on_approvals. intros i Hi. destruct Hd as [-> | (r0&rec&_&_&_&->)]; [done|].
  destruct (base.decide (ar_ID rec = i)) as [<-|Hne]; [rewrite lookup_insert_eq; by eexists|by rewrite lookup_insert_ne].
Qed.

Lemma continuation_goes_on E k value envelope result : ar_Continuation resumer = Some k ->
  forall a, wp E (k value envelope result) (fun _ a' => goes_on (drawn E) a a') a.
Proof. intros [= <-] a. eapply wp_mono; [apply goes_continue|]. by intros r a' [Hg _]. Qed.

(** It sends nothing to the executor, or it is a resumption. *)
Lemma wp_perform E op s : sound (rm_agent s) ->
  wp E (perform op) (fun _ s' => moves E s s' \/ exists record, op = Resumed record /\ resumed E record s s') s.
Proof.
  intros Hs. destruct op as [taskID sessionID request|order taskID sessionID request|order| |id approve reason|record]; cbn [perform].
  1, 2, 3, 5: eapply wp_mono; [apply wp_goes_moves|by left].
  - apply goes_make_durable.
  - apply goes_Run.
  - apply goes_RecoverIncomplete.
  - apply goes_resolve.
  - eapply wp_mono; [apply wp_agent_moves|by left]. apply wp_zoom. eapply wp_mono; [by apply NewFileStore_calms, Hs|].
    intros r st' Hc. by apply goes_on_calms.
  - wp_step. eapply wp_mono; [apply (wp_Resume busy resumer E (continuation_goes_on E))|].
    intros [x|e] s' Hr; [wp_step|]; right; by exists record.
Qed.

Lemma perform_all_app l1 l2 s : perform_all (l1 ++ l2) s = perform_all l2 (perform_all l1 s).
Proof. revert s. induction l1 as [|[E op] l1 IH]; intros s; [done|]. apply IH. Qed.

(** C1: whatever the server does - it accepts requests, runs tasks through any
    of its workflows, loses workers and recovers, restarts, takes the
    operator's decisions and resumes tasks, in any order and with failures and
    crashes anywhere - no approval sends two envelopes to the executor; and
    each envelope sent was stored with a task that waited for that approval,
    of which the record says it was granted. *)
Theorem system_executes_once (l : list (Env * operation)) (s : ResumeState T H X Y) :
  sound (rm_agent s) -> rm_executed s = [] -> fresh_operations l s ->
  NoDup (map key_of (rm_executed (perform_all l s))) /\
  forall e, e ∈ rm_executed (perform_all l s) -> exists l1 E record l2 v,
    l = l1 ++ (E, Resumed record) :: l2 /\ pending record (perform_all l1 s) v e.
Proof.
  intros Hs He Hfresh.
  enough (Hall : spent (perform_all l s) /\ forall e, e ∈ rm_executed (perform_all l s) -> exists l1 E record l2 v,
    l = l1 ++ (E, Resumed record) :: l2 /\ pending record (perform_all l1 s) v e) by (split; [apply Hall|apply Hall]).
  induction l as [|[E op] l IH] using rev_ind.
  { cbn [perform_all]. split; [split; [done|rewrite He; constructor|]|]; rewrite He; intros e Hin; by apply elem_of_nil in Hin. }
  destruct IH as [IH1 IH2].
  { intros l1 E' op' l2 ->. eapply (Hfresh l1 E' op' (l2 ++ [(E, op)])). by rewrite <- app_assoc. }
  assert (Hf : fresh_step E (perform_all l s)) by by apply (Hfresh l E op []).
  rewrite perform_all_app. cbn [perform_all].
  pose proof (wp_perform E op (perform_all l s) (sp_sound _ IH1) (init_world (perform_all l s)) eq_refl) as Hr.
  cbv beta in Hr.
  assert (Hold : forall e, e ∈ rm_executed (perform_all l s) -> exists l1 E' record l2 v,
    l ++ [(E, op)] = l1 ++ (E', Resumed record) :: l2 /\ pending record (perform_all l1 s) v e).
  { intros e Hin. destruct (IH2 e Hin) as (l1&E'&record&l2&v&->&Hp). exists l1, E', record, (l2 ++ [(E, op)]), v.
    split; [by rewrite <- app_assoc|done]. }
  destruct Hr as [Hm|(record&->&Hr)].
  - split; [exact (spent_moves _ _ _ Hf Hm IH1)|]. intros e. rewrite (proj2 Hm). apply Hold.
  - split; [exact (spent_resumed _ _ _ _ Hf Hr IH1)|]. intros e Hin.
    destruct Hr as [[_ Hm]|(v&e'&s1&Hp&_&_&_&Hx)]; [rewrite Hm in Hin; auto|]. rewrite Hx in Hin.
    apply elem_of_app in Hin as [Hin|Hin%list_elem_of_singleton]; [auto|]. subst e'. by exists l, E, record, [], v.
Qed.
End System.

(** ** Nothing goes out before its line *)
Section Announced.
Context {T H X Y : Type} `{AuditReader T} `{Outside X} `{HealthVerifier X} `{UnicodeCase} `{TimeText} `{TimeParse}
  `{LocalDate} `{Regexp} `{Sprinter} `{ManagedPatterns} `{PlannerPatterns} `{EnvelopeDecoder} (busy : nat)
  (o : Orchestrator H) (execute : option (ActionEnvelope -> M Y Result)) (traced : bool).

Abbreviation trail := (@AuditTrail.trail T H X _ _ (fun _ => True)).
Abbreviation marks := (@AuditTrail.marks T H X Y _ _ trail).

Lemma trail_grows a a' : trail a a' -> logs_grow a a'.
Proof. by intros [G _]. Qed.

Lemma trail_quiet a a' : as_calls a' = as_calls a -> logs_grow a a' -> trail a a'.
Proof. intros Hc G. split; [exact G|]. exists []. by rewrite app_nil_r. Qed.

Lemma marks_agent {A} E (m : M (AgentState T H X) A) (s : ResumeState T H X Y) : trails (fun _ => True) m ->
  wp E (on_agent m : M (ResumeState T H X Y) A) (fun _ s' => marks s s') s.
Proof.
  intros Hm. apply wp_zoom. eapply wp_of_obeys; [apply Hm|]. intros x a' G. split; [exact G|]. exists []. by rewrite app_nil_r.
Qed.

Lemma marks_part {A} E (m : M (AgentState T H X) A) (s : ResumeState T H X Y) : trails (fun _ => True) m ->
  wp E (on_agent m ;;; ret tt : M (ResumeState T H X Y) unit) (fun _ s' => marks s s') s.
Proof. intros Hm. wp_step. eapply wp_mono; [by apply marks_agent|]. intros [x|e] s' Hs; [by wp_step|done]. Qed.

Lemma marks_perform E op s : wp E (perform busy o execute traced op) (fun _ s' => marks s s') s.
Proof.
  destruct op as [taskID sessionID request|order taskID sessionID request|order| |id approve reason|record]; cbn [perform].
  - apply marks_part, trails_Prepare_.
  - apply marks_part, trails_Run.
  - apply marks_part, trails_RecoverIncomplete.
  - apply marks_agent, trails_store.
  - apply marks_part, trails_approvals.
  - wp_step. eapply wp_mono.
    + apply (obeys_wp marks), (marked_Resume busy _ trail trail_grows trail_quiet). intros k value envelope result [= <-].
      apply trails_continue.
    + intros [x|e] s' Hs; [by wp_step|done].
Qed.

(** C4: at whatever point the server stops, also by a crash at any system
    call, every tool call made since it started has a complete TOOL_CALL line
    with its server, tool and arguments in the log of a task, every envelope
    sent to the executor has its EXECUTION line in the log of its task, and no
    complete line of any log has been lost. *)
Theorem every_effect_announced (l : list (Env * operation)) (s : ResumeState T H X Y) :
  let s' := perform_all busy o execute traced l s in
  logs_grow (rm_agent s) (rm_agent s') /\
  (exists calls, as_calls (rm_agent s') = as_calls (rm_agent s) ++ calls /\
     Forall (announced (fun _ => True) (as_trace (rm_agent s'))) calls) /\
  (exists actions, rm_executed s' = rm_executed s ++ actions /\ Forall (on_record (as_trace (rm_agent s'))) actions).
Proof.
  cbv zeta. enough (Hm : marks s (perform_all busy o execute traced l s)) by (destruct Hm as [[G Hc] Hx]; by split).
  pose proof (marks_preorder (Y := Y) trail trail_grows) as Hpre.
  revert s. induction l as [|[E op] l IH]; intros s; [reflexivity|]. cbn [perform_all].
  etrans; [exact (marks_perform E op s (init_world s) eq_refl)|apply IH].
Qed.
End Announced.

(** ** A recovery from end to end
    The demo service does not start, since another process holds its port.
    The run reads the evidence and asks to terminate the holder; granted and
    carried out, the workflow asks for the restart of the service; granted and
    carried out, it reads again and completes. *)
Module Lab.
Import Evidence.Lab.
#[local] Existing Instances lab_case plain_time plain_parse counting_sink no_regexp no_sprint no_managed mask_patterns.
#[local] Instance counting_reader : TraceReader nat := fun _ => ret [].
#[local] Instance lab_date : LocalDate := fun _ => "2026-01-01".
#[local] Instance lab_outside : Outside (list json) := {|
  out_Decide _ _ := throw (ESys EDEADLINE);
  out_AvailableTools _ := [];
  out_CallTool _ _ _ := answers <- get_st ;;
    match answers with
    | [] => throw (ESys EDEADLINE)
    | a :: rest => put_st rest ;;; ret (MkCallToolResult false [] (Some a))
    end
|}.
#[local] Instance lab_health : HealthVerifier (list json) := fun url => ret (MkHealthEvidence url 200 "").

Definition answers : list json := [
  JObj [("service", JObj [("active_state", JStr "failed")])];
  JObj [("entries", JArr [])];
  JObj [("occupied", JBool true)];
  JObj [("processes", JArr [JObj [("pid", JInt 4242); ("start_ticks", JInt 777); ("executable", JStr demoHolderExecutable)]])];
  JObj [("diagnosis", JObj [("rca", JObj [("diagnosis_level", JStr D1); ("root_cause", JStr "the port is held")])]); ("knowledge", JArr [])];
  JObj [("service", JObj [("active_state", JStr "active")])];
  JObj [("occupied", JBool true)]].

Definition carried_out (e : ActionEnvelope) : M nat Result :=
  modify S ;;; ret (MkResult (ap_Tool (ae_Proposal e)) LabSandbox "SUCCEEDED" "" "" true (Some (MkVerification true [] ∅)) 0 0).

Definition start : ResumeState nat nat (list json) nat := MkResumeState (MkAgentState lab_store 0%nat ∅ 0%nat answers []) 0%nat [].

Abbreviation after l := (perform_all 2 orchestrator (Some carried_out) true l start).

Definition granted (l : list (Env * operation)) (id : string) : ApprovalRecord :=
  default no_record (default None (as_approvals (rm_agent (after l)) !! id)).

Definition request : string := "Web 服务启动失败，请恢复".
Definition asked : list (Env * operation) := [
  (calm 5 "01", Ran ordinals "task_1" "session_1" request);
  (calm 6 "02", Decided "approval_01" true "")].
Definition first_record : ApprovalRecord := Eval vm_compute in granted asked "approval_01".

Definition asked_again : list (Env * operation) := asked ++ [
  (calm 7 "03", Resumed first_record);
  (calm 8 "04", Decided "approval_03" true "")].
Definition second_record : ApprovalRecord := Eval vm_compute in granted asked_again "approval_03".

Definition recovery : list (Env * operation) := asked_again ++ [
  (calm 9 "05", Resumed second_record);
  (calm 10 "06", Resumed first_record)].

Abbreviation recovered_state := (after recovery).

(** Two approvals, two envelopes; the readings before and after them. *)
Example port_recovered :
  map (fun e => (ap_Tool (ae_Proposal e), ae_ApprovalID e)) (rm_executed recovered_state)
    = [("process.terminate", "approval_01"); ("service.restart", "approval_03")] /\
  map tl_Tool (as_calls (rm_agent recovered_state))
    = ["service.get_status"; "journal.query_unit"; "network.check_port"; "process.find_by_port"; "diagnostic.port_conflict";
       "service.get_status"; "network.check_port"] /\
  option_map (option_map tk_State) (st_tasks (as_store (rm_agent recovered_state)) !! "task_1") = Some (Some Completed).
Proof. vm_compute. repeat split; reflexivity. Qed.

Lemma start_sound : sound (rm_agent start).
Proof.
  split; [intros id v Hv|intros id approval (v&Hv&_)|intros name r Hr]; cbn in *; discriminate.
Qed.

Lemma recovery_fresh : fresh_operations 2 orchestrator (Some carried_out) true recovery start.
Proof.
  intros l1 E op l2 Hl. unfold recovery, asked_again, asked in Hl.
  do 6 (destruct l1 as [|? l1]; [injection Hl as <- _ _; intros n [v Hv]; vm_compute in Hv; discriminate Hv|injection Hl as <- Hl]).
  destruct l1; discriminate Hl.
Qed.

Lemma system_executes_once_witness :
  NoDup (map key_of (rm_executed recovered_state)) /\
  forall e, e ∈ rm_executed recovered_state -> exists l1 E record l2 v,
    recovery = l1 ++ (E, Resumed record) :: l2 /\ pending record (after l1) v e.
Proof.
  apply (system_executes_once 2 orchestrator (Some carried_out) true recovery start);
    [exact start_sound|reflexivity|exact recovery_fresh].
Defined.

(** The same operations with the logs on disk. *)
#[local] Existing Instances plain_decoder trace_case plain_patterns.

Definition disk_start : ResumeState TraceDir nat (list json) nat :=
  MkResumeState (MkAgentState lab_store ∅ ∅ 0%nat answers []) 0%nat [].

Definition disk_state : ResumeState TraceDir nat (list json) nat :=
  perform_all 2 orchestrator (Some carried_out) true (take 3 recovery) disk_start.

Lemma every_effect_announced_witness :
  logs_grow (rm_agent disk_start) (rm_agent disk_state) /\
  (exists calls, as_calls (rm_agent disk_state) = as_calls (rm_agent disk_start) ++ calls /\
     Forall (announced (fun _ => True) (as_trace (rm_agent disk_state))) calls) /\
  (exists actions, rm_executed disk_state = rm_executed disk_start ++ actions /\
     Forall (on_record (as_trace (rm_agent disk_state))) actions).
Proof. exact (every_effect_announced 2 orchestrator (Some carried_out) true (take 3 recovery) disk_start). Defined.
End Lab.
