(* ===== verification/Api.v ===== *)
(** * [internal/api/server.go]: the requests of the web console

    Sessions, messages, tasks, approvals and traces as the HTTP handlers
    serve them: what a request is refused for, which status it is answered
    with, and what it changes; the runs in the background and the limits on
    them; and the resumption of decided approvals when the server starts
    ([cmd/safeops-server/main.go]).  A handler takes the path's id and the
    body; the value it encodes is the constructor of [Body].  A handler runs
    as one step between which runs are pending. *)

From S2P Require Import Prelude GoStrings GoText GoPath Json Hash Contracts Guard Approval Platform Targets Nonce Executor Handlers Config Trace Store Planner Scope Agent Hub Registry Decode Prepare Managed General Workflows FileAction Orchestrate Evidence Resume Wire Going AuditTrail AuditRuns System.
Open Scope Z_scope.

Record Limits := MkLimits {
  MaxConcurrentTasks : Z;
  MaxSessions : Z;
  MaxTasks : Z
}.

Definition defaultLimits : Limits := MkLimits 8 1000 10000.

(** [WithLimits] *)
Definition WithLimits (limits current : Limits) : Limits :=
  MkLimits (if 0 <? MaxConcurrentTasks limits then MaxConcurrentTasks limits else MaxConcurrentTasks current)
    (if 0 <? MaxSessions limits then MaxSessions limits else MaxSessions current)
    (if 0 <? MaxTasks limits then MaxTasks limits else MaxTasks current).

(** ** Bodies *)

Inductive Body :=
  | BError (e : error)
  | BSession (value : Session)
  | BSessions (values : list Session) (query archived : string)
  | BAccepted (taskID sessionID : string)
  | BTask (value : Task)
  | BTasks (values : list Task) (limit : Z)
  | BApproval (record : ApprovalRecord)
  | BApprovals (records : list ApprovalRecord)
  | BResolved (record : ApprovalRecord) (value : Task) (resume_error : option error)
  | BAllowlist (status : AllowlistStatus)
  | BBrowser (browser : PathBrowser)
  | BTrace (events : list Event)
  | BServer (state : ServerStatus)
  | BServers (states : list ServerStatus)
  | BHealth (healthy : bool) (states : list ServerStatus).

Record Reply := MkReply {
  rp_status : Z;
  rp_body : Body
}.

Definition StatusCreated : Z := 201.
Definition StatusAccepted : Z := 202.
Definition StatusNotFound : Z := 404.
Definition StatusConflict : Z := 409.
Definition StatusTooManyRequests : Z := 429.
Definition StatusInternalServerError : Z := 500.
Definition StatusBadGateway : Z := 502.
Definition StatusServiceUnavailable : Z := 503.
Definition StatusInsufficientStorage : Z := 507.

Definition writeError (status : Z) (e : error) : Reply := MkReply status (BError e).
Definition writeLimitError (message : string) : Reply := writeError StatusTooManyRequests (EMsg message).
Definition writeRetentionError (message : string) : Reply := writeError StatusInsufficientStorage (EMsg message).

Definition requestBytes : Z := 32768.

(** [decodeJSON]: one JSON object, no unknown field, at most 32 KiB. *)
Definition decodeJSON {A} (d : decoder A) (zero : A) (body : string) : result A :=
  let? decoded := decode_one d zero (take_bytes (Z.to_nat requestBytes) body) in
  if negb (String.eqb (skip_space (snd decoded)) "") || (requestBytes <? len body)
  then Err (EMsg "request body must contain one JSON object")
  else Ok (fst decoded).

Definition dec_one_string (name : string) : decoder string :=
  dec_strict [name] (fun l p => dec_field name dec_string l p).

Record Decision_ := MkDecision_ { dc_Decision : string; dc_Reason : string }.
Definition dec_decision : decoder Decision_ := dec_strict ["decision"; "reason"] (fun l p =>
  let+ decision := dec_field "decision" dec_string l (dc_Decision p) in
  let+ reason := dec_field "reason" dec_string l (dc_Reason p) in
  Some (MkDecision_ decision reason)).

Record SessionChange := MkSessionChange { sc_Name : option string; sc_Archived : option bool }.
Definition dec_change : decoder SessionChange := dec_strict ["name"; "archived"] (fun l p =>
  let+ name := dec_field "name" (dec_ptr dec_string "") l (sc_Name p) in
  let+ archived := dec_field "archived" (dec_ptr dec_bool false) l (sc_Archived p) in
  Some (MkSessionChange name archived)).

(** [strings.ToUpper]; [unicode.ToUpper] above ASCII. *)
Class UnicodeUpper := uni_upper : N -> N.
Definition upper_rune `{UnicodeUpper} (r : N) : N :=
  if (r <? 128)%N then (if in_range 97 122 r then r - 32 else r)%N else uni_upper r.
Definition ToUpper `{UnicodeUpper} (s : string) : string := encode_runes (map upper_rune (runes s)).

(** [len([]rune(s))] *)
Definition rune_count (s : string) : nat := length (runes s).

Definition sessionMatches `{UnicodeCase} (value : Session) (query : string) : bool :=
  Contains (ToLower (sn_Name value +:+ String newline (sn_Summary value))) query
  || existsb (fun m => Contains (ToLower (ms_Content m)) query) (sn_Messages value).

(** The first task of the session that has not ended. *)
Definition active_task (tasks : list Task) (sessionID : string) : option Task :=
  List.find (fun t => String.eqb (tk_SessionID t) sessionID && negb (Hub.terminal (tk_State t))) tasks.

(** ** The server *)

(** A run in the background: [s.agent.Run] of an accepted message. *)
Record PendingRun := MkPendingRun {
  pr_TaskID : string;
  pr_SessionID : string;
  pr_Content : string
}.

Record ServerState (T H X Y : Type) := MkServerState {
  sv_app : ResumeState T H X Y;
  sv_runningSessions : gset string;
  sv_taskSlots : nat;
  sv_runs : list PendingRun;
  sv_hub : eventHub
}.
Arguments MkServerState {T H X Y}.
Arguments sv_app {T H X Y}.
Arguments sv_runningSessions {T H X Y}.
Arguments sv_taskSlots {T H X Y}.
Arguments sv_runs {T H X Y}.
Arguments sv_hub {T H X Y}.

Section Server.
Context {T H X Y : Type} `{TraceSink T} `{TraceReader T} `{Outside X} `{HealthVerifier X} `{UnicodeCase} `{UnicodeUpper} `{TimeText} `{TimeParse}
  `{LocalDate} `{Regexp} `{Sprinter} `{ManagedPatterns} `{PlannerPatterns} `{EnvelopeDecoder} (busy : nat) (limits : Limits)
  (agent : option (Orchestrator H)) (resumer : option (ApprovalResumer T H X Y)).

Abbreviation Handler := (M (ServerState T H X Y) Reply).

Definition on_app {A} : M (ResumeState T H X Y) A -> M (ServerState T H X Y) A :=
  zoom sv_app (fun v s => MkServerState v (sv_runningSessions s) (sv_taskSlots s) (sv_runs s) (sv_hub s)).
Definition app_store {A} (m : M Store A) : M (ServerState T H X Y) A := on_app (on_agent (on_store m)).
Definition app_approvals {A} (m : M ApprovalDir A) : M (ServerState T H X Y) A := on_app (on_agent (on_approvals m)).

Definition set_slots (n : nat) (s : ServerState T H X Y) : ServerState T H X Y :=
  MkServerState (sv_app s) (sv_runningSessions s) n (sv_runs s) (sv_hub s).
Definition set_running (running : gset string) (s : ServerState T H X Y) : ServerState T H X Y :=
  MkServerState (sv_app s) running (sv_taskSlots s) (sv_runs s) (sv_hub s).
Definition set_runs (runs : list PendingRun) (s : ServerState T H X Y) : ServerState T H X Y :=
  MkServerState (sv_app s) (sv_runningSessions s) (sv_taskSlots s) runs (sv_hub s).
Definition set_hub (h : eventHub) (s : ServerState T H X Y) : ServerState T H X Y :=
  MkServerState (sv_app s) (sv_runningSessions s) (sv_taskSlots s) (sv_runs s) h.

(** The channel [taskSlots] has room for [MaxConcurrentTasks]. *)
Definition reserveTaskSlot : M (ServerState T H X Y) bool :=
  s <- get_st ;;
  if Z.of_nat (sv_taskSlots s) <? MaxConcurrentTasks limits
  then modify (set_slots (S (sv_taskSlots s))) ;;; ret true
  else ret false.

Definition releaseTaskSlot : M (ServerState T H X Y) unit :=
  modify (fun s => set_slots (pred (sv_taskSlots s)) s).

(** [if err != nil { writeError(...); return }] with [storage.ErrNotFound]
    told apart. *)
Definition or_status {A} (e404 : bool) (m : M (ServerState T H X Y) A) (k : A -> Handler) : Handler :=
  r <- try_ m ;;
  match r with
  | Ok a => k a
  | Err e =>
    ret (writeError (if e404 && errors_is_sentinel e "not found" then StatusNotFound else StatusInternalServerError) e)
  end.

(** *** Sessions *)
Definition createSession (body : string) : Handler :=
  match decodeJSON (dec_one_string "name") "" body with
  | Err e => ret (writeError StatusBadRequest e)
  | Ok name =>
    t <- now ;;
    let name := if String.eqb (TrimSpace name) "" then "新会话" else name in
    if (128 <? rune_count (TrimSpace name))%nat
    then ret (writeError StatusBadRequest (EMsg "session name must not exceed 128 characters"))
    else
      or_status false (app_store ListSessions) (fun values =>
      if MaxSessions limits <=? Z.of_nat (length values) then ret (writeRetentionError "session retention limit reached")
      else
        id <- new_id "ses" ;;
        let value := MkSession id (TrimSpace name) false [] "" ∅ [] t t in
        or_status false (app_store (SaveSession busy value)) (fun _ => ret (MkReply StatusCreated (BSession value))))
  end.

Definition listSessions (q archived : string) : Handler :=
  or_status false (app_store ListSessions) (fun values =>
  let query := ToLower (TrimSpace q) in
  if (128 <? rune_count query)%nat
  then ret (writeError StatusBadRequest (EMsg "session search must not exceed 128 characters"))
  else
    let archiveFilter := ToLower (TrimSpace archived) in
    let archiveFilter := if String.eqb archiveFilter "" then "false" else archiveFilter in
    if negb (string_in archiveFilter ["false"; "true"; "all"])
    then ret (writeError StatusBadRequest (EMsg "archived must be false, true, or all"))
    else
      let shown value :=
        negb ((String.eqb archiveFilter "false" && sn_Archived value) || (String.eqb archiveFilter "true" && negb (sn_Archived value)))
        && (String.eqb query "" || sessionMatches value query) in
      ret (MkReply StatusOK (BSessions (List.filter shown values) query archiveFilter))).

Definition getSession (sessionID : string) : Handler :=
  or_status true (app_store (GetSession sessionID)) (fun value => ret (MkReply StatusOK (BSession value))).

Definition changed_session (change : SessionChange) (t : Z) (value : Session) : result Session :=
  Ok (MkSession (sn_ID value) (default (sn_Name value) (sc_Name change)) (default (sn_Archived value) (sc_Archived change))
        (sn_Messages value) (sn_Summary value) (sn_PinnedContext value) (sn_SelectedResources value) (sn_CreatedAt value) t).

(** The checks before a session is archived. *)
Definition may_archive (sessionID : string) (k : Handler) : Handler :=
  s <- get_st ;;
  if bool_decide (sessionID ∈ sv_runningSessions s) then ret (writeError StatusConflict (EMsg "session has a running task"))
  else
    or_status false (app_store ListTasks) (fun values =>
    match active_task values sessionID with
    | Some value => ret (writeError StatusConflict (EMsg ("session has active task " +:+ tk_ID value +:+ " in state " +:+ tk_State value)))
    | None => k
    end).

Definition updateSession (sessionID body : string) : Handler :=
  match decodeJSON dec_change (MkSessionChange None None) body with
  | Err e => ret (writeError StatusBadRequest e)
  | Ok (MkSessionChange None None) => ret (writeError StatusBadRequest (EMsg "name or archived is required"))
  | Ok (MkSessionChange name archived) =>
    let trimmed := option_map TrimSpace name in
    if match trimmed with Some n => String.eqb n "" || (128 <? rune_count n)%nat | None => false end
    then ret (writeError StatusBadRequest (EMsg "session name must contain 1-128 characters"))
    else
      let update :=
        t <- now ;;
        or_status true (app_store (UpdateSession busy sessionID (changed_session (MkSessionChange trimmed archived) t)))
          (fun value => ret (MkReply StatusOK (BSession value))) in
      if match archived with Some true => true | _ => false end then may_archive sessionID update else update
  end.

(** *** Messages *)

(** The background goroutine's bookkeeping when the run has ended. *)
Definition run_ended (run : PendingRun) : M (ServerState T H X Y) unit :=
  modify (fun s => set_running (sv_runningSessions s ∖ {[pr_SessionID run]}) s) ;;;
  releaseTaskSlot.

(** The reservation, the durable task and the start of the run. *)
Definition accept_message (o : Orchestrator H) (sessionID content : string) : Handler :=
  reserved <- reserveTaskSlot ;;
  if negb reserved then ret (writeLimitError "concurrent task limit reached")
  else
    modify (fun s => set_running ({[sessionID]} ∪ sv_runningSessions s) s) ;;;
    taskID <- new_id "task" ;;
    let run := MkPendingRun taskID sessionID content in
    prepared <- try_ (on_app (on_agent (Prepare_ busy o taskID sessionID content))) ;;
    match prepared with
    | Ok (_, None) =>
      modify (fun s => set_runs (sv_runs s ++ [run]) s) ;;;
      ret (MkReply StatusAccepted (BAccepted taskID sessionID))
    | Ok (_, Some e) | Err e => run_ended run ;;; ret (writeError StatusInternalServerError e)
    end.

Definition createMessage (sessionID body : string) : Handler :=
  match decodeJSON (dec_one_string "content") "" body with
  | Err e => ret (writeError StatusBadRequest e)
  | Ok content =>
    let content := TrimSpace content in
    if String.eqb content "" then ret (writeError StatusBadRequest (EMsg "content is required"))
    else
      or_status true (app_store (GetSession sessionID)) (fun current =>
      if sn_Archived current
      then ret (writeError StatusConflict (EMsg "archived session must be restored before adding messages"))
      else
        match agent with
        | None => ret (writeError StatusServiceUnavailable (EMsg "agent runtime is not configured"))
        | Some o =>
          s <- get_st ;;
          if bool_decide (sessionID ∈ sv_runningSessions s)
          then ret (writeError StatusConflict (EMsg "session already has a running task"))
          else
            or_status false (app_store ListTasks) (fun values =>
            match active_task values sessionID with
            | Some value =>
              ret (writeError StatusConflict (EMsg ("session already has active task " +:+ tk_ID value +:+ " in state " +:+ tk_State value)))
            | None =>
              if MaxTasks limits <=? Z.of_nat (length values) then ret (writeRetentionError "task retention limit reached")
              else accept_message o sessionID content
            end)
        end)
  end.

(** The run of an accepted message, and what is deferred after it.
    (Its progress messages are not modelled.) *)
Definition background_run (order : list (string * Z)) (o : Orchestrator H) (index : nat) (run : PendingRun)
  : M (ServerState T H X Y) unit :=
  try_ (on_app (on_agent (Run busy o order (pr_TaskID run) (pr_SessionID run) (pr_Content run)))) ;;;
  modify (fun s => set_runs (delete index (sv_runs s)) s) ;;;
  run_ended run.

(** *** Tasks *)
Definition getTask (taskID : string) : Handler :=
  or_status true (app_store (GetTask taskID)) (fun value => ret (MkReply StatusOK (BTask value))).

Definition listTasks (session_id state limit : string) : Handler :=
  or_status false (app_store ListTasks) (fun values =>
  let sessionID := TrimSpace session_id in
  let state := ToUpper (TrimSpace state) in
  let raw := TrimSpace limit in
  let parsed := if String.eqb raw "" then Ok 100 else Atoi raw in
  match parsed with
  | Ok limit =>
    if (limit <? 1) || (500 <? limit) then ret (writeError StatusBadRequest (EMsg "limit must be within 1-500"))
    else
      let shown value := (String.eqb sessionID "" || String.eqb (tk_SessionID value) sessionID)
                         && (String.eqb state "" || String.eqb (tk_State value) state) in
      ret (MkReply StatusOK (BTasks (take (Z.to_nat limit) (List.filter shown values)) limit))
  | Err _ => ret (writeError StatusBadRequest (EMsg "limit must be within 1-500"))
  end).

(** *** Approvals *)
Definition no_approvals : Reply := writeError StatusServiceUnavailable (EMsg "approval store is not configured").

Definition listApprovals : Handler :=
  match resumer with
  | None => ret no_approvals
  | Some _ => or_status false (app_approvals List_) (fun values => ret (MkReply StatusOK (BApprovals values)))
  end.

Definition getApproval (approvalID : string) : Handler :=
  match resumer with
  | None => ret no_approvals
  | Some _ =>
    r <- try_ (app_approvals (Get approvalID)) ;;
    ret (match r with
         | Ok (value, Ok _) => MkReply StatusOK (BApproval value)
         | Ok (_, Err e) | Err e => writeError (if errors_is e ENOENT then StatusNotFound else StatusBadRequest) e
         end)
  end.

Definition resumed_message (state : string) : string :=
  if String.eqb state WaitingApproval then "前一动作已验证，下一受控动作正在等待独立审批"
  else if String.eqb state Completed then "审批后任务已执行、验证并完成"
  else if String.eqb state Cancelled then "审批被拒绝，任务已安全结束"
  else "审批结果已持久化，任务已自动恢复".

Definition publish_state (value : Task) (message : string) : M (ServerState T H X Y) unit :=
  modify (fun s => set_hub (publish (MkRuntimeEvent 0 "task.progress" (tk_ID value) (tk_State value) message (tk_UpdatedAt value)) (sv_hub s)) s).

(** The handler with its slot. *)
Definition resolve_and_resume (r : ApprovalResumer T H X Y) (approvalID : string) (approve : bool) (reason : string) : Handler :=
  resolved <- try_ (app_approvals (Resolve approvalID approve reason)) ;;
  match resolved with
  | Err e | Ok (_, Err e) => ret (writeError StatusConflict e)
  | Ok (record, Ok _) =>
    resumed <- try_ (on_app (Resume busy r record)) ;;
    let '(value, failed) := match resumed with Ok p => p | Err e => (zero_task, Some e) end in
    match failed with
    | Some e =>
      publish_state value ("审批后任务恢复失败：" +:+ error_text e) ;;;
      ret (MkReply StatusBadGateway (BResolved record value (Some e)))
    | None =>
      publish_state value (resumed_message (tk_State value)) ;;;
      ret (MkReply StatusOK (BResolved record value None))
    end
  end.

Definition resolveApproval (approvalID body : string) : Handler :=
  match resumer with
  | None => ret (writeError StatusServiceUnavailable (EMsg "approval workflow is not configured"))
  | Some r =>
    match decodeJSON dec_decision (MkDecision_ "" "") body with
    | Err e => ret (writeError StatusBadRequest e)
    | Ok input =>
      let decision := ToUpper (TrimSpace (dc_Decision input)) in
      if negb (String.eqb decision "APPROVE" || String.eqb decision "REJECT")
      then ret (writeError StatusBadRequest (EMsg "decision must be APPROVE or REJECT"))
      else
        reserved <- reserveTaskSlot ;;
        if negb reserved then ret (writeLimitError "concurrent task limit reached")
        else
          reply <- try_ (resolve_and_resume r approvalID (String.eqb decision "APPROVE") (dc_Reason input)) ;;
          releaseTaskSlot ;;;
          lift reply
    end
  end.

(** *** The start of the server *)

(** [resumeResolvedApprovals], one record after the other. *)
Fixpoint resume_each (r : ApprovalResumer T H X Y) (records : list ApprovalRecord) : M (ServerState T H X Y) unit :=
  match records with
  | [] => ret tt
  | record :: records =>
    (if string_in (ar_Status record) [Approved; Rejected; Expired]
     then try_ (on_app (Resume busy r record)) ;;; ret tt
     else ret tt) ;;;
    resume_each r records
  end.

Definition resumeResolvedApprovals (r : ApprovalResumer T H X Y) : M (ServerState T H X Y) unit :=
  records <- try_ (app_approvals List_) ;;
  match records with
  | Err _ => ret tt
  | Ok records => resume_each r records
  end.

(** A process that starts: nothing runs, the store is recovered and the
    decided approvals are resumed, before it listens. *)
Definition start_server : M (ServerState T H X Y) unit :=
  modify (fun s => MkServerState (sv_app s) ∅ 0%nat [] newEventHub) ;;;
  opened <- try_ (app_store (NewFileStore busy)) ;;
  match opened with
  | Err e => throw e
  | Ok _ =>
    match resumer with Some r => resumeResolvedApprovals r | None => ret tt end
  end.

(** The goroutine that then takes up the unfinished tasks. *)
Definition recover_tasks (order : list (string * Z)) : M (ServerState T H X Y) unit :=
  match agent with
  | Some o => try_ (on_app (on_agent (RecoverIncomplete busy o order))) ;;; ret tt
  | None => ret tt
  end.

(** ** Histories *)
Inductive request :=
  | Starts
  | Recovers (order : list (string * Z))
  | CreateSession (body : string)
  | ListSessions_ (q archived : string)
  | GetSession_ (sessionID : string)
  | UpdateSession_ (sessionID body : string)
  | CreateMessage (sessionID body : string)
  | RunEnds (order : list (string * Z)) (index : nat)
  | GetTask_ (taskID : string)
  | ListTasks_ (session_id state limit : string)
  | ListApprovals_
  | GetApproval_ (approvalID : string)
  | ResolveApproval (approvalID body : string).

(** What the client is answered; a run answers nobody. *)
Definition serve (q : request) : M (ServerState T H X Y) (option Reply) :=
  let answered (h : Handler) := reply <- h ;; ret (Some reply) in
  match q with
  | Starts => try_ start_server ;;; ret None
  | Recovers order => recover_tasks order ;;; ret None
  | CreateSession body => answered (createSession body)
  | ListSessions_ q archived => answered (listSessions q archived)
  | GetSession_ id => answered (getSession id)
  | UpdateSession_ id body => answered (updateSession id body)
  | CreateMessage id body => answered (createMessage id body)
  | RunEnds order index =>
    s <- get_st ;;
    match sv_runs s !! index, agent with
    | Some run, Some o => background_run order o index run ;;; ret None
    | _, _ => ret None
    end
  | GetTask_ id => answered (getTask id)
  | ListTasks_ session_id state limit => answered (listTasks session_id state limit)
  | ListApprovals_ => answered listApprovals
  | GetApproval_ id => answered (getApproval id)
  | ResolveApproval id body => answered (resolveApproval id body)
  end.

Fixpoint serve_all (l : list (Env * request)) (s : ServerState T H X Y) : ServerState T H X Y :=
  match l with
  | [] => s
  | (E, q) :: l => serve_all l (st (serve q E (init_world s)).2)
  end.
End Server.

(** ** The allowlist and the logs *)
Definition dec_managed_roots : decoder (option (list string)) :=
  dec_strict ["managed_roots"] (fun l p => dec_field "managed_roots" dec_strings l p).

Record DirectoryName := MkDirectoryName { dn_Parent : string; dn_Name : string }.
Definition dec_directory : decoder DirectoryName := dec_strict ["parent"; "name"] (fun l p =>
  let+ parent := dec_field "parent" dec_string l (dn_Parent p) in
  let+ name := dec_field "name" dec_string l (dn_Name p) in
  Some (MkDirectoryName parent name)).

Definition no_allowlist : Reply :=
  writeError StatusServiceUnavailable (EMsg "executor allowlist configuration is not enabled").

Section Allowlist.
Context {H : Type} `{Machine H} `{OsRoot H} `{UnicodeCase} `{ConfigYaml} (agent : option (Orchestrator H)).

(** [s.agent != nil && s.agent.Actions != nil && s.agent.FileTargets != nil] *)
Definition write_actions : bool :=
  match agent with
  | Some o => match o_Actions o, o_FileTargets o with Some _, Some _ => true | _, _ => false end
  | None => false
  end.

Definition with_writes (s : AllowlistStatus) : AllowlistStatus :=
  MkAllowlistStatus (al_ConfigPath s) (al_ReadOnlyRoots s) (al_ManagedRoots s) (al_CandidateRoots s) (al_AllowedFileRoots s)
    (al_QuarantineRoot s) (al_MissingRoots s) (al_RequiresExecutorRestart s) write_actions (al_UpdatedAt s).

Definition getExecutorAllowlist (m : option (ConfigManager H)) : M (Hosted H) Reply :=
  match m with
  | None => ret no_allowlist
  | Some m => status <- Status m ;; ret (MkReply StatusOK (BAllowlist (with_writes status)))
  end.

(** With the manager afterwards. *)
Definition putExecutorAllowlist (m : option (ConfigManager H)) (body : string)
  : M (Hosted H) (Reply * option (ConfigManager H)) :=
  match m with
  | None => ret (no_allowlist, m)
  | Some manager =>
    match decodeJSON dec_managed_roots None body with
    | Err e => ret (writeError StatusBadRequest e, m)
    | Ok roots =>
      updated <- try_ (UpdateManagedRoots manager (default [] roots)) ;;
      ret (match updated with
           | Ok (status, manager) => (MkReply StatusOK (BAllowlist (with_writes status)), Some manager)
           | Err e =>
             (writeError (if errors_is_sentinel e "invalid managed roots" then StatusBadRequest else StatusInternalServerError) e, m)
           end)
    end
  end.

Definition browseExecutorPath (m : option (ConfigManager H)) (path mode limit : string) : M H Reply :=
  match m with
  | None => ret no_allowlist
  | Some m =>
    let raw := TrimSpace limit in
    match (if String.eqb raw "" then Ok 200 else Atoi raw) with
    | Err _ => ret (writeError StatusBadRequest (EMsg "limit must be a number"))
    | Ok limit =>
      browser <- try_ (BrowsePath m path mode limit) ;;
      ret (match browser with
           | Ok browser => MkReply StatusOK (BBrowser browser)
           | Err e => writeError StatusBadRequest e
           end)
    end
  end.

Definition createExecutorDirectory (m : option (ConfigManager H)) (body : string) : M H Reply :=
  match m with
  | None => ret no_allowlist
  | Some m =>
    match decodeJSON dec_directory (MkDirectoryName "" "") body with
    | Err e => ret (writeError StatusBadRequest e)
    | Ok input =>
      browser <- try_ (CreateDirectory m (dn_Parent input) (dn_Name input)) ;;
      ret (match browser with
           | Ok browser => MkReply StatusCreated (BBrowser browser)
           | Err e => writeError StatusBadRequest e
           end)
    end
  end.
End Allowlist.

Definition getTrace `{EventDecoder} `{UnicodeCase} `{TimeText} `{SecretPatterns} (taskID : string) : M TraceDir Reply :=
  verified <- try_ (on_task taskID (VerifyIntegrity taskID)) ;;
  match verified with
  | Err e => ret (writeError StatusConflict e)
  | Ok _ =>
    events <- try_ (on_task taskID (Trace.Read taskID)) ;;
    ret (match events with
         | Err e => writeError StatusNotFound e
         | Ok events => MkReply StatusOK (BTrace events)
         end)
  end.

(** ** The tool servers *)
Section ToolServers.
Context {H X : Type} `{Machine H} `{PathLookup H} `{McpLibrary X}.

Definition health : M (Registry H X) Reply :=
  r <- get_st ;;
  let states := States r in
  let healthy := forallb (fun s => negb (mf_Enabled (ss_Manifest s) && negb (String.eqb (ss_Status s) StatusHealthy))) states in
  ret (MkReply (if healthy then StatusOK else StatusServiceUnavailable) (BHealth healthy states)).

Definition mcpServers : M (Registry H X) Reply := r <- get_st ;; ret (MkReply StatusOK (BServers (States r))).

Definition changeMCPServer (serverID : string) (operation : string -> M (Registry H X) unit) : M (Registry H X) Reply :=
  done <- try_ (operation serverID) ;;
  match done with
  | Err e => ret (writeError (if Contains (error_text e) "unknown MCP server" then StatusNotFound else StatusConflict) e)
  | Ok _ =>
    r <- get_st ;;
    ret (match List.find (fun s => String.eqb (mf_ID (ss_Manifest s)) serverID) (States r) with
         | Some s => MkReply StatusOK (BServer s)
         | None => writeError StatusNotFound (EMsg "MCP server state not found")
         end)
  end.

Definition enableMCPServer (serverID : string) := changeMCPServer serverID (fun id => SetEnabled id true).
Definition disableMCPServer (serverID : string) := changeMCPServer serverID (fun id => SetEnabled id false).
Definition rediscoverMCPServer (serverID : string) := changeMCPServer serverID Discover.
Definition healthMCPServer (serverID : string) := changeMCPServer serverID Health.
End ToolServers.

(** ** The books of the server *)
Section Books.
Context {T H X Y : Type} `{TraceSink T} `{TraceReader T} `{Outside X} `{HealthVerifier X} `{UnicodeCase} `{UnicodeUpper} `{TimeText} `{TimeParse}
  `{LocalDate} `{Regexp} `{Sprinter} `{ManagedPatterns} `{PlannerPatterns} `{EnvelopeDecoder} (busy : nat) (limits : Limits)
  (agent : option (Orchestrator H)) (resumer : option (ApprovalResumer T H X Y)).

Abbreviation State := (ServerState T H X Y).
Abbreviation Handler := (M State Reply).

(** Each pending run holds a slot and its session, and no session has two. *)
Record bookkept (s : State) : Prop := {
  bk_slots : sv_taskSlots s = length (sv_runs s);
  bk_limit : Z.of_nat (sv_taskSlots s) <= MaxConcurrentTasks limits;
  bk_running : sv_runningSessions s = list_to_set (pr_SessionID <$> sv_runs s);
  bk_once : NoDup (pr_SessionID <$> sv_runs s)
}.

(** Nothing about the runs has changed. *)
Definition same_books (s s' : State) : Prop :=
  sv_taskSlots s' = sv_taskSlots s /\ sv_runs s' = sv_runs s /\ sv_runningSessions s' = sv_runningSessions s.

#[local] Instance same_books_preorder : PreOrder same_books.
Proof. split; [by split|]. intros a b c (H1'&H2'&H3') (H4'&H5'&H6'). unfold same_books. repeat split; congruence. Qed.

Lemma bookkept_same s s' : same_books s s' -> bookkept s -> bookkept s'.
Proof. intros (E1&E2&E3) []. split; rewrite ?E1, ?E2, ?E3; done. Qed.

Abbreviation quiet_books m := (obeys (on_st same_books) m).

Lemma books_on_app {A} (m : M (ResumeState T H X Y) A) : quiet_books (on_app m).
Proof. apply wp_obeys. intros E s. apply wp_zoom, wp_any. by intros r v. Qed.

Lemma books_or_status {A} b (m : M State A) (k : A -> Handler) :
  quiet_books m -> (forall a, quiet_books (k a)) -> quiet_books (or_status b m k).
Proof. intros Hm Hk. unfold or_status. apply obeys_bind; [apply _|by apply obeys_try|]. intros [a|e]; [apply Hk|apply obeys_ret, _]. Qed.

Lemma books_publish value message : quiet_books (publish_state (T := T) (H := H) (X := X) (Y := Y) value message).
Proof. apply obeys_modify. by intros s. Qed.

#[local] Hint Resolve books_on_app books_or_status books_publish : io.
Ltac books := unfold app_store, app_approvals; cbv zeta; obeys_walk; try (apply books_or_status; [solve [eauto with io]|intros ?; books]).

Lemma books_createSession body : quiet_books (createSession (Y := Y) (X := X) (T := T) (H := H) busy limits body).
Proof. unfold createSession. books. Qed.

Lemma books_listSessions q archived : quiet_books (listSessions (Y := Y) (X := X) (T := T) (H := H) q archived).
Proof. unfold listSessions. books. Qed.

Lemma books_getSession id : quiet_books (getSession (Y := Y) (X := X) (T := T) (H := H) id).
Proof. unfold getSession. books. Qed.

Lemma books_updateSession id body : quiet_books (updateSession (Y := Y) (X := X) (T := T) (H := H) busy id body).
Proof. unfold updateSession, may_archive. books. Qed.

Lemma books_getTask id : quiet_books (getTask (Y := Y) (X := X) (T := T) (H := H) id).
Proof. unfold getTask. books. Qed.

Lemma books_listTasks session_id state limit : quiet_books (listTasks (Y := Y) (X := X) (T := T) (H := H) session_id state limit).
Proof. unfold listTasks. books. Qed.

Lemma books_listApprovals : quiet_books (listApprovals (X := X) (T := T) resumer).
Proof. unfold listApprovals. books. Qed.

Lemma books_getApproval id : quiet_books (getApproval (X := X) (T := T) resumer id).
Proof. unfold getApproval. books. Qed.

Lemma books_resolve r id approve reason : quiet_books (resolve_and_resume (X := X) (T := T) (Y := Y) busy r id approve reason).
Proof. unfold resolve_and_resume. books. Qed.

Lemma books_resume_each r records : quiet_books (resume_each (X := X) (T := T) (Y := Y) busy r records).
Proof. induction records as [|record records IH]; cbn [resume_each]; books. Qed.

#[local] Hint Resolve books_resume_each : io.

(** A slot is only taken when one is free. *)
Lemma wp_reserve E (Q : result bool -> State -> Prop) s :
  (Z.of_nat (sv_taskSlots s) < MaxConcurrentTasks limits -> Q (Ok true) (set_slots (S (sv_taskSlots s)) s)) ->
  (MaxConcurrentTasks limits <= Z.of_nat (sv_taskSlots s) -> Q (Ok false) s) -> wp E (reserveTaskSlot limits) Q s.
Proof.
  intros H1' H2'. unfold reserveTaskSlot. apply wp_bind, wp_get.
  destruct (Z.ltb_spec (Z.of_nat (sv_taskSlots s)) (MaxConcurrentTasks limits)); [|by apply wp_ret, H2'].
  apply wp_bind, wp_modify, wp_ret. by apply H1'.
Qed.

(** What [accept_message] leaves of the books. *)
Lemma accept_books E o sessionID content s :
  bookkept s -> sessionID ∉ sv_runningSessions s ->
  wp E (accept_message (T := T) (X := X) (Y := Y) busy limits o sessionID content) (fun r s' => exists reply, r = Ok reply /\
    ((exists taskID, reply = MkReply StatusAccepted (BAccepted taskID sessionID) /\
        Z.of_nat (sv_taskSlots s) < MaxConcurrentTasks limits /\
        sv_runs s' = sv_runs s ++ [MkPendingRun taskID sessionID content] /\
        sv_taskSlots s' = S (sv_taskSlots s) /\ sv_runningSessions s' = {[sessionID]} ∪ sv_runningSessions s)
     \/ same_books s s' /\ rp_status reply <> StatusAccepted)) s.
Proof.
  intros Hb Hn. unfold accept_message. apply wp_bind, wp_reserve; intros Hslot; cbn [negb].
  2: { apply wp_ret. eexists. split; [done|]. by right. }
  apply wp_bind, wp_modify, wp_bind, wp_new_id. intros n. cbv zeta. apply wp_bind, wp_try.
  eapply wp_mono; [apply obeys_wp, books_on_app|]. cbn [set_running set_slots sv_taskSlots sv_runs sv_runningSessions].
  intros r s' (E1&E2&E3). cbn in E1, E2, E3.
  assert (Hend : forall e, wp E (run_ended (T := T) (H := H) (X := X) (Y := Y) (MkPendingRun ("task_" +:+ rand E n) sessionID content) ;;;
      ret (writeError StatusInternalServerError e)) (fun r s'' => exists reply, r = Ok reply /\
    ((exists taskID, reply = MkReply StatusAccepted (BAccepted taskID sessionID) /\
        Z.of_nat (sv_taskSlots s) < MaxConcurrentTasks limits /\
        sv_runs s'' = sv_runs s ++ [MkPendingRun taskID sessionID content] /\
        sv_taskSlots s'' = S (sv_taskSlots s) /\ sv_runningSessions s'' = {[sessionID]} ∪ sv_runningSessions s)
     \/ same_books s s'' /\ rp_status reply <> StatusAccepted)) s').
  { intros e. unfold run_ended, releaseTaskSlot. apply wp_bind, wp_bind, wp_modify, wp_modify, wp_ret. eexists. split; [done|]. right.
    split; [|done]. unfold same_books. cbn. rewrite E1, E2, E3. cbn. repeat split. set_solver. }
  destruct r as [[value [e|]]|e]; [apply Hend| |apply Hend].
  apply wp_bind, wp_modify, wp_ret. eexists. split; [done|]. left. exists ("task_" +:+ rand E n). cbn. by rewrite E1, E2, E3.
Qed.

Lemma books_resumeResolved r : quiet_books (resumeResolvedApprovals (X := X) (T := T) (Y := Y) busy r).
Proof. unfold resumeResolvedApprovals. books. Qed.

#[local] Hint Resolve books_resumeResolved : io.

Lemma books_started (b : result unit) :
  quiet_books (match b with
    | Err e => throw e
    | Ok _ => match resumer with Some r => resumeResolvedApprovals (X := X) (T := T) (Y := Y) busy r | None => ret tt end
    end).
Proof. destruct b; books. Qed.

Lemma books_recover order : quiet_books (recover_tasks (X := X) (T := T) (Y := Y) busy agent order).
Proof. unfold recover_tasks. books. Qed.

(** ** Histories keep the books *)
Definition keeps {A} (m : M State A) : Prop := forall E s, bookkept s -> wp E m (fun _ s' => bookkept s') s.

Lemma keeps_same {A} (m : M State A) : quiet_books m -> keeps m.
Proof. intros Hm E s Hb. eapply wp_mono; [apply obeys_wp, Hm|]. intros r s' Hs. exact (bookkept_same _ _ Hs Hb). Qed.

Lemma keeps_answered (h : Handler) : keeps h -> keeps (reply <- h ;; ret (Some reply)).
Proof.
  intros Hh E s Hb. apply wp_bind. eapply wp_mono; [by apply Hh|]. intros [r|e] s' Hb'; [by apply wp_ret|done].
Qed.

Lemma keeps_started : 0 <= MaxConcurrentTasks limits ->
  keeps (start_server (X := X) (T := T) (Y := Y) busy resumer).
Proof.
  intros Hl E s _. unfold start_server. apply wp_bind, wp_modify, wp_bind, wp_try.
  eapply wp_mono; [apply obeys_wp, books_on_app|]. intros r s' Hs.
  cbn beta iota. eapply wp_mono; [apply obeys_wp, (books_started r)|]. intros r' s'' Hs'.
  eapply bookkept_same; [exact Hs'|]. eapply bookkept_same; [exact Hs|]. split; cbn; [done|lia|done|constructor].
Qed.

Lemma bookkept_accepted s s' taskID sessionID content :
  bookkept s -> sessionID ∉ sv_runningSessions s ->
  Z.of_nat (sv_taskSlots s) < MaxConcurrentTasks limits ->
  sv_runs s' = sv_runs s ++ [MkPendingRun taskID sessionID content] ->
  sv_taskSlots s' = S (sv_taskSlots s) -> sv_runningSessions s' = {[sessionID]} ∪ sv_runningSessions s -> bookkept s'.
Proof.
  intros [Hs Hl Hr Ho] Hn Hf E1 E2 E3. split.
  - rewrite E1, E2, length_app, Hs. cbn. lia.
  - rewrite E2. lia.
  - rewrite E1, E3, Hr, fmap_app. cbn. set_solver.
  - rewrite E1, fmap_app. apply NoDup_app. split; [done|]. split; [|apply NoDup_singleton].
    intros x Hx ->%list_elem_of_singleton. apply Hn. rewrite Hr. by apply elem_of_list_to_set.
Qed.

Lemma keeps_accept o sessionID content E s :
  bookkept s -> sessionID ∉ sv_runningSessions s ->
  wp E (accept_message (T := T) (X := X) (Y := Y) busy limits o sessionID content) (fun _ s' => bookkept s') s.
Proof.
  intros Hb Hn. eapply wp_mono; [by apply accept_books|]. intros r s' (reply&->&Hcase).
  destruct Hcase as [(taskID&_&Hf&E1&E2&E3)|[Hs _]]; [by eapply bookkept_accepted|exact (bookkept_same _ _ Hs Hb)].
Qed.

Lemma keeps_or_status {A} b (m : M State A) (k : A -> Handler) E (Q : result Reply -> State -> Prop) s :
  quiet_books m -> (forall s' reply, same_books s s' -> Q (Ok reply) s') ->
  (forall a s', same_books s s' -> wp E (k a) Q s') -> wp E (or_status b m k) Q s.
Proof.
  intros Hm Hq Hk. unfold or_status. apply wp_bind, wp_try. eapply wp_mono; [apply obeys_wp, Hm|].
  intros [a|e] s' Hs; cbn beta iota; [by apply Hk|]. apply wp_ret. by apply Hq.
Qed.

Lemma keeps_createMessage sessionID body :
  keeps (createMessage (X := X) (T := T) (Y := Y) busy limits agent sessionID body).
Proof.
  intros E s Hb. unfold createMessage. destruct (decodeJSON _ _ _) as [content|e]; [|by apply wp_ret].
  destruct (String.eqb (TrimSpace content) ""); [by apply wp_ret|].
  apply keeps_or_status; [apply books_on_app|by eauto using bookkept_same|]. intros current s1 Hs1.
  pose proof (bookkept_same _ _ Hs1 Hb) as Hb1.
  destruct (sn_Archived current); [by apply wp_ret|]. destruct agent as [o|]; [|by apply wp_ret].
  apply wp_bind, wp_get. cbn beta iota. case_bool_decide as Hn; [by apply wp_ret|].
  apply keeps_or_status; [apply books_on_app|by eauto using bookkept_same|]. intros values s2 Hs2.
  pose proof (bookkept_same _ _ Hs2 Hb1) as Hb2. destruct (active_task values sessionID); [by apply wp_ret|].
  destruct (MaxTasks limits <=? _); [by apply wp_ret|]. apply keeps_accept; [done|]. destruct Hs2 as (_&_&->). done.
Qed.

(** The run that ends gives back its slot and its session. *)
Lemma bookkept_ended s s' index run :
  bookkept s -> sv_runs s !! index = Some run -> sv_runs s' = delete index (sv_runs s) ->
  sv_taskSlots s' = pred (sv_taskSlots s) ->
  sv_runningSessions s' = sv_runningSessions s ∖ {[pr_SessionID run]} -> bookkept s'.
Proof.
  intros [Hs Hl Hr Ho] Hi E1 E2 E3. pose proof (delete_Permutation _ _ _ Hi) as Hp.
  pose proof (fmap_Permutation pr_SessionID _ _ Hp) as Hp'. cbn in Hp'. rewrite Hp' in Ho. apply NoDup_cons in Ho as [Hx Ho].
  split.
  - rewrite E1, E2, Hs. apply Permutation_length in Hp as ->. done.
  - rewrite E2. lia.
  - rewrite E1, E3, Hr. apply set_eq. intros x. rewrite elem_of_difference, !elem_of_list_to_set, elem_of_singleton, Hp'.
    rewrite elem_of_cons. split; [tauto|]. intros Hin. split; [by right|]. by intros ->.
  - by rewrite E1.
Qed.

Lemma keeps_RunEnds order o index run E s :
  bookkept s -> sv_runs s !! index = Some run ->
  wp E (background_run (X := X) (T := T) (Y := Y) busy order o index run) (fun _ s' => bookkept s') s.
Proof.
  intros Hb Hi. unfold background_run. apply wp_bind, wp_try. eapply wp_mono; [apply obeys_wp, books_on_app|].
  intros r s' (E1&E2&E3). cbn beta iota. unfold run_ended, releaseTaskSlot.
  apply wp_bind, wp_modify, wp_bind, wp_modify, wp_modify.
  eapply bookkept_ended; [exact Hb|exact Hi|..]; cbn; by rewrite ?E1, ?E2, ?E3.
Qed.

Lemma keeps_resolveApproval id body : keeps (resolveApproval (X := X) (T := T) (Y := Y) busy limits resumer id body).
Proof.
  intros E s Hb. unfold resolveApproval. destruct resumer as [r|]; [|by apply wp_ret].
  destruct (decodeJSON _ _ _) as [input|e]; [|by apply wp_ret]. cbv zeta. destruct (negb _); [by apply wp_ret|].
  apply wp_bind, wp_reserve; intros Hf; cbn [negb]; [|by apply wp_ret].
  assert (Hrel : forall s', same_books (set_slots (S (sv_taskSlots s)) s) s' -> bookkept (set_slots (pred (sv_taskSlots s')) s')).
  { intros s' (E1&E2&E3). refine (bookkept_same _ _ _ Hb). unfold same_books. cbn in *. rewrite E1, E2, E3. done. }
  apply wp_bind, wp_try. eapply wp_mono; [apply obeys_wp, books_resolve|]. intros reply s' Hs; cbn beta iota.
  apply wp_bind, wp_modify, wp_lift. by apply Hrel.
Qed.



Lemma keeps_serve q : 0 <= MaxConcurrentTasks limits ->
  keeps (serve (X := X) (T := T) (Y := Y) busy limits agent resumer q).
Proof.
  intros Hl. destruct q; cbn [serve].
  3,4,5,6,9,10,11,12: apply keeps_answered, keeps_same; auto using books_createSession, books_listSessions, books_getSession,
    books_updateSession, books_getTask, books_listTasks, books_listApprovals, books_getApproval.
  - intros E s Hb. apply wp_bind, wp_try. eapply wp_mono; [by apply keeps_started|]. intros r s' Hb'. by apply wp_ret.
  - apply keeps_same. eapply obeys_bind; [apply _|apply books_recover|]. intros ?. apply obeys_ret, _.
  - apply keeps_answered, keeps_createMessage.
  - intros E s Hb. apply wp_bind, wp_get. cbn beta iota. destruct (sv_runs s !! index) as [run|] eqn:Hi; [|by apply wp_ret].
    destruct agent as [o|]; [|by apply wp_ret]. apply wp_bind. eapply wp_mono; [by apply keeps_RunEnds|].
    intros [r|e] s' Hb'; [by apply wp_ret|done].
  - apply keeps_answered, keeps_resolveApproval.
Qed.

(** C24: the limit on concurrent runs.  Whatever requests are served, whatever
    runs end and in which order, and across restarts, the runs in the
    background are at most [MaxConcurrentTasks], each holds one slot and its
    session is marked as running; no session has two runs, and no slot is
    lost: a run that ends or is refused gives its slot back. *)
Theorem runs_limited (Hl : 0 <= MaxConcurrentTasks limits) (l : list (Env * request)) (s : State) (Hb : bookkept s) :
  bookkept (serve_all (X := X) (T := T) (Y := Y) busy limits agent resumer l s).
Proof.
  revert s Hb. induction l as [|[E q] l IH]; intros s Hb; cbn [serve_all]; [done|]. apply IH.
  exact (keeps_serve q Hl E s Hb (init_world s) eq_refl).
Qed.

End Books.
