(* ===== verification/Settings.v ===== *)
(** * The planner's settings: [internal/llm/settings.go], [runtime.go] and the
    console's handlers

    The file that keeps the endpoint, the key and the model; the provider the
    agent asks, which the console configures while it runs; the handlers that
    read, change and delete the settings ([internal/api/server.go]); and the
    start of the server, which reads the file and, without one, the
    environment ([cmd/safeops-server/main.go]). *)

From S2P Require Import Prelude GoStrings GoText GoPath Json Unicode Contracts Platform Targets Rollback Planner Trace Store Agent Decode Resume Wire Llm Api.
Open Scope Z_scope.

(** ** The file *)

Record StoredConfig := MkStoredConfig {
  stc_SchemaVersion : Z;
  stc_BaseURL : string;
  stc_APIKey : string;
  stc_Model : string;
  stc_UpdatedAt : Z
}.

Section Text.
Context `{TimeText} `{TimeParse}.

Definition stored_fields (c : StoredConfig) : list (string * json) :=
  [("schema_version", JInt (stc_SchemaVersion c)); ("base_url", JStr (stc_BaseURL c)); ("api_key", JStr (stc_APIKey c));
   ("model", JStr (stc_Model c)); ("updated_at", JStr (time_text (stc_UpdatedAt c)))].

(** [json.MarshalIndent] of a struct whose fields are not nested. *)
Definition indent_line (kv : string * json) : string :=
  String newline "  " +:+ quote kv.1 +:+ ": " +:+ print kv.2.
Definition MarshalIndent (l : list (string * json)) : string :=
  "{" +:+ Join (map indent_line l) "," +:+ String newline "}".

Definition stored_text (c : StoredConfig) : string := MarshalIndent (stored_fields c) +:+ String newline "".

Definition zero_stored : StoredConfig := MkStoredConfig 0 "" "" "" zero_time.
Definition dec_stored : decoder StoredConfig := dec_struct (fun l p =>
  let+ schema := dec_field "schema_version" dec_int l (stc_SchemaVersion p) in
  let+ base := dec_field "base_url" dec_string l (stc_BaseURL p) in
  let+ key := dec_field "api_key" dec_string l (stc_APIKey p) in
  let+ model := dec_field "model" dec_string l (stc_Model p) in
  let+ updated := dec_field "updated_at" dec_time l (stc_UpdatedAt p) in
  Some (MkStoredConfig schema base key model updated)).

(** [json.Unmarshal] *)
Definition Unmarshal_stored (b : string) : result StoredConfig :=
  match parse b with
  | Some j => match dec_stored j zero_stored with Some c => Ok c | None => Err (EMsg "json: cannot unmarshal") end
  | None => Err (EMsg "json: invalid document")
  end.

(** The checks of [Load] on what the file says. *)
Definition read_stored (b : string) : result StoredConfig :=
  let? config := Unmarshal_stored b in
  let? _ := guard_ (negb (stc_SchemaVersion config =? 1)) (EMsg "unsupported LLM settings schema") in
  let config := MkStoredConfig (stc_SchemaVersion config) (TrimSpace (stc_BaseURL config)) (TrimSpace (stc_APIKey config))
                  (TrimSpace (stc_Model config)) (stc_UpdatedAt config) in
  let? _ := guard_ (String.eqb (stc_BaseURL config) "" || String.eqb (stc_APIKey config) "" || String.eqb (stc_Model config) "")
              (EMsg "stored LLM settings are incomplete") in
  Ok config.

Definition to_config (c : StoredConfig) : LLMConfig := MkLLMConfig (stc_BaseURL c) (stc_APIKey c) (stc_Model c).

(** The store's file: its bytes, with permissions 0600. *)
Definition SettingsFile : Type := option string.

Definition Load : M SettingsFile StoredConfig :=
  read <- try_ (sys (fun s => match s with Some b => Ok (b, s) | None => Err (ESys ENOENT) end)) ;;
  match read with
  | Err e => throw (if errors_is e ENOENT then ErrNotConfigured else e)
  | Ok b => lift (read_stored b)
  end.

Definition trimmed (config : LLMConfig) : LLMConfig :=
  MkLLMConfig (TrimSpace (lc_BaseURL config)) (TrimSpace (lc_APIKey config)) (TrimSpace (lc_Model config)).
Definition incomplete (config : LLMConfig) : bool :=
  String.eqb (lc_BaseURL config) "" || String.eqb (lc_APIKey config) "" || String.eqb (lc_Model config) "".
Definition stored_of (config : LLMConfig) (updatedAt : Z) : StoredConfig :=
  MkStoredConfig 1 (lc_BaseURL (trimmed config)) (lc_APIKey (trimmed config)) (lc_Model (trimmed config)) updatedAt.

(** [MkdirAll]; create, chmod, write, sync and close the temporary file;
    rename it; open, sync and close the directory ([syncDirectory]). *)
Definition Save (config : LLMConfig) (updatedAt : Z) : M SettingsFile StoredConfig :=
  updatedAt <- (if updatedAt =? zero_time then now else ret updatedAt) ;;
  let stored := stored_of config updatedAt in
  lift (guard_ (incomplete (trimmed config)) (EMsg "base_url, api_key, and model are required")) ;;;
  atomic_write 6 3 (fun _ => Some (stored_text stored)) ;;;
  ret stored.

Definition Delete : M SettingsFile unit :=
  removed <- try_ (sys (fun s => match s with Some _ => Ok (tt, None) | None => Err (ESys ENOENT) end)) ;;
  match removed with
  | Err e => if errors_is e ENOENT then ret tt else throw e
  | Ok _ => probes 3
  end.
End Text.

(** ** [runtime.go] *)

Record PublicConfig := MkPublicConfig {
  pc_Configured : bool;
  pc_BaseURL : string;
  pc_Model : string;
  pc_APIKeyConfigured : bool;
  pc_Source : string;
  pc_UpdatedAt : option Z;
  pc_LastConfiguration : string
}.
Definition not_configured : PublicConfig := MkPublicConfig false "" "" false "" None "not configured".

Record RuntimeProvider := MkRuntimeProvider {
  ru_provider : option OpenAICompatible;
  ru_config : LLMConfig;
  ru_public : PublicConfig
}.

Definition NewRuntimeProvider : RuntimeProvider :=
  MkRuntimeProvider None no_config (MkPublicConfig false "" "" false "" None "").

Section Runtime.
Context `{UnicodeClass} `{MapRange} `{UrlLibrary} {X : Type} `{HttpClient X}.

Definition Configure (config : LLMConfig) (source : string) (updatedAt : Z) : M RuntimeProvider unit :=
  provider <- lift (NewOpenAICompatible config) ;;
  updatedAt <- (if updatedAt =? zero_time then now else ret updatedAt) ;;
  let source := if blank source then "runtime" else TrimSpace source in
  let kept := trimmed config in
  put_st (MkRuntimeProvider (Some provider) kept
    (MkPublicConfig true (lc_BaseURL kept) (lc_Model kept) (given (lc_APIKey kept)) source (Some updatedAt) "configured")).

Definition Clear : M RuntimeProvider unit := put_st (MkRuntimeProvider None no_config not_configured).

Definition Status (p : RuntimeProvider) : PublicConfig :=
  if pc_Configured (ru_public p) then ru_public p else not_configured.

(** [RuntimeProvider.Decide]: the provider of the moment. *)
Definition RuntimeDecide (p : RuntimeProvider) (input : DecisionRequest) (deadline : Z) : M (Line X) Planner.Decision_ :=
  match ru_provider p with
  | None => throw ErrNotConfigured
  | Some provider => Decide provider input deadline
  end.
End Runtime.

(** ** The console and the start of the server *)

Record LlmState := MkLlmState {
  lm_provider : RuntimeProvider;
  lm_file : SettingsFile
}.

Definition on_provider {A} (m : M RuntimeProvider A) : M LlmState A :=
  zoom lm_provider (fun v s => MkLlmState v (lm_file s)) m.
Definition on_file {A} (m : M SettingsFile A) : M LlmState A :=
  zoom lm_file (fun v s => MkLlmState (lm_provider s) v) m.

Inductive LlmBody :=
  | LStatus (status : PublicConfig)
  | LError (e : error).

Record LlmReply := MkLlmReply {
  lr_status : Z;
  lr_body : LlmBody
}.

Definition refuse (status : Z) (e : error) : LlmReply := MkLlmReply status (LError e).

Definition config_fields : list string := ["base_url"; "api_key"; "model"].
Definition dec_config : decoder LLMConfig := dec_strict config_fields (fun l p =>
  let+ base := dec_field "base_url" dec_string l (lc_BaseURL p) in
  let+ key := dec_field "api_key" dec_string l (lc_APIKey p) in
  let+ model := dec_field "model" dec_string l (lc_Model p) in
  Some (MkLLMConfig base key model)).

Section Console.
Context `{TimeText} `{TimeParse} `{UrlLibrary}.

(** [WithLLM] gave the server a provider and a store. *)
Variable enabled : bool.

Definition getLLMConfig : M LlmState LlmReply :=
  if negb enabled then ret (refuse StatusServiceUnavailable (EMsg "LLM runtime provider is not configured"))
  else s <- get_st ;; ret (MkLlmReply StatusOK (LStatus (Status (lm_provider s)))).

(** The key of the running provider is kept when none is given. *)
Definition asked_config (input current : LLMConfig) : LLMConfig :=
  let config := trimmed input in
  if String.eqb (lc_APIKey config) "" && negb (blank (lc_APIKey current))
  then MkLLMConfig (lc_BaseURL config) (lc_APIKey current) (lc_Model config)
  else config.

Definition putLLMConfig (body : string) : M LlmState LlmReply :=
  if negb enabled then ret (refuse StatusServiceUnavailable (EMsg "LLM runtime configuration is not enabled"))
  else
    match decodeJSON dec_config no_config body with
    | Err e => ret (refuse StatusBadRequest e)
    | Ok input =>
      s <- get_st ;;
      let config := asked_config input (ru_config (lm_provider s)) in
      if incomplete config
      then ret (refuse StatusBadRequest
             (EMsg "base_url, api_key, and model are required; api_key may be omitted only to keep an existing key"))
      else
        match NewOpenAICompatible config with
        | Err e => ret (refuse StatusBadRequest e)
        | Ok _ =>
          t <- now ;;
          saved <- try_ (on_file (Save config t)) ;;
          match saved with
          | Err e => ret (refuse StatusInternalServerError e)
          | Ok stored =>
            configured <- try_ (on_provider (Configure (to_config stored) "web" (stc_UpdatedAt stored))) ;;
            match configured with
            | Err e => ret (refuse StatusInternalServerError e)
            | Ok _ => s <- get_st ;; ret (MkLlmReply StatusOK (LStatus (Status (lm_provider s))))
            end
          end
        end
    end.

Definition deleteLLMConfig : M LlmState LlmReply :=
  if negb enabled then ret (refuse StatusServiceUnavailable (EMsg "LLM runtime configuration is not enabled"))
  else
    deleted <- try_ (on_file Delete) ;;
    match deleted with
    | Err e => ret (refuse StatusInternalServerError e)
    | Ok _ => on_provider Clear ;;; s <- get_st ;; ret (MkLlmReply StatusOK (LStatus (Status (lm_provider s))))
    end.

(** [ConfigFromEnv] on the values of the three variables. *)
Definition ConfigFromEnv (variables : LLMConfig) : result LLMConfig :=
  let config := trimmed variables in
  if String.eqb (lc_BaseURL config) "" && String.eqb (lc_APIKey config) "" && String.eqb (lc_Model config) "" then Err ErrNotConfigured
  else if incomplete config
  then Err (EMsg "SAFEOPS_LLM_BASE_URL, SAFEOPS_LLM_API_KEY, and SAFEOPS_LLM_MODEL must be configured together")
  else Ok config.

Definition not_configured_error (e : error) : bool := errors_is_sentinel e "OpenAI-compatible provider is not configured".

(** The start of the server; an error is [log.Fatal]. *)
Definition start_planner (variables : LLMConfig) : M LlmState unit :=
  modify (fun s => MkLlmState NewRuntimeProvider (lm_file s)) ;;;
  loaded <- try_ (on_file Load) ;;
  match loaded with
  | Ok stored => on_provider (Configure (to_config stored) "web" (stc_UpdatedAt stored))
  | Err e =>
    if negb (not_configured_error e) then throw e
    else
      match ConfigFromEnv variables with
      | Err e => if not_configured_error e then ret tt else throw e
      | Ok config => t <- now ;; on_provider (Configure config "env" t)
      end
  end.
End Console.

(** ** The file is read as it was written *)
Section Readable.
Context `{TimeText} `{!TimeTextOk} `{TimeParse} `{!TimeRoundtrip}.

Lemma parse_key_indent k rest :
  valid_utf8 k = true -> parse_key (String newline "  " +:+ quote k +:+ ":" +:+ rest) = Some (k, rest).
Proof. intros Hk. exact (parse_key_quote k rest Hk). Qed.

Lemma parse_val_blank n s : parse_val n (String " " s) = parse_val n s.
Proof. destruct n; reflexivity. Qed.

Lemma parse_fields_indent l n rest :
  l <> [] -> Forall (fun kv => valid_utf8 kv.1 = true /\ wf_json kv.2 = true) l ->
  (total (map (fun kv => 1 + size kv.2) l) <= n)%nat ->
  parse_fields n (Join (map indent_line l) "," +:+ String newline "}" +:+ rest) = Some (l, rest).
Proof.
  revert n. induction l as [|[k j] l IH]; intros n Hne HF Hn; [done|]. apply Forall_cons in HF as [[Hk Hj] HF]. cbn [fst snd] in *.
  cbn [map total fst snd] in Hn. destruct n as [|n]; [lia|]. destruct l as [|kv l].
  - cbn [map Join parse_fields]. unfold indent_line. cbn [fst snd]. rewrite !string_app_assoc. change (": " +:+ ?s) with (":" +:+ String " " s).
    rewrite parse_key_indent, parse_val_blank by done. rewrite parse_val_print by (done || cbn in Hn; lia). done.
  - change (Join (map indent_line ((k, j) :: kv :: l)) ",") with (indent_line (k, j) +:+ String "," (Join (map indent_line (kv :: l)) ",")).
    unfold indent_line at 1. cbn [fst snd parse_fields]. rewrite !string_app_assoc. change (": " +:+ ?s) with (":" +:+ String " " s).
    rewrite parse_key_indent, parse_val_blank by done. cbn [String.append].
    rewrite parse_val_print by (done || lia). rewrite skip_space_at by done. cbn [Ascii.eqb Bool.eqb].
    rewrite IH by (done || cbn in *; lia). done.
Qed.

Lemma parse_first_indent l rest :
  l <> [] -> Forall (fun kv => valid_utf8 kv.1 = true /\ wf_json kv.2 = true /\ size kv.2 = 1%nat) l ->
  parse_first (MarshalIndent l +:+ rest) = Some (JObj l, rest).
Proof.
  intros Hne HF. unfold parse_first, MarshalIndent. rewrite !string_app_assoc. cbn [String.append].
  set (tail := String newline (String "}" rest)). cbn [plus].
  assert (Hn : (total (map (fun kv => 1 + size kv.2) l) <= String.length (Join (map indent_line l) ","))%nat).
  { pose proof (Join_length (map indent_line l) "," eq_refl) as HJ. rewrite map_map in HJ.
    enough (1 + total (map (fun kv => 1 + size kv.2) l) <= total (map (fun kv => 1 + String.length (indent_line kv)) l))%nat by lia.
    assert (Hle : (total (map (fun kv => 1 + size kv.2) l) + length l <= total (map (fun kv => 1 + String.length (indent_line kv)) l))%nat).
    { clear HJ. induction HF as [|kv l (_&_&Hs) HF IH]; [done|]. cbn [map total length]. rewrite Hs.
      unfold indent_line at 1. rewrite !string_length_app. cbn [String.length].
      destruct l; [cbn; lia|]. specialize (IH ltac:(done)). lia. }
    destruct l; [done|]. cbn [length] in Hle. lia. }
  replace (2 * String.length _)%nat with (S (2 * String.length (Join (map indent_line l) "," +:+ tail) + 1)) by (cbn; lia).
  cbn [parse_val]. rewrite skip_space_at by done. cbn [Ascii.eqb Bool.eqb].
  assert (Hsp : strip_prefix "}" (skip_space (Join (map indent_line l) "," +:+ tail)) = None).
  { destruct l as [|kv l]; [done|]. cbn [map]. destruct (Join_head (indent_line kv) (map indent_line l) "," newline _ eq_refl) as [t Et].
    unfold tail. destruct l; reflexivity. }
  rewrite Hsp. unfold tail. change (String newline (String "}" rest)) with (String newline "}" +:+ rest).
  rewrite parse_fields_indent; [done|done| |].
  - eapply Forall_impl; [exact HF|]. by intros kv (?&?&_).
  - rewrite !string_length_app. lia.
Qed.

Definition texts_valid (config : LLMConfig) : Prop :=
  valid_utf8 (lc_BaseURL config) = true /\ valid_utf8 (lc_APIKey config) = true /\ valid_utf8 (lc_Model config) = true.

Lemma trimmed_twice config : trimmed (trimmed config) = trimmed config.
Proof. unfold trimmed. cbn [lc_BaseURL lc_APIKey lc_Model]. by rewrite !TrimSpace_idemp. Qed.

Lemma trimmed_valid config : texts_valid config -> texts_valid (trimmed config).
Proof. intros (?&?&?). split_and!; by apply valid_TrimSpace. Qed.

(** A complete configuration that was saved is loaded. *)
Lemma read_written config t :
  texts_valid config -> incomplete (trimmed config) = false ->
  read_stored (stored_text (stored_of config t)) = Ok (stored_of config t).
Proof.
  intros Hv Hc. pose proof (trimmed_valid _ Hv) as (V1&V2&V3). unfold read_stored, Unmarshal_stored, parse, stored_text.
  rewrite parse_first_indent; [|done|].
  2: { repeat constructor; cbn; try done. apply time_text_valid. }
  cbn [skip_space json_space]. change (json_space newline) with true. cbv iota.
  assert (Hd : dec_stored (JObj (stored_fields (stored_of config t))) zero_stored = Some (stored_of config t)).
  { unfold dec_stored, dec_struct, stored_fields. cbn -[time_text dec_time]. unfold dec_time. by rewrite time_roundtrip. }
  rewrite Hd. cbn [rbind guard_ negb Z.eqb Pos.eqb stored_of stc_SchemaVersion stc_BaseURL stc_APIKey stc_Model stc_UpdatedAt trimmed lc_BaseURL lc_APIKey lc_Model].
  rewrite !TrimSpace_idemp. unfold incomplete in Hc. cbn [trimmed lc_BaseURL lc_APIKey lc_Model] in Hc. by rewrite Hc.
Qed.
End Readable.

(** ** The settings over changes, failures and restarts *)
Section Durable.
Context `{TimeText} `{!TimeTextOk} `{TimeParse} `{!TimeRoundtrip} `{UrlLibrary}.

(** The running configuration is trimmed UTF-8. *)
Definition in_order (s : LlmState) : Prop :=
  texts_valid (ru_config (lm_provider s)) /\ trimmed (ru_config (lm_provider s)) = ru_config (lm_provider s).

(** The provider of [config] answers for the agent. *)
Definition runs (config : LLMConfig) (s : LlmState) : Prop :=
  exists p, NewOpenAICompatible config = Ok p /\ ru_provider (lm_provider s) = Some p /\ ru_config (lm_provider s) = config.

(** A start that finds this file, and has no failure, runs [config]. *)
Definition starts_with (config : LLMConfig) (file : SettingsFile) : Prop :=
  forall E variables s, quiet E -> lm_file s = file ->
    wp E (start_planner variables) (fun r s' => r = Ok tt /\ runs config s' /\ in_order s' /\ lm_file s' = file) s.

(** The configuration a body asks for. *)
Definition asks_for (body : string) (s : LlmState) (config : LLMConfig) : Prop :=
  exists input, decodeJSON dec_config no_config body = Ok input /\ config = asked_config input (ru_config (lm_provider s)).

Lemma dec_field_valid name fields prev x :
  forallb (fun kv => valid_utf8 kv.1 && wf_json kv.2) fields = true -> valid_utf8 prev = true ->
  dec_field name dec_string fields prev = Some x -> valid_utf8 x = true.
Proof.
  revert prev. induction fields as [|[k v] fields IH]; intros prev; cbn [dec_field forallb fst snd]; [by intros _ Hp [= <-]|].
  rewrite !andb_true_iff. intros [[_ Hv] Hf] Hp. destruct (String.eqb _ _); [|by apply IH].
  unfold dec_string at 1. destruct v; try done; [by apply IH|]. by apply IH.
Qed.

Lemma decoded_valid body input : decodeJSON dec_config no_config body = Ok input -> texts_valid input.
Proof.
  unfold decodeJSON, decode_one. intros Hd. apply rbind_ok in Hd as ([c rest]&Hd&Hi).
  destruct (_ || _); [done|]. injection Hi as <-. cbn [fst].
  destruct (parse_first _) as [[j rest']|] eqn:Ep; [|done]. apply parse_first_wf in Ep.
  destruct (dec_config j no_config) as [c'|] eqn:Ec; [|done]. injection Hd as -> _.
  destruct j as [| | | | |fields]; try discriminate Ec; [by injection Ec as <-|]. cbn in Ec. destruct (known _ _); [|done].
  cbn in Ep.
  destruct (dec_field "base_url" _ _ _) as [b|] eqn:E1; [|done]. destruct (dec_field "api_key" _ _ _) as [k|] eqn:E2; [|done].
  destruct (dec_field "model" _ _ _) as [m|] eqn:E3; [|done]. injection Ec as <-.
  split_and!; cbn [lc_BaseURL lc_APIKey lc_Model]; (eapply dec_field_valid; [exact Ep| |eassumption]; done).
Qed.

Lemma asks_for_valid body s config : in_order s -> asks_for body s config -> texts_valid config /\ trimmed config = config.
Proof.
  intros [(V1&V2&V3) Ht] (input&Hd&->). pose proof (trimmed_valid _ (decoded_valid _ _ Hd)) as Hv.
  unfold asked_config. destruct (_ && _); [|split; [done|apply trimmed_twice]].
  destruct Hv as (W1&_&W3). split; [by split_and!|].
  apply (f_equal lc_APIKey) in Ht. unfold trimmed in *. cbn [lc_BaseURL lc_APIKey lc_Model] in *. by rewrite !TrimSpace_idemp, Ht.
Qed.

Lemma Configure_runs E config source t (s : RuntimeProvider) p :
  trimmed config = config -> NewOpenAICompatible config = Ok p ->
  wp E (Configure config source t) (fun r s' => r = Ok tt /\ ru_provider s' = Some p /\ ru_config s' = config /\ pc_Configured (ru_public s') = true) s.
Proof.
  intros Ht Hp. unfold Configure. apply wp_bind, wp_lift. rewrite Hp. cbn beta iota. apply wp_bind.
  destruct (t =? zero_time); [apply wp_now; intros n|apply wp_ret]; apply wp_put; by rewrite Ht.
Qed.

Lemma to_config_stored config t : to_config (stored_of config t) = trimmed config.
Proof. done. Qed.

Lemma written_starts config t p :
  texts_valid config -> trimmed config = config -> incomplete config = false -> NewOpenAICompatible config = Ok p ->
  starts_with config (Some (stored_text (stored_of config t))).
Proof.
  intros Hv Ht Hc Hp E variables s Hq Hs. unfold start_planner. apply wp_bind, wp_modify. cbn beta iota.
  apply wp_bind, wp_try. unfold on_file. apply wp_zoom. cbn [lm_file]. rewrite Hs. unfold Load. apply wp_bind, wp_try.
  apply wp_sys_quiet; [done|]. cbn beta iota. apply wp_lift. rewrite read_written by (done || by rewrite Ht). cbn beta iota.
  unfold on_provider. apply wp_zoom. cbn [lm_provider]. rewrite to_config_stored, Ht.
  eapply wp_mono; [by apply (Configure_runs _ _ _ _ _ p)|]. intros r s' (->&Hp'&Hc'&_).
  split; [done|]. split; [by exists p|]. split; [|done]. unfold in_order. cbn. by rewrite Hc'.
Qed.

(** A failed replacement left the old or the new file, and something failed. *)
Lemma wp_atomic_write_told {S} E b a (f : S -> S) (s : S) :
  wp E (atomic_write b a f) (fun r s' => r = Ok tt /\ s' = f s \/ is_ok r = false /\ ~ quiet E /\ (s' = s \/ s' = f s)) s.
Proof.
  intros w <-. destruct (atomic_write b a f E w) as [r w'] eqn:Er. cbn.
  assert (Hq : is_ok r = false -> ~ quiet E).
  { intros Hr Hq. destruct (atomic_write_quiet b a f E w Hq) as (w2&E2&_). rewrite Er in E2. by injection E2 as -> _. }
  destruct r as [[]|e].
  - apply atomic_write_inv in Er as [->|[_ (e&[=])]]. by left.
  - right. split; [done|]. split; [by apply Hq|]. apply atomic_write_inv in Er as [->|[-> _]]; auto.
Qed.

(** The settings are kept across restarts exactly when they were
    acknowledged, and are never half kept.  Whatever fails or crashes while
    the console changes the settings: when the answer is 200, the asked
    configuration (with the running key when none was given) runs, and it is
    what the next start runs; otherwise the running provider is the one from
    before, and the next start finds the old file or, only when a system call
    failed, the whole of the asked configuration. *)
Theorem settings_durable (E : Env) (body : string) (s : LlmState) (Hs : in_order s) :
  wp E (putLLMConfig true body) (fun r s' => in_order s' /\ exists reply, r = Ok reply /\
    (lr_status reply = StatusOK -> exists config, asks_for body s config /\ runs config s' /\ starts_with config (lm_file s')) /\
    (lr_status reply <> StatusOK -> lm_provider s' = lm_provider s /\
       (lm_file s' = lm_file s \/ ~ quiet E /\ exists config, asks_for body s config /\ starts_with config (lm_file s')))) s.
Proof.
  unfold putLLMConfig. cbn [negb].
  assert (Hrefused : forall status e, status <> StatusOK -> wp E (ret (refuse status e)) (fun r s' => in_order s' /\ exists reply, r = Ok reply /\
    (lr_status reply = StatusOK -> exists config, asks_for body s config /\ runs config s' /\ starts_with config (lm_file s')) /\
    (lr_status reply <> StatusOK -> lm_provider s' = lm_provider s /\
       (lm_file s' = lm_file s \/ ~ quiet E /\ exists config, asks_for body s config /\ starts_with config (lm_file s')))) s).
  { intros status e Hn. apply wp_ret. split; [done|]. eexists. split; [done|]. split; [done|]. auto. }
  destruct (decodeJSON dec_config no_config body) as [input|e] eqn:Ed; [|by apply Hrefused].
  apply wp_bind, wp_get. cbv zeta. set (config := asked_config input (ru_config (lm_provider s))).
  assert (Ha : asks_for body s config) by (by exists input). destruct (asks_for_valid _ _ _ Hs Ha) as [Hv Ht].
  destruct (incomplete config) eqn:Hc; [by apply Hrefused|].
  destruct (NewOpenAICompatible config) as [p|e] eqn:Hp; [|by apply Hrefused].
  apply wp_bind, wp_now. intros n. apply wp_bind, wp_try. unfold on_file at 1. apply wp_zoom.
  unfold Save. apply wp_bind.
  assert (Hstart : forall t, starts_with config (Some (stored_text (stored_of config t)))) by (intros t; by apply (written_starts config t p)).
  assert (Htime : forall t, wp E (if t =? zero_time then now else ret t) (fun r v => is_ok r = true /\ v = lm_file s) (lm_file s)).
  { intros t. destruct (t =? zero_time); [by apply wp_now|by apply wp_ret]. }
  eapply wp_mono; [apply Htime|]. intros [t|e] v [Hok ->]; [|done]. cbv zeta.
  apply wp_bind, wp_lift. rewrite Ht, Hc. cbn [guard_]. apply wp_bind.
  eapply wp_mono; [apply wp_atomic_write_told|]. intros r v [[-> ->]|(Hr&Hq&Hfile)].
  - apply wp_ret. cbn beta iota. apply wp_bind, wp_try. unfold on_provider. apply wp_zoom. cbn [lm_provider].
    rewrite to_config_stored, Ht. eapply wp_mono; [by apply (Configure_runs _ _ _ _ _ p)|].
    intros r s' (->&Hp'&Hc'&_). cbn beta iota. apply wp_bind, wp_get, wp_ret. cbn [lm_provider lm_file].
    split; [unfold in_order; cbn; by rewrite Hc'|]. eexists. split; [done|]. split; [|by intros Hn].
    intros _. exists config. split; [done|]. split; [by exists p|apply Hstart].
  - destruct r as [[]|e]; [done|]. cbn beta iota. apply wp_ret. split; [done|]. eexists. split; [done|]. split; [done|].
    intros _. split; [done|]. cbn [lm_file]. destruct Hfile as [-> | ->]; [by left|right]. split; [done|]. exists config. split; [done|apply Hstart].
Qed.

(** Deletion: acknowledged, neither the file nor the process has settings;
    otherwise the provider still runs. *)
Lemma settings_deleted (E : Env) (s : LlmState) :
  honest E ->
  wp E (deleteLLMConfig true) (fun r s' => exists reply, r = Ok reply /\
    (lr_status reply = StatusOK -> lm_file s' = None /\ ru_provider (lm_provider s') = None /\ lr_body reply = LStatus not_configured) /\
    (lr_status reply <> StatusOK -> lm_provider s' = lm_provider s)) s.
Proof.
  intros Hh. unfold deleteLLMConfig. cbn [negb]. apply wp_bind, wp_try. unfold on_file. apply wp_zoom. unfold Delete.
  assert (Hrest : forall e f, wp E (ret (refuse StatusInternalServerError e)) (fun r s' => exists reply, r = Ok reply /\
    (lr_status reply = StatusOK -> lm_file s' = None /\ ru_provider (lm_provider s') = None /\ lr_body reply = LStatus not_configured) /\
    (lr_status reply <> StatusOK -> lm_provider s' = lm_provider s)) (MkLlmState (lm_provider s) f)).
  { intros e f. apply wp_ret. eexists. split; [done|]. by split. }
  assert (Hdone : wp E (on_provider Clear ;;; s <- get_st ;; ret (MkLlmReply StatusOK (LStatus (Status (lm_provider s)))))
    (fun r s' => exists reply, r = Ok reply /\
    (lr_status reply = StatusOK -> lm_file s' = None /\ ru_provider (lm_provider s') = None /\ lr_body reply = LStatus not_configured) /\
    (lr_status reply <> StatusOK -> lm_provider s' = lm_provider s)) (MkLlmState (lm_provider s) None)).
  { apply wp_bind. unfold on_provider, Clear. apply wp_zoom, wp_put. cbn beta iota. apply wp_bind, wp_get, wp_ret.
    eexists. split; [done|]. by split. }
  apply wp_bind, wp_try, wp_sys_honest; [done|intros no Hno|].
  - cbn beta iota. cbn [errors_is]. rewrite bool_decide_eq_false_2 by done. apply wp_throw. apply Hrest.
  - destruct (lm_file s) as [b|] eqn:Eb.
    + cbn beta iota. apply wp_probes; [apply Hdone|intros e; apply Hrest].
    + cbn beta iota. cbn [errors_is]. rewrite bool_decide_eq_true_2 by done. apply wp_ret. cbn beta iota. apply Hdone.
Qed.
End Durable.

(** ** A console *)
Module Lab.
#[local] Existing Instance Llm.Lab.lab_urls.
#[local] Instance lab_time : TimeText := plain_time.
#[local] Instance lab_parse : TimeParse := plain_parse.

Definition fresh : LlmState := MkLlmState NewRuntimeProvider None.
Definition full_body : string := quoted "{`base_url`:`http://host/v1`,`api_key`:` secret `,`model`:`m`}".
Definition keyless_body : string := quoted "{`base_url`:`http://other/v1`,`model`:`m2`}".

(** The key is kept when the endpoint changes, and deletion clears both. *)
Example console_settings :
  let '(r1, w1) := putLLMConfig true full_body (calm 5 "") (init_world fresh) in
  let '(r2, w2) := putLLMConfig true keyless_body (calm 6 "") w1 in
  let '(r3, w3) := deleteLLMConfig true (calm 7 "") w2 in
  ru_config (lm_provider (st w2)) = MkLLMConfig "http://other/v1" "secret" "m2" /\
  (match r2 with Ok reply => lr_status reply | Err _ => 0 end) = 200 /\
  lm_file (st w3) = None /\ ru_provider (lm_provider (st w3)) = None /\
  is_ok (putLLMConfig true keyless_body (calm 8 "") (init_world fresh)).1 = true.
Proof. vm_compute. repeat split; reflexivity. Qed.

Lemma fresh_in_order : in_order fresh.
Proof. by repeat split. Qed.

Lemma settings_durable_witness :
  exists reply, (putLLMConfig true full_body (calm 5 "") (init_world fresh)).1 = Ok reply /\ lr_status reply = StatusOK /\
  exists config, asks_for full_body fresh config /\
    runs config (st (putLLMConfig true full_body (calm 5 "") (init_world fresh)).2) /\
    starts_with config (lm_file (st (putLLMConfig true full_body (calm 5 "") (init_world fresh)).2)).
Proof.
  destruct (settings_durable (H := plain_time) (H0 := plain_time_ok) (H1 := plain_parse) (H2 := plain_roundtrip)
    (calm 5 "") full_body fresh fresh_in_order (init_world fresh) eq_refl) as (_&reply&Hr&Hok&_).
  exists reply. split; [exact Hr|].
  assert (Hs : lr_status reply = StatusOK).
  { assert (E : exists x, (putLLMConfig true full_body (calm 5 "") (init_world fresh)).1 = Ok x /\ lr_status x = StatusOK)
      by (vm_compute; eexists; split; reflexivity).
    destruct E as (x&Ex&Hx). pose proof (eq_trans (eq_sym Ex) Hr) as Hsame. by injection Hsame as <-. }
  split; [exact Hs|]. exact (Hok Hs).
Defined.
End Lab.
