(* ===== verification/Admission.v ===== *)
(** * Which messages the server accepts ([createMessage] of [internal/api/server.go])

    The handler reads the session and the tasks, reserves a slot and makes
    the task durable before it answers.  [admission] is the decision as a
    function of the state; the handler takes it in every environment, an
    accepted message is in the store before the client hears of it, and a
    refused one leaves no trace. *)

From S2P Require Import Prelude GoStrings GoText GoPath Json Hash Contracts Guard Approval Platform Targets Nonce Executor Handlers Trace Store Planner Scope Agent Hub Decode Prepare Managed General Workflows FileAction Orchestrate Evidence Resume Wire Going AuditTrail AuditRuns System Api.
Open Scope Z_scope.

(** ** Reading a whole directory of the store *)

(** The records in the files, when all of them parse. *)
Fixpoint records_of {A} (files : gmap string (option A)) (names : list string) : option (list A) :=
  match names with
  | [] => Some []
  | name :: names =>
    match files !! name, records_of files names with
    | Some (Some v), Some vs => Some (v :: vs)
    | _, _ => None
    end
  end.

Definition readable {A} (kind : Kind A) (s : Store) : option (list A) :=
  records_of (kd_get kind s) (file_names (kd_get kind s)).

Lemma wp_read_each {A} E (kind : Kind A) names (Q : result (list A) -> Store -> Prop) s :
  (forall out, records_of (kd_get kind s) names = Some out -> Q (Ok out) s) ->
  (forall e, Q (Err e) s) ->
  wp E (mapM (fun name =>
    ctx_check ;;;
    b <- sys (fun s => match kd_get kind s !! name with None => Err (ESys ENOENT) | Some b => Ok (b, s) end) ;;
    match b with
    | None => throw (EWrap ("decode " +:+ name +:+ ".json: ") (EMsg "json: cannot unmarshal"))
    | Some v => ret v
    end) names) Q s.
Proof.
  intros Hok Herr. revert Q Hok Herr. induction names as [|name names IH]; intros Q Hok Herr; cbn [mapM].
  { apply wp_ret. by apply Hok. }
  apply wp_bind, wp_bind, wp_ctx_check; [|by intros]. cbn beta iota. apply wp_bind, wp_sys; [by intros|]. cbn in Hok.
  destruct (kd_get kind s !! name) as [[v|]|] eqn:Hn; cbn in Hok |- *; [|apply wp_throw, Herr|apply Herr].
  apply wp_ret. apply wp_bind, IH; [|done]. intros out Hout. apply wp_ret, Hok. by rewrite Hout.
Qed.

Lemma wp_list_ {A} E (kind : Kind A) (Q : result (list A) -> Store -> Prop) s :
  (forall out, readable kind s = Some out -> Q (Ok out) s) -> (forall e, Q (Err e) s) -> wp E (list_ kind) Q s.
Proof.
  intros Hok Herr. unfold list_. apply wp_bind, wp_ctx_check; [|by intros]. cbn beta iota.
  apply wp_bind, wp_sys; [by intros|]. cbn beta iota. by apply wp_read_each.
Qed.

Lemma wp_read_each_quiet {A} E (kind : Kind A) names (Q : result (list A) -> Store -> Prop) s : quiet E ->
  Forall (fun name => is_Some (kd_get kind s !! name)) names ->
  match records_of (kd_get kind s) names with
  | Some out => Q (Ok out) s
  | None => forall e, Q (Err e) s
  end ->
  wp E (mapM (fun name =>
    ctx_check ;;;
    b <- sys (fun s => match kd_get kind s !! name with None => Err (ESys ENOENT) | Some b => Ok (b, s) end) ;;
    match b with
    | None => throw (EWrap ("decode " +:+ name +:+ ".json: ") (EMsg "json: cannot unmarshal"))
    | Some v => ret v
    end) names) Q s.
Proof.
  intros Hq Hf. revert Q. induction Hf as [|name names [b Hb] _ IH]; intros Q HQ; cbn [mapM].
  { by apply wp_ret. }
  apply wp_bind, wp_bind, wp_ctx_quiet; [done|]. cbn beta iota. apply wp_bind, wp_sys_quiet; [done|]. cbn in HQ. rewrite Hb in HQ |- *.
  cbn in HQ |- *. destruct b as [v|]; [|by apply wp_throw]. apply wp_ret, wp_bind, IH.
  destruct (records_of _ names) as [out|]; cbn in HQ; [by apply wp_ret|done].
Qed.

Lemma wp_list_quiet {A} E (kind : Kind A) (Q : result (list A) -> Store -> Prop) s : quiet E ->
  match readable kind s with Some out => Q (Ok out) s | None => forall e, Q (Err e) s end -> wp E (list_ kind) Q s.
Proof.
  intros Hq HQ. unfold list_. apply wp_bind, wp_ctx_quiet; [done|]. cbn beta iota. apply wp_bind, wp_sys_quiet; [done|].
  cbn beta iota. apply wp_read_each_quiet; [done| |done]. apply Forall_forall. intros name. apply file_names_spec.
Qed.

(** The tasks in the order they are listed. *)
Definition by_update (values : list Task) : list Task := merge_sort (later_first tk_UpdatedAt) values.

Lemma wp_ListTasks E (Q : result (list Task) -> Store -> Prop) s :
  (forall out, readable tasks s = Some out -> Q (Ok (by_update out)) s) -> (forall e, Q (Err e) s) -> wp E ListTasks Q s.
Proof. intros Hok Herr. apply wp_bind, wp_list_; [|done]. intros out Hout. by apply wp_ret, Hok. Qed.

Lemma wp_ListTasks_quiet E (Q : result (list Task) -> Store -> Prop) s : quiet E ->
  match readable tasks s with Some out => Q (Ok (by_update out)) s | None => forall e, Q (Err e) s end ->
  wp E ListTasks Q s.
Proof. intros Hq HQ. apply wp_bind, wp_list_quiet; [done|]. destruct (readable tasks s); [by apply wp_ret|done]. Qed.

Lemma wp_get_quiet {A} E (kind : Kind A) id (Q : result A -> Store -> Prop) s : quiet E ->
  match validateID id, kd_get kind s !! id with
  | Ok _, Some (Some v) => Q (Ok v) s
  | Ok _, None => forall e, errors_is_sentinel e "not found" = true -> Q (Err e) s
  | _, _ => forall e, errors_is_sentinel e "not found" = false -> Q (Err e) s
  end -> wp E (get kind id) Q s.
Proof.
  intros Hq HQ. unfold get. apply wp_bind, wp_ctx_quiet; [done|]. cbn beta iota. apply wp_bind, wp_lift.
  destruct (validateID id) as [[]|e] eqn:Hv.
  2: { apply HQ. unfold validateID in Hv. destruct (_ || _); [by injection Hv as <-|done]. }
  unfold read_file. apply wp_bind, wp_try, wp_sys_quiet; [done|].
  destruct (kd_get kind s !! id) as [[v|]|]; cbn -[errors_is].
  - by apply wp_ret.
  - apply wp_throw, HQ. done.
  - change (errors_is (ESys ENOENT) ENOENT) with true. by apply wp_throw, HQ.
Qed.

(** ** Reading, whatever fails *)
Lemma wp_get_valid {A} E (kind : Kind A) id (Q : result A -> Store -> Prop) s :
  (forall v, valid id -> has kind id v s -> Q (Ok v) s) -> (forall e, Q (Err e) s) -> wp E (get kind id) Q s.
Proof.
  intros Hok Herr. destruct (validateID id) as [[]|e] eqn:Hid; [by apply wp_get_record; auto|].
  unfold get. apply wp_bind, wp_ctx_check; [|by intros]. cbn beta iota. apply wp_bind, wp_lift. by rewrite Hid.
Qed.

(** A healthy disk fails only when the file is not there or does not parse. *)
Lemma wp_get_told {A} E (kind : Kind A) id s :
  wp E (get kind id) (fun r s' => s' = s /\
    match r with
    | Ok v => valid id /\ has kind id v s
    | Err e => quiet E -> (forall v, valid id -> kd_get kind s !! id <> Some (Some v)) /\
        (errors_is_sentinel e "not found" = true <-> valid id /\ kd_get kind s !! id = None)
    end) s.
Proof.
  eapply wp_mono; [apply wp_both|].
  - apply (wp_get_valid E kind id (fun r s' => s' = s /\ forall v, r = Ok v -> valid id /\ has kind id v s)); [|done].
    intros v Hid Hv. split; [done|]. by intros ? [= <-].
  - apply (wp_given (quiet E) E _ (fun r s' => forall e, r = Err e -> (forall v, valid id -> kd_get kind s !! id <> Some (Some v)) /\
        (errors_is_sentinel e "not found" = true <-> valid id /\ kd_get kind s !! id = None))).
    intros Hq. apply wp_get_quiet; [done|]. unfold valid.
    destruct (validateID id) as [[]|e0]; [destruct (kd_get kind s !! id) as [[v|]|]|]; [done|..];
      intros e He ? [= <-]; (split; [done|]); rewrite He; naive_solver.
  - intros r s' [[-> Hv] Hq]. split; [done|]. destruct r as [v|e]; [by apply Hv|]. intros HE. by apply (Hq HE e).
Qed.

Lemma wp_tasks_told E s :
  wp E ListTasks (fun r s' => s' = s /\
    match r with
    | Ok out => exists values, readable tasks s = Some values /\ out = by_update values
    | Err e => quiet E -> readable tasks s = None
    end) s.
Proof.
  eapply wp_mono; [apply wp_both|].
  - apply (wp_ListTasks E (fun r s' => s' = s /\ forall out, r = Ok out -> exists values, readable tasks s = Some values /\ out = by_update values));
      [|done]. intros out Hout. split; [done|]. intros ? [= <-]. eauto.
  - apply (wp_given (quiet E) E _ (fun r s' => forall e, r = Err e -> readable tasks s = None)).
    intros Hq. apply wp_ListTasks_quiet; [done|]. by destruct (readable tasks s).
  - intros r s' [[-> Hv] Hq]. split; [done|]. destruct r as [out|e]; [by apply Hv|]. intros HE. by apply (Hq HE e).
Qed.

Lemma by_update_Permutation l : by_update l ≡ₚ l.
Proof. apply merge_sort_Permutation. Qed.

Definition active_in (sessionID : string) (t : Task) : bool :=
  String.eqb (tk_SessionID t) sessionID && negb (Hub.terminal (tk_State t)).

Lemma active_task_spec l sessionID :
  active_task (by_update l) sessionID = None <-> existsb (active_in sessionID) l = false.
Proof.
  unfold active_task. rewrite <- not_true_iff_false, existsb_exists. split.
  - intros Hn (t&Ht&Ha). enough (active_in sessionID t = false) by congruence. apply (find_none _ _ Hn t).
    apply list_elem_of_In. rewrite by_update_Permutation. by apply list_elem_of_In.
  - intros Hn. destruct (List.find _ _) as [t|] eqn:Hf; [|done]. apply find_some in Hf as [Ht Ha]. destruct Hn. exists t.
    split; [|exact Ha]. apply list_elem_of_In in Ht. rewrite by_update_Permutation in Ht. by apply list_elem_of_In.
Qed.

(** ** The decision *)
Section Admission.
Context {T H X Y : Type} `{TraceSink T} `{TraceReader T} `{Outside X} `{HealthVerifier X} `{UnicodeCase} `{UnicodeUpper} `{TimeText} `{TimeParse}
  `{LocalDate} `{Regexp} `{Sprinter} `{ManagedPatterns} `{PlannerPatterns} `{EnvelopeDecoder} (busy : nat) (limits : Limits)
  (agent : option (Orchestrator H)).

Abbreviation State := (ServerState T H X Y).

Definition store_of (s : State) : Store := as_store (rm_agent (sv_app s)).

(** The status a message deserves, by the first reason that applies. *)
Definition admission (sessionID body : string) (s : State) : Z :=
  match decodeJSON (dec_one_string "content") "" body with
  | Err _ => StatusBadRequest
  | Ok content =>
    if String.eqb (TrimSpace content) "" then StatusBadRequest
    else
      match validateID sessionID, st_sessions (store_of s) !! sessionID with
      | Ok _, None => StatusNotFound
      | Ok _, Some (Some current) =>
        if sn_Archived current then StatusConflict
        else
          match agent with
          | None => StatusServiceUnavailable
          | Some _ =>
            if bool_decide (sessionID ∈ sv_runningSessions s) then StatusConflict
            else
              match readable tasks (store_of s) with
              | None => StatusInternalServerError
              | Some values =>
                if existsb (active_in sessionID) values then StatusConflict
                else if MaxTasks limits <=? Z.of_nat (length values) then StatusInsufficientStorage
                else if Z.of_nat (sv_taskSlots s) <? MaxConcurrentTasks limits then StatusAccepted
                else StatusTooManyRequests
              end
          end
      | _, _ => StatusInternalServerError
      end
  end.

(** Reading the store changes nothing. *)
Lemma wp_app_read {A} E (m : M Store A) (Q : result A -> State -> Prop) s :
  wp E m (fun r v => v = store_of s /\ Q r s) (store_of s) -> wp E (app_store m) Q s.
Proof.
  intros Hm. apply wp_zoom, wp_zoom, wp_zoom. eapply wp_mono; [exact Hm|]. intros r v [-> HQ].
  destruct s as [[[] ? ?] ? ? ? ?]. exact HQ.
Qed.

(** Whatever a check answers when reading fails, a healthy disk answers what
    the state deserves. *)
Definition decided (E : Env) (deserved : Z) (s : State) (r : result Reply) (s' : State) : Prop :=
  exists reply, r = Ok reply /\ (rp_status reply = StatusAccepted -> deserved = StatusAccepted) /\
    (deserved <> StatusAccepted -> s' = s /\ (quiet E -> rp_status reply = deserved)).

Lemma decided_here E deserved reply (s : State) :
  rp_status reply <> StatusAccepted -> (quiet E -> deserved <> StatusAccepted -> rp_status reply = deserved) ->
  decided E deserved s (Ok reply) s.
Proof. intros Hn Hq. exists reply. split; [done|]. split; [done|]. intros Hd. split; [done|]. auto. Qed.

Lemma decided_exactly E deserved reply (s : State) :
  rp_status reply = deserved -> deserved <> StatusAccepted -> decided E deserved s (Ok reply) s.
Proof. intros <- Hn. by apply decided_here. Qed.

(** The tasks, the limits and the slot. *)
Definition crowd (sessionID : string) (s : State) : Z :=
  match readable tasks (store_of s) with
  | None => StatusInternalServerError
  | Some values =>
    if existsb (active_in sessionID) values then StatusConflict
    else if MaxTasks limits <=? Z.of_nat (length values) then StatusInsufficientStorage
    else if Z.of_nat (sv_taskSlots s) <? MaxConcurrentTasks limits then StatusAccepted
    else StatusTooManyRequests
  end.

Lemma accept_answers E (o : Orchestrator H) sessionID content s :
  wp E (accept_message (T := T) (X := X) (Y := Y) busy limits o sessionID content)
    (fun r s' => exists reply, r = Ok reply /\ (MaxConcurrentTasks limits <= Z.of_nat (sv_taskSlots s) ->
       rp_status reply = StatusTooManyRequests /\ s' = s)) s.
Proof.
  unfold accept_message. apply wp_bind, wp_reserve; intros Hf; cbn [negb].
  - apply wp_bind, wp_modify, wp_bind, wp_new_id. intros n. cbv zeta. apply wp_bind, wp_try, wp_any.
    intros [[value [e|]]|e] s'; unfold run_ended, releaseTaskSlot; wp_go; eexists; (split; [done|lia]).
  - apply wp_ret. by eexists.
Qed.

Lemma decided_accept E o sessionID content s :
  wp E (accept_message (T := T) (X := X) (Y := Y) busy limits o sessionID content)
    (decided E (if Z.of_nat (sv_taskSlots s) <? MaxConcurrentTasks limits then StatusAccepted else StatusTooManyRequests) s) s.
Proof.
  eapply wp_mono; [apply accept_answers|]. intros r s' (reply&->&Hfull).
  destruct (Z.ltb_spec (Z.of_nat (sv_taskSlots s)) (MaxConcurrentTasks limits)); [by exists reply|].
  destruct Hfull as [Hst ->]; [done|]. by apply decided_exactly.
Qed.

Lemma decided_crowd E o sessionID content s :
  wp E (or_status false (app_store ListTasks) (fun values =>
      match active_task values sessionID with
      | Some value =>
        ret (writeError StatusConflict (EMsg ("session already has active task " +:+ tk_ID value +:+ " in state " +:+ tk_State value)))
      | None =>
        if MaxTasks limits <=? Z.of_nat (length values) then ret (writeRetentionError "task retention limit reached")
        else accept_message (T := T) (X := X) (Y := Y) busy limits o sessionID content
      end)) (decided E (crowd sessionID s) s) s.
Proof.
  unfold or_status, crowd. apply wp_bind, wp_try, wp_app_read. eapply wp_mono; [apply wp_tasks_told|]. intros r v [-> Hr].
  split; [done|]. cbn beta iota. destruct r as [out|e].
  2: { apply wp_ret. cbn [andb]. apply decided_here; [done|]. intros HE _. by rewrite (Hr HE). }
  destruct Hr as (values&->&->). destruct (existsb (active_in sessionID) values) eqn:Ha.
  { destruct (active_task (by_update values) sessionID) eqn:Hf; [by apply wp_ret, decided_exactly|].
    apply active_task_spec in Hf. congruence. }
  apply active_task_spec in Ha. rewrite Ha, (Permutation_length (by_update_Permutation values)).
  destruct (MaxTasks limits <=? _); [by apply wp_ret, decided_exactly|]. apply decided_accept.
Qed.

(** C25: which messages are accepted.  In every environment [createMessage]
    answers 202 only when the body parses, is not blank, the session exists
    and is not archived, an agent is configured, the session runs nothing and
    has no active task, and neither the task retention limit nor the limit on
    concurrent runs is reached; when one of these fails nothing changes, and
    unless reading itself fails the status is that of the first that does. *)
Theorem message_admission (E : Env) (sessionID body : string) (s : State) :
  wp E (createMessage (X := X) (T := T) (Y := Y) busy limits agent sessionID body)
    (decided E (admission sessionID body s) s) s.
Proof.
  unfold createMessage, admission. destruct (decodeJSON _ _ _) as [content|e]; [|by apply wp_ret, decided_exactly].
  destruct (String.eqb (TrimSpace content) ""); [by apply wp_ret, decided_exactly|].
  unfold or_status at 1. apply wp_bind, wp_try, wp_app_read. eapply wp_mono; [apply wp_get_told|]. intros r v [-> Hr].
  split; [done|]. cbn beta iota. destruct r as [current|e].
  - unfold has in Hr. cbn in Hr. destruct Hr as [Hid Hr]. unfold valid in Hid. rewrite Hid, Hr.
    destruct (sn_Archived current); [by apply wp_ret, decided_exactly|].
    destruct agent as [o|]; [|by apply wp_ret, decided_exactly]. apply wp_bind, wp_get. cbn beta iota.
    case_bool_decide; [by apply wp_ret, decided_exactly|]. apply decided_crowd.
  - apply wp_ret. apply decided_here; [by destruct (_ && _)|]. intros HE _. destruct (Hr HE) as [Hno Hnf].
    unfold valid in Hno, Hnf. cbn in Hno, Hnf |- *.
    destruct (errors_is_sentinel e "not found"); cbn.
    + destruct Hnf as [[-> ->] _]; done.
    + destruct (validateID sessionID) as [[]|]; [|done].
      destruct (st_sessions (store_of s) !! sessionID) as [[v|]|]; [by destruct (Hno v)|done|].
      destruct Hnf as [_ Hnf]. by discriminate Hnf.
Qed.


(** ** An accepted message is durable *)
Abbreviation Agent := (AgentState T H X).

Definition same_store (a a' : Agent) : Prop := as_store a' = as_store a.
#[local] Instance same_store_preorder : PreOrder same_store.
Proof. split; [by intros a|]. intros a b c E1 E2. unfold same_store in *. congruence. Qed.

Lemma stores_on_trace {A} (m : M T A) : obeys (on_st same_store) (on_trace (H := H) (X := X) m).
Proof. apply wp_obeys. intros E a. apply wp_zoom, wp_any. by intros r v. Qed.
#[local] Hint Resolve stores_on_trace : io.

Lemma stores_initial_trace o value : obeys (on_st same_store) (ensureInitialTrace (T := T) (H := H) (X := X) o value).
Proof. unfold ensureInitialTrace, appendTrace. obeys_walk. Qed.

(** The task and the session with its message are stored. *)
Definition stored (taskID sessionID content : string) (s s' : Store) : Prop :=
  exists t message_id old new, st_tasks s !! taskID = None /\ has sessions sessionID old s /\
    received taskID content message_id t old = Ok new /\
    has tasks taskID (new_task taskID sessionID content t) s' /\ has sessions sessionID new s'.

Lemma prepared_stored E o taskID sessionID content (a : Agent) : honest E ->
  wp E (Prepare_ (T := T) (H := H) (X := X) busy o taskID sessionID content)
    (fun r a' => forall v, r = Ok (v, None) -> stored taskID sessionID content (as_store a) (as_store a')) a.
Proof.
  intros Hh. unfold Prepare_. apply wp_bind, wp_now. intros t. cbv zeta. apply wp_bind, wp_new_id. intros n.
  unfold attempt at 1. apply wp_bind, wp_try, wp_zoom. eapply wp_mono; [by apply wp_drop, PrepareTask_effect|].
  intros r v He. destruct r as [p|e]; [|by apply wp_ret]. cbn beta iota in He |- *.
  unfold attempt. apply wp_bind, wp_try. eapply wp_mono; [apply obeys_wp, stores_initial_trace|].
  intros r a' Ha'. destruct r as [[]|e]; cbn beta iota; apply wp_ret; [|done]. intros v' [= <-].
  unfold same_store in Ha'. cbn in Ha'. rewrite Ha'.
  inversion He as [| | | | | |? ? j ? ? (old&Hold&Hm&Hnone&Ht&Hj&_)| | | | |]; subst.
  eexists (clock E t), _, old, (tp_Session j). split; [exact Hnone|]. split; [exact Hold|]. split; [exact Hm|]. split.
  - unfold has, drop_journal, sessioned, tasked, journaled, put. cbn. rewrite Ht. apply lookup_insert_eq.
  - assert (Hid : sn_ID (tp_Session j) = sessionID) by (rewrite <- (jo_bound j Hj), Ht; done).
    unfold has, drop_journal, sessioned, tasked, journaled, put. cbn. rewrite Hid. apply lookup_insert_eq.
Qed.

Definition durable (sessionID content : string) (s : State) (r : result Reply) (s' : State) : Prop :=
  forall reply, r = Ok reply -> rp_status reply = StatusAccepted -> exists taskID,
    rp_body reply = BAccepted taskID sessionID /\ stored taskID sessionID content (store_of s) (store_of s') /\
    sv_runs s' = sv_runs s ++ [MkPendingRun taskID sessionID content].

Lemma durable_accept E o sessionID content s : honest E ->
  wp E (accept_message (T := T) (X := X) (Y := Y) busy limits o sessionID content) (durable sessionID content s) s.
Proof.
  intros Hh. unfold accept_message. apply wp_bind, wp_reserve; intros Hf; cbn [negb]; [|apply wp_ret; by intros ? [= <-]].
  apply wp_bind, wp_modify, wp_bind, wp_new_id. intros n. cbv zeta. apply wp_bind, wp_try, wp_zoom, wp_zoom.
  eapply wp_mono; [by apply prepared_stored|]. intros r a' Hr. cbn beta iota.
  destruct r as [[v [e|]]|e]; [unfold run_ended, releaseTaskSlot; wp_go; by intros ? [= <-]| |
    unfold run_ended, releaseTaskSlot; wp_go; by intros ? [= <-]].
  apply wp_bind, wp_modify, wp_ret. intros reply [= <-] _. eexists. split; [done|]. split; [|done].
  unfold store_of. cbn. by eapply Hr.
Qed.

(** C23: an accepted message is durable.  When [createMessage] has answered
    202 with a task, that task is in the store as [NEW] under an identifier
    that was free, the session holds the message that asked for it, and a
    run of exactly that task, session and request is pending; so a crash
    after the answer leaves what [RecoverIncomplete] needs. *)
Theorem accepted_is_durable (E : Env) (Hh : honest E) (sessionID body : string) (s : State) :
  wp E (createMessage (X := X) (T := T) (Y := Y) busy limits agent sessionID body) (fun r s' =>
    forall reply, r = Ok reply -> rp_status reply = StatusAccepted ->
      exists content, decodeJSON (dec_one_string "content") "" body = Ok content /\
        durable sessionID (TrimSpace content) s r s') s.
Proof.
  unfold createMessage. destruct (decodeJSON _ _ _) as [content|e]; [|apply wp_ret; by intros ? [= <-]].
  destruct (String.eqb (TrimSpace content) ""); [apply wp_ret; by intros ? [= <-]|].
  unfold or_status at 1. apply wp_bind, wp_try, wp_app_read. eapply wp_mono; [apply wp_get_told|]. intros r v [-> _].
  split; [done|]. cbn beta iota. destruct r as [current|e].
  2: { apply wp_ret. intros ? [= <-]. cbn [writeError rp_status andb]. by destruct (errors_is_sentinel e "not found"). }
  destruct (sn_Archived current); [apply wp_ret; by intros ? [= <-]|].
  destruct agent as [o|]; [|apply wp_ret; by intros ? [= <-]]. apply wp_bind, wp_get. cbn beta iota.
  case_bool_decide; [apply wp_ret; by intros ? [= <-]|].
  unfold or_status. apply wp_bind, wp_try, wp_app_read. eapply wp_mono; [apply wp_tasks_told|]. intros r v [-> _].
  split; [done|]. cbn beta iota. destruct r as [out|e]; [|apply wp_ret; by intros ? [= <-]].
  destruct (active_task out sessionID); [apply wp_ret; by intros ? [= <-]|].
  destruct (MaxTasks limits <=? _); [apply wp_ret; by intros ? [= <-]|].
  eapply wp_mono; [by apply durable_accept|]. intros r s' Hd reply _ _. by exists content.
Qed.

End Admission.
