(* ===== verification/Served.v ===== *)
(** * What the requests of the console can make the server do

    The histories of [Api]: requests, runs that end, restarts.  No approval
    sends two envelopes to the executor in any of them. *)

From S2P Require Import Prelude GoStrings GoText GoPath Json Hash Contracts Guard Approval Platform Targets Nonce Executor Handlers Trace Store Planner Scope Agent Hub Decode Prepare Managed General Workflows FileAction Orchestrate Evidence Resume Wire Going AuditTrail AuditRuns System Api Admission.
Open Scope Z_scope.

Create HintDb sends.

(** ** Where the identifiers of listed records come from *)
Section Sources.
Context (E : Env).

(** No record carries an identifier that is drawn now. *)
Definition undrawn (d : ApprovalDir) : Prop := forall i r, d !! i = Some (Some r) -> ~ drawn E (ar_ID r).

Lemma undrawn_insert d record : undrawn d -> ~ drawn E (ar_ID record) -> undrawn (<[ar_ID record := Some record]> d).
Proof. intros Hd Hr i r [[_ [= <-]]|[_ Hi]]%lookup_insert_Some; [done|by eapply Hd]. Qed.

Lemma wp_save_undrawn record (Q : result unit -> ApprovalDir -> Prop) d : undrawn d -> ~ drawn E (ar_ID record) ->
  (forall r d', undrawn d' -> Q r d') -> wp E (Approval.save record) Q d.
Proof. intros Hd Hr HQ. apply Approval.wp_save; [intros r; apply HQ; by apply (undrawn_insert d record)|intros e; by apply HQ]. Qed.

Lemma wp_expire_undrawn record (Q : result (ApprovalRecord * result unit) -> ApprovalDir -> Prop) d :
  undrawn d -> ~ drawn E (ar_ID record) ->
  (forall record' saved d', undrawn d' -> ~ drawn E (ar_ID record') -> Q (Ok (record', saved)) d') -> wp E (Approval.expire record) Q d.
Proof.
  intros Hd Hr HQ. unfold expire. destruct (negb _); [apply wp_ret; auto|]. wp_step. wp_step. wp_step; [wp_step; auto|].
  wp_step. wp_step. cbv zeta. wp_step. wp_step. apply wp_save_undrawn; [done|done|]. intros r d' Hd'. apply wp_ret. auto.
Qed.

Lemma wp_List_undrawn d : undrawn d ->
  wp E List_ (fun r d' => forall out, r = Ok out -> Forall (fun record => ~ drawn E (ar_ID record)) out) d.
Proof.
  intros Hd. unfold List_. wp_step. wp_step; [|done]. wp_step. wp_step; [by intros|]. wp_step.
  eapply wp_mono; [apply (wp_mapM _ _ _ undrawn (fun record => ~ drawn E (ar_ID record))); [|done]|].
  - intros id d0 _ Hd0. wp_step. wp_step; [|by split]. wp_step. apply Approval.wp_load; [by split|]. intros record _ Hrec.
    wp_step. apply wp_expire_undrawn; [done|by eapply Hd0|]. intros record' saved d' Hd' Hr'.
    wp_step. wp_step. destruct saved as [[]|e]; [|by split]. wp_step. split; [done|]. by intros b [= <-].
  - cbn beta. intros [bs|e] d' [_ Hbs]; [|done]. wp_step. intros out [= <-]. rewrite merge_sort_Permutation. by apply Hbs.
Qed.

Lemma wp_Resolve_undrawn id approve reason d : undrawn d ->
  wp E (Resolve id approve reason) (fun r d' => forall record saved, r = Ok (record, saved) -> ~ drawn E (ar_ID record)) d.
Proof.
  intros Hd. unfold Resolve. wp_step. wp_step; [|done]. wp_step. apply Approval.wp_load; [done|]. intros record _ Hrec.
  pose proof (Hd _ _ Hrec) as Hr. wp_go; try (by intros ? ? [= <- _]).
  all: apply wp_any; intros; apply wp_ret; by intros ? ? [= <- _].
Qed.

(** No record is dropped. *)
Definition kept (d d' : ApprovalDir) : Prop := forall id, is_Some (d !! id) -> is_Some (d' !! id).

#[local] Instance kept_preorder : PreOrder kept.
Proof. split; [by intros d id|]. intros a b c Hab Hbc id Hid. by apply Hbc, Hab. Qed.

Lemma kept_save record d d0 : kept d0 d -> kept d0 (<[ar_ID record := Some record]> d).
Proof. intros Hk id Hid%Hk. destruct (base.decide (ar_ID record = id)) as [<-|Hne]; [rewrite lookup_insert_eq; by eexists|by rewrite lookup_insert_ne]. Qed.

Lemma kept_expire record d0 d : kept d0 d -> wp E (Approval.expire record) (fun _ d' => kept d0 d') d.
Proof. intros Hk. unfold Approval.expire. wp_approval; auto using kept_save. Qed.

Lemma kept_Get id d : wp E (Get id) (fun _ d' => kept d d') d.
Proof. unfold Get, guard_. wp_approval; try reflexivity. by apply kept_expire. Qed.

Lemma kept_List d : wp E List_ (fun _ d' => kept d d') d.
Proof.
  unfold List_. wp_approval; try reflexivity.
  eapply wp_mono; [apply (wp_mapM _ _ _ (kept d) (fun _ => True)); [|reflexivity]|].
  - intros id d1 _ H1. wp_approval; try (split; [done|]; done). eapply wp_mono; [by apply (kept_expire r d)|].
    intros [[rec [[]|e]]|e] d2 H2; wp_approval; by split.
  - intros [out|e] d1 [H1 _]; [by wp_approval|done].
Qed.

Lemma kept_Resolve id approve reason d : wp E (Resolve id approve reason) (fun _ d' => kept d d') d.
Proof. unfold Resolve. wp_approval; try reflexivity; by apply kept_save. Qed.
End Sources.

(** ** One request *)
Section Served.
Context {T H X Y : Type} `{TraceSink T} `{TraceReader T} `{Outside X} `{HealthVerifier X} `{UnicodeCase} `{UnicodeUpper} `{TimeText} `{TimeParse}
  `{LocalDate} `{Regexp} `{Sprinter} `{ManagedPatterns} `{PlannerPatterns} `{EnvelopeDecoder} (busy : nat) (limits : Limits)
  (o : Orchestrator H) (execute : option (ActionEnvelope -> M Y Result)) (traced : bool).

Abbreviation State := (ServerState T H X Y).
Abbreviation App := (ResumeState T H X Y).
Abbreviation Handler := (M State Reply).
Abbreviation resumer := (System.resumer (T := T) (X := X) busy o execute traced).

(** What has been sent, seen from within a request. *)
Definition spent_in (E : Env) (s : App) : Prop :=
  spent s /\ forall e, e ∈ rm_executed s -> ~ drawn E (ae_ApprovalID e).

Lemma spent_in_moves E s s' : moves E s s' -> spent_in E s -> spent_in E s'.
Proof.
  intros [Hg He] [[S1 S2 S3] Hd]. split; [|by rewrite He]. split; rewrite ?He; [by apply Hg|done|].
  intros e Hin. destruct (S3 e Hin) as [Hw Hr]. split; [|by apply Hg]. eapply goes_on_waits; [exact Hg|by apply Hd|done].
Qed.

Lemma spent_in_resumed E record s s' : ~ drawn E (ar_ID record) -> resumed E record s s' -> spent_in E s -> spent_in E s'.
Proof.
  intros Hf [Hm|(v&e&s1&(P1&P2&P3&P4&P5&P6&P7&P8)&Hm&Hw&Hg&He)] Hs; [by eapply spent_in_moves|].
  pose proof (spent_in_moves _ _ _ Hm Hs) as [[S1 S2 S3] D1]. destruct Hs as [[[N0 R0 _] _ D0] _].
  assert (Hwait : waits (as_store (rm_agent s)) (ae_TaskID e) (ae_ApprovalID e)).
  { exists v. rewrite P6, P8. split; [|done]. by rewrite (N0 _ _ P1). }
  assert (E1 : rm_executed s1 = rm_executed s) by apply Hm.
  rewrite E1 in S2, S3, D1.
  assert (Hd : forall e', e' ∈ rm_executed s ++ [e] -> ~ drawn E (ae_ApprovalID e')).
  { intros e' [Hin|Hin%list_elem_of_singleton]%elem_of_app; [by apply D1|]. subst e'. by rewrite P8. }
  split; [|by rewrite He]. split; rewrite ?He; [by apply Hg| |].
  - rewrite map_app. apply NoDup_app. split; [done|]. split; [|apply NoDup_singleton].
    intros k Hin Hk. apply list_elem_of_singleton in Hk as ->. apply list_elem_of_fmap in Hin as (e'&Hk'&Hin).
    unfold key_of in Hk'. injection Hk' as K1 K2. destruct (D0 e' Hin) as [Hn _]. apply Hn. by rewrite <- K1, <- K2.
  - intros e' Hin. pose proof (Hd e' Hin) as Hn.
    apply elem_of_app in Hin as [Hin|Hin%list_elem_of_singleton].
    + destruct (S3 e' Hin) as [Hw' Hr]. split; [|by apply Hg]. by eapply goes_on_waits; [exact Hg| |].
    + subst e'. split; [|by apply Hg, Hm, (R0 (ae_TaskID e))].
      eapply goes_on_waits; [exact Hg|done|]. rewrite P6. apply Hw.
Qed.

(** A part of a request sends each approval at most once. *)
Definition once (E : Env) (s s' : State) : Prop := spent_in E (sv_app s) -> spent_in E (sv_app s').

#[local] Instance once_preorder E : PreOrder (once E).
Proof. split; [by intros s Hs|]. intros a b c H1' H2' Hs. by apply H2', H1'. Qed.

Abbreviation sends E m P := (stays E (once E) m P).

Lemma sends_app {A} E (m : M App A) : (forall s, wp E m (fun _ s' => moves E s s') s) -> sends E (on_app m) (fun _ => True).
Proof.
  intros Hm s. apply wp_zoom. eapply wp_mono; [apply Hm|]. intros r v Hv. split; [|done]. intros Hs. exact (spent_in_moves _ _ _ Hv Hs).
Qed.

Lemma sends_agent {A} E (m : M (AgentState T H X) A) : stays E (goes_on (drawn E)) m (fun _ => True) -> sends E (on_app (on_agent m)) (fun _ => True).
Proof. intros Hm. apply sends_app. intros s. apply wp_agent_moves. eapply wp_mono; [apply Hm|]. by intros r a' [Hg _]. Qed.

Lemma sends_modify E (f : State -> State) : (forall s, sv_app (f s) = sv_app s) -> sends E (modify f) (fun _ => True).
Proof. intros Hf s. apply wp_modify. split; [|done]. unfold once. by rewrite Hf. Qed.

(** Parts that only read or write sessions. *)
Lemma sends_store {A} E (m : M Store A) :
  (forall v, wp E m (fun _ v' => st_tasks v' = st_tasks v /\ st_state v' = st_state v) v) -> sends E (app_store m) (fun _ => True).
Proof.
  intros Hm. apply sends_agent. intros a. apply wp_zoom. eapply wp_mono; [apply Hm|]. intros r v [Ht Hs].
  split; [by apply goes_on_same|done].
Qed.

Lemma sends_list {A} E (kind : Kind A) (k : list A -> list A) : sends E (app_store (out <- list_ kind ;; ret (k out))) (fun _ => True).
Proof. apply sends_store. intros v. apply wp_bind, wp_list_; [intros out _; by apply wp_ret|by intros]. Qed.

Lemma sends_saved_session E value : sends E (app_store (SaveSession busy value)) (fun _ => True).
Proof.
  apply sends_store. intros v. unfold SaveSession. apply wp_validate; [done|intros _]. apply wp_exclusive; [|done].
  by apply wp_saveLocked.
Qed.

Lemma sends_changed_session E id f : sends E (app_store (UpdateSession busy id f)) (fun _ => True).
Proof. apply sends_agent, goes_session. Qed.

Lemma sends_get {A} E (kind : Kind A) id : sends E (app_store (get kind id)) (fun _ => True).
Proof. apply sends_agent, goes_read. Qed.

(** The approval store drops no record. *)
Lemma sends_approvals {A} E (m : M ApprovalDir A) :
  (forall d, wp E m (fun _ d' => kept d d') d) -> sends E (app_approvals m) (fun _ => True).
Proof.
  intros Hm. apply sends_agent. intros a. apply wp_zoom. eapply wp_mono; [apply Hm|]. intros r d Hd.
  split; [by apply goes_on_approvals|done].
Qed.

Lemma sends_reserve E : sends E (reserveTaskSlot (T := T) (H := H) (X := X) (Y := Y) limits) (fun _ => True).
Proof. intros s. apply wp_reserve; intros _; (split; [intros Hs; exact Hs|done]). Qed.

Lemma sends_from {A} E (m : M State A) : (forall s, spent_in E (sv_app s) -> wp E m (fun _ s' => spent_in E (sv_app s')) s) ->
  sends E m (fun _ => True).
Proof.
  intros Hm s. eapply wp_mono; [apply (wp_given (spent_in E (sv_app s)) E m (fun _ s' => spent_in E (sv_app s'))), Hm|].
  intros r s' Hs. by split.
Qed.

Lemma sends_opened E : sends E (app_store (NewFileStore busy)) (fun _ => True).
Proof.
  apply sends_from. intros s Hs. apply wp_zoom, wp_zoom, wp_zoom. eapply wp_mono; [by apply NewFileStore_calms, Hs|].
  intros r st' Hc. eapply spent_in_moves; [|exact Hs]. split; [by apply goes_on_calms|done].
Qed.

Lemma sends_resume E record : ~ drawn E (ar_ID record) -> sends E (on_app (Resume busy resumer record)) (fun _ => True).
Proof.
  intros Hd. apply sends_from. intros s Hs. apply wp_zoom.
  eapply wp_mono; [apply (wp_Resume busy resumer E (continuation_goes_on busy o execute traced E))|].
  intros r s' Hr. by apply (spent_in_resumed E record (sv_app s)).
Qed.

Ltac send_leaf := first
  [ apply sends_list with (k := fun x => x) | apply (sends_list _ sessions (merge_sort (later_first sn_UpdatedAt)))
  | apply (sends_list _ tasks (merge_sort (later_first tk_UpdatedAt))) | apply sends_saved_session | apply sends_changed_session
  | apply (sends_get _ sessions) | apply (sends_get _ tasks) | apply sends_reserve | apply sends_opened
  | apply sends_approvals; (apply kept_List || apply kept_Get || apply kept_Resolve)
  | apply sends_agent; (apply goes_make_durable || apply goes_Run || apply goes_RecoverIncomplete)
  | apply sends_modify; done | apply stays_now; [apply _|done] | apply stays_new_id; [apply _|done] | apply stays_get; [apply _|done] ].
Ltac send_step :=
  lazymatch goal with
  | |- stays _ _ (ret _) _ => apply stays_ret; [apply _|done]
  | |- stays _ _ (or_status _ _ _) _ => unfold or_status
  | |- stays _ _ (modify _) _ => apply sends_modify; done
  | |- stays _ _ (throw _) _ => apply stays_throw
  | |- stays _ _ (lift _) _ => apply stays_lift; [apply _|done]
  | |- stays _ _ (bind (try_ _) _) _ => eapply (stays_bind _ _ _ _ (fun _ => True)); [eapply stays_mono; [apply stays_try; send_leaf|done]|intros ? _]
  | |- stays _ _ (bind _ _) _ => eapply (stays_bind _ _ _ _ (fun _ => True)); [first [send_leaf|idtac]|intros ? _]
  | |- stays _ _ (match ?x with _ => _ end) _ => destruct x
  end.
Ltac send_walk := cbv zeta; repeat (send_step; cbv zeta; cbn beta); try done.

Lemma sends_createSession E body : sends E (createSession (T := T) (H := H) (X := X) (Y := Y) busy limits body) (fun _ => True).
Proof. unfold createSession. send_walk. Qed.
Lemma sends_listSessions E q archived : sends E (listSessions (T := T) (H := H) (X := X) (Y := Y) q archived) (fun _ => True).
Proof. unfold listSessions. send_walk. Qed.

Lemma sends_getSession E id : sends E (getSession (T := T) (H := H) (X := X) (Y := Y) id) (fun _ => True).
Proof. unfold getSession. send_walk. Qed.

Lemma sends_updateSession E id body : sends E (updateSession (T := T) (H := H) (X := X) (Y := Y) busy id body) (fun _ => True).
Proof. unfold updateSession, may_archive. send_walk. Qed.

Lemma sends_getTask E id : sends E (getTask (T := T) (H := H) (X := X) (Y := Y) id) (fun _ => True).
Proof. unfold getTask. send_walk. Qed.

Lemma sends_listTasks E session_id state limit : sends E (listTasks (T := T) (H := H) (X := X) (Y := Y) session_id state limit) (fun _ => True).
Proof. unfold listTasks. send_walk. Qed.

Lemma sends_createMessage E id body :
  sends E (createMessage (T := T) (H := H) (X := X) (Y := Y) busy limits (Some o) id body) (fun _ => True).
Proof.
  unfold createMessage, accept_message, run_ended, releaseTaskSlot. send_walk.
Qed.
Lemma sends_listApprovals E : sends E (listApprovals (Some resumer)) (fun _ => True).
Proof. unfold listApprovals. send_walk. Qed.

Lemma sends_getApproval E id : sends E (getApproval (Some resumer) id) (fun _ => True).
Proof. unfold getApproval. send_walk. Qed.

Lemma sends_background E order index run : sends E (background_run (Y := Y) busy order o index run) (fun _ => True).
Proof. unfold background_run, run_ended, releaseTaskSlot. send_walk. Qed.

Lemma sends_resume_each E records : Forall (fun record => ~ drawn E (ar_ID record)) records ->
  sends E (resume_each busy resumer records) (fun _ => True).
Proof.
  induction 1 as [|record records Hd _ IH]; cbn [resume_each]; [send_walk|].
  eapply (stays_bind _ _ _ _ (fun _ => True)); [|by intros _ _].
  destruct (string_in _ _); [|send_walk]. eapply (stays_bind _ _ _ _ (fun _ => True)); [|intros ? _; send_walk].
  eapply stays_mono; [by apply stays_try, sends_resume|done].
Qed.

(** The two requests that resume approvals: their records were there before. *)
Definition approvals_of (s : State) : ApprovalDir := as_approvals (rm_agent (sv_app s)).

Lemma wp_then {A B} E (m : M State A) (k : A -> M State B) s :
  wp E m (fun r s1 => once E s s1 /\ forall x, r = Ok x -> sends E (k x) (fun _ => True)) s ->
  wp E (bind m k) (fun _ s' => once E s s') s.
Proof.
  intros Hm. apply wp_bind. eapply wp_mono; [exact Hm|]. intros [x|e] s1 [H1' Hk]; [|done].
  eapply wp_mono; [by apply Hk|]. intros r s2 [H2' _]. by etrans.
Qed.

Lemma wp_told {A} E (m : M ApprovalDir A) (P : A -> Prop) s :
  (forall d, wp E m (fun _ d' => kept d d') d) -> wp E m (fun r _ => forall x, r = Ok x -> P x) (approvals_of s) ->
  wp E (try_ (app_approvals m)) (fun r s1 => once E s s1 /\ forall x, r = Ok (Ok x) -> P x) s.
Proof.
  intros Hk Hp. apply wp_try. eapply wp_mono; [eapply (wp_both _ _ _ (fun r _ => forall x, r = Ok x -> P x)); [apply sends_approvals, Hk|]|].
  - apply wp_zoom, wp_zoom, wp_zoom. exact Hp.
  - intros r s1 [[Ho _] Hx]. split; [exact Ho|]. intros x [= ->]. by apply Hx.
Qed.

Lemma once_resolve E id approve reason s : undrawn E (approvals_of s) ->
  wp E (resolve_and_resume busy resumer id approve reason) (fun _ s' => once E s s') s.
Proof.
  intros Hu. unfold resolve_and_resume. apply wp_then.
  eapply wp_mono; [apply (wp_told E _ (fun p => ~ drawn E (ar_ID p.1))); [apply kept_Resolve|]|].
  - eapply wp_mono; [by apply wp_Resolve_undrawn|]. intros r d Hr [record saved] ->. by eapply Hr.
  - intros r s1 [Ho Hr]. split; [exact Ho|]. intros x ->.
    destruct x as [[record [[]|e]]|e]; [|send_walk..]. specialize (Hr _ eq_refl). cbn in Hr.
    eapply (stays_bind _ _ _ _ (fun _ => True)); [eapply stays_mono; [by apply stays_try, sends_resume|done]|].
    intros resumed _. destruct (match resumed with Ok p => p | Err e => (zero_task, Some e) end) as [value [e|]];
      unfold publish_state; send_walk.
Qed.

Lemma once_resolveApproval E id body s : undrawn E (approvals_of s) ->
  wp E (resolveApproval busy limits (Some resumer) id body) (fun _ s' => once E s s') s.
Proof.
  intros Hu. unfold resolveApproval. destruct (decodeJSON _ _ _) as [input|e]; [|by apply wp_ret].
  cbv zeta. destruct (negb _); [by apply wp_ret|]. apply wp_bind, wp_reserve; intros _; cbn [negb]; [|by apply wp_ret].
  change (once E s) with (once E (set_slots (S (sv_taskSlots s)) s)).
  apply wp_then, wp_try. eapply wp_mono; [by apply once_resolve|]. intros reply s1 Ho. split; [exact Ho|]. intros x [= <-].
  unfold releaseTaskSlot. send_walk.
Qed.

Lemma sends_recovered E order : sends E (recover_tasks (Y := Y) busy (Some o) order) (fun _ => True).
Proof. unfold recover_tasks. send_walk. Qed.

Lemma once_resumed E s : undrawn E (approvals_of s) -> wp E (resumeResolvedApprovals busy resumer) (fun _ s' => once E s s') s.
Proof.
  intros Hu. unfold resumeResolvedApprovals. apply wp_then.
  eapply wp_mono; [apply (wp_told E _ (Forall (fun record => ~ drawn E (ar_ID record)))); [apply kept_List|by apply wp_List_undrawn]|].
  intros r s1 [Ho Hr]. split; [exact Ho|]. intros x ->. destruct x as [records|e]; [|send_walk].
  by apply sends_resume_each, Hr.
Qed.

Lemma once_start E s : undrawn E (approvals_of s) ->
  wp E (start_server busy (Some resumer)) (fun _ s' => once E s s') s.
Proof.
  intros Hu. unfold start_server. apply wp_bind, wp_modify. cbn beta iota. set (s0 := MkServerState _ _ _ _ _).
  apply wp_bind, wp_try. eapply wp_mono; [eapply (wp_both _ _ _ (fun _ s1 => approvals_of s1 = approvals_of s)); [apply (sends_opened E)|]|].
  { apply wp_zoom, wp_zoom, wp_zoom, wp_any. done. }
  intros r s1 [[Ho _] Ha]. cbn beta iota. assert (Hs : once E s s1) by exact Ho. destruct r as [[]|e]; [|by apply wp_throw].
  eapply wp_mono; [apply once_resumed; by rewrite Ha|]. intros r s2 Ho2. by etrans.
Qed.

Lemma once_answered {A} E (m : M State A) s : sends E m (fun _ => True) ->
  wp E (reply <- m ;; ret (Some reply)) (fun _ s' => once E s s') s.
Proof. intros Hm. apply wp_then. eapply wp_mono; [apply Hm|]. intros r s1 [Ho _]. split; [exact Ho|]. intros. send_walk. Qed.

#[local] Hint Resolve sends_createSession sends_listSessions sends_getSession sends_updateSession sends_createMessage
  sends_getTask sends_listTasks sends_listApprovals sends_getApproval : sends.

(** Every request sends each approval at most once. *)
Lemma once_serve E q s : undrawn E (approvals_of s) ->
  wp E (serve busy limits (Some o) (Some resumer) q) (fun _ s' => once E s s') s.
Proof.
  intros Hu. destruct q; cbn [serve].
  3-7, 9-12: apply once_answered; auto with sends.
  - apply wp_then, wp_try. eapply wp_mono; [by apply once_start|]. intros r s1 Ho. split; [exact Ho|]. intros x _. send_walk.
  - apply wp_then. eapply wp_mono; [apply sends_recovered|]. intros r s1 [Ho _]. split; [exact Ho|]. intros. send_walk.
  - apply wp_bind, wp_get. cbn beta iota. destruct (sv_runs s !! index) as [run|]; [|by apply wp_ret].
    apply wp_then. eapply wp_mono; [apply sends_background|]. intros r s1 [Ho _]. split; [exact Ho|]. intros. send_walk.
  - apply wp_then. eapply wp_mono; [by apply once_resolveApproval|]. intros r s1 Ho. split; [exact Ho|]. intros. send_walk.
Qed.

(** The ids a request draws are new: no approval has them and no record
    carries them. *)
Definition fresh_request (E : Env) (s : State) : Prop := fresh_step E (sv_app s) /\ undrawn E (approvals_of s).

Definition fresh_requests (l : list (Env * request)) (s : State) : Prop :=
  forall l1 E q l2, l = l1 ++ (E, q) :: l2 ->
    fresh_request E (serve_all busy limits (Some o) (Some resumer) l1 s).

(** C3: the console cannot make an approval act twice.  Whatever requests
    are served, whatever runs end, in which order, with failures and crashes
    at any system call and restarts in between, no approval of a task sends
    two envelopes to the executor, and no task waits any more for an approval
    that has sent one. *)
Theorem console_executes_once (l : list (Env * request)) (s : State) :
  sound (rm_agent (sv_app s)) -> rm_executed (sv_app s) = [] -> fresh_requests l s ->
  spent (sv_app (serve_all busy limits (Some o) (Some resumer) l s)).
Proof.
  intros Hs He.
  assert (H0' : spent (sv_app s)).
  { split; [done|rewrite He; constructor|]. rewrite He. intros e Hin. by apply elem_of_nil in Hin. }
  clear Hs He. revert s H0'. induction l as [|[E q] l IH]; intros s Hs Hf; [done|]. cbn [serve_all]. apply IH.
  - destruct (Hf [] E q l eq_refl) as [Hfresh Hu]. cbn [serve_all] in Hfresh, Hu.
    apply (once_serve E q s Hu (init_world s) eq_refl). split; [done|]. intros e Hin.
    eapply fresh_known; [exact Hfresh|]. by apply Hs.
  - intros l1 E' q' l2 ->. apply (Hf ((E, q) :: l1) E' q' l2). done.
Qed.
End Served.

(** ** A recovery through the console *)
Module Lab.
Import Evidence.Lab.
#[local] Existing Instances lab_case plain_time plain_parse counting_sink no_regexp no_sprint no_managed mask_patterns
  System.Lab.counting_reader System.Lab.lab_date System.Lab.lab_outside System.Lab.lab_health.
#[local] Instance lab_upper : UnicodeUpper := fun r => r.

Abbreviation Server := (ServerState nat nat (list json) nat).
Definition server : Server := MkServerState System.Lab.start ∅ 0%nat [] newEventHub.
Abbreviation executor := (System.resumer 2 orchestrator (Some System.Lab.carried_out) true).
Abbreviation after l := (serve_all 2 defaultLimits (Some orchestrator) (Some executor) l server).

Definition answer (E : Env) (q : request) (s : Server) : option (Z * string) :=
  match (serve 2 defaultLimits (Some orchestrator) (Some executor) q E (init_world s)).1 with
  | Ok (Some r) => Some (rp_status r, match rp_body r with
      | BError e => error_text e | BAccepted id _ => id | BResolved _ v _ => tk_State v | _ => "" end)
  | _ => None
  end.

Fixpoint answers (l : list (Env * request)) (s : Server) : list (option (Z * string)) :=
  match l with
  | [] => []
  | (E, q) :: l => answer E q s :: answers l (serve_all 2 defaultLimits (Some orchestrator) (Some executor) [(E, q)] s)
  end.

Definition ask (content : string) : string := print (JObj [("content", JStr content)]).
Definition decide (decision : string) : string := print (JObj [("decision", JStr decision)]).

(** Histories in a calm environment, each request with its time and the id
    that it draws. *)
Abbreviation calmly l := (map (fun c => (calm c.1.1 c.1.2, c.2)) l).

Definition console_calls : list (Z * string * request) := [
  (5, "01", CreateMessage "session_1" (ask System.Lab.request));
  (5, "02", CreateMessage "session_1" (ask System.Lab.request));
  (5, "03", CreateMessage "session_2" (ask System.Lab.request));
  (5, "04", RunEnds ordinals 0);
  (6, "05", CreateMessage "session_1" (ask System.Lab.request));
  (6, "06", ResolveApproval "approval_04" (decide "approve"));
  (7, "07", ResolveApproval "approval_04" (decide "reject"));
  (8, "08", ResolveApproval "approval_06" (decide " Approve "));
  (9, "09", ResolveApproval "approval_06" (decide "approve"));
  (9, "10", GetTask_ "task_01")].
Abbreviation console := (calmly console_calls).

(** The second message waits for the first; the two approvals are granted, one
    of them twice. *)
Example console_recovers :
  answers console server = [
    Some (202, "task_01"); Some (409, "session already has a running task"); Some (404, "not found"); None;
    Some (409, "session already has active task task_01 in state WAITING_APPROVAL");
    Some (200, WaitingApproval); Some (409, "approval is APPROVED"); Some (200, Completed); Some (502, Completed); Some (200, "")] /\
  map (fun e => (ap_Tool (ae_Proposal e), ae_ApprovalID e)) (rm_executed (sv_app (after console)))
    = [("process.terminate", "approval_04"); ("service.restart", "approval_06")].
Proof. vm_compute. split; reflexivity. Qed.

(** An approval that expires while the server runs: deciding it is refused and
    resumes nothing, so its task waits and its session takes no message, until
    the server starts again. *)
Definition late : Z := 5 + 11 * Minute.
Definition expiring : list (Env * request) := [
  (calm 5 "01", CreateMessage "session_1" (ask System.Lab.request));
  (calm 5 "02", RunEnds ordinals 0);
  (calm late "03", ResolveApproval "approval_02" (decide "reject"));
  (calm late "04", ListApprovals_);
  (calm late "05", GetApproval_ "approval_02");
  (calm late "06", CreateMessage "session_1" (ask System.Lab.request));
  (calm late "07", Starts);
  (calm late "08", CreateMessage "session_1" (ask System.Lab.request))].

Example expired_approval_blocks_session :
  answers expiring server = [
    Some (202, "task_01"); None; Some (409, "approval expired"); Some (200, ""); Some (200, "");
    Some (409, "session already has active task task_01 in state WAITING_APPROVAL"); None; Some (202, "task_08")].
Proof. vm_compute. reflexivity. Qed.

Lemma runs_limited_witness : bookkept defaultLimits (after console).
Proof. apply (runs_limited 2 defaultLimits (Some orchestrator) (Some executor)); [done|by split; [| |set_solver|constructor]]. Defined.

(** No approval has the id or carries it. *)
Definition unknown (id : string) (s : Server) : bool :=
  forallb (fun kr => negb (String.eqb kr.1 id) && match kr.2 with Some r => negb (String.eqb (ar_ID r) id) | None => true end)
    (map_to_list (approvals_of s)).

Fixpoint unknown_each (l : list (Z * string * request)) (s : Server) : bool :=
  match l with
  | [] => true
  | c :: l => unknown ("approval_" +:+ c.1.2) s
              && unknown_each l (serve_all 2 defaultLimits (Some orchestrator) (Some executor) (calmly [c]) s)
  end.

Lemma unknown_fresh t x s : unknown ("approval_" +:+ x) s = true -> fresh_request (calm t x) s.
Proof.
  unfold unknown. rewrite forallb_forall. intros Hu.
  assert (Hk : forall k r, approvals_of s !! k = Some r -> k <> "approval_" +:+ x /\
    match r with Some r => ar_ID r <> "approval_" +:+ x | None => True end).
  { intros k r Hr. apply elem_of_map_to_list, list_elem_of_In in Hr. apply Hu in Hr. cbn -[String.append] in Hr.
    apply andb_true_iff in Hr as [H1%negb_true_iff%String.eqb_neq H2]. split; [done|].
    destruct r; [by apply negb_true_iff, String.eqb_neq in H2|done]. }
  split.
  - intros n [r Hr]. by apply Hk in Hr as [[] _].
  - intros k r Hr [n Hn]. by apply Hk in Hr as [_ []].
Qed.

Lemma unknown_fresh_each l s : unknown_each l s = true ->
  fresh_requests 2 defaultLimits orchestrator (Some System.Lab.carried_out) true (calmly l) s.
Proof.
  revert s. induction l as [|c l IH]; intros s Hu l1 E q l2 Hl; [by destruct l1|].
  apply andb_true_iff in Hu as [Hu Hrest]. destruct l1 as [|c1 l1]; cbn in Hl.
  - injection Hl as <- _ _. by apply unknown_fresh.
  - injection Hl as <- Hl. exact (IH _ Hrest l1 E q l2 Hl).
Qed.

Lemma console_executes_once_witness : spent (sv_app (after console)).
Proof.
  apply (console_executes_once 2 defaultLimits orchestrator (Some System.Lab.carried_out) true);
    [exact System.Lab.start_sound|reflexivity|apply unknown_fresh_each; vm_compute; reflexivity].
Defined.

Definition first_message := createMessage (X := list json) (T := nat) (Y := nat) 2 defaultLimits (Some orchestrator)
  "session_1" (ask System.Lab.request) (calm 5 "01") (init_world server).

Lemma accepted_is_durable_witness : exists content,
  decodeJSON (dec_one_string "content") "" (ask System.Lab.request) = Ok content /\
  durable "session_1" (TrimSpace content) server first_message.1 (st first_message.2).
Proof.
  apply (accepted_is_durable 2 defaultLimits (Some orchestrator) (calm 5 "01") (calm_honest' 5 "01") "session_1"
    (ask System.Lab.request) server (init_world server) eq_refl (MkReply StatusAccepted (BAccepted "task_01" "session_1")));
    vm_compute; reflexivity.
Defined.
End Lab.
